(* ===== verification/_CoqProject ===== *)
-Q . S2P
Prelude.v
Bytes.v
Hoare.v
Interfaces.v
CString.v
Format.v
ListHead.v
Pmm.v
Kheap.v
Vmm.v
Task.v
Scheduler.v
Signal.v
Delivery.v
Timer.v
Ext2.v
Ext2File.v
Ext2Dir.v
Procfs.v
HeapList.v
Hashmap.v
RingBuffer.v
