(* ===== verification/Prelude.v ===== *)
(** * A verification library for the hos kernel

    hos is a kernel for the i386 in C: a boot stub in the higher half, a physical
    frame allocator, page tables with a recursive mapping, a kernel heap, tasks
    with a round-robin scheduler and wait queues, signals, timers, a virtual file
    system with ext2, procfs and devices, and a library of strings, lists and
    formatted output. This library models the parts below in Rocq, function by
    function, and proves what they do. Names are those of the source where they
    are not taken; paths are under src/.

    ** Machine and errors

    C integers are elements of [Z] with the wrap written out ([u32], [s32]). A
    function that touches memory is a [M S A]: it runs on the state it can see and
    returns a result and a new state, or a [fault]: an access to an object that
    does not exist, an index outside an array, a division by zero, a loop that does
    not end, or a call of arch_fatal or kernel_panic, which do not return. The
    kernel's assert only prints, so it is no check. Every theorem about an operation
    says that it runs to its end with the result given, or names the fault.
    Where two parts meet, the client is proved against a type class of
    Interfaces.v and the implementation discharges its laws.

    ** Files

    - Prelude.v (this file): integers and bits, the monad and its tactics, counted
      loops, arrays, record update, lists.
    - Bytes.v: byte strings, the fields of packed structures and their layout.
    - Hoare.v: [wp] and [triple], total correctness up to a fatal stop, for programs
      whose state is represented by something simpler.
    - Interfaces.v: [FrameAllocator] (frames of physical memory), [PageMapper]
      (pages of the kernel), [HeapAllocator] (kmalloc and kfree for their users),
      [ProcessServices] (what processes ask of the file system and of memory
      management), [BlockDevice] (vfs_read and vfs_write on the device of a file
      system), [Clock] (the time of day). [FrameClients]: clients of a frame allocator never share a frame.
    - CString.v, Module CString: src/kernel/misc/string.c, lib/ctype.c, lib/stdio.c,
      lib/libgen.c over a memory of bytes. Copying with overlap, building,
      comparing and searching strings, [strtok_r] as the words of a string,
      [strtol] with its saturation, [basename] and [dirname].
    - Format.v, Module Format: lib/vsprintf.c, [itoa], [to_human_size],
      [dec_to_binary]. The layout of a number, whole formats whose integers are
      [numeral]s of their values, and the round trip through [atoi].
    - ListHead.v, Module ListHead: include/kernel/list_head.h, the circular lists
      embedded in other structures, over a store of links by address. The
      operations refine those on lists of addresses ([list_ops_refine]).
    - Pmm.v, Module Pmm: memory/pmm.c, the frame bitmap. Start-up from the memory
      map, single frames and runs of frames; implements [FrameAllocator].
    - Kheap.v, Module Kheap: memory/kheap.c on a memory of words: the block list,
      the free list, splitting, merging, growing through a [PageMapper]. Sessions
      of kmalloc, kfree and writes keep blocks apart and their contents
      ([heap_sessions_isolated]); implements [HeapAllocator].
    - Vmm.v, Module Vmm: memory/vmm.c over a machine that walks the two-level
      tables in physical memory and, with CR0.WP set as in arch/i386/bootstrap.S,
      lets the kernel write only where both entries are writable. Mapping, unmapping
      and lookup refine a map from pages to entries ([address_space_refines]);
      implements [PageMapper], so the heap takes its pages from it
      ([heap_on_page_tables]; the words of the heap stay in a memory of their own
      beside the tables).
    - Task.v, Module Task: task structures, the run queue and the wait queue as one
      state on top of a heap (include/kernel/process/task.h, scheduler.h, wait.h,
      system/signal.h), its accessors, locks and list traversals.
    - Scheduler.v, Module Scheduler: process/scheduler.c, sched_algo.c, wait.c:
      choosing the next task, the run queue, sleeping and waking, waitpid, the
      identity and scheduling calls.
    - Signal.v, Module Signal: system/signal.c up to taking a signal: sets, sending,
      the pending queue, handlers and the return from them, the system calls.
    - Delivery.v, Module Delivery: do_signal with its nested call of the scheduler,
      scheduler_run, sys_exit. The round robin refines a rotation of the queue and
      is fair.
    - Timer.v, Module Timer: arch/i386/timer.c on top of the processes: the timing
      wheel of five vectors ([wheel]: a set of pending timers), its cascades and
      run_timer_softirq against the interface [TimerClient] of whoever sets timers,
      sleeping, alarms and interval timers. Every timer runs once, at its tick
      ([softirq_correct]); sleepers become runnable when theirs has come
      ([sleepers_wake]).
    - Ext2.v, Module Ext2: fs/ext2.c on a [BlockDevice] and a [HeapAllocator]: the
      structures of the disk, blocks, bitmaps, inodes, allocation. The proofs are
      triples over a [view] of the state: the bytes of the disk, the room left on
      the heap, the buffers in use and the file system in memory. [mounted] says
      that memory and disk agree, [consistent] what the bitmaps promise.
    - Ext2File.v, Module Ext2File: the block numbers of a file, direct and through
      index blocks, growing, reading and writing its data. [file_content] is the
      abstract file; ext2_read is a slice of it and ext2_write a splice.
    - Ext2Dir.v, Module Ext2Dir: the entries of a directory ([slots], and [dir_ok] for
      a well-formed one), the iterator, looking a name and a path up, adding and
      removing entries. The abstract directory is the partial function [lookup_slot]
      from names to slots; adding and removing change it at one name.
    - Procfs.v, Module Procfs: fs/procfs.c on a [HeapAllocator] and a [Clock]: the
      files in memory, the operations of the file system switch on them and the
      entries the kernel makes. The proofs are triples over the list of the files
      ([view]); [tree_ok] is what every session of calls keeps.
    - HeapList.v, Module HeapList: lib/list.c, include/kernel/list.h on a
      [HeapAllocator]: doubly linked lists whose nodes are blocks. Sessions of
      operations refine those on the list of values ([heap_list_refines]).
    - Hashmap.v, Module Hashmap: lib/hashmap.c: chained hash maps with the functions
      of the map as values. [HashKeys] states what these functions owe to each other,
      for integers and for strings; sessions refine a finite map ([hashmap_refines]).
    - RingBuffer.v, Module RingBuffer: the fixed-size buffer of
      include/kernel/ring_buffer.h, which refines a bounded queue.

    ** Bounds and fuel

    Loops over lists take the length of the list from the state or a fuel argument
    that the theorems bound: a traversal of a run queue or a block list needs its
    length, a string loop one more than the length of the string, the conversion
    of a word 32 rounds. [FLoop] is the result when the fuel is too small, and no
    theorem has a hypothesis that excludes it other than such a bound. Addresses of
    strings do not wrap: an object lies below 2^32.

    ** What the theorems show

    Memory: frames, pages and blocks are handed out once, freed ones can be used
    again, contents survive, the only failure is exhaustion. Processes: the queue
    invariants hold through every operation, the next task is the first runnable
    one, every runnable task gets its turn, waitpid reaps a child once, signals are
    taken in the order of the pending set and the queue, handlers return to where
    the task was. Files: allocated blocks and inodes are distinct and marked, an inode
    and the data of a file read back as written, the rest of the disk is left
    alone, and directories stay well-formed; the files of procfs stay a tree. Library:
    results of the string and formatting functions, with frame conditions; lists,
    hash maps and ring buffers refine lists, finite maps and bounded queues.

    The comment of a theorem names the conditions under which it holds. What the
    code does where it goes wrong, and where a comment of the source describes
    something else, is kept out of these theorems by a hypothesis ([allowed],
    [honoured], [documented], [new_keys], [copyable], [spec_op], ...) and shown on its
    own. Where the source goes wrong, an Example or a theorem on
    a concrete state shows it (wrapping heap sizes, exhaustion of the heap, aligned
    allocation, the frame of the bitmap, deallocating page tables, a zombie that is
    counted twice, dirname of a path that ends in a slash, trim of blanks, the last
    tick of the clock, alarms of other processes, interval timers that are lost,
    preferred inode groups, block numbers that are not stored, short writes that
    report an error, a growing file on a full disk, directories that cannot be
    removed, a link counted for an entry that is not made, orphans of a process when init
    has no child, masks of signal handlers, unlinking in procfs, lists whose
    only node is removed, hash maps from which a missing key is removed).

    ** Not modelled

    Device drivers (ATA, video, keyboard, PS/2, PCI, RTC, serial), descriptor tables
    and interrupt entry, port I/O, the boot stub and multiboot parsing are
    instructions and I/O. The floating-point conversions of vsprintf are disabled in
    the source. The user heap of kheap.c has no caller. Process address
    spaces (memory/mmu.c), fork and exec (process/task.c, elf.c) and the file system
    switch (fs/vfs.c) are not modelled: [ProcessServices] and the operations of each
    file system are the boundary at which the modelled parts meet them. *)

From stdpp Require Export prelude gmap.
#[global] Open Scope Z_scope.

(** ** Machine integers

    An [n]-bit unsigned integer of the C code is the [Z] in [0, 2^n); every
    operation that can leave the range is followed by the wrap written out with
    [u8], [u16], [u32]. Signed types use the two's complement readings
    [s8], [s16], [s32]. *)
Definition u8 (x : Z) : Z := x mod 256.
Definition u16 (x : Z) : Z := x mod 65536.
Definition u32 (x : Z) : Z := x mod 4294967296.
Definition s8 (x : Z) : Z := (x + 128) mod 256 - 128.
Definition s16 (x : Z) : Z := (x + 32768) mod 65536 - 32768.
Definition s32 (x : Z) : Z := (x + 2147483648) mod 4294967296 - 2147483648.

(** The bitwise complement of a 32-bit word. *)
Definition u32_not (x : Z) : Z := u32 (Z.lnot x).

(** A C truth value. *)
Definition bool_int (b : bool) : Z := if b then 1 else 0.

(** [NULL]. *)
Definition NULL : Z := 0.

(** Arithmetic with division and remainder by constants. *)
Ltac dlia := Z.to_euclidean_division_equations; lia.

Definition is_u32 (x : Z) : Prop := 0 <= x < 4294967296.
Definition is_u8 (x : Z) : Prop := 0 <= x < 256.

Ltac wraplia := unfold is_u8, is_u32, u8, u16, u32, s8, s16, s32 in *; dlia.

Lemma u32_range x : 0 <= u32 x < 4294967296.
Proof. wraplia. Qed.
Lemma u32_small x : 0 <= x < 4294967296 -> u32 x = x.
Proof. wraplia. Qed.
Lemma u32_idemp x : u32 (u32 x) = u32 x.
Proof. wraplia. Qed.
Lemma s32_small x : -2147483648 <= x < 2147483648 -> s32 x = x.
Proof. wraplia. Qed.
Lemma s8_range x : -128 <= s8 x < 128.
Proof. wraplia. Qed.

Create HintDb hos discriminated.
#[export] Hint Resolve u32_range : hos.
#[export] Hint Rewrite u32_idemp : hos.

(** ** Bits of words *)
Section Bits.
Implicit Types w n k : Z.

Lemma u32_testbit w k : 0 <= k -> Z.testbit (u32 w) k = bool_decide (k < 32) && Z.testbit w k.
Proof.
  intros Hk. unfold u32. change 4294967296 with (2 ^ 32).
  case_bool_decide.
  - now rewrite Z.mod_pow2_bits_low by lia.
  - now rewrite Z.mod_pow2_bits_high by lia.
Qed.

Lemma word_testbit_high w k : is_u32 w -> 32 <= k -> Z.testbit w k = false.
Proof.
  intros Hw Hk. unfold is_u32 in Hw. rewrite <- (u32_small w) by lia.
  rewrite u32_testbit by lia. case_bool_decide; [lia | done].
Qed.

Lemma one_shiftl_testbit n k : 0 <= n -> 0 <= k -> Z.testbit (Z.shiftl 1 n) k = bool_decide (k = n).
Proof.
  intros Hn Hk. rewrite Z.shiftl_spec by lia.
  case_bool_decide as E.
  - subst. now rewrite Z.sub_diag.
  - destruct (decide (k < n)).
    + now rewrite Z.testbit_neg_r by lia.
    + destruct (k - n) eqn:Ek; [lia | now destruct p | lia].
Qed.

(** Setting bit [n] of a word: [w | (1 << n)]. *)
Definition word_set w n : Z := Z.lor w (u32 (Z.shiftl 1 n)).
(** Clearing bit [n] of a word: [w & ~(1 << n)]. *)
Definition word_clear w n : Z := Z.land w (u32_not (u32 (Z.shiftl 1 n))).
(** Testing bit [n] of a word: [(w & (1 << n)) != 0]. *)
Definition word_test w n : bool := negb (Z.land w (u32 (Z.shiftl 1 n)) =? 0).

Lemma mask_testbit n k : 0 <= n < 32 -> 0 <= k -> Z.testbit (u32 (Z.shiftl 1 n)) k = bool_decide (k = n).
Proof.
  intros Hn Hk. rewrite u32_testbit, one_shiftl_testbit by lia.
  repeat case_bool_decide; try done; lia.
Qed.

Lemma word_set_testbit w n k : 0 <= n < 32 -> 0 <= k ->
  Z.testbit (word_set w n) k = bool_decide (k = n) || Z.testbit w k.
Proof.
  intros. unfold word_set. rewrite Z.lor_spec, mask_testbit by lia. apply orb_comm.
Qed.

Lemma word_clear_testbit w n k : is_u32 w -> 0 <= n < 32 -> 0 <= k ->
  Z.testbit (word_clear w n) k = bool_decide (k <> n) && Z.testbit w k.
Proof.
  intros Hw Hn Hk. unfold word_clear, u32_not.
  rewrite Z.land_spec, u32_testbit, Z.lnot_spec, mask_testbit by lia.
  destruct (decide (k < 32)).
  - repeat case_bool_decide; destruct (Z.testbit w k); simpl; try done; lia.
  - rewrite word_testbit_high by (done || lia). now rewrite andb_false_r.
Qed.

Lemma word_test_testbit w n : 0 <= n < 32 -> word_test w n = Z.testbit w n.
Proof.
  intros Hn. unfold word_test.
  assert (Z.land w (u32 (Z.shiftl 1 n)) = if Z.testbit w n then Z.shiftl 1 n else 0) as ->.
  { apply Z.bits_inj'. intros k Hk. rewrite Z.land_spec, mask_testbit by lia.
    case_bool_decide as E.
    - subst k. destruct (Z.testbit w n); [|now rewrite Z.bits_0].
      rewrite one_shiftl_testbit by lia. now case_bool_decide.
    - destruct (Z.testbit w n); [|rewrite Z.bits_0; apply andb_false_r].
      rewrite one_shiftl_testbit by lia. case_bool_decide; [lia|apply andb_false_r]. }
  destruct (Z.testbit w n); [|done].
  rewrite Z.shiftl_1_l. destruct (Z.eqb_spec (2 ^ n) 0); [lia | done].
Qed.

Lemma word_bound_testbit w : 0 <= w -> (forall k, 32 <= k -> Z.testbit w k = false) -> is_u32 w.
Proof.
  intros H0 H. split; [done|].
  assert (w = u32 w) as ->; [|apply u32_range].
  apply Z.bits_inj'. intros k Hk. rewrite u32_testbit by lia.
  case_bool_decide; [done|]. rewrite H by lia. done.
Qed.

Lemma word_set_range w n : is_u32 w -> 0 <= n < 32 -> is_u32 (word_set w n).
Proof.
  intros Hw Hn. apply word_bound_testbit.
  - apply Z.lor_nonneg. split; [apply Hw | apply u32_range].
  - intros k Hk. rewrite word_set_testbit, word_testbit_high by (done || lia).
    case_bool_decide; [lia | done].
Qed.

Lemma word_clear_range w n : is_u32 w -> 0 <= n < 32 -> is_u32 (word_clear w n).
Proof.
  intros Hw Hn. apply word_bound_testbit.
  - apply Z.land_nonneg. left. apply Hw.
  - intros k Hk. rewrite word_clear_testbit, (word_testbit_high w) by (done || lia).
    apply andb_false_r.
Qed.

(** A word is all ones exactly when each of its 32 bits is set. *)
Lemma word_full_iff w : is_u32 w ->
  w = 4294967295 <-> (forall k, 0 <= k < 32 -> Z.testbit w k = true).
Proof.
  intros Hw. change 4294967295 with (Z.ones 32). split.
  - intros -> k Hk. now apply Z.ones_spec_low.
  - intros H. apply Z.bits_inj'. intros k Hk. destruct (decide (k < 32)).
    + rewrite H, Z.ones_spec_low by lia. done.
    + rewrite word_testbit_high, Z.ones_spec_high by (done || lia). done.
Qed.

(** Clearing the [n] low bits of a word rounds it down. *)
Lemma land_align w n : is_u32 w -> 0 <= n <= 32 -> Z.land w (u32_not (2 ^ n - 1)) = w / 2 ^ n * 2 ^ n.
Proof.
  intros Hw Hn. rewrite <- Z.shiftr_div_pow2, <- Z.shiftl_mul_pow2 by lia.
  apply Z.bits_inj'. intros k Hk. unfold u32_not.
  replace (2 ^ n - 1) with (Z.ones n) by (rewrite Z.ones_equiv; lia).
  rewrite Z.land_spec, u32_testbit, Z.lnot_spec, Z.shiftl_spec by lia.
  destruct (decide (k < n)).
  - rewrite Z.ones_spec_low, (Z.testbit_neg_r _ (k - n)) by lia. by rewrite !andb_false_r.
  - rewrite Z.ones_spec_high, Z.shiftr_spec by lia. replace (k - n + n) with k by lia.
    case_bool_decide; [by rewrite andb_true_r|]. by rewrite (word_testbit_high w k) by (done || lia).
Qed.
End Bits.

(** ** Faults and the state-and-fault monad

    A C function that reads or writes memory is a [M S A]: it takes the state it
    can see and returns a result with the new state, or stops with a fault.
    A fault is an access the C code performs outside the objects the model
    holds ([FPtr], [FBound]), a division by zero, a call of [arch_fatal] or
    [kernel_panic], which never return, or a loop that never ends. The kernel's
    [assert] only prints and goes on, so it is not a fault. *)
Inductive fault : Type :=
| FPtr (a : Z)       (* access through an invalid pointer *)
| FBound (i : Z)     (* array access outside its bounds *)
| FDiv0              (* division by zero *)
| FFatal             (* arch_fatal / kernel_panic *)
| FLoop.             (* the loop does not terminate *)

Inductive res (A : Type) : Type :=
| Ok (a : A)
| Err (f : fault).
Arguments Ok {_} _.
Arguments Err {_} _.

#[export] Instance fault_eq_dec : EqDecision fault.
Proof. solve_decision. Defined.

Definition M (S A : Type) : Type := S -> res (A * S).

#[export] Instance M_ret S : MRet (M S) := fun A a s => Ok (a, s).
#[export] Instance M_bind S : MBind (M S) := fun A B k m s =>
  match m s with
  | Ok (a, s') => k a s'
  | Err f => Err f
  end.

Definition fail {S A} (f : fault) : M S A := fun _ => Err f.
Definition gets {S A} (f : S -> A) : M S A := fun s => Ok (f s, s).
Definition modify {S} (f : S -> S) : M S unit := fun s => Ok (tt, f s).
Definition of_option {S A} (f : fault) (o : option A) : M S A :=
  match o with Some a => mret a | None => fail f end.
(** Reading an object that must exist. *)
Definition getsome {S A} (f : fault) (g : S -> option A) : M S A :=
  fun s => match g s with Some a => Ok (a, s) | None => Err f end.
(** Running an operation on a part of the state. *)
Definition zoom {S T A} (get : S -> T) (put : T -> S -> S) (m : M T A) : M S A :=
  fun s => match m (get s) with
           | Ok (a, t) => Ok (a, put t s)
           | Err f => Err f
           end.

Declare Scope hos_scope.
Delimit Scope hos_scope with hos.
Notation "m '~{' s '}~>' a ; s'" := (m s = Ok (a, s'))
  (at level 70, s at level 69, a at level 69, s' at level 69) : hos_scope.
Notation "m '~{' s '}~>!' f" := (m s = Err f)
  (at level 70, s at level 69, f at level 69) : hos_scope.
#[global] Open Scope hos_scope.

Section Monad.
Context {S : Type}.

Lemma bind_ok {A B} (m : M S A) (k : A -> M S B) s a s' :
  m ~{ s }~> a; s' -> (m ≫= k) s = k a s'.
Proof. intros H. unfold mbind, M_bind. now rewrite H. Qed.

Lemma bind_err {A B} (m : M S A) (k : A -> M S B) s f :
  m ~{ s }~>! f -> (m ≫= k) ~{ s }~>! f.
Proof. intros H. unfold mbind, M_bind. now rewrite H. Qed.

Lemma bind_inv {A B} (m : M S A) (k : A -> M S B) s b s'' :
  (m ≫= k) ~{ s }~> b; s'' -> exists a s', m ~{ s }~> a; s' /\ k a ~{ s' }~> b; s''.
Proof. unfold mbind, M_bind. destruct (m s) as [[a s']|f]; [eauto|done]. Qed.

Lemma bind_ret_l {A B} (a : A) (k : A -> M S B) s : (mret a ≫= k) s = k a s.
Proof. done. Qed.

Lemma bind_assoc {A B C} (m : M S A) (k : A -> M S B) (h : B -> M S C) s :
  ((m ≫= k) ≫= h) s = (m ≫= (fun a => k a ≫= h)) s.
Proof. unfold mbind, M_bind. destruct (m s) as [[a s']|f]; done. Qed.

Lemma ret_inv {A} (a b : A) (s s' : S) : (mret a : M S A) ~{ s }~> b; s' -> a = b /\ s = s'.
Proof. intros H. unfold mret, M_ret in H. now simplify_eq. Qed.

Lemma getsome_ok {A} f (g : S -> option A) s a : g s = Some a -> getsome f g ~{ s }~> a; s.
Proof. intros H. unfold getsome. now rewrite H. Qed.

Lemma getsome_inv {A} f (g : S -> option A) s a s' :
  getsome f g ~{ s }~> a; s' -> g s = Some a /\ s' = s.
Proof. unfold getsome. destruct (g s) eqn:E; intros; by simplify_eq. Qed.
End Monad.

#[global] Arguments fail {_ _} _ / _.
#[global] Arguments gets {_ _} _ / _.
#[global] Arguments modify {_} _ / _.

(** Symbolic execution of a monadic program whose steps are known. *)
Ltac mstep :=
  match goal with
  | |- context [ (mret ?a ≫= ?k) ?s ] => rewrite (bind_ret_l a k s)
  | |- context [ ((?m ≫= ?k) ≫= ?h) ?s ] => rewrite (bind_assoc m k h s)
  | |- context [ (?m ≫= ?k) ?s ] =>
      first [ erewrite (bind_ok m k s) by (eassumption || reflexivity)
            | erewrite (bind_ok m k s) by (eauto with hos; fail) ]
  end; cbv beta.
Ltac msteps := repeat mstep.

(** The next step is the run [H]. *)
Ltac run H := match goal with |- context [(?m ≫= ?c) ?s] => rewrite (bind_ok m c s _ _ H); cbv beta end.

(** Inversion of a successful run. *)
Ltac minv H :=
  lazymatch type of H with
  | (_ ≫= _) _ = Ok _ =>
      let a := fresh "a" in let s := fresh "s" in
      let H1 := fresh "H" in let H2 := fresh "H" in
      apply bind_inv in H as (a & s & H1 & H2); cbv beta in H2
  | mret _ _ = Ok _ => apply ret_inv in H as [? ?]; subst
  | fail _ _ = Ok _ => discriminate H
  | Err _ = Ok _ => discriminate H
  end.

(** ** Counted loops

    [for_range n i body] runs [body i; body (i+1); ...] [n] times: the loop
    [for (i = a; i < b; ++i)] is [for_range (Z.to_nat (b - a)) a]. *)
Fixpoint for_range {S} (n : nat) (i : Z) (body : Z -> M S unit) : M S unit :=
  match n with
  | O => mret tt
  | Datatypes.S n' => body i ;; for_range n' (i + 1) body
  end.

(** The invariant rule of a counted loop whose body never faults. *)
Lemma for_range_ok {S} (P : Z -> S -> Prop) n a (body : Z -> M S unit) s :
  P a s ->
  (forall i s, a <= i < a + Z.of_nat n -> P i s -> exists s', body i ~{ s }~> tt; s' /\ P (i + 1) s') ->
  exists s', for_range n a body ~{ s }~> tt; s' /\ P (a + Z.of_nat n) s'.
Proof.
  revert a s. induction n as [|n IH]; intros a s HP Hbody.
  - exists s. rewrite Z.add_0_r. done.
  - destruct (Hbody a s) as (s1 & Hs1 & HP1); [lia | done |].
    destruct (IH (a + 1) s1 HP1) as (s2 & Hs2 & HP2).
    { intros i s' Hi. apply Hbody. lia. }
    exists s2. split.
    + simpl. erewrite bind_ok by exact Hs1. done.
    + now replace (a + Z.of_nat (Datatypes.S n)) with (a + 1 + Z.of_nat n) by lia.
Qed.

(** The rule of a counted loop whose body may stop with fault [e]. *)
Lemma for_range_or {S} (e : fault) (P : Z -> S -> Prop) n a (body : Z -> M S unit) s :
  P a s ->
  (forall i s, a <= i < a + Z.of_nat n -> P i s ->
    body i ~{ s }~>! e \/ exists s', body i ~{ s }~> tt; s' /\ P (i + 1) s') ->
  for_range n a body ~{ s }~>! e \/
  exists s', for_range n a body ~{ s }~> tt; s' /\ P (a + Z.of_nat n) s'.
Proof.
  revert a s. induction n as [|n IH]; intros a s HP Hbody.
  - right. exists s. rewrite Z.add_0_r. done.
  - destruct (Hbody a s) as [Herr|(s1 & Hs1 & HP1)]; [lia|done| |].
    { left. by apply (bind_err _ (fun _ => for_range n (a + 1) body)). }
    destruct (IH (a + 1) s1 HP1) as [Herr|(s2 & Hs2 & HP2)].
    { intros i s' Hi. apply Hbody. lia. }
    + left. simpl. by erewrite bind_ok by exact Hs1.
    + right. exists s2. split.
      * simpl. erewrite bind_ok by exact Hs1. done.
      * now replace (a + Z.of_nat (Datatypes.S n)) with (a + 1 + Z.of_nat n) by lia.
Qed.

(** ** Arrays indexed by integers

    A read or a write outside the array is a fault, whatever the sign of the
    index. *)
Section Arrays.
Context {A : Type}.
Implicit Types (l : list A) (i j : Z).

Definition zlookup l i : option A := if 0 <=? i then l !! Z.to_nat i else None.
Definition zinsert l i (x : A) : list A := if 0 <=? i then <[Z.to_nat i := x]> l else l.

Lemma zlookup_some l i : 0 <= i < Z.of_nat (length l) -> exists x, zlookup l i = Some x.
Proof.
  intros H. unfold zlookup. destruct (Z.leb_spec 0 i); [|lia].
  apply lookup_lt_is_Some. lia.
Qed.

Lemma zlookup_bound l i x : zlookup l i = Some x -> 0 <= i < Z.of_nat (length l).
Proof.
  unfold zlookup. destruct (Z.leb_spec 0 i); [|done].
  intros Hl%lookup_lt_Some. lia.
Qed.

Lemma zinsert_length l i x : length (zinsert l i x) = length l.
Proof. unfold zinsert. destruct (0 <=? i); [apply length_insert | done]. Qed.

Lemma zlookup_zinsert_eq l i x : 0 <= i < Z.of_nat (length l) -> zlookup (zinsert l i x) i = Some x.
Proof.
  intros H. unfold zlookup, zinsert. destruct (Z.leb_spec 0 i); [|lia].
  apply list_lookup_insert_eq. lia.
Qed.

Lemma zlookup_zinsert_ne l i j x : i <> j -> zlookup (zinsert l i x) j = zlookup l j.
Proof.
  intros H. unfold zlookup, zinsert.
  destruct (Z.leb_spec 0 i), (Z.leb_spec 0 j); try done.
  apply list_lookup_insert_ne. lia.
Qed.

Lemma zinsert_id l i x : zlookup l i = Some x -> zinsert l i x = l.
Proof.
  unfold zlookup, zinsert. destruct (0 <=? i); [|done]. apply list_insert_id.
Qed.

Lemma zinsert_zinsert l i x y : zinsert (zinsert l i x) i y = zinsert l i y.
Proof. unfold zinsert. destruct (0 <=? i); [apply list_insert_insert_eq | done]. Qed.
End Arrays.
#[export] Hint Rewrite @zinsert_length @zinsert_zinsert : hos.

(** ** Updating a field of a record

    [r <| f := v |>] is [r] with the field [f] changed to [v]: the assignment
    [r.f = v] of the C code. A record type declares its [Eta] expansion once. *)
Class Eta (R : Type) := { eta : R -> R }.
Class Setter {R T : Type} (proj : R -> T) := { setter : (T -> T) -> R -> R }.
#[global] Arguments setter {R T} proj {_} _ _ /.
Ltac derive_setter :=
  match goal with
  | |- @Setter ?R ?T ?proj =>
      assert_fails (has_evar R); assert_fails (has_evar proj);
      let i := constr:(ltac:(typeclasses eauto) : Eta R) in
      let e := eval hnf in (@eta R i) in
      match eval pattern proj in e with
      | ?build proj => exact {| setter := fun (f : T -> T) => build (fun r : R => f (proj r)) |}
      end
  end.
#[export] Hint Extern 1 (Setter _) => derive_setter : typeclass_instances.
Notation "r '<|' proj ':=' v '|>'" := (setter proj (fun _ => v) r)
  (at level 1, left associativity, format "r  <| proj  :=  v |>") : hos_scope.

(** ** Lists *)
Lemma NoDup_middle {A} (l1 : list A) x l2 : NoDup (l1 ++ x :: l2) ->
  NoDup (l1 ++ l2) /\ x ∉ l1 /\ x ∉ l2.
Proof.
  intros Hnd. rewrite <- Permutation_middle in Hnd.
  apply NoDup_cons in Hnd as [Hx Hnd]. rewrite not_elem_of_app in Hx. done.
Qed.

Lemma elem_of_pair {A} (x a b : A) : x ∈ [a; b] <-> x = a \/ x = b.
Proof. rewrite elem_of_cons, list_elem_of_singleton. done. Qed.

(** Removing an element that occurs once. *)
Lemma filter_ne_id (x : Z) (l : list Z) : x ∉ l -> filter (.≠ x) l = l.
Proof.
  induction l as [|y l IH]; intros Hx; [done|].
  rewrite filter_cons_True by set_solver. rewrite IH by set_solver. done.
Qed.
Lemma filter_ne_middle (x : Z) (l1 l2 : list Z) : NoDup (l1 ++ x :: l2) -> filter (.≠ x) (l1 ++ x :: l2) = l1 ++ l2.
Proof.
  intros Hnd. destruct (NoDup_middle _ _ _ Hnd) as [_ [H1 H2]].
  rewrite filter_app, filter_cons_False by (by intros []). by rewrite !filter_ne_id.
Qed.

(** Distinct keys of a map are no more than its size. *)
Lemma stored_length {V} (m : gmap Z V) (l : list Z) : NoDup l -> (forall x, x ∈ l -> is_Some (m !! x)) ->
  (length l <= size m)%nat.
Proof.
  intros Hnd Hl. rewrite <- size_dom, <- (size_list_to_set (C := gset Z) l Hnd).
  apply subseteq_size. intros x. rewrite elem_of_list_to_set, elem_of_dom. apply Hl.
Qed.

Lemma Forall2_weaken {A B} (P Q : A -> B -> Prop) l1 l2 : Forall2 P l1 l2 ->
  (forall x y, x ∈ l1 -> P x y -> Q x y) -> Forall2 Q l1 l2.
Proof.
  induction 1 as [|x y l1 l2 Hp _ IH]; intros HQ; constructor; [apply HQ; [by left|done]|].
  apply IH. intros a b Ha. apply HQ. by right.
Qed.
