(* ===== verification/Bytes.v ===== *)
(** * Byte strings with fields

    Blocks of a disk, buffers and packed structures as lists of bytes: a slice of
    a list, writing a slice, and little-endian fields at fixed offsets. *)

From stdpp Require Import strings.
From S2P Require Import Prelude.

Implicit Types (l v w : list Z) (i n off k : Z).

Definition zlen {A} (l : list A) : Z := Z.of_nat (length l).
(** [n] bytes from offset [off]. *)
Definition slice off n l : list Z := take (Z.to_nat n) (drop (Z.to_nat off) l).
(** The bytes of [v] written from offset [off]. *)
Definition splice off v l : list Z := take (Z.to_nat off) l ++ v ++ drop (Z.to_nat off + length v) l.
Definition zeros n : list Z := replicate (Z.to_nat n) 0.
Definition bytes l : Prop := Forall is_u8 l.

Lemma zlen_nonneg {A} (l : list A) : 0 <= zlen l.
Proof. unfold zlen. lia. Qed.
Lemma zlen_app {A} (l k : list A) : zlen (l ++ k) = zlen l + zlen k.
Proof. unfold zlen. rewrite length_app. lia. Qed.
Lemma zeros_zlen n : 0 <= n -> zlen (zeros n) = n.
Proof. intros. unfold zlen, zeros. rewrite length_replicate. lia. Qed.
Lemma zeros_bytes n : bytes (zeros n).
Proof. apply Forall_replicate. unfold is_u8. lia. Qed.

(** ** Slices *)
Lemma lookup_slice off n l (j : nat) : 0 <= off ->
  slice off n l !! j = if decide (Z.of_nat j < n) then l !! (Z.to_nat off + j)%nat else None.
Proof.
  intros. unfold slice. case_decide.
  - by rewrite lookup_take_lt, lookup_drop by lia.
  - by rewrite lookup_take_ge by lia.
Qed.

Lemma lookup_splice off v l (j : nat) : 0 <= off -> off + zlen v <= zlen l ->
  splice off v l !! j = if decide (off <= Z.of_nat j < off + zlen v) then v !! (j - Z.to_nat off)%nat else l !! j.
Proof.
  unfold zlen, splice. intros. case_decide.
  - rewrite lookup_app_r by (rewrite length_take; lia). rewrite length_take, Nat.min_l by lia.
    by rewrite lookup_app_l by lia.
  - destruct (decide (Z.of_nat j < off)).
    + rewrite lookup_app_l by (rewrite length_take; lia). by rewrite lookup_take_lt by lia.
    + rewrite lookup_app_r by (rewrite length_take; lia). rewrite length_take, Nat.min_l by lia.
      rewrite lookup_app_r by lia. rewrite lookup_drop. f_equal. lia.
Qed.

Lemma slice_zlen off n l : 0 <= off -> 0 <= n -> off + n <= zlen l -> zlen (slice off n l) = n.
Proof. unfold zlen, slice. intros. rewrite length_take, length_drop. lia. Qed.
Lemma splice_zlen off v l : 0 <= off -> off + zlen v <= zlen l -> zlen (splice off v l) = zlen l.
Proof. unfold zlen, splice. intros. rewrite !length_app, length_take, length_drop. lia. Qed.

Lemma slice_bytes off n l : bytes l -> bytes (slice off n l).
Proof. intros. by apply Forall_take, Forall_drop. Qed.
Lemma splice_bytes off v l : bytes l -> bytes v -> bytes (splice off v l).
Proof. intros. apply Forall_app; split; [by apply Forall_take|]. apply Forall_app; split; [done|by apply Forall_drop]. Qed.

(** Equal lists, place by place. *)
Ltac slice_eq :=
  apply list_eq; intros ?j;
  repeat (first [rewrite lookup_slice by lia | rewrite lookup_splice by (rewrite ?slice_zlen, ?splice_zlen by (rewrite ?splice_zlen by lia; lia); lia)]);
  rewrite ?slice_zlen by lia.

Lemma slice_slice a m off n l : 0 <= a -> 0 <= m -> 0 <= off -> a + m <= n ->
  slice a m (slice off n l) = slice (off + a) m l.
Proof. intros. slice_eq. repeat case_decide; try lia; try done. f_equal. lia. Qed.

Lemma slice_splice_eq off n v l : 0 <= off -> off + zlen v <= zlen l -> n = zlen v ->
  slice off n (splice off v l) = v.
Proof.
  intros. slice_eq. repeat case_decide; try lia; [f_equal; lia|].
  symmetry. apply lookup_ge_None. unfold zlen in *. lia.
Qed.

Lemma slice_splice_ne a n off v l : 0 <= off -> off + zlen v <= zlen l -> 0 <= a ->
  a + n <= off \/ off + zlen v <= a -> slice a n (splice off v l) = slice a n l.
Proof. intros. slice_eq. repeat case_decide; try lia; done. Qed.

(** Reading inside what was written. *)
Lemma slice_splice_in a n off v l : 0 <= off -> off + zlen v <= zlen l -> off <= a -> 0 <= n -> a + n <= off + zlen v ->
  slice a n (splice off v l) = slice (a - off) n v.
Proof. intros. slice_eq. repeat case_decide; try lia; try done. f_equal. lia. Qed.

(** Writing inside what is read. *)
Lemma slice_splice_out a n off v l : 0 <= a -> a <= off -> off + zlen v <= a + n -> a + n <= zlen l ->
  slice a n (splice off v l) = splice (off - a) v (slice a n l).
Proof. intros. pose proof (zlen_nonneg v). slice_eq. repeat case_decide; try lia; try done. f_equal. lia. Qed.

Lemma splice_slice_id off n l : 0 <= off -> 0 <= n -> off + n <= zlen l -> splice off (slice off n l) l = l.
Proof.
  intros. slice_eq. repeat case_decide; try lia; try done. f_equal. lia.
Qed.

Lemma splice_splice_eq off v w l : 0 <= off -> zlen v = zlen w -> off + zlen v <= zlen l ->
  splice off w (splice off v l) = splice off w l.
Proof. intros. slice_eq. repeat case_decide; try lia; done. Qed.

Lemma splice_splice_comm off v k w l : 0 <= off -> 0 <= k -> off + zlen v <= zlen l -> k + zlen w <= zlen l ->
  off + zlen v <= k \/ k + zlen w <= off -> splice off v (splice k w l) = splice k w (splice off v l).
Proof. intros. slice_eq. repeat case_decide; try lia; done. Qed.

(** Writing a slice into a slice that is written. *)
Lemma splice_inside off v k w l : 0 <= off -> 0 <= k -> off + zlen v <= zlen l -> k + zlen w <= zlen v ->
  splice off (splice k w v) l = splice (off + k) w (splice off v l).
Proof.
  intros. pose proof (zlen_nonneg w). slice_eq. rewrite splice_zlen by lia.
  repeat case_decide; try lia; try done; f_equal; lia.
Qed.

Lemma slice_all n l : n = zlen l -> slice 0 n l = l.
Proof. intros ->. unfold slice, zlen. rewrite Nat2Z.id. apply firstn_all. Qed.
Lemma splice_all v l : zlen v = zlen l -> splice 0 v l = v.
Proof. unfold splice, zlen. intros. rewrite drop_ge by lia. by rewrite app_nil_r. Qed.

Lemma slice_app off n m l : 0 <= off -> 0 <= n -> 0 <= m -> off + n + m <= zlen l ->
  slice off (n + m) l = slice off n l ++ slice (off + n) m l.
Proof.
  intros. apply list_eq. intros j. rewrite lookup_slice by lia.
  destruct (decide (Z.of_nat j < n)).
  - rewrite lookup_app_l by (pose proof (slice_zlen off n l); unfold zlen in *; lia).
    rewrite lookup_slice by lia. repeat case_decide; try lia; done.
  - pose proof (slice_zlen off n l ltac:(lia) ltac:(lia) ltac:(lia)) as Hn. unfold zlen in Hn.
    rewrite lookup_app_r by lia. rewrite lookup_slice by lia. repeat case_decide; try lia; try done. f_equal. lia.
Qed.

Lemma slice_zeros off n m : 0 <= off -> 0 <= n -> off + n <= m -> slice off n (zeros m) = zeros n.
Proof.
  intros. apply list_eq. intros j. rewrite lookup_slice by lia. unfold zeros.
  case_decide; [rewrite !lookup_replicate_2 by lia; done|].
  symmetry. apply lookup_ge_None. rewrite length_replicate. lia.
Qed.

(** ** Little-endian integers *)
Fixpoint le_bytes (n : nat) (x : Z) : list Z :=
  match n with O => [] | S n => x mod 256 :: le_bytes n (x / 256) end.
Fixpoint le_val l : Z :=
  match l with [] => 0 | b :: l => b + 256 * le_val l end.

Lemma le_bytes_zlen (n : nat) x : zlen (le_bytes n x) = Z.of_nat n.
Proof. unfold zlen. revert x. induction n as [|n IH]; intros x; simpl; [done|]. specialize (IH (x / 256)). lia. Qed.
Lemma le_bytes_bytes (n : nat) x : bytes (le_bytes n x).
Proof. revert x. induction n as [|n IH]; intros x; [constructor|]. constructor; [unfold is_u8; dlia|apply IH]. Qed.
Lemma le_val_range l : bytes l -> 0 <= le_val l < 256 ^ zlen l.
Proof.
  induction 1 as [|b l Hb _ IH]; [done|]. unfold zlen in *. simpl length. rewrite Nat2Z.inj_succ, Z.pow_succ_r by lia.
  unfold is_u8 in Hb. simpl. lia.
Qed.
Lemma le_val_bytes (n : nat) x : le_val (le_bytes n x) = x mod 256 ^ Z.of_nat n.
Proof.
  revert x. induction n as [|n IH]; intros x; [by rewrite Z.mod_1_r|].
  rewrite Nat2Z.inj_succ, Z.pow_succ_r by lia. cbn [le_bytes le_val]. rewrite IH.
  pose proof (Z.pow_pos_nonneg 256 (Z.of_nat n) ltac:(lia) ltac:(lia)).
  symmetry. by apply Z.rem_mul_r.
Qed.
Lemma le_bytes_val l : bytes l -> le_bytes (length l) (le_val l) = l.
Proof.
  induction 1 as [|b l Hb _ IH]; [done|]. unfold is_u8 in Hb.
  assert ((b + 256 * le_val l) mod 256 = b /\ (b + 256 * le_val l) / 256 = le_val l) as [H1 H2] by dlia.
  cbn [length le_bytes le_val]. by rewrite H1, H2, IH.
Qed.

(** ** Fields of packed structures

    A field is its offset and its size in bytes. *)
Record field := Field { f_off : Z; f_size : nat }.
(** The field of a structure that lies [base] bytes further on. *)
Definition at_ (base : Z) (f : field) : field := Field (base + f_off f) (f_size f).

Definition fget (f : field) l : Z := le_val (slice (f_off f) (Z.of_nat (f_size f)) l).
Definition fset (f : field) (x : Z) l : list Z := splice (f_off f) (le_bytes (f_size f) x) l.
(** The field lies inside the bytes. *)
Definition fits (f : field) l : bool := (0 <=? f_off f) && (f_off f + Z.of_nat (f_size f) <=? zlen l).
Definition fmax (f : field) : Z := 256 ^ Z.of_nat (f_size f).
Definition apart (f g : field) : Prop :=
  f_off f + Z.of_nat (f_size f) <= f_off g \/ f_off g + Z.of_nat (f_size g) <= f_off f.

Section Fields.
Implicit Types f g : field.

Lemma fits_spec f l : fits f l = true <-> 0 <= f_off f /\ f_off f + Z.of_nat (f_size f) <= zlen l.
Proof. unfold fits. rewrite andb_true_iff, !Z.leb_le. done. Qed.

Lemma fset_zlen f x l : fits f l = true -> zlen (fset f x l) = zlen l.
Proof. rewrite fits_spec. intros []. apply splice_zlen; rewrite ?le_bytes_zlen; lia. Qed.
Lemma fset_bytes f x l : bytes l -> bytes (fset f x l).
Proof. intros. apply splice_bytes; [done|apply le_bytes_bytes]. Qed.
Lemma fget_range f l : bytes l -> fits f l = true -> 0 <= fget f l < fmax f.
Proof.
  rewrite fits_spec. intros Hb []. unfold fmax. rewrite <- (slice_zlen (f_off f) (Z.of_nat (f_size f)) l) by lia.
  by apply le_val_range, slice_bytes.
Qed.
Lemma fget_fset f x l : fits f l = true -> fget f (fset f x l) = x mod fmax f.
Proof.
  rewrite fits_spec. intros []. unfold fget, fset. rewrite slice_splice_eq by (rewrite ?le_bytes_zlen; lia).
  apply le_val_bytes.
Qed.
Lemma fget_fset_small f x l : fits f l = true -> 0 <= x < fmax f -> fget f (fset f x l) = x.
Proof. intros. rewrite fget_fset by done. by apply Z.mod_small. Qed.
Lemma fget_fset_ne f g x l : fits f l = true -> 0 <= f_off g -> apart f g -> fget g (fset f x l) = fget g l.
Proof.
  rewrite fits_spec. unfold apart. intros [] ? ?. unfold fget, fset.
  rewrite slice_splice_ne by (rewrite ?le_bytes_zlen; lia). done.
Qed.
Lemma slice_fset_ne f x a n l : fits f l = true -> 0 <= a ->
  a + n <= f_off f \/ f_off f + Z.of_nat (f_size f) <= a -> slice a n (fset f x l) = slice a n l.
Proof. rewrite fits_spec. intros [] ? ?. apply slice_splice_ne; rewrite ?le_bytes_zlen; lia. Qed.
Lemma fset_fget f l : bytes l -> fits f l = true -> fset f (fget f l) l = l.
Proof.
  rewrite fits_spec. intros Hb []. unfold fget, fset.
  pose proof (slice_zlen (f_off f) (Z.of_nat (f_size f)) l ltac:(lia) ltac:(lia) ltac:(lia)) as Hz. unfold zlen in Hz.
  replace (f_size f) with (length (slice (f_off f) (Z.of_nat (f_size f)) l)) at 1 by lia.
  rewrite le_bytes_val by by apply slice_bytes. apply splice_slice_id; lia.
Qed.
(** A field of a slice. *)
Lemma fget_slice f a n l : 0 <= a -> 0 <= f_off f -> f_off f + Z.of_nat (f_size f) <= n ->
  fget f (slice a n l) = fget (at_ a f) l.
Proof. intros. unfold fget, at_. simpl. by rewrite slice_slice by lia. Qed.
End Fields.

(** ** Layout of C structures

    A structure is the list of its members: a name, the size of an element and the
    number of elements. Each member starts at a multiple of the size of its
    elements, and the size of the structure is a multiple of the largest of them. *)
Definition struct := list (string * (Z * Z)).
Definition align_to (a x : Z) : Z := (x + (a - 1)) / a * a.
Fixpoint offset_of (t : struct) (name : string) (off : Z) : option field :=
  match t with
  | [] => None
  | (m, (size, count)) :: t =>
      let off := align_to size off in
      if String.eqb m name then Some (Field off (Z.to_nat size)) else offset_of t name (off + size * count)
  end.
Definition alignof (t : struct) : Z := foldr (fun m a => Z.max m.2.1 a) 1 t.
Definition sizeof (t : struct) : Z :=
  align_to (alignof t) (foldl (fun off m => align_to m.2.1 off + m.2.1 * m.2.2) 0 t).
Definition fieldof (t : struct) (name : string) : field := default (Field 0 0) (offset_of t name 0).
