(* ===== verification/Hoare.v ===== *)
(** * Total correctness up to a fatal stop

    [wp m s Q]: from [s] the program [m] ends in a result that satisfies [Q], or
    the kernel has stopped ([FFatal]); no other fault is possible. A [triple] is
    the same for a representation of the states, so that the rules compute with
    the represented value and not with the machine. *)

From S2P Require Import Prelude.

Section Wp.
Context {S : Type}.

Definition wp {A} (m : M S A) (s : S) (Q : A -> S -> Prop) : Prop :=
  match m s with
  | Ok (a, s') => Q a s'
  | Err FFatal => True
  | Err _ => False
  end.

Lemma wp_ret {A} (a : A) s (Q : A -> S -> Prop) : Q a s -> wp (mret a) s Q.
Proof. done. Qed.
Lemma wp_bind {A B} (m : M S A) (k : A -> M S B) s Q :
  wp m s (fun a s' => wp (k a) s' Q) -> wp (m ≫= k) s Q.
Proof. unfold wp, mbind, M_bind. by destruct (m s) as [[a s']|[]]. Qed.
Lemma wp_mono {A} (m : M S A) s (Q Q' : A -> S -> Prop) :
  wp m s Q -> (forall a s', Q a s' -> Q' a s') -> wp m s Q'.
Proof. unfold wp. destruct (m s) as [[a s']|[]]; auto. Qed.
Lemma wp_run {A} (m : M S A) s Q : wp m s Q ->
  m ~{ s }~>! FFatal \/ exists a s', m ~{ s }~> a; s' /\ Q a s'.
Proof. unfold wp. destruct (m s) as [[a s']|[]]; intros; try done; [right; by eexists _, _|by left]. Qed.
Lemma wp_of_run {A} (m : M S A) s (Q : A -> S -> Prop) :
  (m ~{ s }~>! FFatal \/ exists a s', m ~{ s }~> a; s' /\ Q a s') -> wp m s Q.
Proof. unfold wp. by intros [->|(a & s' & -> & HQ)]. Qed.
End Wp.

Lemma wp_zoom {S T A} (get : S -> T) put (m : M T A) s (Q : A -> S -> Prop) :
  wp m (get s) (fun a t => Q a (put t s)) -> wp (zoom get put m) s Q.
Proof. unfold wp, zoom. by destruct (m (get s)) as [[a t]|[]]. Qed.

(** ** Triples over represented states *)
Section Triple.
Context {S V : Type} (R : S -> V -> Prop).

Definition triple {A} (v : V) (m : M S A) (Q : A -> V -> Prop) : Prop :=
  forall s, R s v -> wp m s (fun a s' => exists v', R s' v' /\ Q a v').

Lemma triple_ret {A} v (a : A) (Q : A -> V -> Prop) : Q a v -> triple v (mret a) Q.
Proof. intros HQ s Hs. apply wp_ret. by exists v. Qed.
Lemma triple_bind {A B} v (m : M S A) (k : A -> M S B) Q :
  triple v m (fun a v' => triple v' (k a) Q) -> triple v (m ≫= k) Q.
Proof.
  intros Hm s Hs. apply wp_bind. eapply wp_mono; [by apply Hm|].
  intros a s' (v' & Hs' & Hk). by apply Hk.
Qed.
Lemma triple_mono {A} v (m : M S A) (Q Q' : A -> V -> Prop) :
  triple v m Q -> (forall a v', Q a v' -> Q' a v') -> triple v m Q'.
Proof. intros Hm HQ s Hs. eapply wp_mono; [by apply Hm|]. naive_solver. Qed.
(** A step whose result and new state are known. *)
Lemma triple_seq {A B} v (m : M S A) (k : A -> M S B) a v1 Q :
  triple v m (fun a' v' => a' = a /\ v' = v1) -> triple v1 (k a) Q -> triple v (m ≫= k) Q.
Proof. intros Hm Hk. apply triple_bind. eapply triple_mono; [done|]. by intros ? ? [-> ->]. Qed.
Lemma triple_fatal {A} v (Q : A -> V -> Prop) : triple v (fail FFatal) Q.
Proof. done. Qed.
Lemma triple_gets {A} v (f : S -> A) (Q : A -> V -> Prop) :
  (forall s, R s v -> Q (f s) v) -> triple v (gets f) Q.
Proof. intros HQ s Hs. exists v. auto. Qed.
Lemma triple_modify v v' (f : S -> S) (Q : unit -> V -> Prop) :
  (forall s, R s v -> R (f s) v') -> Q tt v' -> triple v (modify f) Q.
Proof. intros Hf HQ s Hs. exists v'. auto. Qed.
Lemma triple_getsome {A} v e (g : S -> option A) a (Q : A -> V -> Prop) :
  (forall s, R s v -> g s = Some a) -> Q a v -> triple v (getsome e g) Q.
Proof. intros Hg HQ s Hs. unfold wp, getsome. rewrite Hg by done. by exists v. Qed.
(** A counted loop whose state before round [i] is [g i]. *)
Lemma triple_for_range v n a (body : Z -> M S unit) (g : Z -> V) (Q : unit -> V -> Prop) : v = g a ->
  (forall i, a <= i < a + Z.of_nat n -> triple (g i) (body i) (fun _ v' => v' = g (i + 1))) ->
  Q tt (g (a + Z.of_nat n)) -> triple v (for_range n a body) Q.
Proof.
  intros -> . revert a. induction n as [|n IH]; intros a Hbody HQ.
  - rewrite Z.add_0_r in HQ. by apply triple_ret.
  - cbn [for_range]. apply triple_bind. eapply triple_mono; [apply Hbody; lia|]. intros [] v' ->.
    apply IH; [intros i Hi; apply Hbody; lia|]. by replace (a + 1 + Z.of_nat n) with (a + Z.of_nat (Datatypes.S n)) by lia.
Qed.
Lemma triple_run {A} v (m : M S A) Q s : triple v m Q -> R s v ->
  m ~{ s }~>! FFatal \/ exists a s' v', m ~{ s }~> a; s' /\ R s' v' /\ Q a v'.
Proof. intros Hm Hs. destruct (wp_run _ _ _ (Hm s Hs)) as [|(a & s' & Hr & v' & ? & ?)]; [by left|right]. by eexists _, _, _. Qed.
End Triple.
