(* ===== verification/Interfaces.v ===== *)
(** * Interfaces between components

    What one component of the kernel promises to the components that call it,
    as type classes. [FrameAllocator] is the contract of pmm.c towards vmm.c and
    mmu.c; its instance is built in [Pmm.v] and its clients are proved against
    the class alone. *)

From S2P Require Import Prelude Bytes.

(** ** Physical frames

    [fa_used s f] tells whether frame [f] is in use in state [s]. *)
Class FrameAllocator (St : Type) := {
  fa_alloc : M St Z;
  fa_free : Z -> M St unit;            (* by physical address *)
  fa_mark : Z -> M St unit;            (* by physical address *)
  fa_ok : St -> Prop;
  fa_limit : St -> Z;
  fa_used : St -> Z -> bool;
  fa_alloc_law : forall s f s', fa_ok s -> fa_alloc ~{ s }~> f; s' ->
    fa_ok s' /\ fa_limit s' = fa_limit s /\ 0 < f < fa_limit s /\ fa_limit s <= 1048576 /\
    fa_used s f = false /\
    forall g, fa_used s' g = bool_decide (g = f) || fa_used s g;
  fa_alloc_complete : forall s e, fa_ok s -> fa_alloc ~{ s }~>! e -> e = FFatal;
  fa_free_law : forall s a, fa_ok s -> 0 < a / 4096 < fa_limit s ->
    exists s', fa_free a ~{ s }~> tt; s' /\ fa_ok s' /\ fa_limit s' = fa_limit s /\
      forall g, fa_used s' g = negb (bool_decide (g = a / 4096)) && fa_used s g;
  fa_mark_law : forall s a, fa_ok s -> 0 <= a / 4096 < fa_limit s ->
    exists s', fa_mark a ~{ s }~> tt; s' /\ fa_ok s' /\ fa_limit s' = fa_limit s /\
      forall g, fa_used s' g = bool_decide (g = a / 4096) || fa_used s g
}.

(** Clients that take and give back frames in any order: [EAlloc] takes one,
    [EFree i] gives the [i]-th frame currently owned back. *)
Inductive fa_event : Type := EAlloc | EFree (i : nat).

Fixpoint fa_trace {St} `{FrameAllocator St} (es : list fa_event) (owned : list Z) : M St (list Z) :=
  match es with
  | [] => mret owned
  | EAlloc :: es => f ← fa_alloc; fa_trace es (f :: owned)
  | EFree i :: es =>
      match owned !! i with
      | Some f => fa_free (u32 (Z.shiftl f 12)) ;; fa_trace es (delete i owned)
      | None => fa_trace es owned
      end
  end.

Section FrameClients.
Context {St : Type} `{FrameAllocator St}.

(** [base] are the frames in use by others: the clients own the rest of the
    used frames, each of them once. *)
Record owns (base : Z -> Prop) (owned : list Z) (s : St) : Prop := {
  own_ok : fa_ok s;
  own_limit : fa_limit s <= 1048576;
  own_nodup : NoDup owned;
  own_range : forall f, f ∈ owned -> 0 < f < fa_limit s;
  own_disjoint : forall f, f ∈ owned -> ~ base f;
  own_used : forall g, fa_used s g = true <-> g ∈ owned \/ base g
}.

Lemma owns_alloc base owned s f s' : owns base owned s -> fa_alloc ~{ s }~> f; s' ->
  owns base (f :: owned) s'.
Proof.
  intros [] Hrun. destruct (fa_alloc_law _ _ _ own_ok0 Hrun) as (Hok & Hlim & Hf & _ & Hfree & Hu).
  assert (Hnew : f ∉ owned /\ ~ base f).
  { split; intros Hc; assert (fa_used s f = true) by (apply own_used0; auto); congruence. }
  split; [done|by rewrite Hlim|by constructor; naive_solver|rewrite Hlim; set_solver|set_solver|].
  intros g. rewrite Hu, orb_true_iff, bool_decide_eq_true, own_used0, elem_of_cons. tauto.
Qed.

Lemma NoDup_delete (l : list Z) i f : NoDup l -> l !! i = Some f ->
  NoDup (delete i l) /\ forall g, g ∈ delete i l <-> g ∈ l /\ g <> f.
Proof.
  intros Hnd Hi. pose proof (delete_Permutation _ _ _ Hi) as Hp.
  rewrite Hp in Hnd. apply NoDup_cons in Hnd as [Hf Hnd]. split; [done|].
  intros g. rewrite Hp at 2. rewrite elem_of_cons. naive_solver.
Qed.

Lemma owns_free base owned s i f : owns base owned s -> owned !! i = Some f ->
  exists s', fa_free (u32 (Z.shiftl f 12)) ~{ s }~> tt; s' /\ owns base (delete i owned) s'.
Proof.
  intros [] Hi. assert (Hin : f ∈ owned) by (by eapply list_elem_of_lookup_2).
  pose proof (own_range0 f Hin) as Hf.
  assert (Hdiv : u32 (Z.shiftl f 12) / 4096 = f).
  { rewrite Z.shiftl_mul_pow2, u32_small by lia. dlia. }
  destruct (fa_free_law s (u32 (Z.shiftl f 12)) own_ok0) as (s' & Hrun & Hok & Hlim & Hu);
    [by rewrite Hdiv|]. rewrite Hdiv in Hu.
  destruct (NoDup_delete _ _ _ own_nodup0 Hi) as [Hnd Hel].
  exists s'. split; [done|]. split; [done|by rewrite Hlim|done|rewrite Hlim; naive_solver|naive_solver|].
  intros g. rewrite Hu, andb_true_iff, negb_true_iff, bool_decide_eq_false, own_used0, Hel.
  naive_solver.
Qed.

(** Whatever the clients do, no frame is ever owned twice or taken from the
    others. *)
Lemma fa_trace_owns es : forall base owned s owned' s', owns base owned s ->
  fa_trace es owned ~{ s }~> owned'; s' -> owns base owned' s'.
Proof.
  induction es as [|[|i] es IH]; intros base owned s owned' s' Ho Hrun; simpl in Hrun.
  - by minv Hrun.
  - minv Hrun. eapply IH; [|done]. by eapply owns_alloc.
  - destruct (owned !! i) as [f|] eqn:E; [|by eapply IH].
    destruct (owns_free _ _ _ _ _ Ho E) as (s1 & Hr & Ho1).
    rewrite (bind_ok _ _ _ _ _ Hr) in Hrun. by eapply IH.
Qed.
End FrameClients.

(** ** Virtual pages

    What the kernel heap relies on: [pm_create a flags] makes the page of [a]
    accessible or stops with [FFatal] when no frame is left, and it touches no
    other page of the current address space. [pm_good a flags] says which requests
    are in order. *)
Class PageMapper (Vm : Type) := {
  pm_create : Z -> Z -> M Vm unit;
  pm_mapped : Vm -> Z -> bool;
  pm_ok : Vm -> Prop;
  pm_good : Z -> Z -> Prop;
  pm_create_law : forall v a flags, pm_ok v -> is_u32 a -> pm_good a flags ->
    pm_create a flags ~{ v }~>! FFatal \/
    exists v', pm_create a flags ~{ v }~> tt; v' /\ pm_ok v' /\
      forall p, pm_mapped v' p = bool_decide (p = a / 4096) || pm_mapped v p
}.

(** ** Kernel memory

    What the users of kmalloc and kfree rely on. [ha_ok x al] says that the
    blocks in use are exactly those of [al], which maps the address of a block to
    the size that was asked for; [ha_room x n] says that [n] more bytes fit, and a
    block of [size] bytes takes at most [ha_cost size] of them. *)
Class HeapAllocator (X : Type) := {
  ha_alloc : Z -> M X Z;
  ha_free : Z -> M X unit;
  ha_ok : X -> gmap Z Z -> Prop;
  ha_room : X -> Z -> Prop;
  ha_cost : Z -> Z;
  ha_cost_law : forall size, 0 < size -> 0 <= ha_cost size;
  ha_room_mono : forall x n m, ha_room x n -> m <= n -> ha_room x m;
  ha_alloc_law : forall x al size m, ha_ok x al -> 0 < size < 65536 -> 0 <= m -> ha_room x (ha_cost size + m) ->
    ha_alloc size ~{ x }~>! FFatal \/
    exists p x', ha_alloc size ~{ x }~> p; x' /\ ha_ok x' (<[p := size]> al) /\ al !! p = None /\ ha_room x' m;
  ha_free_law : forall x al p s, ha_ok x al -> al !! p = Some s ->
    exists x', ha_free p ~{ x }~> tt; x' /\ ha_ok x' (delete p al) /\ forall m, ha_room x m -> ha_room x' m;
  ha_disjoint : forall x al p s q t, ha_ok x al -> al !! p = Some s -> al !! q = Some t ->
    p = q \/ p + s <= q \/ q + t <= p;
  ha_positive : forall x al p s, ha_ok x al -> al !! p = Some s -> 0 < p
}.

(** ** The clock

    sys_time, which asks the real-time clock: it answers some time and touches no
    memory of the kernel. *)
Class Clock (X : Type) `{HeapAllocator X} := {
  ck_time : M X Z;
  ck_law : forall x al, ha_ok x al -> exists t x', ck_time x = Ok (t, x') /\ ha_ok x' al /\ forall n, ha_room x n -> ha_room x' n
}.

(** ** Services of the file system and of the memory manager to processes

    [ps_vfs_destroy p] closes the files of the task at [p],
    [ps_mmu_destroy mm] releases the memory of a process and
    [ps_switch mm] makes the page directory of [mm] the current one.
    They use the heap for objects of their own: none of them fails, and the
    blocks the process management owns stay in use. *)
Class ProcessServices (X : Type) `{HeapAllocator X} := {
  ps_vfs_destroy : Z -> M X unit;
  ps_mmu_destroy : Z -> M X unit;
  ps_switch : Z -> M X unit;
  ps_vfs_law : forall x al p, ha_ok x al -> exists x', ps_vfs_destroy p ~{ x }~> tt; x' /\ ha_ok x' al;
  ps_mmu_law : forall x al mm, ha_ok x al -> exists x', ps_mmu_destroy mm ~{ x }~> tt; x' /\ ha_ok x' al;
  ps_switch_law : forall x al mm, ha_ok x al -> exists x', ps_switch mm ~{ x }~> tt; x' /\ ha_ok x' al
}.

(** ** Block devices

    What a file system relies on when it calls vfs_read and vfs_write on the file
    of its device. [bd_bytes d] is the content of the device; [bd_read off n] gives
    the result code and the bytes that were stored in the buffer. The requests are
    those a file system makes: they start at a sector of 512 bytes. *)
Class BlockDevice (D : Type) := {
  bd_read : Z -> Z -> M D (Z * list Z);
  bd_write : Z -> list Z -> M D Z;
  bd_bytes : D -> list Z;
  bd_ok : D -> Prop;
  bd_byte_law : forall d, bd_ok d -> bytes (bd_bytes d);
  bd_read_law : forall d off n, bd_ok d -> 0 <= off -> off mod 512 = 0 -> 0 < n -> off + n <= zlen (bd_bytes d) ->
    exists d', bd_read off n ~{ d }~> (n, slice off n (bd_bytes d)); d' /\ bd_ok d' /\ bd_bytes d' = bd_bytes d;
  bd_write_law : forall d off v, bd_ok d -> 0 <= off -> off mod 512 = 0 -> 0 < zlen v -> bytes v ->
    off + zlen v <= zlen (bd_bytes d) ->
    exists d', bd_write off v ~{ d }~> zlen v; d' /\ bd_ok d' /\ bd_bytes d' = splice off v (bd_bytes d)
}.
