(* ===== verification/CString.v ===== *)
(** * Strings and byte buffers (src/kernel/misc/string.c, lib/ctype.c, lib/stdio.c,
    lib/libgen.c)

    The functions on character arrays, over a memory of bytes in which every
    access outside an existing object is a fault. A loop that ends at a terminator
    takes a bound on its iterations; the theorems say which bound is enough. *)

From stdpp Require Import strings.
From S2P Require Import Prelude.

Module CString.

(** ** Memory

    The bytes that exist, by address. An object lies below 2^32, so a pointer into
    it does not wrap. A [char] is signed: [s8] reads the byte as one. *)
Abbreviation mem := (gmap Z Z).

Definition ldb (a : Z) : M mem Z := getsome (FPtr a) (fun m => m !! a).
Definition stb (a v : Z) : M mem unit := fun m =>
  match m !! a with Some _ => Ok (tt, <[a := u8 v]> m) | None => Err (FPtr a) end.

(** ** Character classes *)
Definition OFFSET : Z := 32.
Definition isdigit (c : Z) : bool := (48 <=? c) && (c <=? 57).
Definition isalpha (c : Z) : bool := ((65 <=? c) && (c <=? 90)) || ((97 <=? c) && (c <=? 122)).
Definition iscntrl (c : Z) : bool := ((0 <=? c) && (c <=? 31)) || (c =? 127).
Definition isalnum (c : Z) : bool := isalpha c || isdigit c.
Definition isxdigit (c : Z) : bool := isdigit c || ((65 <=? c) && (c <=? 70)).
Definition islower (c : Z) : bool := (97 <=? c) && (c <=? 122).
Definition isupper (c : Z) : bool := (65 <=? c) && (c <=? 90).
Definition tolower (c : Z) : Z := if negb (isalpha c) || islower c then c else c + OFFSET.
Definition toupper (c : Z) : Z := if negb (isalpha c) || isupper c then c else c - OFFSET.
Definition isspace (c : Z) : bool := c =? 32.

(** ** Copying

    [while (num--) *dst++ = *src++], from the low end and from the high end. *)
Fixpoint copy_up (n : nat) (dst src : Z) : M mem unit :=
  match n with
  | O => mret tt
  | S n => c ← ldb src; stb dst c ;; copy_up n (dst + 1) (src + 1)
  end.
Fixpoint copy_down (n : nat) (dst src : Z) : M mem unit :=
  match n with
  | O => mret tt
  | S n => c ← ldb src; stb dst c ;; copy_down n (dst - 1) (src - 1)
  end.

Definition memmove (dst src n : Z) : M mem Z :=
  (if (dst <=? src) || (src + n <=? dst) then copy_up (Z.to_nat n) dst src
   else copy_down (Z.to_nat n) (dst + n - 1) (src + n - 1)) ;;
  mret dst.

Definition memcpy (dst src num : Z) : M mem Z := copy_up (Z.to_nat num) dst src ;; mret dst.

Fixpoint memset_loop (n : nat) (dst value : Z) : M mem unit :=
  match n with O => mret tt | S n => stb dst value ;; memset_loop n (dst + 1) value end.
Definition memset (ptr value num : Z) : M mem Z := memset_loop (Z.to_nat num) ptr (Z.land value 255) ;; mret ptr.

(** The number of bytes that were left, and the pointers after the loop. *)
Fixpoint memccpy_loop (n : nat) (dst src c : Z) : M mem (nat * Z) :=
  match n with
  | O => mret (O, dst)
  | S n' => b ← ldb src; stb dst b ;;
            if s8 b =? s8 c then mret (n, dst + 1) else memccpy_loop n' (dst + 1) (src + 1) c
  end.
Definition memccpy (dst src c n : Z) : M mem Z :=
  r ← memccpy_loop (Z.to_nat n) dst src c;
  mret (if (r.1 =? 0)%nat then NULL else r.2).

Fixpoint memchr_loop (n : nat) (ptr ch : Z) : M mem Z :=
  match n with
  | O => mret NULL
  | S n => b ← ldb ptr; if negb (b =? u8 ch) then memchr_loop n (ptr + 1) ch else mret ptr
  end.
Definition memchr (ptr ch n : Z) : M mem Z := memchr_loop (Z.to_nat n) ptr ch.

(** [while (--n && *dst == *src)]: at most [n] bytes are compared. *)
Fixpoint memcmp_loop (n : nat) (dst src : Z) : M mem (Z * Z) :=
  match n with
  | O => mret (dst, src)
  | S n => a ← ldb dst; b ← ldb src; if a =? b then memcmp_loop n (dst + 1) (src + 1) else mret (dst, src)
  end.
Definition memcmp (dst src n : Z) : M mem Z :=
  if n =? 0 then mret 0
  else r ← memcmp_loop (Z.to_nat (n - 1)) dst src; a ← ldb r.1; b ← ldb r.2; mret (a - b).

(** ** Strings *)
Section Strings.
(** The bound on the iterations of a loop. *)
Context (fuel : nat).

(** [for (eos = s; *eos != 0; ++eos) {}]: the address of the terminator. *)
Fixpoint find_end (n : nat) (s : Z) : M mem Z :=
  match n with
  | O => fail FLoop
  | S n => c ← ldb s; if c =? 0 then mret s else find_end n (s + 1)
  end.
Definition strlen (s : Z) : M mem Z :=
  eos ← find_end fuel s;
  mret (if eos - s <? 0 then 0 else eos - s).

(** [count--] is evaluated only when the character is not the terminator. *)
Fixpoint strnlen_loop (n : nat) (sc count : Z) : M mem Z :=
  match n with
  | O => fail FLoop
  | S n => c ← ldb sc; if negb (c =? 0) && negb (count =? 0) then strnlen_loop n (sc + 1) (count - 1) else mret sc
  end.
Definition strnlen (s count : Z) : M mem Z :=
  sc ← strnlen_loop fuel s count;
  mret (if sc - s <? 0 then 0 else sc - s).

(** [while (( *dst++ = *src++) != 0) {}] *)
Fixpoint copy_string (n : nat) (dst src : Z) : M mem unit :=
  match n with
  | O => fail FLoop
  | S n => c ← ldb src; stb dst c ;; if c =? 0 then mret tt else copy_string n (dst + 1) (src + 1)
  end.
Definition strcpy (dst src : Z) : M mem Z := copy_string fuel dst src ;; mret dst.
Definition strcat (dst src : Z) : M mem Z := cp ← find_end fuel dst; copy_string fuel cp src ;; mret dst.

(** The first loop of [strncpy]: the room that is left and the next address, with
    the terminator counted as room. *)
Fixpoint strncpy_loop (num : nat) (destination source : Z) : M mem (nat * Z) :=
  match num with
  | O => mret (O, destination)
  | S n => c ← ldb source; stb destination c ;;
           if c =? 0 then mret (num, destination + 1) else strncpy_loop n (destination + 1) (source + 1)
  end.
Definition strncpy (destination source num : Z) : M mem Z :=
  r ← strncpy_loop (Z.to_nat num) destination source;
  memset_loop (r.1 - 1) r.2 0 ;;
  mret destination.

Fixpoint strncat_loop (n : nat) (s1 s2 : Z) : M mem unit :=
  match n with
  | O => stb s1 0
  | S n => c ← ldb s2; stb s1 c ;; if c =? 0 then mret tt else strncat_loop n (s1 + 1) (s2 + 1)
  end.
Definition strncat (s1 s2 n : Z) : M mem Z := e ← find_end fuel s1; strncat_loop (Z.to_nat n) e s2 ;; mret s1.

(** ** Comparing *)
Fixpoint strcmp_loop (n : nat) (s1 s2 : Z) : M mem Z :=
  match n with
  | O => fail FLoop
  | S n => a ← ldb s1; b ← ldb s2;
           let ret := s8 a - s8 b in
           if (ret =? 0) && negb (b =? 0) then strcmp_loop n (s1 + 1) (s2 + 1) else mret ret
  end.
Definition strcmp (s1 s2 : Z) : M mem Z :=
  ret ← strcmp_loop fuel s1 s2;
  mret (if ret <? 0 then -1 else if 0 <? ret then 1 else 0).

(** At most [n] characters are passed before the last comparison. *)
Fixpoint strncmp_loop (n : nat) (s1 s2 : Z) : M mem Z :=
  match n with
  | O => a ← ldb s1; b ← ldb s2; mret (a - b)
  | S n => a ← ldb s1; b ← ldb s2;
           if negb (a =? 0) && negb (b =? 0) && (a =? b) then strncmp_loop n (s1 + 1) (s2 + 1) else mret (a - b)
  end.
Definition strncmp (s1 s2 n : Z) : M mem Z := if n =? 0 then mret 0 else strncmp_loop (Z.to_nat (n - 1)) s1 s2.

Fixpoint stricmp_loop (n : nat) (s1 s2 : Z) : M mem Z :=
  match n with
  | O => fail FLoop
  | S n => b ← ldb s2; a ← ldb s1;
           if negb (b =? 0) && (toupper (s8 a) =? toupper (s8 b)) then stricmp_loop n (s1 + 1) (s2 + 1)
           else mret (toupper (s8 a) - toupper (s8 b))
  end.
Definition stricmp (s1 s2 : Z) : M mem Z := stricmp_loop fuel s1 s2.

(** The conversion [strnicmp] does itself. [n] is decremented modulo 2^32, so a
    call with 0 has no limit. *)
Definition to_lower (c : Z) : Z := if (65 <=? c) && (c <=? 90) then c + 32 else c.
Fixpoint strnicmp_loop (k : nat) (s1 s2 n : Z) : M mem Z :=
  match k with
  | O => fail FLoop
  | S k => a ← ldb s1; b ← ldb s2;
           let f := to_lower a in let l := to_lower b in
           let n := u32 (n - 1) in
           if negb (n =? 0) && negb (f =? 0) && (f =? l) then strnicmp_loop k (s1 + 1) (s2 + 1) n else mret (f - l)
  end.
Definition strnicmp (s1 s2 n : Z) : M mem Z := strnicmp_loop fuel s1 s2 n.

(** ** Searching *)
Fixpoint strchr_loop (n : nat) (s ch : Z) : M mem Z :=
  match n with
  | O => fail FLoop
  | S n => c ← ldb s;
           if negb (c =? 0) && negb (c =? u8 ch) then strchr_loop n (s + 1) ch
           else mret (if c =? u8 ch then s else NULL)
  end.
Definition strchr (s ch : Z) : M mem Z := strchr_loop fuel s ch.

(** From the terminator back to [start]. *)
Fixpoint strrchr_loop (n : nat) (s start ch : Z) : M mem Z :=
  match n with
  | O => fail FLoop
  | S n => if s =? start then c ← ldb s; mret (if c =? u8 ch then s else NULL)
           else c ← ldb s; if c =? u8 ch then mret s else strrchr_loop n (s - 1) start ch
  end.
Definition strrchr (s ch : Z) : M mem Z := e ← find_end fuel s; strrchr_loop fuel e s ch.

(** [while ( *s1 && *s2 && !( *s1 - *s2)) s1++, s2++;], and whether [s2] is at its end. *)
Fixpoint match_here (n : nat) (s1 s2 : Z) : M mem bool :=
  match n with
  | O => fail FLoop
  | S n => a ← ldb s1;
           if a =? 0 then b ← ldb s2; mret (b =? 0)
           else b ← ldb s2; if negb (b =? 0) && (a =? b) then match_here n (s1 + 1) (s2 + 1) else mret (b =? 0)
  end.
Fixpoint strstr_loop (n : nat) (cp str2 : Z) : M mem Z :=
  match n with
  | O => fail FLoop
  | S n => c ← ldb cp;
           if c =? 0 then mret NULL
           else found ← match_here fuel cp str2; if (found : bool) then mret cp else strstr_loop n (cp + 1) str2
  end.
Definition strstr (str1 str2 : Z) : M mem Z :=
  c ← ldb str2; if c =? 0 then mret str1 else strstr_loop fuel str1 str2.

(** ** Character sets

    [char map[32]] on the stack; the index [c >> 3] of a negative character is
    outside it. *)
Definition map_byte (map : list Z) (c : Z) : M mem Z :=
  of_option (FBound (Z.shiftr (s8 c) 3)) (zlookup map (Z.shiftr (s8 c) 3)).
Definition map_bit (c : Z) : Z := Z.shiftl 1 (Z.land (s8 c) 7).
Definition map_set (map : list Z) (c : Z) : M mem (list Z) :=
  b ← map_byte map c; mret (zinsert map (Z.shiftr (s8 c) 3) (u8 (Z.lor b (map_bit c)))).
Definition map_test (map : list Z) (c : Z) : M mem bool :=
  b ← map_byte map c; mret (negb (Z.land b (map_bit c) =? 0)).
Definition empty_map : list Z := replicate 32 0.

(** [while ( *ctrl) { map[*ctrl >> 3] |= ...; ctrl++; }] *)
Fixpoint build_map (n : nat) (ctrl : Z) (map : list Z) : M mem (list Z) :=
  match n with
  | O => fail FLoop
  | S n => c ← ldb ctrl; if c =? 0 then mret map else map ← map_set map c; build_map n (ctrl + 1) map
  end.
(** The loop of [strtok_r], which enters the terminator as well. *)
Fixpoint build_map0 (n : nat) (ctrl : Z) (map : list Z) : M mem (list Z) :=
  match n with
  | O => fail FLoop
  | S n => c ← ldb ctrl; map ← map_set map c; if c =? 0 then mret map else build_map0 n (ctrl + 1) map
  end.

Fixpoint span_in (k : nat) (str n : Z) (map : list Z) : M mem Z :=
  match k with
  | O => fail FLoop
  | S k => c ← ldb str; t ← map_test map c; if (t : bool) then span_in k (str + 1) (n + 1) map else mret n
  end.
Definition strspn (string control : Z) : M mem Z :=
  map ← build_map fuel control empty_map;
  c ← ldb string;
  if negb (c =? 0) then span_in fuel string 0 map else mret 0.

Fixpoint span_out (k : nat) (str n : Z) (map : list Z) : M mem Z :=
  match k with
  | O => fail FLoop
  | S k => c ← ldb str; t ← map_test map c; if negb t then span_out k (str + 1) (n + 1) map else mret n
  end.
Definition strcspn (string control : Z) : M mem Z :=
  map ← build_map fuel control empty_map;
  b ← of_option (FBound 0) (zlookup map 0);
  span_out fuel string 0 (zinsert map 0 (Z.lor b 1)).

Fixpoint strpbrk_loop (n : nat) (str : Z) (map : list Z) : M mem Z :=
  match n with
  | O => fail FLoop
  | S n => c ← ldb str;
           if c =? 0 then mret NULL
           else t ← map_test map c; if (t : bool) then mret str else strpbrk_loop n (str + 1) map
  end.
Definition strpbrk (string control : Z) : M mem Z :=
  map ← build_map fuel control empty_map; strpbrk_loop fuel string map.

(** ** Changing in place *)
Fixpoint map_chars (f : Z -> Z) (n : nat) (p : Z) : M mem unit :=
  match n with
  | O => fail FLoop
  | S n => c ← ldb p; if c =? 0 then mret tt else stb p (f (s8 c)) ;; map_chars f n (p + 1)
  end.
Definition strlwr (s : Z) : M mem Z := map_chars tolower fuel s ;; mret s.
Definition strupr (s : Z) : M mem Z := map_chars toupper fuel s ;; mret s.
Definition strset (s c : Z) : M mem Z := map_chars (fun _ => c) fuel s ;; mret s.

(** The pointer is returned where the loop leaves it, not at the start. *)
Fixpoint strnset_loop (n : nat) (s c : Z) : M mem Z :=
  match n with
  | O => mret s
  | S n => b ← ldb s; if b =? 0 then mret s else stb s c ;; strnset_loop n (s + 1) c
  end.
Definition strnset (s c n : Z) : M mem Z := strnset_loop (Z.to_nat n) s c.

(** [while (left < s) { ch = *left; *left++ = *s; *s-- = ch; }] *)
Fixpoint reverse_loop (n : nat) (left s : Z) : M mem unit :=
  match n with
  | O => fail FLoop
  | S n => if left <? s
           then ch ← ldb left; c ← ldb s; stb left c ;; stb s ch ;; reverse_loop n (left + 1) (s - 1)
           else mret tt
  end.
Definition strrev (s : Z) : M mem Z := e ← find_end fuel s; reverse_loop fuel s (e - 1) ;; mret s.

Fixpoint replace_loop (n : nat) (current_pos find replace : Z) : M mem unit :=
  match n with
  | O => fail FLoop
  | S n => if current_pos =? NULL then mret tt
           else stb current_pos replace ;; p ← strchr current_pos find; replace_loop n p find replace
  end.
Definition replace_char (str find replace : Z) : M mem Z :=
  p ← strchr str find; replace_loop fuel p find replace ;; mret str.

(** *** Tokens

    [strtok_r]: the token and what it leaves in [*saveptr]. *)
Fixpoint skip_delims (n : nat) (s : Z) (map : list Z) : M mem Z :=
  match n with
  | O => fail FLoop
  | S n => c ← ldb s; t ← map_test map c;
           if t && negb (c =? 0) then skip_delims n (s + 1) map else mret s
  end.
Fixpoint end_of_token (n : nat) (s : Z) (map : list Z) : M mem Z :=
  match n with
  | O => fail FLoop
  | S n => c ← ldb s;
           if c =? 0 then mret s
           else t ← map_test map c;
                if (t : bool) then stb s 0 ;; mret (s + 1) else end_of_token n (s + 1) map
  end.
Definition strtok_r (str delim saveptr : Z) : M mem (Z * Z) :=
  map ← build_map0 fuel delim empty_map;
  let s := if negb (str =? NULL) then str else saveptr in
  str ← skip_delims fuel s map;
  s ← end_of_token fuel str map;
  mret (if str =? s then NULL else str, s).

(** [strtok] compares with every delimiter in turn; [last] is the static pointer. *)
Fixpoint among (n : nat) (spanp c : Z) : M mem bool :=
  match n with
  | O => fail FLoop
  | S n => sc ← ldb spanp;
           if sc =? 0 then mret false else if c =? sc then mret true else among n (spanp + 1) c
  end.
(** The [do .. while] loop of [strtok] and [strsep], which tries the terminator too. *)
Fixpoint among0 (n : nat) (spanp c : Z) : M mem bool :=
  match n with
  | O => fail FLoop
  | S n => sc ← ldb spanp;
           if sc =? c then mret true else if negb (sc =? 0) then among0 n (spanp + 1) c else mret false
  end.
Fixpoint strtok_cont (n : nat) (str delim : Z) : M mem (Z * Z) :=
  match n with
  | O => fail FLoop
  | S n => c ← ldb str; d ← among fuel delim c;
           if (d : bool) then strtok_cont n (str + 1) delim else mret (c, str + 1)
  end.
(** The pointer after the end of the token, or [NULL] at the end of the string. *)
Fixpoint token_loop (n : nat) (str delim : Z) : M mem Z :=
  match n with
  | O => fail FLoop
  | S n => c ← ldb str; d ← among0 fuel delim c;
           if (d : bool) then (if c =? 0 then mret NULL else stb str 0 ;; mret (str + 1))
           else token_loop n (str + 1) delim
  end.
Definition strtok (str delim last : Z) : M mem (Z * Z) :=
  let str := if str =? NULL then last else str in
  if str =? NULL then mret (NULL, last)
  else
    r ← strtok_cont fuel str delim;
    if r.1 =? 0 then mret (NULL, NULL)
    else last ← token_loop fuel r.2 delim; mret (r.2 - 1, last).

(** The token, and what [strsep] leaves in [*stringp]. *)
Definition strsep (stringp delim : Z) : M mem (Z * Z) :=
  if stringp =? NULL then mret (NULL, stringp)
  else s ← token_loop fuel stringp delim; mret (stringp, s).

(** *** [trim] *)
Fixpoint skip_spaces (n : nat) (p : Z) : M mem Z :=
  match n with
  | O => fail FLoop
  | S n => c ← ldb p; if isspace c then skip_spaces n (p + 1) else mret p
  end.
(** [while (isspace( *(--endp)) && endp != frontp) {}] *)
Fixpoint skip_back (n : nat) (endp frontp : Z) : M mem Z :=
  match n with
  | O => fail FLoop
  | S n => let endp := endp - 1 in c ← ldb endp;
           if isspace c && negb (endp =? frontp) then skip_back n endp frontp else mret endp
  end.
(** [while ( *frontp) *endp++ = *frontp++; *endp = 0;] *)
Fixpoint shift_down (n : nat) (endp frontp : Z) : M mem unit :=
  match n with
  | O => fail FLoop
  | S n => c ← ldb frontp; if c =? 0 then stb endp 0 else stb endp c ;; shift_down n (endp + 1) (frontp + 1)
  end.
Definition trim (str : Z) : M mem Z :=
  if str =? NULL then mret NULL
  else
    c ← ldb str;
    if c =? 0 then mret str
    else
      len ← strlen str;
      let endp := str + len in
      frontp ← skip_spaces fuel str;
      endp ← (if negb (endp =? frontp) then skip_back fuel endp frontp else mret endp);
      (if negb (str + len - 1 =? endp) then stb (endp + 1) 0
       else if negb (frontp =? str) && (endp =? frontp) then stb str 0 else mret tt) ;;
      (if negb (frontp =? str) then shift_down fuel str frontp else mret tt) ;;
      mret str.

(** [strmode] writes ten characters and a terminator. *)
Definition mode_char (mode bit c : Z) : Z := if negb (Z.land mode bit =? 0) then c else 45.
Fixpoint put_chars (p : Z) (l : list Z) : M mem unit :=
  match l with [] => mret tt | c :: l => stb p c ;; put_chars (p + 1) l end.
Definition strmode (mode p : Z) : M mem unit :=
  put_chars p [mode_char mode 256 114; mode_char mode 128 119; mode_char mode 64 120;
               mode_char mode 32 114; mode_char mode 16 119; mode_char mode 8 120;
               mode_char mode 4 114; mode_char mode 2 119; mode_char mode 1 120; 32; 0].

(** ** Numbers *)
Fixpoint atoi_loop (n : nat) (p result : Z) : M mem Z :=
  match n with
  | O => fail FLoop
  | S n => c ← ldb p;
           if negb (c =? 0) && isdigit (s8 c) then atoi_loop n (p + 1) (s32 (result * 10 + s8 c - 48)) else mret result
  end.
Definition atoi (str : Z) : M mem Z :=
  if str =? NULL then mret 0
  else
    c ← ldb str;
    let sign := if c =? 45 then -1 else 1 in
    result ← atoi_loop fuel (if sign =? -1 then str + 1 else str) 0;
    mret (s32 (sign * result)).

(** The value of a digit, or [None] for another character. *)
Definition digit_of (c : Z) : option Z :=
  if isdigit c then Some (c - 48)
  else if isalpha c then Some (c - (if isupper c then 55 else 87))
  else None.

(** [any] is 0, 1, or -1 after an overflow. The first character, which has been
    read, is [c], and [s] is the address after it. The results are [acc], [any],
    [s] and whether errno has been set. *)
Fixpoint strtol_loop (n : nat) (base cutoff cutlim : Z) (neg : bool) (c s acc any : Z) (range : bool) : M mem (Z * Z * Z * bool) :=
  match n with
  | O => fail FLoop
  | S n =>
      match digit_of c with
      | None => mret (acc, any, s, range)
      | Some d =>
          if base <=? d then mret (acc, any, s, range)
          else
            let '(acc, any, range) :=
              if any <? 0 then (acc, any, range)
              else if neg then
                if (acc <? cutoff) || ((acc =? cutoff) && (cutlim <? d)) then (-2147483648, -1, true)
                else (acc * base - d, 1, range)
              else
                if (cutoff <? acc) || ((acc =? cutoff) && (cutlim <? d)) then (2147483647, -1, true)
                else (acc * base + d, 1, range) in
            c ← ldb s; strtol_loop n base cutoff cutlim neg c (s + 1) acc any range
      end
  end.

(** [do { c = *s++; } while (isspace(c));] *)
Fixpoint strtol_skip (n : nat) (s : Z) : M mem (Z * Z) :=
  match n with
  | O => fail FLoop
  | S n => c ← ldb s; if isspace c then strtol_skip n (s + 1) else mret (c, s + 1)
  end.

(** The sign. The character after it is read as a signed one. *)
Definition strtol_sign (c s : Z) : M mem (Z * Z * bool) :=
  if c =? 45 then d ← ldb s; mret (s8 d, s + 1, true)
  else if c =? 43 then d ← ldb s; mret (s8 d, s + 1, false)
  else mret (c, s, false).
(** A 0x that is allowed is passed and makes the base 16. *)
Definition strtol_prefix (base c s : Z) : M mem (Z * Z * Z) :=
  if ((base =? 0) || (base =? 16)) && (c =? 48) then
    x ← ldb s;
    if (x =? 120) || (x =? 88) then d ← ldb (s + 1); mret (s8 d, s + 2, 16) else mret (c, s, base)
  else mret (c, s, base).
(** [cutoff] and [cutlim]. *)
Definition strtol_limits (neg : bool) (base : Z) : Z * Z :=
  let cutoff := if neg then -2147483648 else 2147483647 in
  let cutlim := Z.rem cutoff base in
  let cutoff := Z.quot cutoff base in
  if neg then
    let '(cutoff, cutlim) := if 0 <? cutlim then (cutoff + 1, cutlim - base) else (cutoff, cutlim) in
    (cutoff, - cutlim)
  else (cutoff, cutlim).

(** The value, the end pointer and whether the value was out of range. *)
Definition strtol (str base : Z) : M mem (Z * Z * bool) :=
  r ← strtol_skip fuel str;
  let '(c, s) := r in
  r ← strtol_sign c s;
  let '(c, s, neg) := r in
  r ← strtol_prefix base c s;
  let '(c, s, base) := r in
  let base := if base =? 0 then (if c =? 48 then 8 else 10) else base in
  if base =? 0 then fail FDiv0
  else
    let '(cutoff, cutlim) := strtol_limits neg base in
    r ← strtol_loop fuel base cutoff cutlim neg c s 0 0 false;
    let '(acc, any, s, range) := r in
    mret (acc, if negb (any =? 0) then s - 1 else str, range).

(** ** Paths *)

(** [*cur] is the argument and its new value a result. *)
Fixpoint parse_path_loop (n : nat) (out cur sep : Z) : M mem (Z * Z) :=
  match n with
  | O => mret (out, cur)
  | S n => c ← ldb cur;
           if negb (c =? 0) && negb (s8 c =? s8 sep) then stb out c ;; parse_path_loop n (out + 1) (cur + 1) sep
           else mret (out, cur)
  end.
(** [max] is decremented modulo 2^32 before it is tested. *)
Definition parse_path (out cur sep max : Z) : M mem (Z * Z) :=
  c ← ldb cur;
  if c =? 0 then mret (0, cur)
  else
    stb out c ;;
    r ← parse_path_loop (Z.to_nat (u32 (max - 1))) (out + 1) (cur + 1) sep;
    stb r.1 0 ;;
    mret (1, r.2).

(** [s] is the address of the static buffer and [dot] that of the constant. *)
Definition dirname (s dot path : Z) : M mem Z :=
  if path =? NULL then mret dot
  else
    _ ← strcpy s path;
    last_slash ← strrchr s 47;
    last_slash ← (if last_slash =? s then mret (last_slash + 1)
                  else if negb (last_slash =? NULL) then
                    c ← ldb (last_slash + 1);
                    if c =? 0 then memchr s 47 (last_slash - s) else mret last_slash
                  else mret last_slash);
    if negb (last_slash =? NULL) then stb last_slash 0 ;; mret s else mret dot.

Definition basename (path : Z) : M mem Z :=
  p ← strrchr path 47;
  mret (if negb (p =? NULL) then p + 1 else path).

(** [while (pathidx && resolved[pathidx] != '/') pathidx--;] *)
Fixpoint up_one (n : nat) (resolved : Z) : M mem Z :=
  match n with
  | O => mret 0
  | S n' => c ← ldb (resolved + Z.of_nat n); if c =? 47 then mret (Z.of_nat n) else up_one n' resolved
  end.
(** [strncmp(lit, abspath + absidx, n)] with the literal of the source. *)
Fixpoint lit_ncmp (lit : list Z) (n : nat) (p : Z) : M mem bool :=
  match lit, n with
  | _, O => mret true
  | [], _ => mret true
  | c :: lit, S n => b ← ldb p; if b =? c then (if c =? 0 then mret true else lit_ncmp lit n (p + 1)) else mret false
  end.
Fixpoint realpath_loop (n : nat) (abspath resolved absidx pathidx : Z) : M mem Z :=
  match n with
  | O => fail FLoop
  | S n =>
      c ← ldb (abspath + absidx);
      if c =? 0 then mret pathidx
      else
        slashes ← lit_ncmp [47; 47] 2 (abspath + absidx);
        if (slashes : bool) then realpath_loop n abspath resolved (absidx + 1) pathidx
        else
          up ← lit_ncmp [47; 46; 46; 47] 4 (abspath + absidx);
          if (up : bool) then
            let pathidx := if negb (pathidx =? 0) then pathidx - 1 else pathidx in
            pathidx ← up_one (Z.to_nat pathidx) resolved;
            realpath_loop n abspath resolved (absidx + 3) pathidx
          else
            here ← lit_ncmp [47; 46; 47] 3 (abspath + absidx);
            if (here : bool) then realpath_loop n abspath resolved (absidx + 2) pathidx
            else
              stb (resolved + pathidx) c ;; realpath_loop n abspath resolved (absidx + 1) (pathidx + 1)
  end.

Definition PATH_MAX : Z := 4096.
(** [realpath] with a buffer of the caller. [abspath] is the address of the array
    on the stack, and [getcwd] stands for [sys_getcwd]; the literal "/" is at
    [slash]. [strncat] takes its third argument as unsigned. *)
Definition realpath (getcwd : Z -> Z -> M mem unit) (abspath slash path resolved : Z) : M mem Z :=
  _ ← memset abspath 0 PATH_MAX;
  c ← ldb path;
  (if negb (c =? 47) then
     getcwd abspath PATH_MAX ;;
     len ← strlen abspath;
     _ ← strncat abspath slash (u32 (PATH_MAX - len - 1));
     len ← strlen abspath;
     _ ← strncat abspath path (u32 (PATH_MAX - len - 1)); mret tt
   else _ ← strncpy abspath path (PATH_MAX - 1); mret tt) ;;
  len ← strlen abspath;
  _ ← strncat abspath slash (u32 (PATH_MAX - len - 1));
  pathidx ← realpath_loop fuel abspath resolved 0 0;
  (if 1 <? pathidx then stb (resolved + pathidx - 1) 0 else stb (resolved + 1) 0) ;;
  mret resolved.
End Strings.

(** ** Contents of memory

    [holds m p l]: the bytes from [p] are those of [l]. [room m p n]: the [n] bytes
    from [p] exist. [fill p l m]: [l] stored from [p]. *)
Definition holds (m : mem) (p : Z) (l : list Z) : Prop := forall i b, l !! i = Some b -> m !! (p + Z.of_nat i) = Some b.
Definition room (m : mem) (p n : Z) : Prop := forall a, p <= a < p + n -> is_Some (m !! a).
Fixpoint fill (p : Z) (l : list Z) (m : mem) : mem :=
  match l with [] => m | b :: l => fill (p + 1) l (<[p := b]> m) end.
Abbreviation len l := (Z.of_nat (length l)).
(** A byte, and a byte other than the terminator. *)
Definition bytes (l : list Z) : Prop := Forall is_u8 l.
Definition chars (l : list Z) : Prop := Forall (fun b => 0 < b < 256) l.
(** The string [s] at [p]. *)
Definition cstr (m : mem) (p : Z) (s : list Z) : Prop := holds m p (s ++ [0]) /\ chars s.
(** Nothing but the [n] bytes from [p] has changed. *)
Definition same_outside (m m' : mem) (p n : Z) : Prop := forall a, ~ (p <= a < p + n) -> m' !! a = m !! a.
(** The [n] bytes from [p] and the [k] bytes from [q] are apart. *)
Definition apart (p n q k : Z) : Prop := p + n <= q \/ q + k <= p.

Lemma holds_nil m p : holds m p [].
Proof. by intros i b. Qed.
Lemma holds_cons m p b l : holds m p (b :: l) <-> m !! p = Some b /\ holds m (p + 1) l.
Proof.
  split.
  - intros H. split; [specialize (H O b eq_refl); by rewrite Z.add_0_r in H|].
    intros i c Hi. replace (p + 1 + Z.of_nat i) with (p + Z.of_nat (S i)) by lia. by apply H.
  - intros [H1 H2] [|i] c Hi; [injection Hi as <-; by rewrite Z.add_0_r|].
    replace (p + Z.of_nat (S i)) with (p + 1 + Z.of_nat i) by lia. by apply H2.
Qed.
Lemma holds_app m p l1 l2 : holds m p (l1 ++ l2) <-> holds m p l1 /\ holds m (p + len l1) l2.
Proof.
  revert p. induction l1 as [|b l1 IH]; intros p; cbn [app length].
  - rewrite Z.add_0_r. split; [split; [apply holds_nil|done]|by intros []].
  - rewrite !holds_cons, IH. replace (p + Z.of_nat (S (length l1))) with (p + 1 + len l1) by lia. tauto.
Qed.
Lemma holds_insert m p l a v : ~ (p <= a < p + len l) -> holds m p l -> holds (<[a := v]> m) p l.
Proof.
  intros Ha H i b Hi. rewrite lookup_insert_ne; [by apply H|]. apply lookup_lt_Some in Hi. lia.
Qed.
Lemma holds_same m m' p l q n : same_outside m m' q n -> apart p (len l) q n -> holds m p l -> holds m' p l.
Proof. intros Hs Ha H i b Hi. rewrite Hs; [by apply H|]. apply lookup_lt_Some in Hi. unfold apart in Ha. lia. Qed.
Lemma holds_room m p l : holds m p l -> room m p (len l).
Proof.
  intros H a Ha. destruct (lookup_lt_is_Some_2 l (Z.to_nat (a - p))) as [b Hb]; [lia|].
  exists b. replace a with (p + Z.of_nat (Z.to_nat (a - p))) by lia. by apply H.
Qed.
Lemma room_insert m p n a v : room m p n -> room (<[a := v]> m) p n.
Proof. intros H x Hx. destruct (decide (x = a)) as [->|]; [rewrite lookup_insert_eq; by eexists|rewrite lookup_insert_ne by done; by apply H]. Qed.
Lemma room_sub m p n q k : room m p n -> p <= q -> q + k <= p + n -> room m q k.
Proof. intros H Hq Hk a Ha. apply H. lia. Qed.
Lemma room_same m m' p n q k : same_outside m m' q k -> room m' q k -> room m p n -> room m' p n.
Proof. intros Hs H1 H2 a Ha. destruct (decide (q <= a < q + k)); [by apply H1|rewrite Hs by done; by apply H2]. Qed.
Lemma same_refl m p n : same_outside m m p n.
Proof. by intros a. Qed.
Lemma same_weaken m m' p n q k : same_outside m m' p n -> q <= p -> p + n <= q + k -> same_outside m m' q k.
Proof. intros H Hq Hk a Ha. apply H. lia. Qed.
Lemma same_trans m m1 m2 p n : same_outside m m1 p n -> same_outside m1 m2 p n -> same_outside m m2 p n.
Proof. intros H1 H2 a Ha. by rewrite H2, H1. Qed.

Lemma fill_lookup l : forall p m a, fill p l m !! a =
  if decide (p <= a < p + len l) then l !! Z.to_nat (a - p) else m !! a.
Proof.
  induction l as [|b l IH]; intros p m a; cbn [fill length].
  - rewrite decide_False by (cbn; lia). done.
  - rewrite IH. repeat case_decide; try lia.
    + replace (Z.to_nat (a - p)) with (S (Z.to_nat (a - (p + 1)))) by lia. done.
    + assert (a = p) as -> by lia. rewrite lookup_insert_eq. replace (Z.to_nat (p - p)) with O by lia. done.
    + by rewrite lookup_insert_ne by lia.
Qed.
Lemma fill_holds p l m : holds (fill p l m) p l.
Proof.
  intros i b Hi. pose proof (lookup_lt_Some _ _ _ Hi). rewrite fill_lookup, decide_True by lia.
  by replace (Z.to_nat (p + Z.of_nat i - p)) with i by lia.
Qed.
Lemma fill_same p l m : same_outside m (fill p l m) p (len l).
Proof. intros a Ha. by rewrite fill_lookup, decide_False. Qed.
Lemma fill_room p l m q n : room m q n -> room (fill p l m) q n.
Proof. intros H. apply (room_same m _ q n p (len l)); [apply fill_same|apply holds_room, fill_holds|done]. Qed.
Lemma fill_app p l1 l2 m : fill p (l1 ++ l2) m = fill (p + len l1) l2 (fill p l1 m).
Proof.
  revert p m. induction l1 as [|b l1 IH]; intros p m; cbn [app fill length]; [by rewrite Z.add_0_r|].
  rewrite IH. f_equal. lia.
Qed.

Lemma ldb_run m a b : m !! a = Some b -> ldb a ~{ m }~> b; m.
Proof. apply getsome_ok. Qed.
Lemma stb_run m a v : is_Some (m !! a) -> stb a v ~{ m }~> tt; <[a := u8 v]> m.
Proof. intros [b Hb]. unfold stb. by rewrite Hb. Qed.
Lemma u8_small b : is_u8 b -> u8 b = b.
Proof. wraplia. Qed.
Lemma chars_bytes l : chars l -> bytes l.
Proof. intros H. eapply Forall_impl; [exact H|]. unfold is_u8. cbn. lia. Qed.
Lemma cstr_bytes m p s : cstr m p s -> bytes (s ++ [0]).
Proof. intros [_ H]. apply Forall_app. split; [by apply chars_bytes|]. repeat constructor; lia. Qed.

(** *** Copying *)
Lemma copy_up_run l : forall m dst src, bytes l -> holds m src l -> room m dst (len l) ->
  dst <= src \/ src + len l <= dst -> copy_up (length l) dst src ~{ m }~> tt; fill dst l m.
Proof.
  induction l as [|b l IH]; intros m dst src Hb Hs Hd Ha; [done|].
  apply Forall_cons in Hb as [Hb Hl]. apply holds_cons in Hs as [H1 H2]. cbn [length] in *. cbn [copy_up fill].
  run (ldb_run _ _ _ H1). run (stb_run m dst b ltac:(apply Hd; lia)). rewrite u8_small by done.
  apply IH; [done| |apply room_insert; eapply room_sub; [done|lia..]|lia].
  apply holds_insert; [lia|done].
Qed.
Lemma copy_down_run l : forall m dst src, bytes l -> holds m src l -> room m dst (len l) -> src <= dst ->
  copy_down (length l) (dst + len l - 1) (src + len l - 1) ~{ m }~> tt; fill dst l m.
Proof.
  induction l as [|b l IH] using rev_ind; intros m dst src Hb Hs Hd Ha; [done|].
  apply Forall_app in Hb as [Hl Hb]. apply Forall_cons in Hb as [Hb _]. apply holds_app in Hs as [H2 H1].
  apply holds_cons in H1 as [H1 _]. rewrite length_app in *. cbn [length] in *. replace (length l + 1)%nat with (S (length l)) in * by lia.
  cbn [copy_down]. replace (src + Z.of_nat (S (length l)) - 1) with (src + len l) by lia.
  replace (dst + Z.of_nat (S (length l)) - 1) with (dst + len l) by lia.
  run (ldb_run _ _ _ H1). run (stb_run m (dst + len l) b ltac:(apply Hd; lia)). rewrite u8_small by done.
  rewrite IH; [|done|apply holds_insert; [lia|done]|apply room_insert; eapply room_sub; [done|lia..]|done].
  rewrite fill_app. cbn [fill]. do 2 f_equal. apply map_eq. intros a. rewrite fill_lookup.
  destruct (decide (a = dst + len l)) as [->|Hne].
  - by rewrite !lookup_insert_eq, decide_False by lia.
  - rewrite !lookup_insert_ne by done. by rewrite fill_lookup.
Qed.
Lemma memmove_run m dst src l : bytes l -> holds m src l -> room m dst (len l) ->
  memmove dst src (len l) ~{ m }~> dst; fill dst l m.
Proof.
  intros Hb Hs Hd. unfold memmove. rewrite Nat2Z.id.
  assert (Hc : (if (dst <=? src) || (src + len l <=? dst) then copy_up (length l) dst src
    else copy_down (length l) (dst + len l - 1) (src + len l - 1)) ~{ m }~> tt; fill dst l m).
  { destruct (Z.leb_spec dst src); [apply copy_up_run; auto|]. destruct (Z.leb_spec (src + len l) dst); cbn [orb].
    - apply copy_up_run; auto.
    - apply copy_down_run; auto. lia. }
  by run Hc.
Qed.
Lemma memset_loop_run n v : forall m dst, room m dst (Z.of_nat n) ->
  memset_loop n dst v ~{ m }~> tt; fill dst (replicate n (u8 v)) m.
Proof.
  induction n as [|n IH]; intros m dst Hd; [done|]. cbn [memset_loop replicate fill].
  run (stb_run m dst v ltac:(apply Hd; lia)). apply IH, room_insert. eapply room_sub; [done|lia..].
Qed.

(** *** Strings *)
Lemma find_end_run s : forall n m p, cstr m p s -> (length s < n)%nat -> find_end n p ~{ m }~> p + len s; m.
Proof.
  induction s as [|c s IH]; intros [|n] m p [Hh Hc] Hn; try (cbn in Hn; lia); cbn [app] in Hh; apply holds_cons in Hh as [H1 H2];
    cbn [find_end length]; run (ldb_run _ _ _ H1).
  - cbn. unfold mret, M_ret. do 2 f_equal. lia.
  - apply Forall_cons in Hc as [Hc Hs]. rewrite (proj2 (Z.eqb_neq c 0)) by lia. cbn in Hn. rewrite IH by (done || lia).
    do 2 f_equal. lia.
Qed.
Lemma copy_string_run s : forall n m dst src, cstr m src s -> room m dst (len s + 1) ->
  dst <= src \/ src + len s + 1 <= dst -> (length s < n)%nat ->
  copy_string n dst src ~{ m }~> tt; fill dst (s ++ [0]) m.
Proof.
  induction s as [|c s IH]; intros [|n] m dst src [Hh Hc] Hr Ha Hn; try (cbn in Hn; lia); cbn [app] in Hh;
    apply holds_cons in Hh as [H1 H2]; cbn [copy_string app fill length] in *; run (ldb_run _ _ _ H1).
  - by run (stb_run m dst 0 ltac:(apply Hr; lia)).
  - apply Forall_cons in Hc as [Hc Hs]. run (stb_run m dst c ltac:(apply Hr; lia)).
    rewrite u8_small by (unfold is_u8; lia). rewrite (proj2 (Z.eqb_neq c 0)) by lia.
    apply IH; [|apply room_insert; eapply room_sub; [done|lia..]|lia|lia].
    split; [apply holds_insert; [rewrite length_app; cbn; lia|done]|done].
Qed.
Lemma strlen_run fuel m p s : cstr m p s -> (length s < fuel)%nat -> strlen fuel p ~{ m }~> len s; m.
Proof.
  intros Hs Hf. unfold strlen. run (find_end_run s fuel m p Hs Hf). rewrite (proj2 (Z.ltb_ge _ _)) by lia.
  unfold mret, M_ret. do 2 f_equal. lia.
Qed.
Lemma strncpy_run s n m dst src : cstr m src s -> room m dst (Z.of_nat n) -> apart dst (Z.of_nat n) src (len s + 1) ->
  strncpy dst src (Z.of_nat n) ~{ m }~> dst; fill dst (take n (s ++ replicate n 0)) m.
Proof.
  intros Hs Hr Ha. unfold strncpy. rewrite Nat2Z.id. set (d0 := dst) at 2.
  assert (Hl : exists r m', strncpy_loop n dst src ~{ m }~> r; m' /\
    memset_loop (r.1 - 1) r.2 0 ~{ m' }~> tt; fill dst (take n (s ++ replicate n 0)) m).
  { clear d0. revert n m dst src Hs Hr Ha. induction s as [|c s IH]; intros [|n] m dst src [Hh Hc] Hr Ha.
    - by eexists _, _.
    - cbn [app] in Hh. apply holds_cons in Hh as [H1 _]. cbn [strncpy_loop app replicate take fill length].
      eexists _, _. split; [run (ldb_run _ _ _ H1); run (stb_run m dst 0 ltac:(apply Hr; lia)); reflexivity|]. cbn [fst snd].
      replace (S n - 1)%nat with n by lia. rewrite memset_loop_run by (apply room_insert; eapply room_sub; [done|lia..]).
      rewrite firstn_all2 by (rewrite length_replicate; lia). done.
    - by eexists _, _.
    - cbn [app] in Hh. apply holds_cons in Hh as [H1 H2]. apply Forall_cons in Hc as [Hc Hcs]. unfold apart in Ha. cbn [length] in *.
      cbn [strncpy_loop app replicate take fill].
      destruct (IH n (<[dst := u8 c]> m) (dst + 1) (src + 1)) as (r & m' & Hl & Hm).
      { split; [apply holds_insert; [rewrite length_app; cbn; lia|done]|done]. }
      { apply room_insert. eapply room_sub; [done|lia..]. }
      { unfold apart. lia. }
      exists r, m'. split.
      + run (ldb_run _ _ _ H1). run (stb_run m dst c ltac:(apply Hr; lia)). by rewrite (proj2 (Z.eqb_neq c 0)) by lia.
      + rewrite Hm. rewrite u8_small by (unfold is_u8; lia). f_equal. f_equal. f_equal.
        rewrite (replicate_cons_app n). rewrite !app_assoc. by rewrite (take_app_le _ [0]) by (rewrite length_app, length_replicate; lia). }
  destruct Hl as (r & m' & H1 & H2). run H1. by run H2.
Qed.
Lemma strncat_loop_run s : forall n m dst src, cstr m src s -> room m dst (Z.of_nat n + 1) -> apart dst (Z.of_nat n + 1) src (len s + 1) ->
  strncat_loop n dst src ~{ m }~> tt; fill dst (take n s ++ [0]) m.
Proof.
  induction s as [|c s IH]; intros [|n] m dst src [Hh Hc] Hr Ha; cbn [strncat_loop take app fill length] in *; unfold apart in Ha.
  - by rewrite stb_run by (apply Hr; lia).
  - apply holds_cons in Hh as [H1 _]. run (ldb_run _ _ _ H1). by run (stb_run m dst 0 ltac:(apply Hr; lia)).
  - by rewrite stb_run by (apply Hr; lia).
  - apply holds_cons in Hh as [H1 H2]. apply Forall_cons in Hc as [Hc Hcs].
    run (ldb_run _ _ _ H1). run (stb_run m dst c ltac:(apply Hr; lia)). rewrite u8_small by (unfold is_u8; lia).
    rewrite (proj2 (Z.eqb_neq c 0)) by lia. apply IH; [|apply room_insert; eapply room_sub; [done|lia..]|unfold apart; lia].
    split; [apply holds_insert; [rewrite length_app; cbn; lia|done]|done].
Qed.

(** A string, and what was written at its end. *)
Lemma built m dst a b : holds m dst (a ++ [0]) -> chars a -> chars b -> cstr (fill (dst + len a) (b ++ [0]) m) dst (a ++ b).
Proof.
  intros Ha Hca Hcb. split; [|by apply Forall_app]. rewrite <- app_assoc. apply holds_app. split; [|apply fill_holds].
  apply holds_app in Ha as [Ha _]. eapply holds_same; [apply fill_same|unfold apart; lia|done].
Qed.

(** *** Comparing

    The first pair of different bytes. *)
Fixpoint diff (l1 l2 : list Z) : option (Z * Z) :=
  match l1, l2 with
  | x :: l1, y :: l2 => if x =? y then diff l1 l2 else Some (x, y)
  | _, _ => None
  end.
(** The result of a comparison, on characters read with [f]. *)
Definition diff_by (f : Z -> Z) (l1 l2 : list Z) : Z :=
  match diff l1 l2 with Some (x, y) => f x - f y | None => 0 end.

Lemma diff_by_cons f x y l1 l2 : diff_by f (x :: l1) (y :: l2) = if x =? y then diff_by f l1 l2 else f x - f y.
Proof. unfold diff_by. cbn [diff]. by destruct (x =? y). Qed.
Lemma s8_inj x y : is_u8 x -> is_u8 y -> s8 x = s8 y -> x = y.
Proof. wraplia. Qed.
Lemma strcmp_loop_run a : forall n m p q b, cstr m p a -> cstr m q b -> (length a < n)%nat ->
  strcmp_loop n p q ~{ m }~> diff_by s8 (a ++ [0]) (b ++ [0]); m.
Proof.
  induction a as [|x a IH]; intros [|n] m p q b [Ha Hca] [Hb Hcb] Hn; try (cbn in Hn; lia); cbn [app length] in *;
    apply holds_cons in Ha as [H1 H2]; cbn [strcmp_loop]; run (ldb_run _ _ _ H1); destruct b as [|y b]; cbn [app] in *;
    apply holds_cons in Hb as [H3 H4]; run (ldb_run _ _ _ H3); rewrite diff_by_cons.
  - done.
  - apply Forall_cons in Hcb as [Hy _]. rewrite (proj2 (Z.eqb_neq 0 y)) by lia.
    destruct (Z.eqb_spec (s8 0 - s8 y) 0) as [E|]; [|done]. assert (0 = y) by (apply s8_inj; unfold is_u8; lia). lia.
  - apply Forall_cons in Hca as [Hx _]. rewrite (proj2 (Z.eqb_neq x 0)) by lia. cbn [negb]. by rewrite andb_false_r.
  - apply Forall_cons in Hca as [Hx Hca]. apply Forall_cons in Hcb as [Hy Hcb]. rewrite (proj2 (Z.eqb_neq y 0)) by lia.
    cbn [negb]. rewrite andb_true_r. destruct (Z.eqb_spec x y) as [->|Hne].
    + rewrite Z.sub_diag. cbn [Z.eqb]. apply IH; [done|done|lia].
    + destruct (Z.eqb_spec (s8 x - s8 y) 0) as [E|]; [|done]. destruct Hne. apply s8_inj; unfold is_u8; lia.
Qed.
Lemma strncmp_loop_run n : forall m p q a b, cstr m p a -> cstr m q b ->
  strncmp_loop n p q ~{ m }~> diff_by id (take (S n) (a ++ [0])) (take (S n) (b ++ [0])); m.
Proof.
  assert (Hend : forall x y (l1 l2 : list Z), x <> y \/ l1 = [] -> x - y = diff_by id (x :: l1) (y :: l2)).
  { intros x y l1 l2 H. rewrite diff_by_cons. unfold id. destruct (Z.eqb_spec x y); [|done].
    destruct H as [H| ->]; [done|]. unfold diff_by. cbn [diff]. lia. }
  induction n as [|n IH]; intros m p q a b [Ha Hca] [Hb Hcb]; destruct a as [|x a], b as [|y b]; cbn [app] in *;
    apply holds_cons in Ha as [H1 H2]; apply holds_cons in Hb as [H3 H4]; cbn [strncmp_loop]; run (ldb_run _ _ _ H1); run (ldb_run _ _ _ H3);
    rewrite !firstn_cons; try (unfold mret, M_ret; do 2 f_equal; apply Hend; by right).
  - apply Forall_cons in Hcb as [Hy _]. cbn [Z.eqb negb andb]. unfold mret, M_ret. do 2 f_equal. apply Hend. left. lia.
  - apply Forall_cons in Hca as [Hx _]. cbn [Z.eqb negb]. rewrite andb_false_r. cbn [andb]. unfold mret, M_ret. do 2 f_equal. apply Hend. left. lia.
  - apply Forall_cons in Hca as [Hx Hca]. apply Forall_cons in Hcb as [Hy Hcb].
    rewrite (proj2 (Z.eqb_neq x 0)), (proj2 (Z.eqb_neq y 0)) by lia. cbn [negb andb]. destruct (Z.eqb_spec x y) as [->|Hne].
    + rewrite (IH m (p + 1) (q + 1) a b) by done. by rewrite diff_by_cons, Z.eqb_refl.
    + unfold mret, M_ret. do 2 f_equal. apply Hend. by left.
Qed.
Lemma memcmp_loop_run l1 : forall l2 x1 x2 m p q, length l1 = length l2 -> holds m p (l1 ++ [x1]) -> holds m q (l2 ++ [x2]) ->
  exists r a b, memcmp_loop (length l1) p q ~{ m }~> r; m /\ m !! r.1 = Some a /\ m !! r.2 = Some b /\
    a - b = diff_by id (l1 ++ [x1]) (l2 ++ [x2]).
Proof.
  induction l1 as [|x l1 IH]; intros [|y l2] x1 x2 m p q Hl H1 H2; try done; cbn [app] in *;
    apply holds_cons in H1 as [H1 H1']; apply holds_cons in H2 as [H2 H2'].
  - exists (p, q), x1, x2. split; [done|]. split; [done|]. split; [done|]. rewrite diff_by_cons. unfold diff_by, id. cbn [diff].
    destruct (Z.eqb_spec x1 x2); lia.
  - cbn [length memcmp_loop]. rewrite diff_by_cons. destruct (Z.eqb_spec x y) as [->|Hne].
    + destruct (IH l2 x1 x2 m (p + 1) (q + 1)) as (r & a & b & Hr & H3); [by injection Hl|done..|].
      exists r, a, b. split; [|done]. run (ldb_run _ _ _ H1). run (ldb_run _ _ _ H2). by rewrite Z.eqb_refl.
    + exists (p, q), x, y. split; [|done]. run (ldb_run _ _ _ H1). run (ldb_run _ _ _ H2). by rewrite (proj2 (Z.eqb_neq _ _) Hne).
Qed.
Lemma memcmp_run m p q l1 l2 : holds m p l1 -> holds m q l2 -> length l1 = length l2 ->
  memcmp p q (len l1) ~{ m }~> diff_by id l1 l2; m.
Proof.
  intros H1 H2 Hl. unfold memcmp. destruct l1 as [|x1 l1] using rev_ind; [done|].
  destruct l2 as [|x2 l2] using rev_ind; [rewrite length_app in Hl; cbn in Hl; lia|].
  rewrite !length_app in *. cbn [length] in *. rewrite (proj2 (Z.eqb_neq _ _)) by lia.
  replace (Z.to_nat (Z.of_nat (length l1 + 1) - 1)) with (length l1) by lia.
  destruct (memcmp_loop_run l1 l2 x1 x2 m p q) as (r & a & b & Hr & Hra & Hrb & Hd); [lia|done..|].
  run Hr. run (ldb_run _ _ _ Hra). run (ldb_run _ _ _ Hrb). by rewrite Hd.
Qed.
Lemma diff_none l1 : forall l2, length l1 = length l2 -> diff l1 l2 = None <-> l1 = l2.
Proof.
  induction l1 as [|x l1 IH]; intros [|y l2] Hl; try done; cbn [diff]. destruct (Z.eqb_spec x y) as [->|Hne].
  - rewrite IH by (by injection Hl). naive_solver.
  - split; [done|]. by intros [= ? _].
Qed.
(** Strings end at the first zero, so they are equal when no character differs. *)
Lemma diff_strings a : forall b, chars a -> chars b -> diff (a ++ [0]) (b ++ [0]) = None <-> a = b.
Proof.
  induction a as [|x a IH]; intros [|y b] Ha Hb; cbn [app diff].
  - by rewrite Z.eqb_refl.
  - apply Forall_cons in Hb as [Hy _]. by rewrite (proj2 (Z.eqb_neq 0 y)) by lia.
  - apply Forall_cons in Ha as [Hx _]. by rewrite (proj2 (Z.eqb_neq x 0)) by lia.
  - apply Forall_cons in Ha as [_ Ha]. apply Forall_cons in Hb as [_ Hb]. destruct (Z.eqb_spec x y) as [->|Hne].
    + rewrite IH by done. naive_solver.
    + split; [done|]. by intros [= ? _].
Qed.
Lemma diff_some l1 : forall l2 x y, diff l1 l2 = Some (x, y) -> x <> y /\ x ∈ l1 /\ y ∈ l2.
Proof.
  induction l1 as [|a l1 IH]; intros [|b l2] x y H; try done. cbn [diff] in H. destruct (Z.eqb_spec a b) as [->|Hne].
  - destruct (IH _ _ _ H) as (H1 & H2 & H3). split; [done|]. by split; right.
  - injection H as <- <-. split; [done|]. by split; left.
Qed.
Lemma diff_by_zero (f : Z -> Z) l1 l2 : (forall x y, x ∈ l1 -> y ∈ l2 -> f x = f y -> x = y) ->
  diff_by f l1 l2 = 0 <-> diff l1 l2 = None.
Proof.
  intros Hf. unfold diff_by. destruct (diff l1 l2) as [[x y]|] eqn:E; [|done]. destruct (diff_some _ _ _ _ E) as (Hne & H1 & H2).
  split; [|done]. intros H. destruct Hne. apply Hf; [done|done|lia].
Qed.

(** *** Searching

    [r] points to the first (last) of the positions below [n] that satisfy [P], or
    is [NULL] when none does. *)
Definition first_match (P : nat -> Prop) (n : nat) (p r : Z) : Prop :=
  (exists i, (i < n)%nat /\ P i /\ (forall j, (j < i)%nat -> ~ P j) /\ r = p + Z.of_nat i) \/
  (r = NULL /\ forall j, (j < n)%nat -> ~ P j).
Definition last_match (P : nat -> Prop) (n : nat) (p r : Z) : Prop :=
  (exists i, (i < n)%nat /\ P i /\ (forall j, (i < j < n)%nat -> ~ P j) /\ r = p + Z.of_nat i) \/
  (r = NULL /\ forall j, (j < n)%nat -> ~ P j).

Lemma first_match_0 (P : nat -> Prop) n p : P O -> first_match P (S n) p p.
Proof. intros H. left. exists O. split_and!; [lia|done|lia|lia]. Qed.
Lemma first_match_S (P : nat -> Prop) n p r : ~ P O -> first_match (fun i => P (S i)) n (p + 1) r -> first_match P (S n) p r.
Proof.
  intros H0 [(i & H1 & H2 & H3 & ->)|[-> H]].
  - left. exists (S i). split_and!; [lia|done| |lia]. intros [|j] Hj; [done|]. apply H3. lia.
  - right. split; [done|]. intros [|j] Hj; [done|]. apply H. lia.
Qed.
Lemma first_match_none (P : nat -> Prop) p : first_match P 0 p NULL.
Proof. right. split; [done|lia]. Qed.

Definition char_at (l : list Z) (c : Z) (i : nat) : Prop := l !! i = Some c.

Lemma strchr_loop_run s : forall n m p ch, cstr m p s -> (length s < n)%nat ->
  exists r, strchr_loop n p ch ~{ m }~> r; m /\ first_match (char_at (s ++ [0]) (u8 ch)) (S (length s)) p r.
Proof.
  induction s as [|c s IH]; intros [|n] m p ch [Hh Hc] Hn; try (cbn in Hn; lia); cbn [app length] in *; apply holds_cons in Hh as [H1 H2];
    cbn [strchr_loop].
  - eexists. split; [by run (ldb_run _ _ _ H1)|]. destruct (Z.eqb_spec 0 (u8 ch)) as [<-|Hne]; [by apply first_match_0|].
    apply first_match_S; [intros [= E]; congruence|apply first_match_none].
  - apply Forall_cons in Hc as [Hc Hcs]. destruct (Z.eqb_spec c (u8 ch)) as [->|Hne].
    + exists p. split; [|by apply first_match_0]. run (ldb_run _ _ _ H1). rewrite Z.eqb_refl. cbn [negb]. by rewrite andb_false_r.
    + destruct (IH n m (p + 1) ch (conj H2 Hcs) ltac:(lia)) as (r & Hr & Hf). exists r. split.
      * run (ldb_run _ _ _ H1). by rewrite (proj2 (Z.eqb_neq c 0)), (proj2 (Z.eqb_neq _ _) Hne) by lia.
      * apply first_match_S; [intros [= E]; congruence|exact Hf].
Qed.
Lemma memchr_run l : forall m p ch, holds m p l ->
  exists r, memchr_loop (length l) p ch ~{ m }~> r; m /\ first_match (char_at l (u8 ch)) (length l) p r.
Proof.
  induction l as [|c l IH]; intros m p ch Hh; cbn [memchr_loop length]; [exists NULL; split; [done|apply first_match_none]|].
  apply holds_cons in Hh as [H1 H2]. destruct (Z.eqb_spec c (u8 ch)) as [->|Hne].
  - exists p. split; [run (ldb_run _ _ _ H1); by rewrite Z.eqb_refl|by apply first_match_0].
  - destruct (IH m (p + 1) ch H2) as (r & Hr & Hf). exists r. split.
    + run (ldb_run _ _ _ H1). by rewrite (proj2 (Z.eqb_neq _ _) Hne).
    + apply first_match_S; [intros [= E]; congruence|exact Hf].
Qed.
(** From position [k], which is the last that has not been ruled out. *)
Lemma strrchr_loop_run k : forall n m p ch l, holds m p l -> (k < length l)%nat -> (k < n)%nat ->
  (forall j, (k < j < length l)%nat -> ~ char_at l (u8 ch) j) ->
  exists r, strrchr_loop n (p + Z.of_nat k) p ch ~{ m }~> r; m /\ last_match (char_at l (u8 ch)) (length l) p r.
Proof.
  induction k as [|k IH]; intros [|n] m p ch l Hh Hk Hn Hlast; try lia; cbn [strrchr_loop].
  - destruct (lookup_lt_is_Some_2 l O Hk) as [c Hc]. pose proof (Hh O c Hc) as Hm. rewrite Z.add_0_r in *. rewrite Z.eqb_refl.
    eexists. split; [by run (ldb_run _ _ _ Hm)|]. destruct (Z.eqb_spec c (u8 ch)) as [->|Hne].
    + left. exists O. split_and!; [done|done|done|lia].
    + right. split; [done|]. intros [|j] Hj; [unfold char_at; congruence|]. apply Hlast. lia.
  - destruct (lookup_lt_is_Some_2 l (S k) Hk) as [c Hc]. pose proof (Hh (S k) c Hc) as Hm.
    rewrite (proj2 (Z.eqb_neq (p + Z.of_nat (S k)) p)) by lia. destruct (Z.eqb_spec c (u8 ch)) as [->|Hne].
    + exists (p + Z.of_nat (S k)). split; [run (ldb_run _ _ _ Hm); by rewrite Z.eqb_refl|]. left. exists (S k). done.
    + destruct (IH n m p ch l Hh) as (r & Hr & Hl); [lia|lia| |].
      { intros j Hj. destruct (decide (j = S k)) as [->|]; [unfold char_at; congruence|]. apply Hlast. lia. }
      exists r. split; [|done]. run (ldb_run _ _ _ Hm). rewrite (proj2 (Z.eqb_neq _ _) Hne).
      by replace (p + Z.of_nat (S k) - 1) with (p + Z.of_nat k) by lia.
Qed.

Lemma match_here_run b : forall n m p q a, cstr m p a -> cstr m q b -> (length b < n)%nat ->
  match_here n p q ~{ m }~> bool_decide (b `prefix_of` a); m.
Proof.
  induction b as [|y b IH]; intros [|n] m p q a [Ha Hca] [Hb Hcb] Hn; try (cbn in Hn; lia); cbn [app length] in *;
    apply holds_cons in Hb as [H3 H4]; destruct a as [|x a]; cbn [app] in *; apply holds_cons in Ha as [H1 H2];
    cbn [match_here]; run (ldb_run _ _ _ H1).
  - cbn [Z.eqb]. run (ldb_run _ _ _ H3). rewrite bool_decide_true by apply prefix_nil. done.
  - apply Forall_cons in Hca as [Hx _]. rewrite (proj2 (Z.eqb_neq x 0)) by lia. run (ldb_run _ _ _ H3).
    rewrite bool_decide_true by apply prefix_nil. done.
  - apply Forall_cons in Hcb as [Hy _]. cbn [Z.eqb]. run (ldb_run _ _ _ H3). rewrite (proj2 (Z.eqb_neq y 0)) by lia.
    rewrite bool_decide_false; [done|]. intros [k Hk]. discriminate.
  - apply Forall_cons in Hca as [Hx Hca]. apply Forall_cons in Hcb as [Hy Hcb]. rewrite (proj2 (Z.eqb_neq x 0)) by lia.
    run (ldb_run _ _ _ H3). rewrite (proj2 (Z.eqb_neq y 0)) by lia. cbn [negb andb]. destruct (Z.eqb_spec x y) as [->|Hne].
    + rewrite (IH n m (p + 1) (q + 1) a) by (done || lia). do 2 f_equal. apply bool_decide_ext.
      split; [apply prefix_cons|apply prefix_cons_inv_2].
    + rewrite bool_decide_false; [done|]. intros Hk. apply prefix_cons_inv_1 in Hk. congruence.
Qed.
Lemma strstr_loop_run fuel a : forall n m p q b, cstr m p a -> cstr m q b -> b <> [] -> (length a < n)%nat -> (length b < fuel)%nat ->
  exists r, strstr_loop fuel n p q ~{ m }~> r; m /\ first_match (fun i => b `prefix_of` drop i a) (S (length a)) p r.
Proof.
  induction a as [|x a IH]; intros [|n] m p q b [Ha Hca] Hb Hne Hn Hf; try (cbn in Hn; lia); pose proof Ha as Ha'; cbn [app length] in *;
    apply holds_cons in Ha as [H1 H2]; cbn [strstr_loop].
  - exists NULL. split; [by run (ldb_run _ _ _ H1)|]. right. split; [done|]. intros j _ Hk. rewrite drop_nil in Hk.
    apply prefix_nil_inv in Hk. done.
  - pose proof Hca as Hca'. apply Forall_cons in Hca as [Hx Hca]. pose proof (match_here_run b fuel m p q (x :: a) (conj Ha' Hca') Hb Hf) as Hmh.
    case_bool_decide as Hpre.
    + exists p. split; [|by apply first_match_0]. run (ldb_run _ _ _ H1). rewrite (proj2 (Z.eqb_neq x 0)) by lia. by run Hmh.
    + destruct (IH n m (p + 1) q b (conj H2 Hca) Hb Hne ltac:(lia) Hf) as (r & Hr & Hm). exists r. split.
      * run (ldb_run _ _ _ H1). rewrite (proj2 (Z.eqb_neq x 0)) by lia. by run Hmh.
      * apply first_match_S; [done|exact Hm].
Qed.

(** *** Character sets

    [map_ok map X]: the bits of [map] are those of the ASCII characters in [X]. *)
Definition map_ok (map : list Z) (X : gset Z) : Prop := length map = 32%nat /\
  forall c, 0 <= c < 128 -> exists b, zlookup map (c / 8) = Some b /\ is_u8 b /\ forall k, 0 <= k < 8 ->
    Z.testbit b k = bool_decide (c / 8 * 8 + k ∈ X).
Definition ascii (l : list Z) : Prop := Forall (fun b => 0 < b < 128) l.

Lemma ascii_chars l : ascii l -> chars l.
Proof. intros H. eapply Forall_impl; [exact H|]. cbn. lia. Qed.
Lemma s8_ascii c : 0 <= c < 128 -> s8 c = c.
Proof. wraplia. Qed.
Lemma map_index c : 0 <= c < 128 -> Z.shiftr (s8 c) 3 = c / 8 /\ map_bit c = u32 (Z.shiftl 1 (c mod 8)).
Proof.
  intros Hc. unfold map_bit. rewrite s8_ascii by done. rewrite Z.shiftr_div_pow2 by lia. split; [done|].
  change 7 with (Z.ones 3). rewrite Z.land_ones by lia. change (2 ^ 3) with 8. rewrite u32_small; [done|].
  rewrite Z.shiftl_1_l. pose proof (Z.mod_pos_bound c 8 ltac:(lia)). split; [lia|].
  apply (Z.le_lt_trans _ (2 ^ 7)); [apply Z.pow_le_mono_r; lia|lia].
Qed.
Lemma empty_map_ok : map_ok empty_map ∅.
Proof.
  split; [done|]. intros c Hc. exists 0. split.
  - unfold zlookup, empty_map. destruct (Z.leb_spec 0 (c / 8)); [|dlia]. apply lookup_replicate_2. dlia.
  - split; [unfold is_u8; lia|]. intros k _. rewrite Z.bits_0, bool_decide_false; set_solver.
Qed.
Lemma map_test_run m map X c : map_ok map X -> 0 <= c < 128 -> map_test map c ~{ m }~> bool_decide (c ∈ X); m.
Proof.
  intros [_ HX] Hc. destruct (HX c Hc) as (b & Hb & _ & Hbit). destruct (map_index c Hc) as [H1 H2].
  unfold map_test, map_byte. rewrite H1, Hb. run (eq_refl (Ok (b, m))). unfold mret, M_ret. rewrite H2. do 2 f_equal.
  pose proof (Z.mod_pos_bound c 8 ltac:(lia)). change (word_test b (c mod 8) = bool_decide (c ∈ X)).
  rewrite word_test_testbit by lia. rewrite Hbit by lia. by replace (c / 8 * 8 + c mod 8) with c by dlia.
Qed.
Lemma map_set_run m map X c : map_ok map X -> 0 <= c < 128 ->
  exists map', map_set map c ~{ m }~> map'; m /\ map_ok map' ({[c]} ∪ X).
Proof.
  intros [Hl HX] Hc. destruct (HX c Hc) as (b & Hb & Hu & Hbit). destruct (map_index c Hc) as [H1 H2].
  exists (zinsert map (c / 8) (u8 (Z.lor b (map_bit c)))). split; [unfold map_set, map_byte; rewrite H1, Hb; done|].
  pose proof (Z.mod_pos_bound c 8 ltac:(lia)) as Hm. split; [by rewrite zinsert_length|]. intros d Hd.
  destruct (decide (d / 8 = c / 8)) as [E|Hne].
  - exists (u8 (Z.lor b (map_bit c))). rewrite E. split; [apply zlookup_zinsert_eq; rewrite Hl; dlia|]. split; [wraplia|].
    intros k Hk. unfold u8. change 256 with (2 ^ 8). rewrite Z.mod_pow2_bits_low by lia. rewrite Z.lor_spec, H2, mask_testbit, Hbit by lia.
    apply eq_bool_prop_intro. rewrite orb_True, !bool_decide_spec. rewrite elem_of_union, elem_of_singleton. 
    assert (k = c mod 8 <-> c / 8 * 8 + k = c) as -> by dlia. tauto.
  - destruct (HX d Hd) as (b' & Hb' & Hu' & Hbit'). exists b'. rewrite zlookup_zinsert_ne by done. split; [done|]. split; [done|].
    intros k Hk. rewrite Hbit' by done. apply bool_decide_ext. rewrite elem_of_union, elem_of_singleton.
    assert (d / 8 * 8 + k <> c) by dlia. tauto.
Qed.
Lemma build_map0_run d : forall n m q map X, cstr m q d -> ascii d -> map_ok map X -> (length d < n)%nat ->
  exists map', build_map0 n q map ~{ m }~> map'; m /\ map_ok map' (list_to_set (d ++ [0]) ∪ X).
Proof.
  induction d as [|c d IH]; intros [|n] m q map X [Hh _] Ha Hm Hn; try (cbn in Hn; lia); cbn [app length] in *; apply holds_cons in Hh as [H1 H2];
    cbn [build_map0]; run (ldb_run _ _ _ H1).
  - destruct (map_set_run m map X 0 Hm ltac:(lia)) as (map' & Hr & Hok). run Hr. exists map'. split; [done|].
    cbn [list_to_set app]. by rewrite (right_id_L ∅ (∪)).
  - apply Forall_cons in Ha as [Hc Ha]. destruct (map_set_run m map X c Hm ltac:(lia)) as (map1 & Hr & Hok). run Hr.
    rewrite (proj2 (Z.eqb_neq c 0)) by lia.
    destruct (IH n m (q + 1) map1 _ (conj H2 (ascii_chars _ Ha)) Ha Hok ltac:(lia)) as (map' & Hr' & Hok'). exists map'. split; [done|].
    cbn [app list_to_set]. replace ({[c]} ∪ list_to_set (d ++ [0]) ∪ X) with (list_to_set (d ++ [0]) ∪ ({[c]} ∪ X)) by set_solver. done.
Qed.

(** *** Tokens

    The words of [s]: its longest pieces without a character of [D]. *)
Section Words.
Context (D : gset Z).
Fixpoint words_from (word s : list Z) : list (list Z) :=
  match s with
  | [] => if decide (word = []) then [] else [word]
  | c :: s => if decide (c ∈ D) then (if decide (word = []) then words_from [] s else word :: words_from [] s)
              else words_from (word ++ [c]) s
  end.
Definition words (s : list Z) : list (list Z) := words_from [] s.

Lemma words_skip skip s : Forall (.∈ D) skip -> words (skip ++ s) = words s.
Proof. induction 1 as [|c skip Hc _ IH]; [done|]. unfold words in *. cbn. by rewrite decide_True by done. Qed.
Lemma words_from_app word s rest : Forall (.∉ D) s -> words_from word (s ++ rest) = words_from (word ++ s) rest.
Proof.
  intros Hs. revert word. induction Hs as [|c s Hc _ IH]; intros word; [by rewrite app_nil_r|].
  cbn. rewrite decide_False by done. by rewrite IH, <- app_assoc.
Qed.
Lemma words_word tok : tok <> [] -> Forall (.∉ D) tok -> words tok = [tok].
Proof. intros Hne Ht. unfold words. rewrite <- (app_nil_r tok) at 1. rewrite words_from_app by done. cbn. by rewrite decide_False. Qed.
Lemma words_next tok c rest : tok <> [] -> Forall (.∉ D) tok -> c ∈ D -> words (tok ++ c :: rest) = tok :: words rest.
Proof. intros Hne Ht Hc. unfold words. rewrite words_from_app by done. cbn. by rewrite decide_True, decide_False. Qed.

Context (map : list Z) (Hmap : map_ok map (D ∪ {[0]})).
Lemma in_map m c : 0 < c < 128 -> map_test map c ~{ m }~> bool_decide (c ∈ D); m.
Proof.
  intros Hc. rewrite (map_test_run m map _ c Hmap) by lia. do 2 f_equal. apply bool_decide_ext.
  rewrite elem_of_union, elem_of_singleton. split; [intros [|]; [done|lia]|by left].
Qed.
Lemma in_map_0 m : map_test map 0 ~{ m }~> true; m.
Proof. rewrite (map_test_run m map _ 0 Hmap) by lia. rewrite bool_decide_true by set_solver. done. Qed.

Lemma skip_delims_run s : forall n m p, cstr m p s -> ascii s -> (length s < n)%nat ->
  exists skip s', s = skip ++ s' /\ Forall (.∈ D) skip /\ (forall c l, s' = c :: l -> c ∉ D) /\
    skip_delims n p map ~{ m }~> p + len skip; m.
Proof.
  induction s as [|c s IH]; intros [|n] m p [Hh _] Ha Hn; try (cbn in Hn; lia); cbn [app length] in *; apply holds_cons in Hh as [H1 H2];
    cbn [skip_delims].
  - exists [], []. split_and!; [done|done|done|]. run (ldb_run _ _ _ H1). run (in_map_0 m). cbn. by rewrite Z.add_0_r.
  - apply Forall_cons in Ha as [Hc Ha]. destruct (decide (c ∈ D)) as [Hd|Hd].
    + destruct (IH n m (p + 1) (conj H2 (ascii_chars _ Ha)) Ha ltac:(lia)) as (skip & s' & -> & Hs & Hs' & Hr).
      exists (c :: skip), s'. split_and!; [done|by constructor|done|]. run (ldb_run _ _ _ H1). run (in_map m c Hc).
      rewrite bool_decide_true by done. rewrite (proj2 (Z.eqb_neq c 0)) by lia. cbn [andb negb]. rewrite Hr. do 2 f_equal. cbn [length]. lia.
    + exists [], (c :: s). split_and!; [done|done|by intros ? ? [= <- _]|]. run (ldb_run _ _ _ H1). run (in_map m c Hc).
      rewrite bool_decide_false by done. cbn. by rewrite Z.add_0_r.
Qed.
Lemma end_of_token_run s : forall n m p, cstr m p s -> ascii s -> (length s < n)%nat ->
  exists tok rest, Forall (.∉ D) tok /\
    ((s = tok /\ rest = [] /\ end_of_token n p map ~{ m }~> p + len tok; m) \/
     exists c, s = tok ++ c :: rest /\ c ∈ D /\ end_of_token n p map ~{ m }~> p + len tok + 1; <[p + len tok := 0]> m).
Proof.
  induction s as [|c s IH]; intros [|n] m p [Hh _] Ha Hn; try (cbn in Hn; lia); cbn [app length] in *; apply holds_cons in Hh as [H1 H2];
    cbn [end_of_token].
  - exists [], []. split; [done|]. left. split_and!; [done|done|]. run (ldb_run _ _ _ H1). cbn. by rewrite Z.add_0_r.
  - apply Forall_cons in Ha as [Hc Ha]. destruct (decide (c ∈ D)) as [Hd|Hd].
    + exists [], s. split; [done|]. right. exists c. split_and!; [done|done|]. run (ldb_run _ _ _ H1).
      rewrite (proj2 (Z.eqb_neq c 0)) by lia. run (in_map m c Hc). rewrite bool_decide_true by done.
      run (stb_run m p 0 ltac:(by eexists)). cbn. by rewrite Z.add_0_r.
    + assert (Hstep : end_of_token (S n) p map m = end_of_token n (p + 1) map m).
      { cbn [end_of_token]. run (ldb_run _ _ _ H1). rewrite (proj2 (Z.eqb_neq c 0)) by lia. run (in_map m c Hc). by rewrite bool_decide_false. }
      cbn [end_of_token] in Hstep. rewrite Hstep. cbn [length].
      destruct (IH n m (p + 1) (conj H2 (ascii_chars _ Ha)) Ha ltac:(lia)) as (tok & rest & Ht & Hcase).
      exists (c :: tok), rest. split; [by constructor|]. cbn [length]. replace (p + Z.of_nat (S (length tok))) with (p + 1 + len tok) by lia.
      destruct Hcase as [(-> & -> & Hr)|(d & -> & Hd' & Hr)]; [by left|right; by exists d].
Qed.
End Words.

(** What one call of [strtok_r] leaves: the token it returns and the string at which
    the next call starts. *)
Record token_cut (D : gset Z) (m m' : mem) (p : Z) (s : list Z) (ptr next : Z) (tok rest : list Z) : Prop := {
  tk_words : words D s = tok :: words D rest;
  tk_token : cstr m' ptr tok;
  tk_rest : cstr m' next rest;
  tk_ascii : ascii rest;
  tk_same : same_outside m m' p (len s);
  tk_order : p <= ptr /\ p <= next /\ next + len rest <= p + len s /\ (length rest < length s)%nat;
  tk_apart : ptr + len tok + 1 <= next \/ rest = []
}.
Lemma strtok_r_run fuel m p q s d str save : cstr m p s -> ascii s -> cstr m q d -> ascii d -> 0 < p ->
  (length s < fuel)%nat -> (length d < fuel)%nat -> (if negb (str =? NULL) then str else save) = p ->
  let D := list_to_set d in
  (words D s = [] /\ exists next, strtok_r fuel str q save ~{ m }~> (NULL, next); m) \/
  exists ptr next tok rest m', strtok_r fuel str q save ~{ m }~> (ptr, next); m' /\ token_cut D m m' p s ptr next tok rest.
Proof.
  intros Hs Ha Hd Had Hp Hfs Hfd Hstr D. destruct (build_map0_run d fuel m q empty_map ∅ Hd Had empty_map_ok Hfd) as (map & Hm & Hmap).
  replace (list_to_set (d ++ [0]) ∪ ∅ : gset Z) with (D ∪ {[0]}) in Hmap by (unfold D; rewrite list_to_set_app_L; cbn; set_solver).
  destruct (skip_delims_run D map Hmap s fuel m p Hs Ha Hfs) as (skip & s' & -> & Hskip & Hhead & Hr1).
  apply Forall_app in Ha as [_ Ha']. destruct Hs as [Hh Hc]. apply Forall_app in Hc as [_ Hc']. rewrite <- app_assoc in Hh.
  apply holds_app in Hh as [_ Hh']. rewrite length_app in Hfs.
  destruct (end_of_token_run D map Hmap s' fuel m (p + len skip) (conj Hh' Hc') Ha' ltac:(lia)) as (tok & rest & Htok & Hcase).
  unfold strtok_r. rewrite Hstr. run Hm. run Hr1. rewrite words_skip by done.
  destruct Hcase as [(-> & -> & Hr)|(c & -> & Hcd & Hr)]; run Hr.
  - destruct (decide (tok = [])) as [->|Hne].
    + left. split; [done|]. exists (p + len skip). change (Z.of_nat (@length Z [])) with 0. rewrite Z.add_0_r, Z.eqb_refl. done.
    + right. eexists _, _, tok, [], m. assert (0 < len tok) by (destruct tok; [done|cbn; lia]).
      rewrite (proj2 (Z.eqb_neq _ _)) by lia. split; [reflexivity|]. apply holds_app in Hh' as [Hh1 Hh2].
      split; [rewrite words_skip, words_word by done; done|split; [by apply holds_app|done]|split; [done|constructor]|constructor|apply same_refl| |by right].
      rewrite length_app. cbn [length]. lia.
  - assert (Hne : tok <> []) by (intros ->; by apply (Hhead c rest)). right. eexists _, _, tok, rest, _.
    rewrite (proj2 (Z.eqb_neq _ _)) by lia. split; [reflexivity|]. rewrite <- app_assoc in Hh'. apply holds_app in Hh' as [H1 H2].
    cbn [app] in H2. apply holds_cons in H2 as [H2 H3]. apply Forall_app in Ha' as [_ Ha']. apply Forall_cons in Ha' as [_ Har].
    apply Forall_app in Hc' as [Hct Hcr]. apply Forall_cons in Hcr as [_ Hcr].
    split; [rewrite words_skip, words_next by done; done| | |done| | |left; lia]; rewrite ?length_app; cbn [length].
    + split; [|done]. apply holds_app. split; [apply holds_insert; [lia|done]|]. apply holds_cons. split; [apply lookup_insert_eq|apply holds_nil].
    + split; [|done]. apply holds_insert; [lia|done].
    + intros a Hna. rewrite lookup_insert_ne; [done|lia].
    + lia.
Qed.

(** The tokens of a string: [strtok_r] with the string, and then with [NULL] until it
    returns [NULL]. *)
Fixpoint tokenize (fuel k : nat) (str delim saveptr : Z) : M mem (list Z) :=
  match k with
  | O => fail FLoop
  | S k => r ← strtok_r fuel str delim saveptr;
           if r.1 =? NULL then mret [] else rest ← tokenize fuel k NULL delim r.2; mret (r.1 :: rest)
  end.
Lemma tokenize_run fuel q d : (length d < fuel)%nat -> ascii d -> forall k m p s str save,
  cstr m p s -> ascii s -> cstr m q d -> apart p (len s) q (len d + 1) -> 0 < p ->
  (length s < fuel)%nat -> (length s < k)%nat -> (if negb (str =? NULL) then str else save) = p ->
  exists ptrs m', tokenize fuel k str q save ~{ m }~> ptrs; m' /\ Forall2 (cstr m') ptrs (words (list_to_set d) s) /\
    same_outside m m' p (len s).
Proof.
  intros Hfd Had. induction k as [|k IH]; intros m p s str save Hs Ha Hd Hap Hp Hfs Hk Hstr; [lia|]. cbn [tokenize].
  destruct (strtok_r_run fuel m p q s d str save Hs Ha Hd Had Hp Hfs Hfd Hstr)
    as [(Hw & next & Hr)|(ptr & next & tok & rest & m1 & Hr & [K1 K2 K3 K4 K5 K6 K7])]; run Hr; cbn [fst snd].
  - exists [], m. split; [done|]. rewrite Hw. split; [constructor|apply same_refl].
  - rewrite (proj2 (Z.eqb_neq ptr NULL)) by (unfold NULL; lia). unfold apart in Hap.
    assert (Hd1 : cstr m1 q d).
    { split; [|by apply ascii_chars]. eapply holds_same; [exact K5| |apply Hd]. unfold apart. rewrite length_app. cbn [length]. lia. }
    destruct (IH m1 next rest NULL next) as (ptrs & m2 & Hr2 & Hf & Hsame); [done|done|done|unfold apart; lia|lia|lia|lia|done|].
    exists (ptr :: ptrs), m2. split; [run Hr2; done|]. rewrite K1. split.
    + constructor; [|done]. split; [|apply K2]. destruct K7 as [K7| ->].
      * eapply holds_same; [exact Hsame|unfold apart; rewrite length_app; cbn [length]; lia|apply K2].
      * intros i b Hi. rewrite Hsame by (cbn; lia). by apply K2.
    + intros a Hna. rewrite Hsame by lia. apply K5. lia.
Qed.

(** *** Numbers

    [c] is a digit in base [b]; the value of a list of digits; [LONG_MAX], or the
    absolute value of [LONG_MIN]. *)
Definition digit_in (b c : Z) : bool := match digit_of c with Some d => d <? b | None => false end.
Definition number_of (b v : Z) (cs : list Z) : Z := foldl (fun v c => v * b + default 0 (digit_of c)) v cs.
Definition long_limit (neg : bool) : Z := if neg then 2147483648 else 2147483647.
Definition signed (neg : bool) (v : Z) : Z := if neg then - v else v.

Lemma digit_in_inv b c : digit_in b c = true -> exists d, digit_of c = Some d /\ 0 <= d < b /\ 48 <= c < 123.
Proof.
  unfold digit_in, digit_of, isdigit, isalpha, isupper. intros H.
  destruct (Z.leb_spec 48 c), (Z.leb_spec c 57); cbn [andb] in H |- *; [eexists; split; [reflexivity|lia]|..];
    destruct (Z.leb_spec 65 c), (Z.leb_spec c 90), (Z.leb_spec 97 c), (Z.leb_spec c 122); cbn [andb orb] in H |- *;
    try discriminate; try lia; (eexists; split; [reflexivity|lia]).
Qed.
Lemma number_of_mono b cs : forall v, 1 <= b -> 0 <= v -> Forall (fun c => digit_in b c = true) cs -> v <= number_of b v cs.
Proof.
  induction cs as [|c cs IH]; intros v Hb Hv Hcs; [done|]. apply Forall_cons in Hcs as [Hc Hcs].
  destruct (digit_in_inv b c Hc) as (d & Hd & Hr & _). cbn. rewrite Hd. cbn. specialize (IH (v * b + d) Hb ltac:(nia) Hcs). unfold number_of in IH. nia.
Qed.

(** What the loop has computed after digits of value [v]; [any] is what it was
    before them if there were none. *)
Definition strtol_state (neg : bool) (v any : Z) : Z * Z * bool :=
  (signed neg (Z.min v (long_limit neg)), if long_limit neg <? v then -1 else any, long_limit neg <? v).

Section Strtol.
Context (m : mem) (b : Z) (neg : bool) (cutoff cutlim : Z) (Hb : 2 <= b).
Context (Hcut : long_limit neg = signed neg cutoff * b + cutlim) (Hlim : 0 <= cutlim < b).

(** One more digit. *)
Lemma strtol_step v any d : 0 <= v -> 0 <= d < b ->
  (let '(acc, any, range) := strtol_state neg v any in
   if any <? 0 then (acc, any, range)
   else if neg then
     if (acc <? cutoff) || ((acc =? cutoff) && (cutlim <? d)) then (-2147483648, -1, true) else (acc * b - d, 1, range)
   else if (cutoff <? acc) || ((acc =? cutoff) && (cutlim <? d)) then (2147483647, -1, true) else (acc * b + d, 1, range)) =
  strtol_state neg (v * b + d) 1 \/ any < 0.
Proof.
  intros Hv Hd. destruct (Z.ltb_spec any 0); [by right|left]. unfold strtol_state.
  destruct (Z.ltb_spec (long_limit neg) v) as [Hov|Hov].
  - rewrite (proj2 (Z.ltb_lt (long_limit neg) (v * b + d))) by nia. cbn [Z.ltb]. rewrite !Z.min_r by nia. done.
  - rewrite (proj2 (Z.ltb_ge any 0)) by lia. rewrite (Z.min_l v) by lia.
    assert (Hov' : (signed neg cutoff <? v) || ((v =? signed neg cutoff) && (cutlim <? d)) = (long_limit neg <? v * b + d)).
    { apply eq_bool_prop_intro. rewrite orb_True, andb_True, !Is_true_true, !Z.ltb_lt, Z.eqb_eq. nia. }
    destruct neg; cbn [signed long_limit] in *.
    + replace (- v <? cutoff) with (- cutoff <? v) by (apply eq_bool_prop_intro; rewrite !Is_true_true, !Z.ltb_lt; lia).
      replace (- v =? cutoff) with (v =? - cutoff) by (apply eq_bool_prop_intro; rewrite !Is_true_true, !Z.eqb_eq; lia).
      rewrite Hov'. destruct (Z.ltb_spec 2147483648 (v * b + d)); [by rewrite Z.min_r by lia|]. rewrite Z.min_l by lia. do 2 f_equal. lia.
    + rewrite Hov'. destruct (Z.ltb_spec 2147483647 (v * b + d)); [by rewrite Z.min_r by lia|]. by rewrite Z.min_l by lia.
Qed.
Lemma strtol_loop_run cs : forall n c l s v any e, cs ++ [e] = c :: l -> holds m s l ->
  Forall (fun c => digit_in b c = true) cs -> digit_in b e = false -> (length cs < n)%nat -> 0 <= v -> 0 <= any ->
  let '(acc, an, rg) := strtol_state neg v any in
  exists any', (cs = [] -> any' = any) /\ (cs <> [] -> any' = 1) /\
  strtol_loop n b cutoff cutlim neg c s acc an rg ~{ m }~>
    (let '(acc', an', rg') := strtol_state neg (number_of b v cs) any' in (acc', an', s + len cs, rg')); m.
Proof.
  induction cs as [|x cs IH]; intros [|n] c l s v any e Hl Hh Hcs He Hn Hv Hany; try (cbn in Hn; lia); cbn [app] in Hl; injection Hl as -> <-;
    unfold strtol_state at 1; cbn [strtol_loop length].
  - exists any. split; [done|]. split; [done|]. unfold digit_in in He. change (Z.of_nat 0) with 0. rewrite Z.add_0_r.
    destruct (digit_of c) as [d|]; [|done]. apply Z.ltb_ge in He. by rewrite (proj2 (Z.leb_le b d) He).
  - apply Forall_cons in Hcs as [Hx Hcs]. destruct (digit_in_inv b c Hx) as (d & Hd & Hr & _). exists 1. split; [done|]. split; [done|].
    rewrite Hd. rewrite (proj2 (Z.leb_gt b d)) by lia.
    destruct (cs ++ [e]) as [|c2 l2] eqn:El; [by destruct cs|]. apply holds_cons in Hh as [H1 H2].
    destruct (strtol_step v any d Hv Hr) as [Hstep|]; [|lia]. unfold strtol_state at 1 in Hstep. cbv beta iota in Hstep. rewrite Hstep.
    specialize (IH n c2 l2 (s + 1) (v * b + d) 1 e El H2 Hcs He ltac:(cbn in Hn; lia) ltac:(nia) ltac:(lia)).
    unfold strtol_state at 1. unfold strtol_state at 1 in IH. cbv beta iota in IH. destruct IH as (any' & I1 & I2 & IH). run (ldb_run _ _ _ H1). rewrite IH.
    cbn [number_of foldl]. rewrite Hd. cbn [default from_option id]. fold (number_of b (v * b + d) cs). assert (any' = 1) as ->.
    { destruct cs; [by apply I1|by apply I2]. }
    unfold strtol_state. cbv beta iota. do 2 f_equal. f_equal. f_equal. lia.
Qed.
End Strtol.

Lemma strtol_skip_run k : forall n m p c l, holds m p (replicate k 32 ++ c :: l) -> c <> 32 -> (k < n)%nat ->
  strtol_skip n p ~{ m }~> (c, p + Z.of_nat k + 1); m.
Proof.
  induction k as [|k IH]; intros [|n] m p c l Hh Hc Hn; try lia; cbn [replicate app] in Hh; apply holds_cons in Hh as [H1 H2];
    cbn [strtol_skip]; run (ldb_run _ _ _ H1); unfold isspace.
  - rewrite (proj2 (Z.eqb_neq _ _) Hc). unfold mret, M_ret. do 3 f_equal. lia.
  - rewrite Z.eqb_refl. rewrite (IH n m (p + 1) c l H2 Hc) by lia. do 3 f_equal. lia.
Qed.

(** The signs, and the characters before the digits that select base 16. *)
Definition is_sign (sg : list Z) (neg : bool) : Prop := sg = [45] /\ neg = true \/ (sg = [43] \/ sg = []) /\ neg = false.
Definition hex_prefix (l : list Z) : Prop := exists l', l = 48 :: 120 :: l' \/ l = 48 :: 88 :: l'.
(** What base [b] the base argument selects, when [pre] comes before the digits [cs]. *)
Definition selects (base : Z) (pre cs rest : list Z) (b : Z) : Prop :=
  ((base = 0 \/ base = 16) /\ (pre = [48; 120] \/ pre = [48; 88]) /\ b = 16) \/
  (pre = [] /\ ((base = 0 \/ base = 16) -> ~ hex_prefix (cs ++ rest)) /\
   b = if base =? 0 then (if bool_decide (head cs = Some 48) then 8 else 10) else base).

Lemma strtol_sign_run m s sg neg c l : is_sign sg neg -> holds m s (sg ++ c :: l) -> 48 <= c < 128 ->
  exists c0 l0, sg ++ c :: l = c0 :: l0 /\ c0 <> 32 /\ strtol_sign c0 (s + 1) ~{ m }~> (c, s + len sg + 1, neg); m.
Proof.
  unfold strtol_sign. intros [[-> ->]|[[->| ->] ->]] Hh Hc; cbn [app] in *; eexists _, _; (split; [reflexivity|]); apply holds_cons in Hh as [H1 H2].
  - apply holds_cons in H2 as [H2 _]. split; [lia|]. cbn [Z.eqb Pos.eqb]. run (ldb_run _ _ _ H2). rewrite s8_ascii by lia. done.
  - apply holds_cons in H2 as [H2 _]. split; [lia|]. cbn [Z.eqb Pos.eqb]. run (ldb_run _ _ _ H2). rewrite s8_ascii by lia. done.
  - split; [lia|]. rewrite (proj2 (Z.eqb_neq c 45)), (proj2 (Z.eqb_neq c 43)) by lia. unfold mret, M_ret. cbn [length]. do 4 f_equal. lia.
Qed.
Lemma strtol_prefix_run m s base pre c cs rest b : selects base pre (c :: cs) rest b -> holds m s (pre ++ (c :: cs) ++ rest ++ [0]) ->
  48 <= c < 128 -> exists c0 l0, pre ++ (c :: cs) ++ rest ++ [0] = c0 :: l0 /\ 48 <= c0 < 128 /\
    exists base', strtol_prefix base c0 (s + 1) ~{ m }~> (c, s + len pre + 1, base'); m /\
      b = if base' =? 0 then (if c =? 48 then 8 else 10) else base'.
Proof.
  intros [(Hbase & Hpre & ->)|(-> & Hno & ->)] Hh Hc; unfold strtol_prefix.
  - assert (Hb : (base =? 0) || (base =? 16) = true) by (destruct Hbase; subst; done). rewrite Hb.
    destruct Hpre; subst pre; cbn [app] in *; apply holds_cons in Hh as [_ Hh]; apply holds_cons in Hh as [H1 Hh]; apply holds_cons in Hh as [H2 _];
      eexists _, _; (split; [reflexivity|]); (split; [lia|]); exists 16; (split; [|done]); cbn [Z.eqb Pos.eqb andb]; run (ldb_run _ _ _ H1);
      cbn [Z.eqb Pos.eqb orb]; run (ldb_run _ _ _ H2); rewrite s8_ascii by lia; unfold mret, M_ret; cbn [length]; do 4 f_equal; lia.
  - cbn [app] in *. exists c, (cs ++ rest ++ [0]). split; [done|]. split; [done|]. exists base. split.
    + rewrite Z.add_0_r. destruct ((base =? 0) || (base =? 16)) eqn:Eb; [|done]. cbn [andb]. destruct (Z.eqb_spec c 48) as [->|]; [|done].
      apply holds_cons in Hh as [_ Hh]. destruct (cs ++ rest ++ [0]) as [|x l] eqn:El; [by destruct cs, rest|].
      apply holds_cons in Hh as [H1 _]. run (ldb_run _ _ _ H1). assert (Hx : (x =? 120) || (x =? 88) = false); [|by rewrite Hx].
      rewrite orb_true_iff, !Z.eqb_eq in Eb. specialize (Hno Eb). apply orb_false_iff. rewrite !Z.eqb_neq.
      rewrite app_assoc in El. destruct (cs ++ rest) as [|x' l'] eqn:El'; cbn [app] in El; [injection El as <- _; lia|].
      injection El as -> _. split; intros ->; apply Hno; exists l'; auto.
    + destruct (Z.eqb_spec c 48) as [->|Hne]; [by rewrite bool_decide_true|]. rewrite bool_decide_false; [done|]. cbn. congruence.
Qed.
Lemma strtol_limits_ok neg b : 2 <= b -> let '(cutoff, cutlim) := strtol_limits neg b in
  long_limit neg = signed neg cutoff * b + cutlim /\ 0 <= cutlim < b.
Proof.
  intros Hb. unfold strtol_limits. destruct neg; cbn [long_limit signed].
  - pose proof (Z.quot_rem' (-2147483648) b). pose proof (Z.rem_bound_pos_pos 2147483648 b ltac:(lia) ltac:(lia)).
    pose proof (Z.rem_opp_l 2147483648 b ltac:(lia)) as Hopp.
    change (Z.opp 2147483648) with (-2147483648) in Hopp.
    rewrite (proj2 (Z.ltb_ge 0 (Z.rem (-2147483648) b))) by lia. lia.
  - pose proof (Z.quot_rem' 2147483647 b). pose proof (Z.rem_bound_pos_pos 2147483647 b ltac:(lia) ltac:(lia)). lia.
Qed.

(** *** Paths *)
Abbreviation slash := 47.
Lemma strrchr_run fuel m p s ch : cstr m p s -> (length s < fuel)%nat ->
  exists r, strrchr fuel p ch ~{ m }~> r; m /\ last_match (char_at (s ++ [0]) (u8 ch)) (S (length s)) p r.
Proof.
  intros Hs Hf. destruct (strrchr_loop_run (length s) fuel m p ch (s ++ [0]) (proj1 Hs)) as (r & Hr & Hl);
    [rewrite length_app; cbn; lia|done|rewrite length_app; cbn; lia|].
  exists r. split; [unfold strrchr; by run (find_end_run s fuel m p Hs Hf)|].
  by replace (S (length s)) with (length (s ++ [0])) by (rewrite length_app; cbn; lia).
Qed.
(** The last slash of a path. *)
Lemma last_slash_run fuel m p d b : cstr m p (d ++ slash :: b) -> slash ∉ b -> (length (d ++ slash :: b) < fuel)%nat ->
  strrchr fuel p slash ~{ m }~> p + len d; m.
Proof.
  intros Hs Hb Hf. destruct (strrchr_run fuel m p _ slash Hs Hf) as (r & Hr & Hm). rewrite Hr. do 2 f_equal.
  change (u8 slash) with slash in Hm. assert (Hd : char_at ((d ++ slash :: b) ++ [0]) slash (length d)).
  { unfold char_at. rewrite <- app_assoc. cbn [app]. by rewrite list_lookup_middle. }
  rewrite length_app in *. cbn [length] in *. destruct Hm as [(i & Hi & Hci & Hlast & ->)|[_ Hno]]; [|destruct (Hno (length d)); [lia|done]].
  destruct (Nat.lt_trichotomy i (length d)) as [Hlt|[->|Hgt]]; [|done|].
  - exfalso. apply (Hlast (length d)); [lia|done].
  - exfalso. unfold char_at in Hci. rewrite <- app_assoc, lookup_app_r in Hci by lia.
    destruct (i - length d)%nat as [|j] eqn:Ej; [lia|]. cbn in Hci. apply list_elem_of_lookup_2 in Hci.
    apply elem_of_app in Hci as [Hci|Hci]; [done|]. apply list_elem_of_singleton in Hci. discriminate.
Qed.
Lemma no_slash_run fuel m p s : cstr m p s -> slash ∉ s -> (length s < fuel)%nat -> strrchr fuel p slash ~{ m }~> NULL; m.
Proof.
  intros Hs Hn Hf. destruct (strrchr_run fuel m p s slash Hs Hf) as (r & Hr & Hm). rewrite Hr. do 2 f_equal.
  destruct Hm as [(i & _ & Hi & _)|[-> _]]; [|done]. exfalso. change (u8 slash) with slash in Hi. unfold char_at in Hi.
  apply list_elem_of_lookup_2, elem_of_app in Hi as [Hi|Hi]; [done|]. apply list_elem_of_singleton in Hi. discriminate.
Qed.
(** Cutting a string. *)
Lemma cut_string m p a c b : cstr m p (a ++ c :: b) -> cstr (<[p + len a := 0]> m) p a.
Proof.
  intros [Hh Hc]. rewrite <- app_assoc in Hh. apply holds_app in Hh as [Hh _]. apply Forall_app in Hc as [Hc _]. split; [|done].
  apply holds_app. split; [apply holds_insert; [lia|done]|]. apply holds_cons. split; [apply lookup_insert_eq|apply holds_nil].
Qed.

(** [dirname] after the copy. *)
Lemma dirname_cut_run fuel m s dot d b : cstr m s (d ++ slash :: b) -> slash ∉ b -> b <> [] -> 0 < s -> (length (d ++ slash :: b) < fuel)%nat ->
  exists m', (last_slash ← strrchr fuel s slash;
    last_slash ← (if last_slash =? s then mret (last_slash + 1)
                  else if negb (last_slash =? NULL) then
                    c ← ldb (last_slash + 1); if c =? 0 then memchr s slash (last_slash - s) else mret last_slash
                  else mret last_slash);
    if negb (last_slash =? NULL) then stb last_slash 0 ;; mret s else mret dot) ~{ m }~> s; m' /\
  cstr m' s (if decide (d = []) then [slash] else d) /\ same_outside m m' s (len (d ++ slash :: b) + 1).
Proof.
  intros Hs Hb Hne Hs0 Hf. rewrite length_app. cbn [length]. run (last_slash_run fuel m s d b Hs Hb Hf).
  destruct b as [|c b]; [done|]. pose proof (proj1 Hs) as Hh. pose proof (proj2 Hs) as Hc. rewrite <- app_assoc in Hh. cbn [app] in Hh.
  apply holds_app in Hh as [_ Hh]. apply holds_cons in Hh as [H1 Hh]. apply holds_cons in Hh as [H2 _].
  apply Forall_app in Hc as [_ Hc]. apply Forall_cons in Hc as [_ Hc]. apply Forall_cons in Hc as [Hc _].
  destruct (decide (d = [])) as [->|Hd].
  - cbn [app length] in *. change (Z.of_nat 0) with 0 in *. rewrite Z.add_0_r in *. rewrite Z.eqb_refl, bind_ret_l.
    rewrite (proj2 (Z.eqb_neq (s + 1) NULL)) by (unfold NULL; lia). cbn [negb]. run (stb_run m (s + 1) 0 ltac:(by eexists)).
    eexists. split; [reflexivity|]. split; [apply (cut_string m s [slash] c b Hs)|]. intros a Ha. rewrite lookup_insert_ne; [done|lia].
  - assert (0 < len d) by (destruct d; [done|cbn; lia]).
    rewrite (proj2 (Z.eqb_neq (s + len d) s)), (proj2 (Z.eqb_neq (s + len d) NULL)) by (unfold NULL; lia). cbn [negb]. rewrite bind_assoc.
    run (ldb_run _ _ _ H2). rewrite (proj2 (Z.eqb_neq c 0)) by lia. rewrite bind_ret_l. rewrite (proj2 (Z.eqb_neq (s + len d) NULL)) by (unfold NULL; lia).
    cbn [negb]. run (stb_run m (s + len d) 0 ltac:(by eexists)). eexists. split; [reflexivity|].
    split; [apply (cut_string m s d slash (c :: b) Hs)|]. intros a Ha. rewrite lookup_insert_ne; [done|lia].
Qed.

(** ** What the copying functions do *)

(** [memmove] copies the bytes the source had before the call, whatever the
    overlap of the two areas, and changes nothing else; so does [memcpy] when the
    destination does not begin inside the source. *)
Theorem memmove_correct m dst src l : bytes l -> holds m src l -> room m dst (len l) ->
  (exists m', memmove dst src (len l) ~{ m }~> dst; m' /\ holds m' dst l /\ same_outside m m' dst (len l)) /\
  (dst <= src \/ src + len l <= dst -> memcpy dst src (len l) m = memmove dst src (len l) m).
Proof.
  intros Hb Hs Hd. split.
  - exists (fill dst l m). split; [by apply memmove_run|]. split; [apply fill_holds|apply fill_same].
  - intros Ha. rewrite memmove_run by done. unfold memcpy. rewrite Nat2Z.id. by run (copy_up_run l m dst src Hb Hs Hd Ha).
Qed.

(** The string functions that build a string leave the concatenation, or the
    prefix that was asked for, in the destination, and change nothing but the
    bytes they are given. [strncpy] pads with zeros and does not terminate a
    prefix. *)
Theorem strings_built fuel m dst src a b n : cstr m src b -> (length a < fuel)%nat -> (length b < fuel)%nat ->
  (room m dst (len b + 1) -> dst <= src \/ src + len b + 1 <= dst ->
    exists m', strcpy fuel dst src ~{ m }~> dst; m' /\ cstr m' dst b /\ same_outside m m' dst (len b + 1)) /\
  (cstr m dst a -> room m dst (len a + len b + 1) -> apart dst (len a + len b + 1) src (len b + 1) ->
    exists m', strcat fuel dst src ~{ m }~> dst; m' /\ cstr m' dst (a ++ b) /\
      same_outside m m' dst (len a + len b + 1)) /\
  (cstr m dst a -> room m dst (len a + Z.of_nat n + 1) -> apart dst (len a + Z.of_nat n + 1) src (len b + 1) ->
    exists m', strncat fuel dst src (Z.of_nat n) ~{ m }~> dst; m' /\ cstr m' dst (a ++ take n b) /\
      same_outside m m' dst (len a + Z.of_nat n + 1)) /\
  (room m dst (Z.of_nat n) -> apart dst (Z.of_nat n) src (len b + 1) ->
    exists m', strncpy dst src (Z.of_nat n) ~{ m }~> dst; m' /\ holds m' dst (take n (b ++ replicate n 0)) /\
      same_outside m m' dst (Z.of_nat n)).
Proof.
  intros Hb Hfa Hfb. pose proof (proj2 Hb) as Hcb. split; [|split; [|split]].
  - intros Hr Ha. eexists. split; [unfold strcpy; by run (copy_string_run b fuel m dst src Hb Hr Ha Hfb)|].
    split; [split; [apply fill_holds|done]|]. eapply same_weaken; [apply fill_same|lia|]. rewrite length_app. cbn. lia.
  - intros Ha Hr Hap. destruct Ha as [Hha Hca]. unfold apart in Hap.
    assert (Hc := copy_string_run b fuel m (dst + len a) src Hb (room_sub m dst (len a + len b + 1) (dst + len a) (len b + 1) Hr ltac:(lia) ltac:(lia)) ltac:(lia) Hfb).
    eexists. split; [unfold strcat; run (find_end_run a fuel m dst (conj Hha Hca) Hfa); by run Hc|].
    split; [|eapply same_weaken; [apply fill_same|lia|rewrite length_app; cbn; lia]].
    by apply built.
  - intros Ha Hr Hap. destruct Ha as [Hha Hca]. unfold apart in Hap.
    assert (Hc := strncat_loop_run b n m (dst + len a) src Hb (room_sub m dst (len a + Z.of_nat n + 1) (dst + len a) (Z.of_nat n + 1) Hr ltac:(lia) ltac:(lia)) ltac:(unfold apart; lia)).
    eexists. split; [unfold strncat; rewrite Nat2Z.id; run (find_end_run a fuel m dst (conj Hha Hca) Hfa); by run Hc|].
    split; [|eapply same_weaken; [apply fill_same|lia|rewrite length_app, length_take; cbn [length]; lia]].
    apply built; [done|done|by apply Forall_take].
  - intros Hr Hap. eexists. split; [by apply strncpy_run|]. split; [apply fill_holds|].
    eapply same_weaken; [apply fill_same|lia|]. rewrite length_take. lia.
Qed.

(** The comparison functions agree with the first different pair of bytes:
    [strcmp] gives the sign of the difference of the two characters, signed, and 0
    exactly for equal strings; [strncmp] and [memcmp] give the difference of the
    bytes, within the length. *)
Theorem comparisons_correct fuel m p q a b n : cstr m p a -> cstr m q b -> (length a < fuel)%nat ->
  strcmp fuel p q ~{ m }~> Z.sgn (diff_by s8 (a ++ [0]) (b ++ [0])); m /\
  (strcmp fuel p q ~{ m }~> 0; m <-> a = b) /\
  strncmp p q (Z.of_nat n) ~{ m }~> diff_by id (take n (a ++ [0])) (take n (b ++ [0])); m /\
  forall l1 l2, holds m p l1 -> holds m q l2 -> length l1 = length l2 ->
    memcmp p q (len l1) ~{ m }~> diff_by id l1 l2; m /\ (memcmp p q (len l1) ~{ m }~> 0; m <-> l1 = l2).
Proof.
  intros Ha Hb Hf. assert (Hstr : strcmp fuel p q ~{ m }~> Z.sgn (diff_by s8 (a ++ [0]) (b ++ [0])); m).
  { unfold strcmp. run (strcmp_loop_run a fuel m p q b Ha Hb Hf). unfold mret, M_ret. do 2 f_equal.
    destruct (Z.ltb_spec (diff_by s8 (a ++ [0]) (b ++ [0])) 0); [lia|]. destruct (Z.ltb_spec 0 (diff_by s8 (a ++ [0]) (b ++ [0]))); lia. }
  split; [done|]. split; [|split].
  - rewrite <- (diff_strings a b) by (apply Ha || apply Hb). rewrite <- (diff_by_zero s8).
    + rewrite Hstr. split; [intros [= E]; lia|intros ->; done].
    + pose proof (cstr_bytes _ _ _ Ha) as Hba. pose proof (cstr_bytes _ _ _ Hb) as Hbb. unfold bytes in *. rewrite Forall_forall in Hba, Hbb.
      intros x y Hx Hy. apply s8_inj; auto.
  - unfold strncmp. destruct n as [|n]; [done|]. rewrite (proj2 (Z.eqb_neq _ _)) by lia.
    replace (Z.to_nat (Z.of_nat (S n) - 1)) with n by lia. by apply strncmp_loop_run.
  - intros l1 l2 H1 H2 Hl. assert (Hm : memcmp p q (len l1) ~{ m }~> diff_by id l1 l2; m); [by apply memcmp_run|].
    split; [done|]. rewrite Hm. rewrite <- (diff_none l1 l2 Hl), <- (diff_by_zero id) by done.
    split; [by intros [= E]|by intros ->].
Qed.

(** The search functions return the first position that fits, the last one for
    [strrchr], or [NULL] when there is none; for the characters of a string the
    terminator counts as one of them. *)
Theorem searches_correct fuel m p q a b ch : cstr m p a -> cstr m q b -> (length a < fuel)%nat -> (length b < fuel)%nat ->
  (exists r, strchr fuel p ch ~{ m }~> r; m /\ first_match (char_at (a ++ [0]) (u8 ch)) (S (length a)) p r) /\
  (exists r, strrchr fuel p ch ~{ m }~> r; m /\ last_match (char_at (a ++ [0]) (u8 ch)) (S (length a)) p r) /\
  (exists r, strstr fuel p q ~{ m }~> r; m /\ first_match (fun i => b `prefix_of` drop i a) (S (length a)) p r) /\
  (forall l, holds m p l ->
    exists r, memchr p ch (len l) ~{ m }~> r; m /\ first_match (char_at l (u8 ch)) (length l) p r).
Proof.
  intros Ha Hb Hfa Hfb. split; [|split; [|split]].
  - by apply strchr_loop_run.
  - by apply strrchr_run.
  - unfold strstr. destruct b as [|y b].
    + exists p. split; [|apply first_match_0, prefix_nil]. by run (ldb_run _ _ _ (proj1 (proj1 (holds_cons _ _ _ _) (proj1 Hb)))).
    + destruct (strstr_loop_run fuel a fuel m p q (y :: b) Ha Hb ltac:(done) Hfa Hfb) as (r & Hr & Hm). exists r. split; [|done].
      run (ldb_run _ _ _ (proj1 (proj1 (holds_cons _ _ _ _) (proj1 Hb)))). pose proof (proj2 Hb) as Hc. apply Forall_cons in Hc as [Hy _].
      by rewrite (proj2 (Z.eqb_neq y 0)) by lia.
  - intros l Hl. unfold memchr. rewrite Nat2Z.id. by apply memchr_run.
Qed.


(** C31: calling [strtok_r] until it returns [NULL] yields pointers to the words of the
    string, in order, each terminated in place, and changes nothing outside the
    string. The bytes of the string and of the delimiters are below 128 (a char
    above is negative here and indexes the map of the delimiters in front of it), the
    string is not at [NULL], the delimiters lie outside the string, and both are
    shorter than the fuel. *)
Theorem strtok_r_correct fuel m p q s d save : cstr m p s -> ascii s -> cstr m q d -> ascii d ->
  apart p (len s) q (len d + 1) -> 0 < p -> (length s < fuel)%nat -> (length d < fuel)%nat ->
  exists ptrs m', tokenize fuel fuel p q save ~{ m }~> ptrs; m' /\ Forall2 (cstr m') ptrs (words (list_to_set d) s) /\
    same_outside m m' p (len s).
Proof.
  intros Hs Ha Hd Had Hap Hp Hfs Hfd. apply tokenize_run; try done. by rewrite (proj2 (Z.eqb_neq p NULL)) by (unfold NULL; lia).
Qed.


(** C40: [strtol] skips blanks, takes a sign and an optional 0x, and converts the
    longest run of digits of the base, saturating at the bounds of a 32-bit long
    and reporting the overflow; the end pointer is after the digits. No
    intermediate value leaves the range. *)
Theorem strtol_correct fuel m p k sg neg pre base b cs rest : cstr m p (replicate k 32 ++ sg ++ pre ++ cs ++ rest) ->
  is_sign sg neg -> selects base pre cs rest b -> 2 <= b <= 36 -> cs <> [] -> Forall (fun c => digit_in b c = true) cs ->
  (forall e l, rest = e :: l -> digit_in b e = false) -> (k < fuel)%nat -> (length cs < fuel)%nat ->
  let v := number_of b 0 cs in
  strtol fuel p base ~{ m }~> (signed neg (Z.min v (long_limit neg)), p + Z.of_nat k + len sg + len pre + len cs, long_limit neg <? v); m.
Proof.
  intros [Hh _] Hsg Hsel Hb Hne Hcs Hrest Hk Hf v. destruct cs as [|c cs']; [done|]. set (cs := c :: cs') in *.
  assert (Hc : 48 <= c < 128) by (apply Forall_cons in Hcs as [Hc _]; destruct (digit_in_inv _ _ Hc) as (_ & _ & _ & ?); lia).
  rewrite <- !app_assoc in Hh. pose proof Hh as Hh0. apply holds_app in Hh as [_ Hh]. rewrite length_replicate in Hh.
  pose proof Hh as Hh1. apply holds_app in Hh as [_ Hh]. pose proof Hh as Hh2. apply holds_app in Hh as [_ Hh3].
  destruct (strtol_prefix_run m _ base pre c cs' rest b Hsel Hh2 Hc) as (c1 & l1 & El1 & Hc1 & base' & Hp & ->).
  fold cs in El1. rewrite El1 in Hh0, Hh1.
  destruct (strtol_sign_run m _ sg neg c1 l1 Hsg Hh1 Hc1) as (c0 & l0 & El0 & Hc0 & Hs). rewrite El0 in Hh0.
  unfold strtol. run (strtol_skip_run k fuel m p c0 l0 Hh0 Hc0 Hk). run Hs. run Hp.
  set (bb := if base' =? 0 then if c =? 48 then 8 else 10 else base') in *.
  rewrite (proj2 (Z.eqb_neq bb 0)) by lia. pose proof (strtol_limits_ok neg bb ltac:(lia)) as Hlim.
  destruct (strtol_limits neg bb) as [cutoff cutlim]. destruct Hlim as [Hcut Hlim].
  destruct (rest ++ [0]) as [|e l] eqn:Er; [by destruct rest|].
  assert (He : digit_in bb e = false) by (destruct rest as [|e' l']; injection Er as <- _; [done|by apply (Hrest e' l')]).
  assert (Hl : holds m (p + Z.of_nat k + len sg + len pre + 1) (cs' ++ [e])).
  { unfold cs in Hh3. cbn [app] in Hh3. apply holds_cons in Hh3 as [_ Hh3]. change (e :: l) with ([e] ++ l) in Hh3. rewrite app_assoc in Hh3.
    by apply holds_app in Hh3 as [Hh3 _]. }
  pose proof (strtol_loop_run m bb neg cutoff cutlim ltac:(lia) Hcut Hlim cs fuel c (cs' ++ [e]) _ 0 0 e eq_refl Hl Hcs He Hf ltac:(lia) ltac:(lia)) as Hloop.
  assert (Hst : strtol_state neg 0 0 = (0, 0, false)) by (destruct neg; reflexivity). rewrite Hst in Hloop. destruct Hloop as (any & _ & Hany & Hloop).
  rewrite (Hany ltac:(done)) in Hloop. fold v in Hloop. unfold strtol_state in Hloop. cbv beta iota in Hloop. run Hloop.
  unfold mret, M_ret. rewrite (proj2 (Z.eqb_neq _ 0)) by (destruct (_ <? v); done). cbn [negb]. do 3 f_equal. f_equal. lia.
Qed.

(** The last component and the directory of a path: [basename] points after the
    last slash, and [dirname] copies the path and cuts it at the last slash,
    keeping a leading one; a path without a slash is its own last component in the
    directory ".". (A path that ends in a slash is not covered; see
    [dirname_trailing_slash].) *)
Theorem paths_correct fuel m s dot p d b path : 0 < s -> 0 < p -> cstr m p path -> slash ∉ b -> (length path < fuel)%nat ->
  room m s (len path + 1) -> s <= p \/ p + len path + 1 <= s ->
  (path = d ++ slash :: b ->
    basename fuel p ~{ m }~> p + len d + 1; m /\
    (b <> [] -> exists m', dirname fuel s dot p ~{ m }~> s; m' /\ cstr m' s (if decide (d = []) then [slash] else d) /\
       same_outside m m' s (len path + 1))) /\
  (path = b -> basename fuel p ~{ m }~> p; m /\
    exists m', dirname fuel s dot p ~{ m }~> dot; m' /\ same_outside m m' s (len path + 1)).
Proof.
  intros Hs0 Hp0 Hp Hb Hf Hr Hap. assert (Hcp := copy_string_run path fuel m s p Hp Hr Hap Hf).
  assert (Hcpy : strcpy fuel s p ~{ m }~> s; fill s (path ++ [0]) m) by (unfold strcpy; by run Hcp).
  assert (H1 : cstr (fill s (path ++ [0]) m) s path) by (split; [apply fill_holds|apply Hp]).
  assert (H1s : same_outside m (fill s (path ++ [0]) m) s (len path + 1)).
  { eapply same_weaken; [apply fill_same|lia|rewrite length_app; cbn; lia]. }
  unfold basename, dirname. rewrite (proj2 (Z.eqb_neq p NULL)) by (unfold NULL; lia). split; intros ->.
  - split.
    + run (last_slash_run fuel m p d b Hp Hb Hf). by rewrite (proj2 (Z.eqb_neq _ _)) by (unfold NULL; lia).
    + intros Hne. run Hcpy. destruct (dirname_cut_run fuel _ s dot d b H1 Hb Hne Hs0 Hf) as (m' & Hrun & Hc & Hsame).
      exists m'. split; [exact Hrun|]. split; [exact Hc|]. eapply same_trans; [exact H1s|exact Hsame].
  - split; [by run (no_slash_run fuel m p b Hp Hb Hf)|]. eexists. split; [|exact H1s]. run Hcpy.
    run (no_slash_run fuel _ s b H1 Hb Hf). rewrite (proj2 (Z.eqb_neq NULL s)) by (unfold NULL; lia). cbn [Z.eqb negb NULL]. done.
Qed.

(** ** Concrete memories *)
Definition text (s : string) : list Z := (fun c => Z.of_N (Ascii.N_of_ascii c)) <$> String.list_ascii_of_string s.
Definition put_text (p : Z) (s : string) (m : mem) : mem := fill p (text s ++ [0]) m.

Fixpoint check_holds (m : mem) (p : Z) (l : list Z) : bool :=
  match l with [] => true | b :: l => bool_decide (m !! p = Some b) && check_holds m (p + 1) l end.
Definition check_cstr (m : mem) (p : Z) (s : list Z) : bool :=
  check_holds m p (s ++ [0]) && forallb (fun b => (0 <? b) && (b <? 256)) s.
Definition check_room (m : mem) (p : Z) (n : nat) : bool := forallb (fun i => bool_decide (is_Some (m !! (p + Z.of_nat i)))) (seq 0 n).

Lemma check_holds_ok m l : forall p, check_holds m p l = true -> holds m p l.
Proof.
  induction l as [|b l IH]; intros p H; [apply holds_nil|]. cbn in H. apply andb_true_iff in H as [H1 H2]. apply holds_cons.
  split; [by apply bool_decide_eq_true in H1|by apply IH].
Qed.
Lemma check_cstr_ok m p s : check_cstr m p s = true -> cstr m p s.
Proof.
  intros [H1 H2]%andb_true_iff. split; [by apply check_holds_ok|]. apply Forall_forall. intros b Hb. rewrite forallb_forall in H2.
  apply list_elem_of_In in Hb. specialize (H2 b Hb). lia.
Qed.
Lemma check_room_ok m p n : check_room m p n = true -> room m p (Z.of_nat n).
Proof.
  intros H a Ha. unfold check_room in H. rewrite forallb_forall in H. specialize (H (Z.to_nat (a - p))).
  rewrite bool_decide_eq_true in H. replace a with (p + Z.of_nat (Z.to_nat (a - p))) by lia. apply H, in_seq. lia.
Qed.

(** "/home/user" at 100, "us" at 140, "/" at 150, an empty buffer of 40 bytes at 200,
    and "ls, -l  dir" at 300. *)
Definition demo_mem : mem :=
  put_text 300 "ls, -l  dir" (fill 200 (replicate 40 0) (put_text 160 " -12345678901x" (put_text 150 " ," (put_text 140 "us" (put_text 100 "/home/user" ∅))))).

Lemma memmove_correct_witness : exists m', memmove 102 100 6 ~{ demo_mem }~> 102; m' /\ holds m' 102 (text "/home/").
Proof.
  destruct (memmove_correct demo_mem 102 100 (text "/home/")) as [(m' & Hr & Hh & _) _].
  - repeat constructor; lia.
  - apply check_holds_ok. vm_compute. reflexivity.
  - apply (check_room_ok demo_mem 102 6). vm_compute. reflexivity.
  - exists m'. split; [exact Hr|exact Hh].
Defined.
Lemma strings_built_witness : exists m', strcat 50 140 100 ~{ put_text 140 "us" (fill 142 (replicate 20 0) demo_mem) }~> 140; m' /\
  cstr m' 140 (text "us/home/user").
Proof.
  destruct (strings_built 50 (put_text 140 "us" (fill 142 (replicate 20 0) demo_mem)) 140 100 (text "us") (text "/home/user") 3) as (_ & Hcat & _).
  - apply check_cstr_ok. vm_compute. reflexivity.
  - cbn. lia.
  - cbn. lia.
  - destruct Hcat as (m' & Hr & Hc & _).
    + apply check_cstr_ok. vm_compute. reflexivity.
    + apply (check_room_ok _ 140 13). vm_compute. reflexivity.
    + unfold apart. cbn. lia.
    + exists m'. split; [exact Hr|exact Hc].
Defined.
Lemma comparisons_correct_witness : strcmp 50 100 140 ~{ demo_mem }~> -1; demo_mem /\ strncmp 140 148 1 ~{ put_text 148 "u" demo_mem }~> 0; put_text 148 "u" demo_mem.
Proof.
  split.
  - destruct (comparisons_correct 50 demo_mem 100 140 (text "/home/user") (text "us") 0) as (H & _);
      [apply check_cstr_ok; vm_compute; reflexivity|apply check_cstr_ok; vm_compute; reflexivity|cbn; lia|exact H].
  - destruct (comparisons_correct 50 (put_text 148 "u" demo_mem) 140 148 (text "us") (text "u") 1) as (_ & _ & H & _);
      [apply check_cstr_ok; vm_compute; reflexivity|apply check_cstr_ok; vm_compute; reflexivity|cbn; lia|exact H].
Defined.
Lemma searches_correct_witness : exists r, strstr 50 100 140 ~{ demo_mem }~> r; demo_mem /\
  first_match (fun i => text "us" `prefix_of` drop i (text "/home/user")) 11 100 r.
Proof.
  destruct (searches_correct 50 demo_mem 100 140 (text "/home/user") (text "us") 111) as (_ & _ & H & _);
    [apply check_cstr_ok; vm_compute; reflexivity|apply check_cstr_ok; vm_compute; reflexivity|cbn; lia|cbn; lia|exact H].
Defined.
Lemma strtok_r_correct_witness : exists ptrs m', tokenize 50 50 300 150 0 ~{ demo_mem }~> ptrs; m' /\
  Forall2 (cstr m') ptrs [text "ls"; text "-l"; text "dir"].
Proof.
  destruct (strtok_r_correct 50 demo_mem 300 150 (text "ls, -l  dir") (text " ,") 0) as (ptrs & m' & Hr & Hw & _);
    [apply check_cstr_ok; vm_compute; reflexivity|repeat constructor; lia|apply check_cstr_ok; vm_compute; reflexivity|
     repeat constructor; lia|unfold apart; cbn; lia|lia|cbn; lia|cbn; lia|].
  - exists ptrs, m'. split; [exact Hr|]. exact Hw.
Defined.
(** " -12345678901x" saturates, and the end pointer is at the x. *)
Lemma strtol_correct_witness : strtol 50 160 0 ~{ demo_mem }~> (-2147483648, 173, true); demo_mem.
Proof.
  apply (strtol_correct 50 demo_mem 160 1 [45] true [] 0 10 (text "12345678901") (text "x")).
  - apply check_cstr_ok. vm_compute. reflexivity.
  - left. split; reflexivity.
  - right. split; [reflexivity|]. split; [|vm_compute; reflexivity]. intros _ [l [E|E]]; discriminate E.
  - lia.
  - discriminate.
  - repeat constructor.
  - intros e l [= <- _]. reflexivity.
  - lia.
  - cbn. lia.
Defined.
Lemma paths_correct_witness : basename 50 100 ~{ demo_mem }~> 106; demo_mem /\
  exists m', dirname 50 200 152 100 ~{ demo_mem }~> 200; m' /\ cstr m' 200 (text "/home").
Proof.
  destruct (paths_correct 50 demo_mem 200 152 100 (text "/home") (text "user") (text "/home/user")) as [H _];
    try lia; [apply check_cstr_ok; vm_compute; reflexivity| |cbn; lia|apply (check_room_ok _ 200 11); vm_compute; reflexivity| |].
  - apply (bool_decide_eq_true_1 _). vm_compute. reflexivity.
  - right. cbn. lia.
  - destruct (H eq_refl) as [Hb Hd]. split; [exact Hb|]. destruct Hd as (m' & Hr & Hc & _); [discriminate|]. exists m'. split; [exact Hr|exact Hc].
Defined.

(** *** What the code does not get right

    A path that ends in a slash is cut at its first slash, not at the last one
    before the end: the directory of "/home/user/" is "". *)
Example dirname_trailing_slash : exists m', dirname 50 200 152 100 ~{ put_text 100 "/home/user/" demo_mem }~> 200; m' /\ cstr m' 200 [].
Proof. eexists. split; [vm_compute; reflexivity|]. apply check_cstr_ok. vm_compute. reflexivity. Qed.
(** [trim] of a string of blanks writes behind the terminator. *)
Example trim_past_the_end : trim 50 10 ~{ put_text 10 "  " ∅ }~>! FPtr 13.
Proof. vm_compute. reflexivity. Qed.
(** [strnset] returns the address where it has stopped, unlike [strset]. *)
Example strnset_returns_end : exists m', strnset 140 120 2 ~{ demo_mem }~> 142; m'.
Proof. eexists. vm_compute. reflexivity. Qed.
(** [strnicmp] with the length 0 has no limit. *)
Example strnicmp_zero : strnicmp 50 140 100 0 ~{ demo_mem }~> 70; demo_mem.
Proof. vm_compute. reflexivity. Qed.
End CString.
