(* ===== verification/Format.v ===== *)
(** * Formatted output (src/kernel/lib/vsprintf.c, itoa of misc/string.c)

    The conversions of [vsprintf] over the byte memory of CString. The arguments
    are the 32-bit words on the stack, in order; taking one that is not there is a
    fault. The floating-point conversions are disabled in the source. *)

From stdpp Require Import strings.
From S2P Require Import Prelude CString.

Module Format.
Import CString.

Definition FLAGS_ZEROPAD : Z := 1.
Definition FLAGS_LEFT : Z := 2.
Definition FLAGS_PLUS : Z := 4.
Definition FLAGS_SPACE : Z := 8.
Definition FLAGS_HASH : Z := 16.
Definition FLAGS_UPPERCASE : Z := 32.
Definition FLAGS_SIGN : Z := 64.
Definition has (flags f : Z) : bool := negb (Z.land flags f =? 0).

(** [_digits[k]] and [_upper_digits[k]] *)
Definition _digits (k : Z) : Z := if k <? 10 then 48 + k else 97 + (k - 10).
Definition _upper_digits (k : Z) : Z := if k <? 10 then 48 + k else 65 + (k - 10).

(** ** [number] *)

(** The digits, the least significant one first; 32 rounds are enough. *)
Fixpoint digits_loop (n : nat) (dig : Z -> Z) (base u : Z) : list Z :=
  match n with
  | O => []
  | S n => if negb (u =? 0) then dig (u mod base) :: digits_loop n dig base (u / base) else []
  end.
Definition spaces (n : Z) : list Z := replicate (Z.to_nat n) 32.

(** The sign character (0 for none), the absolute value and the room left. *)
Definition take_sign (num size flags : Z) : Z * Z * Z :=
  if has flags FLAGS_SIGN then
    if num <? 0 then (45, s32 (- num), size - 1)
    else if has flags FLAGS_PLUS then (43, num, size - 1)
    else if has flags FLAGS_SPACE then (32, num, size - 1) else (0, num, size)
  else (0, num, size).

(** What [number] writes, or [None] for a base it refuses. The room is used up by
    the first of the three loops that pads, which leaves [size] negative. *)
Definition number_text (num base size precision flags : Z) : option (list Z) :=
  let dig := if has flags FLAGS_UPPERCASE then _upper_digits else _digits in
  let flags := if has flags FLAGS_LEFT then Z.land flags (u32_not FLAGS_ZEROPAD) else flags in
  if (base <? 2) || (36 <? base) then None
  else
    let c := if has flags FLAGS_ZEROPAD then 48 else 32 in
    let '(sign, num, size) := take_sign num size flags in
    let uns_num := u32 num in
    let size := if has flags FLAGS_HASH then (if base =? 16 then size - 2 else if base =? 8 then size - 1 else size) else size in
    let tmp := if uns_num =? 0 then [48] else digits_loop 32 dig base uns_num in
    let i := Z.of_nat (length tmp) in
    let precision := if precision <? i then i else precision in
    let size := size - precision in
    let first := negb (has flags (Z.lor FLAGS_ZEROPAD FLAGS_LEFT)) in
    let before := if first then spaces size else [] in
    let size := if first then Z.min size 0 - 1 else size in
    let prefix := if has flags FLAGS_HASH then (if base =? 8 then [48] else if base =? 16 then [48; _digits 33] else []) else [] in
    let second := negb (has flags FLAGS_LEFT) in
    let fill := if second then replicate (Z.to_nat size) c else [] in
    let size := if second then Z.min size 0 - 1 else size in
    Some (before ++ (if negb (sign =? 0) then [sign] else []) ++ prefix ++ fill ++
          replicate (Z.to_nat (precision - i)) 48 ++ rev tmp ++ spaces size).

(** Writing at [*str++]. *)
Definition emit (str : Z) (l : list Z) : M mem Z := put_chars str l ;; mret (str + len l).
Definition number (str num base size precision flags : Z) : M mem Z :=
  match number_text num base size precision flags with
  | Some l => emit str l
  | None => mret NULL
  end.

(** ** Addresses *)
Fixpoint load_bytes (n : nat) (a : Z) : M mem (list Z) :=
  match n with O => mret [] | S n => b ← ldb a; l ← load_bytes n (a + 1); mret (b :: l) end.
(** [l] in a field of [size] characters. *)
Definition in_field (l : list Z) (size flags : Z) : list Z :=
  let padding := spaces (size - len l) in
  if negb (has flags FLAGS_LEFT) then padding ++ l else l ++ padding.

Definition eaddr (str addr size precision flags : Z) : M mem Z :=
  let dig := if has flags FLAGS_UPPERCASE then _upper_digits else _digits in
  l ← load_bytes 6 addr;
  emit str (in_field (List.concat (imap (fun i b => (if (i =? 0)%nat then [] else [58]) ++ [dig (Z.shiftr b 4); dig (Z.land b 15)]) l)) size flags).

Definition decimal_byte (n : Z) : list Z :=
  if n =? 0 then [_digits 0]
  else if 100 <=? n then [_digits (n / 100); _digits (n mod 100 / 10); _digits (n mod 100 mod 10)]
  else if 10 <=? n then [_digits (n / 10); _digits (n mod 10)]
  else [_digits n].
Definition iaddr (str addr size precision flags : Z) : M mem Z :=
  l ← load_bytes 4 addr;
  emit str (in_field (List.concat (imap (fun i b => (if (i =? 0)%nat then [] else [46]) ++ decimal_byte b) l)) size flags).

(** ** [vsprintf] *)
Definition va_arg (args : list Z) : M mem (Z * list Z) :=
  match args with a :: args => mret (a, args) | [] => fail (FBound 0) end.

Section Vsprintf.
Context (fuel : nat).

(** [while (isdigit( **s)) i = i * 10 + *( *s)++ - 48;] *)
Fixpoint skip_atoi (n : nat) (s i : Z) : M mem (Z * Z) :=
  match n with
  | O => fail FLoop
  | S n => c ← ldb s; if isdigit (s8 c) then skip_atoi n (s + 1) (s32 (i * 10 + s8 c - 48)) else mret (i, s)
  end.

(** The flag characters: the flags and the address after them. *)
Definition flag_of (c : Z) : Z :=
  if c =? 45 then FLAGS_LEFT else if c =? 43 then FLAGS_PLUS else if c =? 32 then FLAGS_SPACE
  else if c =? 35 then FLAGS_HASH else if c =? 48 then FLAGS_ZEROPAD else 0.
Fixpoint parse_flags (n : nat) (fmt flags : Z) : M mem (Z * Z) :=
  match n with
  | O => fail FLoop
  | S n =>
      let fmt := fmt + 1 in
      c ← ldb fmt;
      if negb (flag_of c =? 0) then parse_flags n fmt (Z.lor flags (flag_of c)) else mret (flags, fmt)
  end.
Definition parse_width (fmt flags : Z) (args : list Z) : M mem (Z * Z * Z * list Z) :=
  c ← ldb fmt;
  if isdigit (s8 c) then r ← skip_atoi fuel fmt 0; mret (r.1, flags, r.2, args)
  else if c =? 42 then
    r ← va_arg args;
    let field_width := s32 r.1 in
    mret (if field_width <? 0 then (s32 (- field_width), Z.lor flags FLAGS_LEFT, fmt + 1, r.2) else (field_width, flags, fmt + 1, r.2))
  else mret (-1, flags, fmt, args).
Definition parse_precision (fmt : Z) (args : list Z) : M mem (Z * Z * list Z) :=
  c ← ldb fmt;
  if c =? 46 then
    let fmt := fmt + 1 in
    c ← ldb fmt;
    r ← (if isdigit (s8 c) then r ← skip_atoi fuel fmt 0; mret (r.1, r.2, args)
         else if c =? 42 then r ← va_arg args; mret (s32 r.1, fmt + 1, r.2) else mret (-1, fmt, args));
    let '(precision, fmt, args) := r in
    mret (if precision <? 0 then 0 else precision, fmt, args)
  else mret (-1, fmt, args).
(** The qualifier (0 for none). *)
Definition parse_qualifier (fmt : Z) : M mem (Z * Z) :=
  c ← ldb fmt; mret (if (c =? 104) || (c =? 108) || (c =? 76) then (c, fmt + 1) else (0, fmt)).

Definition conv_char (tmp field_width flags : Z) (args : list Z) : M mem (Z * list Z) :=
  r ← va_arg args;
  let padding := spaces (field_width - 1) in
  tmp ← emit tmp (if negb (has flags FLAGS_LEFT) then padding ++ [u8 r.1] else u8 r.1 :: padding);
  mret (tmp, r.2).

(** The text "<NULL>" stands for a null pointer. *)
Definition null_text : list Z := [60; 78; 85; 76; 76; 62].
Definition conv_string (tmp field_width precision flags : Z) (args : list Z) : M mem (Z * list Z) :=
  r ← va_arg args;
  let s := r.1 in
  n ← (if s =? NULL then mret (Z.min (len null_text) (u32 precision)) else strnlen fuel s (u32 precision));
  tmp ← (if negb (has flags FLAGS_LEFT) then emit tmp (spaces (field_width - n)) else mret tmp);
  tmp ← (if s =? NULL then emit tmp (take (Z.to_nat n) null_text)
         else copy_up (Z.to_nat n) tmp s ;; mret (tmp + n));
  tmp ← (if negb (has flags FLAGS_LEFT) then mret tmp else emit tmp (spaces (field_width - n)));
  mret (tmp, r.2).

(** The argument of an integer conversion. *)
Definition int_arg (qualifier flags w : Z) : Z :=
  if has flags FLAGS_SIGN then (if qualifier =? 108 then s32 w else if qualifier =? 104 then s16 w else s32 w)
  else (if qualifier =? 108 then s32 w else if qualifier =? 104 then u16 w else s32 w).
Definition conv_number (tmp base field_width precision qualifier flags : Z) (args : list Z) : M mem (Z * list Z) :=
  r ← va_arg args;
  tmp ← number tmp (int_arg qualifier flags r.1) base field_width precision flags;
  mret (tmp, r.2).
Definition conv_pointer (tmp field_width precision flags : Z) (args : list Z) : M mem (Z * list Z) :=
  r ← va_arg args;
  let '(field_width, flags) := if field_width =? -1 then (8, Z.lor flags FLAGS_ZEROPAD) else (field_width, flags) in
  tmp ← number tmp (s32 r.1) 16 field_width precision flags;
  mret (tmp, r.2).
(** [*ip = tmp - str], a word of four bytes. *)
Definition conv_count (str tmp : Z) (args : list Z) : M mem (Z * list Z) :=
  r ← va_arg args;
  let v := u32 (tmp - str) in
  put_chars r.1 [u8 v; u8 (Z.shiftr v 8); u8 (Z.shiftr v 16); u8 (Z.shiftr v 24)] ;;
  mret (tmp, r.2).
Definition conv_address (tmp field_width precision qualifier flags : Z) (args : list Z) : M mem (Z * list Z) :=
  r ← va_arg args;
  tmp ← (if qualifier =? 108 then eaddr tmp r.1 field_width precision flags else iaddr tmp r.1 field_width precision flags);
  mret (tmp, r.2).

(** The conversion at [fmt]: the output pointer, the arguments left and the address
    of the last character of the conversion. *)
Definition convert (str tmp fmt field_width precision qualifier flags : Z) (args : list Z) : M mem (Z * list Z * Z) :=
  c ← ldb fmt;
  if c =? 99 then r ← conv_char tmp field_width flags args; mret (r, fmt)
  else if c =? 115 then r ← conv_string tmp field_width precision flags args; mret (r, fmt)
  else if c =? 112 then r ← conv_pointer tmp field_width precision flags args; mret (r, fmt)
  else if c =? 110 then r ← conv_count str tmp args; mret (r, fmt)
  else if c =? 65 then r ← conv_number tmp 10 field_width precision qualifier (Z.lor flags FLAGS_UPPERCASE) args; mret (r, fmt)
  else if c =? 97 then r ← conv_address tmp field_width precision qualifier flags args; mret (r, fmt)
  else if c =? 111 then r ← conv_number tmp 8 field_width precision qualifier flags args; mret (r, fmt)
  else if c =? 88 then r ← conv_number tmp 16 field_width precision qualifier (Z.lor flags FLAGS_UPPERCASE) args; mret (r, fmt)
  else if c =? 120 then r ← conv_number tmp 16 field_width precision qualifier flags args; mret (r, fmt)
  else if (c =? 100) || (c =? 105) then r ← conv_number tmp 10 field_width precision qualifier (Z.lor flags FLAGS_SIGN) args; mret (r, fmt)
  else if c =? 117 then r ← conv_number tmp 10 field_width precision qualifier flags args; mret (r, fmt)
  else
    tmp ← (if negb (c =? 37) then emit tmp [37] else mret tmp);
    if negb (c =? 0) then tmp ← emit tmp [c]; mret (tmp, args, fmt) else mret (tmp, args, fmt - 1).

Fixpoint vsprintf_loop (n : nat) (str tmp fmt : Z) (args : list Z) : M mem Z :=
  match n with
  | O => fail FLoop
  | S n =>
      c ← ldb fmt;
      if c =? 0 then mret tmp
      else if negb (c =? 37) then stb tmp c ;; vsprintf_loop n str (tmp + 1) (fmt + 1) args
      else
        r ← parse_flags fuel fmt 0;
        let '(flags, fmt) := r in
        r ← parse_width fmt flags args;
        let '(field_width, flags, fmt, args) := r in
        r ← parse_precision fmt args;
        let '(precision, fmt, args) := r in
        r ← parse_qualifier fmt;
        let '(qualifier, fmt) := r in
        r ← convert str tmp fmt field_width precision qualifier flags args;
        let '(tmp, args, fmt) := r in
        vsprintf_loop n str tmp (fmt + 1) args
  end.
Definition vsprintf (str fmt : Z) (args : list Z) : M mem Z :=
  tmp ← vsprintf_loop fuel str str fmt args;
  stb tmp 0 ;;
  mret (tmp - str).
Definition sprintf (str fmt : Z) (args : list Z) : M mem Z := vsprintf str fmt args.

(** ** [itoa]

    The format "%0x" is at [hex_fmt]. *)
Fixpoint itoa_loop (n : nat) (p num base : Z) : M mem Z :=
  match n with
  | O => fail FLoop
  | S n => if negb (num =? 0)
           then if base =? 0 then fail FDiv0 else stb p (48 + num mod base) ;; itoa_loop n (p + 1) (num / base) base
           else mret p
  end.
Definition itoa (hex_fmt buffer num base : Z) : M mem Z :=
  if base =? 16 then _ ← sprintf buffer hex_fmt [num]; mret buffer
  else
    p ← (if num =? 0 then stb buffer 48 ;; mret (buffer + 1) else mret buffer);
    p ← itoa_loop fuel p num base;
    stb p 0 ;;
    reverse_loop fuel buffer (p - 1) ;;
    mret buffer.

(** ** [to_human_size]

    The suffix, the integer and the fraction of the size; [sprintf] prints them. *)
Fixpoint human_loop (n : nat) (i bytes integer fractional : Z) : Z * Z * Z :=
  match n with
  | O => (i, integer, fractional)
  | S n => if (0 <? bytes / 1024) && (i <? 4)
           then human_loop n (i + 1) (bytes / 1024) (bytes / 1024) (bytes mod 1024 * 1000 / 1024)
           else (i, integer, fractional)
  end.
Definition to_human_size (output fmt : Z) (suffix : Z -> Z) (bytes : Z) : M mem Z :=
  let '(i, integer, fractional) := if 1024 <? bytes then human_loop 5 0 bytes bytes 0 else (0, bytes, 0) in
  _ ← sprintf output fmt [integer; fractional; suffix i];
  mret output.

(** [dec_to_binary] writes the digits and leaves the terminator to the static
    buffer, which starts out as zeros. *)
Definition dec_to_binary (buffer value length : Z) : M mem Z :=
  let j := 32 - Z.min length 32 in
  for_range (Z.to_nat (32 - j)) 0 (fun i => stb (buffer + i) (if Z.testbit value (31 - (j + i)) then 49 else 48)) ;;
  mret buffer.
End Vsprintf.

(** ** Digits *)
Lemma digits_bytes_ok dig k base : dig = _digits \/ dig = _upper_digits -> 2 <= base <= 36 -> 0 <= k < base ->
  digit_of (dig k) = Some k /\ 48 <= dig k < 123.
Proof.
  intros Hd Hb Hk. unfold digit_of, isdigit, isalpha, isupper. destruct Hd; subst dig; unfold _digits, _upper_digits;
    destruct (Z.ltb_spec k 10); repeat (match goal with |- context [(?a <=? ?b)] => destruct (Z.leb_spec a b); try lia end);
    cbn [andb orb]; (split; [f_equal; lia|lia]).
Qed.

Section Digits.
Context (dig : Z -> Z) (base : Z) (Hdig : dig = _digits \/ dig = _upper_digits) (Hb : 2 <= base <= 36).

(** The digits of [u], which has at most [n] bits, are [n] at most, have the value
    [u], and begin with one that is not 0. *)
Lemma digits_loop_ok n : forall u, 0 <= u < 2 ^ Z.of_nat n ->
  number_of base 0 (rev (digits_loop n dig base u)) = u /\
  Forall (fun c => digit_in base c = true) (rev (digits_loop n dig base u)) /\
  (digits_loop n dig base u = [] <-> u = 0) /\
  (0 < u -> exists k l, rev (digits_loop n dig base u) = dig k :: l /\ 0 < k < base).
Proof.
  induction n as [|n IH]; intros u Hu; cbn [digits_loop]; [assert (u = 0) by lia; subst; split_and!; try done; lia|].
  destruct (Z.eqb_spec u 0) as [->|Hne]; cbn [negb]; [split_and!; try done; lia|].
  pose proof (Z.mod_pos_bound u base ltac:(lia)) as Hm. destruct (digits_bytes_ok dig _ base Hdig Hb Hm) as [Hdv _].
  assert (Hd : 0 <= u / base < 2 ^ Z.of_nat n).
  { rewrite Nat2Z.inj_succ, Z.pow_succ_r in Hu by lia. split; [apply Z.div_pos; lia|]. apply Z.div_lt_upper_bound; nia. }
  destruct (IH _ Hd) as (I1 & I2 & I3 & I4). cbn [rev]. split; [|split; [|split]].
  - unfold number_of in *. rewrite foldl_app. cbn [foldl]. rewrite I1, Hdv. cbn. rewrite (Z.div_mod u base) at 3; lia.
  - apply Forall_app. split; [done|]. constructor; [|done]. unfold digit_in. rewrite Hdv. lia.
  - done.
  - intros _. destruct (decide (u / base = 0)) as [E|E].
    + rewrite (proj2 I3 E). cbn. eexists _, []. split; [reflexivity|]. pose proof (Z.div_mod u base). lia.
    + destruct I4 as (k & l & -> & Hk); [lia|]. by eexists _, _.
Qed.
End Digits.

(** ** The layout of a number *)
Definition all_eq (c : Z) (l : list Z) : Prop := Forall (.= c) l.
Lemma all_eq_replicate c n : all_eq c (replicate n c).
Proof. induction n; constructor; done. Qed.

(** [l] is the text of a number: blanks, the sign, the prefix of the base, zeros, the
    digits, blanks. *)
Definition number_layout (num base size precision flags : Z) (l : list Z) : Prop := exists left sign prefix zeros ds right,
  l = left ++ sign ++ prefix ++ zeros ++ ds ++ right /\ all_eq 32 left /\ all_eq 48 zeros /\ all_eq 32 right /\
  sign = (if has flags FLAGS_SIGN then if num <? 0 then [45] else if has flags FLAGS_PLUS then [43]
          else if has flags FLAGS_SPACE then [32] else [] else []) /\
  prefix = (if has flags FLAGS_HASH then if base =? 8 then [48] else if base =? 16 then [48; 120] else [] else []) /\
  number_of base 0 ds = (if has flags FLAGS_SIGN then Z.abs num else u32 num) /\
  Forall (fun c => digit_in base c = true) ds /\ ds <> [] /\ (head ds = Some 48 -> ds = [48]) /\
  precision <= len (zeros ++ ds) /\ (has flags FLAGS_LEFT = true -> left = []) /\ (has flags FLAGS_LEFT = false -> right = []) /\
  (has flags FLAGS_ZEROPAD = false \/ has flags FLAGS_LEFT = true -> len (zeros ++ ds) = Z.max precision (len ds)) /\
  (has flags FLAGS_ZEROPAD = true -> has flags FLAGS_LEFT = false -> left = []) /\
  len l = Z.max size (len (sign ++ prefix ++ zeros ++ ds)).

(** Flags are bits. *)
Lemma has_bit flags k : 0 <= k < 32 -> has flags (u32 (Z.shiftl 1 k)) = Z.testbit flags k.
Proof. intros Hk. exact (word_test_testbit flags k Hk). Qed.
Lemma has_either flags a b : has flags (Z.lor a b) = has flags a || has flags b.
Proof.
  unfold has. rewrite Z.land_lor_distr_r, <- negb_andb. f_equal. apply eq_bool_prop_intro.
  rewrite andb_True, !Is_true_true, !Z.eqb_eq. apply Z.lor_eq_0_iff.
Qed.
(** The flags after ZEROPAD has been dropped for a field aligned to the left. *)
Definition effective (flags : Z) : Z := if has flags FLAGS_LEFT then Z.land flags (u32_not FLAGS_ZEROPAD) else flags.
Lemma effective_has flags k : is_u32 flags -> 0 < k < 32 -> has (effective flags) (u32 (Z.shiftl 1 k)) = has flags (u32 (Z.shiftl 1 k)).
Proof.
  intros Hf Hk. unfold effective. destruct (has flags FLAGS_LEFT); [|done]. rewrite !has_bit by lia.
  change (Z.testbit (word_clear flags 0) k = Z.testbit flags k). rewrite word_clear_testbit by (done || lia). by rewrite bool_decide_true by lia.
Qed.
Lemma effective_zeropad flags : is_u32 flags -> has (effective flags) FLAGS_ZEROPAD = has flags FLAGS_ZEROPAD && negb (has flags FLAGS_LEFT).
Proof.
  intros Hf. unfold effective. destruct (has flags FLAGS_LEFT); cbn [negb]; [rewrite andb_false_r|by rewrite andb_true_r].
  change FLAGS_ZEROPAD with (u32 (Z.shiftl 1 0)). rewrite has_bit by lia. change (Z.testbit (word_clear flags 0) 0 = false).
  by rewrite word_clear_testbit by (done || lia).
Qed.

Lemma digits_head dig base u : dig = _digits \/ dig = _upper_digits -> 2 <= base <= 36 -> 0 <= u < 4294967296 ->
  let ds := rev (if u =? 0 then [48] else digits_loop 32 dig base u) in
  number_of base 0 ds = u /\ Forall (fun c => digit_in base c = true) ds /\ ds <> [] /\ (head ds = Some 48 -> ds = [48]).
Proof.
  intros Hdig Hb Hu ds. unfold ds. destruct (Z.eqb_spec u 0) as [->|Hne].
  - cbn. split; [done|]. split; [|done]. constructor; [|done]. unfold digit_in, digit_of, isdigit. cbn. lia.
  - destruct (digits_loop_ok dig base Hdig Hb 32 u Hu) as (D1 & D2 & D3 & D4). split; [done|]. split; [done|].
    destruct D4 as (k & l & E & Hk); [lia|]. rewrite E. split; [done|]. intros [= E0].
    destruct (digits_bytes_ok dig k base Hdig Hb ltac:(lia)) as [Hd _]. rewrite E0 in Hd. discriminate Hd || (injection Hd; lia).
Qed.

(** The sign: its character, the absolute value, and one place less. *)
Lemma take_sign_ok num size flags : -2147483648 <= num < 2147483648 -> is_u32 flags ->
  let '(sign, num', size') := take_sign num size (effective flags) in
  let text := if negb (sign =? 0) then [sign] else [] in
  text = (if has flags FLAGS_SIGN then if num <? 0 then [45] else if has flags FLAGS_PLUS then [43]
          else if has flags FLAGS_SPACE then [32] else [] else []) /\
  u32 num' = (if has flags FLAGS_SIGN then Z.abs num else u32 num) /\ size' = size - len text.
Proof.
  intros Hn Hf. unfold take_sign. change FLAGS_SIGN with (u32 (Z.shiftl 1 6)). change FLAGS_PLUS with (u32 (Z.shiftl 1 2)).
  change FLAGS_SPACE with (u32 (Z.shiftl 1 3)). rewrite !effective_has by (done || lia).
  destruct (has flags (u32 (Z.shiftl 1 6))); [|cbn; split_and!; [done|done|lia]]. destruct (Z.ltb_spec num 0); [cbn; split_and!; [done|wraplia|lia]|].
  assert (u32 num = Z.abs num) by wraplia.
  destruct (has flags (u32 (Z.shiftl 1 2))); [cbn; split_and!; [done|done|lia]|]. destruct (has flags (u32 (Z.shiftl 1 3))); cbn; split_and!; (done || lia).
Qed.

Lemma spaces_length n : len (spaces n) = Z.max n 0.
Proof. unfold spaces. rewrite length_replicate. lia. Qed.
Lemma spaces_none n : n <= 0 -> spaces n = [].
Proof. intros H. unfold spaces. by replace (Z.to_nat n) with O by lia. Qed.

Ltac layout := split_and!;
  first [done | exact (List.Forall_nil _) | by apply all_eq_replicate | by apply Forall_app; split; [apply all_eq_replicate|] | lia | by intros; lia | by intros []; congruence | by intros; congruence].
(** The padding, wherever it goes. *)
Lemma layout_padding num base size precision flags sg px ds size2 :
  size2 = size - len sg - len px ->
  sg = (if has flags FLAGS_SIGN then if num <? 0 then [45] else if has flags FLAGS_PLUS then [43]
        else if has flags FLAGS_SPACE then [32] else [] else []) ->
  px = (if has flags FLAGS_HASH then if base =? 8 then [48] else if base =? 16 then [48; 120] else [] else []) ->
  number_of base 0 ds = (if has flags FLAGS_SIGN then Z.abs num else u32 num) ->
  Forall (fun c => digit_in base c = true) ds -> ds <> [] -> (head ds = Some 48 -> ds = [48]) ->
  let zp := has flags FLAGS_ZEROPAD && negb (has flags FLAGS_LEFT) in
  let prec := Z.max precision (len ds) in
  let size3 := size2 - prec in
  let first := negb (zp || has flags FLAGS_LEFT) in
  let size4 := if first then Z.min size3 0 - 1 else size3 in
  let second := negb (has flags FLAGS_LEFT) in
  let size5 := if second then Z.min size4 0 - 1 else size4 in
  number_layout num base size precision flags
    ((if first then spaces size3 else []) ++ sg ++ px ++
     (if second then replicate (Z.to_nat size4) (if zp then 48 else 32) else []) ++
     replicate (Z.to_nat (prec - len ds)) 48 ++ ds ++ spaces size5).
Proof.
  intros H1 H2 H3 H4 H5 H6 H7 zp prec size3 first size4 second size5.
  set (zeros := replicate (Z.to_nat (prec - len ds)) 48). assert (Hz : len zeros = prec - len ds) by (unfold zeros; rewrite length_replicate; lia).
  assert (Hp : prec = Z.max precision (len ds)) by done. assert (Hs : size3 = size2 - prec) by done.
  assert (Hze : all_eq 48 zeros) by apply all_eq_replicate.
  unfold size5, size4, second, first, zp in *. destruct (has flags FLAGS_LEFT) eqn:EL; [|destruct (has flags FLAGS_ZEROPAD) eqn:EZ]; cbn [negb andb orb app].
  - rewrite andb_false_r. cbn [negb orb app]. exists [], sg, px, zeros, ds, (spaces size3).
    rewrite !length_app, !Nat2Z.inj_add, spaces_length, Hz. layout.
  - rewrite (spaces_none (Z.min size3 0 - 1)), app_nil_r by lia.
    exists [], sg, px, (replicate (Z.to_nat size3) 48 ++ zeros), ds, [].
    rewrite !length_app, !Nat2Z.inj_add, Hz, app_nil_r, <- !app_assoc, length_replicate. layout.
  - rewrite (spaces_none (Z.min (Z.min size3 0 - 1) 0 - 1)) by lia. replace (Z.to_nat (Z.min size3 0 - 1)) with O by lia. cbn [replicate app].
    rewrite app_nil_r. exists (spaces size3), sg, px, zeros, ds, [].
    rewrite !length_app, !Nat2Z.inj_add, Hz, app_nil_r, spaces_length. layout.
Qed.

Lemma number_layout_ok num base size precision flags : -2147483648 <= num < 2147483648 -> is_u32 flags -> 2 <= base <= 36 ->
  exists l, number_text num base size precision flags = Some l /\ number_layout num base size precision flags l.
Proof.
  intros Hn Hf Hb. unfold number_text. fold (effective flags). rewrite (proj2 (Z.ltb_ge base 2)), (proj2 (Z.ltb_ge 36 base)) by lia. cbn [orb].
  pose proof (take_sign_ok num size flags Hn Hf) as Hsign. destruct (take_sign num size (effective flags)) as [[sign num'] size'].
  cbv zeta in Hsign. destruct Hsign as (Hs1 & Hs2 & Hs3). set (sg := if negb (sign =? 0) then [sign] else []) in *.
  set (dig := if has flags FLAGS_UPPERCASE then _upper_digits else _digits).
  assert (Hdig : dig = _digits \/ dig = _upper_digits) by (unfold dig; destruct (has flags FLAGS_UPPERCASE); auto).
  set (tmp := if u32 num' =? 0 then [48] else digits_loop 32 dig base (u32 num')).
  assert (Htmp : number_of base 0 (rev tmp) = u32 num' /\ Forall (fun c => digit_in base c = true) (rev tmp) /\ rev tmp <> [] /\
    (head (rev tmp) = Some 48 -> rev tmp = [48])) by exact (digits_head dig base (u32 num') Hdig Hb (u32_range num')).
  destruct Htmp as (T1 & T2 & T3 & T4). rewrite Hs2 in T1.
  rewrite has_either, (effective_zeropad flags Hf).
  rewrite (effective_has flags 1 Hf ltac:(lia) : has (effective flags) FLAGS_LEFT = has flags FLAGS_LEFT).
  rewrite (effective_has flags 4 Hf ltac:(lia) : has (effective flags) FLAGS_HASH = has flags FLAGS_HASH).
  eexists. split; [reflexivity|]. set (px := if has flags FLAGS_HASH then _ else []) in |- *.
  set (size2 := if has flags FLAGS_HASH then _ else size').
  assert (Hsize2 : size2 = size - len sg - len px).
  { unfold size2, px. destruct (has flags FLAGS_HASH); [|cbn [length]; lia].
    destruct (Z.eqb_spec base 16) as [->|]; [cbn; lia|]. destruct (base =? 8); cbn [length]; lia. }
  assert (Hpx : px = if has flags FLAGS_HASH then if base =? 8 then [48] else if base =? 16 then [48; 120] else [] else []) by done.
  clearbody size2 px tmp sg. clear Hs2 Hs3 size' num' sign.
  replace (if precision <? len tmp then len tmp else precision) with (Z.max precision (len tmp)) by (destruct (Z.ltb_spec precision (len tmp)); lia).
  rewrite <- (length_rev tmp). apply (layout_padding num base size precision flags sg px (rev tmp) size2); done.
Qed.

(** ** Formats made of plain directives

    A character, [%%], [%c], [%s] of the string [s] at [p], or an integer
    conversion with its argument. *)
Inductive item : Type := ILit (c : Z) | IPercent | IChar (w : Z) | IStr (p : Z) (s : list Z) | IInt (conv w : Z).
Definition int_conv (conv : Z) : option (Z * Z) :=
  if (conv =? 100) || (conv =? 105) then Some (10, FLAGS_SIGN) else if conv =? 117 then Some (10, 0)
  else if conv =? 120 then Some (16, 0) else if conv =? 88 then Some (16, FLAGS_UPPERCASE)
  else if conv =? 111 then Some (8, 0) else None.
Definition item_fmt (i : item) : list Z :=
  match i with ILit c => [c] | IPercent => [37; 37] | IChar _ => [37; 99] | IStr _ _ => [37; 115] | IInt conv _ => [37; conv] end.
Definition item_args (i : item) : list Z :=
  match i with ILit _ | IPercent => [] | IChar w => [w] | IStr p _ => [p] | IInt _ w => [w] end.
Definition int_text (conv w : Z) : list Z :=
  match int_conv conv with
  | Some (base, flags) => default [] (number_text (int_arg 0 flags w) base (-1) (-1) flags)
  | None => []
  end.
Definition item_text (i : item) : list Z :=
  match i with ILit c => [c] | IPercent => [37] | IChar w => [u8 w] | IStr _ s => s | IInt conv w => int_text conv w end.
(** The strings are apart from the [n] bytes of output at [str]. *)
Definition item_ok (m : mem) (str n : Z) (i : item) : Prop :=
  match i with
  | ILit c => 0 < c < 256 /\ c <> 37
  | IPercent | IChar _ => True
  | IStr p s => p <> 0 /\ cstr m p s /\ apart str n p (len s + 1) /\ len s < 4294967296
  | IInt conv _ => is_Some (int_conv conv)
  end.
Definition text_of (items : list item) : list Z := List.concat (item_text <$> items).
Definition fmt_of (items : list item) : list Z := List.concat (item_fmt <$> items).
Definition args_of (items : list item) : list Z := List.concat (item_args <$> items).

Lemma item_ok_same m m' str n i : same_outside m m' str n -> item_ok m str n i -> item_ok m' str n i.
Proof.
  intros Hs. destruct i as [c| |w|p s|conv w]; try done. intros (H1 & [H2 H3] & H4 & H5). split_and!; try done. split; [|done].
  eapply holds_same; [exact Hs| |done]. unfold apart in *. rewrite length_app. cbn [length]. lia.
Qed.

(** *** Writing *)
Lemma put_chars_run l : forall m p, bytes l -> room m p (len l) -> put_chars p l ~{ m }~> tt; fill p l m.
Proof.
  induction l as [|b l IH]; intros m p Hb Hr; [done|]. apply Forall_cons in Hb as [Hb Hl]. cbn [put_chars fill length] in *.
  run (stb_run m p b ltac:(apply Hr; lia)). rewrite u8_small by done. apply IH; [done|]. apply room_insert. eapply room_sub; [done|lia..].
Qed.
Lemma emit_run l m p : bytes l -> room m p (len l) -> emit p l ~{ m }~> p + len l; fill p l m.
Proof. intros Hb Hr. unfold emit. by run (put_chars_run l m p Hb Hr). Qed.
Lemma emit_nil m p : emit p [] ~{ m }~> p; m.
Proof. unfold emit. cbn. by rewrite Z.add_0_r. Qed.

Lemma all_eq_bytes c l : 0 <= c < 256 -> all_eq c l -> bytes l.
Proof. intros Hc H. eapply Forall_impl; [exact H|]. intros x ->. done. Qed.
Lemma digits_bytes base l : Forall (fun c => digit_in base c = true) l -> bytes l.
Proof.
  intros H. eapply Forall_impl; [exact H|]. cbn. intros c Hc. destruct (digit_in_inv _ _ Hc) as (_ & _ & _ & ?). unfold is_u8. lia.
Qed.
Lemma layout_bytes num base size precision flags l : number_layout num base size precision flags l -> bytes l.
Proof.
  intros (left & sign & prefix & zeros & ds & right & -> & H1 & H2 & H3 & H4 & H5 & _ & H6 & _).
  assert (bytes sign) by (rewrite H4; repeat case_match; repeat constructor; lia).
  assert (bytes prefix) by (rewrite H5; repeat case_match; repeat constructor; lia).
  unfold bytes. rewrite !Forall_app. split_and!; try done; [eapply all_eq_bytes; [|done]; lia|eapply all_eq_bytes; [|done]; lia|by eapply digits_bytes|].
  eapply all_eq_bytes; [|done]. lia.
Qed.

(** The text of an integer directive: the layout of its value, without padding. *)
Lemma int_arg_range q flags w : -2147483648 <= int_arg q flags w < 2147483648.
Proof. unfold int_arg. repeat case_match; wraplia. Qed.
Lemma int_text_ok conv w base flags : int_conv conv = Some (base, flags) ->
  number_text (int_arg 0 flags w) base (-1) (-1) flags = Some (int_text conv w) /\
  number_layout (int_arg 0 flags w) base (-1) (-1) flags (int_text conv w).
Proof.
  intros Hc. assert (Hr : 2 <= base <= 36 /\ is_u32 flags).
  { unfold int_conv in Hc. repeat case_match; simplify_eq; split; vm_compute; split; congruence. }
  destruct (number_layout_ok (int_arg 0 flags w) base (-1) (-1) flags (int_arg_range 0 flags w) (proj2 Hr) (proj1 Hr)) as (l & Hl & Hlay).
  unfold int_text. rewrite Hc, Hl. done.
Qed.
(** How a number is written: a minus sign when it is negative, and then its digits in
    the base, in one case, the first of which is only 0 when it is the only one. *)
Definition in_case (upper : bool) (c : Z) : Prop := if upper then isalpha c = true -> isupper c = true else isupper c = false.
Definition numeral (base : Z) (upper : bool) (v : Z) (l : list Z) : Prop := exists ds,
  l = (if v <? 0 then [45] else []) ++ ds /\ number_of base 0 ds = Z.abs v /\
  Forall (fun c => digit_in base c = true /\ in_case upper c) ds /\ ds <> [] /\ (head ds = Some 48 -> ds = [48]).

Lemma digits_case upper k : 0 <= k < 36 -> in_case upper ((if upper then _upper_digits else _digits) k).
Proof.
  intros Hk. unfold in_case, isalpha, isupper. destruct upper; unfold _digits, _upper_digits; destruct (Z.ltb_spec k 10);
    repeat (match goal with |- context [(?a <=? ?b)] => destruct (Z.leb_spec a b); try lia end); done.
Qed.
Lemma digits_loop_case upper base n : 2 <= base <= 36 -> forall u, 0 <= u ->
  Forall (in_case upper) (digits_loop n (if upper then _upper_digits else _digits) base u).
Proof.
  intros Hb. induction n as [|n IH]; intros u Hu; cbn [digits_loop]; [constructor|]. destruct (negb (u =? 0)); [|constructor].
  pose proof (Z.mod_pos_bound u base ltac:(lia)). constructor; [apply digits_case; lia|]. apply IH, Z.div_pos; lia.
Qed.

(** Without width and precision [number_text] is the sign and the digits. *)
Lemma number_text_bare num base flags : -2147483648 <= num < 2147483648 -> 2 <= base <= 36 -> In flags [0; FLAGS_UPPERCASE; FLAGS_SIGN] ->
  let signed := flags =? FLAGS_SIGN in let upper := flags =? FLAGS_UPPERCASE in
  let u := if signed then Z.abs num else u32 num in
  number_text num base (-1) (-1) flags = Some ((if signed && (num <? 0) then [45] else []) ++
    rev (if u =? 0 then [48] else digits_loop 32 (if upper then _upper_digits else _digits) base u)).
Proof.
  intros Hn Hb Hf. cbv zeta. unfold number_text, take_sign. rewrite (proj2 (Z.ltb_ge base 2)), (proj2 (Z.ltb_ge 36 base)) by lia. cbn [orb].
  assert (Hend : forall (sg tmp : list Z) size, size < 0 -> let i := len tmp in let p := if -1 <? i then i else -1 in
    Some (spaces (size - p) ++ sg ++ [] ++ replicate (Z.to_nat (Z.min (size - p) 0 - 1)) 32 ++ replicate (Z.to_nat (p - i)) 48 ++ rev tmp ++
      spaces (Z.min (Z.min (size - p) 0 - 1) 0 - 1)) = Some (sg ++ rev tmp)).
  { intros sg tmp size Hs i p. assert (Hp : p = i) by (unfold p; by rewrite (proj2 (Z.ltb_lt _ _)) by (unfold i; lia)). rewrite Hp.
    assert (0 <= i) by (unfold i; lia). rewrite !spaces_none by lia. replace (Z.to_nat (Z.min (size - i) 0 - 1)) with 0%nat by lia.
    rewrite Z.sub_diag. cbn [Z.to_nat replicate app]. by rewrite app_nil_r. }
  destruct Hf as [<-|[<-|[<-|[]]]];
    repeat match goal with |- context [has ?f ?g] => let v := eval vm_compute in (has f g) in change (has f g) with v; cbv beta iota zeta end;
    cbn [negb andb].
  - by apply (Hend []).
  - by apply (Hend []).
  - change (FLAGS_SIGN =? FLAGS_SIGN) with true. destruct (Z.ltb_spec num 0) as [Hneg|Hpos]; cbn [andb]; cbv beta iota zeta.
    + replace (u32 (s32 (- num))) with (Z.abs num) by wraplia. by apply (Hend [45]).
    + replace (u32 num) with (Z.abs num) by wraplia. by apply (Hend []).
Qed.
Lemma int_text_numeral conv w base flags : int_conv conv = Some (base, flags) ->
  numeral base (flags =? FLAGS_UPPERCASE) (if flags =? FLAGS_SIGN then s32 w else u32 w) (int_text conv w).
Proof.
  intros Hc. assert (Hr : 2 <= base <= 36 /\ In flags [0; FLAGS_UPPERCASE; FLAGS_SIGN]).
  { unfold int_conv in Hc. repeat case_match; simplify_eq; (split; [lia|cbn; tauto]). }
  destruct Hr as [Hb Hf]. unfold int_text. rewrite Hc. rewrite (number_text_bare _ base flags (int_arg_range 0 flags w) Hb Hf). cbn [default from_option id].
  set (num := int_arg 0 flags w). set (v := if flags =? FLAGS_SIGN then s32 w else u32 w).
  set (u := if flags =? FLAGS_SIGN then Z.abs num else u32 num).
  assert (Hv : u = Z.abs v /\ (flags =? FLAGS_SIGN) && (num <? 0) = (v <? 0)).
  { unfold u, v, num. destruct (Z.eqb_spec flags FLAGS_SIGN) as [->|]; cbn [andb].
    - by change (int_arg 0 FLAGS_SIGN w) with (s32 w).
    - unfold int_arg. split; [|symmetry; apply Z.ltb_ge]; repeat case_match; wraplia. }
  destruct Hv as [Hu Hs]. rewrite Hs. exists (rev (if u =? 0 then [48] else digits_loop 32 (if flags =? FLAGS_UPPERCASE then _upper_digits else _digits) base u)).
  assert (Hu32 : is_u32 u) by (rewrite Hu; unfold v; case_match; wraplia).
  destruct (digits_head (if flags =? FLAGS_UPPERCASE then _upper_digits else _digits) base u ltac:(case_match; auto) Hb Hu32) as (D1 & D2 & D3 & D4).
  split; [done|]. split; [by rewrite D1|]. split; [|done]. apply Forall_and. split; [done|]. apply Forall_rev. destruct (u =? 0).
  - constructor; [|constructor]. by destruct (flags =? FLAGS_UPPERCASE).
  - apply digits_loop_case; [done|apply Hu32].
Qed.

(** What a directive has to print. *)
Definition item_shows (i : item) (l : list Z) : Prop :=
  match i with
  | ILit c => l = [c]
  | IPercent => l = [37]
  | IChar w => l = [u8 w]
  | IStr _ s => l = s
  | IInt conv w =>
      if (conv =? 100) || (conv =? 105) then numeral 10 false (s32 w) l
      else if conv =? 117 then numeral 10 false (u32 w) l
      else if conv =? 111 then numeral 8 false (u32 w) l
      else numeral 16 (conv =? 88) (u32 w) l
  end.
Lemma item_shows_text m str n i : item_ok m str n i -> item_shows i (item_text i).
Proof.
  destruct i as [c| |w|p s|conv w]; cbn; try done. intros [[base flags] Hc]. pose proof (int_text_numeral conv w base flags Hc) as Hn.
  unfold int_conv in Hc. destruct ((conv =? 100) || (conv =? 105)); [by simplify_eq|].
  destruct (Z.eqb_spec conv 117) as [->|]; [by simplify_eq|]. destruct (Z.eqb_spec conv 120) as [->|]; [by simplify_eq|].
  destruct (Z.eqb_spec conv 88) as [->|]; [by simplify_eq|]. destruct (Z.eqb_spec conv 111) as [->|]; [by simplify_eq|]. done.
Qed.
Lemma item_text_bytes m str n i : item_ok m str n i -> bytes (item_text i).
Proof.
  destruct i as [c| |w|p s|conv w]; cbn.
  - intros [Hc _]. constructor; [unfold is_u8; lia|constructor].
  - intros _. constructor; [unfold is_u8; lia|constructor].
  - intros _. constructor; [unfold u8, is_u8; dlia|constructor].
  - intros (_ & [_ Hs] & _). by apply chars_bytes.
  - intros [[base flags] Hc]. eapply layout_bytes, (int_text_ok conv w base flags Hc).
Qed.

(** *** One directive *)
Definition simple_convs : list Z := [37; 99; 115; 100; 105; 117; 120; 88; 111].
Lemma plain_run fuel m str tmp fmt args c n : holds m fmt [37; c] -> In c simple_convs -> (0 < fuel)%nat ->
  vsprintf_loop fuel (S n) str tmp fmt args m =
  (r ← convert fuel str tmp (fmt + 1) (-1) (-1) 0 0 args; let '(tmp, args, fmt) := r in vsprintf_loop fuel n str tmp (fmt + 1) args) m.
Proof.
  intros Hh Hc Hf. apply holds_cons in Hh as [H1 H2]. apply holds_cons in H2 as [H2 _]. destruct fuel as [|f]; [lia|].
  cbn [vsprintf_loop]. run (ldb_run _ _ _ H1). cbn [Z.eqb Pos.eqb negb]. cbn [parse_flags]. rewrite bind_assoc. run (ldb_run _ _ _ H2).
  unfold simple_convs in Hc. cbn [In] in Hc.
  assert (Hall : negb (flag_of c =? 0) = false /\ isdigit (s8 c) = false /\ (c =? 42) = false /\ (c =? 46) = false /\
    (c =? 104) || (c =? 108) || (c =? 76) = false) by (repeat destruct Hc as [<-|Hc]; [done..|destruct Hc]).
  destruct Hall as (A1 & A2 & A3 & A4 & A5). rewrite A1, bind_ret_l. unfold parse_width, parse_precision, parse_qualifier.
  rewrite bind_assoc. run (ldb_run _ _ _ H2). rewrite A2, A3, bind_ret_l. rewrite bind_assoc. run (ldb_run _ _ _ H2). rewrite A4, bind_ret_l.
  rewrite bind_assoc. run (ldb_run _ _ _ H2). by rewrite A5, bind_ret_l.
Qed.

Lemma strnlen_loop_run s : forall n m p count, cstr m p s -> (length s < n)%nat -> len s <= count ->
  strnlen_loop n p count ~{ m }~> p + len s; m.
Proof.
  induction s as [|c s IH]; intros [|n] m p count [Hh Hc] Hn Hl; try (cbn in Hn; lia); cbn [app length] in *; apply holds_cons in Hh as [H1 H2];
    cbn [strnlen_loop]; run (ldb_run _ _ _ H1).
  - cbn. by rewrite Z.add_0_r.
  - apply Forall_cons in Hc as [Hc Hs]. rewrite (proj2 (Z.eqb_neq c 0)), (proj2 (Z.eqb_neq count 0)) by lia. cbn [negb andb].
    rewrite IH by (done || lia). do 2 f_equal. lia.
Qed.
Lemma conv_number_run m tmp conv w base flags args : int_conv conv = Some (base, flags) -> room m tmp (len (int_text conv w)) ->
  conv_number tmp base (-1) (-1) 0 flags (w :: args) ~{ m }~> (tmp + len (int_text conv w), args); fill tmp (int_text conv w) m.
Proof.
  intros Hc Hr. destruct (int_text_ok conv w base flags Hc) as [Ht Hl]. unfold conv_number. cbn [va_arg]. rewrite bind_ret_l. cbn [fst snd].
  unfold number. rewrite Ht. by run (emit_run _ m tmp (layout_bytes _ _ _ _ _ _ Hl) Hr).
Qed.
Lemma conv_string_run fuel m tmp p s args : p <> 0 -> cstr m p s -> room m tmp (len s) -> tmp + len s <= p \/ p + len s <= tmp ->
  (length s < fuel)%nat -> len s < 4294967296 ->
  conv_string fuel tmp (-1) (-1) 0 (p :: args) ~{ m }~> (tmp + len s, args); fill tmp s m.
Proof.
  intros Hp Hs Hr Ha Hf Hl. unfold conv_string. cbn [va_arg]. rewrite bind_ret_l. cbn [fst snd].
  rewrite (proj2 (Z.eqb_neq p NULL)) by done. change (u32 (-1)) with 4294967295.
  assert (Hn : strnlen fuel p 4294967295 ~{ m }~> len s; m).
  { unfold strnlen. run (strnlen_loop_run s fuel m p 4294967295 Hs Hf ltac:(lia)). rewrite (proj2 (Z.ltb_ge _ _)) by lia.
    unfold mret, M_ret. do 2 f_equal. lia. }
  run Hn. change (has 0 FLAGS_LEFT) with false. cbn [negb]. rewrite spaces_none by lia. run (emit_nil m tmp).
  rewrite Nat2Z.id, bind_assoc. destruct Hs as [Hh Hc]. apply holds_app in Hh as [Hh _].
  run (copy_up_run s m tmp p (chars_bytes _ Hc) Hh Hr ltac:(lia)). done.
Qed.

Lemma int_conv_cases conv base flags : int_conv conv = Some (base, flags) ->
  ((conv = 100 \/ conv = 105) /\ base = 10 /\ flags = FLAGS_SIGN) \/ (conv = 117 /\ base = 10 /\ flags = 0) \/
  (conv = 120 /\ base = 16 /\ flags = 0) \/ (conv = 88 /\ base = 16 /\ flags = FLAGS_UPPERCASE) \/ (conv = 111 /\ base = 8 /\ flags = 0).
Proof.
  unfold int_conv. intros H. destruct (Z.eqb_spec conv 100) as [->|]; [cbn in H; simplify_eq; tauto|].
  destruct (Z.eqb_spec conv 105) as [->|]; [cbn in H; simplify_eq; tauto|]. cbn [orb] in H.
  destruct (Z.eqb_spec conv 117) as [->|]; [simplify_eq; tauto|]. destruct (Z.eqb_spec conv 120) as [->|]; [simplify_eq; tauto|].
  destruct (Z.eqb_spec conv 88) as [->|]; [simplify_eq; tauto|]. destruct (Z.eqb_spec conv 111) as [->|]; [simplify_eq; tauto|]. done.
Qed.

Definition conv_of (i : item) : Z := match i with ILit c => c | IPercent => 37 | IChar _ => 99 | IStr _ _ => 115 | IInt conv _ => conv end.
Lemma convert_run fuel m str n tmp fmt i args : (forall c, i <> ILit c) -> item_ok m str n i -> str <= tmp -> tmp + len (item_text i) <= str + n ->
  room m str n -> m !! fmt = Some (conv_of i) -> (match i with IStr _ s => (length s < fuel)%nat | _ => True end) ->
  convert fuel str tmp fmt (-1) (-1) 0 0 (item_args i ++ args) ~{ m }~> (tmp + len (item_text i), args, fmt); fill tmp (item_text i) m.
Proof.
  intros Hnl Hok Hlo Hhi Hr Hc Hf. assert (Hrt : room m tmp (len (item_text i))) by (eapply room_sub; [done|lia..]).
  pose proof (item_text_bytes m str n i Hok) as Hb. unfold convert. run (ldb_run _ _ _ Hc).
  destruct i as [c| |w|p s|conv w]; cbn [conv_of item_args item_text app] in *.
  - by destruct (Hnl c).
  - cbn [Z.eqb Pos.eqb orb negb]. rewrite bind_ret_l. by run (emit_run [37] m tmp Hb Hrt).
  - cbn [Z.eqb Pos.eqb]. unfold conv_char. cbn [va_arg]. rewrite !bind_assoc, bind_ret_l. cbn [fst snd].
    change (has 0 FLAGS_LEFT) with false. cbn [negb]. rewrite spaces_none by lia. cbn [app]. rewrite bind_assoc.
    by run (emit_run [u8 w] m tmp Hb Hrt).
  - destruct Hok as (Hp & Hs & Ha & Hl). cbn [Z.eqb Pos.eqb]. unfold apart in Ha.
    by run (conv_string_run fuel m tmp p s args Hp Hs Hrt ltac:(lia) Hf Hl).
  - destruct Hok as [[base flags] Hconv]. pose proof (conv_number_run m tmp conv w base flags args Hconv Hrt) as Hrun.
    destruct (int_conv_cases conv base flags Hconv) as [([-> | ->] & -> & ->)|[(-> & -> & ->)|[(-> & -> & ->)|[(-> & -> & ->)|(-> & -> & ->)]]]];
      cbn [Z.eqb Pos.eqb orb]; try change (Z.lor 0 FLAGS_SIGN) with FLAGS_SIGN; try change (Z.lor 0 FLAGS_UPPERCASE) with FLAGS_UPPERCASE;
      by rewrite (bind_ok _ _ _ _ _ Hrun).
Qed.

Lemma item_directive i m str n : (forall c, i <> ILit c) -> item_ok m str n i -> item_fmt i = [37; conv_of i] /\ In (conv_of i) simple_convs.
Proof.
  intros Hnl Hok. unfold simple_convs. destruct i as [c| |w|p s|conv w]; cbn [conv_of item_fmt item_ok In] in *; [by destruct (Hnl c)|auto 20..|].
  split; [done|]. destruct Hok as [[base flags] Hc].
  destruct (int_conv_cases conv base flags Hc) as [([-> | ->] & _)|[(-> & _)|[(-> & _)|[(-> & _)|(-> & _)]]]]; auto 20.
Qed.

(** *** Whole formats *)
Lemma text_of_cons i items : text_of (i :: items) = item_text i ++ text_of items.
Proof. done. Qed.
Lemma vsprintf_loop_run fuel str n items : forall k m tmp fmt, Forall (item_ok m str n) items ->
  Forall (fun i => match i with IStr _ s => (length s < fuel)%nat | _ => True end) items ->
  cstr m fmt (fmt_of items) -> apart str n fmt (len (fmt_of items) + 1) -> str <= tmp -> tmp + len (text_of items) <= str + n ->
  room m str n -> (length items < k)%nat -> (0 < fuel)%nat ->
  vsprintf_loop fuel k str tmp fmt (args_of items) ~{ m }~> tmp + len (text_of items); fill tmp (text_of items) m.
Proof.
  induction items as [|i items IH]; intros [|k] m tmp fmt Hok Hfu [Hh Hch] Hap Hlo Hhi Hr Hk Hf; try (cbn in Hk; lia).
  - cbn in Hh. apply holds_cons in Hh as [H1 _]. cbn [vsprintf_loop]. run (ldb_run _ _ _ H1). cbn. by rewrite Z.add_0_r.
  - apply Forall_cons in Hok as [Hi Hok]. apply Forall_cons in Hfu as [Hfi Hfu].
    rewrite text_of_cons in *. unfold fmt_of in *. cbn [fmap list_fmap List.concat] in *. fold (fmt_of items) in *.
    rewrite <- app_assoc in Hh. apply holds_app in Hh as [H1 H2]. apply Forall_app in Hch as [_ Hch].
    rewrite length_app, Nat2Z.inj_add in *. unfold apart in Hap.
    set (m' := fill tmp (item_text i) m). assert (Hsame : same_outside m m' str n) by (eapply same_weaken; [apply fill_same|lia..]).
    assert (Hrest : vsprintf_loop fuel k str (tmp + len (item_text i)) (fmt + len (item_fmt i)) (args_of items) ~{ m' }~>
      tmp + len (item_text i) + len (text_of items); fill (tmp + len (item_text i)) (text_of items) m').
    { apply IH; try done; try lia.
      - eapply Forall_impl; [exact Hok|]. intros j. by apply item_ok_same.
      - split; [|done]. eapply holds_same; [exact Hsame| |done]. unfold apart. rewrite length_app. cbn [length]. lia.
      - unfold apart. lia.
      - by apply fill_room.
      - cbn in Hk. lia. }
    rewrite Z.add_assoc, fill_app. fold m'. rewrite <- Hrest. clear IH Hrest.
    assert (Hcase : (exists c, i = ILit c) \/ (forall c, i <> ILit c)) by (destruct i; eauto; right; congruence).
    destruct Hcase as [[c ->]|Hnl].
    + cbn [item_fmt item_text item_ok] in *. apply holds_cons in H1 as [H1 _]. cbn [vsprintf_loop]. run (ldb_run _ _ _ H1).
      rewrite (proj2 (Z.eqb_neq c 0)), (proj2 (Z.eqb_neq c 37)) by lia. cbn [negb].
      run (stb_run m tmp c ltac:(apply Hr; cbn in Hhi; lia)). rewrite u8_small by (unfold is_u8; lia). done.
    + destruct (item_directive i m str n Hnl Hi) as [Hfmt Hin]. rewrite Hfmt in *.
      rewrite (plain_run fuel m str tmp fmt _ (conv_of i) k H1 Hin Hf). apply holds_cons in H1 as [_ H1]. apply holds_cons in H1 as [H1 _].
      change (args_of (i :: items)) with (item_args i ++ args_of items).
      run (convert_run fuel m str n tmp (fmt + 1) i (args_of items) Hnl Hi Hlo ltac:(lia) Hr H1 Hfi). fold m'.
      replace (fmt + 1 + 1) with (fmt + len [37; conv_of i]) by (cbn; lia). done.
Qed.

(** ** Reading numbers back *)
Lemma s32_step a b d : s32 a = s32 b -> s32 (a * 10 + d) = s32 (b * 10 + d).
Proof. wraplia. Qed.
Lemma atoi_loop_run ds : forall n m p v r, holds m p (ds ++ [0]) -> Forall (fun c => digit_in 10 c = true) ds -> (length ds < n)%nat ->
  r = s32 v -> atoi_loop n p r ~{ m }~> s32 (number_of 10 v ds); m.
Proof.
  induction ds as [|c ds IH]; intros [|n] m p v r Hh Hd Hn Hr; try (cbn in Hn; lia); cbn [app length] in *; apply holds_cons in Hh as [H1 H2];
    cbn [atoi_loop]; run (ldb_run _ _ _ H1).
  - cbn. by rewrite Hr.
  - apply Forall_cons in Hd as [Hc Hd]. destruct (digit_in_inv 10 c Hc) as (d & Hdv & Hd10 & Hc').
    assert (Hdig : isdigit (s8 c) = true /\ s8 c = c /\ d = c - 48).
    { rewrite s8_ascii by lia. unfold digit_of in Hdv. destruct (isdigit c) eqn:E; [split_and!; [done|done|congruence]|].
      unfold isalpha, isupper in Hdv. repeat case_match; simplify_eq; unfold isdigit in *; lia. }
    destruct Hdig as (Hdig & Hs8 & ->). rewrite (proj2 (Z.eqb_neq c 0)), Hdig, Hs8 by lia. cbn [negb andb].
    cbn [number_of foldl]. rewrite Hdv. cbn [default from_option id]. apply IH; [done|done|lia|].
    replace (r * 10 + c - 48) with (r * 10 + (c - 48)) by lia. apply s32_step. rewrite Hr. wraplia.
Qed.
Lemma atoi_run fuel m p neg ds : p <> 0 -> holds m p ((if neg : bool then [45] else []) ++ ds ++ [0]) ->
  Forall (fun c => digit_in 10 c = true) ds -> (length ds < fuel)%nat ->
  atoi fuel p ~{ m }~> s32 (if neg then - number_of 10 0 ds else number_of 10 0 ds); m.
Proof.
  intros Hp Hh Hd Hf. unfold atoi. rewrite (proj2 (Z.eqb_neq p NULL)) by done. destruct neg; cbn [app] in Hh.
  - apply holds_cons in Hh as [H1 H2]. run (ldb_run _ _ _ H1). cbn [Z.eqb Pos.eqb].
    run (atoi_loop_run ds fuel m (p + 1) 0 0 H2 Hd Hf eq_refl). unfold mret, M_ret. do 2 f_equal. wraplia.
  - assert (Hc : exists c, m !! p = Some c /\ c <> 45).
    { destruct ds as [|c ds]; cbn [app] in Hh; apply holds_cons in Hh as [H1 _]; [by exists 0|]. exists c. split; [done|].
      apply Forall_cons in Hd as [Hc _]. destruct (digit_in_inv 10 c Hc) as (_ & _ & _ & ?). lia. }
    destruct Hc as (c & H1 & Hc). run (ldb_run _ _ _ H1). rewrite (proj2 (Z.eqb_neq c 45)) by done. cbn [Z.eqb].
    run (atoi_loop_run ds fuel m p 0 0 Hh Hd Hf eq_refl). unfold mret, M_ret. do 2 f_equal. wraplia.
Qed.

(** *** [itoa] *)
Lemma reverse_run n : forall l m p, holds m p l -> bytes l -> (length l < 2 * n)%nat ->
  reverse_loop n p (p + len l - 1) ~{ m }~> tt; fill p (rev l) m.
Proof.
  induction n as [|n IH]; intros l m p Hh Hb Hn; [lia|]. cbn [reverse_loop].
  destruct l as [|x l]; [rewrite (proj2 (Z.ltb_ge _ _)) by (cbn; lia); done|].
  destruct l as [|y l _] using rev_ind.
  { rewrite (proj2 (Z.ltb_ge _ _)) by (cbn; lia). cbn. apply holds_cons in Hh as [H1 _]. by rewrite insert_id. }
  rewrite length_cons, length_app in *. cbn [length] in *. apply holds_cons in Hh as [H1 Hh]. apply holds_app in Hh as [H2 H3].
  apply holds_cons in H3 as [H3 _]. apply Forall_cons in Hb as [Hx Hb]. apply Forall_app in Hb as [Hb Hy]. apply Forall_cons in Hy as [Hy _].
  set (s := p + Z.of_nat (S (length l + 1)) - 1). assert (Hs : s = p + 1 + len l) by lia. rewrite <- Hs in H3.
  rewrite (proj2 (Z.ltb_lt _ _)) by lia. run (ldb_run _ _ _ H1). run (ldb_run _ _ _ H3). run (stb_run m p y ltac:(by eexists)).
  run (stb_run (<[p := u8 y]> m) s x ltac:(rewrite lookup_insert_ne by lia; by eexists)). rewrite !u8_small by done.
  replace (s - 1) with (p + 1 + len l - 1) by lia. rewrite IH; [|apply holds_insert; [lia|]; apply holds_insert; [lia|done]|done|lia].
  do 2 f_equal. cbn [rev]. rewrite rev_app_distr. cbn [rev app fill]. rewrite fill_app, length_rev. cbn [fill]. rewrite <- Hs.
  apply map_eq. intros a. rewrite fill_lookup, length_rev. destruct (decide (a = s)) as [->|Has].
  - rewrite lookup_insert_eq, decide_False by lia. by rewrite lookup_insert_eq.
  - rewrite !(lookup_insert_ne _ s a) by done. by rewrite fill_lookup, length_rev.
Qed.
Lemma itoa_loop_run n : forall k m p u base, 0 <= u < 2 ^ Z.of_nat n -> 2 <= base <= 10 -> (n < k)%nat ->
  room m p (len (digits_loop n _digits base u)) ->
  itoa_loop k p u base ~{ m }~> p + len (digits_loop n _digits base u); fill p (digits_loop n _digits base u) m.
Proof.
  induction n as [|n IH]; intros [|k] m p u base Hu Hb Hk Hr; try lia; cbn [itoa_loop digits_loop] in *.
  - assert (u = 0) by lia. subst u. cbn. by rewrite Z.add_0_r.
  - destruct (Z.eqb_spec u 0) as [->|Hne]; cbn [negb length fill] in *; [by rewrite Z.add_0_r|].
    rewrite (proj2 (Z.eqb_neq base 0)) by lia. pose proof (Z.mod_pos_bound u base ltac:(lia)) as Hm.
    assert (Hd : _digits (u mod base) = 48 + u mod base) by (unfold _digits; by rewrite (proj2 (Z.ltb_lt _ _)) by lia).
    rewrite Hd in *. run (stb_run m p (48 + u mod base) ltac:(apply Hr; lia)). rewrite u8_small by (unfold is_u8; lia).
    rewrite Nat2Z.inj_succ, Z.pow_succ_r in Hu by lia.
    rewrite IH; [do 2 f_equal; lia| |done|lia|apply room_insert; eapply room_sub; [done|lia..]].
    split; [apply Z.div_pos; lia|apply Z.div_lt_upper_bound; nia].
Qed.
Lemma digits_loop_length n dig base u : (length (digits_loop n dig base u) <= n)%nat.
Proof. revert u. induction n as [|n IH]; intros u; cbn; [lia|]. destruct (negb (u =? 0)); cbn; [specialize (IH (u / base)); lia|lia]. Qed.
Lemma digits_loop_bytes n base u : 2 <= base <= 36 -> 0 <= u < 2 ^ Z.of_nat n -> bytes (digits_loop n _digits base u).
Proof.
  intros Hb Hu. destruct (digits_loop_ok _digits base (or_introl eq_refl) Hb n u Hu) as (_ & H & _).
  apply digits_bytes in H. unfold bytes in *. rewrite <- (rev_involutive (digits_loop n _digits base u)). by apply Forall_rev.
Qed.
Lemma itoa_run fuel hex_fmt m p num base : is_u32 num -> 2 <= base <= 10 -> room m p 34 -> (34 <= fuel)%nat ->
  exists ds, itoa fuel hex_fmt p num base ~{ m }~> p; fill p (ds ++ [0]) m /\ number_of base 0 ds = num /\
    Forall (fun c => digit_in base c = true) ds /\ ds <> [] /\ (head ds = Some 48 -> ds = [48]) /\ (length ds <= 32)%nat.
Proof.
  intros Hnum Hb Hr Hf. exists (rev (if num =? 0 then [48] else digits_loop 32 _digits base num)).
  destruct (digits_head _digits base num (or_introl eq_refl) ltac:(lia) Hnum) as (D1 & D2 & D3 & D4). unfold itoa.
  rewrite (proj2 (Z.eqb_neq base 16)) by lia. split; [|split_and!; try done].
  - destruct (Z.eqb_spec num 0) as [->|Hne].
    + rewrite bind_assoc. run (stb_run m p 48 ltac:(apply Hr; lia)). rewrite bind_ret_l. destruct fuel as [|f]; [lia|]. cbn [itoa_loop Z.eqb negb].
      rewrite bind_ret_l. run (stb_run (<[p := u8 48]> m) (p + 1) 0 ltac:(apply room_insert with (p := p) (n := 34); [done|lia])).
      cbn [reverse_loop]. rewrite (proj2 (Z.ltb_ge p (p + 1 - 1))) by lia. done.
    + rewrite bind_ret_l. set (l := digits_loop 32 _digits base num).
      assert (Hl : (length l <= 32)%nat) by apply digits_loop_length.
      assert (Hloop : itoa_loop fuel p num base ~{ m }~> p + len l; fill p l m).
      { apply (itoa_loop_run 32); [exact Hnum|done|lia|]. eapply room_sub; [done|lia|]. fold l. lia. }
      run Hloop. run (stb_run (fill p l m) (p + len l) 0 ltac:(apply (fill_room p l m p 34); [done|lia])).
      assert (Hrev : reverse_loop fuel p (p + len l - 1) ~{ <[p + len l := u8 0]> (fill p l m) }~> tt;
        fill p (rev l) (<[p + len l := u8 0]> (fill p l m))).
      { apply reverse_run; [apply holds_insert; [lia|apply fill_holds]|apply digits_loop_bytes; [lia|exact Hnum]|lia]. }
      run Hrev. unfold mret, M_ret. do 2 f_equal. rewrite fill_app, length_rev. cbn [fill]. apply map_eq. intros a.
      rewrite fill_lookup, length_rev. change (u8 0) with 0. destruct (decide (a = p + len l)) as [->|Ha].
      * by rewrite decide_False, !lookup_insert_eq by lia.
      * rewrite !(lookup_insert_ne _ (p + len l) a) by done. rewrite !fill_lookup, length_rev. by case_decide.
  - rewrite length_rev. destruct (num =? 0); [cbn; lia|apply digits_loop_length].
Qed.

(** *** The text of [%d] *)
Lemma number_of_ge b cs : 2 <= b -> forall v, 0 <= v -> Forall (fun c => digit_in b c = true) cs -> v * b ^ len cs <= number_of b v cs.
Proof.
  intros Hb. induction cs as [|c cs IH]; intros v Hv Hcs; [cbn; lia|]. apply Forall_cons in Hcs as [Hc Hcs].
  destruct (digit_in_inv b c Hc) as (d & Hd & Hr & _). cbn [number_of foldl length]. rewrite Hd. cbn [default from_option id].
  rewrite Nat2Z.inj_succ, Z.pow_succ_r by lia. specialize (IH (v * b + d) ltac:(nia) Hcs). unfold number_of in IH.
  assert (0 < b ^ len cs) by (apply Z.pow_pos_nonneg; lia). nia.
Qed.
Lemma decimal_length ds : Forall (fun c => digit_in 10 c = true) ds -> (head ds = Some 48 -> ds = [48]) ->
  number_of 10 0 ds < 4294967296 -> (length ds <= 10)%nat.
Proof.
  intros Hds Hh Hv. destruct ds as [|c ds]; [cbn; lia|]. cbn in Hh. destruct (decide (c = 48)) as [->|Hne]; [rewrite (Hh eq_refl); cbn; lia|].
  apply Forall_cons in Hds as [Hc Hds]. destruct (digit_in_inv 10 c Hc) as (d & Hd & Hr & Hcr).
  assert (d <> 0).
  { intros ->. unfold digit_of, isdigit, isalpha, isupper in Hd. repeat case_match; simplify_eq; lia. }
  cbn [number_of foldl] in Hv. rewrite Hd in Hv. cbn [default from_option id] in Hv. fold (number_of 10 (0 * 10 + d) ds) in Hv.
  pose proof (number_of_ge 10 ds ltac:(lia) (0 * 10 + d) ltac:(lia) Hds). cbn [length].
  destruct (decide (length ds <= 9)%nat); [lia|]. pose proof (Z.pow_le_mono_r 10 10 (len ds) ltac:(lia) ltac:(lia)).
  change (10 ^ 10) with 10000000000 in *. nia.
Qed.
Lemma decimal_text w : is_u32 w -> exists ds, int_text 100 w = (if s32 w <? 0 then [45] else []) ++ ds /\
  number_of 10 0 ds = Z.abs (s32 w) /\ Forall (fun c => digit_in 10 c = true) ds /\ (length ds <= 10)%nat.
Proof.
  intros Hw. destruct (int_text_ok 100 w 10 FLAGS_SIGN eq_refl) as [_ Hl]. change (int_arg 0 FLAGS_SIGN w) with (s32 w) in Hl.
  destruct Hl as (left & sign & prefix & zeros & ds & right & -> & _ & _ & _ & Hs & Hp & Hv & Hd & Hne & Hh & _ & _ & _ & Hz & _ & Hlen).
  change (has FLAGS_SIGN FLAGS_SIGN) with true in *. change (has FLAGS_SIGN FLAGS_HASH) with false in *.
  change (has FLAGS_SIGN FLAGS_ZEROPAD) with false in *. change (has FLAGS_SIGN FLAGS_PLUS) with false in *.
  change (has FLAGS_SIGN FLAGS_SPACE) with false in *. cbv beta iota in *. specialize (Hz (or_introl eq_refl)). subst prefix.
  rewrite !length_app in *. cbn [length] in *. assert (left = []) as -> by (apply length_zero_iff_nil; lia).
  assert (right = []) as -> by (apply length_zero_iff_nil; lia). assert (zeros = []) as -> by (apply length_zero_iff_nil; lia).
  exists ds. cbn [app]. rewrite app_nil_r, Hs. split; [done|]. split; [done|]. split; [done|].
  apply decimal_length; [done|done|]. rewrite Hv. wraplia.
Qed.

(** ** The properties *)

(** The text of a number is blanks, the sign, the prefix of the base, zeros, the
    digits and blanks. The digits have the value of the number and no leading
    zero, the zeros fill up the precision, the text fills the field, and the
    padding is where the flags want it. *)
Theorem number_correct num base size precision flags m str : -2147483648 <= num < 2147483648 -> is_u32 flags -> 2 <= base <= 36 ->
  exists l, number_text num base size precision flags = Some l /\ number_layout num base size precision flags l /\
    (room m str (len l) -> exists m', number str num base size precision flags ~{ m }~> str + len l; m' /\ holds m' str l /\
      same_outside m m' str (len l)).
Proof.
  intros Hn Hf Hb. destruct (number_layout_ok num base size precision flags Hn Hf Hb) as (l & Hl & Hlay). exists l. split; [done|]. split; [done|].
  intros Hr. exists (fill str l m). unfold number. rewrite Hl.
  split; [by apply emit_run; [eapply layout_bytes|]|]. split; [apply fill_holds|apply fill_same].
Qed.

(** C37: [vsprintf] on a format of characters, [%%], [%c], [%s] and integer directives
    [%d], [%i], [%u], [%x], [%X] and [%o] writes the texts of its items, one after the
    other, and a terminator, returns their length, takes the arguments in order, and
    writes nowhere else. The text of an integer is its numeral ([numeral]): sign,
    digits of its value in the base and case of the directive, no leading zero. The
    directives have no flags, width, precision or qualifier; the strings of [%s] are
    not NULL, shorter than 2^32 and the fuel, and they and the format lie outside the
    buffer, whose [n] bytes have room for the result. *)
Theorem vsprintf_correct fuel m str fmt items n : Forall (item_ok m str n) items ->
  Forall (fun i => match i with IStr _ s => (length s < fuel)%nat | _ => True end) items ->
  cstr m fmt (fmt_of items) -> apart str n fmt (len (fmt_of items) + 1) -> room m str n -> (length items < fuel)%nat ->
  exists texts, Forall2 item_shows items texts /\ let out := List.concat texts in
    (len out < n -> exists m', vsprintf fuel str fmt (args_of items) ~{ m }~> len out; m' /\ holds m' str (out ++ [0]) /\
       same_outside m m' str (len out + 1)).
Proof.
  intros Hok Hfu Hfmt Hap Hr Hf. exists (item_text <$> items). split.
  { apply Forall2_fmap_r, Forall_Forall2_diag. eapply Forall_impl; [exact Hok|]. intros i. apply item_shows_text. }
  fold (text_of items). intros out Hlen.
  pose proof (vsprintf_loop_run fuel str n items fuel m str fmt Hok Hfu Hfmt Hap ltac:(lia) ltac:(fold out; lia) Hr Hf ltac:(lia)) as Hloop.
  fold out in Hloop. exists (fill str (out ++ [0]) m). split; [|split; [apply fill_holds|]].
  - unfold vsprintf. run Hloop. run (stb_run (fill str out m) (str + len out) 0 ltac:(apply (fill_room str out m str n); [done|lia])).
    rewrite fill_app. cbn [fill]. unfold mret, M_ret. do 2 f_equal. lia.
  - eapply same_weaken; [apply fill_same|lia|]. rewrite length_app. cbn [length]. lia.
Qed.

(** A number that is printed can be read back: [atoi] returns the argument of
    [sprintf] with [%d], and the number given to [itoa] in base 10, both as a
    signed number. *)
Theorem decimal_roundtrip fuel hex_fmt m str fmt w : is_u32 w -> str <> 0 -> cstr m fmt [37; 100] -> apart str 36 fmt 3 ->
  room m str 36 -> (40 <= fuel)%nat ->
  (exists n m', sprintf fuel str fmt [w] ~{ m }~> n; m' /\ atoi fuel str ~{ m' }~> s32 w; m') /\
  (exists m', itoa fuel hex_fmt str w 10 ~{ m }~> str; m' /\ atoi fuel str ~{ m' }~> s32 w; m').
Proof.
  intros Hw Hs Hfmt Hap Hr Hf. split.
  - destruct (decimal_text w Hw) as (ds & Htext & Hval & Hds & Hlen). unfold apart in Hap.
    assert (Hout : len (text_of [IInt 100 w]) + 1 <= 36).
    { unfold text_of. cbn [fmap list_fmap List.concat item_text]. rewrite app_nil_r, Htext, length_app. destruct (s32 w <? 0); cbn [length]; lia. }
    pose proof (vsprintf_loop_run fuel str 36 [IInt 100 w] fuel m str fmt) as Hloop.
    unfold sprintf, vsprintf. change [w] with (args_of [IInt 100 w]). eexists _, _. split.
    + run (Hloop ltac:(by repeat constructor; eexists) ltac:(by repeat constructor) Hfmt ltac:(unfold apart; cbn; lia) ltac:(lia) ltac:(lia) Hr ltac:(cbn; lia) ltac:(lia)).
      run (stb_run (fill str (text_of [IInt 100 w]) m) (str + len (text_of [IInt 100 w])) 0 ltac:(apply (fill_room str _ m str 36); [done|lia])).
      reflexivity.
    + set (out := text_of [IInt 100 w]) in *. change (u8 0) with 0.
      assert (Hh : holds (<[str + len out := 0]> (fill str out m)) str ((if s32 w <? 0 then [45] else []) ++ ds ++ [0])).
      { rewrite app_assoc, <- Htext. apply holds_app. assert (int_text 100 w = out) as -> by (unfold out, text_of; cbn; by rewrite app_nil_r).
        split; [apply holds_insert; [lia|apply fill_holds]|]. apply holds_cons. split; [apply lookup_insert_eq|apply holds_nil]. }
      rewrite (atoi_run fuel _ str (s32 w <? 0) ds Hs Hh Hds ltac:(lia)). rewrite Hval. do 2 f_equal.
      destruct (Z.ltb_spec (s32 w) 0); wraplia.
  - destruct (itoa_run fuel hex_fmt m str w 10 Hw ltac:(lia) ltac:(eapply room_sub; [done|lia..]) ltac:(lia))
      as (ds & Hrun & Hval & Hds & _ & _ & Hlen). eexists. split; [exact Hrun|].
    rewrite (atoi_run fuel _ str false ds Hs (fill_holds _ _ _) Hds ltac:(lia)). by rewrite Hval.
Qed.

(** ** Concrete formats

    "%d%% of %s" at 100, "%d" at 120, "hos" at 140, and 64 bytes of room at 200. *)
Definition demo_formats : mem :=
  fill 200 (replicate 64 0) (put_text 140 "hos" (put_text 120 "%d" (put_text 100 "%d%% of %s" ∅))).
Definition demo_items : list item := [IInt 100 4294967254; IPercent; ILit 32; ILit 111; ILit 102; ILit 32; IStr 140 (text "hos")].

Lemma vsprintf_correct_witness : exists ds m', vsprintf 50 200 100 [4294967254; 140] ~{ demo_formats }~> 9 + len ds; m' /\
  holds m' 200 (([45] ++ ds) ++ text "% of hos" ++ [0]) /\ number_of 10 0 ds = 42.
Proof.
  destruct (vsprintf_correct 50 demo_formats 200 100 demo_items 30) as (texts & Ht & Hrun).
  - unfold demo_items. constructor; [exists (10, 64); reflexivity|]. constructor; [exact I|]. do 4 (constructor; [cbn; lia|]).
    constructor; [|constructor]. split; [lia|]. split; [apply check_cstr_ok; vm_compute; reflexivity|]. vm_compute.
    split; [right; congruence|congruence].
  - unfold demo_items. repeat constructor.
  - apply check_cstr_ok. vm_compute. reflexivity.
  - right. vm_compute. congruence.
  - apply (check_room_ok _ 200 30). vm_compute. reflexivity.
  - cbn. lia.
  - unfold demo_items in Ht. repeat match goal with H : Forall2 _ (_ :: _) _ |- _ => apply Forall2_cons_inv_l in H as (? & ? & ? & H & ->) end.
    apply Forall2_nil_inv_l in Ht as ->. cbn [item_shows] in *. subst.
    match goal with H : context [numeral] |- _ => destruct H as (ds & -> & Hv & Hds & _ & Hz) end. change (s32 4294967254) with (-42) in *.
    change (-42 <? 0) with true in *. cbv iota in *. exists ds.
    assert (Hl : (length ds <= 10)%nat).
    { apply decimal_length; [|done|rewrite Hv; reflexivity]. eapply Forall_impl; [exact Hds|]. intros c Hc. apply Hc. }
    destruct Hrun as (m' & Hr & Hh & _); [cbn; rewrite !length_app; cbn; lia|]. exists m'. split; [|split; [|exact Hv]].
    + replace (9 + len ds) with (len (List.concat ((([45] ++ ds) :: [[37]; [32]; [111]; [102]; [32]; text "hos"])))); [exact Hr|].
      cbn. rewrite !length_app. cbn. lia.
    + replace (text "% of hos") with (List.concat [[37]; [32]; [111]; [102]; [32]; text "hos"]) by reflexivity.
      rewrite app_assoc. exact Hh.
Defined.
(** -42 in base 16 with 0x, filled up with zeros to 12 characters. *)
Lemma number_correct_witness : exists l m', number 200 (-42) 16 12 (-1) 17 ~{ demo_formats }~> 200 + len l; m' /\
  number_layout (-42) 16 12 (-1) 17 l /\ holds m' 200 l.
Proof.
  destruct (number_correct (-42) 16 12 (-1) 17 demo_formats 200) as (l & Hl & Hlay & Hrun); [lia|vm_compute; split; congruence|lia|].
  exists l. destruct Hrun as (m' & Hr & Hh & _).
  - vm_compute in Hl. injection Hl as <-. apply (check_room_ok demo_formats 200 12). vm_compute. reflexivity.
  - exists m'. split; [exact Hr|]. split; [exact Hlay|exact Hh].
Defined.
Lemma decimal_roundtrip_witness : exists n m', sprintf 50 200 120 [2147483648] ~{ demo_formats }~> n; m' /\
  atoi 50 200 ~{ m' }~> -2147483648; m'.
Proof.
  destruct (decimal_roundtrip 50 0 demo_formats 200 120 2147483648) as [(n & m' & Hr & Ha) _].
  - vm_compute. split; congruence.
  - lia.
  - apply check_cstr_ok. vm_compute. reflexivity.
  - right. vm_compute. congruence.
  - apply (check_room_ok _ 200 36). vm_compute. reflexivity.
  - lia.
  - exists n, m'. split; [exact Hr|exact Ha].
Defined.

(** [dec_to_binary] does not terminate its string: after a longer number, a shorter
    one shows the rest of it. *)
Example dec_to_binary_leftover : exists m1 m2, dec_to_binary 200 255 8 ~{ demo_formats }~> 200; m1 /\
  dec_to_binary 200 1 2 ~{ m1 }~> 200; m2 /\ cstr m2 200 (text "01111111").
Proof.
  eexists _, _. split; [vm_compute; reflexivity|]. split; [vm_compute; reflexivity|]. apply check_cstr_ok. vm_compute. reflexivity.
Qed.
End Format.
