(* ===== verification/ListHead.v ===== *)
(** * Circular doubly linked lists (include/kernel/list_head.h)

    The kernel threads its tasks, siblings, timers and wait queues on lists whose
    links are embedded in the objects. The model keeps the two links of every
    node in a store and follows them as the code does; a node outside the store
    is a fault. A store holds a [ring] when the links of its nodes form one cycle,
    and [is_list h xs] says that [h] is the head of the list [xs]. Every operation
    is specified on rings and is shown to leave the other nodes alone. *)

From S2P Require Import Prelude.

Module ListHead.

(** ** The store of links *)
Record node : Type := Node { n_prev : Z; n_next : Z }.
Notation store := (gmap Z node).

Definition get_next (p : Z) : M store Z := getsome (FPtr p) (fun s => n_next <$> s !! p).
Definition get_prev (p : Z) : M store Z := getsome (FPtr p) (fun s => n_prev <$> s !! p).
Definition set_next (p q : Z) : M store unit := fun s =>
  match s !! p with Some n => Ok (tt, <[p := Node (n_prev n) q]> s) | None => Err (FPtr p) end.
Definition set_prev (p q : Z) : M store unit := fun s =>
  match s !! p with Some n => Ok (tt, <[p := Node q (n_next n)]> s) | None => Err (FPtr p) end.

(** ** The operations *)
Definition list_head_init (head : Z) : M store unit :=
  set_prev head head ;; set_next head head.

Definition list_head_empty (head : Z) : M store bool :=
  n ← get_next head; mret (n =? head).

(** [list_for_each]: a walk that has not come back to [head] after as many steps
    as there are nodes never does. *)
Fixpoint for_each_loop {S A B} (fuel : nat) (rd_next : Z -> M S Z) (head pos : Z)
    (body : Z -> A -> M S (A + B)) (acc : A) : M S (A + B) :=
  match fuel with
  | O => fail FLoop
  | Datatypes.S fuel =>
      if pos =? head then mret (inl acc)
      else r ← body pos acc;
           match r with
           | inl acc => nx ← rd_next pos; for_each_loop fuel rd_next head nx body acc
           | inr b => mret (inr b)
           end
  end.

Definition list_for_each {A B} (head : Z) (body : Z -> A -> M store (A + B)) (acc : A) : M store (A + B) :=
  fuel ← gets (fun s => S (S (size s)));
  first ← get_next head;
  for_each_loop fuel get_next head first body acc.

(** [list_for_each_safe]: the node after the current one is read before the body
    runs. *)
Fixpoint for_each_safe_loop {S A B} (fuel : nat) (rd_next : Z -> M S Z) (head pos store : Z)
    (body : Z -> A -> M S (A + B)) (acc : A) : M S (A + B) :=
  match fuel with
  | O => fail FLoop
  | Datatypes.S fuel =>
      if pos =? head then mret (inl acc)
      else r ← body pos acc;
           match r with
           | inl acc => nx ← rd_next store; for_each_safe_loop fuel rd_next head store nx body acc
           | inr b => mret (inr b)
           end
  end.

Definition list_head_size (head : Z) : M store Z :=
  e ← list_head_empty head;
  if (e : bool) then mret 0
  else r ← list_for_each (B := Z) head (fun _ size => mret (inl (u32 (size + 1)))) 0;
       match r with inl size => mret size | inr size => mret size end.

Definition list_head_insert_after (new_entry location : Z) : M store unit :=
  old_next ← get_next location;
  set_next location new_entry ;;
  set_prev new_entry location ;;
  set_next new_entry old_next ;;
  set_prev old_next new_entry.

Definition list_head_insert_before (new_entry location : Z) : M store unit :=
  old_prev ← get_prev location;
  set_next old_prev new_entry ;;
  set_prev new_entry old_prev ;;
  set_next new_entry location ;;
  set_prev location new_entry.

Definition list_head_remove (entry : Z) : M store unit :=
  e ← list_head_empty entry;
  if (e : bool) then mret tt
  else
    p ← get_prev entry; n ← get_next entry; set_next p n ;;
    n ← get_next entry; p ← get_prev entry; set_prev n p ;;
    list_head_init entry.

Definition list_head_pop (head : Z) : M store Z :=
  e ← list_head_empty head;
  if (e : bool) then mret NULL
  else value ← get_next head;
       n ← get_next head; list_head_remove n ;;
       mret value.

Definition list_head_append (main secondary : Z) : M store unit :=
  em ← list_head_empty main;
  es ← (if (em : bool) then mret true else list_head_empty secondary);
  if (es : bool) then mret tt
  else
    p ← get_prev main; n ← get_next secondary; set_next p n ;;
    n ← get_next secondary; p ← get_prev main; set_prev n p ;;
    p ← get_prev secondary; set_next p main ;;
    p ← get_prev secondary; set_prev main p ;;
    list_head_init secondary.

(** ** Links *)
Definition next_of (s : store) (p : Z) : option Z := n_next <$> s !! p.
Definition prev_of (s : store) (p : Z) : option Z := n_prev <$> s !! p.

Definition upd_next (p q : Z) (s : store) : store := alter (fun n => Node (n_prev n) q) p s.
Definition upd_prev (p q : Z) (s : store) : store := alter (fun n => Node q (n_next n)) p s.

Lemma get_next_ok s p q : next_of s p = Some q -> get_next p ~{ s }~> q; s.
Proof. intros H. unfold get_next, getsome. unfold next_of in H. by rewrite H. Qed.
Lemma get_prev_ok s p q : prev_of s p = Some q -> get_prev p ~{ s }~> q; s.
Proof. intros H. unfold get_prev, getsome. unfold prev_of in H. by rewrite H. Qed.
Lemma set_next_ok s p q : is_Some (s !! p) -> set_next p q ~{ s }~> tt; upd_next p q s.
Proof.
  intros [n Hn]. unfold set_next, upd_next. rewrite Hn. do 2 f_equal.
  symmetry. apply map_eq. intros x. destruct (decide (x = p)) as [->|Hne].
  - by rewrite lookup_alter_eq, lookup_insert_eq, Hn.
  - by rewrite lookup_alter_ne, lookup_insert_ne.
Qed.
Lemma set_prev_ok s p q : is_Some (s !! p) -> set_prev p q ~{ s }~> tt; upd_prev p q s.
Proof.
  intros [n Hn]. unfold set_prev, upd_prev. rewrite Hn. do 2 f_equal.
  symmetry. apply map_eq. intros x. destruct (decide (x = p)) as [->|Hne].
  - by rewrite lookup_alter_eq, lookup_insert_eq, Hn.
  - by rewrite lookup_alter_ne, lookup_insert_ne.
Qed.

Lemma upd_next_next s p q x : is_Some (s !! p) -> next_of (upd_next p q s) x = if decide (x = p) then Some q else next_of s x.
Proof.
  intros [n Hn]. unfold next_of, upd_next. destruct (decide (x = p)) as [->|].
  - by rewrite lookup_alter_eq, Hn.
  - by rewrite lookup_alter_ne.
Qed.
Lemma upd_next_prev s p q x : prev_of (upd_next p q s) x = prev_of s x.
Proof.
  unfold prev_of, upd_next. destruct (decide (x = p)) as [->|].
  - rewrite lookup_alter_eq. by destruct (s !! p).
  - by rewrite lookup_alter_ne.
Qed.
Lemma upd_prev_prev s p q x : is_Some (s !! p) -> prev_of (upd_prev p q s) x = if decide (x = p) then Some q else prev_of s x.
Proof.
  intros [n Hn]. unfold prev_of, upd_prev. destruct (decide (x = p)) as [->|].
  - by rewrite lookup_alter_eq, Hn.
  - by rewrite lookup_alter_ne.
Qed.
Lemma upd_prev_next s p q x : next_of (upd_prev p q s) x = next_of s x.
Proof.
  unfold next_of, upd_prev. destruct (decide (x = p)) as [->|].
  - rewrite lookup_alter_eq. by destruct (s !! p).
  - by rewrite lookup_alter_ne.
Qed.
Lemma upd_next_some s p q x : is_Some (upd_next p q s !! x) <-> is_Some (s !! x).
Proof. unfold upd_next. destruct (decide (x = p)) as [->|]; [rewrite lookup_alter_eq|by rewrite lookup_alter_ne]. by rewrite fmap_is_Some. Qed.
Lemma upd_prev_some s p q x : is_Some (upd_prev p q s !! x) <-> is_Some (s !! x).
Proof. unfold upd_prev. destruct (decide (x = p)) as [->|]; [rewrite lookup_alter_eq|by rewrite lookup_alter_ne]. by rewrite fmap_is_Some. Qed.
Lemma upd_next_ne s p q x : x <> p -> upd_next p q s !! x = s !! x.
Proof. intros. by apply lookup_alter_ne. Qed.
Lemma upd_prev_ne s p q x : x <> p -> upd_prev p q s !! x = s !! x.
Proof. intros. by apply lookup_alter_ne. Qed.
Lemma next_some s p q : next_of s p = Some q -> is_Some (s !! p).
Proof. unfold next_of. by intros (n & -> & _)%fmap_Some. Qed.
Lemma prev_some s p q : prev_of s p = Some q -> is_Some (s !! p).
Proof. unfold prev_of. by intros (n & -> & _)%fmap_Some. Qed.

(** ** Rings *)
Definition edge (s : store) (a b : Z) : Prop := next_of s a = Some b /\ prev_of s b = Some a.

(** From [a] through [l] to [b]. *)
Fixpoint path (s : store) (a : Z) (l : list Z) (b : Z) : Prop :=
  match l with [] => edge s a b | x :: l => edge s a x /\ path s x l b end.

Definition ring (s : store) (l : list Z) : Prop :=
  match l with [] => True | a :: l' => path s a l' a /\ NoDup l end.

Definition is_list (s : store) (h : Z) (xs : list Z) : Prop := ring s (h :: xs).

Lemma path_app s a l1 x l2 b : path s a (l1 ++ x :: l2) b <-> path s a l1 x /\ path s x l2 b.
Proof. revert a. induction l1 as [|y l1 IH]; intros a; simpl; [done|]. rewrite IH. tauto. Qed.

Lemma ring_rotate s a l : ring s (a :: l) -> ring s (l ++ [a]).
Proof.
  intros [Hp Hnd]. destruct l as [|b l]; [done|]. destruct Hp as [He Hp].
  split; [|by rewrite Permutation_app_comm]. apply path_app. done.
Qed.
Lemma ring_app s l1 l2 : ring s (l1 ++ l2) -> ring s (l2 ++ l1).
Proof.
  revert l2. induction l1 as [|a l1 IH]; intros l2 H; [by rewrite app_nil_r|].
  rewrite (cons_middle a), app_assoc. apply IH. rewrite app_assoc.
  by apply ring_rotate in H.
Qed.
Lemma ring_nodup s l : ring s l -> NoDup l.
Proof. destruct l; [constructor|]. by intros []. Qed.

Lemma path_ext s s' l : forall a b, (forall x, x ∈ a :: l -> next_of s' x = next_of s x) ->
  (forall x, x ∈ l ++ [b] -> prev_of s' x = prev_of s x) -> path s a l b -> path s' a l b.
Proof.
  induction l as [|x l IH]; intros a b Hn Hp H; simpl in *.
  - destruct H as [H1 H2]. split; [rewrite Hn by set_solver; done|rewrite Hp by set_solver; done].
  - destruct H as [[H1 H2] H3]. split; [split; [rewrite Hn by set_solver; done|rewrite Hp by set_solver; done]|].
    apply IH; [intros y Hy; apply Hn; set_solver|intros y Hy; apply Hp; set_solver|done].
Qed.

(** Nodes outside a ring do not matter. *)
Lemma ring_frame s s' l : (forall x, x ∈ l -> s' !! x = s !! x) -> ring s l -> ring s' l.
Proof.
  intros He. destruct l as [|a l]; [done|]. intros [Hp Hnd]. split; [|done].
  apply path_ext with s; [|..|done]; intros x Hx; unfold next_of, prev_of; rewrite He; set_solver.
Qed.

Lemma path_some s a l b x : path s a l b -> x ∈ a :: l -> is_Some (s !! x).
Proof.
  revert a. induction l as [|y l IH]; intros a Hp Hx; simpl in Hp.
  - apply list_elem_of_singleton in Hx as ->. by eapply next_some, Hp.
  - destruct Hp as [[He _] Hp]. apply elem_of_cons in Hx as [->|Hx]; [by eapply next_some|]. by eapply IH.
Qed.
Lemma ring_some s l x : ring s l -> x ∈ l -> is_Some (s !! x).
Proof. destruct l as [|a l]; [set_solver|]. intros [Hp _]. by eapply path_some. Qed.

(** The first and last links of a ring. *)
Lemma ring_first s a l : ring s (a :: l) -> next_of s a = Some (hd a l) /\ prev_of s (hd a l) = Some a.
Proof. intros [Hp _]. destruct l as [|b l]; simpl in *; [done|]. apply Hp. Qed.
Lemma ring_last s a l : ring s (a :: l) -> prev_of s a = Some (List.last l a) /\ next_of s (List.last l a) = Some a.
Proof.
  intros H. destruct l as [|b l _] using rev_ind; [by destruct H as [[? ?] _]|].
  rewrite List.last_last. destruct H as [H _]. apply path_app in H as [_ [H1 H2]]. done.
Qed.

(** ** What the operations do *)
Lemma init_run s h : is_Some (s !! h) -> exists s', list_head_init h ~{ s }~> tt; s' /\ ring s' [h] /\
  (forall x, x <> h -> s' !! x = s !! x) /\ (forall x, is_Some (s' !! x) <-> is_Some (s !! x)).
Proof.
  intros Hs. unfold list_head_init. rewrite (bind_ok _ _ _ _ _ (set_prev_ok s h h Hs)).
  assert (Hs1 : is_Some (upd_prev h h s !! h)) by (by apply upd_prev_some).
  exists (upd_next h h (upd_prev h h s)). split; [by apply set_next_ok|]. split.
  - split; [|apply NoDup_singleton]. split; [rewrite upd_next_next|rewrite upd_next_prev, upd_prev_prev]; try done;
      by rewrite decide_True.
  - split; [intros x Hx; by rewrite upd_next_ne, upd_prev_ne|intros x; by rewrite upd_next_some, upd_prev_some].
Qed.

Lemma empty_run s h xs : is_list s h xs -> list_head_empty h ~{ s }~> bool_decide (xs = []); s.
Proof.
  intros H. unfold list_head_empty. rewrite (bind_ok _ _ _ _ _ (get_next_ok _ _ _ (proj1 (ring_first _ _ _ H)))).
  unfold is_list in H. apply ring_nodup in H. unfold mret, M_ret. do 2 f_equal. destruct xs as [|x xs]; simpl.
  - by rewrite Z.eqb_refl.
  - apply Z.eqb_neq. intros ->. apply NoDup_cons in H as [H _]. set_solver.
Qed.

(** Linking [n] between the last and the first node of a ring that starts at
    [h]: the four assignments of an insertion, in any order. *)
Lemma ring_insert s s' h l n : ring s (h :: l) -> n ∉ h :: l ->
  (forall x, next_of s' x = if decide (x = n) then Some h else if decide (x = List.last l h) then Some n else next_of s x) ->
  (forall x, prev_of s' x = if decide (x = n) then Some (List.last l h) else if decide (x = h) then Some n else prev_of s x) ->
  ring s' (h :: l ++ [n]).
Proof.
  intros H Hn Hnx Hpv. pose proof (ring_nodup _ _ H) as Hnd.
  assert (Hnd' : NoDup (h :: l ++ [n])).
  { rewrite app_comm_cons, (Permutation_app_comm (h :: l) [n]). by apply NoDup_cons. }
  assert (Hlast : List.last l h ∈ h :: l).
  { destruct l as [|b l _] using rev_ind; [set_solver|]. rewrite List.last_last. set_solver. }
  split; [|done]. apply path_app. split.
  - destruct l as [|b l _] using rev_ind.
    + simpl in *. split; [rewrite Hnx|rewrite Hpv]; rewrite ?(decide_True (P := n = n)), ?decide_True by done; [|done].
      rewrite decide_False by set_solver. by rewrite decide_True.
    + rewrite List.last_last in *. destruct H as [H _]. apply path_app in H as [H _]. apply path_app. split.
      * apply path_ext with s; [| |done].
        -- intros x Hx. rewrite Hnx, !decide_False; [done| |set_solver].
           intros ->. rewrite app_comm_cons in Hnd. apply NoDup_app in Hnd as (_ & Hd & _). apply (Hd b Hx). set_solver.
        -- intros x Hx. rewrite Hpv, !decide_False; [done| |set_solver].
           intros ->. apply NoDup_cons in Hnd as [Hnd _]. set_solver.
      * split; [rewrite Hnx|rewrite Hpv]; [rewrite decide_False by set_solver; by rewrite decide_True|by rewrite decide_True].
  - split; [rewrite Hnx; by rewrite decide_True|].
    rewrite Hpv, decide_False by set_solver. by rewrite decide_True.
Qed.

(** Unlinking the first node of a ring. *)
Lemma ring_unlink s s' e l : ring s (e :: l) ->
  (forall x, x ∈ l -> next_of s' x = if decide (x = List.last l e) then Some (hd e l) else next_of s x) ->
  (forall x, x ∈ l -> prev_of s' x = if decide (x = hd e l) then Some (List.last l e) else prev_of s x) ->
  ring s' l.
Proof.
  intros H Hnx Hpv. destruct l as [|a l]; [done|]. pose proof (ring_nodup _ _ H) as Hnd.
  apply NoDup_cons in Hnd as [He Hnd]. split; [|done]. destruct H as [[_ H] _]. simpl hd in *.
  destruct l as [|b l _] using rev_ind.
  - simpl in *. split; [rewrite Hnx by set_solver|rewrite Hpv by set_solver]; by rewrite decide_True.
  - replace (List.last (a :: l ++ [b]) e) with b in * by (rewrite app_comm_cons, List.last_last; done).
    apply path_app in H as [H _]. apply path_app. split.
    + apply path_ext with s; [| |done].
      * intros x Hx. rewrite Hnx by set_solver. rewrite decide_False; [done|]. intros ->.
        rewrite app_comm_cons in Hnd. apply NoDup_app in Hnd as (_ & Hd & _). apply (Hd b Hx). set_solver.
      * intros x Hx. rewrite Hpv by set_solver. rewrite decide_False; [done|]. intros ->.
        apply NoDup_cons in Hnd as [Hnd _]. done.
    + split; [rewrite Hnx by set_solver|rewrite Hpv by set_solver]; by rewrite decide_True.
Qed.

(** Evaluation of the links after a sequence of updates. *)
Ltac links_some := repeat first [rewrite upd_next_some | rewrite upd_prev_some]; eassumption.
Ltac links := repeat first
  [ rewrite upd_next_next by links_some | rewrite upd_next_prev
  | rewrite upd_prev_prev by links_some | rewrite upd_prev_next ].

(** One assignment of a link. *)
Ltac assign :=
  match goal with
  | |- context [(set_next ?p ?q ≫= ?k) ?s] => rewrite (bind_ok (set_next p q) k s _ _ (set_next_ok s p q ltac:(links_some)))
  | |- context [(set_prev ?p ?q ≫= ?k) ?s] => rewrite (bind_ok (set_prev p q) k s _ _ (set_prev_ok s p q ltac:(links_some)))
  end; cbv beta.

Lemma last_in (l : list Z) h : List.last l h ∈ h :: l.
Proof. destruct l as [|b l _] using rev_ind; [set_solver|]. rewrite List.last_last. set_solver. Qed.
Lemma hd_in (l : list Z) h : hd h l ∈ h :: l.
Proof. destruct l; set_solver. Qed.

(** Insertion before the first node of a ring: at the end of the list when that
    node is its head. *)
Lemma insert_before_run s h l n : ring s (h :: l) -> n ∉ h :: l -> is_Some (s !! n) ->
  exists s', list_head_insert_before n h ~{ s }~> tt; s' /\ ring s' (h :: l ++ [n]) /\
    (forall x, x ∉ n :: h :: l -> s' !! x = s !! x) /\ (forall x, is_Some (s' !! x) <-> is_Some (s !! x)).
Proof.
  intros H Hn Hsn. pose proof (ring_last _ _ _ H) as [Hlast _]. pose proof (last_in l h) as Hlin.
  pose proof (ring_some _ _ _ H Hlin) as Hsl. pose proof (ring_some _ _ h H ltac:(set_solver)) as Hsh.
  unfold list_head_insert_before. rewrite (bind_ok _ _ _ _ _ (get_prev_ok _ _ _ Hlast)).
  do 3 assign.
  eexists. split; [by apply set_prev_ok; links_some|]. split; [|split].
  - apply (ring_insert s); [done|done|intros x..]; links; [done|].
    destruct (decide (x = h)), (decide (x = n)); try done. subst. set_solver.
  - intros x Hx. rewrite upd_prev_ne, upd_next_ne, upd_prev_ne, upd_next_ne; set_solver.
  - intros x. by rewrite upd_prev_some, upd_next_some, upd_prev_some, upd_next_some.
Qed.

Lemma insert_after_run s h l n : ring s (h :: l) -> n ∉ h :: l -> is_Some (s !! n) ->
  exists s', list_head_insert_after n h ~{ s }~> tt; s' /\ ring s' (h :: n :: l) /\
    (forall x, x ∉ n :: h :: l -> s' !! x = s !! x) /\ (forall x, is_Some (s' !! x) <-> is_Some (s !! x)).
Proof.
  intros H Hn Hsn. pose proof (ring_first _ _ _ H) as [Hfirst _]. pose proof (hd_in l h) as Hhin.
  pose proof (ring_some _ _ _ H Hhin) as Hsf. pose proof (ring_some _ _ h H ltac:(set_solver)) as Hsh.
  unfold list_head_insert_after. rewrite (bind_ok _ _ _ _ _ (get_next_ok _ _ _ Hfirst)).
  do 3 assign.
  eexists. split; [by apply set_prev_ok; links_some|]. split; [|split].
  - apply (ring_app _ (n :: l) [h]). destruct l as [|b l].
    + simpl. apply (ring_app _ [h] [n]). apply (ring_insert s _ h []); [done|done|intros x..]; links; simpl in *; [done|].
      destruct (decide (x = h)), (decide (x = n)); try done. subst. set_solver.
    + apply ring_rotate in H. simpl in *. apply (ring_app _ (b :: l ++ [h]) [n]).
      apply (ring_insert s _ b (l ++ [h])); [done|set_solver|intros x..]; rewrite List.last_last; links; [done|].
      destruct (decide (x = b)), (decide (x = n)); try done. subst. set_solver.
  - intros x Hx. rewrite upd_prev_ne, upd_next_ne, upd_prev_ne, upd_next_ne; set_solver.
  - intros x. by rewrite upd_prev_some, upd_next_some, upd_prev_some, upd_next_some.
Qed.

Lemma remove_run s e l : ring s (e :: l) ->
  exists s', list_head_remove e ~{ s }~> tt; s' /\ ring s' l /\ ring s' [e] /\
    (forall x, x ∉ e :: l -> s' !! x = s !! x) /\ (forall x, is_Some (s' !! x) <-> is_Some (s !! x)).
Proof.
  intros H. unfold list_head_remove. rewrite (bind_ok _ _ _ _ _ (empty_run _ _ _ H)).
  case_bool_decide as Hl; [subst l; by exists s|].
  pose proof (ring_first _ _ _ H) as [Hfirst _]. pose proof (ring_last _ _ _ H) as [Hlast _].
  pose proof (ring_nodup _ _ H) as Hnd. apply NoDup_cons in Hnd as [He Hnd].
  assert (Hlin : List.last l e ∈ l) by (destruct l as [|b l _] using rev_ind; [done|rewrite List.last_last; set_solver]).
  assert (Hhin : hd e l ∈ l) by (destruct l; [done|set_solver]).
  pose proof (ring_some _ _ e H ltac:(set_solver)) as Hse.
  pose proof (ring_some _ _ (List.last l e) H ltac:(set_solver)) as Hsl.
  pose proof (ring_some _ _ (hd e l) H ltac:(set_solver)) as Hsh.
  rewrite (bind_ok _ _ _ _ _ (get_prev_ok _ _ _ Hlast)), (bind_ok _ _ _ _ _ (get_next_ok _ _ _ Hfirst)).
  rewrite (bind_ok _ _ _ _ _ (set_next_ok _ _ (hd e l) Hsl)).
  set (s1 := upd_next (List.last l e) (hd e l) s).
  assert (Hn1 : next_of s1 e = Some (hd e l)) by (unfold s1; links; rewrite decide_False; [done|intros Heq; by rewrite <- Heq in Hlin]).
  assert (Hp1 : prev_of s1 e = Some (List.last l e)) by (unfold s1; by links).
  rewrite (bind_ok _ _ _ _ _ (get_next_ok _ _ _ Hn1)), (bind_ok _ _ _ _ _ (get_prev_ok _ _ _ Hp1)).
  rewrite (bind_ok _ _ _ _ _ (set_prev_ok s1 (hd e l) (List.last l e) ltac:(unfold s1; links_some))).
  destruct (init_run (upd_prev (hd e l) (List.last l e) s1) e) as (s' & Hrun & Hre & Hfr & Hdom);
    [unfold s1; links_some|].
  exists s'. split; [done|]. split_and!; [|done| |].
  - apply ring_frame with (upd_prev (hd e l) (List.last l e) s1); [intros x Hx; apply Hfr; set_solver|].
    apply (ring_unlink s _ e l H); intros x Hx; unfold s1; links; done.
  - intros x Hx. unfold s1 in Hfr. rewrite Hfr, upd_prev_ne, upd_next_ne; set_solver.
  - intros x. unfold s1 in Hdom. by rewrite Hdom, upd_prev_some, upd_next_some.
Qed.

Lemma pop_run s h xs : is_list s h xs ->
  match xs with
  | [] => list_head_pop h ~{ s }~> NULL; s
  | x :: xs => exists s', list_head_pop h ~{ s }~> x; s' /\ is_list s' h xs /\ ring s' [x] /\
      (forall y, y ∉ h :: x :: xs -> s' !! y = s !! y)
  end.
Proof.
  intros H. unfold list_head_pop. pose proof (empty_run _ _ _ H) as He.
  pose proof (ring_first _ _ _ H) as [Hf _]. destruct xs as [|x xs].
  - by rewrite (bind_ok _ _ _ _ _ He).
  - destruct (remove_run s x (xs ++ [h])) as (s' & Hrun & Hr & Hr1 & Hfr & _).
    { apply (ring_app s [h] (x :: xs)). exact H. }
    exists s'. rewrite (bind_ok _ _ _ _ _ He). cbv iota beta.
    rewrite bool_decide_eq_false_2 by done.
    rewrite (bind_ok _ _ _ _ _ (get_next_ok _ _ _ Hf)), (bind_ok _ _ _ _ _ (get_next_ok _ _ _ Hf)). simpl hd.
    rewrite (bind_ok _ _ _ _ _ Hrun). split; [done|]. split; [by apply (ring_app s' xs [h])|].
    split; [done|]. intros y Hy. apply Hfr. set_solver.
Qed.

Lemma last_cons_d (l : list Z) x a : List.last (x :: l) a = List.last l x.
Proof. revert x a. induction l as [|y l IH]; intros x a; [done|]. change (List.last (y :: l) a = List.last (y :: l) x). by rewrite !IH. Qed.

(** A segment whose last link is redirected to [c]. *)
Lemma path_redirect s s' l : forall a b c, path s a l b -> NoDup (a :: l) ->
  (forall x, x ∈ a :: l -> x <> List.last l a -> next_of s' x = next_of s x) ->
  (forall x, x ∈ l -> prev_of s' x = prev_of s x) ->
  next_of s' (List.last l a) = Some c -> prev_of s' c = Some (List.last l a) -> path s' a l c.
Proof.
  induction l as [|x l IH]; intros a b c Hp Hnd Hn Hv Hln Hlp; [done|].
  destruct Hp as [[H1 H2] Hp]. apply NoDup_cons in Hnd as [Ha Hnd].
  rewrite last_cons_d in *. pose proof (last_in l x) as Hin. split.
  - split; [rewrite Hn; [done|set_solver|by intros Heq; rewrite <- Heq in Hin]|by rewrite Hv by set_solver].
  - apply (IH x b c); [done|done| | |done|done].
    + intros y Hy Hne. apply Hn; [set_solver|done].
    + intros y Hy. apply Hv. set_solver.
Qed.

(** The ring made of two rings: the four assignments of an append. *)
Lemma ring_concat s s' h l1 g l2 p q y : ring s (h :: l1) -> ring s (g :: l2) -> NoDup ((h :: l1) ++ g :: l2) ->
  l1 <> [] -> l2 <> [] -> p = List.last l1 h -> q = List.last l2 g -> y = hd g l2 ->
  (forall x, next_of s' x = if decide (x = q) then Some h else if decide (x = p) then Some y else next_of s x) ->
  (forall x, prev_of s' x = if decide (x = h) then Some q else if decide (x = y) then Some p else prev_of s x) ->
  ring s' (h :: l1 ++ l2).
Proof.
  intros H1 H2 Hnd Hne1 Hne2 Ep Eq Ey Hnx Hpv.
  pose proof (ring_nodup _ _ H1) as Hnd1. pose proof (ring_nodup _ _ H2) as Hnd2.
  apply NoDup_app in Hnd as (_ & Hd & _). apply NoDup_cons in Hnd2 as [Hg Hnd2]. pose proof Hnd1 as Hh.
  apply NoDup_cons in Hh as [Hh Hnd1'].
  destruct l2 as [|y' l2]; [done|]. simpl in Ey. subst y'. rewrite last_cons_d in Eq.
  assert (Hp : p ∈ l1) by (destruct l1 as [|b l _] using rev_ind; [done|rewrite List.last_last in Ep; set_solver]).
  assert (Hq : q ∈ y :: l2) by (rewrite Eq; apply last_in).
  assert (Hd1 : forall x z, x ∈ h :: l1 -> z ∈ y :: l2 -> x <> z).
  { intros x z Hx Hz ->. apply (Hd z Hx). by right. }
  split; [apply path_app; split|].
  - apply (path_redirect s s' l1 h h y); [apply H1|done|..]; rewrite <- ?Ep.
    + intros x Hx Hxp. rewrite Hnx, !decide_False; [done|done|by apply Hd1].
    + intros x Hx. rewrite Hpv, !decide_False; [done|apply Hd1; [by right|by left]|by intros ->].
    + rewrite Hnx, decide_False by (apply Hd1; [by right|done]). by rewrite decide_True.
    + rewrite Hpv, decide_False; [by rewrite decide_True|]. apply not_eq_sym, Hd1; by left.
  - destruct H2 as [[_ H2] _]. apply (path_redirect s s' l2 y g h); [done|done|..]; rewrite <- ?Eq.
    + intros x Hx Hxq. rewrite Hnx, !decide_False; [done| |done]. apply not_eq_sym, Hd1; [by right|done].
    + intros x Hx. rewrite Hpv, !decide_False; [done| |].
      * intros ->. by apply NoDup_cons in Hnd2 as [? _].
      * apply not_eq_sym, Hd1; [by left|by right].
    + rewrite Hnx. by rewrite decide_True.
    + rewrite Hpv. by rewrite decide_True.
  - rewrite app_comm_cons. apply NoDup_app. split_and!; [done| |done].
    intros z Hz Hz2. apply (Hd z Hz). by right.
Qed.

Lemma append_run s h l1 g l2 : is_list s h l1 -> is_list s g l2 -> NoDup ((h :: l1) ++ g :: l2) ->
  l1 <> [] -> l2 <> [] ->
  exists s', list_head_append h g ~{ s }~> tt; s' /\ is_list s' h (l1 ++ l2) /\ is_list s' g [] /\
    (forall x, x ∉ (h :: l1) ++ g :: l2 -> s' !! x = s !! x).
Proof.
  intros H1 H2 Hnd Hne1 Hne2. unfold is_list in *.
  pose proof (ring_last _ _ _ H1) as [Hl1 _]. pose proof (ring_last _ _ _ H2) as [Hl2 _].
  pose proof (ring_first _ _ _ H2) as [Hf2 _].
  pose proof (last_in l1 h) as Hin1. pose proof (last_in l2 g) as Hin2. pose proof (hd_in l2 g) as Hhd2.
  remember (List.last l1 h) as p eqn:Ep. remember (List.last l2 g) as q eqn:Eq. remember (hd g l2) as y eqn:Ey.
  assert (Hdis : forall x z, x ∈ h :: l1 -> z ∈ g :: l2 -> x <> z).
  { intros x z Hx Hz ->. apply NoDup_app in Hnd as (_ & Hd & _). by apply (Hd z). }
  pose proof (ring_nodup _ _ H2) as Hg. apply NoDup_cons in Hg as [Hg _].
  assert (Hgy : g <> y) by (intros Heq; apply Hg; rewrite Heq, Ey; destruct l2; [done|by left]).
  assert (Hhy : h <> y) by (apply Hdis; [by left|done]). assert (Hhg : h <> g) by (apply Hdis; by left).
  assert (Hgp : g <> p) by (apply not_eq_sym, Hdis; [done|by left]).
  pose proof (ring_some _ _ p H1 Hin1) as Hsp. pose proof (ring_some _ _ q H2 Hin2) as Hsq.
  pose proof (ring_some _ _ y H2 Hhd2) as Hsy. pose proof (ring_some _ _ h H1 ltac:(by left)) as Hsh.
  pose proof (ring_some _ _ g H2 ltac:(by left)) as Hsg.
  unfold list_head_append. rewrite (bind_ok _ _ _ _ _ (empty_run _ _ _ H1)), bool_decide_eq_false_2 by done.
  rewrite (bind_ok _ _ _ _ _ (empty_run _ _ _ H2)), bool_decide_eq_false_2 by done.
  rewrite (bind_ok _ _ _ _ _ (get_prev_ok _ _ _ Hl1)), (bind_ok _ _ _ _ _ (get_next_ok _ _ _ Hf2)).
  assign. set (s1 := upd_next p y s).
  assert (E1 : next_of s1 g = Some y) by (unfold s1; links; by rewrite decide_False).
  assert (E2 : prev_of s1 h = Some p) by (unfold s1; by links).
  rewrite (bind_ok _ _ _ _ _ (get_next_ok _ _ _ E1)), (bind_ok _ _ _ _ _ (get_prev_ok _ _ _ E2)).
  unfold s1. assign. set (s2 := upd_prev y p (upd_next p y s)).
  assert (E3 : prev_of s2 g = Some q) by (unfold s2; links; by rewrite decide_False).
  rewrite (bind_ok _ _ _ _ _ (get_prev_ok _ _ _ E3)). unfold s2. assign.
  assert (E4 : prev_of (upd_next q h s2) g = Some q) by (unfold s2; links; by rewrite decide_False).
  rewrite (bind_ok _ _ _ _ _ (get_prev_ok _ _ _ E4)). unfold s2. assign.
  set (s4 := upd_prev h q (upd_next q h (upd_prev y p (upd_next p y s)))).
  destruct (init_run s4 g) as (s' & Hrun & Hr & Hfr & _); [unfold s4; links_some|].
  exists s'. split; [done|]. split; [|split; [done|]].
  - apply ring_frame with s4.
    { intros x Hx. apply Hfr. intros Heq. rewrite Heq in Hx. apply elem_of_cons in Hx as [Hx|Hx]; [by rewrite Hx in Hhg|].
      apply elem_of_app in Hx as [Hx|Hx]; [|by apply Hg]. apply (Hdis g g); [by right|by left|done]. }
    by apply (ring_concat s s4 h l1 g l2 p q y); try done; intros x; unfold s4; links.
  - intros x Hx. apply not_elem_of_app in Hx as [Hx1 Hx2].
    assert (x <> h /\ x <> g) as [Hxh Hxg] by (split; intros ->; [apply Hx1|apply Hx2]; by left).
    rewrite Hfr by done. unfold s4.
    rewrite upd_prev_ne, upd_next_ne, upd_prev_ne, upd_next_ne; [done|..]; by intros ->.
Qed.

(** ** Walks *)
Fixpoint fold_break {A B} (f : Z -> A -> A + B) (xs : list Z) (acc : A) : A + B :=
  match xs with
  | [] => inl acc
  | x :: xs => match f x acc with inl acc => fold_break f xs acc | inr b => inr b end
  end.

Lemma fold_break_app {A B} (f : Z -> A -> A + B) l1 : forall l2 acc, fold_break f (l1 ++ l2) acc =
  match fold_break f l1 acc with inl a => fold_break f l2 a | inr b => inr b end.
Proof. induction l1 as [|x l1 IH]; intros l2 acc; [done|]. cbn. destruct (f x acc); [apply IH|done]. Qed.

(** A loop whose body does not write visits the elements in order. *)
Lemma for_each_loop_run {S A B} (rd_next : Z -> M S Z) (s : S) (body : Z -> A -> M S (A + B)) f h xs :
  forall pos acc fuel, (length xs < fuel)%nat ->
  pos = hd h xs -> h ∉ xs ->
  (forall l1 x l2, xs = l1 ++ x :: l2 -> rd_next x ~{ s }~> hd h l2; s) ->
  (forall x acc, x ∈ xs -> body x acc ~{ s }~> f x acc; s) ->
  for_each_loop fuel rd_next h pos body acc ~{ s }~> fold_break f xs acc; s.
Proof.
  induction xs as [|x xs IH]; intros pos acc [|fuel] Hfuel -> Hh Hn Hb; simpl in Hfuel; try lia; simpl.
  - by rewrite Z.eqb_refl.
  - destruct (Z.eqb_spec x h) as [->|_]; [set_solver|].
    rewrite (bind_ok _ _ _ _ _ (Hb x acc ltac:(set_solver))). destruct (f x acc) as [acc'|b]; [|done].
    rewrite (bind_ok _ _ _ _ _ (Hn [] x xs eq_refl)). apply IH; [lia|done|set_solver| |].
    + intros l1 z l2 ->. by apply (Hn (x :: l1) z l2).
    + intros z a Hz. apply Hb. set_solver.
Qed.

(** A loop that leaves the state alone until it stops at [x]. *)
Lemma for_each_loop_find {S A B} (rd_next : Z -> M S Z) (s s' : S) (body : Z -> A -> M S (A + B)) h x l2 b acc l1 :
  forall pos fuel, (length l1 < fuel)%nat ->
  pos = hd h (l1 ++ x :: l2) -> h ∉ l1 ++ x :: l2 ->
  (forall k1 y k2, l1 ++ x :: l2 = k1 ++ y :: k2 -> rd_next y ~{ s }~> hd h k2; s) ->
  (forall y, y ∈ l1 -> body y acc ~{ s }~> inl acc; s) -> body x acc ~{ s }~> inr b; s' ->
  for_each_loop fuel rd_next h pos body acc ~{ s }~> inr b; s'.
Proof.
  induction l1 as [|y l1 IH]; intros pos [|fuel] Hfuel -> Hh Hn Hb Hx; simpl in *; try lia.
  - destruct (Z.eqb_spec x h) as [->|_]; [set_solver|]. by rewrite (bind_ok _ _ _ _ _ Hx).
  - destruct (Z.eqb_spec y h) as [->|_]; [set_solver|].
    rewrite (bind_ok _ _ _ _ _ (Hb y ltac:(set_solver))), (bind_ok _ _ _ _ _ (Hn [] y _ eq_refl)).
    apply IH; [lia|done|set_solver| |set_solver|done].
    intros k1 z k2 Heq. apply (Hn (y :: k1) z k2). by rewrite Heq.
Qed.

(** A loop whose body writes: [I l acc s] holds when the elements [l] remain. *)
Lemma for_each_loop_inv {S A B} (I : list Z -> A -> S -> Prop) (rd_next : Z -> M S Z)
    (body : Z -> A -> M S (A + B)) h xs :
  forall pos acc fuel s, (length xs < fuel)%nat -> pos = hd h xs -> h ∉ xs -> I xs acc s ->
  (forall l1 x l2 acc s, xs = l1 ++ x :: l2 -> I (x :: l2) acc s -> exists acc' s1,
    body x acc ~{ s }~> inl acc'; s1 /\ rd_next x ~{ s1 }~> hd h l2; s1 /\ I l2 acc' s1) ->
  exists acc' s', for_each_loop fuel rd_next h pos body acc ~{ s }~> inl acc'; s' /\ I [] acc' s'.
Proof.
  induction xs as [|x xs IH]; intros pos acc [|fuel] s Hfuel -> Hh HI Hb; simpl in Hfuel; try lia; simpl.
  - rewrite Z.eqb_refl. by exists acc, s.
  - destruct (Z.eqb_spec x h) as [->|_]; [set_solver|].
    destruct (Hb [] x xs acc s eq_refl HI) as (acc1 & s1 & Hr & Hn & HI1).
    rewrite (bind_ok _ _ _ _ _ Hr), (bind_ok _ _ _ _ _ Hn).
    apply IH; [lia|done|set_solver|done|].
    intros l1 z l2 a t ->. by apply (Hb (x :: l1) z l2).
Qed.

Lemma is_list_next s h xs l1 x l2 : is_list s h xs -> xs = l1 ++ x :: l2 -> get_next x ~{ s }~> hd h l2; s.
Proof.
  intros H ->. apply get_next_ok. apply (ring_app s (h :: l1)) in H. apply ring_first in H as [Hn _].
  rewrite Hn. by destruct l2.
Qed.

Lemma list_length s h xs : is_list s h xs -> (length xs < size s)%nat.
Proof.
  intros H. pose proof (ring_nodup _ _ H) as Hnd.
  pose proof (stored_length s (h :: xs) Hnd (fun x Hx => ring_some _ _ x H Hx)). simpl in *. lia.
Qed.

Lemma list_for_each_run {A B} s h xs (body : Z -> A -> M store (A + B)) f acc : is_list s h xs ->
  (forall x acc, x ∈ xs -> body x acc ~{ s }~> f x acc; s) ->
  list_for_each h body acc ~{ s }~> fold_break f xs acc; s.
Proof.
  intros H Hb. unfold list_for_each. rewrite (bind_ok (gets _) _ s _ s eq_refl).
  rewrite (bind_ok _ _ _ _ _ (get_next_ok _ _ _ (proj1 (ring_first _ _ _ H)))).
  apply for_each_loop_run; [pose proof (list_length _ _ _ H); lia|done| | |done].
  - unfold is_list in H; apply ring_nodup in H. by apply NoDup_cons in H as [? _].
  - intros l1 x l2. by apply is_list_next.
Qed.

Lemma size_run s h xs : is_list s h xs -> Z.of_nat (length xs) < 4294967296 ->
  list_head_size h ~{ s }~> Z.of_nat (length xs); s.
Proof.
  intros H Hlen. unfold list_head_size. rewrite (bind_ok _ _ _ _ _ (empty_run _ _ _ H)).
  case_bool_decide as He; [by subst xs|].
  rewrite (bind_ok _ _ _ _ _ (list_for_each_run s h xs _ (fun _ n => inl (u32 (n + 1))) 0 H (fun _ _ _ => eq_refl))).
  assert (Hf : forall l n, 0 <= n -> n + Z.of_nat (length l) < 4294967296 ->
    fold_break (B := Z) (fun _ n => inl (u32 (n + 1))) l n = inl (n + Z.of_nat (length l))).
  { induction l as [|x l IH]; intros n Hn Hl; simpl in *; [by rewrite Z.add_0_r|].
    rewrite u32_small by lia. rewrite IH by lia. f_equal. lia. }
  by rewrite Hf by lia.
Qed.

(** ** A store of disjoint lists

    [L] gives the elements of every list of the store by its head; a node that is
    in no list is the head of an empty one. *)
Definition lists (s : store) (L : gmap Z (list Z)) : Prop :=
  (forall h xs, L !! h = Some xs -> is_list s h xs) /\
  (forall h k xs ys x, L !! h = Some xs -> L !! k = Some ys -> x ∈ h :: xs -> x ∈ k :: ys -> h = k).

(** The lists whose heads are in [D] change, the others do not. *)
Lemma lists_change s s' L L' (D : list Z) : lists s L ->
  (forall k, k ∉ D -> L' !! k = L !! k) ->
  (forall k xs, k ∈ D -> L' !! k = Some xs -> is_list s' k xs) ->
  (forall k xs x, k ∈ D -> L' !! k = Some xs -> x ∈ k :: xs ->
    exists k0 ys, k0 ∈ D /\ L !! k0 = Some ys /\ x ∈ k0 :: ys) ->
  (forall h k xs ys x, h ∈ D -> k ∈ D -> L' !! h = Some xs -> L' !! k = Some ys ->
    x ∈ h :: xs -> x ∈ k :: ys -> h = k) ->
  (forall x, (forall k xs, k ∈ D -> L !! k = Some xs -> x ∉ k :: xs) -> s' !! x = s !! x) ->
  lists s' L'.
Proof.
  intros [Hl Hd] Hout Hin Hfrom Hdis Hfr. split.
  - intros h xs Hh. destruct (decide (h ∈ D)) as [HD|HD]; [by apply Hin|]. rewrite Hout in Hh by done.
    apply ring_frame with s; [|by apply Hl]. intros x Hx. apply Hfr. intros k ys Hk HLk Hxk. apply HD.
    by rewrite (Hd h k xs ys x).
  - intros h k xs ys x Hh Hk Hxh Hxk. destruct (decide (h ∈ D)) as [HD|HD], (decide (k ∈ D)) as [KD|KD].
    + by eapply Hdis.
    + rewrite Hout in Hk by done. destruct (Hfrom h xs x HD Hh Hxh) as (k0 & zs & H0 & Hz & Hxz).
      destruct KD. by rewrite (Hd k k0 ys zs x).
    + rewrite Hout in Hh by done. destruct (Hfrom k ys x KD Hk Hxk) as (k0 & zs & H0 & Hz & Hxz).
      destruct HD. by rewrite (Hd h k0 xs zs x).
    + rewrite Hout in Hh, Hk by done. by eapply Hd.
Qed.

(** ** Sequences of operations *)
Inductive list_op : Type :=
| OAddTail (n h : Z)      (* list_head_insert_before n h *)
| OAddHead (n h : Z)      (* list_head_insert_after n h *)
| ORemove (h e : Z)       (* list_head_remove e, with e in the list of h *)
| OPop (h : Z)            (* list_head_pop h *)
| OAppend (h g : Z).      (* list_head_append h g *)

Definition run_op (o : list_op) : M store Z :=
  match o with
  | OAddTail n h => list_head_insert_before n h ;; mret NULL
  | OAddHead n h => list_head_insert_after n h ;; mret NULL
  | ORemove _ e => list_head_remove e ;; mret NULL
  | OPop h => list_head_pop h
  | OAppend h g => list_head_append h g ;; mret NULL
  end.

(** The same operation on the lists themselves, None when a caller may not ask
    for it. *)
Definition spec_op (o : list_op) (L : gmap Z (list Z)) : option (Z * gmap Z (list Z)) :=
  match o with
  | OAddTail n h =>
      match L !! n, L !! h with
      | Some [], Some xs => if decide (n = h) then None else Some (NULL, <[h := xs ++ [n]]> (delete n L))
      | _, _ => None
      end
  | OAddHead n h =>
      match L !! n, L !! h with
      | Some [], Some xs => if decide (n = h) then None else Some (NULL, <[h := n :: xs]> (delete n L))
      | _, _ => None
      end
  | ORemove h e =>
      match L !! h with
      | Some xs => if decide (e ∈ xs) then Some (NULL, <[e := []]> (<[h := filter (.≠ e) xs]> L)) else None
      | None => None
      end
  | OPop h =>
      match L !! h with
      | Some [] => Some (NULL, L)
      | Some (x :: xs) => Some (x, <[x := []]> (<[h := xs]> L))
      | None => None
      end
  | OAppend h g =>
      match L !! h, L !! g with
      | Some l1, Some l2 =>
          if decide (h = g) then None
          else if decide (l2 = []) then Some (NULL, L)
          else if decide (l1 = []) then None
          else Some (NULL, <[g := []]> (<[h := l1 ++ l2]> L))
      | _, _ => None
      end
  end.

Fixpoint run_ops (os : list list_op) : M store (list Z) :=
  match os with
  | [] => mret []
  | o :: os => r ← run_op o; rs ← run_ops os; mret (r :: rs)
  end.
Fixpoint spec_ops (os : list list_op) (L : gmap Z (list Z)) : option (list Z * gmap Z (list Z)) :=
  match os with
  | [] => Some ([], L)
  | o :: os =>
      match spec_op o L with
      | Some (r, L1) => match spec_ops os L1 with Some (rs, L2) => Some (r :: rs, L2) | None => None end
      | None => None
      end
  end.

Section Refine.
Context (s : store) (L : gmap Z (list Z)) (HL : lists s L).

Lemma lists_fresh n h xs : L !! n = Some [] -> L !! h = Some xs -> n <> h -> n ∉ h :: xs /\ is_Some (s !! n).
Proof.
  intros Hn Hh Hne. split.
  - intros Hin. apply Hne. apply (proj2 HL n h [] xs n); [done|done|by left|done].
  - pose proof (proj1 HL n [] Hn) as Hr. apply (ring_some _ _ n Hr). by left.
Qed.

(** The new list of [h] when the detached node [n] is inserted. *)
Lemma lists_insert s' n h xs xs' : L !! n = Some [] -> L !! h = Some xs -> n <> h -> is_list s' h xs' ->
  (forall x, x ∈ xs' <-> x = n \/ x ∈ xs) -> (forall x, x ∉ n :: h :: xs -> s' !! x = s !! x) ->
  lists s' (<[h := xs']> (delete n L)).
Proof.
  intros Hn Hh Hne Hl Hel Hfr. apply (lists_change s s' L _ [n; h] HL).
  - intros k Hk. rewrite lookup_insert_ne, lookup_delete_ne; [done|set_solver..].
  - intros k ys [->| ->]%elem_of_pair Hk.
    + rewrite lookup_insert_ne, lookup_delete_eq in Hk; done.
    + rewrite lookup_insert_eq in Hk. by simplify_eq.
  - intros k ys x [->| ->]%elem_of_pair Hk Hx.
    + rewrite lookup_insert_ne, lookup_delete_eq in Hk; done.
    + rewrite lookup_insert_eq in Hk. simplify_eq. rewrite elem_of_cons, Hel in Hx.
      destruct Hx as [->|[->|Hx]]; [exists h, xs|exists n, []|exists h, xs]; set_solver.
  - assert (Honly : forall k ys, k ∈ [n; h] -> <[h := xs']> (delete n L) !! k = Some ys -> k = h).
    { intros k ys [->| ->]%elem_of_pair Hk; [|done].
      rewrite lookup_insert_ne, lookup_delete_eq in Hk; done. }
    intros k1 k2 ys zs x H1 H2 Hk1 Hk2 _ _. apply (Honly _ _ H1) in Hk1. apply (Honly _ _ H2) in Hk2. congruence.
  - intros x Hx. apply Hfr. pose proof (Hx n [] ltac:(set_solver) Hn). pose proof (Hx h xs ltac:(set_solver) Hh). set_solver.
Qed.

(** The new lists when [e] leaves the list of [h]. *)
Lemma lists_remove s' h e xs xs' : L !! h = Some xs -> e ∈ xs -> is_list s' h xs' -> is_list s' e [] ->
  (forall x, x ∈ xs' <-> x ∈ xs /\ x <> e) -> (forall x, x ∉ h :: xs -> s' !! x = s !! x) ->
  lists s' (<[e := []]> (<[h := xs']> L)).
Proof.
  intros Hh He Hl Hle Hel Hfr. pose proof (proj1 HL h xs Hh) as Hr. pose proof (ring_nodup _ _ Hr) as Hnd.
  assert (Hne : h <> e) by (intros ->; by apply NoDup_cons in Hnd as [? _]).
  assert (HeL : forall ys, L !! e = Some ys -> False).
  { intros ys HLe. apply Hne, (proj2 HL h e xs ys e); [done|done|by right|by left]. }
  apply (lists_change s s' L _ [e; h] HL).
  - intros k Hk. rewrite !lookup_insert_ne; [done|set_solver..].
  - intros k ys [->| ->]%elem_of_pair Hk.
    + rewrite lookup_insert_eq in Hk. by simplify_eq.
    + rewrite lookup_insert_ne, lookup_insert_eq in Hk by done. by simplify_eq.
  - intros k ys x Hk Hys Hx. exists h, xs. split; [set_solver|]. split; [done|].
    apply elem_of_pair in Hk as [->| ->].
    + rewrite lookup_insert_eq in Hys. simplify_eq. apply list_elem_of_singleton in Hx as ->. by right.
    + rewrite lookup_insert_ne, lookup_insert_eq in Hys by done. simplify_eq.
      rewrite elem_of_cons, Hel in Hx. rewrite elem_of_cons. tauto.
  - assert (Hx : forall ys zs x, <[e := []]> (<[h := xs']> L) !! e = Some ys ->
      <[e := []]> (<[h := xs']> L) !! h = Some zs -> x ∈ e :: ys -> x ∈ h :: zs -> False).
    { intros ys zs x H1 H2 H3 H4. rewrite lookup_insert_eq in H1. rewrite lookup_insert_ne, lookup_insert_eq in H2 by done.
      simplify_eq. apply list_elem_of_singleton in H3 as ->. rewrite elem_of_cons, Hel in H4. naive_solver. }
    intros k1 k2 ys zs x [->| ->]%elem_of_pair [->| ->]%elem_of_pair Hk1 Hk2 Hx1 Hx2;
      [done|by destruct (Hx ys zs x)|by destruct (Hx zs ys x)|done].
  - intros x Hx. apply Hfr, (Hx h xs); [set_solver|done].
Qed.

Lemma lists_append s' h g l1 l2 : L !! h = Some l1 -> L !! g = Some l2 -> h <> g -> is_list s' h (l1 ++ l2) ->
  is_list s' g [] -> (forall x, x ∉ (h :: l1) ++ g :: l2 -> s' !! x = s !! x) ->
  lists s' (<[g := []]> (<[h := l1 ++ l2]> L)).
Proof.
  intros Hh Hg Hne Hl Hlg Hfr. apply (lists_change s s' L _ [g; h] HL).
  - intros k Hk. rewrite !lookup_insert_ne; [done|set_solver..].
  - intros k ys [->| ->]%elem_of_pair Hk.
    + rewrite lookup_insert_eq in Hk. by simplify_eq.
    + rewrite lookup_insert_ne, lookup_insert_eq in Hk by done. by simplify_eq.
  - intros k ys x Hk Hys Hx. apply elem_of_pair in Hk as [->| ->].
    + rewrite lookup_insert_eq in Hys. simplify_eq. exists g, l2. set_solver.
    + rewrite lookup_insert_ne, lookup_insert_eq in Hys by done. simplify_eq.
      rewrite elem_of_cons, elem_of_app in Hx. destruct Hx as [->|[Hx|Hx]]; [exists h, l1|exists h, l1|exists g, l2]; set_solver.
  - assert (Hx : forall ys zs x, <[g := []]> (<[h := l1 ++ l2]> L) !! g = Some ys ->
      <[g := []]> (<[h := l1 ++ l2]> L) !! h = Some zs -> x ∈ g :: ys -> x ∈ h :: zs -> False).
    { intros ys zs x H1 H2 H3 H4. rewrite lookup_insert_eq in H1. rewrite lookup_insert_ne, lookup_insert_eq in H2 by done.
      simplify_eq. apply list_elem_of_singleton in H3 as ->. rewrite elem_of_cons, elem_of_app in H4.
      destruct H4 as [?|[H4|H4]]; [done|apply Hne, (proj2 HL h g l1 l2 g); set_solver|].
      pose proof (ring_nodup _ _ (proj1 HL g l2 Hg)) as Hnd. by apply NoDup_cons in Hnd as [? _]. }
    intros k1 k2 ys zs x [->| ->]%elem_of_pair [->| ->]%elem_of_pair Hk1 Hk2 Hx1 Hx2;
      [done|by destruct (Hx ys zs x)|by destruct (Hx zs ys x)|done].
  - intros x Hx. apply Hfr, not_elem_of_app. split; [apply (Hx h l1)|apply (Hx g l2)]; set_solver.
Qed.

Lemma spec_op_run o r L' : spec_op o L = Some (r, L') -> exists s', run_op o ~{ s }~> r; s' /\ lists s' L'.
Proof.
  destruct o as [n h|n h|h e|h|h g]; simpl; intros Hspec.
  - destruct (L !! n) as [[|]|] eqn:En; try done. destruct (L !! h) as [xs|] eqn:Eh; try done.
    destruct (decide (n = h)); simplify_eq. destruct (lists_fresh n h xs En Eh ltac:(done)) as [Hn Hsn].
    destruct (insert_before_run s h xs n (proj1 HL h xs Eh) Hn Hsn) as (s' & Hrun & Hr & Hfr & _).
    exists s'. rewrite (bind_ok _ _ _ _ _ Hrun). split; [done|]. apply lists_insert with xs; try done. set_solver.
  - destruct (L !! n) as [[|]|] eqn:En; try done. destruct (L !! h) as [xs|] eqn:Eh; try done.
    destruct (decide (n = h)); simplify_eq. destruct (lists_fresh n h xs En Eh ltac:(done)) as [Hn Hsn].
    destruct (insert_after_run s h xs n (proj1 HL h xs Eh) Hn Hsn) as (s' & Hrun & Hr & Hfr & _).
    exists s'. rewrite (bind_ok _ _ _ _ _ Hrun). split; [done|]. apply lists_insert with xs; try done. set_solver.
  - destruct (L !! h) as [xs|] eqn:Eh; [|done]. destruct (decide (e ∈ xs)) as [He|]; simplify_eq.
    pose proof (proj1 HL h xs Eh) as Hr. pose proof He as Hsplit. apply list_elem_of_split in Hsplit as (l1 & l2 & Heq).
    unfold is_list in Hr. rewrite Heq, app_comm_cons in Hr. pose proof (ring_nodup _ _ Hr) as Hnd.
    apply ring_app in Hr. destruct (remove_run s e (l2 ++ h :: l1) Hr) as (s' & Hrun & Hr1 & Hr2 & Hfr & _).
    exists s'. rewrite (bind_ok _ _ _ _ _ Hrun). split; [done|].
    destruct (NoDup_middle _ _ _ Hnd) as [_ [Hn1 Hn2]].
    assert (Hfil : filter (.≠ e) xs = l1 ++ l2).
    { rewrite Heq. apply filter_ne_middle. simpl in Hnd. by apply NoDup_cons in Hnd as [_ ?]. }
    apply lists_remove with xs; [done|done| |done| |].
    + unfold is_list. rewrite Hfil. by apply (ring_app s' l2 (h :: l1)).
    + intros x. rewrite list_elem_of_filter. tauto.
    + intros x Hx. apply Hfr. rewrite Heq in Hx. set_solver.
  - destruct (L !! h) as [[|x xs]|] eqn:Eh; simplify_eq.
    + pose proof (pop_run s h [] (proj1 HL h [] Eh)) as Hrun. by exists s.
    + pose proof (proj1 HL h _ Eh) as Hr. destruct (pop_run s h (r :: xs) Hr) as (s' & Hrun & Hr1 & Hr2 & Hfr).
      exists s'. split; [done|]. apply (lists_remove s' h r (r :: xs) xs); try done; [by left|].
      pose proof (ring_nodup _ _ Hr) as Hnd. apply NoDup_cons in Hnd as [_ [Hnr _]%NoDup_cons].
      intros x. rewrite elem_of_cons. split; [|tauto]. intros Hx. split; [by right|]. by intros ->.
  - destruct (L !! h) as [l1|] eqn:Eh; [|done]. destruct (L !! g) as [l2|] eqn:Eg; [|done].
    destruct (decide (h = g)); [done|]. pose proof (proj1 HL h l1 Eh) as H1. pose proof (proj1 HL g l2 Eg) as H2.
    destruct (decide (l2 = [])) as [Hemp|Hne]; [|destruct (decide (l1 = [])) as [|Hne1]]; simplify_eq.
    + exists s. split; [|done]. unfold list_head_append. rewrite bind_assoc, (bind_ok _ _ _ _ _ (empty_run _ _ _ H1)).
      case_bool_decide; [done|]. rewrite bind_assoc, (bind_ok _ _ _ _ _ (empty_run _ _ _ H2)). done.
    + destruct (append_run s h l1 g l2 H1 H2) as (s' & Hrun & Hr1 & Hr2 & Hfr); [|done|done|].
      { apply NoDup_app. split_and!; [by eapply ring_nodup| |by eapply ring_nodup].
        intros x Hx1 Hx2. assert (h = g); [|done]. by apply (proj2 HL h g l1 l2 x). }
      exists s'. rewrite (bind_ok _ _ _ _ _ Hrun). split; [done|]. by apply lists_append.
Qed.
End Refine.

(** ** Deciding that a concrete store represents concrete lists *)
#[export] Instance edge_dec s a b : Decision (edge s a b).
Proof. unfold edge. apply _. Defined.
#[export] Instance path_dec s l : forall a b, Decision (path s a l b).
Proof. induction l as [|x l IH]; intros a b; simpl; apply _. Defined.
#[export] Instance is_list_dec s h xs : Decision (is_list s h xs).
Proof. unfold is_list, ring. apply _. Defined.

Definition nodes_of (hx : Z * list Z) : list Z := hx.1 :: hx.2.
Definition lists_check (s : store) (L : gmap Z (list Z)) : bool :=
  bool_decide (Forall (fun hx => is_list s hx.1 hx.2) (map_to_list L)) &&
  bool_decide (NoDup (mjoin (nodes_of <$> map_to_list L))).

Lemma concat_owner (l : list (Z * list Z)) a b x : NoDup (mjoin (nodes_of <$> l)) -> a ∈ l -> b ∈ l ->
  x ∈ nodes_of a -> x ∈ nodes_of b -> a = b.
Proof.
  assert (Hin : forall (l : list (Z * list Z)) a, a ∈ l -> x ∈ nodes_of a -> x ∈ mjoin (nodes_of <$> l)).
  { intros l' c Hc Hx. apply list_elem_of_join. exists (nodes_of c). split; [done|]. by apply list_elem_of_fmap_2. }
  induction l as [|c l IH]; intros Hnd Ha Hb Hxa Hxb; [set_solver|]. cbn in Hnd.
  rewrite app_comm_cons in Hnd. change (c.1 :: c.2) with (nodes_of c) in Hnd.
  apply NoDup_app in Hnd as (_ & Hd & Hnd).
  apply elem_of_cons in Ha as [->|Ha], Hb as [->|Hb]; [done| | |by apply IH].
  - by destruct (Hd x Hxa (Hin l b Hb Hxb)).
  - by destruct (Hd x Hxb (Hin l a Ha Hxa)).
Qed.

Lemma lists_check_sound s L : lists_check s L = true -> lists s L.
Proof.
  intros [H1%bool_decide_eq_true H2%bool_decide_eq_true]%andb_true_iff. rewrite Forall_forall in H1. split.
  - intros h xs Hh. apply (H1 (h, xs)). by apply elem_of_map_to_list.
  - intros h k xs ys x Hh Hk Hx Hy. apply elem_of_map_to_list in Hh, Hk.
    by pose proof (concat_owner _ (h, xs) (k, ys) x H2 Hh Hk Hx Hy) as [= -> _].
Qed.

(** The links that represent given lists. *)
Definition ring_nodes (l : list Z) : list (Z * node) :=
  zip l (zip_with Node (rotate (length l - 1) l) (rotate 1 l)).
Definition links_of (L : gmap Z (list Z)) : store :=
  list_to_map (mjoin ((fun hx => ring_nodes (nodes_of hx)) <$> map_to_list L)).

(** The operations one at a time. *)
(** An insertion writes only to nodes of the store. *)
Lemma insert_before_dom n h s s' : list_head_insert_before n h ~{ s }~> tt; s' -> forall z, is_Some (s' !! z) -> is_Some (s !! z).
Proof.
  assert (Hset : forall p q s s' (f : M store unit), (f = set_next p q \/ f = set_prev p q) -> f ~{ s }~> tt; s' ->
    forall z, is_Some (s' !! z) -> is_Some (s !! z)).
  { intros p q s1 s2 f Hf Hr z. destruct Hf as [-> | ->]; unfold set_next, set_prev in Hr; destruct (s1 !! p) as [x|] eqn:E; simplify_eq;
      (destruct (decide (z = p)) as [->|]; [by rewrite E|by rewrite lookup_insert_ne]). }
  unfold list_head_insert_before. intros Hr z Hz. apply bind_inv in Hr as (p & s0 & Hp & Hr). unfold get_prev in Hp. apply getsome_inv in Hp as [_ ->].
  apply bind_inv in Hr as ([] & s1 & H1 & Hr). apply bind_inv in Hr as ([] & s2 & H2 & Hr). apply bind_inv in Hr as ([] & s3 & H3 & H4).
  eapply Hset; [by left|exact H1|]. eapply Hset; [by right|exact H2|]. eapply Hset; [by left|exact H3|]. eapply Hset; [by right|exact H4|done].
Qed.

Section OnLists.
Context (s : store) (L : gmap Z (list Z)) (HL : lists s L).

Lemma lists_spec o r L' (m : M store unit) : run_op o = (m ;; mret r) -> spec_op o L = Some (r, L') ->
  exists s', m ~{ s }~> tt; s' /\ lists s' L'.
Proof.
  intros Hm Ho. destruct (spec_op_run s L HL o r L' Ho) as (s' & Hrun & HL').
  rewrite Hm in Hrun. apply bind_inv in Hrun as ([] & s1 & H1 & H2). apply ret_inv in H2 as [_ ->]. by exists s'.
Qed.

Lemma lists_add_tail n h xs : L !! n = Some [] -> L !! h = Some xs -> n <> h ->
  exists s', list_head_insert_before n h ~{ s }~> tt; s' /\ lists s' (<[h := xs ++ [n]]> (delete n L)).
Proof.
  intros Hn Hh Hne. apply (lists_spec (OAddTail n h) NULL); [done|]. cbn. rewrite Hn, Hh. by rewrite decide_False.
Qed.

Lemma lists_take h e xs : L !! h = Some xs -> e ∈ xs ->
  exists s', list_head_remove e ~{ s }~> tt; s' /\ lists s' (<[e := []]> (<[h := filter (.≠ e) xs]> L)).
Proof.
  intros Hh He. apply (lists_spec (ORemove h e) NULL); [done|]. cbn. rewrite Hh. by rewrite decide_True.
Qed.

(** Removing a node that is in no list changes nothing. *)
Lemma lists_take_detached e : L !! e = Some [] -> list_head_remove e ~{ s }~> tt; s.
Proof.
  intros He. unfold list_head_remove. rewrite (bind_ok _ _ _ _ _ (empty_run _ _ _ (proj1 HL e [] He))). done.
Qed.

Lemma lists_move h g l1 l2 : L !! h = Some l1 -> L !! g = Some l2 -> h <> g -> l1 <> [] -> l2 <> [] ->
  exists s', list_head_append h g ~{ s }~> tt; s' /\ lists s' (<[g := []]> (<[h := l1 ++ l2]> L)).
Proof.
  intros Hh Hg Hne H1 H2. apply (lists_spec (OAppend h g) NULL); [done|]. cbn. rewrite Hh, Hg.
  by rewrite !decide_False by done.
Qed.

(** Nodes that are in no list. *)
Definition outside (x : Z) : Prop := forall h xs, L !! h = Some xs -> x ∉ h :: xs.

Lemma lists_new a n : outside a -> lists (<[a := n]> s) L.
Proof.
  intros Ha. split; [|apply HL]. intros h xs Hh. apply ring_frame with s; [|by apply (proj1 HL)].
  intros x Hx. rewrite lookup_insert_ne; [done|]. intros ->. by apply (Ha h xs).
Qed.

Lemma lists_delete a : outside a -> lists (delete a s) L.
Proof.
  intros Ha. split; [|apply HL]. intros h xs Hh. apply ring_frame with s; [|by apply (proj1 HL)].
  intros x Hx. rewrite lookup_delete_ne; [done|]. intros ->. by apply (Ha h xs).
Qed.

(** Forgetting a list; the head is outside the remaining ones. *)
Lemma forget_outside h xs : L !! h = Some xs -> forall k ys, delete h L !! k = Some ys -> h ∉ k :: ys.
Proof.
  intros Hh k ys [Hne Hk]%lookup_delete_Some Hin. apply Hne.
  apply (proj2 HL h k xs ys h); [done|done|by left|done].
Qed.

Lemma lists_forget h : lists s (delete h L).
Proof.
  split.
  - intros k xs Hk. apply lookup_delete_Some in Hk as [_ Hk]. by apply HL.
  - intros k1 k2 xs ys x Hk1 Hk2. apply lookup_delete_Some in Hk1 as [_ Hk1]. apply lookup_delete_Some in Hk2 as [_ Hk2].
    by apply (proj2 HL).
Qed.

(** Inserting a node that is not in a list yet: its links need not be set. *)
Lemma lists_add_fresh n h xs : outside n -> is_Some (s !! n) -> L !! h = Some xs ->
  exists s', list_head_insert_before n h ~{ s }~> tt; s' /\ lists s' (<[h := xs ++ [n]]> L).
Proof.
  intros Hn Hsn Hh. destruct (insert_before_run s h xs n (proj1 HL h xs Hh) (Hn h xs Hh) Hsn) as (s' & Hrun & Hr & Hfr & _).
  exists s'. split; [done|]. split.
  - intros k ys Hk. destruct (decide (k = h)) as [Heq|Hne].
    + subst k. rewrite lookup_insert_eq in Hk. by simplify_eq.
    + rewrite lookup_insert_ne in Hk by done. apply ring_frame with s; [|by apply HL].
      intros x Hx. apply Hfr. intros [Heq|Hin]%elem_of_cons; [subst x; by apply (Hn k ys)|].
      apply Hne. by apply (proj2 HL k h ys xs x).
  - assert (Hfrom : forall k ys x, <[h := xs ++ [n]]> L !! k = Some ys -> x ∈ k :: ys ->
      (x = n /\ k = h) \/ exists ys0, L !! k = Some ys0 /\ x ∈ k :: ys0).
    { intros k ys x Hk Hx. destruct (decide (k = h)) as [Heq|Hne].
      - subst k. rewrite lookup_insert_eq in Hk. simplify_eq. rewrite elem_of_cons, elem_of_app, list_elem_of_singleton in Hx.
        destruct Hx as [Hx|[Hx|Hx]]; [right|right|left; done]; exists xs; rewrite elem_of_cons; tauto.
      - rewrite lookup_insert_ne in Hk by done. right. by exists ys. }
    intros k1 k2 ys zs x H1 H2 Hx1 Hx2.
    destruct (Hfrom _ _ _ H1 Hx1) as [[E1 ->]|(y0 & Hy & Hxy)], (Hfrom _ _ _ H2 Hx2) as [[E2 ->]|(z0 & Hz & Hxz)];
      [done|subst x; by destruct (Hn _ _ Hz)|subst x; by destruct (Hn _ _ Hy)|by eapply (proj2 HL)].
Qed.

(** Making a node of the store, wherever its links point, the head of an empty
    list. *)
Lemma lists_init h : outside h -> is_Some (s !! h) ->
  exists s', list_head_init h ~{ s }~> tt; s' /\ lists s' (<[h := []]> L) /\
    (forall x, x <> h -> s' !! x = s !! x) /\ (forall x, is_Some (s' !! x) <-> is_Some (s !! x)).
Proof.
  intros Hh Hs. destruct (init_run s h Hs) as (s' & Hr & Hring & Hfr & Hdom). exists s'. split_and!; try done. split.
  - intros k ys Hk. destruct (decide (k = h)) as [->|Hne].
    + rewrite lookup_insert_eq in Hk. by simplify_eq.
    + rewrite lookup_insert_ne in Hk by done. apply ring_frame with s; [|by apply HL].
      intros x Hx. apply Hfr. intros ->. by apply (Hh k ys).
  - assert (Hfrom : forall k ys x, <[h := []]> L !! k = Some ys -> x ∈ k :: ys -> (x = h /\ k = h) \/ (x <> h /\ L !! k = Some ys)).
    { intros k ys x Hk Hx. destruct (decide (k = h)) as [->|Hne].
      - rewrite lookup_insert_eq in Hk. simplify_eq. left. split; [by apply list_elem_of_singleton in Hx|done].
      - rewrite lookup_insert_ne in Hk by done. right. split; [|done]. intros ->. by apply (Hh k ys). }
    intros k1 k2 ys zs x H1 H2 Hx1 Hx2.
    destruct (Hfrom _ _ _ H1 Hx1) as [[E1 ->]|[N1 Hy]], (Hfrom _ _ _ H2 Hx2) as [[E2 ->]|[N2 Hz]]; try done.
    by eapply (proj2 HL).
Qed.

(** Destroying the head of a list. *)
Lemma lists_drop h xs : L !! h = Some xs -> lists (delete h s) (delete h L).
Proof.
  intros Hh. split.
  - intros k ys Hk. pose proof (forget_outside h xs Hh k ys Hk) as Hout.
    apply ring_frame with s; [|by apply (proj1 (lists_forget h))].
    intros x Hx. apply lookup_delete_ne. by intros ->.
  - apply (proj2 (lists_forget h)).
Qed.

(** [list_head_remove] of a node of the store, whether it is in a list or not. *)
Definition unlink (e : Z) (L : gmap Z (list Z)) : gmap Z (list Z) := <[e := []]> (filter (.≠ e) <$> L).
Definition placed (e : Z) (L : gmap Z (list Z)) : Prop := L !! e = Some [] \/ exists h xs, L !! h = Some xs /\ e ∈ xs.

Lemma filter_ne_lists e h xs : L !! h = Some xs -> e ∈ xs -> forall k ys, k <> h -> L !! k = Some ys -> filter (.≠ e) ys = ys.
Proof.
  intros Hh He k ys Hk Hy. apply filter_ne_id. intros Hin. apply Hk.
  apply (proj2 HL k h ys xs e); [done|done|by right|by right].
Qed.

Lemma lists_unlink e : placed e L -> exists s', list_head_remove e ~{ s }~> tt; s' /\ lists s' (unlink e L).
Proof.
  intros [He|(h & xs & Hh & He)].
  - exists s. split; [by apply lists_take_detached|]. unfold unlink.
    replace (<[e := []]> (filter (.≠ e) <$> L)) with L; [done|]. apply map_eq. intros k.
    destruct (decide (k = e)) as [Heq|Hne]; [subst k; by rewrite lookup_insert_eq|].
    rewrite lookup_insert_ne, lookup_fmap by done. destruct (L !! k) as [ys|] eqn:Ek; [|done]. cbn. f_equal.
    symmetry. apply filter_ne_id. intros Hin. apply Hne.
    apply (proj2 HL k e ys [] e); [done|done|by right|by left].
  - destruct (lists_take h e xs Hh He) as (s' & Hrun & Hl). exists s'. split; [done|]. unfold unlink.
    replace (filter (.≠ e) <$> L) with (<[h := filter (.≠ e) xs]> L); [done|]. apply map_eq. intros k.
    rewrite lookup_fmap. destruct (decide (k = h)) as [Heq|Hne].
    + subst k. by rewrite lookup_insert_eq, Hh.
    + rewrite lookup_insert_ne by done. destruct (L !! k) as [ys|] eqn:Ek; [|done]. cbn. f_equal.
      symmetry. by apply (filter_ne_lists e h xs Hh He k).
Qed.
End OnLists.

(** C36: every sequence of insertions, removals, pops and appends that the lists
    allow ([spec_op]) runs without a fault, returns what the operations on plain
    lists return, and leaves a store that represents the resulting lists: the
    pointer surgery implements lists. Allowed are the insertion of a detached node,
    the removal of a node that is in a list, the pop of any list, and appending a
    list to a different one, which is not empty unless both are: a list that is
    appended to an empty one stays where it is ([list_append_to_empty]). *)
Theorem list_ops_refine os : forall s L rs L', lists s L -> spec_ops os L = Some (rs, L') ->
  exists s', run_ops os ~{ s }~> rs; s' /\ lists s' L'.
Proof.
  induction os as [|o os IH]; intros s L rs L' HL Hspec; simpl in Hspec; [simplify_eq; by exists s|].
  destruct (spec_op o L) as [[r L1]|] eqn:Eo; [|done]. destruct (spec_ops os L1) as [[rs' L2]|] eqn:Eos; simplify_eq.
  destruct (spec_op_run s L HL o r L1 Eo) as (s1 & Hrun & HL1).
  destruct (IH s1 L1 rs' L' HL1 Eos) as (s' & Hruns & HL').
  exists s'. simpl. by rewrite (bind_ok _ _ _ _ _ Hrun), (bind_ok _ _ _ _ _ Hruns).
Qed.

(** [list_head_size] counts the elements and [list_head_empty] tests that
    there are none; neither changes the list. *)
Theorem list_size_correct s h xs : is_list s h xs -> Z.of_nat (length xs) < 4294967296 ->
  list_head_size h ~{ s }~> Z.of_nat (length xs); s /\ list_head_empty h ~{ s }~> bool_decide (xs = []); s.
Proof. intros H Hl. split; [by apply size_run|by apply empty_run]. Qed.

(** Appending to an empty list does nothing: the elements of the second list
    stay where they are. *)
Theorem list_append_to_empty s h g : is_list s h [] -> list_head_append h g ~{ s }~> tt; s.
Proof. intros H. unfold list_head_append. by rewrite (bind_ok _ _ _ _ _ (empty_run _ _ _ H)). Qed.

(** ** A concrete store: the head 100 with the elements 1 and 2, the head 200
    with the element 3, and the detached node 4. *)
Definition demo_store : store :=
  {[100 := Node 2 1; 1 := Node 100 2; 2 := Node 1 100; 200 := Node 3 3; 3 := Node 200 200; 4 := Node 4 4]}.
Definition demo_lists : gmap Z (list Z) := {[100 := [1; 2]; 200 := [3]; 4 := []]}.

Lemma demo_lists_ok : lists demo_store demo_lists.
Proof. apply lists_check_sound. vm_compute. reflexivity. Qed.

Lemma list_ops_refine_witness :
  exists s', run_ops [OAddTail 4 100; OPop 100; OAppend 100 200; ORemove 100 2] ~{ demo_store }~> [0; 1; 0; 0]; s' /\
    list_head_size 100 ~{ s' }~> 2; s'.
Proof.
  destruct (list_ops_refine [OAddTail 4 100; OPop 100; OAppend 100 200; ORemove 100 2] demo_store demo_lists
    [0; 1; 0; 0] (<[2 := []]> (<[100 := [4; 3]]> (<[200 := []]> (<[100 := [2; 4; 3]]> (<[1 := []]> (<[100 := [2; 4]]>
      (<[100 := [1; 2; 4]]> (delete 4 demo_lists)))))))) demo_lists_ok) as (s' & Hrun & HL); [vm_compute; reflexivity|].
  exists s'. split; [done|]. apply (size_run s' 100 [4; 3]); [|done].
  apply HL. rewrite lookup_insert_ne, lookup_insert_eq by done. done.
Defined.

Lemma list_size_correct_witness : list_head_size 100 ~{ demo_store }~> 2; demo_store.
Proof.
  apply (list_size_correct demo_store 100 [1; 2]); [|done]. apply (proj1 demo_lists_ok). reflexivity.
Defined.

Lemma list_append_to_empty_witness : list_head_append 4 100 ~{ demo_store }~> tt; demo_store.
Proof. apply list_append_to_empty, (proj1 demo_lists_ok). reflexivity. Defined.

End ListHead.
