(* ===== verification/Pmm.v ===== *)
(** * The physical frame allocator (src/kernel/memory/pmm.c)

    The state of the allocator is the bitmap of frames with its counters; a bit
    is set when the frame is in use. Every function of pmm.c is a definition of
    this file; a bitmap access outside the array is a fault. The second half
    states what the allocator promises, as a set of used frames, and proves that
    the bitmap code implements it. *)

From S2P Require Import Prelude Interfaces.

Module Pmm.

(** ** State *)
Record pmm : Type := MkPmm {
  memsize : Z;
  frames_bitmap : list Z;
  max_frames : Z;
  used_frames : Z;
  frames_bitmap_size : Z;
  lowest_available : Z
}.

(** The static initialisers. *)
Definition pmm_static : pmm := MkPmm 0 [] 0 0 0 0.

Definition FRAME_SIZE : Z := 4096.
Definition FRAME_SHIFT : Z := 12.
Definition FRAME_MASK : Z := u32_not (FRAME_SIZE - 1).
Definition FRAME_LOW_MASK : Z := FRAME_SIZE - 1.
Definition FRAME_INDEX (b : Z) : Z := Z.shiftr b 5.
Definition FRAME_OFFSET (b : Z) : Z := Z.land b 31.
Definition PAGE_ALIGN (addr : Z) : Z := Z.land (u32 (addr + FRAME_LOW_MASK)) FRAME_MASK.

Definition set_bitmap (l : list Z) (s : pmm) : pmm :=
  MkPmm (memsize s) l (max_frames s) (used_frames s) (frames_bitmap_size s) (lowest_available s).
Definition set_used (u : Z) (s : pmm) : pmm :=
  MkPmm (memsize s) (frames_bitmap s) (max_frames s) u (frames_bitmap_size s) (lowest_available s).
Definition set_lowest (x : Z) (s : pmm) : pmm :=
  MkPmm (memsize s) (frames_bitmap s) (max_frames s) (used_frames s) (frames_bitmap_size s) x.

(** [frames_bitmap[i]] as a value and as an assignment. *)
Definition bitmap_read (i : Z) : M pmm Z :=
  getsome (FBound i) (fun s => zlookup (frames_bitmap s) i).
Definition bitmap_write (i w : Z) : M pmm unit := fun s =>
  match zlookup (frames_bitmap s) i with
  | Some _ => Ok (tt, set_bitmap (zinsert (frames_bitmap s) i w) s)
  | None => Err (FBound i)
  end.

(** ** Single frames *)
Definition pmm_frame_set (frame : Z) : M pmm unit :=
  let index := FRAME_INDEX frame in
  let offset := FRAME_OFFSET frame in
  w ← bitmap_read index;
  bitmap_write index (word_set w offset).

Definition pmm_frame_seta (frame_addr : Z) : M pmm unit :=
  let frame := Z.shiftr frame_addr FRAME_SHIFT in
  let index := FRAME_INDEX frame in
  let offset := FRAME_OFFSET frame in
  w ← bitmap_read index;
  bitmap_write index (word_set w offset).

Definition pmm_frame_unset (frame : Z) : M pmm unit :=
  let index := FRAME_INDEX frame in
  let offset := FRAME_OFFSET frame in
  w ← bitmap_read index;
  bitmap_write index (word_clear w offset) ;;
  modify (fun s => if frame <? lowest_available s then set_lowest frame s else s).

Definition pmm_frame_unseta (frame_addr : Z) : M pmm unit :=
  let frame := Z.shiftr frame_addr FRAME_SHIFT in
  let index := FRAME_INDEX frame in
  let offset := FRAME_OFFSET frame in
  w ← bitmap_read index;
  bitmap_write index (word_clear w offset) ;;
  modify (fun s => if frame <? lowest_available s then set_lowest frame s else s).

Definition pmm_frame_test (frame : Z) : M pmm bool :=
  let index := FRAME_INDEX frame in
  let offset := FRAME_OFFSET frame in
  w ← bitmap_read index;
  mret (word_test w offset).

(** ** Searching *)

(** The inner loop of [pmm_first_free_frame]: the first clear bit from [j]. *)
Fixpoint first_free_bit (n : nat) (j w : Z) : option Z :=
  match n with
  | O => None
  | S n' => if word_test w j then first_free_bit n' (j + 1) w else Some j
  end.

(** The outer loop: [n] words are left, the next one is word [i]. *)
Fixpoint first_free_word (n : nat) (i : Z) : M pmm Z :=
  match n with
  | O => mret 0
  | S n' =>
      w ← bitmap_read i;
      if w =? 4294967295 then first_free_word n' (i + 1)
      else match first_free_bit 32 0 w with
           | Some j => mret (u32 (Z.shiftl i 5 + j))
           | None => first_free_word n' (i + 1)
           end
  end.

Definition pmm_first_free_frame : M pmm Z :=
  i0 ← gets (fun s => FRAME_INDEX (lowest_available s));
  i1 ← gets (fun s => FRAME_INDEX (max_frames s));
  first_free_word (Z.to_nat (i1 - i0)) i0.

(** The loop of [pmm_first_nfree_frames]. Every round advances [i] by at least
    one, so [max_frames] rounds are enough: [nfree_loop_total] below. *)
Fixpoint nfree_loop (fuel : nat) (n i avail : Z) : M pmm Z :=
  mx ← gets max_frames;
  if negb (i <? mx) then mret 0
  else match fuel with
  | O => fail FLoop
  | S fuel' =>
      w ← bitmap_read (FRAME_INDEX i);
      if negb (w =? 4294967295) then
        used ← pmm_frame_test i;
        let i := u32 (i + 1) in
        if (used : bool) then nfree_loop fuel' n i 0
        else
          let avail := u32 (avail + 1) in
          if avail =? n then mret (u32 (i - n)) else nfree_loop fuel' n i avail
      else nfree_loop fuel' n (u32 (i + 32)) 0
  end.

Definition pmm_first_nfree_frames (n : Z) : M pmm Z :=
  if n =? 0 then mret 0
  else if n =? 1 then pmm_first_free_frame
  else
    mx ← gets max_frames;
    nfree_loop (Z.to_nat mx) n 0 0.

(** ** Allocation *)
Definition pmm_mark_frame_used (frame : Z) : M pmm unit :=
  pmm_frame_set frame ;;
  modify (fun s => set_used (u32 (used_frames s + 1)) s).

Definition pmm_allocate_frame : M pmm Z :=
  oom ← gets (fun s => max_frames s <=? used_frames s);
  if (oom : bool) then fail FFatal
  else
    frame ← pmm_first_free_frame;
    if frame =? 0 then fail FFatal
    else pmm_mark_frame_used frame ;; mret frame.

Definition pmm_allocate_frame_addr : M pmm Z :=
  frame ← pmm_allocate_frame;
  mret (u32 (Z.shiftl frame FRAME_SHIFT)).

Definition pmm_allocate_frames (n : Z) : M pmm Z :=
  if n =? 0 then mret 0
  else
    oom ← gets (fun s => max_frames s <=? used_frames s);
    if (oom : bool) then fail FFatal
    else
      start_frame ← pmm_first_nfree_frames n;
      if start_frame =? 0 then fail FFatal
      else
        for_range (Z.to_nat n) 0 (fun i => pmm_mark_frame_used (u32 (start_frame + i))) ;;
        mret start_frame.

Definition pmm_allocate_frames_addr (n : Z) : M pmm Z :=
  start_frame ← pmm_allocate_frames n;
  mret (u32 (Z.shiftl start_frame FRAME_SHIFT)).

Definition pmm_free_frame (frame_addr : Z) : M pmm unit :=
  modify (fun s => set_used (u32 (used_frames s - 1)) s) ;;
  pmm_frame_unseta frame_addr.

(** ** Regions and initialisation *)
Definition pmm_init_region (addr length : Z) : M pmm unit :=
  let frame_start := addr / FRAME_SIZE in
  let frames := Z.shiftr (Z.land length FRAME_MASK) FRAME_SHIFT in
  for_range (Z.to_nat frames) 0 (fun i => pmm_frame_unset (u32 (i + frame_start))).

Definition pmm_deinit_region (addr length : Z) : M pmm unit :=
  let frame_start := addr / FRAME_SIZE in
  let frames := Z.shiftr (Z.land length FRAME_MASK) FRAME_SHIFT in
  for_range (Z.to_nat frames) 0 (fun i => pmm_frame_set (u32 (i + frame_start))).

(** An entry of the multiboot memory map; [addr] and [len] are 64-bit. *)
Record mmap_entry : Type := MkEntry { mm_addr : Z; mm_len : Z; mm_type : Z }.

(** The fields of [boot_info_t] the allocator reads, the memory map being the
    entries of the multiboot tag in order. *)
Record boot_info : Type := MkBoot {
  highest_address : Z;
  kernel_phy_start : Z;
  kernel_phy_end : Z;
  kernel_size : Z;
  bootloader_phy_end : Z;
  video_phy_start : Z;
  video_phy_end : Z;
  multiboot_mmap : list mmap_entry
}.

(** The walk over the memory map: regions of type 1 are available. *)
Fixpoint init_regions (entries : list mmap_entry) : M pmm unit :=
  match entries with
  | [] => mret tt
  | e :: es =>
      (if mm_type e =? 1 then pmm_init_region (u32 (mm_addr e)) (u32 (mm_len e)) else mret tt) ;;
      init_regions es
  end.

(** The final count of the used frames, over the words below
    [FRAME_INDEX(max_frames)]. *)
Definition count_used_frames : M pmm unit :=
  n ← gets (fun s => FRAME_INDEX (max_frames s));
  for_range (Z.to_nat n) 0 (fun i =>
    for_range 32 0 (fun j =>
      w ← bitmap_read i;
      if word_test w j then modify (fun s => set_used (u32 (used_frames s + 1)) s)
      else mret tt)).

Definition pmm_init (b : boot_info) : M pmm unit :=
  let max := Z.shiftr (highest_address b) FRAME_SHIFT + 1 in
  let size := (FRAME_INDEX (max - 1) + 1) * 4 in
  let addressable_phy := u32 (PAGE_ALIGN (kernel_phy_end b) + size) in
  modify (fun s => MkPmm (highest_address b) (replicate (Z.to_nat (size / 4)) 4294967295)
                         max (used_frames s) size (lowest_available s)) ;;
  init_regions (multiboot_mmap b) ;;
  pmm_frame_set 0 ;;
  pmm_deinit_region 0 (bootloader_phy_end b) ;;
  pmm_deinit_region (kernel_phy_start b) (kernel_size b) ;;
  pmm_deinit_region (kernel_phy_end b) (u32 (addressable_phy - kernel_phy_end b)) ;;
  pmm_deinit_region (video_phy_start b) (u32 (video_phy_end b - video_phy_start b)) ;;
  count_used_frames.

(** [pmm_init_test(frames_list, size)]: the bitmap and the number of frames come
    from the caller, the other variables keep their values. *)
Definition pmm_init_test (frames_list : list Z) (size : Z) : M pmm unit :=
  modify (fun s => MkPmm (memsize s) frames_list (u32 (size * 32)) (used_frames s)
                         (frames_bitmap_size s) (lowest_available s)).

Definition get_total_frames : M pmm Z := gets max_frames.
Definition get_used_frames : M pmm Z := gets used_frames.

(** ** The allocator as a set of used frames *)

Definition frame_used (s : pmm) (f : Z) : bool :=
  match zlookup (frames_bitmap s) (f / 32) with
  | Some w => Z.testbit w (f mod 32)
  | None => true
  end.

Definition in_bitmap (s : pmm) (f : Z) : Prop :=
  0 <= f < 32 * Z.of_nat (length (frames_bitmap s)).

Definition words_ok (s : pmm) : Prop := Forall is_u32 (frames_bitmap s).

(** The state after frame [f] is marked used ([b = true]) or free. *)
Definition mark (b : bool) (f : Z) (s : pmm) : pmm :=
  match zlookup (frames_bitmap s) (f / 32) with
  | Some w =>
      set_bitmap (zinsert (frames_bitmap s) (f / 32)
                    (if b then word_set w (f mod 32) else word_clear w (f mod 32))) s
  | None => s
  end.

Lemma frame_index_div f : FRAME_INDEX f = f / 32.
Proof. unfold FRAME_INDEX. now rewrite Z.shiftr_div_pow2. Qed.
Lemma frame_offset_mod f : FRAME_OFFSET f = f mod 32.
Proof. unfold FRAME_OFFSET. change 31 with (Z.ones 5). now rewrite Z.land_ones. Qed.
Lemma frame_shift_div a : Z.shiftr a FRAME_SHIFT = a / 4096.
Proof. unfold FRAME_SHIFT. now rewrite Z.shiftr_div_pow2. Qed.

Lemma words_ok_lookup s i w : words_ok s -> zlookup (frames_bitmap s) i = Some w -> is_u32 w.
Proof.
  unfold words_ok, zlookup. intros Hs. destruct (0 <=? i); [|done].
  intros Hi. eapply Forall_lookup_1 in Hs; eauto.
Qed.

Lemma in_bitmap_word s f : in_bitmap s f -> exists w, zlookup (frames_bitmap s) (f / 32) = Some w.
Proof. intros H. apply zlookup_some. unfold in_bitmap in H. dlia. Qed.

Lemma mark_length b f s : length (frames_bitmap (mark b f s)) = length (frames_bitmap s).
Proof. unfold mark. destruct zlookup; simpl; autorewrite with hos; done. Qed.
Lemma mark_max b f s : max_frames (mark b f s) = max_frames s.
Proof. unfold mark. destruct zlookup; done. Qed.
Lemma mark_usedf b f s : used_frames (mark b f s) = used_frames s.
Proof. unfold mark. destruct zlookup; done. Qed.
Lemma mark_lowest b f s : lowest_available (mark b f s) = lowest_available s.
Proof. unfold mark. destruct zlookup; done. Qed.
Lemma mark_set_used b f u s : mark b f (set_used u s) = set_used u (mark b f s).
Proof. unfold mark. simpl. destruct zlookup; done. Qed.
Lemma set_used_bitmap u s : frames_bitmap (set_used u s) = frames_bitmap s.
Proof. done. Qed.
Lemma frame_used_set_used u s f : frame_used (set_used u s) f = frame_used s f.
Proof. done. Qed.
#[local] Hint Rewrite mark_length mark_max mark_usedf mark_lowest frame_used_set_used : hos.

Lemma mark_words_ok b f s : words_ok s -> words_ok (mark b f s).
Proof.
  intros Hs. unfold mark. destruct zlookup as [w|] eqn:E; [|done].
  pose proof (words_ok_lookup _ _ _ Hs E) as Hw.
  unfold words_ok. simpl. unfold zinsert. destruct (0 <=? _); [|done].
  apply Forall_insert; [done|].
  destruct b; [apply word_set_range | apply word_clear_range]; (done || dlia).
Qed.

Lemma frame_used_mark b f s g : words_ok s -> in_bitmap s f ->
  frame_used (mark b f s) g = if decide (g = f) then b else frame_used s g.
Proof.
  intros Hs Hf. destruct (in_bitmap_word _ _ Hf) as [w Hw].
  pose proof (words_ok_lookup _ _ _ Hs Hw) as Hw32.
  unfold frame_used at 1, mark. rewrite Hw. simpl.
  destruct (decide (g / 32 = f / 32)) as [Eq|Ne].
  - rewrite Eq, zlookup_zinsert_eq by (eapply zlookup_bound; eauto).
    destruct b; [rewrite word_set_testbit by dlia | rewrite word_clear_testbit by (done || dlia)].
    all: destruct (decide (g = f)) as [->|Hne]; case_bool_decide; try done; try dlia.
    all: unfold frame_used; rewrite Eq, Hw; done.
  - rewrite zlookup_zinsert_ne by done.
    destruct (decide (g = f)); [congruence | done].
Qed.

Lemma frame_used_mark_eq b f s : words_ok s -> in_bitmap s f -> frame_used (mark b f s) f = b.
Proof. intros. rewrite frame_used_mark by done. now destruct decide. Qed.
Lemma frame_used_mark_ne b f s g : words_ok s -> in_bitmap s f -> g <> f ->
  frame_used (mark b f s) g = frame_used s g.
Proof. intros. rewrite frame_used_mark by done. now destruct decide. Qed.

(** Marking a frame used and free again gives the bitmap back. *)
Lemma mark_mark b b' f s : words_ok s -> in_bitmap s f -> frame_used s f = b' ->
  mark b' f (mark b f s) = s.
Proof.
  intros Hs Hf Hb. destruct (in_bitmap_word _ _ Hf) as [w Hw].
  pose proof (words_ok_lookup _ _ _ Hs Hw) as Hw32. pose proof (zlookup_bound _ _ _ Hw) as Hin.
  unfold frame_used in Hb. rewrite Hw in Hb.
  unfold mark at 2. rewrite Hw. unfold mark. simpl.
  rewrite zlookup_zinsert_eq by done. rewrite zinsert_zinsert.
  rewrite zinsert_id; [now destruct s|]. rewrite Hw. f_equal.
  apply Z.bits_inj'. intros k Hk.
  assert (0 <= f mod 32 < 32) by dlia.
  destruct b, b'; rewrite ?word_set_testbit, ?word_clear_testbit, ?word_set_testbit
    by auto using word_set_range, word_clear_range.
  all: repeat case_bool_decide; subst; rewrite ?Hb; try done; now destruct (Z.testbit w k).
Qed.

(** ** Running the single-frame operations *)
Lemma bitmap_read_ok s i w : zlookup (frames_bitmap s) i = Some w -> bitmap_read i ~{ s }~> w; s.
Proof. apply (getsome_ok _ (fun s => zlookup (frames_bitmap s) i)). Qed.

Lemma bitmap_write_ok s i w w' : zlookup (frames_bitmap s) i = Some w' ->
  bitmap_write i w ~{ s }~> tt; set_bitmap (zinsert (frames_bitmap s) i w) s.
Proof. intros H. unfold bitmap_write. now rewrite H. Qed.

Ltac frame_arith := rewrite ?frame_index_div, ?frame_offset_mod, ?frame_shift_div in *.

Lemma frame_set_run s f : in_bitmap s f -> pmm_frame_set f ~{ s }~> tt; mark true f s.
Proof.
  intros Hf. destruct (in_bitmap_word _ _ Hf) as [w Hw].
  unfold pmm_frame_set. frame_arith.
  erewrite bind_ok by (apply bitmap_read_ok; exact Hw).
  erewrite bitmap_write_ok by exact Hw. unfold mark. now rewrite Hw.
Qed.

Lemma frame_seta_run s a : in_bitmap s (a / 4096) -> pmm_frame_seta a ~{ s }~> tt; mark true (a / 4096) s.
Proof.
  intros Hf. rewrite <- frame_set_run by done. unfold pmm_frame_seta, pmm_frame_set.
  now frame_arith.
Qed.

(** The lowering of [lowest_available] by [pmm_frame_unset]. *)
Definition lower (f : Z) (s : pmm) : pmm := if f <? lowest_available s then set_lowest f s else s.

Lemma frame_unset_run s f : in_bitmap s f -> pmm_frame_unset f ~{ s }~> tt; lower f (mark false f s).
Proof.
  intros Hf. destruct (in_bitmap_word _ _ Hf) as [w Hw].
  unfold pmm_frame_unset. frame_arith.
  erewrite bind_ok by (apply bitmap_read_ok; exact Hw).
  erewrite bind_ok by (eapply bitmap_write_ok; exact Hw).
  unfold modify, mark, lower. now rewrite Hw.
Qed.

Lemma frame_unseta_run s a : in_bitmap s (a / 4096) ->
  pmm_frame_unseta a ~{ s }~> tt; lower (a / 4096) (mark false (a / 4096) s).
Proof.
  intros Hf. rewrite <- frame_unset_run by done. unfold pmm_frame_unseta, pmm_frame_unset.
  now frame_arith.
Qed.

Lemma frame_test_run s f : in_bitmap s f -> pmm_frame_test f ~{ s }~> frame_used s f; s.
Proof.
  intros Hf. destruct (in_bitmap_word _ _ Hf) as [w Hw].
  unfold pmm_frame_test. frame_arith.
  erewrite bind_ok by (apply bitmap_read_ok; exact Hw).
  unfold frame_used. rewrite Hw, word_test_testbit by dlia. done.
Qed.

(** ** The searches *)

Lemma first_free_bit_some n j w r : 0 <= j -> j + Z.of_nat n <= 32 ->
  first_free_bit n j w = Some r ->
  j <= r < j + Z.of_nat n /\ Z.testbit w r = false /\ (forall k, j <= k < r -> Z.testbit w k = true).
Proof.
  revert j. induction n as [|n IH]; intros j Hj Hn; simpl; [done|].
  rewrite word_test_testbit by lia. destruct (Z.testbit w j) eqn:E.
  - intros H. apply IH in H as (H1 & H2 & H3); [|lia..].
    split; [lia|]. split; [done|]. intros k Hk.
    destruct (decide (k = j)) as [->|]; [done | apply H3; lia].
  - intros [= <-]. split; [lia|]. split; [done|]. lia.
Qed.

Lemma first_free_bit_none n j w : 0 <= j -> j + Z.of_nat n <= 32 ->
  first_free_bit n j w = None -> forall k, j <= k < j + Z.of_nat n -> Z.testbit w k = true.
Proof.
  revert j. induction n as [|n IH]; intros j Hj Hn; simpl; [lia|].
  rewrite word_test_testbit by lia. destruct (Z.testbit w j) eqn:E; [|done].
  intros H k Hk. destruct (decide (k = j)) as [->|]; [done|].
  apply (IH (j + 1)); (done || lia).
Qed.

(** [r] is the lowest free frame of [lo, hi). *)
Definition least_free (s : pmm) (lo hi r : Z) : Prop :=
  lo <= r < hi /\ frame_used s r = false /\ forall g, lo <= g < r -> frame_used s g = true.
Definition all_used (s : pmm) (lo hi : Z) : Prop :=
  forall g, lo <= g < hi -> frame_used s g = true.

Lemma frame_used_word s i w j : zlookup (frames_bitmap s) i = Some w -> 0 <= j < 32 ->
  frame_used s (32 * i + j) = Z.testbit w j.
Proof.
  intros Hw Hj. unfold frame_used.
  replace ((32 * i + j) / 32) with i by dlia. replace ((32 * i + j) mod 32) with j by dlia.
  now rewrite Hw.
Qed.

Lemma all_used_word s i w : zlookup (frames_bitmap s) i = Some w ->
  (forall k, 0 <= k < 32 -> Z.testbit w k = true) -> all_used s (32 * i) (32 * (i + 1)).
Proof.
  intros Hw Hk g Hg. replace g with (32 * i + (g - 32 * i)) by lia.
  erewrite frame_used_word by (done || lia). apply Hk. lia.
Qed.

Lemma least_free_extend s lo mid hi r : all_used s lo mid -> lo <= mid ->
  least_free s mid hi r -> least_free s lo hi r.
Proof.
  intros Ha Hle (H1 & H2 & H3). split; [lia|]. split; [done|].
  intros g Hg. destruct (decide (g < mid)); [apply Ha; lia | apply H3; lia].
Qed.

Lemma first_free_word_run s n i :
  words_ok s -> 0 <= i -> i + Z.of_nat n <= Z.of_nat (length (frames_bitmap s)) ->
  32 * (i + Z.of_nat n) <= 4294967296 ->
  exists r, first_free_word n i ~{ s }~> r; s /\
    (least_free s (32 * i) (32 * (i + Z.of_nat n)) r \/
     r = 0 /\ all_used s (32 * i) (32 * (i + Z.of_nat n))).
Proof.
  intros Hs. revert i. induction n as [|n IH]; intros i Hi Hn Hmax.
  { exists 0. split; [done|]. right. split; [done|]. intros g Hg. lia. }
  destruct (zlookup_some (frames_bitmap s) i) as [w Hw]; [lia|].
  pose proof (words_ok_lookup _ _ _ Hs Hw) as Hw32.
  cbn [first_free_word]. erewrite bind_ok by (apply bitmap_read_ok; exact Hw).
  assert (Hnext : all_used s (32 * i) (32 * (i + 1)) ->
    exists r, first_free_word n (i + 1) ~{ s }~> r; s /\
      (least_free s (32 * i) (32 * (i + Z.of_nat (S n))) r \/
       r = 0 /\ all_used s (32 * i) (32 * (i + Z.of_nat (S n))))).
  { intros Hall. destruct (IH (i + 1)) as (r & Hr & Hc); [lia..|].
    exists r. split; [done|].
    replace (i + Z.of_nat (S n)) with (i + 1 + Z.of_nat n) by lia.
    destruct Hc as [Hc|[-> Hc]].
    - left. eapply least_free_extend; eauto. lia.
    - right. split; [done|]. intros g Hg.
      destruct (decide (g < 32 * (i + 1))); [apply Hall; lia | apply Hc; lia]. }
  destruct (Z.eqb_spec w 4294967295) as [->|Hne].
  { apply Hnext. eapply all_used_word; [exact Hw|]. now apply word_full_iff. }
  destruct (first_free_bit 32 0 w) as [j|] eqn:Ej.
  - apply first_free_bit_some in Ej as (Hj & Hf & Hb); [|lia..].
    exists (32 * i + j). split.
    + rewrite Z.shiftl_mul_pow2 by lia. unfold mret, M_ret. rewrite u32_small by lia.
      do 2 f_equal. lia.
    + left. split; [lia|]. split; [erewrite frame_used_word by (done || lia); done|].
      intros g Hg. replace g with (32 * i + (g - 32 * i)) by lia.
      erewrite frame_used_word by (done || lia). apply Hb. lia.
  - apply Hnext. eapply all_used_word; [exact Hw|]. intros k Hk.
    eapply (first_free_bit_none 32 0 w); (done || lia).
Qed.

(** ** Well-formed allocator states *)
Record wf (s : pmm) : Prop := {
  wf_words : words_ok s;
  wf_max : 1 <= max_frames s <= 1048576;
  wf_length : Z.of_nat (length (frames_bitmap s)) = (max_frames s - 1) / 32 + 1;
  wf_zero : frame_used s 0 = true;
  wf_lowest : lowest_available s = 0;
  wf_used : is_u32 (used_frames s)
}.

(** The frames [pmm_first_free_frame] looks at: those of the complete words. *)
Definition searched (s : pmm) : Z := 32 * (max_frames s / 32).

Lemma wf_bound s : wf s -> max_frames s <= 32 * Z.of_nat (length (frames_bitmap s)) <= 1048576 + 31.
Proof. intros H. rewrite (wf_length _ H). pose proof (wf_max _ H). dlia. Qed.

Lemma wf_in_bitmap s f : wf s -> 0 <= f < max_frames s -> in_bitmap s f.
Proof. intros H Hf. pose proof (wf_bound _ H). unfold in_bitmap. lia. Qed.

Lemma searched_le s : searched s <= max_frames s.
Proof. unfold searched. dlia. Qed.

Lemma first_free_frame_run s : wf s ->
  exists r, pmm_first_free_frame ~{ s }~> r; s /\
    (least_free s 0 (searched s) r /\ 0 < r \/ r = 0 /\ all_used s 0 (searched s)).
Proof.
  intros H. pose proof (wf_max _ H). pose proof (wf_bound _ H).
  assert (Hn : 0 <= max_frames s / 32) by dlia.
  destruct (first_free_word_run s (Z.to_nat (max_frames s / 32)) 0) as (r & Hr & Hc).
  { apply H. } { lia. } { rewrite (wf_length _ H). dlia. } { dlia. }
  exists r. rewrite Z.mul_0_r, Z.add_0_l, Z2Nat.id in Hc by lia. split.
  - unfold pmm_first_free_frame, gets, mbind, M_bind.
    rewrite !frame_index_div, (wf_lowest _ H), Z.div_0_l, Z.sub_0_r by done. exact Hr.
  - destruct Hc as [Hc|Hc]; [left | now right]. split; [done|].
    destruct Hc as (Hb & Hf & _). destruct (decide (r = 0)) as [->|]; [|lia].
    rewrite (wf_zero _ H) in Hf. done.
Qed.

(** [n] free frames starting at [a]. *)
Definition free_run (s : pmm) (a n : Z) : Prop :=
  forall k, a <= k < a + n -> frame_used s k = false.

(** The invariant of [nfree_loop]: the last [avail] frames are free, the one
    before them is not, and no run of [n] free frames ends before [i]. *)
Record nfree_inv (s : pmm) (n i avail : Z) : Prop := {
  ni_avail : 0 <= avail <= i;
  ni_small : avail < n;
  ni_run : free_run s (i - avail) avail;
  ni_maximal : i = avail \/ frame_used s (i - avail - 1) = true;
  ni_none : forall b, 0 <= b -> b + n <= i -> ~ free_run s b n;
  ni_aligned : i mod 32 = 0 \/ zlookup (frames_bitmap s) (i / 32) <> Some 4294967295
}.

(** Three steps of the invariant. *)
Lemma nfree_inv_used s n i avail w : nfree_inv s n i avail -> 0 < n ->
  frame_used s i = true -> zlookup (frames_bitmap s) (i / 32) = Some w -> w <> 4294967295 ->
  nfree_inv s n (i + 1) 0.
Proof.
  intros [] Hn Hu Hw Hne. split; try lia.
  - intros k Hk. lia.
  - right. now replace (i + 1 - 0 - 1) with i by lia.
  - intros b Hb Hbn Hr. destruct (decide (b + n <= i)); [by apply (ni_none0 b)|].
    rewrite Hr in Hu by lia. done.
  - destruct (decide ((i + 1) mod 32 = 0)); [now left|right].
    replace ((i + 1) / 32) with (i / 32) by dlia. rewrite Hw. congruence.
Qed.

Lemma nfree_inv_free s n i avail w : nfree_inv s n i avail -> avail + 1 < n ->
  frame_used s i = false -> zlookup (frames_bitmap s) (i / 32) = Some w -> w <> 4294967295 ->
  nfree_inv s n (i + 1) (avail + 1).
Proof.
  intros [] Hn Hu Hw Hne. split; try lia.
  - intros k Hk. destruct (decide (k = i)) as [->|]; [done|]. apply ni_run0. lia.
  - destruct ni_maximal0 as [->|Hm]; [now left | right].
    now replace (i + 1 - (avail + 1) - 1) with (i - avail - 1) by lia.
  - intros b Hb Hbn Hr. destruct (decide (b + n <= i)); [by apply (ni_none0 b)|].
    destruct ni_maximal0 as [->|Hm]; [lia|]. rewrite Hr in Hm by lia. done.
  - destruct (decide ((i + 1) mod 32 = 0)); [now left|right].
    replace ((i + 1) / 32) with (i / 32) by dlia. rewrite Hw. congruence.
Qed.

Lemma nfree_inv_full s n i avail : nfree_inv s n i avail -> 0 < n ->
  zlookup (frames_bitmap s) (i / 32) = Some 4294967295 ->
  nfree_inv s n (i + 32) 0.
Proof.
  intros [] Hn Hw. destruct ni_aligned0 as [Ha|Ha]; [|done].
  assert (Hall : all_used s i (i + 32)).
  { replace i with (32 * (i / 32)) by dlia.
    replace (32 * (i / 32) + 32) with (32 * (i / 32 + 1)) by lia.
    eapply all_used_word; [exact Hw|]. now apply word_full_iff. }
  split; try lia.
  - intros k Hk. lia.
  - right. apply Hall. lia.
  - intros b Hb Hbn Hr. destruct (decide (b + n <= i)); [by apply (ni_none0 b)|].
    assert (frame_used s (b + n - 1) = true) as Hu by (apply Hall; lia).
    rewrite Hr in Hu by lia. done.
  - left. dlia.
Qed.

(** The result of a search for [n] contiguous frames: the first run, or none. *)
Definition first_run (s : pmm) (n hi r : Z) : Prop :=
  0 <= r /\ r + n <= hi /\ free_run s r n /\ forall b, 0 <= b < r -> ~ free_run s b n.
Definition no_run (s : pmm) (n hi : Z) : Prop :=
  forall b, 0 <= b -> b + n <= hi -> ~ free_run s b n.

Lemma nfree_loop_run s fuel n i avail : wf s -> 2 <= n < 4294967296 ->
  nfree_inv s n i avail -> max_frames s - i <= Z.of_nat fuel ->
  i <= max_frames s + 31 ->
  exists r, nfree_loop fuel n i avail ~{ s }~> r; s /\
    (first_run s n (max_frames s) r \/ r = 0 /\ no_run s n (max_frames s)).
Proof.
  intros Hwf Hn. pose proof (wf_max _ Hwf) as Hmax.
  revert i avail. induction fuel as [|fuel IH]; intros i avail Hinv Hfuel Hi;
    cbn [nfree_loop]; unfold gets; rewrite (bind_ok _ _ s (max_frames s) s) by done;
    (destruct (Z.ltb_spec i (max_frames s)) as [Hlt|Hge]; cbn [negb];
     [| exists 0; split; [done|]; right; split; [done|];
        intros b Hb Hbn; apply (ni_none _ _ _ _ Hinv); lia]).
  { lia. }
  pose proof Hinv as Hinv'. destruct Hinv' as [Hav Hsm Hrun Hmx Hnone Hal].
  assert (Hin : in_bitmap s i) by (apply wf_in_bitmap; [done|lia]).
  destruct (in_bitmap_word _ _ Hin) as [w Hw].
  erewrite bind_ok by (apply bitmap_read_ok; rewrite frame_index_div; exact Hw).
  destruct (Z.eqb_spec w 4294967295) as [->|Hne]; cbn [negb].
  { rewrite u32_small by lia. apply IH; [|lia..]. eapply nfree_inv_full; eauto. lia. }
  erewrite bind_ok by (apply frame_test_run; exact Hin). cbv zeta.
  rewrite (u32_small (i + 1)) by lia.
  destruct (frame_used s i) eqn:Hu.
  { apply IH; [|lia..]. eapply nfree_inv_used; eauto. lia. }
  rewrite (u32_small (avail + 1)) by lia.
  destruct (Z.eqb_spec (avail + 1) n) as [Heq|Hneq].
  - exists (i + 1 - n). rewrite u32_small by lia. split; [done|]. left.
    split; [lia|]. split; [lia|]. split.
    + intros k Hk. destruct (decide (k = i)) as [->|]; [done|]. apply Hrun. lia.
    + intros b Hb. apply Hnone; lia.
  - apply IH; [|lia..]. eapply nfree_inv_free; eauto. lia.
Qed.

(** ** Allocation and release *)

(** The state after frame [f] has been handed out, and after it came back. *)
Definition claim (f : Z) (s : pmm) : pmm := set_used (u32 (used_frames s + 1)) (mark true f s).
Definition release (f : Z) (s : pmm) : pmm := set_used (u32 (used_frames s - 1)) (mark false f s).

Lemma claim_used f s g : words_ok s -> in_bitmap s f ->
  frame_used (claim f s) g = bool_decide (g = f) || frame_used s g.
Proof.
  intros. unfold claim. rewrite frame_used_set_used, frame_used_mark by done.
  case_bool_decide; by destruct decide.
Qed.

Lemma release_used f s g : words_ok s -> in_bitmap s f ->
  frame_used (release f s) g = negb (bool_decide (g = f)) && frame_used s g.
Proof.
  intros. unfold release. rewrite frame_used_set_used, frame_used_mark by done.
  case_bool_decide; by destruct decide.
Qed.

Lemma set_used_mark_wf u b f s : wf s -> in_bitmap s f -> is_u32 u -> (f = 0 -> b = true) ->
  wf (set_used u (mark b f s)).
Proof.
  intros H Hf Hu Hz. destruct H. split; simpl; autorewrite with hos; auto.
  - by apply mark_words_ok.
  - rewrite frame_used_mark by done. destruct decide as [<-|]; auto.
Qed.

Lemma claim_wf f s : wf s -> in_bitmap s f -> wf (claim f s).
Proof. intros. apply set_used_mark_wf; try done. apply u32_range. Qed.
Lemma release_wf f s : wf s -> in_bitmap s f -> f <> 0 -> wf (release f s).
Proof. intros. apply set_used_mark_wf; try done. apply u32_range. Qed.

Lemma mark_frame_used_run s f : in_bitmap s f -> pmm_mark_frame_used f ~{ s }~> tt; claim f s.
Proof.
  intros H. unfold pmm_mark_frame_used.
  erewrite bind_ok by (apply frame_set_run; exact H). unfold modify, claim.
  by rewrite mark_usedf.
Qed.

Lemma lower_wf f s : wf s -> 0 <= f -> lower f s = s.
Proof. intros H Hf. unfold lower. rewrite (wf_lowest _ H). destruct (Z.ltb_spec f 0); [lia|done]. Qed.

Lemma free_frame_run s a : wf s -> in_bitmap s (a / 4096) -> 
  pmm_free_frame a ~{ s }~> tt; release (a / 4096) s.
Proof.
  intros H Hf. unfold pmm_free_frame, modify.
  rewrite (bind_ok _ _ s tt (set_used (u32 (used_frames s - 1)) s)) by done.
  rewrite frame_unseta_run by done. do 2 f_equal. unfold lower, release.
  rewrite mark_set_used. simpl. rewrite mark_lowest, (wf_lowest _ H).
  unfold in_bitmap in Hf. destruct (Z.ltb_spec (a / 4096) 0); [lia|done].
Qed.

(** The two outcomes of [pmm_allocate_frame]. *)
Lemma allocate_frame_run s : wf s ->
  (exists f, pmm_allocate_frame ~{ s }~> f; claim f s /\ 0 < f /\
     least_free s 0 (searched s) f /\ used_frames s < max_frames s) \/
  (pmm_allocate_frame ~{ s }~>! FFatal /\
     (max_frames s <= used_frames s \/ all_used s 0 (searched s))).
Proof.
  intros H. unfold pmm_allocate_frame, gets.
  rewrite (bind_ok _ _ s (max_frames s <=? used_frames s) s) by done.
  destruct (Z.leb_spec (max_frames s) (used_frames s)) as [Hle|Hgt]; [right; auto|].
  destruct (first_free_frame_run s H) as (r & Hr & Hc).
  rewrite (bind_ok _ _ s r s) by done.
  destruct Hc as [[Hl Hpos]|[-> Ha]].
  - left. exists r. destruct (Z.eqb_spec r 0); [lia|].
    pose proof Hl as (Hb & _). pose proof (searched_le s).
    erewrite bind_ok by (apply mark_frame_used_run, wf_in_bitmap; [done|lia]).
    done.
  - right. auto.
Qed.

(** ** Accounting

    The number of used frames below [n]. *)
Fixpoint count_used (s : pmm) (n : nat) : Z :=
  match n with
  | O => 0
  | S n' => count_used s n' + bool_int (frame_used s (Z.of_nat n'))
  end.

(** [used_frames] counts the used frames of the complete words. *)
Definition balanced (s : pmm) : Prop := used_frames s = count_used s (Z.to_nat (searched s)).

Lemma count_used_range s n : 0 <= count_used s n <= Z.of_nat n.
Proof. induction n as [|n IH]; simpl; [lia|]. destruct frame_used; simpl; lia. Qed.

Lemma count_used_ext s s' n : (forall g, frame_used s' g = frame_used s g) ->
  count_used s' n = count_used s n.
Proof. intros H. induction n as [|n IH]; simpl; [done|]. by rewrite IH, H. Qed.

Lemma count_used_update s s' f n b : 0 <= f ->
  (forall g, g <> f -> frame_used s' g = frame_used s g) ->
  frame_used s f = negb b -> frame_used s' f = b ->
  count_used s' n = count_used s n + (if f <? Z.of_nat n then bool_int b - bool_int (negb b) else 0).
Proof.
  intros Hf Hne Hs Hs'. induction n as [|n IH]; [cbn [count_used]; destruct (Z.ltb_spec f (Z.of_nat 0)); cbv iota; lia|].
  simpl count_used. rewrite IH. destruct (decide (f = Z.of_nat n)) as [->|Hd].
  - rewrite Hs, Hs'. destruct b; simpl bool_int;
      destruct (Z.ltb_spec (Z.of_nat n) (Z.of_nat n)), (Z.ltb_spec (Z.of_nat n) (Z.of_nat (S n))); cbv iota; lia.
  - rewrite Hne by lia. destruct (Z.ltb_spec f (Z.of_nat n)), (Z.ltb_spec f (Z.of_nat (S n))); cbv iota; lia.
Qed.

Lemma count_used_free s f n : 0 <= f < Z.of_nat n -> frame_used s f = false -> count_used s n < Z.of_nat n.
Proof.
  intros Hf Hu. induction n as [|n IH]; [lia|]. cbn [count_used].
  pose proof (count_used_range s n). destruct (decide (f = Z.of_nat n)) as [->|].
  - rewrite Hu. cbn [bool_int]. lia.
  - assert (count_used s n < Z.of_nat n) by (apply IH; lia).
    destruct (frame_used s (Z.of_nat n)); cbn [bool_int]; lia.
Qed.

Lemma claim_balanced s f : wf s -> balanced s -> 0 < f < searched s -> frame_used s f = false ->
  balanced (claim f s).
Proof.
  intros H Hb Hf Hu. pose proof (searched_le s). pose proof (wf_max _ H).
  assert (in_bitmap s f) by (apply wf_in_bitmap; [done|lia]).
  unfold balanced, searched. simpl. rewrite mark_max. fold (searched s).
  rewrite (count_used_update s (claim f s) f _ true); try done; [|lia|..].
  - rewrite Hb. destruct (Z.ltb_spec f (Z.of_nat (Z.to_nat (searched s)))); [|lia].
    pose proof (count_used_range s (Z.to_nat (searched s))). simpl. apply u32_small. lia.
  - intros g Hg. unfold claim. rewrite frame_used_set_used. apply frame_used_mark_ne; [apply H|done..].
  - unfold claim. rewrite frame_used_set_used. apply frame_used_mark_eq; [apply H|done].
Qed.

Lemma release_balanced s f : wf s -> balanced s -> 0 < f < searched s -> frame_used s f = true ->
  balanced (release f s).
Proof.
  intros H Hb Hf Hu. pose proof (searched_le s). pose proof (wf_max _ H).
  assert (in_bitmap s f) by (apply wf_in_bitmap; [done|lia]).
  assert (Hcount : count_used (release f s) (Z.to_nat (searched s)) = count_used s (Z.to_nat (searched s)) - 1).
  { rewrite (count_used_update s (release f s) f _ false); try done; [|lia|..].
    - destruct (Z.ltb_spec f (Z.of_nat (Z.to_nat (searched s)))); simpl; lia.
    - intros g Hg. unfold release. rewrite frame_used_set_used. apply frame_used_mark_ne; [apply H|done..].
    - unfold release. rewrite frame_used_set_used. apply frame_used_mark_eq; [apply H|done]. }
  unfold balanced, searched. simpl. rewrite mark_max. fold (searched s). rewrite Hcount, Hb.
  pose proof (count_used_range s (Z.to_nat (searched s))).
  pose proof (count_used_range (release f s) (Z.to_nat (searched s))). apply u32_small. lia.
Qed.

(** The range a request for [n] frames searches: one frame is looked for in the
    complete bitmap words only, several in every frame below [max_frames]. *)
Definition search_limit (s : pmm) (n : Z) : Z := if n =? 1 then searched s else max_frames s.

(** [pmm_first_nfree_frames(n)] returns the start of the first run of [n] free
    frames, or 0 exactly when there is none; it never faults and changes
    nothing. *)
Lemma first_nfree_frames_run s n : wf s -> 0 < n < 4294967296 ->
  exists r, pmm_first_nfree_frames n ~{ s }~> r; s /\
    (0 < r /\ first_run s n (search_limit s n) r \/ r = 0 /\ no_run s n (search_limit s n)).
Proof.
  intros H Hn. unfold pmm_first_nfree_frames, search_limit. destruct (Z.eqb_spec n 0); [lia|].
  destruct (Z.eqb_spec n 1) as [->|].
  - destruct (first_free_frame_run s H) as (r & Hr & Hc). exists r. split; [done|].
    destruct Hc as [[(Hb & Hu & Hl) Hp]|[-> Ha]].
    + left. split; [done|]. split; [lia|]. split; [lia|]. split.
      * intros k Hk. by replace k with r by lia.
      * intros b Hb' Hr'. specialize (Hr' b). rewrite Hl in Hr' by lia. specialize (Hr' ltac:(lia)). done.
    + right. split; [done|]. intros b Hb Hb' Hr'. specialize (Hr' b). rewrite Ha in Hr' by lia.
      specialize (Hr' ltac:(lia)). done.
  - unfold gets. rewrite (bind_ok _ _ s (max_frames s) s) by done. pose proof (wf_max _ H).
    destruct (nfree_loop_run s (Z.to_nat (max_frames s)) n 0 0 H) as (r & Hr & Hc); [lia| |lia|lia|].
    { split; try lia; [intros k Hk; lia|]. left. done. }
    exists r. split; [done|]. destruct Hc as [Hc|Hc]; [left|by right]. split; [|done].
    destruct Hc as (Hb & Hb' & Hf & _). destruct (decide (r = 0)) as [->|]; [|lia].
    pose proof (wf_zero _ H) as Hz. rewrite Hf in Hz by lia. done.
Qed.

(** C21: on a well-formed allocator whose counter is exact, [pmm_allocate_frame]
    succeeds exactly when a frame is free: it hands out the lowest one, marks
    that frame and no other, counts it and keeps the state well formed; when no
    frame is free it stops the machine. *)
Theorem pmm_allocate_frame_correct s : wf s -> balanced s ->
  (exists f, pmm_allocate_frame ~{ s }~> f; claim f s /\ least_free s 0 (searched s) f /\
     f <> 0 /\ wf (claim f s) /\ balanced (claim f s) /\
     forall g, frame_used (claim f s) g = bool_decide (g = f) || frame_used s g) \/
  (pmm_allocate_frame ~{ s }~>! FFatal /\ all_used s 0 (searched s)).
Proof.
  intros H Hb. pose proof (searched_le s) as Hle.
  destruct (allocate_frame_run s H) as [(f & Hrun & Hpos & Hl & _)|[Herr Hc]].
  - left. exists f. pose proof Hl as (Hf & Hu & _).
    assert (in_bitmap s f) by (apply wf_in_bitmap; [done|lia]).
    split_and!; try done; [lia|by apply claim_wf|apply claim_balanced; (done || lia)|].
    intros g. apply claim_used; [apply H|done].
  - right. split; [done|]. destruct Hc as [Hmax|]; [|done]. intros g Hg.
    destruct (frame_used s g) eqn:E; [done|exfalso].
    pose proof (count_used_free s g (Z.to_nat (searched s)) ltac:(lia) E).
    unfold balanced in Hb. lia.
Qed.

(** A frame obtained with [pmm_allocate_frame_addr] and given back with
    [pmm_free_frame] leaves the allocator exactly as it was. *)
Theorem pmm_alloc_free_roundtrip s a s' : wf s -> pmm_allocate_frame_addr ~{ s }~> a; s' ->
  pmm_free_frame a ~{ s' }~> tt; s.
Proof.
  intros H Hrun. unfold pmm_allocate_frame_addr in Hrun. minv Hrun. minv H1.
  destruct (allocate_frame_run s H) as [(f & Hf & Hpos & (Hb & Hu & _) & _)|[Herr _]]; [|congruence].
  rewrite Hf in H0. simplify_eq.
  pose proof (searched_le s). pose proof (wf_max _ H).
  assert (Hin : in_bitmap s a0) by (apply wf_in_bitmap; [done|lia]).
  rewrite Z.shiftl_mul_pow2, u32_small by (unfold FRAME_SHIFT; lia).
  assert (Hdiv : a0 * 2 ^ FRAME_SHIFT / 4096 = a0) by (unfold FRAME_SHIFT; dlia).
  rewrite free_frame_run by (rewrite ?Hdiv; unfold in_bitmap in *; simpl; rewrite ?mark_length;
    auto using claim_wf).
  rewrite Hdiv. unfold release, claim. simpl. rewrite mark_set_used.
  rewrite mark_mark by (try apply H; done).
  do 2 f_equal. destruct s; unfold set_used; simpl in *. f_equal.
  destruct H. simpl in *. wraplia.
Qed.

Lemma search_limit_le s n : search_limit s n <= max_frames s.
Proof. unfold search_limit. pose proof (searched_le s). destruct (n =? 1); lia. Qed.

(** Marking [n] consecutive frames one by one. *)
Lemma mark_run s n r : wf s -> 0 <= n -> 0 <= r -> r + n <= max_frames s ->
  exists s', for_range (Z.to_nat n) 0 (fun i => pmm_mark_frame_used (u32 (r + i))) ~{ s }~> tt; s' /\
    wf s' /\ max_frames s' = max_frames s /\ used_frames s' = u32 (used_frames s + n) /\
    forall g, frame_used s' g = bool_decide (r <= g < r + n) || frame_used s g.
Proof.
  intros H Hn Hr Hmax. pose proof (wf_max _ H).
  destruct (for_range_ok (fun i s' => wf s' /\ max_frames s' = max_frames s /\
    used_frames s' = u32 (used_frames s + i) /\
    forall g, frame_used s' g = bool_decide (r <= g < r + i) || frame_used s g)
    (Z.to_nat n) 0 (fun i => pmm_mark_frame_used (u32 (r + i))) s) as (s' & Hrun & HP).
  - split_and!; [done|done| |].
    + rewrite Z.add_0_r, u32_small; [done|apply (wf_used _ H)].
    + intros g. rewrite bool_decide_false by lia. done.
  - intros i t Hi (Ht & Hmt & Hut & Hg). rewrite u32_small by lia.
    assert (in_bitmap t (r + i)) by (apply wf_in_bitmap; [done|lia]).
    exists (claim (r + i) t). split; [by apply mark_frame_used_run|].
    split_and!; [by apply claim_wf|simpl; by rewrite mark_max| |].
    + simpl. rewrite Hut. wraplia.
    + intros g. rewrite claim_used, Hg by (try apply Ht; done).
      repeat case_bool_decide; try done; lia.
  - exists s'. rewrite Z.add_0_l, Z2Nat.id in HP by lia. done.
Qed.

(** C30: on a well-formed state and for [0 < n < 2^32], [pmm_allocate_frames(n)]
    hands out the first run of [n] contiguous free frames it looks at, marks
    exactly those frames, counts them and keeps the state well formed, when the
    counter [used_frames] is below [max_frames] and there is such a run; when the
    counter has reached [max_frames] or there is no such run it stops the machine,
    and only then. For one frame it looks at the complete words of the bitmap, for
    more at all frames ([search_limit]). *)
Theorem pmm_allocate_frames_correct s n : wf s -> 0 < n < 4294967296 ->
  (exists r s', pmm_allocate_frames n ~{ s }~> r; s' /\ used_frames s < max_frames s /\ 0 < r /\
     first_run s n (search_limit s n) r /\ wf s' /\ used_frames s' = u32 (used_frames s + n) /\
     forall g, frame_used s' g = bool_decide (r <= g < r + n) || frame_used s g) \/
  (pmm_allocate_frames n ~{ s }~>! FFatal /\
     (max_frames s <= used_frames s \/ no_run s n (search_limit s n))).
Proof.
  intros H Hn. unfold pmm_allocate_frames. destruct (Z.eqb_spec n 0); [lia|]. unfold gets.
  rewrite (bind_ok _ _ s (max_frames s <=? used_frames s) s) by done.
  destruct (Z.leb_spec (max_frames s) (used_frames s)) as [Hle|Hgt]; [right; auto|].
  destruct (first_nfree_frames_run s n H Hn) as (r & Hr & Hc). rewrite (bind_ok _ _ s r s) by done.
  destruct Hc as [[Hpos Hc]|[-> Hc]]; [left|right; auto].
  destruct (Z.eqb_spec r 0); [lia|]. pose proof Hc as (_ & Hrn & _). pose proof (search_limit_le s n).
  destruct (mark_run s n r H) as (s' & Hrun & Hwf & Hm & Hu & Hg); [lia..|].
  exists r, s'. erewrite bind_ok by exact Hrun. done.
Qed.

(** ** Initialisation *)

(** The frames of the region of [length] bytes at [addr], as the code rounds it. *)
Definition in_region (addr length f : Z) : bool :=
  (addr / 4096 <=? f) && (f <? addr / 4096 + length / 4096).

Lemma region_frames l : is_u32 l -> Z.shiftr (Z.land l FRAME_MASK) FRAME_SHIFT = l / 4096.
Proof.
  intros Hl. unfold FRAME_SHIFT. rewrite Z.shiftr_land.
  change (Z.shiftr FRAME_MASK 12) with (Z.ones 20).
  rewrite Z.land_ones, Z.shiftr_div_pow2 by lia. unfold is_u32 in Hl. dlia.
Qed.

(** Two states that differ in the bits of the bitmap only. *)
Record same_shape (s s' : pmm) : Prop := {
  ss_words : words_ok s -> words_ok s';
  ss_length : length (frames_bitmap s') = length (frames_bitmap s);
  ss_max : max_frames s' = max_frames s;
  ss_used : used_frames s' = used_frames s;
  ss_lowest : lowest_available s' = lowest_available s
}.

#[export] Instance same_shape_refl : Reflexive same_shape.
Proof. done. Qed.
#[export] Instance same_shape_trans : Transitive same_shape.
Proof. intros x y z [] []. split; try congruence; auto. Qed.

Lemma mark_same_shape b f s : same_shape s (mark b f s).
Proof. split; autorewrite with hos; auto using mark_words_ok. Qed.

(** The loop of [pmm_init_region] and [pmm_deinit_region]: [op] marks one frame. *)
Lemma region_loop b op s a l : words_ok s -> lowest_available s = 0 -> 0 <= a -> is_u32 l ->
  a / 4096 + l / 4096 <= 32 * Z.of_nat (length (frames_bitmap s)) <= 4294967296 ->
  (forall t f, in_bitmap t f -> lowest_available t = 0 -> op f ~{ t }~> tt; mark b f t) ->
  exists s', for_range (Z.to_nat (l / 4096)) 0 (fun i => op (u32 (i + a / 4096))) ~{ s }~> tt; s' /\
    same_shape s s' /\
    forall g, frame_used s' g = if in_region a l g then b else frame_used s g.
Proof.
  intros Hw Hlow Ha Hl Hfit Hop.
  assert (0 <= l / 4096) by (unfold is_u32 in Hl; dlia). assert (0 <= a / 4096) by dlia.
  destruct (for_range_ok (fun i s' => same_shape s s' /\
    forall g, frame_used s' g = if (a / 4096 <=? g) && (g <? a / 4096 + i) then b else frame_used s g)
    (Z.to_nat (l / 4096)) 0 (fun i => op (u32 (i + a / 4096))) s) as (s' & Hrun & HP).
  - split; [done|]. intros g. destruct (Z.leb_spec (a / 4096) g), (Z.ltb_spec g (a / 4096 + 0)); try done; lia.
  - intros i t Hi (Hs & Hg). rewrite u32_small by lia.
    assert (Hin : in_bitmap t (i + a / 4096)) by (unfold in_bitmap; rewrite (ss_length _ _ Hs); lia).
    exists (mark b (i + a / 4096) t). split; [apply Hop; [done|by rewrite (ss_lowest _ _ Hs)]|].
    split; [etrans; [exact Hs|apply mark_same_shape]|].
    intros g. rewrite frame_used_mark, Hg by (try apply (ss_words _ _ Hs); done).
    destruct decide as [->|Hne].
    + destruct (Z.leb_spec (a / 4096) (i + a / 4096)), (Z.ltb_spec (i + a / 4096) (a / 4096 + (i + 1))); try done; lia.
    + destruct (Z.leb_spec (a / 4096) g), (Z.ltb_spec g (a / 4096 + i)), (Z.ltb_spec g (a / 4096 + (i + 1))); try done; lia.
  - exists s'. rewrite Z.add_0_l, Z2Nat.id in HP by lia. done.
Qed.

Definition fits (s : pmm) (a l : Z) : Prop :=
  0 <= a /\ is_u32 l /\ a / 4096 + l / 4096 <= 32 * Z.of_nat (length (frames_bitmap s)).

Definition boot_state (s : pmm) : Prop :=
  words_ok s /\ lowest_available s = 0 /\ 32 * Z.of_nat (length (frames_bitmap s)) <= 4294967296.

Lemma boot_state_shape s s' : boot_state s -> same_shape s s' -> boot_state s'.
Proof. intros (? & ? & ?) []. unfold boot_state. by rewrite ss_length0, ss_lowest0; auto. Qed.
Lemma fits_shape s s' a l : fits s a l -> same_shape s s' -> fits s' a l.
Proof. intros (? & ? & ?) []. unfold fits. by rewrite ss_length0. Qed.

Lemma init_region_run s a l : boot_state s -> fits s a l ->
  exists s', pmm_init_region a l ~{ s }~> tt; s' /\ same_shape s s' /\
    forall g, frame_used s' g = negb (in_region a l g) && frame_used s g.
Proof.
  intros (Hw & Hlow & Hlen) (Ha & Hl & Hfit).
  destruct (region_loop false pmm_frame_unset s a l) as (s' & Hrun & Hs & Hg); try done.
  - intros t f Hin Ht. rewrite frame_unset_run by done. unfold lower.
    rewrite mark_lowest, Ht. unfold in_bitmap in Hin. destruct (Z.ltb_spec f 0); [lia|done].
  - exists s'. split; [|split; [done|]].
    + unfold pmm_init_region. by rewrite region_frames.
    + intros g. rewrite Hg. by destruct (in_region a l g).
Qed.

Lemma deinit_region_run s a l : boot_state s -> fits s a l ->
  exists s', pmm_deinit_region a l ~{ s }~> tt; s' /\ same_shape s s' /\
    forall g, frame_used s' g = in_region a l g || frame_used s g.
Proof.
  intros (Hw & Hlow & Hlen) (Ha & Hl & Hfit).
  destruct (region_loop true pmm_frame_set s a l) as (s' & Hrun & Hs & Hg); try done.
  - intros t f Hin Ht. by apply frame_set_run.
  - exists s'. split; [|split; [done|]].
    + unfold pmm_deinit_region. by rewrite region_frames.
    + intros g. rewrite Hg. by destruct (in_region a l g).
Qed.

(** A frame the memory map reports as available. *)
Definition available (entries : list mmap_entry) (f : Z) : bool :=
  existsb (fun e => (mm_type e =? 1) && in_region (u32 (mm_addr e)) (u32 (mm_len e)) f) entries.

Definition entry_fits (s : pmm) (e : mmap_entry) : Prop :=
  mm_type e = 1 -> fits s (u32 (mm_addr e)) (u32 (mm_len e)).

Lemma init_regions_run entries s : boot_state s -> Forall (entry_fits s) entries ->
  exists s', init_regions entries ~{ s }~> tt; s' /\ same_shape s s' /\
    forall g, frame_used s' g = negb (available entries g) && frame_used s g.
Proof.
  revert s. induction entries as [|e es IH]; intros s Hs Hfit.
  { exists s. done. }
  apply Forall_cons in Hfit as [He Hes]. simpl.
  destruct (Z.eqb_spec (mm_type e) 1) as [Ht|Ht]; simpl.
  - destruct (init_region_run s _ _ Hs (He Ht)) as (s1 & Hr1 & Hs1 & Hg1).
    destruct (IH s1) as (s2 & Hr2 & Hs2 & Hg2); [by eapply boot_state_shape| |].
    { eapply Forall_impl; [exact Hes|]. intros e' He' Ht'. eapply fits_shape; [by apply He'|done]. }
    exists s2. erewrite bind_ok by exact Hr1. split; [done|]. split; [by etrans|].
    intros g. rewrite Hg2, Hg1. fold (available es g). by destruct (in_region _ _ _), (available es g).
  - destruct (IH s Hs Hes) as (s2 & Hr2 & Hs2 & Hg2). exists s2. done.
Qed.

(** The two nested counting loops. *)
Lemma count_word_run s i : words_ok s -> is_u32 (used_frames s) ->
  0 <= i < Z.of_nat (length (frames_bitmap s)) ->
  for_range 32 0 (fun j =>
      w ← bitmap_read i;
      if word_test w j then modify (fun s => set_used (u32 (used_frames s + 1)) s)
      else mret tt) ~{ s }~> tt;
  set_used (u32 (used_frames s + (count_used s (Z.to_nat (32 * (i + 1))) - count_used s (Z.to_nat (32 * i))))) s.
Proof.
  intros Hw Hu Hi. destruct (zlookup_some _ _ Hi) as [w Hlook].
  destruct (for_range_ok (fun j t => t = set_used (u32 (used_frames s +
      (count_used s (Z.to_nat (32 * i + j)) - count_used s (Z.to_nat (32 * i))))) s)
    32 0 (fun j => w ← bitmap_read i;
      if word_test w j then modify (fun s => set_used (u32 (used_frames s + 1)) s)
      else mret tt) s) as (s' & Hrun & HP).
  - rewrite Z.add_0_r, Z.sub_diag, Z.add_0_r, u32_small by done. by destruct s.
  - intros j t Hj ->. eexists. split.
    + erewrite bind_ok by (apply bitmap_read_ok; exact Hlook).
      rewrite word_test_testbit by lia.
      instantiate (1 := set_used (u32 (used_frames s +
        (count_used s (Z.to_nat (32 * i + (j + 1))) - count_used s (Z.to_nat (32 * i))))) s).
      replace (Z.to_nat (32 * i + (j + 1))) with (S (Z.to_nat (32 * i + j))) by lia.
      cbn [count_used]. rewrite Z2Nat.id by lia. erewrite frame_used_word by (done || lia).
      destruct (Z.testbit w j); unfold modify, mret, M_ret, set_used; simpl bool_int; simpl;
        do 3 f_equal; wraplia.
    + done.
  - rewrite Hrun, HP. do 2 f_equal. do 2 f_equal. f_equal. f_equal. f_equal. lia.
Qed.

Lemma count_used_set_used u s n : count_used (set_used u s) n = count_used s n.
Proof. by apply count_used_ext. Qed.

Lemma count_used_frames_run s : words_ok s -> is_u32 (used_frames s) -> 0 <= max_frames s ->
  max_frames s / 32 <= Z.of_nat (length (frames_bitmap s)) ->
  count_used_frames ~{ s }~> tt; set_used (u32 (used_frames s + count_used s (Z.to_nat (searched s)))) s.
Proof.
  intros Hw Hu Hm Hlen. assert (0 <= max_frames s / 32) by dlia.
  unfold count_used_frames, gets. rewrite (bind_ok _ _ s (FRAME_INDEX (max_frames s)) s) by done.
  rewrite frame_index_div.
  edestruct (for_range_ok (fun i t => t = set_used (u32 (used_frames s + count_used s (Z.to_nat (32 * i)))) s)
    (Z.to_nat (max_frames s / 32)) 0) as (s' & Hrun & HP); cycle 2.
  - rewrite Hrun, HP. rewrite Z.add_0_l, Z2Nat.id by lia. done.
  - change (Z.to_nat (32 * 0)) with 0%nat. cbn [count_used]. rewrite Z.add_0_r, u32_small by done.
    by destruct s.
  - intros i t Hi ->. eexists. split.
    + apply count_word_run; simpl; [done|apply u32_range|lia].
    + rewrite !count_used_set_used. unfold set_used. simpl. f_equal. wraplia.
Qed.

(** What the boot information must satisfy for [pmm_init] to stay inside the
    bitmap it lays out: every region it frees or reserves fits in it. *)
Definition bitmap_words (b : boot_info) : Z := highest_address b / 4096 / 32 + 1.
Definition bitmap_end (b : boot_info) : Z :=
  u32 (PAGE_ALIGN (kernel_phy_end b) + bitmap_words b * 4).

Definition region_ok (b : boot_info) (addr len : Z) : Prop :=
  0 <= addr /\ is_u32 len /\ addr / 4096 + len / 4096 <= 32 * bitmap_words b.

Record boot_ok (b : boot_info) : Prop := {
  bo_highest : is_u32 (highest_address b);
  bo_mmap : Forall (fun e => mm_type e = 1 -> region_ok b (u32 (mm_addr e)) (u32 (mm_len e))) (multiboot_mmap b);
  bo_boot : region_ok b 0 (bootloader_phy_end b);
  bo_kernel : region_ok b (kernel_phy_start b) (kernel_size b);
  bo_bitmap : region_ok b (kernel_phy_end b) (u32 (bitmap_end b - kernel_phy_end b));
  bo_video : region_ok b (video_phy_start b) (u32 (video_phy_end b - video_phy_start b))
}.

(** The frames [pmm_init] reserves: frame 0, the boot code, the kernel, the
    bitmap that follows it and the video memory. *)
Definition reserved (b : boot_info) (f : Z) : bool :=
  bool_decide (f = 0) || in_region 0 (bootloader_phy_end b) f
  || in_region (kernel_phy_start b) (kernel_size b) f
  || in_region (kernel_phy_end b) (u32 (bitmap_end b - kernel_phy_end b)) f
  || in_region (video_phy_start b) (u32 (video_phy_end b - video_phy_start b)) f.

(** The state after the bitmap has been laid out with every bit set. *)
Definition laid_out (b : boot_info) : pmm :=
  MkPmm (highest_address b) (replicate (Z.to_nat (bitmap_words b)) 4294967295)
        (highest_address b / 4096 + 1) 0 (bitmap_words b * 4) 0.

Lemma laid_out_boot_state b : boot_ok b -> boot_state (laid_out b).
Proof.
  intros Hb. pose proof (bo_highest _ Hb). unfold is_u32 in *.
  split; [|split; [done|]].
  - unfold words_ok. simpl. by apply Forall_replicate.
  - simpl. rewrite length_replicate. unfold bitmap_words. dlia.
Qed.

Lemma laid_out_used b f : boot_ok b -> frame_used (laid_out b) f = true.
Proof.
  intros Hb. unfold frame_used, laid_out. simpl. destruct zlookup as [w|] eqn:E; [|done].
  unfold zlookup in E. destruct (0 <=? f / 32); [|done].
  apply lookup_replicate in E as [-> _]. apply (word_full_iff 4294967295); [done|done|dlia].
Qed.

Lemma region_ok_fits b s a l : boot_ok b -> same_shape (laid_out b) s -> region_ok b a l -> fits s a l.
Proof.
  intros Hb Hs (Ha & Hl & Hf). eapply fits_shape; [|exact Hs].
  split_and!; [done..|]. simpl. rewrite length_replicate, Z2Nat.id; [done|].
  pose proof (bo_highest _ Hb). unfold is_u32, bitmap_words in *. dlia.
Qed.

Lemma pmm_init_unfold b : boot_ok b ->
  pmm_init b pmm_static =
  (init_regions (multiboot_mmap b) ;; pmm_frame_set 0 ;;
   pmm_deinit_region 0 (bootloader_phy_end b) ;;
   pmm_deinit_region (kernel_phy_start b) (kernel_size b) ;;
   pmm_deinit_region (kernel_phy_end b) (u32 (bitmap_end b - kernel_phy_end b)) ;;
   pmm_deinit_region (video_phy_start b) (u32 (video_phy_end b - video_phy_start b)) ;;
   count_used_frames) (laid_out b).
Proof.
  intros Hb. unfold pmm_init. rewrite frame_shift_div, frame_index_div, Z.add_simpl_r.
  fold (bitmap_words b). fold (bitmap_end b). rewrite Z.div_mul by done.
  unfold modify. by rewrite (bind_ok _ _ pmm_static tt (laid_out b)).
Qed.

Lemma deinit_boot b s a l : boot_ok b -> same_shape (laid_out b) s -> region_ok b a l ->
  exists s', pmm_deinit_region a l ~{ s }~> tt; s' /\ same_shape (laid_out b) s' /\
    forall g, frame_used s' g = in_region a l g || frame_used s g.
Proof.
  intros Hb Hs Hr.
  destruct (deinit_region_run s a l) as (s' & Hrun & Hs' & Hg).
  - eapply boot_state_shape; [by apply laid_out_boot_state|done].
  - by eapply region_ok_fits.
  - exists s'. split_and!; [done|by etrans|done].
Qed.

(** The reservations of [pmm_init], before its last step [k]. *)
Lemma reserve_run b s : boot_ok b -> same_shape (laid_out b) s ->
  exists s', same_shape (laid_out b) s' /\
    (forall k : M pmm unit,
      (pmm_frame_set 0 ;;
       pmm_deinit_region 0 (bootloader_phy_end b) ;;
       pmm_deinit_region (kernel_phy_start b) (kernel_size b) ;;
       pmm_deinit_region (kernel_phy_end b) (u32 (bitmap_end b - kernel_phy_end b)) ;;
       pmm_deinit_region (video_phy_start b) (u32 (video_phy_end b - video_phy_start b)) ;;
       k) s = k s') /\
    forall g, frame_used s' g = reserved b g || frame_used s g.
Proof.
  intros Hb Hs. pose proof (bo_highest _ Hb) as Hh.
  assert (Hin0 : in_bitmap s 0).
  { unfold in_bitmap. rewrite (ss_length _ _ Hs). cbn [laid_out frames_bitmap].
    rewrite length_replicate. unfold bitmap_words, is_u32 in *. dlia. }
  pose proof (ss_words _ _ Hs (proj1 (laid_out_boot_state _ Hb))) as W.
  assert (S2 : same_shape (laid_out b) (mark true 0 s)) by (etrans; [exact Hs|apply mark_same_shape]).
  destruct (deinit_boot b _ _ _ Hb S2 (bo_boot _ Hb)) as (s3 & R3 & S3 & G3).
  destruct (deinit_boot b _ _ _ Hb S3 (bo_kernel _ Hb)) as (s4 & R4 & S4 & G4).
  destruct (deinit_boot b _ _ _ Hb S4 (bo_bitmap _ Hb)) as (s5 & R5 & S5 & G5).
  destruct (deinit_boot b _ _ _ Hb S5 (bo_video _ Hb)) as (s6 & R6 & S6 & G6).
  exists s6. split_and!; [done| |].
  - intros k. rewrite (bind_ok _ _ _ _ _ (frame_set_run _ _ Hin0)).
    rewrite (bind_ok _ _ _ _ _ R3), (bind_ok _ _ _ _ _ R4), (bind_ok _ _ _ _ _ R5).
    by rewrite (bind_ok _ _ _ _ _ R6).
  - intros g. rewrite G6, G5, G4, G3, frame_used_mark by done. unfold reserved.
    case_bool_decide; destruct decide; try done.
    all: repeat destruct (in_region _ _ g); done.
Qed.

(** Whenever the regions of the boot information fit in the bitmap,
    [pmm_init] runs to its end and leaves a well-formed allocator with an exact
    counter, in which a frame is free if and only if the memory map reports it
    as available and it is not reserved for frame 0, the boot code, the kernel,
    the bitmap or the video memory (each rounded as the code rounds it). *)
Theorem pmm_init_correct b : boot_ok b ->
  exists s, pmm_init b ~{ pmm_static }~> tt; s /\ wf s /\ balanced s /\
    max_frames s = highest_address b / 4096 + 1 /\
    forall f, 0 <= f < 32 * bitmap_words b ->
      frame_used s f = reserved b f || negb (available (multiboot_mmap b) f).
Proof.
  intros Hb. rewrite pmm_init_unfold by done.
  pose proof (bo_highest _ Hb) as Hh. pose proof (laid_out_boot_state _ Hb) as Hbs.
  destruct (init_regions_run (multiboot_mmap b) (laid_out b) Hbs) as (s1 & R1 & S1 & G1).
  { eapply Forall_impl; [exact (bo_mmap _ Hb)|]. intros e He Ht. by eapply region_ok_fits; auto. }
  destruct (reserve_run b s1 Hb S1) as (s & S & Hrun & G).
  assert (Hg : forall g, frame_used s g = reserved b g || negb (available (multiboot_mmap b) g)).
  { intros g. rewrite G, G1, laid_out_used by done. by rewrite andb_true_r. }
  destruct (boot_state_shape _ _ Hbs S) as (W & L & _). destruct S as [_ Hlen Hmax Husd _].
  cbn [laid_out frames_bitmap max_frames used_frames] in *. rewrite length_replicate in Hlen.
  exists (set_used (u32 (used_frames s + count_used s (Z.to_nat (searched s)))) s).
  erewrite bind_ok by exact R1. rewrite Hrun. split.
  { apply count_used_frames_run; [done|by rewrite Husd|..]; rewrite Hmax, ?Hlen;
      unfold bitmap_words, is_u32 in *; dlia. }
  pose proof (count_used_range s (Z.to_nat (searched s))) as Hc.
  assert (Hs32 : searched s <= 1048576) by (unfold searched, is_u32 in *; rewrite Hmax; dlia).
  split_and!; [| |done|intros f _; rewrite frame_used_set_used; apply Hg]; cycle 1.
  { unfold balanced. rewrite count_used_set_used. cbn [set_used used_frames].
    change (searched (set_used _ s)) with (searched s). rewrite Husd, Z.add_0_l.
    apply u32_small. lia. }
  split; cbn [set_used max_frames frames_bitmap lowest_available used_frames].
  - done.
  - rewrite Hmax. unfold is_u32 in *. dlia.
  - rewrite Hmax, Hlen. unfold bitmap_words, is_u32 in *. dlia.
  - rewrite frame_used_set_used, Hg. done.
  - done.
  - apply u32_range.
Qed.

(** ** The contract of the allocator *)

#[refine, export] Instance pmm_frame_allocator : FrameAllocator pmm := {
  fa_alloc := pmm_allocate_frame;
  fa_free := pmm_free_frame;
  fa_mark := pmm_frame_seta;
  fa_ok := wf;
  fa_limit := max_frames;
  fa_used := frame_used
}.
Proof.
  - intros s f s' H Hrun. destruct (allocate_frame_run s H) as [(f' & Hf & Hpos & (Hb & Hu & _) & _)|[? _]];
      [|congruence]. rewrite Hf in Hrun. simplify_eq. pose proof (searched_le s). pose proof (wf_max _ H).
    assert (in_bitmap s f) by (apply wf_in_bitmap; [done|lia]).
    split_and!; [by apply claim_wf|apply mark_max|lia|lia|lia|done|].
    intros g. apply claim_used; [apply H|done].
  - intros s e H Hrun. destruct (allocate_frame_run s H) as [(f' & Hf & _)|[? _]]; congruence.
  - intros s a H Ha. assert (in_bitmap s (a / 4096)) by (apply wf_in_bitmap; [done|lia]).
    exists (release (a / 4096) s).
    split_and!; [by apply free_frame_run|apply release_wf; (done || lia)|apply mark_max|].
    intros g. apply release_used; [apply H|done].
  - intros s a H Ha. assert (Hin : in_bitmap s (a / 4096)) by (apply wf_in_bitmap; [done|lia]).
    exists (mark true (a / 4096) s).
    split_and!; [by apply frame_seta_run| |apply mark_max|].
    + replace (mark true (a / 4096) s) with (set_used (used_frames s) (mark true (a / 4096) s)).
      { apply set_used_mark_wf; try done. apply H. }
      unfold set_used, mark. destruct zlookup; by destruct s.
    + intros g. rewrite frame_used_mark by (try apply H; done). case_bool_decide; by destruct decide.
Defined.

(** However a client interleaves [pmm_allocate_frame] and [pmm_free_frame]
    on the frames it owns, starting from a well-formed allocator and owning
    nothing, it never owns a frame twice and never gets a frame that was in use
    before: the used frames are at every moment the initial ones and the owned
    ones. *)
Theorem pmm_frames_exclusive s es owned s' : wf s ->
  fa_trace es [] ~{ s }~> owned; s' ->
  wf s' /\ NoDup owned /\
  (forall f, f ∈ owned -> 0 < f < max_frames s' /\ frame_used s f = false) /\
  (forall g, frame_used s' g = true <-> g ∈ owned \/ frame_used s g = true).
Proof.
  intros H Hrun.
  assert (H0 : owns (fun f => frame_used s f = true) [] s).
  { split; try done; [apply (wf_max _ H)|constructor|set_solver|set_solver|].
    intros g. simpl. set_solver. }
  destruct (fa_trace_owns _ _ _ _ _ _ H0 Hrun) as [Hok _ Hnd Hr Hd Hu].
  split_and!; [done|done| |done].
  intros f Hf. split; [by apply Hr|]. apply not_true_iff_false, Hd, Hf.
Qed.

(** ** Boot information of a small machine, and two defects of [pmm_init]

    A machine with 16 MiB of memory, the kernel in [0x101000, 0x200000) and the
    EGA text screen. *)
Definition demo_boot : boot_info :=
  MkBoot 16777215 1052672 2097152 1044480 1052672 753664 757664
    [MkEntry 0 654336 1; MkEntry 1048576 15728640 1].

Definition demo : pmm := MkPmm 131071 [3] 32 2 4 0.

Lemma demo_wf : wf demo.
Proof. split; try done; try (simpl; lia). repeat constructor; done. Qed.
Lemma demo_balanced : balanced demo.
Proof. vm_compute. reflexivity. Qed.

Ltac region_ok_tac := split_and!; [vm_compute; congruence|split; vm_compute; congruence|vm_compute; congruence].

Lemma demo_boot_ok : boot_ok demo_boot.
Proof.
  split; try region_ok_tac; [split; vm_compute; congruence|].
  apply Forall_cons. split; [intros _; region_ok_tac|].
  apply Forall_cons. split; [intros _; region_ok_tac|]. by apply Forall_nil.
Qed.

(** The length of the region that is meant to protect the bitmap is rounded
    down to whole frames, so the frame holding the end of the bitmap can stay
    free: with the boot information of [demo_boot] the bitmap lies in frame 512,
    and [pmm_init] leaves that frame free. *)
Theorem pmm_init_bitmap_frame_free :
  exists s, pmm_init demo_boot ~{ pmm_static }~> tt; s /\
    PAGE_ALIGN (kernel_phy_end demo_boot) / 4096 = 512 /\ 0 < frames_bitmap_size s /\
    frame_used s 512 = false.
Proof.
  assert (Hrun : exists s, pmm_init demo_boot pmm_static = Ok (tt, s) /\
    (0 <? frames_bitmap_size s) && negb (frame_used s 512) = true).
  { vm_compute. eexists. split; reflexivity. }
  destruct Hrun as (s & Hs & Hc). apply andb_true_iff in Hc as [H1 H2].
  exists s. split_and!; [done|reflexivity|lia|by apply negb_true_iff].
Qed.

(** The bitmap is sized by the highest RAM address, but the video memory is
    marked in it wherever it is: when the frame buffer lies above the RAM (here
    at 0xFD000000 on a 16 MiB machine) [pmm_init] writes outside the bitmap. *)
Theorem pmm_init_framebuffer_out_of_bounds :
  pmm_init (MkBoot 16777215 1052672 2097152 1044480 1052672 4244635648 4247781376
    [MkEntry 0 654336 1; MkEntry 1048576 15728640 1]) ~{ pmm_static }~>! FBound 32384.
Proof. vm_compute. reflexivity. Qed.

(** ** Witnesses *)
Lemma pmm_allocate_frame_correct_witness : pmm_allocate_frame ~{ demo }~> 2; claim 2 demo.
Proof.
  destruct (pmm_allocate_frame_correct demo demo_wf demo_balanced)
    as [(f & Hrun & Hl & _)|[Herr _]]; [|vm_compute in Herr; discriminate].
  vm_compute. reflexivity.
Defined.

Lemma pmm_allocate_frames_correct_witness :
  exists s', pmm_allocate_frames 3 ~{ demo }~> 2; s' /\ frame_used s' 4 = true /\ frame_used s' 5 = false.
Proof.
  destruct (pmm_allocate_frames_correct demo 3 demo_wf ltac:(lia))
    as [(r & s' & Hrun & _ & _ & _ & _ & _ & Hg)|[Herr _]]; [|vm_compute in Herr; discriminate].
  assert (Hr : r = 2) by (vm_compute in Hrun; by injection Hrun). subst r.
  exists s'. split_and!; [done|by rewrite Hg|by rewrite Hg].
Defined.

Lemma pmm_alloc_free_roundtrip_witness : pmm_free_frame 8192 ~{ claim 2 demo }~> tt; demo.
Proof. apply (pmm_alloc_free_roundtrip demo 8192 (claim 2 demo) demo_wf). vm_compute. reflexivity. Defined.

Lemma pmm_init_correct_witness : exists s, pmm_init demo_boot ~{ pmm_static }~> tt; s /\ wf s.
Proof.
  destruct (pmm_init_correct demo_boot demo_boot_ok) as (s & Hrun & Hwf & _). exists s. by split.
Defined.

Lemma pmm_frames_exclusive_witness :
  exists s', fa_trace [EAlloc; EAlloc; EFree 1; EAlloc] [] ~{ demo }~> [2; 3]; s' /\ NoDup [2; 3].
Proof.
  exists (claim 2 (release 2 (claim 3 (claim 2 demo)))).
  assert (Hrun : fa_trace [EAlloc; EAlloc; EFree 1; EAlloc] [] ~{ demo }~> [2; 3];
    claim 2 (release 2 (claim 3 (claim 2 demo)))) by (vm_compute; reflexivity).
  split; [done|]. apply (pmm_frames_exclusive demo _ _ _ demo_wf Hrun).
Defined.

End Pmm.
