(* ===== verification/Kheap.v ===== *)
(** * The kernel heap (src/kernel/memory/kheap.c)

    The heap is a region of virtual memory that starts with three words (the
    first block, the last block, the first free block) and holds blocks, each
    with a header [block_t] of three words. The model keeps the words of the
    region in a map from addresses and follows the pointers as the code does; the
    pages come from the [PageMapper] interface. The second part states which
    lists of blocks a memory represents, and proves that [kmalloc] and [kfree]
    maintain disjoint blocks and touch no allocated byte. *)

From S2P Require Import Prelude Interfaces.

Module Kheap.
Section Kheap.
Context {Vm : Type} `{PageMapper Vm}.

(** ** State

    [kernel_heap] (a [vm_area_struct_t]) and [kernel_heap_top], with the memory
    they describe. A word that was never written is 0, because
    [vmm_create_page] clears a page when it maps it. *)
Record heap : Type := MkHeap {
  h_mem : gmap Z Z;
  h_vm : Vm;
  vm_start : Z;
  vm_end : Z;
  vm_flags : Z;
  kernel_heap_top : Z
}.

Definition set_mem (m : gmap Z Z) (h : heap) : heap :=
  MkHeap m (h_vm h) (vm_start h) (vm_end h) (vm_flags h) (kernel_heap_top h).
Definition set_top (t : Z) (h : heap) : heap :=
  MkHeap (h_mem h) (h_vm h) (vm_start h) (vm_end h) (vm_flags h) t.
Definition set_vm (v : Vm) (h : heap) : heap :=
  MkHeap (h_mem h) v (vm_start h) (vm_end h) (vm_flags h) (kernel_heap_top h).

Definition word (h : heap) (a : Z) : Z := default 0 (h_mem h !! a).
Definition put (a v : Z) (h : heap) : heap := set_mem (<[a := v]> (h_mem h)) h.

(** The model covers the accesses to aligned words of mapped pages; any other
    one is a fault. *)
Definition accessible (h : heap) (a : Z) : bool :=
  (a mod 4 =? 0) && pm_mapped (h_vm h) (a / 4096).
Definition rd (a : Z) : M heap Z := fun h =>
  if accessible h a then Ok (word h a, h) else Err (FPtr a).
Definition wr (a v : Z) : M heap unit := fun h =>
  if accessible h a then Ok (tt, put a v h) else Err (FPtr a).

(** A page is cleared when it is mapped for the first time. *)
Definition clear_page (p : Z) (m : gmap Z Z) : gmap Z Z :=
  filter (fun kv => kv.1 / 4096 <> p) m.
Definition vmm_create_page (a flags : Z) : M heap unit := fun h =>
  match pm_create a flags (h_vm h) with
  | Ok (_, v) =>
      Ok (tt, set_vm v (if pm_mapped (h_vm h) (a / 4096) then h
                        else set_mem (clear_page (a / 4096) (h_mem h)) h))
  | Err f => Err f
  end.

(** ** Blocks: [size], [nextfree], [next] *)
Definition OVERHEAD : Z := 12.
Definition b_nextfree (b : Z) : Z := u32 (b + 4).
Definition b_next (b : Z) : Z := u32 (b + 8).

Definition ADDR_ALIGN (a : Z) : Z := u32 (Z.land a 4294963200 + 4096).
Definition IS_ALIGN (a : Z) : bool := Z.land a 4095 =? 0.
Definition CEIL (n base : Z) : Z := Z.land (u32 (n + base - 1)) (u32_not (base - 1)).
Definition ALIGN_UP (a : Z) : Z := Z.land (u32 (a + 4095)) (u32_not 4095).

Definition block_get_real_size (size : Z) : Z := u32 (Z.shiftl (Z.shiftr size 1) 1).
Definition block_set_free (b : Z) (x : bool) : M heap unit :=
  w ← rd b; wr b (if x then Z.lor w 1 else Z.land w 4294967294).
Definition block_is_free (b : Z) : M heap bool :=
  if b =? NULL then mret false
  else w ← rd b; mret (negb (Z.land w 1 =? 0)).
Definition block_is_fit (b size : Z) : M heap bool :=
  w ← rd b;
  if w >=? block_get_real_size size then block_is_free b else mret false.

(** The length of a walk over linked blocks that ends: every block but the last
    holds a pointer different from 0, hence a word of the map, and a longer walk
    visits a block twice and never ends. *)
Definition walk_fuel (h : heap) : nat := S (S (size (h_mem h))).

(** [while (prev != NULL && prev->nextfree != block) prev = prev->nextfree;] *)
Fixpoint find_prev_free (fuel : nat) (block prev : Z) : M heap Z :=
  match fuel with
  | O => fail FLoop
  | S fuel =>
      if prev =? NULL then mret NULL
      else nf ← rd (b_nextfree prev);
           if nf =? block then mret prev else find_prev_free fuel block nf
  end.

(** The link that leads to [block] is made to skip it. *)
Definition unlink_free (block freelist : Z) : M heap unit :=
  first ← rd freelist;
  if block =? first
  then nf ← rd (b_nextfree block); wr freelist nf
  else fuel ← gets walk_fuel;
       prev ← find_prev_free fuel block first;
       if prev =? NULL then mret tt
       else nf ← rd (b_nextfree block); wr (b_nextfree prev) nf.

Definition block_remove_from_freelist (block freelist : Z) : M heap unit :=
  unlink_free block freelist ;;
  wr (b_nextfree block) NULL.

Definition block_add_to_freelist (block freelist : Z) : M heap unit :=
  first ← rd freelist;
  wr (b_nextfree block) first ;;
  wr freelist block.

(** The loop of [block_find_best_fitting]; [skip] is the test that makes it
    [continue]. *)
Fixpoint best_loop (skip : Z -> M heap bool) (fuel : nat) (current best : Z) : M heap Z :=
  match fuel with
  | O => fail FLoop
  | S fuel =>
      if current =? NULL then mret best
      else
        sk ← skip current;
        best' ← (if (sk : bool) then mret best
                 else if best =? NULL then mret current
                 else cs ← rd current; bs ← rd best;
                      mret (if cs <? bs then current else best));
        nf ← rd (b_nextfree current);
        best_loop skip fuel nf best'
  end.

Definition block_find_best_fitting (size freelist : Z) : M heap Z :=
  first ← rd freelist;
  if first =? NULL then mret NULL
  else fuel ← gets walk_fuel;
       best_loop (fun c => f ← block_is_fit c size; mret (negb f)) fuel first NULL.

(** [current + sizeof(block_t)] is pointer arithmetic: 12 blocks of 12 bytes. *)
Definition block_find_best_fitting_align (size freelist : Z) : M heap Z :=
  first ← rd freelist;
  if first =? NULL then mret NULL
  else fuel ← gets walk_fuel;
       best_loop (fun c => f ← block_is_fit c size;
                           mret (negb f && IS_ALIGN (u32 (c + 12 * 12)))) fuel first NULL.

(** [while (prev->next != block) prev = prev->next;] *)
Fixpoint find_prev (fuel : nat) (block prev : Z) : M heap Z :=
  match fuel with
  | O => fail FLoop
  | S fuel =>
      nx ← rd (b_next prev);
      if nx =? block then mret prev else find_prev fuel block nx
  end.

Definition block_get_previous_block (block head : Z) : M heap Z :=
  head_block ← rd head;
  if block =? head_block then mret NULL
  else fuel ← gets walk_fuel; find_prev fuel block head_block.

Definition block_get_next_block (block tail : Z) : M heap Z :=
  tail_block ← rd tail;
  if block =? tail_block then mret NULL else rd (b_next block).

(** ** Growing the heap *)
Definition do_brk (increment : Z) : M heap Z :=
  if 0 <? increment then
    heap_top ← gets kernel_heap_top;
    heap_end ← gets vm_end;
    let new_boundary := u32 (heap_top + increment) in
    if new_boundary <=? heap_end then
      flags ← gets vm_flags;
      let startAddr := ALIGN_UP heap_top in
      let endAddr := ALIGN_UP (u32 (heap_top + increment)) in
      for_range (Z.to_nat ((endAddr - startAddr) / 4096)) 0
        (fun i => vmm_create_page (startAddr + i * 4096) flags) ;;
      modify (set_top new_boundary) ;;
      mret heap_top
    else mret NULL
  else mret NULL.

(** The argument of [ksbrk] is an [int]. *)
Definition ksbrk (increment : Z) : M heap Z := do_brk (s32 increment).

(** ** Allocation *)

(** "Choice b) merge!": the rest of the block and the free block that follows
    it become one free block. *)
Definition malloc_merge (block_ptr remaining_size stored_next_block tail_block tail freelist : Z) : M heap unit :=
  block_remove_from_freelist stored_next_block freelist ;;
  nw ← rd stored_next_block;
  wr block_ptr (u32 (remaining_size + block_get_real_size nw)) ;;
  block_set_free block_ptr true ;;
  nn ← block_get_next_block stored_next_block tail;
  wr (b_next block_ptr) nn ;;
  (if stored_next_block =? tail_block then wr tail block_ptr else mret tt) ;;
  block_add_to_freelist block_ptr freelist.

(** "Choice a) seperate!": the rest of the block becomes a free block. *)
Definition malloc_separate (base_ptr block_ptr remaining_size stored_next_block tail_block tail freelist : Z)
  : M heap unit :=
  wr block_ptr (u32 (remaining_size - OVERHEAD)) ;;
  block_set_free block_ptr true ;;
  wr (b_next block_ptr) stored_next_block ;;
  (if base_ptr =? tail_block then wr tail block_ptr else mret tt) ;;
  block_add_to_freelist block_ptr freelist.

(** What [__do_malloc] and [__do_malloc_align] do with the free block they
    found. *)
Definition malloc_reuse (best_fitting block_size tail_block tail freelist : Z) : M heap Z :=
  stored_next_block ← block_get_next_block best_fitting tail;
  w ← rd best_fitting;
  let chunk_size := u32 (block_get_real_size w + OVERHEAD) in
  let remaining_size := u32 (chunk_size - block_size) in
  let real_size := if remaining_size <? 8 + OVERHEAD then chunk_size else block_size in
  wr best_fitting (u32 (real_size - OVERHEAD)) ;;
  block_set_free best_fitting false ;;
  let block_ptr := u32 (best_fitting + real_size) in
  (if remaining_size <? 8 + OVERHEAD then mret tt
   else
     nfree ← block_is_free stored_next_block;
     (if (nfree : bool)
      then malloc_merge block_ptr remaining_size stored_next_block tail_block tail freelist
      else malloc_separate best_fitting block_ptr remaining_size stored_next_block tail_block tail freelist) ;;
     wr (b_next best_fitting) block_ptr) ;;
  block_remove_from_freelist best_fitting freelist ;;
  mret (u32 (best_fitting + OVERHEAD)).

(** Linking the new block [block_addr] at the end of the list; [ret] is the old
    top of the heap. *)
Definition malloc_append (head_block tail_block head tail ret block_addr size : Z) : M heap unit :=
  (if head_block =? NULL then wr head block_addr else wr (b_next tail_block) block_addr) ;;
  wr (b_next ret) NULL ;;
  wr (b_nextfree ret) NULL ;;
  wr tail block_addr ;;
  wr block_addr size ;;
  block_set_free block_addr false.

Definition do_malloc (size : Z) : M heap Z :=
  if size =? 0 then mret NULL else
  head ← gets vm_start;
  let tail := u32 (head + 4) in
  let freelist := u32 (head + 8) in
  head_block ← rd head;
  tail_block ← rd tail;
  let rounded_size := CEIL size 16 in
  let block_size := u32 (rounded_size + OVERHEAD) in
  best_fitting ← block_find_best_fitting rounded_size freelist;
  if negb (best_fitting =? NULL) then
    malloc_reuse best_fitting block_size tail_block tail freelist
  else
    ret ← ksbrk block_size;
    malloc_append head_block tail_block head tail ret ret (u32 (block_size - OVERHEAD)) ;;
    mret (u32 (ret + OVERHEAD)).

Definition do_malloc_align (size : Z) : M heap Z :=
  if size =? 0 then mret NULL else
  head ← gets vm_start;
  let tail := u32 (head + 4) in
  let freelist := u32 (head + 8) in
  head_block ← rd head;
  tail_block ← rd tail;
  let rounded_size := CEIL size 16 in
  let block_size := u32 (rounded_size + OVERHEAD) in
  best_fitting ← block_find_best_fitting_align rounded_size freelist;
  if negb (best_fitting =? NULL) && IS_ALIGN (u32 (best_fitting + 12 * 12)) then
    malloc_reuse best_fitting block_size tail_block tail freelist
  else
    top ← gets kernel_heap_top;
    let needed_addr := ADDR_ALIGN (Z.land (u32 (top + OVERHEAD)) 4294963200) in
    let block_addr := u32 (needed_addr - OVERHEAD) in
    let realsize := u32 (block_addr - top + OVERHEAD + rounded_size) in
    ret ← ksbrk realsize;
    malloc_append head_block tail_block head tail ret block_addr rounded_size ;;
    mret needed_addr.

(** ** Release

    The four branches of [__do_free]: both neighbours are free, only the
    previous one, only the next one, none. *)
Definition free_both (prev curr next tail_block tail freelist : Z) : M heap unit :=
  ps ← rd prev; cs ← rd curr; ns ← rd next;
  wr prev (u32 (block_get_real_size ps + 2 * OVERHEAD + block_get_real_size cs + block_get_real_size ns)) ;;
  block_set_free prev true ;;
  nn ← block_get_next_block next tail;
  wr (b_next prev) nn ;;
  (if tail_block =? next then wr tail prev else mret tt) ;;
  block_remove_from_freelist next freelist.
Definition free_prev (prev curr next tail_block tail : Z) : M heap unit :=
  ps ← rd prev; cs ← rd curr;
  wr prev (u32 (block_get_real_size ps + OVERHEAD + block_get_real_size cs)) ;;
  block_set_free prev true ;;
  wr (b_next prev) next ;;
  (if tail_block =? curr then wr tail prev else mret tt).
Definition free_next (curr next tail_block tail freelist : Z) : M heap unit :=
  cs ← rd curr; ns ← rd next;
  wr curr (u32 (block_get_real_size cs + OVERHEAD + block_get_real_size ns)) ;;
  block_set_free curr true ;;
  nn ← block_get_next_block next tail;
  wr (b_next curr) nn ;;
  (if tail_block =? next then wr tail curr else mret tt) ;;
  block_remove_from_freelist next freelist ;;
  block_add_to_freelist curr freelist.
Definition free_alone (curr freelist : Z) : M heap unit :=
  block_set_free curr true ;;
  block_add_to_freelist curr freelist.

Definition do_free (ptr : Z) : M heap unit :=
  head ← gets vm_start;
  let tail := u32 (head + 4) in
  let freelist := u32 (head + 8) in
  tail_block ← rd tail;
  let curr := u32 (ptr - OVERHEAD) in
  prev ← block_get_previous_block curr head;
  next ← block_get_next_block curr tail;
  pfree ← block_is_free prev;
  if (pfree : bool) then
    nfree ← block_is_free next;
    if (nfree : bool) then free_both prev curr next tail_block tail freelist
    else free_prev prev curr next tail_block tail
  else
    nfree ← block_is_free next;
    if (nfree : bool) then free_next curr next tail_block tail freelist
    else free_alone curr freelist.

(** [__do_realloc] returns before doing anything. *)
Definition do_realloc (ptr size : Z) : M heap Z := mret NULL.

Definition kmalloc (sz : Z) : M heap Z := do_malloc sz.
Definition kmalloc_align (size : Z) : M heap Z := do_malloc_align size.
Definition krealloc (ptr size : Z) : M heap Z := do_realloc ptr size.
Definition kfree (ptr : Z) : M heap unit := do_free ptr.

(** [memset(ptr, 0, n)] on a word-aligned pointer, a word at a time: the last
    word is cleared only in its [n mod 4] low bytes. *)
Definition memset0 (ptr n : Z) : M heap unit :=
  for_range (Z.to_nat (n / 4)) 0 (fun i => wr (u32 (ptr + 4 * i)) 0) ;;
  if n mod 4 =? 0 then mret tt
  else w ← rd (u32 (ptr + 4 * (n / 4)));
       wr (u32 (ptr + 4 * (n / 4))) (Z.shiftl (Z.shiftr w (8 * (n mod 4))) (8 * (n mod 4))).

Definition kcalloc (num size : Z) : M heap Z :=
  ptr ← kmalloc (u32 (num * size));
  (if ptr =? NULL then mret tt else memset0 ptr (u32 (num * size))) ;;
  mret ptr.

(** [kheap_init]: the area comes from the boot information. *)
Definition kheap_init (heap_start heap_end : Z) : M heap unit :=
  modify (fun h => MkHeap (h_mem h) (h_vm h) heap_start heap_end 3 heap_start) ;;
  vmm_create_page heap_start 3 ;;
  wr heap_start 0 ;; wr (u32 (heap_start + 4)) 0 ;; wr (u32 (heap_start + 8)) 0 ;;
  modify (fun h => set_top (u32 (kernel_heap_top h + 12)) h).

(** ** Words and fields *)
Lemma word_put h a v x : word (put a v h) x = if decide (x = a) then v else word h x.
Proof.
  unfold word, put. simpl. destruct (decide (x = a)) as [->|Hne].
  - by rewrite lookup_insert_eq.
  - by rewrite lookup_insert_ne.
Qed.
Lemma word_put_eq h a v : word (put a v h) a = v.
Proof. rewrite word_put. by destruct (decide (a = a)). Qed.
Lemma word_put_ne h a v x : x <> a -> word (put a v h) x = word h x.
Proof. intros. rewrite word_put. by destruct (decide (x = a)). Qed.
Lemma put_put h a u v : put a v (put a u h) = put a v h.
Proof. unfold put, set_mem. simpl. by rewrite insert_insert_eq. Qed.

(** A word of the header: the size with the free bit. *)
Lemma real_size_bit s (x : bool) : 0 <= s < 4294967296 -> s mod 2 = 0 ->
  block_get_real_size (s + bool_int x) = s.
Proof.
  intros Hs He. unfold block_get_real_size.
  rewrite Z.shiftr_div_pow2, Z.shiftl_mul_pow2 by lia. change (2 ^ 1) with 2.
  destruct x; unfold bool_int; rewrite u32_small; dlia.
Qed.
Lemma land_1 w : Z.land w 1 = w mod 2.
Proof. change 1 with (Z.ones 1) at 1. by rewrite Z.land_ones. Qed.
Lemma free_bit s (x : bool) : s mod 2 = 0 -> negb (Z.land (s + bool_int x) 1 =? 0) = x.
Proof.
  intros He. rewrite land_1. destruct x; unfold bool_int.
  - assert ((s + 1) mod 2 = 1) as -> by dlia. done.
  - rewrite Z.add_0_r, He. done.
Qed.
Lemma lor_1 s : s mod 2 = 0 -> Z.lor s 1 = s + 1.
Proof.
  intros He. symmetry. rewrite <- Z.lxor_lor, Z.add_nocarry_lxor; rewrite ?land_1; done.
Qed.
Lemma land_even s : is_u32 s -> s mod 2 = 0 -> Z.land s 4294967294 = s.
Proof.
  intros Hs He. apply Z.bits_inj'. intros k Hk. rewrite Z.land_spec.
  destruct (decide (k = 0)) as [->|].
  - rewrite <- Z.bit0_mod in He. destruct (Z.testbit s 0); [done|]. done.
  - destruct (decide (k < 32)) as [|].
    + change 4294967294 with (Z.lxor (Z.ones 32) 1).
      rewrite Z.lxor_spec, Z.ones_spec_low by lia.
      change 1 with (2 ^ 0). rewrite Z.pow2_bits_false by lia. by rewrite andb_true_r.
    + rewrite (word_testbit_high s) by (done || lia). done.
Qed.

(** ** The arena

    [A] is the list of the addresses where a block header may lie: aligned,
    twelve bytes apart, between the three words of the heap and its top. *)
Record arena (h : heap) (A : list Z) : Prop := {
  ar_base : 0 < vm_start h /\ vm_start h mod 4 = 0;
  ar_top : vm_start h + 12 <= kernel_heap_top h <= vm_end h;
  ar_top_al : kernel_heap_top h mod 4 = 0;
  ar_end : vm_end h + 4096 <= 4294967296;
  ar_vm : pm_ok (h_vm h);
  ar_good : forall a, vm_start h <= a < vm_end h + 4096 -> pm_good a (vm_flags h);
  ar_mapped : forall p, vm_start h / 4096 <= p <= (kernel_heap_top h - 1) / 4096 ->
    pm_mapped (h_vm h) p = true;
  ar_in : forall a, a ∈ A -> a mod 4 = 0 /\ vm_start h + 12 <= a /\ a + 12 <= kernel_heap_top h;
  ar_spaced : forall a b, a ∈ A -> b ∈ A -> a = b \/ a + 12 <= b \/ b + 12 <= a
}.

(** Only headers in [A] and the three control words differ. *)
Record frame (A : list Z) (h h' : heap) : Prop := {
  fr_vm : h_vm h' = h_vm h;
  fr_start : vm_start h' = vm_start h;
  fr_end : vm_end h' = vm_end h;
  fr_flags : vm_flags h' = vm_flags h;
  fr_top : kernel_heap_top h' = kernel_heap_top h;
  fr_word : forall x, (forall a, a ∈ A -> x < a \/ a + 12 <= x) ->
    (x < vm_start h \/ vm_start h + 12 <= x) -> word h' x = word h x
}.

#[export] Instance frame_refl A : Reflexive (frame A).
Proof. by intros h. Qed.
#[export] Instance frame_trans A : Transitive (frame A).
Proof.
  intros h1 h2 h3 [] []. split; try congruence.
  intros x Hx Hb. rewrite fr_word1; [by apply fr_word0|done|by rewrite fr_start0].
Qed.

Lemma frame_arena A h h' : frame A h h' -> arena h A -> arena h' A.
Proof.
  intros [] []. split; rewrite ?fr_vm0, ?fr_start0, ?fr_end0, ?fr_top0, ?fr_flags0; done.
Qed.
Lemma frame_mono A A' h h' : A ⊆ A' -> frame A h h' -> frame A' h h'.
Proof. intros Hs []. split; try done. intros x Hx. apply fr_word0. intros a Ha. by apply Hx, Hs. Qed.

Section Fields.
Context (h : heap) (A : list Z) (Har : arena h A).

Lemma arena_accessible x : vm_start h <= x < kernel_heap_top h -> x mod 4 = 0 -> accessible h x = true.
Proof.
  intros Hx Hal. unfold accessible. rewrite Hal. simpl. apply (ar_mapped _ _ Har). dlia.
Qed.

Lemma rd_run x : vm_start h <= x < kernel_heap_top h -> x mod 4 = 0 -> rd x ~{ h }~> word h x; h.
Proof. intros. unfold rd. by rewrite arena_accessible. Qed.
Lemma wr_run x v : vm_start h <= x < kernel_heap_top h -> x mod 4 = 0 -> wr x v ~{ h }~> tt; put x v h.
Proof. intros. unfold wr. by rewrite arena_accessible. Qed.

Lemma field_bounds a k : a ∈ A -> k = 0 \/ k = 4 \/ k = 8 ->
  (vm_start h <= a + k < kernel_heap_top h /\ (a + k) mod 4 = 0) /\ u32 (a + k) = a + k.
Proof.
  intros Ha Hk. destruct (ar_in _ _ Har _ Ha) as (? & ? & ?).
  pose proof (ar_base _ _ Har). pose proof (ar_top _ _ Har). pose proof (ar_end _ _ Har).
  rewrite u32_small by lia. split; [|done]. dlia.
Qed.
Lemma control_bounds k : k = 0 \/ k = 4 \/ k = 8 ->
  (vm_start h <= vm_start h + k < kernel_heap_top h /\ (vm_start h + k) mod 4 = 0) /\
  u32 (vm_start h + k) = vm_start h + k.
Proof.
  intros Hk. pose proof (ar_base _ _ Har). pose proof (ar_top _ _ Har). pose proof (ar_end _ _ Har).
  rewrite u32_small by lia. split; [|done]. dlia.
Qed.

Lemma rd_size a : a ∈ A -> rd a ~{ h }~> word h a; h.
Proof. intros Ha. destruct (field_bounds a 0 Ha) as [Hb _]; [lia|]. rewrite Z.add_0_r in Hb. apply rd_run; tauto. Qed.
Lemma rd_nextfree a : a ∈ A -> rd (b_nextfree a) ~{ h }~> word h (a + 4); h.
Proof. intros Ha. unfold b_nextfree. destruct (field_bounds a 4 Ha) as [? ->]; [lia|]. apply rd_run; tauto. Qed.
Lemma rd_next a : a ∈ A -> rd (b_next a) ~{ h }~> word h (a + 8); h.
Proof. intros Ha. unfold b_next. destruct (field_bounds a 8 Ha) as [? ->]; [lia|]. apply rd_run; tauto. Qed.
Lemma wr_size a v : a ∈ A -> wr a v ~{ h }~> tt; put a v h.
Proof. intros Ha. destruct (field_bounds a 0 Ha) as [Hb _]; [lia|]. rewrite Z.add_0_r in Hb. apply wr_run; tauto. Qed.
Lemma wr_nextfree a v : a ∈ A -> wr (b_nextfree a) v ~{ h }~> tt; put (a + 4) v h.
Proof. intros Ha. unfold b_nextfree. destruct (field_bounds a 4 Ha) as [? ->]; [lia|]. apply wr_run; tauto. Qed.
Lemma wr_next a v : a ∈ A -> wr (b_next a) v ~{ h }~> tt; put (a + 8) v h.
Proof. intros Ha. unfold b_next. destruct (field_bounds a 8 Ha) as [? ->]; [lia|]. apply wr_run; tauto. Qed.

Lemma rd_head : rd (vm_start h) ~{ h }~> word h (vm_start h); h.
Proof. destruct (control_bounds 0) as [Hb _]; [lia|]. rewrite Z.add_0_r in Hb. apply rd_run; tauto. Qed.
Lemma rd_control k : k = 4 \/ k = 8 -> rd (u32 (vm_start h + k)) ~{ h }~> word h (vm_start h + k); h.
Proof. intros. destruct (control_bounds k) as [? ->]; [lia|]. apply rd_run; tauto. Qed.
Lemma wr_head v : wr (vm_start h) v ~{ h }~> tt; put (vm_start h) v h.
Proof. destruct (control_bounds 0) as [Hb _]; [lia|]. rewrite Z.add_0_r in Hb. apply wr_run; tauto. Qed.
Lemma wr_control k v : k = 4 \/ k = 8 -> wr (u32 (vm_start h + k)) v ~{ h }~> tt; put (vm_start h + k) v h.
Proof. intros. destruct (control_bounds k) as [? ->]; [lia|]. apply wr_run; tauto. Qed.

Lemma frame_field a k v : a ∈ A -> k = 0 \/ k = 4 \/ k = 8 -> frame A h (put (a + k) v h).
Proof.
  intros Ha Hk. split; try done. intros x Hx _. apply word_put_ne. pose proof (Hx a Ha). lia.
Qed.
Lemma frame_control k v : k = 0 \/ k = 4 \/ k = 8 -> frame A h (put (vm_start h + k) v h).
Proof. intros Hk. split; try done. intros x _ Hx. apply word_put_ne. lia. Qed.
End Fields.

(** ** What a memory represents *)
Record blk : Type := Blk { b_addr : Z; b_size : Z; b_isfree : bool }.

Definition hdr (b : blk) : Z := b_size b + bool_int (b_isfree b).
Definition b_end (b : blk) : Z := b_addr b + 12 + b_size b.
Definition addrs (bs : list blk) : list Z := b_addr <$> bs.

(** Each block points to the next one; the pointer of the last one is not
    constrained. *)
Fixpoint nexts (h : heap) (bs : list blk) : Prop :=
  match bs with
  | b :: ((b' :: _) as bs') => word h (b_addr b + 8) = b_addr b' /\ nexts h bs'
  | _ => True
  end.

(** [fl] is the list of free blocks that starts at [x]. *)
Fixpoint flchain (h : heap) (x : Z) (fl : list Z) : Prop :=
  match fl with
  | [] => x = NULL
  | a :: fl => x = a /\ flchain h (word h (a + 4)) fl
  end.

Record rep (h : heap) (A : list Z) (hd tl : Z) (bs : list blk) (fl : list Z) : Prop := {
  rp_hdr : forall b, b ∈ bs -> word h (b_addr b) = hdr b;
  rp_nexts : nexts h bs;
  rp_fl : flchain h (word h (vm_start h + 8)) fl;
  rp_hd : word h (vm_start h) = hd;
  rp_tl : word h (vm_start h + 4) = tl;
  rp_bsA : addrs bs ⊆ A;
  rp_flA : fl ⊆ A;
  rp_nd : NoDup (addrs bs);
  rp_ndfl : NoDup fl
}.

Lemma nexts_app h l1 b l2 : nexts h (l1 ++ b :: l2) <-> nexts h (l1 ++ [b]) /\ nexts h (b :: l2).
Proof.
  induction l1 as [|x [|y l1] IH]; simpl in *; [tauto| |tauto].
  destruct l2; tauto.
Qed.
Lemma nexts_ext h h' bs : (forall b, b ∈ bs -> word h' (b_addr b + 8) = word h (b_addr b + 8)) ->
  nexts h bs -> nexts h' bs.
Proof.
  induction bs as [|b [|b' bs] IH]; intros Hw Hn; [done|done|].
  destruct Hn as [Hb Hn]. split; [|apply IH; set_solver].
  rewrite Hw by set_solver. done.
Qed.
(** The pointer of the last block does not matter. *)
Lemma nexts_snoc_ext h h' l b : (forall c, c ∈ l -> word h' (b_addr c + 8) = word h (b_addr c + 8)) ->
  nexts h (l ++ [b]) -> nexts h' (l ++ [b]).
Proof.
  induction l as [|x [|y l] IH]; intros Hw Hn; [done| |].
  - destruct Hn as [Hb _]. split; [|done]. rewrite Hw by set_solver. done.
  - destruct Hn as [Hb Hn]. split; [rewrite Hw by set_solver; done|]. apply IH; [set_solver|done].
Qed.
Lemma flchain_ext h h' fl : forall x, (forall a, a ∈ fl -> word h' (a + 4) = word h (a + 4)) ->
  flchain h x fl -> flchain h' x fl.
Proof.
  induction fl as [|a fl IH]; intros x Hw Hf; [done|].
  destruct Hf as [-> Hf]. split; [done|]. rewrite Hw by set_solver. apply IH; [set_solver|done].
Qed.

Lemma addrs_app l1 l2 : addrs (l1 ++ l2) = addrs l1 ++ addrs l2.
Proof. apply fmap_app. Qed.
Lemma elem_of_addrs b bs : b ∈ bs -> b_addr b ∈ addrs bs.
Proof. intros Hb. by apply list_elem_of_fmap_2. Qed.
Lemma addrs_mid l1 b l2 c : NoDup (addrs (l1 ++ b :: l2)) -> c ∈ l1 ++ l2 -> b_addr c <> b_addr b.
Proof.
  rewrite addrs_app. intros Hnd Hc He. apply NoDup_app in Hnd as (_ & Hd & Hnd2).
  apply NoDup_cons in Hnd2 as [Hb _]. apply elem_of_app in Hc as [Hc%elem_of_addrs|Hc%elem_of_addrs].
  - apply (Hd _ Hc). rewrite He. by apply list_elem_of_here.
  - by rewrite He in Hc.
Qed.

Section Rep.
Context (h : heap) (A : list Z) (hd tl : Z) (Har : arena h A).

Lemma field_ne a c k j : a ∈ A -> c ∈ A -> k = 0 \/ k = 4 \/ k = 8 -> j = 0 \/ j = 4 \/ j = 8 ->
  a <> c \/ k <> j -> a + k <> c + j.
Proof. intros Ha Hc Hk Hj Hne. pose proof (ar_spaced _ _ Har a c Ha Hc). lia. Qed.
Lemma control_ne a k j : a ∈ A -> 0 <= k -> 0 <= j < 12 -> vm_start h + j <> a + k.
Proof. intros Ha Hk Hj. pose proof (ar_in _ _ Har a Ha). lia. Qed.

(** Writing the header of a block. *)
Lemma rep_put_header l1 b b' l2 fl : rep h A hd tl (l1 ++ b :: l2) fl -> b_addr b' = b_addr b ->
  rep (put (b_addr b) (hdr b') h) A hd tl (l1 ++ b' :: l2) fl.
Proof.
  intros [] Ha. assert (Haddr : addrs (l1 ++ b' :: l2) = addrs (l1 ++ b :: l2)).
  { rewrite !addrs_app. simpl. by rewrite Ha. }
  assert (HbA : b_addr b ∈ A) by (apply rp_bsA0, elem_of_addrs; set_solver).
  assert (Hk : forall a k, a ∈ A -> k = 4 \/ k = 8 ->
    word (put (b_addr b) (hdr b') h) (a + k) = word h (a + k)).
  { intros a k HaA Hk. apply word_put_ne. rewrite <- (Z.add_0_r (b_addr b)). apply field_ne; try done; lia. }
  assert (Hc : forall k, k = 0 \/ k = 4 \/ k = 8 ->
    word (put (b_addr b) (hdr b') h) (vm_start h + k) = word h (vm_start h + k)).
  { intros k Hk'. apply word_put_ne. rewrite <- (Z.add_0_r (b_addr b)). apply control_ne; [done|lia|lia]. }
  split; try done; cbn [vm_start put set_mem].
  - intros c Hcin. destruct (decide (b_addr c = b_addr b)) as [He|Hne].
    + assert (c = b') as ->.
      { apply elem_of_app in Hcin as [Hin|[->|Hin]%elem_of_cons]; [|done|];
          exfalso; eapply (addrs_mid l1 b l2 c); set_solver. }
      rewrite Ha. apply word_put_eq.
    + rewrite word_put_ne by done. apply rp_hdr0. set_solver.
  - apply nexts_app. apply nexts_app in rp_nexts0 as [Hn1 Hn2]. split.
    + apply nexts_snoc_ext with h.
      * intros c Hcin. apply Hk; [apply rp_bsA0, elem_of_addrs; set_solver|lia].
      * clear -Hn1 Ha. induction l1 as [|x [|y l1] IH]; simpl in *; [done|by rewrite Ha|tauto].
    + apply nexts_ext with h.
      * intros c Hcin. apply Hk; [apply rp_bsA0; rewrite <- Haddr; apply elem_of_addrs; set_solver|lia].
      * destruct l2; [done|]. simpl in *. by rewrite Ha.
  - rewrite Hc by lia. apply flchain_ext with h; [|done]. intros a Hin. apply Hk; [by apply rp_flA0|lia].
  - rewrite <- (Z.add_0_r (vm_start h)), Hc by lia. by rewrite Z.add_0_r.
  - rewrite Hc by lia. done.
  - by rewrite Haddr.
  - by rewrite Haddr.
Qed.

(** Writing the size or the [next] of a header that is not in the list. *)
Lemma rep_put_other c k v bs fl : rep h A hd tl bs fl -> c ∈ A -> c ∉ addrs bs -> k = 0 \/ k = 8 ->
  rep (put (c + k) v h) A hd tl bs fl.
Proof.
  intros [] HcA Hc Hk.
  assert (Hw : forall a j, a ∈ A -> j = 0 \/ j = 4 \/ j = 8 -> a <> c \/ k <> j ->
    word (put (c + k) v h) (a + j) = word h (a + j)).
  { intros a j Ha Hj Hne. apply word_put_ne, field_ne; try done; lia. }
  assert (Hb : forall b, b ∈ bs -> b_addr b ∈ A /\ b_addr b <> c).
  { intros b Hb%elem_of_addrs. split; [by apply rp_bsA0|]. by intros <-. }
  assert (Hctl : forall j, 0 <= j < 12 -> word (put (c + k) v h) (vm_start h + j) = word h (vm_start h + j)).
  { intros j Hj. apply word_put_ne, control_ne; [done|lia|lia]. }
  split; try done; cbn [vm_start put set_mem].
  - intros b Hin. destruct (Hb b Hin) as [Hb1 Hb2]. pose proof (Hw (b_addr b) 0 Hb1) as Hw0.
    rewrite !Z.add_0_r in Hw0. rewrite Hw0 by (lia || by left). by apply rp_hdr0.
  - apply nexts_ext with h; [|done]. intros b Hin. destruct (Hb b Hin). apply Hw; [done|lia|by left].
  - rewrite Hctl by lia. apply flchain_ext with h; [|done]. intros a Hin. apply Hw; [by apply rp_flA0|lia|lia].
  - pose proof (Hctl 0) as Hc0. rewrite !Z.add_0_r in Hc0. by rewrite Hc0 by lia.
  - by rewrite Hctl by lia.
Qed.

(** Writing the pointers to the first and to the last block. *)
Lemma rep_put_head v bs fl : rep h A hd tl bs fl -> rep (put (vm_start h) v h) A v tl bs fl.
Proof.
  intros [].
  assert (Hw : forall a j, a ∈ A -> 0 <= j -> word (put (vm_start h) v h) (a + j) = word h (a + j)).
  { intros a j Ha Hj. apply word_put_ne. rewrite <- (Z.add_0_r (vm_start h)).
    apply not_eq_sym, control_ne; [done|lia|lia]. }
  split; try done; cbn [vm_start put set_mem].
  - intros b Hin. rewrite <- (Z.add_0_r (b_addr b)), Hw by (try lia; by apply rp_bsA0, elem_of_addrs).
    rewrite Z.add_0_r. by apply rp_hdr0.
  - apply nexts_ext with h; [|done]. intros b Hin. apply Hw; [by apply rp_bsA0, elem_of_addrs|lia].
  - rewrite word_put_ne by lia. apply flchain_ext with h; [|done]. intros a Hin. apply Hw; [by apply rp_flA0|lia].
  - apply word_put_eq.
  - by rewrite word_put_ne by lia.
Qed.
Lemma rep_put_tail v bs fl : rep h A hd tl bs fl -> rep (put (vm_start h + 4) v h) A hd v bs fl.
Proof.
  intros [].
  assert (Hw : forall a j, a ∈ A -> 0 <= j -> word (put (vm_start h + 4) v h) (a + j) = word h (a + j)).
  { intros a j Ha Hj. apply word_put_ne, not_eq_sym, control_ne; [done|lia|lia]. }
  split; try done; cbn [vm_start put set_mem].
  - intros b Hin. rewrite <- (Z.add_0_r (b_addr b)), Hw by (try lia; by apply rp_bsA0, elem_of_addrs).
    rewrite Z.add_0_r. by apply rp_hdr0.
  - apply nexts_ext with h; [|done]. intros b Hin. apply Hw; [by apply rp_bsA0, elem_of_addrs|lia].
  - rewrite word_put_ne by lia. apply flchain_ext with h; [|done]. intros a Hin. apply Hw; [by apply rp_flA0|lia].
  - by rewrite word_put_ne by lia.
  - apply word_put_eq.
Qed.

(** Replacing the blocks between [b] and [l2] by writing [b->next]. *)
Lemma rep_put_next l1 b m m' l2 v fl : rep h A hd tl (l1 ++ b :: m ++ l2) fl ->
  NoDup (addrs (l1 ++ b :: m' ++ l2)) -> addrs m' ⊆ A ->
  (forall c, c ∈ m' -> word h (b_addr c) = hdr c) -> nexts h (m' ++ l2) ->
  (m' ++ l2 <> [] -> Some v = head (addrs (m' ++ l2))) ->
  rep (put (b_addr b + 8) v h) A hd tl (l1 ++ b :: m' ++ l2) fl.
Proof.
  intros [] Hnd' HmA Hmh Hmn Hv.
  assert (HbA : b_addr b ∈ A) by (apply rp_bsA0, elem_of_addrs; set_solver).
  assert (Hw : forall a j, a ∈ A -> j = 0 \/ j = 4 \/ j = 8 -> a <> b_addr b \/ j <> 8 ->
    word (put (b_addr b + 8) v h) (a + j) = word h (a + j)).
  { intros a j Ha Hj Hne. apply word_put_ne, field_ne; try done; lia. }
  assert (Hctl : forall j, 0 <= j < 12 -> word (put (b_addr b + 8) v h) (vm_start h + j) = word h (vm_start h + j)).
  { intros j Hj. apply word_put_ne, control_ne; [done|lia|lia]. }
  assert (Hall : addrs (l1 ++ b :: m' ++ l2) ⊆ A).
  { intros a. rewrite addrs_app. cbn. rewrite addrs_app.
    specialize (rp_bsA0 a). rewrite addrs_app in rp_bsA0. cbn in rp_bsA0. rewrite addrs_app in rp_bsA0.
    specialize (HmA a). set_solver. }
  split; try done; cbn [vm_start put set_mem].
  - intros c Hin. rewrite <- (Z.add_0_r (b_addr c)), Hw by (try lia; by apply Hall, elem_of_addrs).
    rewrite Z.add_0_r.
    apply elem_of_app in Hin as [Hin|[->|[Hin|Hin]%elem_of_app]%elem_of_cons];
      [apply rp_hdr0|apply rp_hdr0|by apply Hmh|apply rp_hdr0]; set_solver.
  - apply nexts_app. apply nexts_app in rp_nexts0 as [Hn1 _]. split.
    + apply nexts_snoc_ext with h; [|done]. intros c Hin.
      apply Hw; [apply Hall, elem_of_addrs; set_solver|lia|left; eapply addrs_mid; [exact Hnd'|set_solver]].
    + destruct (m' ++ l2) as [|n l] eqn:E; [done|]. simpl in Hv. specialize (Hv ltac:(done)).
      injection Hv as ->. split; [apply word_put_eq|].
      apply nexts_ext with h; [|done]. intros c Hin.
      apply Hw; [apply Hall, elem_of_addrs; set_solver|lia|left; eapply addrs_mid; [exact Hnd'|set_solver]].
  - rewrite Hctl by lia. apply flchain_ext with h; [|done]. intros a Hin. apply Hw; [by apply rp_flA0|lia|lia].
  - pose proof (Hctl 0) as Hc0. rewrite !Z.add_0_r in Hc0. by rewrite Hc0 by lia.
  - by rewrite Hctl by lia.
Qed.
End Rep.

(** ** The free list *)

(** Only [nextfree] fields and the pointer to the first free block differ. *)
Record fl_only (A : list Z) (h h' : heap) : Prop := {
  fo_frame : frame A h h';
  fo_size : forall a, a ∈ A -> word h' a = word h a;
  fo_next : forall a, a ∈ A -> word h' (a + 8) = word h (a + 8);
  fo_hd : word h' (vm_start h) = word h (vm_start h);
  fo_tl : word h' (vm_start h + 4) = word h (vm_start h + 4)
}.

#[export] Instance fl_only_trans A : Transitive (fl_only A).
Proof.
  intros h1 h2 h3 [] []. split; [by etrans|..].
  - intros a Ha. by rewrite fo_size1, fo_size0.
  - intros a Ha. by rewrite fo_next1, fo_next0.
  - rewrite <- (fr_start _ _ _ fo_frame0) at 1. by rewrite fo_hd1, (fr_start _ _ _ fo_frame0).
  - rewrite <- (fr_start _ _ _ fo_frame0) at 1. by rewrite fo_tl1, (fr_start _ _ _ fo_frame0).
Qed.

Lemma rep_fl_only h h' A hd tl bs fl fl' : fl_only A h h' -> rep h A hd tl bs fl ->
  flchain h' (word h' (vm_start h + 8)) fl' -> fl' ⊆ A -> NoDup fl' -> rep h' A hd tl bs fl'.
Proof.
  intros [Hf Hs Hn Hhd Htl] [] Hfl HA Hnd.
  split; try done; rewrite ?(fr_start _ _ _ Hf); try congruence.
  - intros b Hb. rewrite Hs by (by apply rp_bsA0, elem_of_addrs). by apply rp_hdr0.
  - apply nexts_ext with h; [|done]. intros b Hb. by apply Hn, rp_bsA0, elem_of_addrs.
Qed.

Section FreeList.
Context (h : heap) (A : list Z) (Har : arena h A).

Lemma fl_only_nextfree c v : c ∈ A -> fl_only A h (put (c + 4) v h).
Proof.
  intros Hc. split; [apply frame_field; [done|lia]|..].
  - intros a Ha. apply word_put_ne. rewrite <- (Z.add_0_r a). apply (field_ne h A Har); try done; lia.
  - intros a Ha. apply word_put_ne, (field_ne h A Har); try done; lia.
  - apply word_put_ne. rewrite <- (Z.add_0_r (vm_start h)). apply (control_ne h A Har); [done|lia|lia].
  - apply word_put_ne, (control_ne h A Har); [done|lia|lia].
Qed.
Lemma fl_only_first v : fl_only A h (put (vm_start h + 8) v h).
Proof.
  split; [apply frame_control; lia|..].
  - intros a Ha. apply word_put_ne. rewrite <- (Z.add_0_r a). apply not_eq_sym, (control_ne h A Har); [done|lia|lia].
  - intros a Ha. apply word_put_ne, not_eq_sym, (control_ne h A Har); [done|lia|lia].
  - apply word_put_ne. lia.
  - apply word_put_ne. lia.
Qed.

Lemma nextfree_put_ne a c v : a ∈ A -> c ∈ A -> a <> c -> word (put (c + 4) v h) (a + 4) = word h (a + 4).
Proof. intros. apply word_put_ne, (field_ne h A Har); try done; [lia|lia|by left]. Qed.
Lemma nextfree_put_first a v : a ∈ A -> word (put (vm_start h + 8) v h) (a + 4) = word h (a + 4).
Proof. intros. apply word_put_ne, not_eq_sym, (control_ne h A Har); [done|lia|lia]. Qed.
Lemma first_put_nextfree c v : c ∈ A -> word (put (c + 4) v h) (vm_start h + 8) = word h (vm_start h + 8).
Proof. intros. apply word_put_ne, (control_ne h A Har); [done|lia|lia]. Qed.

Lemma arena_nonnull a : a ∈ A -> a =? NULL = false.
Proof. intros Ha. pose proof (ar_in _ _ Har a Ha). pose proof (ar_base _ _ Har). unfold NULL. lia. Qed.
End FreeList.

Lemma add_to_freelist_run h A hd tl bs fl c : arena h A -> rep h A hd tl bs fl -> c ∈ A -> c ∉ fl ->
  exists h', block_add_to_freelist c (u32 (vm_start h + 8)) ~{ h }~> tt; h' /\
    rep h' A hd tl bs (c :: fl) /\ fl_only A h h'.
Proof.
  intros Har Hr Hc Hfl. set (h1 := put (c + 4) (word h (vm_start h + 8)) h).
  assert (Hf1 : fl_only A h h1) by (by apply fl_only_nextfree).
  assert (Har1 : arena h1 A) by (by eapply frame_arena; [apply Hf1|]).
  pose proof (fl_only_first h1 A Har1 c) as Hf2. change (vm_start h1) with (vm_start h) in Hf2.
  exists (put (vm_start h + 8) c h1).
  split.
  { unfold block_add_to_freelist. rewrite (bind_ok _ _ _ _ _ (rd_control h A Har 8 ltac:(lia))).
    rewrite (bind_ok _ _ _ _ _ (wr_nextfree h A Har c _ Hc)). apply (wr_control h1 A Har1 8). lia. }
  split; [|by etrans; [apply Hf1|apply Hf2]].
  apply (rep_fl_only h _ _ _ _ _ fl); [by etrans; [apply Hf1|apply Hf2]|done| |destruct Hr; set_solver|constructor; [done|apply Hr]].
  split; [by rewrite word_put_eq|].
  rewrite (nextfree_put_first h1 A Har1) by done. unfold h1 at 2. rewrite word_put_eq.
  apply flchain_ext with h; [|apply Hr]. intros a Ha.
  assert (a ∈ A) by (by apply (rp_flA _ _ _ _ _ _ Hr)). rewrite (nextfree_put_first h1 A Har1) by done.
  apply (nextfree_put_ne h A Har); [done|done|]. by intros ->.
Qed.

Lemma flchain_app h x l1 a l2 : flchain h x (l1 ++ a :: l2) -> flchain h (word h (a + 4)) l2.
Proof. revert x. induction l1 as [|b l1 IH]; intros x; simpl; [tauto|]. intros [_ Hf]. by eapply IH. Qed.

Lemma word_stored h a : word h a <> 0 -> is_Some (h_mem h !! a).
Proof. unfold word. destruct (h_mem h !! a); [done|]. by intros []. Qed.

Lemma flchain_length h x fl : flchain h x fl -> NoDup fl -> (forall a, a ∈ fl -> a <> 0) ->
  (length fl <= S (size (h_mem h)))%nat.
Proof.
  intros Hf Hnd Hnz. destruct fl as [|t l _] using rev_ind; [simpl; lia|].
  rewrite length_app. simpl. apply NoDup_app in Hnd as (Hnd & Hd & _).
  assert (length l <= size (h_mem h))%nat; [|lia].
  rewrite <- (length_fmap (fun a => a + 4) l).
  apply stored_length; [apply NoDup_fmap_2; [intros ? ? ?; lia|done]|].
  intros y (a & -> & Ha)%list_elem_of_fmap. apply word_stored.
  clear Hnd Hd. revert x Hf Ha. induction l as [|b l IH]; intros x Hf Ha; [set_solver|].
  destruct Hf as [-> Hf]. apply elem_of_cons in Ha as [->|Ha].
  - destruct l; destruct Hf as [-> _]; apply Hnz; set_solver.
  - eapply IH; [set_solver|done|done].
Qed.

Lemma find_prev_free_run h A c l1 : arena h A -> forall p l2 x fuel, (length l1 < fuel)%nat ->
  (l1 ++ p :: c :: l2) ⊆ A -> NoDup (l1 ++ p :: c :: l2) -> flchain h x (l1 ++ p :: c :: l2) ->
  find_prev_free fuel c x ~{ h }~> p; h.
Proof.
  intros Har. induction l1 as [|a l1 IH]; intros p l2 x [|fuel] Hfuel HA Hnd Hf; simpl in Hfuel; try lia;
    destruct Hf as [-> Hf]; simpl.
  - rewrite (arena_nonnull h A Har) by set_solver.
    rewrite (bind_ok _ _ _ _ _ (rd_nextfree h A Har p ltac:(set_solver))).
    destruct Hf as [-> _]. by rewrite Z.eqb_refl.
  - rewrite (arena_nonnull h A Har) by set_solver.
    rewrite (bind_ok _ _ _ _ _ (rd_nextfree h A Har a ltac:(set_solver))).
    assert (Hne : word h (a + 4) =? c = false).
    { apply Z.eqb_neq. simpl in Hnd. apply NoDup_cons in Hnd as [_ Hnd].
      destruct l1 as [|b l1]; destruct Hf as [-> _]; intros ->; apply NoDup_cons in Hnd as [? ?]; set_solver. }
    rewrite Hne. apply (IH p l2); [lia|set_solver| |done]. simpl in Hnd. by apply NoDup_cons in Hnd as [_ Hnd].
Qed.

Lemma unlink_first_run h A hd tl bs c l2 : arena h A -> rep h A hd tl bs (c :: l2) ->
  exists h1, unlink_free c (u32 (vm_start h + 8)) ~{ h }~> tt; h1 /\
    fl_only A h h1 /\ flchain h1 (word h1 (vm_start h + 8)) l2.
Proof.
  intros Har Hr. destruct Hr as [_ _ [Hx Hfl] _ _ _ HA _ Hnd]. assert (Hc : c ∈ A) by (apply HA; set_solver).
  unfold unlink_free. rewrite (bind_ok _ _ _ _ _ (rd_control h A Har 8 ltac:(lia))).
  rewrite Hx, Z.eqb_refl, (bind_ok _ _ _ _ _ (rd_nextfree h A Har c Hc)).
  eexists. split; [by apply (wr_control h A Har 8); lia|].
  split; [by apply fl_only_first|]. rewrite word_put_eq. apply flchain_ext with h; [|done].
  intros a Ha. apply (nextfree_put_first h A Har). apply HA. set_solver.
Qed.

Lemma flchain_skip h A p c l2 : arena h A -> forall l1 x, (l1 ++ p :: c :: l2) ⊆ A ->
  p ∉ l1 -> p ∉ l2 -> flchain h x (l1 ++ p :: c :: l2) ->
  flchain (put (p + 4) (word h (c + 4)) h) x (l1 ++ p :: l2).
Proof.
  intros Har l1. assert (forall l, p ∈ l -> l ⊆ A -> p ∈ A) as Hin by set_solver.
  induction l1 as [|a l1 IH]; intros x HA Hp1 Hp2 Hfl; simpl in *.
  - destruct Hfl as (-> & _ & Hfl). split; [done|]. rewrite word_put_eq.
    apply flchain_ext with h; [|done]. intros a Ha.
    apply (nextfree_put_ne h A Har); set_solver.
  - destruct Hfl as (-> & Hfl). split; [done|].
    rewrite (nextfree_put_ne h A Har) by set_solver. apply IH; [set_solver|set_solver|done|done].
Qed.

Lemma unlink_later_run h A hd tl bs l1 p c l2 : arena h A -> rep h A hd tl bs (l1 ++ p :: c :: l2) ->
  exists h1, unlink_free c (u32 (vm_start h + 8)) ~{ h }~> tt; h1 /\
    fl_only A h h1 /\ flchain h1 (word h1 (vm_start h + 8)) (l1 ++ p :: l2).
Proof.
  intros Har Hr. destruct Hr as [_ _ Hfl _ _ _ HA _ Hnd].
  assert (Hp : p ∈ A) by (apply HA; set_solver). assert (Hc : c ∈ A) by (apply HA; set_solver).
  destruct (NoDup_middle _ _ _ Hnd) as [_ [Hp1 Hp2]].
  unfold unlink_free. rewrite (bind_ok _ _ _ _ _ (rd_control h A Har 8 ltac:(lia))).
  assert (Hne : c =? word h (vm_start h + 8) = false).
  { apply Z.eqb_neq. intros Hx. rewrite <- Hx in Hfl.
    destruct l1 as [|y l1]; destruct Hfl as [<- _]; [set_solver|].
    simpl in Hnd. apply NoDup_cons in Hnd as [? _]. set_solver. }
  assert (Hnz : forall a, a ∈ l1 ++ p :: c :: l2 -> a <> 0).
  { intros a Ha%HA. pose proof (arena_nonnull h A Har a Ha). unfold NULL in *. lia. }
  pose proof (flchain_length _ _ _ Hfl Hnd Hnz) as Hlen. rewrite length_app in Hlen. simpl in Hlen.
  assert (Hrun : find_prev_free (walk_fuel h) c (word h (vm_start h + 8)) ~{ h }~> p; h).
  { apply (find_prev_free_run h A c l1 Har p l2); [unfold walk_fuel; lia|done|done|done]. }
  rewrite Hne, (bind_ok (gets walk_fuel) _ h (walk_fuel h) h eq_refl), (bind_ok _ _ _ _ _ Hrun).
  rewrite (arena_nonnull h A Har p Hp), (bind_ok _ _ _ _ _ (rd_nextfree h A Har c Hc)).
  eexists. split; [by apply (wr_nextfree h A Har p)|]. split; [by apply fl_only_nextfree|].
  rewrite (first_put_nextfree h A Har) by done. apply (flchain_skip h A p c l2 Har); try done. set_solver.
Qed.

Lemma remove_from_freelist_run h A hd tl bs l1 c l2 : arena h A -> rep h A hd tl bs (l1 ++ c :: l2) ->
  exists h', block_remove_from_freelist c (u32 (vm_start h + 8)) ~{ h }~> tt; h' /\
    rep h' A hd tl bs (l1 ++ l2) /\ fl_only A h h'.
Proof.
  intros Har Hr. pose proof (rp_flA _ _ _ _ _ _ Hr) as HA.
  destruct (NoDup_middle _ _ _ (rp_ndfl _ _ _ _ _ _ Hr)) as [Hnd' HcA].
  assert (Hc : c ∈ A) by (apply HA; set_solver).
  assert (Hmid : exists h1, unlink_free c (u32 (vm_start h + 8)) ~{ h }~> tt; h1 /\
    fl_only A h h1 /\ flchain h1 (word h1 (vm_start h + 8)) (l1 ++ l2)).
  { destruct l1 as [|p l1 _] using rev_ind; [by eapply unlink_first_run|].
    rewrite <- app_assoc in *. by eapply unlink_later_run. }
  destruct Hmid as (h1 & Hrun & Hf1 & Hfl1). pose proof (fr_start _ _ _ (fo_frame _ _ _ Hf1)) as Hst.
  unfold block_remove_from_freelist. rewrite (bind_ok _ _ _ _ _ Hrun).
  assert (Har1 : arena h1 A) by (by eapply frame_arena; [apply Hf1|]).
  exists (put (c + 4) NULL h1). split; [by apply (wr_nextfree h1 A Har1)|].
  assert (Hf2 : fl_only A h1 (put (c + 4) NULL h1)) by (by apply fl_only_nextfree).
  split; [|by etrans; [apply Hf1|apply Hf2]].
  apply (rep_fl_only h _ _ _ _ _ (l1 ++ c :: l2)); [by etrans; [apply Hf1|apply Hf2]|done| |set_solver|done].
  rewrite <- Hst, (first_put_nextfree h1 A Har1), Hst by done.
  apply flchain_ext with h1; [|done]. intros a Ha.
  apply (nextfree_put_ne h1 A Har1); [apply HA; set_solver|done|set_solver].
Qed.

(** ** The layout of the blocks *)

(** The blocks lie in [lo, hi) in the order of the list, without overlapping. *)
Fixpoint laid (lo : Z) (bs : list blk) (hi : Z) : Prop :=
  match bs with
  | [] => lo <= hi
  | b :: bs => lo <= b_addr b /\ b_addr b mod 4 = 0 /\ 0 <= b_size b /\ b_size b mod 4 = 0 /\
               laid (b_end b) bs hi
  end.

Lemma laid_app bs1 bs2 : forall lo hi,
  laid lo (bs1 ++ bs2) hi <-> exists mid, laid lo bs1 mid /\ laid mid bs2 hi.
Proof.
  induction bs1 as [|b bs1 IH]; intros lo hi; simpl.
  - split; [intros Hl; exists lo; split; [lia|done]|].
    intros (mid & Hlo & Hl). destruct bs2; simpl in *; [lia|]. intuition lia.
  - rewrite IH. naive_solver.
Qed.
Lemma laid_le bs : forall lo hi, laid lo bs hi -> lo <= hi.
Proof.
  induction bs as [|b bs IH]; intros lo hi; simpl; [done|].
  intros (? & _ & ? & _ & Hl%IH). unfold b_end in Hl. lia.
Qed.
Lemma laid_mono bs lo lo' hi hi' : lo' <= lo -> hi <= hi' -> laid lo bs hi -> laid lo' bs hi'.
Proof.
  revert lo lo'. induction bs as [|b bs IH]; intros lo lo' Hlo Hhi; simpl; [lia|].
  intros (? & ? & ? & ? & Hl). repeat split; try done; [lia|]. by eapply IH; [| |exact Hl].
Qed.
Lemma laid_in bs b : forall lo hi, laid lo bs hi -> b ∈ bs ->
  lo <= b_addr b /\ b_end b <= hi /\ b_addr b mod 4 = 0 /\ 0 <= b_size b /\ b_size b mod 4 = 0.
Proof.
  induction bs as [|c bs IH]; intros lo hi Hl Hb; [set_solver|].
  destruct Hl as (Hlo & Ha & Hs & Hm & Hl). apply elem_of_cons in Hb as [->|Hb].
  - apply laid_le in Hl. done.
  - destruct (IH _ _ Hl Hb) as (? & ? & ?). unfold b_end in *. split; [lia|tauto].
Qed.
Lemma laid_disjoint bs b c : forall lo hi, laid lo bs hi -> b ∈ bs -> c ∈ bs ->
  b = c \/ b_end b <= b_addr c \/ b_end c <= b_addr b.
Proof.
  induction bs as [|d bs IH]; intros lo hi Hl Hb Hc; [set_solver|].
  destruct Hl as (_ & _ & _ & _ & Hl).
  apply elem_of_cons in Hb as [->|Hb]; apply elem_of_cons in Hc as [->|Hc]; [by left| | |by eapply IH].
  - right; left. by apply (laid_in _ c _ _ Hl).
  - right; right. by apply (laid_in _ b _ _ Hl).
Qed.
Lemma laid_nodup bs : forall lo hi, laid lo bs hi -> NoDup (addrs bs).
Proof.
  induction bs as [|b bs IH]; intros lo hi Hl; [constructor|].
  destruct Hl as (_ & _ & Hs & _ & Hl). constructor; [|by eapply IH].
  intros (c & Heq & Hc)%list_elem_of_fmap. apply (laid_in _ _ _ _ Hl) in Hc. unfold b_end in *. lia.
Qed.

(** The headers of laid out blocks form an arena. *)
Lemma arena_laid h A bs : arena h A -> laid (vm_start h + 12) bs (kernel_heap_top h) -> arena h (addrs bs).
Proof.
  intros [] Hl. split; try done.
  - intros a (b & -> & Hb)%list_elem_of_fmap. destruct (laid_in _ _ _ _ Hl Hb) as (? & ? & ? & ? & ?).
    unfold b_end in *. split_and!; [done|lia|lia].
  - intros a a' (b & -> & Hb)%list_elem_of_fmap (c & -> & Hc)%list_elem_of_fmap.
    pose proof (laid_in _ _ _ _ Hl Hb). pose proof (laid_in _ _ _ _ Hl Hc).
    destruct (laid_disjoint _ _ _ _ _ Hl Hb Hc) as [->|?]; [by left|]. unfold b_end in *. lia.
Qed.

Lemma rep_arena h A A' hd tl bs fl : rep h A hd tl bs fl -> addrs bs ⊆ A' -> fl ⊆ A' -> rep h A' hd tl bs fl.
Proof. intros [] ? ?. by split. Qed.

(** ** The invariant of the heap *)
Fixpoint no_adj (bs : list blk) : Prop :=
  match bs with
  | b :: ((b' :: _) as bs') => b_isfree b && b_isfree b' = false /\ no_adj bs'
  | _ => True
  end.

Definition first_addr (bs : list blk) : Z := default NULL (head (addrs bs)).
Definition is_tail (bs : list blk) (tl : Z) : Prop := bs = [] \/ last (addrs bs) = Some tl.

Record heap_inv (h : heap) (bs : list blk) (fl : list Z) : Prop := {
  hi_arena : arena h (addrs bs);
  hi_laid : laid (vm_start h + 12) bs (kernel_heap_top h);
  hi_rep : exists tl, rep h (addrs bs) (first_addr bs) tl bs fl /\ is_tail bs tl;
  hi_free : forall b, b ∈ bs -> b_isfree b = true <-> b_addr b ∈ fl;
  hi_adj : no_adj bs
}.

Lemma no_adj_app l1 b l2 : no_adj (l1 ++ b :: l2) <-> no_adj (l1 ++ [b]) /\ no_adj (b :: l2).
Proof.
  induction l1 as [|x [|y l1] IH]; simpl in *; [tauto| |tauto]. destruct l2; tauto.
Qed.

(** A block is determined by its address. *)
Lemma addr_inj bs b c : NoDup (addrs bs) -> b ∈ bs -> c ∈ bs -> b_addr b = b_addr c -> b = c.
Proof.
  intros Hnd Hb Hc He. apply list_elem_of_lookup in Hb as [i Hi]. apply list_elem_of_lookup in Hc as [j Hj].
  assert (i = j) as <-; [|congruence].
  eapply NoDup_lookup; [exact Hnd| |]; unfold addrs; rewrite list_lookup_fmap.
  - by rewrite Hi.
  - by rewrite Hj; simpl; rewrite He.
Qed.

(** ** Best fit *)
Definition best_pure (h : heap) (skip : Z -> bool) : list Z -> Z -> Z :=
  fold_left (fun best c => if skip c then best else if best =? NULL then c
                           else if word h c <? word h best then c else best).

Lemma best_loop_run h A skipM skip fl : arena h A ->
  (forall c, c ∈ fl -> skipM c ~{ h }~> skip c; h) -> fl ⊆ A ->
  forall x best fuel, (length fl < fuel)%nat -> (best = NULL \/ best ∈ A) -> flchain h x fl ->
  best_loop skipM fuel x best ~{ h }~> best_pure h skip fl best; h.
Proof.
  intros Har. induction fl as [|a fl IH]; intros Hskip HA x best [|fuel] Hfuel Hbest Hf; simpl in Hfuel; try lia.
  - simpl in Hf. subst x. done.
  - destruct Hf as [-> Hf]. assert (Ha : a ∈ A) by (apply HA; set_solver).
    simpl. rewrite (arena_nonnull h A Har a Ha), (bind_ok _ _ _ _ _ (Hskip a ltac:(set_solver))).
    set (best' := if skip a then best else if best =? NULL then a
                  else if word h a <? word h best then a else best).
    assert (Hstep : (if skip a then mret best else if best =? NULL then mret a
      else cs ← rd a; bs ← rd best; mret (if cs <? bs then a else best)) ~{ h }~> best'; h).
    { unfold best'. destruct (skip a); [done|]. destruct (Z.eqb_spec best NULL); [done|].
      destruct Hbest as [|Hbest]; [done|].
      by rewrite (bind_ok _ _ _ _ _ (rd_size h A Har a Ha)), (bind_ok _ _ _ _ _ (rd_size h A Har best Hbest)). }
    rewrite (bind_ok _ _ _ _ _ Hstep), (bind_ok _ _ _ _ _ (rd_nextfree h A Har a Ha)).
    apply IH; [set_solver|set_solver|lia| |done].
    unfold best'. destruct (skip a); [done|]. destruct (best =? NULL); [by right|].
    destruct (word h a <? word h best); [by right|done].
Qed.

(** The loop returns a block of least size among those it does not skip. *)
Lemma best_pure_spec h skip fl : Forall (fun c => c <> NULL) fl -> forall best,
  let r := best_pure h skip fl best in
  (r = NULL <-> best = NULL /\ Forall (fun c => skip c = true) fl) /\
  (r = best \/ r ∈ fl /\ skip r = false) /\
  (forall c, c ∈ fl -> skip c = false -> word h r <= word h c) /\
  (best <> NULL -> word h r <= word h best).
Proof.
  induction fl as [|a fl IH]; intros Hnz best r; simpl in r.
  - split_and!; [|by left|set_solver|intros; unfold r; simpl; lia]. split; [done|]. by intros [? _].
  - apply Forall_cons in Hnz as [Ha Hnz].
    match goal with r := best_pure _ _ _ ?b |- _ => specialize (IH Hnz b) end.
    fold r in IH. clearbody r. destruct IH as (H1 & H2 & H3 & H4). rewrite Forall_cons.
    destruct (skip a) eqn:Es.
    { split_and!; [tauto|destruct H2 as [|[]]; [by left|right; set_solver]| |done].
      intros c [->|Hc]%elem_of_cons; [congruence|auto]. }
    destruct (Z.eqb_spec best NULL) as [->|Hb];
      [specialize (H4 Ha)|destruct (Z.ltb_spec (word h a) (word h best)) as [Hlt|Hge]; specialize (H4 ltac:(done))].
    + split_and!; [split; [intros Hn%H1; tauto|intros [_ [? _]]; done]
                  |destruct H2 as [->|[]]; right; set_solver| |done].
      intros c [->|Hc]%elem_of_cons; auto.
    + split_and!; [split; [intros Hn%H1; tauto|intros [? _]; done]
                  |destruct H2 as [->|[]]; right; set_solver| |intros; lia].
      intros c [->|Hc]%elem_of_cons; auto.
    + split_and!; [split; [intros Hn%H1; tauto|intros [? _]; done]
                  |destruct H2 as [|[]]; [by left|right; set_solver]| |done].
      intros c [->|Hc]%elem_of_cons; [intros; lia|auto].
Qed.

Lemma heap_block_bounds h bs fl b : heap_inv h bs fl -> b ∈ bs ->
  vm_start h + 12 <= b_addr b /\ b_end b <= kernel_heap_top h /\ b_addr b mod 4 = 0 /\
  0 <= b_size b < 4294967296 /\ b_size b mod 4 = 0 /\ b_size b mod 2 = 0.
Proof.
  intros Hi Hb. pose proof (ar_top _ _ (hi_arena _ _ _ Hi)). pose proof (ar_end _ _ (hi_arena _ _ _ Hi)).
  pose proof (ar_base _ _ (hi_arena _ _ _ Hi)).
  destruct (laid_in _ _ _ _ (hi_laid _ _ _ Hi) Hb) as (? & ? & ? & ? & ?). unfold b_end in *.
  split_and!; try done; [lia|dlia].
Qed.

Lemma rep_block h A hd tl bs fl c : rep h A hd tl bs fl -> c ∈ addrs bs ->
  exists b, b ∈ bs /\ b_addr b = c /\ word h c = hdr b.
Proof.
  intros Hr (b & -> & Hb)%list_elem_of_fmap. exists b. split_and!; [done|done|]. by apply Hr.
Qed.

Lemma is_fit_run h bs fl b size : heap_inv h bs fl -> b ∈ bs -> 0 <= size < 4294967296 -> size mod 2 = 0 ->
  block_is_fit (b_addr b) size ~{ h }~> b_isfree b && bool_decide (size <= b_size b); h.
Proof.
  intros Hi Hb Hs He. destruct (hi_rep _ _ _ Hi) as (tl & Hr & _).
  pose proof (hi_arena _ _ _ Hi) as Har. pose proof (elem_of_addrs _ _ Hb) as Ha.
  destruct (heap_block_bounds _ _ _ _ Hi Hb) as (_ & _ & _ & Hsz & _ & Heven).
  unfold block_is_fit, block_is_free. rewrite (bind_ok _ _ _ _ _ (rd_size h _ Har _ Ha)).
  rewrite (arena_nonnull h _ Har _ Ha), (rp_hdr _ _ _ _ _ _ Hr b Hb). unfold hdr.
  pose proof (real_size_bit size false Hs He) as Hreal. rewrite Z.add_0_r in Hreal. rewrite Hreal.
  assert (Hcmp : (b_size b + bool_int (b_isfree b) >=? size) = bool_decide (size <= b_size b)).
  { rewrite Z.geb_leb. destruct (b_isfree b); unfold bool_int; case_bool_decide;
      [apply Z.leb_le|apply Z.leb_gt|apply Z.leb_le|apply Z.leb_gt]; dlia. }
  rewrite Hcmp. case_bool_decide; [|by rewrite andb_false_r].
  rewrite (bind_ok _ _ _ _ _ (rd_size h _ Har _ Ha)), (rp_hdr _ _ _ _ _ _ Hr b Hb). unfold hdr.
  by rewrite free_bit, andb_true_r.
Qed.

Lemma heap_inv_free_block h bs fl c : heap_inv h bs fl -> c ∈ fl ->
  exists b, b ∈ bs /\ b_addr b = c /\ b_isfree b = true /\ word h c = b_size b + 1.
Proof.
  intros Hi Hc. destruct (hi_rep _ _ _ Hi) as (tl & Hr & _).
  destruct (rep_block _ _ _ _ _ _ c Hr) as (b & Hb & <- & Hw); [by apply (rp_flA _ _ _ _ _ _ Hr)|].
  assert (Hf : b_isfree b = true) by (by apply (hi_free _ _ _ Hi)).
  exists b. split_and!; try done. rewrite Hw. unfold hdr. by rewrite Hf.
Qed.

Lemma fl_fuel h bs fl : heap_inv h bs fl -> (length fl < walk_fuel h)%nat.
Proof.
  intros Hi. destruct (hi_rep _ _ _ Hi) as (tl & Hr & _).
  pose proof (flchain_length _ _ _ (rp_fl _ _ _ _ _ _ Hr) (rp_ndfl _ _ _ _ _ _ Hr)) as Hlen.
  unfold walk_fuel. enough (length fl <= S (size (h_mem h)))%nat by lia. apply Hlen.
  intros a Ha%(rp_flA _ _ _ _ _ _ Hr). pose proof (arena_nonnull _ _ (hi_arena _ _ _ Hi) a Ha).
  unfold NULL in *. lia.
Qed.

(** The search of a free block: NULL when none is large enough, otherwise a
    free block of least sufficient size. *)
Definition best_fit (bs : list blk) (size : Z) (b : blk) : Prop :=
  b ∈ bs /\ b_isfree b = true /\ size <= b_size b /\
  forall c, c ∈ bs -> b_isfree c = true -> size <= b_size c -> b_size b <= b_size c.
Definition no_fit (bs : list blk) (size : Z) : Prop :=
  forall c, c ∈ bs -> b_isfree c = true -> b_size c < size.

(** The walk over the free list, whatever the test. *)
Lemma find_loop_run h bs fl skipM skip : heap_inv h bs fl -> (forall c, c ∈ fl -> skipM c ~{ h }~> skip c; h) ->
  (first ← rd (u32 (vm_start h + 8));
   if first =? NULL then mret NULL
   else fuel ← gets walk_fuel; best_loop skipM fuel first NULL) ~{ h }~> best_pure h skip fl NULL; h.
Proof.
  intros Hi Hskip. pose proof (hi_arena _ _ _ Hi) as Har. destruct (hi_rep _ _ _ Hi) as (tl & Hr & _).
  rewrite (bind_ok _ _ _ _ _ (rd_control h _ Har 8 ltac:(lia))).
  pose proof (rp_fl _ _ _ _ _ _ Hr) as Hfl. pose proof (rp_flA _ _ _ _ _ _ Hr) as HflA.
  destruct fl as [|a fl']; [by simpl in Hfl; rewrite Hfl|].
  assert (Hnz : word h (vm_start h + 8) =? NULL = false).
  { destruct Hfl as [-> _]. apply (arena_nonnull h _ Har a), HflA. set_solver. }
  rewrite Hnz.
  rewrite (bind_ok (gets walk_fuel) _ h (walk_fuel h) h eq_refl).
  eapply (best_loop_run h _ _ skip _ Har); try done; [by eapply fl_fuel|by left].
Qed.

Lemma fl_nonnull h bs fl : heap_inv h bs fl -> Forall (fun c => c <> NULL) fl.
Proof.
  intros Hi. destruct (hi_rep _ _ _ Hi) as (tl & Hr & _). apply Forall_forall. intros a Ha%(rp_flA _ _ _ _ _ _ Hr).
  pose proof (arena_nonnull h _ (hi_arena _ _ _ Hi) a Ha). lia.
Qed.

Lemma find_best_fitting_run h bs fl size : heap_inv h bs fl -> 0 <= size < 4294967296 -> size mod 2 = 0 ->
  (block_find_best_fitting size (u32 (vm_start h + 8)) ~{ h }~> NULL; h /\ no_fit bs size) \/
  (exists b, block_find_best_fitting size (u32 (vm_start h + 8)) ~{ h }~> b_addr b; h /\ best_fit bs size b).
Proof.
  intros Hi Hs He. destruct (hi_rep _ _ _ Hi) as (tl & Hr & _).
  set (skip := fun c => negb (bool_decide (size <= word h c - 1))).
  assert (Hrun := find_loop_run h bs fl (fun c => f ← block_is_fit c size; mret (negb f)) skip Hi).
  specialize (Hrun ltac:(intros c Hc; destruct (heap_inv_free_block _ _ _ _ Hi Hc) as (b & Hb & <- & Hf & Hw);
    rewrite (bind_ok _ _ _ _ _ (is_fit_run _ _ _ _ _ Hi Hb Hs He)), Hf; unfold skip; rewrite Hw;
    by replace (b_size b + 1 - 1) with (b_size b) by lia)).
  assert (Hsk : forall c, skip c = negb (bool_decide (size <= word h c - 1))) by done. clearbody skip.
  assert (Hblk : forall c, c ∈ bs -> b_isfree c = true -> b_addr c ∈ fl /\ word h (b_addr c) = b_size c + 1).
  { intros c Hc Hf. split; [by apply (hi_free _ _ _ Hi)|]. rewrite (rp_hdr _ _ _ _ _ _ Hr c Hc). unfold hdr. by rewrite Hf. }
  destruct (best_pure_spec h skip fl (fl_nonnull _ _ _ Hi) NULL) as (H1 & H2 & H3 & _).
  unfold block_find_best_fitting. rewrite Hrun.
  destruct (Z.eq_dec (best_pure h skip fl NULL) NULL) as [Hz|Hz].
  - left. rewrite Hz. split; [done|]. apply H1 in Hz as [_ Hall]. intros c Hc Hf.
    destruct (Hblk c Hc Hf) as [Hin Hw]. rewrite Forall_forall in Hall. specialize (Hall _ Hin). rewrite Hsk, Hw in Hall.
    apply negb_true_iff, bool_decide_eq_false in Hall. lia.
  - right. destruct H2 as [|[Hin Hns]]; [done|].
    destruct (heap_inv_free_block _ _ _ _ Hi Hin) as (b & Hb & Heq & Hf & Hw).
    exists b. rewrite Heq. split; [done|]. rewrite Hsk, Hw in Hns. apply negb_false_iff, bool_decide_eq_true in Hns.
    split_and!; [done|done|lia|]. intros c Hc Hcf Hcs. destruct (Hblk c Hc Hcf) as [Hcin Hwc].
    specialize (H3 _ Hcin). rewrite Hsk, Hw, Hwc in H3.
    assert (b_size b + 1 <= b_size c + 1); [|lia]. apply H3. apply negb_false_iff, bool_decide_eq_true. lia.
Qed.

(** The search of [kmalloc_align]: a block that is used because of its address
    is large enough. *)
Lemma find_align_run h bs fl size : heap_inv h bs fl -> 0 <= size < 4294967296 -> size mod 2 = 0 ->
  exists r, block_find_best_fitting_align size (u32 (vm_start h + 8)) ~{ h }~> r; h /\
    (negb (r =? NULL) && IS_ALIGN (u32 (r + 12 * 12)) = true ->
     exists b, b ∈ bs /\ b_addr b = r /\ b_isfree b = true /\ size <= b_size b).
Proof.
  intros Hi Hs He.
  set (skip := fun c => negb (bool_decide (size <= word h c - 1)) && IS_ALIGN (u32 (c + 12 * 12))).
  assert (Hrun := find_loop_run h bs fl (fun c => f ← block_is_fit c size; mret (negb f && IS_ALIGN (u32 (c + 12 * 12)))) skip Hi).
  specialize (Hrun ltac:(intros c Hc; destruct (heap_inv_free_block _ _ _ _ Hi Hc) as (b & Hb & <- & Hf & Hw);
    rewrite (bind_ok _ _ _ _ _ (is_fit_run _ _ _ _ _ Hi Hb Hs He)), Hf; unfold skip; rewrite Hw;
    by replace (b_size b + 1 - 1) with (b_size b) by lia)).
  exists (best_pure h skip fl NULL). split; [done|]. intros [Hnz Hal]%andb_true_iff.
  assert (Hsk : forall c, skip c = negb (bool_decide (size <= word h c - 1)) && IS_ALIGN (u32 (c + 12 * 12))) by done.
  clearbody skip. destruct (best_pure_spec h skip fl (fl_nonnull _ _ _ Hi) NULL) as (_ & [Hz|[Hin Hns]] & _ & _).
  { by rewrite Hz in Hnz. }
  destruct (heap_inv_free_block _ _ _ _ Hi Hin) as (b & Hb & Heq & Hf & Hw). exists b. split_and!; try done.
  rewrite Hsk, Hal, andb_true_r, Hw in Hns. apply negb_false_iff, bool_decide_eq_true in Hns. lia.
Qed.

(** ** Steps shared by allocation and release *)
Lemma block_set_free_run h A b s x : arena h A -> b ∈ A -> word h b = s -> is_u32 s -> s mod 2 = 0 ->
  block_set_free b x ~{ h }~> tt; put b (s + bool_int x) h.
Proof.
  intros Har Hb Hw Hs He. unfold block_set_free. rewrite (bind_ok _ _ _ _ _ (rd_size h A Har b Hb)), Hw.
  destruct x; unfold bool_int.
  - rewrite lor_1 by done. by apply (wr_size h A Har).
  - rewrite land_even, Z.add_0_r by done. by apply (wr_size h A Har).
Qed.

(** Writing a size and its free bit is writing one header. *)
Lemma write_header_run {B} h A a s x (k : M heap B) : arena h A -> a ∈ A -> is_u32 s -> s mod 2 = 0 ->
  (wr a s ;; block_set_free a x ;; k) h = k (put a (s + bool_int x) h).
Proof.
  intros Har Ha Hs He. rewrite (bind_ok _ _ _ _ _ (wr_size h A Har _ s Ha)).
  assert (Har1 : arena (put a s h) A).
  { eapply frame_arena; [|exact Har]. rewrite <- (Z.add_0_r a). apply frame_field; [done|lia]. }
  rewrite (bind_ok _ _ _ _ _ (block_set_free_run _ A _ s _ Har1 Ha (word_put_eq _ _ _) Hs He)).
  by rewrite put_put.
Qed.

Lemma is_tail_last l1 b tl : is_tail (l1 ++ [b]) tl <-> tl = b_addr b.
Proof.
  unfold is_tail. rewrite addrs_app. simpl. rewrite last_snoc. split.
  - intros [Hn|Hl]; [by destruct l1|congruence].
  - intros ->. by right.
Qed.
Lemma is_tail_cons l1 b c l2 tl : is_tail (l1 ++ b :: c :: l2) tl <-> is_tail (c :: l2) tl.
Proof.
  assert (Hl : last (addrs (l1 ++ b :: c :: l2)) = last (addrs (c :: l2))).
  { rewrite (cons_middle b), app_assoc, addrs_app. by apply last_app_cons. }
  unfold is_tail. rewrite Hl. split; (intros [Hn|?]; [|by right]); [by destruct l1|done].
Qed.

(** Whether a block is the last one. *)
Lemma is_tail_eqb l1 b l2 tl : NoDup (addrs (l1 ++ b :: l2)) -> is_tail (l1 ++ b :: l2) tl ->
  (b_addr b =? tl) = match l2 with [] => true | _ => false end.
Proof.
  intros Hnd Ht. destruct l2 as [|c l2].
  - apply is_tail_last in Ht as ->. apply Z.eqb_refl.
  - apply is_tail_cons in Ht as [|Hl]; [done|]. apply Z.eqb_neq. intros <-.
    apply last_Some_elem_of in Hl. rewrite addrs_app in Hnd. cbn in Hnd.
    apply NoDup_app in Hnd as (_ & _ & Hnd). apply NoDup_cons in Hnd as [Hnd _]. done.
Qed.

Lemma get_next_block_run h A hd tl l1 b l2 fl : arena h A -> rep h A hd tl (l1 ++ b :: l2) fl ->
  is_tail (l1 ++ b :: l2) tl ->
  block_get_next_block (b_addr b) (u32 (vm_start h + 4)) ~{ h }~> first_addr l2; h.
Proof.
  intros Har Hr Ht. unfold block_get_next_block.
  rewrite (bind_ok _ _ _ _ _ (rd_control h A Har 4 ltac:(lia))), (rp_tl _ _ _ _ _ _ Hr).
  rewrite (is_tail_eqb l1 b l2) by (done || apply Hr).
  destruct l2 as [|c l2]; [done|].
  assert (Hb : b_addr b ∈ A) by (apply (rp_bsA _ _ _ _ _ _ Hr), elem_of_addrs; set_solver).
  rewrite (rd_next h A Har _ Hb). pose proof (rp_nexts _ _ _ _ _ _ Hr) as Hn.
  apply nexts_app in Hn as [_ [Hn _]]. by rewrite Hn.
Qed.

Lemma block_is_free_run h A hd tl bs fl b : arena h A -> rep h A hd tl bs fl -> b ∈ bs -> b_size b mod 2 = 0 ->
  block_is_free (b_addr b) ~{ h }~> b_isfree b; h.
Proof.
  intros Har Hr Hb He. assert (HbA : b_addr b ∈ A) by (apply (rp_bsA _ _ _ _ _ _ Hr), elem_of_addrs; set_solver).
  unfold block_is_free. rewrite (arena_nonnull h A Har _ HbA), (bind_ok _ _ _ _ _ (rd_size h A Har _ HbA)).
  rewrite (rp_hdr _ _ _ _ _ _ Hr b Hb). unfold hdr. by rewrite free_bit.
Qed.

(** ** Taking a free block *)
Section Reuse.
Context (h : heap) (l1 : list blk) (b : blk) (l2 : list blk) (fl : list Z) (tl rounded : Z).
Context (Hi : heap_inv h (l1 ++ b :: l2) fl).
Context (Hr : rep h (addrs (l1 ++ b :: l2)) (first_addr (l1 ++ b :: l2)) tl (l1 ++ b :: l2) fl).
Context (Ht : is_tail (l1 ++ b :: l2) tl).
Context (Hfree : b_isfree b = true).
Context (Hround : 0 <= rounded <= b_size b /\ rounded mod 4 = 0).

Lemma reuse_in : b ∈ l1 ++ b :: l2.
Proof. set_solver. Qed.

(** The block that follows a free block is not free. *)
Lemma reuse_next_busy c l : l2 = c :: l -> b_isfree c = false.
Proof.
  intros ->. pose proof (hi_adj _ _ _ Hi) as Ha. apply no_adj_app in Ha as [_ [Ha _]].
  by rewrite Hfree in Ha.
Qed.

Lemma no_adj_prefix_busy l c c' : no_adj (l ++ [c]) -> b_isfree c' = false -> no_adj (l ++ [c']).
Proof.
  intros Ha Hc. induction l as [|x [|y l] IH]; simpl in *; [done| |tauto].
  rewrite Hc, andb_false_r. done.
Qed.
Lemma no_adj_busy_cons c l : no_adj l -> b_isfree c = false -> no_adj (c :: l).
Proof. intros Hl Hc. destruct l; [done|]. split; [by rewrite Hc|done]. Qed.

(** The chunk is too small to be split. *)
Lemma reuse_whole_run : b_size b - rounded < 20 ->
  exists h' fl', malloc_reuse (b_addr b) (rounded + 12) tl (u32 (vm_start h + 4)) (u32 (vm_start h + 8))
      ~{ h }~> b_addr b + 12; h' /\
    heap_inv h' (l1 ++ Blk (b_addr b) (b_size b) false :: l2) fl' /\
    frame (addrs (l1 ++ b :: l2)) h h'.
Proof.
  intros Hsmall. set (b' := Blk (b_addr b) (b_size b) false). set (A := addrs (l1 ++ b :: l2)) in *.
  pose proof (hi_arena _ _ _ Hi) as Har. fold A in Har.
  destruct (heap_block_bounds _ _ _ _ Hi reuse_in) as (Hlo & Hend & _ & Hsz & _ & Heven).
  pose proof (ar_top _ _ Har). pose proof (ar_end _ _ Har). pose proof (ar_base _ _ Har).
  assert (HbA : b_addr b ∈ A) by apply elem_of_addrs, reuse_in. unfold b_end in Hend.
  assert (HA : addrs (l1 ++ b' :: l2) = A) by (unfold A; rewrite !addrs_app; done).
  unfold malloc_reuse. rewrite (bind_ok _ _ _ _ _ (get_next_block_run _ _ _ _ _ _ _ _ Har Hr Ht)).
  rewrite (bind_ok _ _ _ _ _ (rd_size h A Har _ HbA)), (rp_hdr _ _ _ _ _ _ Hr b reuse_in).
  cbv zeta. unfold OVERHEAD. rewrite (real_size_bit (b_size b) (b_isfree b) Hsz Heven : _ (hdr b) = _).
  rewrite (u32_small (b_size b + 12)), (u32_small (b_size b + 12 - (rounded + 12))) by lia.
  destruct (Z.ltb_spec (b_size b + 12 - (rounded + 12)) (8 + 12)); [|lia].
  replace (u32 (b_size b + 12 - 12)) with (b_size b) by (rewrite u32_small; lia).
  rewrite (write_header_run h A (b_addr b) (b_size b) false _ Har HbA ltac:(unfold is_u32; lia) Heven).
  rewrite bind_ret_l. change (b_size b + bool_int false) with (hdr b').
  pose proof (rep_put_header h A _ _ Har _ _ b' _ _ Hr eq_refl) as Hr1.
  assert (Hf1 : frame A h (put (b_addr b) (hdr b') h)).
  { rewrite <- (Z.add_0_r (b_addr b)). apply frame_field; [done|lia]. }
  assert (Hin : b_addr b ∈ fl) by (apply (hi_free _ _ _ Hi); [apply reuse_in|done]).
  apply list_elem_of_split in Hin as (f1 & f2 & Hfl). rewrite Hfl in Hr1.
  destruct (remove_from_freelist_run _ _ _ _ _ _ _ _ (frame_arena _ _ _ Hf1 Har) Hr1) as (h' & Hrun & Hr2 & Hf2).
  change (vm_start (put (b_addr b) (hdr b') h)) with (vm_start h) in Hrun.
  exists h', (f1 ++ f2). rewrite (bind_ok _ _ _ _ _ Hrun).
  assert (Hf : frame A h h') by (by etrans; [exact Hf1|apply Hf2]).
  destruct (NoDup_middle f1 (b_addr b) f2) as [_ Hnb]; [rewrite <- Hfl; apply Hr|].
  split; [by rewrite u32_small by lia|]. split; [|done].
  split.
  - rewrite HA. by eapply frame_arena.
  - pose proof (hi_laid _ _ _ Hi) as Hl. destruct Hf as [_ -> _ _ -> _].
    apply laid_app in Hl as (mid & Hl1 & Hl2). apply laid_app. by exists mid.
  - exists tl. rewrite HA. split; [|by destruct l2; [apply is_tail_last; apply is_tail_last in Ht|apply is_tail_cons; apply is_tail_cons in Ht]].
    by replace (first_addr (l1 ++ b' :: l2)) with (first_addr (l1 ++ b :: l2)) by (unfold first_addr; by rewrite HA).
  - intros c Hc. assert (Hcases : c = b' \/ (c ∈ l1 ++ l2)) by set_solver.
    destruct Hcases as [->|Hc']; [split; [done|cbn; set_solver]|].
    rewrite (hi_free _ _ _ Hi c) by set_solver. rewrite Hfl.
    assert (b_addr c <> b_addr b) by (eapply addrs_mid; [apply Hr|done]). set_solver.
  - pose proof (hi_adj _ _ _ Hi) as Ha. apply no_adj_app in Ha as [Ha1 Ha2]. apply no_adj_app. split.
    + by eapply no_adj_prefix_busy.
    + apply no_adj_busy_cons; [destruct l2; [done|apply Ha2]|done].
Qed.

(** The chunk is split: the rest becomes a new free block. *)
Definition split_busy : blk := Blk (b_addr b) rounded false.
Definition split_rest : blk := Blk (b_addr b + rounded + 12) (b_size b - rounded - 12) true.
Definition split_list : list blk := l1 ++ split_busy :: split_rest :: l2.

Lemma split_laid : 20 <= b_size b - rounded -> laid (vm_start h + 12) split_list (kernel_heap_top h).
Proof.
  intros Hbig. pose proof (hi_laid _ _ _ Hi) as Hl. apply laid_app in Hl as (mid & Hl1 & Hl2).
  apply laid_app. exists mid. split; [done|]. destruct Hl2 as (? & ? & ? & ? & Hl2).
  unfold b_end in *. cbn. unfold b_end. cbn. split_and!; try done; try lia; try dlia.
  eapply laid_mono; [| |exact Hl2]; lia.
Qed.

Definition split_tail : Z := match l2 with [] => b_addr split_rest | _ => tl end.

Lemma split_addrs : forall a, a ∈ addrs split_list <-> a = b_addr split_rest \/ a ∈ addrs (l1 ++ b :: l2).
Proof. intros a. unfold split_list. rewrite !addrs_app. cbn. rewrite !elem_of_app, !elem_of_cons. tauto. Qed.

(** The pointer to the last block is moved when [b] was the last one. *)
Lemma split_tail_run h4 A hd bs' fl' : arena h4 A -> vm_start h4 = vm_start h -> rep h4 A hd tl bs' fl' ->
  b_addr split_rest ∈ A ->
  exists h5, (if b_addr b =? tl then wr (u32 (vm_start h + 4)) (b_addr split_rest) else mret tt) ~{ h4 }~> tt; h5 /\
    rep h5 A hd split_tail bs' fl' /\ frame A h4 h5 /\
    (forall x, vm_start h + 12 <= x -> word h5 x = word h4 x).
Proof.
  intros Har Hst Hr4 HcA. rewrite (is_tail_eqb l1 b l2 tl) by (done || apply Hr).
  unfold split_tail. destruct l2.
  - rewrite <- Hst. eexists. split; [by apply (wr_control h4 A Har 4); lia|].
    split; [by eapply rep_put_tail|]. split; [apply frame_control; lia|].
    intros x Hx. apply word_put_ne. lia.
  - exists h4. split_and!; done.
Qed.

Lemma separate_run h2 A hd bs' remaining : arena h2 A -> vm_start h2 = vm_start h -> rep h2 A hd tl bs' fl ->
  b_addr split_rest ∈ A -> b_addr split_rest ∉ addrs bs' -> b_addr split_rest ∉ fl ->
  u32 (remaining - OVERHEAD) = b_size split_rest -> b_size split_rest mod 2 = 0 ->
  exists h6, malloc_separate (b_addr b) (b_addr split_rest) remaining (first_addr l2) tl
      (u32 (vm_start h + 4)) (u32 (vm_start h + 8)) ~{ h2 }~> tt; h6 /\
    rep h6 A hd split_tail bs' (b_addr split_rest :: fl) /\ frame A h2 h6 /\
    word h6 (b_addr split_rest) = hdr split_rest /\ word h6 (b_addr split_rest + 8) = first_addr l2.
Proof.
  intros Har Hst Hr2 HcA Hnew Hnfl Hsz Heven. unfold malloc_separate. rewrite Hsz.
  assert (Hu : is_u32 (b_size split_rest)) by (rewrite <- Hsz; apply u32_range).
  rewrite (write_header_run h2 A _ _ true _ Har HcA Hu Heven).
  change (b_size split_rest + bool_int true) with (hdr split_rest). set (c := b_addr split_rest) in *.
  pose proof (frame_field h2 _ c 0 (hdr split_rest) HcA ltac:(lia)) as Hf3. rewrite Z.add_0_r in Hf3.
  pose proof (rep_put_other h2 _ _ _ Har c 0 (hdr split_rest) _ _ Hr2 HcA Hnew ltac:(lia)) as Hr3.
  rewrite Z.add_0_r in Hr3. pose proof (frame_arena _ _ _ Hf3 Har) as Har3.
  set (h3 := put c (hdr split_rest) h2) in *.
  rewrite (bind_ok _ _ _ _ _ (wr_next h3 A Har3 c (first_addr l2) HcA)).
  pose proof (frame_field h3 _ c 8 (first_addr l2) HcA ltac:(lia)) as Hf4.
  pose proof (rep_put_other h3 _ _ _ Har3 c 8 (first_addr l2) _ _ Hr3 HcA Hnew ltac:(lia)) as Hr4.
  pose proof (frame_arena _ _ _ Hf4 Har3) as Har4. set (h4 := put (c + 8) (first_addr l2) h3) in *.
  destruct (split_tail_run h4 A _ _ _ Har4 Hst Hr4 HcA) as (h5 & Hrun5 & Hr5 & Hf5 & Hw5).
  rewrite (bind_ok _ _ _ _ _ Hrun5). pose proof (frame_arena _ _ _ Hf5 Har4) as Har5.
  destruct (add_to_freelist_run h5 A _ _ _ _ c Har5 Hr5 HcA Hnfl) as (h6 & Hrun6 & Hr6 & Hf6).
  assert (Hst5 : vm_start h5 = vm_start h) by (rewrite (fr_start _ _ _ Hf5); done).
  rewrite Hst5 in Hrun6. exists h6. split; [done|]. split; [done|].
  split; [by etrans; [|apply Hf6]; etrans; [|exact Hf5]; etrans|].
  pose proof (ar_in _ _ Har c HcA) as (_ & Hlo & _). rewrite Hst in Hlo.
  rewrite (fo_size _ _ _ Hf6 c HcA), (fo_next _ _ _ Hf6 c HcA), !Hw5 by lia.
  unfold h4, h3. rewrite word_put_ne, !word_put_eq by lia. done.
Qed.

Lemma split_heap_inv h' fl' f1 f2 : 20 <= b_size b - rounded -> fl = f1 ++ b_addr b :: f2 ->
  fl' = (b_addr split_rest :: f1) ++ f2 ->
  rep h' (addrs split_list) (first_addr split_list) split_tail split_list fl' ->
  frame (addrs split_list) h h' -> heap_inv h' split_list fl'.
Proof.
  intros Hbig Hfl Hfl' Hr' Hf. pose proof (split_laid Hbig) as Hl. pose proof (hi_arena _ _ _ Hi) as Har.
  destruct (NoDup_middle f1 (b_addr b) f2) as [_ Hnb]; [rewrite <- Hfl; apply Hr|].
  assert (Hrest : b_addr split_rest <> b_addr b) by (cbn; lia).
  split.
  - apply (frame_arena _ h); [done|]. by eapply arena_laid.
  - by rewrite (fr_start _ _ _ Hf), (fr_top _ _ _ Hf).
  - exists split_tail. split; [done|]. unfold split_list, split_tail. destruct l2 as [|d l2'].
    + rewrite (cons_middle split_busy), app_assoc. by apply is_tail_last.
    + apply is_tail_cons in Ht. rewrite (is_tail_cons l1). by apply (is_tail_cons [] split_rest d).
  - intros c Hc. subst fl'. apply elem_of_app in Hc as [Hc|[->|[->|Hc]%elem_of_cons]%elem_of_cons].
    3: { split; [set_solver|done]. }
    2: { split; [done|]. cbn. set_solver. }
    all: assert (b_addr c <> b_addr b) by (eapply addrs_mid; [apply Hr|set_solver]);
      rewrite (hi_free _ _ _ Hi c) by set_solver;
      assert (b_addr c <> b_addr split_rest); [|rewrite Hfl; set_solver].
    all: apply (addrs_mid (l1 ++ [split_busy]) split_rest l2); [|set_solver].
    all: rewrite <- app_assoc; by eapply laid_nodup.
  - pose proof (hi_adj _ _ _ Hi) as Ha. apply no_adj_app in Ha as [Ha1 Ha2]. apply no_adj_app. split.
    + by eapply no_adj_prefix_busy.
    + apply no_adj_busy_cons; [|done]. pose proof reuse_next_busy as Hbusy. destruct l2 as [|d l2']; [done|].
      split; [|apply Ha2]. by rewrite (Hbusy d l2' eq_refl).
Qed.

Lemma split_rest_new : 20 <= b_size b - rounded -> b_addr split_rest ∉ addrs (l1 ++ b :: l2).
Proof.
  intros Hbig. pose proof (laid_nodup _ _ _ (split_laid Hbig)) as Hnd. unfold split_list in Hnd.
  rewrite (cons_middle split_busy), app_assoc, addrs_app in Hnd.
  apply NoDup_middle in Hnd as [_ [H1 H2]]. rewrite !addrs_app in *. cbn in *.
  rewrite !elem_of_app, !elem_of_cons in *. intros [?|[?|?]]; tauto.
Qed.

(** The busy block gets its header and is linked to the rest. *)
Lemma split_link_run h2 bs' h6 fl' : 20 <= b_size b - rounded -> bs' = l1 ++ split_busy :: l2 ->
  frame (addrs split_list) h h2 -> frame (addrs split_list) h2 h6 ->
  rep h6 (addrs split_list) (first_addr (l1 ++ b :: l2)) split_tail bs' fl' ->
  word h6 (b_addr split_rest) = hdr split_rest -> word h6 (b_addr split_rest + 8) = first_addr l2 ->
  exists h7, wr (b_next (b_addr b)) (b_addr split_rest) ~{ h6 }~> tt; h7 /\
    frame (addrs split_list) h h7 /\
    rep h7 (addrs split_list) (first_addr split_list) split_tail split_list fl'.
Proof.
  intros Hbig -> Hf2 Hf6 Hr6 Hws Hwn. pose proof (split_laid Hbig) as Hlaid.
  pose proof (arena_laid _ _ _ (hi_arena _ _ _ Hi) Hlaid) as Har.
  assert (HbA : b_addr b ∈ addrs split_list) by (apply split_addrs; right; apply elem_of_addrs, reuse_in).
  assert (Har6 : arena h6 (addrs split_list)) by (eapply frame_arena; [|exact Har]; by etrans).
  eexists. split; [by apply (wr_next h6 _ Har6)|].
  split; [by etrans; [|apply frame_field; [done|lia]]; etrans|].
  assert (Hfst : first_addr split_list = first_addr (l1 ++ b :: l2)).
  { unfold first_addr, split_list. by destruct l1. }
  rewrite Hfst. apply (rep_put_next h6 _ _ _ Har6 l1 split_busy [] [split_rest] l2).
  - done.
  - by eapply laid_nodup.
  - intros a Ha. apply split_addrs. left. by apply list_elem_of_singleton in Ha.
  - intros c Hc%list_elem_of_singleton. by subst c.
  - pose proof (rp_nexts _ _ _ _ _ _ Hr6) as Hn. apply nexts_app in Hn as [_ Hn].
    destruct l2 as [|d l2']; [done|]. split; [done|]. apply Hn.
  - done.
Qed.

Lemma reuse_next_free_run h2 A hd fl' : arena h2 A -> rep h2 A hd tl (l1 ++ split_busy :: l2) fl' ->
  block_is_free (first_addr l2) ~{ h2 }~> false; h2.
Proof.
  intros Har2 Hr2. pose proof reuse_next_busy as Hbusy.
  assert (Hb : forall c, c ∈ l1 ++ b :: l2 -> b_size c mod 2 = 0) by (intros c Hc; by apply (heap_block_bounds _ _ _ _ Hi)).
  destruct l2 as [|d l2']; [done|].
  change (first_addr (d :: l2')) with (b_addr d). rewrite <- (Hbusy d l2' eq_refl).
  eapply block_is_free_run; [exact Har2|exact Hr2|set_solver|]. apply Hb. set_solver.
Qed.

Lemma reuse_split_run : 20 <= b_size b - rounded ->
  exists h' fl', malloc_reuse (b_addr b) (rounded + 12) tl (u32 (vm_start h + 4)) (u32 (vm_start h + 8))
      ~{ h }~> b_addr b + 12; h' /\
    heap_inv h' split_list fl' /\ frame (addrs split_list) h h'.
Proof.
  intros Hbig. set (A := addrs split_list). pose proof (split_laid Hbig) as Hlaid.
  pose proof (hi_arena _ _ _ Hi) as Har0. pose proof (arena_laid _ _ _ Har0 Hlaid) as Har. fold A in Har.
  destruct (heap_block_bounds _ _ _ _ Hi reuse_in) as (Hlo & Hend & _ & Hsz & _ & Heven). unfold b_end in Hend.
  pose proof (ar_top _ _ Har). pose proof (ar_end _ _ Har). pose proof (ar_base _ _ Har).
  assert (HbA : b_addr b ∈ A) by (apply split_addrs; right; apply elem_of_addrs, reuse_in).
  assert (HcA : b_addr split_rest ∈ A) by (apply split_addrs; by left).
  pose proof (rp_flA _ _ _ _ _ _ Hr) as HflA. pose proof (split_rest_new Hbig) as Hnew.
  assert (HrA : rep h A (first_addr (l1 ++ b :: l2)) tl (l1 ++ b :: l2) fl).
  { eapply rep_arena; [exact Hr|..]; intros a Ha; apply split_addrs; right; [done|by apply HflA]. }
  unfold malloc_reuse. rewrite (bind_ok _ _ _ _ _ (get_next_block_run _ _ _ _ _ _ _ _ Har0 Hr Ht)).
  rewrite (bind_ok _ _ _ _ _ (rd_size h A Har _ HbA)), (rp_hdr _ _ _ _ _ _ Hr b reuse_in).
  cbv zeta. rewrite (real_size_bit (b_size b) (b_isfree b) Hsz Heven : _ (hdr b) = _). unfold OVERHEAD.
  rewrite (u32_small (b_size b + 12)), (u32_small (b_size b + 12 - (rounded + 12))) by lia.
  destruct (Z.ltb_spec (b_size b + 12 - (rounded + 12)) (8 + 12)); [lia|].
  replace (u32 (rounded + 12 - 12)) with rounded by (rewrite u32_small; lia).
  rewrite (write_header_run h A (b_addr b) rounded false _ Har HbA ltac:(unfold is_u32; lia) ltac:(dlia)).
  pose proof (rep_put_header h A _ _ Har _ _ split_busy _ _ HrA eq_refl) as Hr2.
  assert (Hf2 : frame A h (put (b_addr b) (hdr split_busy) h)).
  { rewrite <- (Z.add_0_r (b_addr b)). apply frame_field; [done|lia]. }
  pose proof (frame_arena _ _ _ Hf2 Har) as Har2.
  replace (u32 (b_addr b + (rounded + 12))) with (b_addr split_rest) by (rewrite u32_small; cbn; lia).
  rewrite bind_assoc, (bind_ok _ _ _ _ _ (reuse_next_free_run _ _ _ _ Har2 Hr2)). cbv iota.
  destruct (separate_run _ A _ _ (b_size b + 12 - (rounded + 12)) Har2 eq_refl Hr2 HcA)
    as (h6 & Hrun6 & Hr6 & Hf6 & Hws & Hwn).
  { rewrite addrs_app in *. done. }
  { intros Hin. by apply Hnew, HflA. }
  { unfold OVERHEAD. rewrite u32_small; cbn; lia. }
  { cbn. dlia. }
  rewrite bind_assoc, (bind_ok _ _ _ _ _ Hrun6).
  destruct (split_link_run _ _ h6 _ Hbig eq_refl Hf2 Hf6 Hr6 Hws Hwn) as (h7 & Hrun7 & Hf7 & Hr7).
  rewrite (bind_ok _ _ _ _ _ Hrun7).
  assert (Hin : b_addr b ∈ fl) by (apply (hi_free _ _ _ Hi); [apply reuse_in|done]).
  apply list_elem_of_split in Hin as (f1 & f2 & Hfl). rewrite Hfl, app_comm_cons in Hr7.
  destruct (remove_from_freelist_run _ _ _ _ _ _ _ _ (frame_arena _ _ _ Hf7 Har) Hr7) as (h' & Hrun & Hr8 & Hf8).
  rewrite (fr_start _ _ _ Hf7) in Hrun. rewrite (bind_ok _ _ _ _ _ Hrun).
  assert (Hf : frame A h h') by (by etrans; [exact Hf7|apply Hf8]).
  exists h', ((b_addr split_rest :: f1) ++ f2). split; [by rewrite u32_small by lia|]. split; [|done].
  by eapply split_heap_inv.
Qed.

(** Taking block [b] for [rounded] bytes. *)
Lemma reuse_run :
  exists h' b' rest fl', malloc_reuse (b_addr b) (rounded + 12) tl (u32 (vm_start h + 4)) (u32 (vm_start h + 8))
      ~{ h }~> b_addr b + 12; h' /\
    heap_inv h' (l1 ++ b' :: rest ++ l2) fl' /\ frame (addrs (l1 ++ b' :: rest ++ l2)) h h' /\
    b_addr b' = b_addr b /\ b_isfree b' = false /\ rounded <= b_size b' /\
    Forall (fun c => b_isfree c = true) rest.
Proof.
  destruct (Z.lt_ge_cases (b_size b - rounded) 20) as [Hs|Hs].
  - destruct (reuse_whole_run Hs) as (h' & fl' & Hrun & Hi' & Hf).
    exists h', (Blk (b_addr b) (b_size b) false), [], fl'.
    split_and!; try done; [|cbn; lia]. eapply frame_mono; [|exact Hf]. by rewrite !addrs_app.
  - destruct (reuse_split_run Hs) as (h' & fl' & Hrun & Hi' & Hf).
    exists h', split_busy, [split_rest], fl'. split_and!; try done. repeat constructor.
Qed.
End Reuse.

(** ** Growing the heap *)
Lemma ALIGN_UP_div a : 0 <= a -> a + 4095 < 4294967296 -> ALIGN_UP a = (a + 4095) / 4096 * 4096.
Proof.
  intros. unfold ALIGN_UP. rewrite u32_small by lia.
  apply (land_align (a + 4095) 12); [unfold is_u32; lia|lia].
Qed.

Lemma word_clear_page h p x : x / 4096 <> p -> word (set_mem (clear_page p (h_mem h)) h) x = word h x.
Proof.
  intros Hne. unfold word, clear_page. simpl. f_equal.
  destruct (h_mem h !! x) eqn:E.
  - apply map_lookup_filter_Some_2; done.
  - apply map_lookup_filter_None_2. by left.
Qed.

(** [h'] is [h] with the top of the heap moved up. *)
Record grown (h h' : heap) (n : Z) : Prop := {
  gr_start : vm_start h' = vm_start h;
  gr_end : vm_end h' = vm_end h;
  gr_flags : vm_flags h' = vm_flags h;
  gr_top : kernel_heap_top h' = kernel_heap_top h + n;
  gr_vm : pm_ok (h_vm h');
  gr_mapped : forall p, vm_start h / 4096 <= p <= (kernel_heap_top h + n - 1) / 4096 ->
    pm_mapped (h_vm h') p = true;
  gr_word : forall x, x < kernel_heap_top h -> word h' x = word h x
}.

Lemma create_page_run h a flags : pm_ok (h_vm h) -> is_u32 a -> pm_good a flags ->
  vmm_create_page a flags ~{ h }~>! FFatal \/
  exists h', vmm_create_page a flags ~{ h }~> tt; h' /\
    vm_start h' = vm_start h /\ vm_end h' = vm_end h /\ vm_flags h' = vm_flags h /\
    kernel_heap_top h' = kernel_heap_top h /\ pm_ok (h_vm h') /\
    (forall p, pm_mapped (h_vm h') p = bool_decide (p = a / 4096) || pm_mapped (h_vm h) p) /\
    (forall x, x / 4096 <> a / 4096 -> word h' x = word h x).
Proof.
  intros Hok Ha Hg. unfold vmm_create_page.
  destruct (pm_create_law (h_vm h) a flags Hok Ha Hg) as [->|(v & -> & Hok' & Hm)]; [by left|].
  right. eexists. split; [reflexivity|].
  destruct (pm_mapped (h_vm h) (a / 4096)); split_and!; try done.
  intros x Hx. by apply word_clear_page.
Qed.

(** The pages between the old and the new top. *)
Lemma grow_loop_run h A n : arena h A -> 0 < n -> kernel_heap_top h + n <= vm_end h ->
  let startAddr := ALIGN_UP (kernel_heap_top h) in
  let endAddr := ALIGN_UP (kernel_heap_top h + n) in
  let loop := for_range (Z.to_nat ((endAddr - startAddr) / 4096)) 0
    (fun i => vmm_create_page (startAddr + i * 4096) (vm_flags h)) in
  loop ~{ h }~>! FFatal \/ exists h', loop ~{ h }~> tt; h' /\ grown h (set_top (kernel_heap_top h + n) h') n /\
    kernel_heap_top h' = kernel_heap_top h.
Proof.
  intros Har Hn Hfit startAddr endAddr loop.
  pose proof (ar_top _ _ Har). pose proof (ar_end _ _ Har). pose proof (ar_base _ _ Har).
  assert (Hs : startAddr = (kernel_heap_top h + 4095) / 4096 * 4096) by (apply ALIGN_UP_div; lia).
  assert (He : endAddr = (kernel_heap_top h + n + 4095) / 4096 * 4096) by (apply ALIGN_UP_div; lia).
  destruct (for_range_or FFatal (fun i g =>
      vm_start g = vm_start h /\ vm_end g = vm_end h /\ vm_flags g = vm_flags h /\
      kernel_heap_top g = kernel_heap_top h /\ pm_ok (h_vm g) /\
      (forall p, vm_start h / 4096 <= p < startAddr / 4096 + i -> pm_mapped (h_vm g) p = true) /\
      (forall x, x < kernel_heap_top h -> word g x = word h x))
    (Z.to_nat ((endAddr - startAddr) / 4096)) 0
    (fun i => vmm_create_page (startAddr + i * 4096) (vm_flags h)) h) as [Herr|(h' & Hrun & HP)].
  - split_and!; try done; [apply (ar_vm _ _ Har)|]. intros p Hp. apply (ar_mapped _ _ Har). dlia.
  - intros i g Hi0 (Hg1 & Hg2 & Hg3 & Hg4 & Hg5 & Hg6 & Hg7).
    destruct (create_page_run g (startAddr + i * 4096) (vm_flags h) Hg5)
      as [Herr|(g' & Hrun & ? & ? & ? & ? & ? & Hm & Hw)]; [unfold is_u32; dlia|apply (ar_good _ _ Har); dlia|by left|].
    right. exists g'. split_and!; try congruence; try done.
    + intros p Hp. rewrite Hm. case_bool_decide as Hpe; [done|]. apply Hg6. dlia.
    + intros x Hx. rewrite Hw, Hg7 by dlia. done.
  - by left.
  - right. exists h'. destruct HP as (Hg1 & Hg2 & Hg3 & Hg4 & Hg5 & Hg6 & Hg7).
    split; [done|]. split; [|done]. split; try done. intros p Hp. apply Hg6. dlia.
Qed.

Lemma ksbrk_run h A n : arena h A -> 0 < n < 2147483648 -> kernel_heap_top h + n <= vm_end h ->
  ksbrk n ~{ h }~>! FFatal \/ exists h', ksbrk n ~{ h }~> kernel_heap_top h; h' /\ grown h h' n.
Proof.
  intros Har Hn Hfit. pose proof (ar_top _ _ Har). pose proof (ar_end _ _ Har). pose proof (ar_base _ _ Har).
  unfold ksbrk, do_brk. rewrite s32_small by lia. destruct (Z.ltb_spec 0 n); [|lia].
  rewrite !(bind_ok (gets _) _ h _ h eq_refl). rewrite u32_small by lia.
  destruct (Z.leb_spec (kernel_heap_top h + n) (vm_end h)); [|lia].
  rewrite (bind_ok (gets vm_flags) _ h _ h eq_refl). cbv zeta.
  destruct (grow_loop_run h A n Har ltac:(lia) Hfit) as [Herr|(h' & Hrun & Hg & Ht)].
  - left. by apply bind_err.
  - right. exists (set_top (kernel_heap_top h + n) h'). by rewrite (bind_ok _ _ _ _ _ Hrun).
Qed.

Lemma grown_arena h h' n A : arena h A -> grown h h' n -> 0 <= n -> n mod 4 = 0 ->
  kernel_heap_top h + n <= vm_end h -> arena h' A.
Proof.
  intros [] [] Hn Hm Hfit. split; rewrite ?gr_start0, ?gr_end0, ?gr_top0, ?gr_flags0; try done; [lia|dlia|].
  intros a Ha. destruct (ar_in0 a Ha) as (? & ? & ?). split_and!; [done|lia|lia].
Qed.
Lemma grown_rep h h' n A hd tl bs fl : arena h A -> grown h h' n -> rep h A hd tl bs fl -> rep h' A hd tl bs fl.
Proof.
  intros Har Hg []. pose proof (gr_start _ _ _ Hg) as Hst. pose proof (ar_top _ _ Har).
  assert (Hin : forall a k, a ∈ A -> k < 12 -> word h' (a + k) = word h (a + k)).
  { intros a k Ha Hk. apply (gr_word _ _ _ Hg). pose proof (ar_in _ _ Har a Ha). lia. }
  split; try done; rewrite ?Hst, ?(gr_word _ _ _ Hg) by lia; try done.
  - intros b Hb. rewrite <- (Z.add_0_r (b_addr b)), Hin, Z.add_0_r by (try lia; by apply rp_bsA0, elem_of_addrs). auto.
  - apply nexts_ext with h; [|done]. intros b Hb. apply Hin; [by apply rp_bsA0, elem_of_addrs|lia].
  - apply flchain_ext with h; [|done]. intros a Ha. apply Hin; [by apply rp_flA0|lia].
Qed.

(** ** Appending a block *)
Lemma put_comm h a b u v : a <> b -> put a u (put b v h) = put b v (put a u h).
Proof. intros Hne. unfold put, set_mem. simpl. by rewrite insert_insert_ne. Qed.
Lemma arena_put h A x v : arena h A -> arena (put x v h) A.
Proof. intros []. by split. Qed.

Lemma rep_put_above h A hd tl bs fl x v : rep h A hd tl bs fl -> fl ⊆ addrs bs -> vm_start h + 12 <= x ->
  (forall a, a ∈ addrs bs -> a + 12 <= x) -> rep (put x v h) A hd tl bs fl.
Proof.
  intros [] Hfl Hx Ha. split; try done; cbn [vm_start put set_mem]; rewrite ?word_put_ne by lia; try done.
  - intros b Hb. rewrite word_put_ne; [auto|]. specialize (Ha _ (elem_of_addrs _ _ Hb)). lia.
  - apply nexts_ext with h; [|done]. intros b Hb. apply word_put_ne. specialize (Ha _ (elem_of_addrs _ _ Hb)). lia.
  - apply flchain_ext with h; [|done]. intros a Hin. apply word_put_ne. specialize (Ha _ (Hfl _ Hin)). lia.
Qed.

Lemma rep_single h A hd tl c fl : rep h A hd tl [] fl -> word h (b_addr c) = hdr c -> b_addr c ∈ A ->
  rep h A hd tl [c] fl.
Proof.
  intros [] Hw Hc. split; try done.
  - intros b Hb%list_elem_of_singleton. by subst.
  - intros a Ha%list_elem_of_singleton. by subst.
  - apply NoDup_singleton.
Qed.

Section Append.
Context (h1 : heap) (bs : list blk) (fl : list Z) (tl t0 : Z) (c : blk).
Notation A := (addrs (bs ++ [c])).
Context (Har : arena h1 A).
Context (Hlaid : laid (vm_start h1 + 12) bs t0).
Context (Hr : rep h1 A (first_addr bs) tl bs fl) (Hfl : fl ⊆ addrs bs).
Context (Ht : is_tail bs tl).
Context (Hc : t0 <= b_addr c /\ b_addr c + 12 <= kernel_heap_top h1) (Hcf : b_isfree c = false).
Context (Hcs : is_u32 (b_size c)) (Hce : b_size c mod 2 = 0).
Context (Ht0 : t0 + 12 <= kernel_heap_top h1 /\ t0 mod 4 = 0).

(** The address of the link to the new block. *)
Definition link_addr : Z := match bs with [] => vm_start h1 | _ => tl + 8 end.

Definition appended : heap :=
  put link_addr (b_addr c) (put (b_addr c) (hdr c) (put (vm_start h1 + 4) (b_addr c)
    (put (t0 + 4) NULL (put (t0 + 8) NULL h1)))).

Lemma append_cA : b_addr c ∈ A.
Proof. apply elem_of_addrs. set_solver. Qed.

Lemma append_below a : a ∈ addrs bs -> vm_start h1 + 12 <= a /\ a + 12 <= t0.
Proof.
  intros (b & -> & Hb)%list_elem_of_fmap. destruct (laid_in _ _ _ _ Hlaid Hb) as (? & He & _ & ? & _).
  unfold b_end in He. lia.
Qed.

Lemma link_tail : bs <> [] -> tl ∈ addrs bs.
Proof. intros Hne. destruct Ht as [|Hl]; [done|]. by apply last_Some_elem_of in Hl. Qed.

Lemma link_ne : vm_start h1 <= link_addr < t0 + 4 /\ link_addr <> b_addr c /\ link_addr <> vm_start h1 + 4 /\
  (vm_start h1 + 12 <= t0).
Proof.
  pose proof (ar_base _ _ Har). pose proof (laid_le _ _ _ Hlaid). unfold link_addr.
  pose proof link_tail as Htl. pose proof append_below as Hb. destruct bs as [|b bs']; [lia|].
  pose proof (Hb tl (Htl ltac:(done))). lia.
Qed.

Lemma append_link_run :
  (if first_addr bs =? NULL then wr (vm_start h1) (b_addr c) else wr (b_next tl) (b_addr c))
    ~{ h1 }~> tt; put link_addr (b_addr c) h1.
Proof.
  unfold link_addr. pose proof link_tail as Htl. pose proof append_below as Hb. destruct bs as [|b bs'].
  - by apply (wr_head h1 _ Har).
  - assert (Hbin : b_addr b ∈ addrs ((b :: bs') ++ [c])) by (apply elem_of_addrs; set_solver).
    change (first_addr (b :: bs')) with (b_addr b). rewrite (arena_nonnull h1 _ Har _ Hbin).
    apply (wr_next h1 _ Har). rewrite addrs_app, elem_of_app. left. by apply Htl.
Qed.

Lemma malloc_append_run :
  malloc_append (first_addr bs) tl (vm_start h1) (u32 (vm_start h1 + 4)) t0 (b_addr c) (b_size c)
    ~{ h1 }~> tt; appended.
Proof.
  pose proof append_cA as HcA. pose proof link_ne as (Hl1 & Hl2 & Hl3 & Hl4).
  pose proof (ar_base _ _ Har). pose proof (ar_top _ _ Har). pose proof (ar_end _ _ Har).
  unfold malloc_append. rewrite (bind_ok _ _ _ _ _ append_link_run).
  set (g1 := put link_addr (b_addr c) h1). assert (Har1 : arena g1 A) by (by apply arena_put).
  unfold b_next, b_nextfree. rewrite (u32_small (t0 + 8)), (u32_small (t0 + 4)) by lia.
  rewrite (bind_ok _ _ _ _ _ (wr_run g1 _ Har1 (t0 + 8) NULL ltac:(cbn; lia) ltac:(dlia))).
  assert (Har2 : arena (put (t0 + 8) NULL g1) A) by (by apply arena_put).
  rewrite (bind_ok _ _ _ _ _ (wr_run _ _ Har2 (t0 + 4) NULL ltac:(cbn; lia) ltac:(dlia))).
  assert (Har3 : arena (put (t0 + 4) NULL (put (t0 + 8) NULL g1)) A) by (by apply arena_put).
  rewrite (bind_ok _ _ _ _ _ (wr_control _ _ Har3 4 (b_addr c) ltac:(lia))).
  cbn [vm_start put set_mem].
  set (g4 := put (vm_start h1 + 4) (b_addr c) (put (t0 + 4) NULL (put (t0 + 8) NULL g1))).
  assert (Har4 : arena g4 A) by (by apply arena_put).
  rewrite <- (bind_ret_l tt (fun _ => (wr (b_addr c) (b_size c) ;; block_set_free (b_addr c) false)) g4).
  assert (Hlast : (wr (b_addr c) (b_size c) ;; block_set_free (b_addr c) false) ~{ g4 }~> tt;
    put (b_addr c) (b_size c + bool_int false) g4).
  { rewrite (bind_ok _ _ _ _ _ (wr_size g4 _ Har4 _ (b_size c) HcA)).
    rewrite (block_set_free_run _ A _ (b_size c) false (arena_put _ _ _ _ Har4) HcA (word_put_eq _ _ _) Hcs Hce).
    by rewrite put_put. }
  rewrite bind_ret_l, Hlast. unfold appended, g4, g1.
  assert (hdr c = b_size c + bool_int false) as -> by (unfold hdr; by rewrite Hcf).
  rewrite (put_comm h1 (t0 + 8) link_addr), (put_comm _ (t0 + 4) link_addr), (put_comm _ (vm_start h1 + 4) link_addr),
    (put_comm _ (b_addr c) link_addr) by (lia || done). done.
Qed.

Lemma appended_rep : rep appended A (first_addr (bs ++ [c])) (b_addr c) (bs ++ [c]) fl.
Proof.
  pose proof append_cA as HcA. pose proof link_ne as (Hl1 & Hl2 & Hl3 & Hl4).
  assert (Hnew : b_addr c ∉ addrs bs) by (intros Hin%append_below; lia).
  assert (Hr1 : rep (put (t0 + 4) NULL (put (t0 + 8) NULL h1)) A (first_addr bs) tl bs fl).
  { apply rep_put_above; [apply rep_put_above; [done|done|lia|]|done|cbn; lia|]; intros a Ha%append_below; lia. }
  set (g := put (t0 + 4) NULL (put (t0 + 8) NULL h1)) in *.
  assert (Harg : arena g A) by (by apply arena_put, arena_put).
  pose proof (rep_put_tail g A _ _ Harg (b_addr c) _ _ Hr1) as Hr2.
  change (vm_start g) with (vm_start h1) in Hr2. set (g2 := put (vm_start h1 + 4) (b_addr c) g) in *.
  assert (Harg2 : arena g2 A) by (by apply arena_put).
  pose proof (rep_put_other g2 A _ _ Harg2 (b_addr c) 0 (hdr c) _ _ Hr2 HcA Hnew ltac:(lia)) as Hr3.
  rewrite Z.add_0_r in Hr3. set (g3 := put (b_addr c) (hdr c) g2) in *.
  assert (Harg3 : arena g3 A) by (by apply arena_put). unfold appended, link_addr. fold g g2 g3.
  assert (HndA : NoDup A).
  { rewrite addrs_app. apply NoDup_app. split; [apply Hr|]. split; [|apply NoDup_singleton].
    intros a Ha Hac%list_elem_of_singleton. by subst a. }
  assert (Hw : word g3 (b_addr c) = hdr c) by apply word_put_eq.
  destruct bs as [|t l _] using rev_ind.
  - apply (rep_put_head g3 _ (first_addr []) _ Harg3 (b_addr c) [c]). by apply (rep_single g3).
  - assert (Htl : tl = b_addr t) by (by apply is_tail_last in Ht). rewrite Htl.
    replace (match l ++ [t] with [] => vm_start h1 | _ :: _ => b_addr t + 8 end) with (b_addr t + 8) by (by destruct l).
    replace (first_addr ((l ++ [t]) ++ [c])) with (first_addr (l ++ [t])) by (unfold first_addr; by destruct l).
    rewrite <- app_assoc in *. cbn in *.
    apply (rep_put_next g3 _ _ _ Harg3 l t [] [c] []); [done|done| | |done|done].
    + intros a Ha%list_elem_of_singleton. by subst a.
    + intros d Hd%list_elem_of_singleton. by subst d.
Qed.

Lemma appended_word x : vm_start h1 + 12 <= x < t0 -> (forall a, a ∈ addrs bs -> x < a \/ a + 12 <= x) ->
  word appended x = word h1 x.
Proof.
  intros Hx Ha. unfold appended. pose proof link_ne.
  assert (x <> link_addr); [|rewrite !word_put_ne by lia; done].
  unfold link_addr. pose proof link_tail as Htl. destruct bs as [|b bs']; [lia|].
  specialize (Ha tl (Htl ltac:(done))). lia.
Qed.
End Append.

Lemma no_adj_snoc_busy l c : no_adj l -> b_isfree c = false -> no_adj (l ++ [c]).
Proof.
  intros Hl Hc. induction l as [|x [|y l] IH]; simpl in *; [done|by rewrite Hc, andb_false_r|tauto].
Qed.

(** The heap grows up to the end of the new block [c]. *)
Lemma extend_run h bs fl tl c : heap_inv h bs fl ->
  rep h (addrs bs) (first_addr bs) tl bs fl -> is_tail bs tl ->
  kernel_heap_top h <= b_addr c -> b_addr c mod 4 = 0 -> 0 <= b_size c -> b_size c mod 4 = 0 ->
  b_isfree c = false -> b_end c <= vm_end h -> b_end c - kernel_heap_top h < 2147483648 ->
  ksbrk (b_end c - kernel_heap_top h) ~{ h }~>! FFatal \/
  exists h1 h', ksbrk (b_end c - kernel_heap_top h) ~{ h }~> kernel_heap_top h; h1 /\
    malloc_append (first_addr bs) tl (vm_start h) (u32 (vm_start h + 4)) (kernel_heap_top h)
      (b_addr c) (b_size c) ~{ h1 }~> tt; h' /\
    heap_inv h' (bs ++ [c]) fl /\ kernel_heap_top h' = b_end c /\
    vm_start h' = vm_start h /\ vm_end h' = vm_end h /\
    (forall x, vm_start h + 12 <= x < kernel_heap_top h ->
      (forall a, a ∈ addrs bs -> x < a \/ a + 12 <= x) -> word h' x = word h x).
Proof.
  intros Hi Hr Ht Hc Hal Hs0 Hsm Hcf Hend Hn. pose proof (hi_arena _ _ _ Hi) as Har.
  pose proof (ar_top _ _ Har). pose proof (ar_end _ _ Har). pose proof (ar_base _ _ Har).
  pose proof (ar_top_al _ _ Har). set (n := b_end c - kernel_heap_top h) in *. unfold b_end in *.
  destruct (ksbrk_run h _ n Har ltac:(lia) ltac:(lia)) as [Herr|(h1 & Hrun & Hg)]; [by left|right].
  pose proof (gr_start _ _ _ Hg) as Hst. pose proof (gr_top _ _ _ Hg) as Htop. pose proof (hi_laid _ _ _ Hi) as Hl.
  assert (Har1 : arena h1 (addrs bs)) by (eapply (grown_arena h h1 n); [done|done|lia|dlia|lia]).
  assert (Hl1 : laid (vm_start h1 + 12) (bs ++ [c]) (kernel_heap_top h1)).
  { apply laid_app. exists (kernel_heap_top h). rewrite Hst. split; [done|]. cbn. unfold b_end. split_and!; try done; lia. }
  pose proof (arena_laid _ _ _ Har1 Hl1) as HarA.
  pose proof (rp_flA _ _ _ _ _ _ Hr) as Hfl.
  assert (Hr1 : rep h1 (addrs (bs ++ [c])) (first_addr bs) tl bs fl).
  { eapply rep_arena; [exact (grown_rep h h1 n _ _ _ _ _ Har Hg Hr)|..]; rewrite addrs_app; set_solver. }
  assert (Hlb : laid (vm_start h1 + 12) bs (kernel_heap_top h)) by (by rewrite Hst).
  exists h1, (appended h1 bs tl (kernel_heap_top h) c). split; [done|].
  assert (Hfld : forall A, arena h1 A -> arena (appended h1 bs tl (kernel_heap_top h) c) A).
  { intros A HA. unfold appended. by do 5 apply arena_put. }
  split; [rewrite <- Hst; apply (malloc_append_run h1 bs fl tl (kernel_heap_top h) c); unfold is_u32; try done; dlia|].
  split; [|split_and!; [cbn; lia|done|by apply (gr_end _ _ _ Hg)|]].
  - split; [by apply Hfld|done| | |].
    + exists (b_addr c). split; [|by apply is_tail_last].
      apply (appended_rep h1 bs fl tl (kernel_heap_top h) c); unfold is_u32; try done; dlia.
    + intros d [Hd|Hd%list_elem_of_singleton]%elem_of_app; [by apply (hi_free _ _ _ Hi)|]. subst d.
      rewrite Hcf. split; [done|]. intros Hin%Hfl. apply list_elem_of_fmap in Hin as (b & Hb & Hbin).
      destruct (laid_in _ _ _ _ Hl Hbin) as (_ & ? & _ & ? & _). unfold b_end in *. lia.
    + apply no_adj_snoc_busy; [apply (hi_adj _ _ _ Hi)|done].
  - intros x Hx Ha. rewrite <- (gr_word _ _ _ Hg x) by lia. rewrite <- Hst in Hx.
    apply (appended_word h1 bs fl tl (kernel_heap_top h) c); unfold is_u32; try done; dlia.
Qed.

(** ** [kmalloc] *)
Definition round16 (n : Z) : Z := (n + 15) / 16 * 16.

Lemma CEIL_round16 n : 0 <= n -> n + 15 < 4294967296 -> CEIL n 16 = round16 n.
Proof.
  intros. unfold CEIL, round16. replace (n + 16 - 1) with (n + 15) by lia. rewrite u32_small by lia.
  apply (land_align (n + 15) 4); [unfold is_u32; lia|lia].
Qed.

(** [busy bs p n]: the program owns the [n] bytes at [p]. *)
Definition busy (bs : list blk) (p n : Z) : Prop :=
  exists b, b ∈ bs /\ b_isfree b = false /\ p = b_addr b + 12 /\ n = b_size b.

(** No byte of an allocated block changes between [h] and [h']. *)
Definition kept (bs : list blk) (h h' : heap) : Prop :=
  forall p n x, busy bs p n -> p <= x < p + n -> word h' x = word h x.

(** The headers of a heap are outside the allocated bytes. *)
Lemma busy_outside lo bs hi p n x : laid lo bs hi -> busy bs p n -> p <= x < p + n ->
  lo + 12 <= x < hi /\ forall a, a ∈ addrs bs -> x < a \/ a + 12 <= x.
Proof.
  intros Hl (b & Hb & _ & -> & ->) Hx. destruct (laid_in _ _ _ _ Hl Hb) as (? & ? & _). unfold b_end in *.
  split; [lia|]. intros a (d & -> & Hd)%list_elem_of_fmap. destruct (laid_in _ _ _ _ Hl Hd) as (? & ? & _ & ? & _).
  destruct (laid_disjoint _ _ _ _ _ Hl Hb Hd) as [->|?]; unfold b_end in *; lia.
Qed.

Lemma frame_kept h h' bs bs' : laid (vm_start h + 12) bs' (kernel_heap_top h) -> frame (addrs bs') h h' ->
  (forall p n, busy bs p n -> busy bs' p n) -> kept bs h h'.
Proof.
  intros Hl Hf Hb p n x Hp%Hb Hx. destruct (busy_outside _ _ _ _ _ _ Hl Hp Hx) as [Hr Ha].
  apply (fr_word _ _ _ Hf); [done|lia].
Qed.

Lemma busy_app l1 l2 p n : busy (l1 ++ l2) p n <-> busy l1 p n \/ busy l2 p n.
Proof.
  unfold busy. split.
  - intros (b & Hb%elem_of_app & ?). naive_solver.
  - intros [(b & Hb & ?)|(b & Hb & ?)]; exists b; rewrite elem_of_app; tauto.
Qed.
Lemma busy_cons b l p n : busy (b :: l) p n <->
  (b_isfree b = false /\ p = b_addr b + 12 /\ n = b_size b) \/ busy l p n.
Proof.
  unfold busy. split.
  - intros (c & [->|Hc]%elem_of_cons & ?); [by left|right; by exists c].
  - intros [?|(c & Hc & ?)]; [exists b|exists c]; rewrite elem_of_cons; tauto.
Qed.
Lemma busy_free l p n : Forall (fun c => b_isfree c = true) l -> ~ busy l p n.
Proof. intros Hl (b & Hb & Hf & _). rewrite Forall_forall in Hl. specialize (Hl _ Hb). congruence. Qed.

(** [malloced h bs p n h' bs']: the program got the [n] bytes at [p], nothing
    else it owns changed. *)
Record malloced (h : heap) (bs : list blk) (p n : Z) (h' : heap) (bs' : list blk) : Prop := {
  ml_busy : forall q m, busy bs' q m <-> (q = p /\ m = n) \/ busy bs q m;
  ml_fresh : forall m, ~ busy bs p m;
  ml_kept : kept bs h h';
  ml_start : vm_start h' = vm_start h;
  ml_end : vm_end h' = vm_end h
}.

Lemma extend_malloced h bs fl tl c : heap_inv h bs fl ->
  rep h (addrs bs) (first_addr bs) tl bs fl -> is_tail bs tl ->
  kernel_heap_top h <= b_addr c -> b_addr c mod 4 = 0 -> 0 <= b_size c -> b_size c mod 4 = 0 ->
  b_isfree c = false -> b_end c <= vm_end h -> b_end c - kernel_heap_top h < 2147483648 ->
  ksbrk (b_end c - kernel_heap_top h) ~{ h }~>! FFatal \/
  exists h1 h', ksbrk (b_end c - kernel_heap_top h) ~{ h }~> kernel_heap_top h; h1 /\
    malloc_append (first_addr bs) tl (vm_start h) (u32 (vm_start h + 4)) (kernel_heap_top h)
      (b_addr c) (b_size c) ~{ h1 }~> tt; h' /\
    heap_inv h' (bs ++ [c]) fl /\ malloced h bs (b_addr c + 12) (b_size c) h' (bs ++ [c]) /\
    kernel_heap_top h' = b_end c.
Proof.
  intros Hi Hr Ht Hc Hal Hs0 Hsm Hcf Hend Hn. pose proof (hi_laid _ _ _ Hi) as Hl.
  destruct (extend_run h bs fl tl c Hi Hr Ht Hc Hal Hs0 Hsm Hcf Hend Hn)
    as [Herr|(h1 & h' & Hr1 & Hr2 & Hi' & Htop & Hst & Hen & Hw)]; [by left|right].
  exists h1, h'. split_and!; [done..| |done]. split; try done.
  - intros q m. rewrite busy_app, busy_cons, Hcf. pose proof (busy_free [] q m (Forall_nil_2 _)). tauto.
  - intros m (d & Hd & _ & Hp & _). destruct (laid_in _ _ _ _ Hl Hd) as (? & ? & _ & ? & _). unfold b_end in *. lia.
  - intros q m x Hq Hx. destruct (busy_outside _ _ _ _ _ _ Hl Hq Hx) as [? ?]. apply Hw; [lia|done].
Qed.

Lemma reuse_malloced h l1 b l2 fl tl rounded : heap_inv h (l1 ++ b :: l2) fl ->
  rep h (addrs (l1 ++ b :: l2)) (first_addr (l1 ++ b :: l2)) tl (l1 ++ b :: l2) fl ->
  is_tail (l1 ++ b :: l2) tl -> b_isfree b = true -> 0 <= rounded <= b_size b /\ rounded mod 4 = 0 ->
  exists h' n bs' fl', malloc_reuse (b_addr b) (rounded + 12) tl (u32 (vm_start h + 4)) (u32 (vm_start h + 8))
      ~{ h }~> b_addr b + 12; h' /\ heap_inv h' bs' fl' /\ rounded <= n /\
    malloced h (l1 ++ b :: l2) (b_addr b + 12) n h' bs' /\ kernel_heap_top h' = kernel_heap_top h.
Proof.
  intros Hi Hr Ht Hf Hsz.
  destruct (reuse_run h l1 b l2 fl tl rounded Hi Hr Ht Hf Hsz)
    as (h' & b' & rest & fl' & Hrun' & Hi' & Hfr & Ha & Hbf & Hsz' & Hrest).
  assert (Hbusy : forall q m, busy (l1 ++ b' :: rest ++ l2) q m <->
    (q = b_addr b + 12 /\ m = b_size b') \/ busy (l1 ++ b :: l2) q m).
  { intros q m. rewrite !busy_app, !busy_cons, busy_app, Hf, Hbf, Ha.
    pose proof (busy_free rest q m Hrest). intuition congruence. }
  exists h', (b_size b'), (l1 ++ b' :: rest ++ l2), fl'.
  split_and!; try done; [|apply (fr_top _ _ _ Hfr)].
  split; [done| | |apply (fr_start _ _ _ Hfr)|apply (fr_end _ _ _ Hfr)].
  - intros m (d & Hd & Hdf & Hp & _). assert (d = b) as ->; [|congruence].
    apply (addr_inj (l1 ++ b :: l2)); [apply Hr|done|set_solver|lia].
  - pose proof (hi_laid _ _ _ Hi') as Hl'. rewrite (fr_start _ _ _ Hfr), (fr_top _ _ _ Hfr) in Hl'.
    eapply frame_kept; [exact Hl'|done|]. intros q m Hq. apply Hbusy. by right.
Qed.

(** What [kmalloc] does when the heap has room: it takes a best-fitting free
    block without moving the top, or it adds a block at the top. *)
Lemma kmalloc_run h bs fl size : heap_inv h bs fl -> 0 < size < 2147483600 ->
  (no_fit bs (round16 size) -> kernel_heap_top h + round16 size + 12 <= vm_end h) ->
  (no_fit bs (round16 size) /\ kmalloc size ~{ h }~>! FFatal) \/
  exists p n h' bs' fl', kmalloc size ~{ h }~> p; h' /\ heap_inv h' bs' fl' /\ size <= n /\
    malloced h bs p n h' bs' /\
    ((exists b, best_fit bs (round16 size) b /\ p = b_addr b + 12 /\ kernel_heap_top h' = kernel_heap_top h) \/
     (no_fit bs (round16 size) /\ p = kernel_heap_top h + 12 /\ n = round16 size /\
      kernel_heap_top h' = kernel_heap_top h + round16 size + 12)).
Proof.
  intros Hi Hs Hroom. pose proof (hi_arena _ _ _ Hi) as Har. destruct (hi_rep _ _ _ Hi) as (tl & Hr & Ht).
  pose proof (ar_top _ _ Har). pose proof (ar_end _ _ Har). pose proof (ar_base _ _ Har).
  assert (Hrnd : size <= round16 size < 2147483615 /\ round16 size mod 4 = 0) by (unfold round16; dlia).
  unfold kmalloc, do_malloc. destruct (Z.eqb_spec size 0); [lia|].
  rewrite (bind_ok (gets vm_start) _ h _ h eq_refl), (bind_ok _ _ _ _ _ (rd_head h _ Har)).
  rewrite (bind_ok _ _ _ _ _ (rd_control h _ Har 4 ltac:(lia))), (rp_hd _ _ _ _ _ _ Hr), (rp_tl _ _ _ _ _ _ Hr).
  cbv zeta. rewrite CEIL_round16 by lia. unfold OVERHEAD. rewrite (u32_small (round16 size + 12)) by lia.
  destruct (find_best_fitting_run h bs fl (round16 size) Hi ltac:(lia) ltac:(dlia)) as [[Hrun Hno]|(b & Hrun & Hbest)];
    rewrite (bind_ok _ _ _ _ _ Hrun).
  - rewrite Z.eqb_refl. cbn [negb]. specialize (Hroom Hno). pose proof (ar_top_al _ _ Har).
    set (c := Blk (kernel_heap_top h) (round16 size) false).
    assert (Hn : b_end c - kernel_heap_top h = round16 size + 12) by (unfold b_end; cbn; lia).
    destruct (extend_malloced h bs fl tl c Hi Hr Ht) as [Herr|(h1 & h' & Hr1 & Hr2 & Hi' & Hm & Htop')];
      try done; try (unfold b_end; cbn; lia).
    { left. rewrite Hn in Herr. split; [done|]. by apply bind_err. }
    rewrite Hn in Hr1. right. exists (kernel_heap_top h + 12), (round16 size), h', (bs ++ [c]), fl.
    rewrite (bind_ok _ _ _ _ _ Hr1).
    replace (u32 (round16 size + 12 - 12)) with (round16 size) by (rewrite u32_small; lia).
    rewrite (bind_ok _ _ _ _ _ Hr2). split_and!; try done; [by rewrite u32_small by lia|lia|].
    right. rewrite Htop'. split_and!; try done. unfold b_end. cbn. lia.
  - pose proof Hbest as (Hb & Hf & Hfit & _). apply list_elem_of_split in Hb as (l1 & l2 & ->).
    assert (HbA : b_addr b ∈ addrs (l1 ++ b :: l2)) by (apply elem_of_addrs; set_solver).
    rewrite (arena_nonnull h _ Har _ HbA). cbn [negb].
    destruct (reuse_malloced h l1 b l2 fl tl (round16 size) Hi Hr Ht Hf ltac:(lia))
      as (h' & k & bs' & fl' & Hrun' & Hi' & Hsz & Hm & Htop).
    right. exists (b_addr b + 12), k, h', bs', fl'. split_and!; try done; [lia|left; by exists b].
Qed.

(** ** Release: finding the previous block *)
Lemma nexts_length h bs : nexts h bs -> NoDup (addrs bs) -> (forall a, a ∈ addrs bs -> a <> 0) ->
  (length bs <= S (size (h_mem h)))%nat.
Proof.
  intros Hn Hnd Hnz. destruct bs as [|t l _] using rev_ind; [simpl; lia|].
  rewrite length_app. simpl. assert (length l <= size (h_mem h))%nat; [|lia].
  rewrite <- (length_fmap (fun b => b_addr b + 8) l). rewrite addrs_app in Hnd. apply NoDup_app in Hnd as (Hnd & _ & _).
  apply stored_length.
  - replace ((fun b => b_addr b + 8) <$> l) with ((fun a => a + 8) <$> addrs l) by (unfold addrs; by rewrite <- list_fmap_compose).
    apply NoDup_fmap_2; [intros ? ? ?; lia|done].
  - intros y (b & -> & Hb)%list_elem_of_fmap. apply word_stored.
    clear Hnd. induction l as [|x l IH]; [set_solver|].
    apply elem_of_cons in Hb as [->|Hb].
    + destruct l as [|y l]; simpl in Hn; destruct Hn as [-> _]; apply Hnz, elem_of_addrs; set_solver.
    + apply IH; [|intros a Ha; apply Hnz; by right|done]. destruct l; [done|]. simpl in *. tauto.
Qed.

Lemma find_prev_run h A p c l2 : arena h A -> forall l1 x fuel, (length l1 < fuel)%nat ->
  addrs (l1 ++ p :: c :: l2) ⊆ A -> NoDup (addrs (l1 ++ p :: c :: l2)) -> nexts h (l1 ++ p :: c :: l2) ->
  x = first_addr (l1 ++ p :: c :: l2) -> find_prev fuel (b_addr c) x ~{ h }~> b_addr p; h.
Proof.
  intros Har. induction l1 as [|a l1 IH]; intros x [|fuel] Hfuel HA Hnd Hn ->; simpl in Hfuel; try lia; simpl.
  - change (first_addr (p :: c :: l2)) with (b_addr p).
    rewrite (bind_ok _ _ _ _ _ (rd_next h A Har _ ltac:(apply HA; apply list_elem_of_here))).
    destruct Hn as [-> _]. by rewrite Z.eqb_refl.
  - change (first_addr (a :: l1 ++ p :: c :: l2)) with (b_addr a).
    rewrite (bind_ok _ _ _ _ _ (rd_next h A Har _ ltac:(apply HA; apply list_elem_of_here))).
    assert (Hw : word h (b_addr a + 8) = first_addr (l1 ++ p :: c :: l2)) by (by destruct l1; destruct Hn as [-> _]).
    cbn in Hnd. apply NoDup_cons in Hnd as [_ Hnd].
    assert (Hne : word h (b_addr a + 8) =? b_addr c = false).
    { rewrite Hw. apply Z.eqb_neq. destruct l1 as [|b l1]; cbn in *; apply NoDup_cons in Hnd as [Hnd _];
        intros He; rewrite He in Hnd; apply Hnd; [apply list_elem_of_here|].
      apply elem_of_addrs. set_solver. }
    rewrite Hne. apply IH; [lia| |done| |done].
    + intros y Hy. apply HA. by right.
    + by destruct l1; destruct Hn.
Qed.

(** The address of the block before, NULL for the first block. *)
Definition last_addr (bs : list blk) : Z := default NULL (last (addrs bs)).

Lemma last_addr_snoc l p : last_addr (l ++ [p]) = b_addr p.
Proof. unfold last_addr. rewrite addrs_app. change (addrs [p]) with [b_addr p]. by rewrite last_snoc. Qed.

Lemma get_previous_run h l1 c l2 fl : heap_inv h (l1 ++ c :: l2) fl ->
  block_get_previous_block (b_addr c) (vm_start h) ~{ h }~> last_addr l1; h.
Proof.
  intros Hi. pose proof (hi_arena _ _ _ Hi) as Har. destruct (hi_rep _ _ _ Hi) as (tl & Hr & Ht).
  unfold block_get_previous_block. rewrite (bind_ok _ _ _ _ _ (rd_head h _ Har)), (rp_hd _ _ _ _ _ _ Hr).
  pose proof (rp_nd _ _ _ _ _ _ Hr) as Hnd. pose proof (rp_nexts _ _ _ _ _ _ Hr) as Hn.
  destruct l1 as [|p l1 _] using rev_ind.
  - change (first_addr ([] ++ c :: l2)) with (b_addr c). by rewrite Z.eqb_refl.
  - assert (Hne : b_addr c =? first_addr ((l1 ++ [p]) ++ c :: l2) = false).
    { apply Z.eqb_neq. rewrite addrs_app in Hnd. cbn in Hnd. apply NoDup_app in Hnd as (_ & Hd & _).
      intros He. apply (Hd (b_addr c)); [|apply list_elem_of_here]. rewrite He.
      destruct l1; cbn; [apply list_elem_of_here|apply list_elem_of_here]. }
    rewrite Hne, (bind_ok (gets walk_fuel) _ h _ h eq_refl). rewrite last_addr_snoc.
    rewrite <- app_assoc in *. cbn [app] in *.
    assert (Hnz : forall a, a ∈ addrs (l1 ++ p :: c :: l2) -> a <> 0).
    { intros a Ha. pose proof (arena_nonnull h _ Har a Ha). unfold NULL in *. lia. }
    pose proof (nexts_length _ _ Hn Hnd Hnz) as Hlen. rewrite length_app in Hlen.
    apply (find_prev_run h _ p c l2 Har l1); try done. unfold walk_fuel. simpl in *. lia.
Qed.

(** ** Release: the new state *)
Lemma no_adj_split l1 l2 : no_adj (l1 ++ l2) -> no_adj l1 /\ no_adj l2.
Proof.
  induction l1 as [|x [|y l1] IH]; simpl in *; [done|by destruct l2; naive_solver|tauto].
Qed.
Lemma no_adj_join l1 b l2 : no_adj l1 -> no_adj l2 ->
  (forall x, last l1 = Some x -> b_isfree x = false) -> (forall y, head l2 = Some y -> b_isfree y = false) ->
  no_adj (l1 ++ b :: l2).
Proof.
  intros H1 H2 Hl Hr. apply no_adj_app. split.
  - induction l1 as [|x [|y l1] IH]; [done|cbn; by rewrite (Hl x eq_refl)|].
    split; [apply H1|]. apply IH; [apply H1|]. intros z Hz. by apply Hl.
  - destruct l2 as [|y l2]; [done|]. split; [|done]. by rewrite (Hr y eq_refl), andb_false_r.
Qed.
Lemma adj_before l1 b l2 x : no_adj (l1 ++ b :: l2) -> b_isfree b = true -> last l1 = Some x -> b_isfree x = false.
Proof.
  intros Ha Hb Hx. apply last_Some in Hx as [l0 ->]. rewrite <- app_assoc in Ha.
  apply no_adj_app in Ha as [_ [Ha _]]. by rewrite Hb, andb_true_r in Ha.
Qed.
Lemma adj_after l1 b l2 y : no_adj (l1 ++ b :: l2) -> b_isfree b = true -> head l2 = Some y -> b_isfree y = false.
Proof.
  intros Ha Hb Hy. destruct l2 as [|z l2]; [done|]. injection Hy as ->.
  apply no_adj_app in Ha as [_ [Ha _]]. by rewrite Hb in Ha.
Qed.

(** The blocks [b :: m] of the list become the free block [b']. *)
Section Release.
Context (h h' : heap) (l1 : list blk) (b b' : blk) (m l2 : list blk) (fl fl' : list Z) (tl' : Z).
Notation bs := (l1 ++ b :: m ++ l2).
Notation bs' := (l1 ++ b' :: l2).
Context (Hi : heap_inv h bs fl).
Context (Haddr : b_addr b' = b_addr b) (Hb' : b_isfree b' = true).

Lemma release_addrs a : a ∈ addrs bs' <-> a ∈ addrs bs /\ a ∉ addrs m.
Proof.
  destruct (hi_rep _ _ _ Hi) as (tl & Hr & _). pose proof (rp_nd _ _ _ _ _ _ Hr) as Hnd.
  rewrite !addrs_app in *. cbn in *. rewrite addrs_app in *. rewrite Haddr.
  apply NoDup_app in Hnd as (_ & Hd & Hnd). apply NoDup_cons in Hnd as [Hb Hnd].
  apply NoDup_app in Hnd as (_ & Hd2 & _).
  rewrite !elem_of_app, !elem_of_cons, !elem_of_app in *.
  split; [|tauto]. intros Ha. split; [tauto|]. intros Hm. destruct Ha as [Ha|[->|Ha]].
  - apply (Hd _ Ha). rewrite elem_of_cons, elem_of_app. tauto.
  - tauto.
  - by apply (Hd2 a).
Qed.

Lemma release_inv : frame (addrs bs) h h' -> rep h' (addrs bs) (first_addr bs) tl' bs' fl' -> is_tail bs' tl' ->
  laid (vm_start h + 12) bs' (kernel_heap_top h) ->
  (forall a, a ∈ fl' <-> (a = b_addr b \/ a ∈ fl) /\ a ∉ addrs m) ->
  (forall x, last l1 = Some x -> b_isfree x = false) -> (forall y, head l2 = Some y -> b_isfree y = false) ->
  heap_inv h' bs' fl'.
Proof.
  intros Hf Hr' Ht Hl Hfl Hl1 Hl2. pose proof release_addrs as Hra.
  destruct (hi_rep _ _ _ Hi) as (tl & Hr & _). pose proof (hi_adj _ _ _ Hi) as Hadj.
  assert (HbA : b_addr b ∈ addrs bs) by (apply elem_of_addrs; set_solver).
  split.
  - apply (arena_laid h' (addrs bs)); [by eapply frame_arena; [|apply Hi]|].
    by rewrite (fr_start _ _ _ Hf), (fr_top _ _ _ Hf).
  - by rewrite (fr_start _ _ _ Hf), (fr_top _ _ _ Hf).
  - exists tl'. split; [|done].
    assert (first_addr bs' = first_addr bs) as -> by (unfold first_addr; destruct l1; cbn; by rewrite ?Haddr).
    eapply rep_arena; [exact Hr'|done|]. intros a [[->|Ha] Hm]%Hfl; apply Hra; split; try done.
    by apply (rp_flA _ _ _ _ _ _ Hr).
  - intros d Hd. assert (Hm : b_addr d ∉ addrs m) by (apply (Hra (b_addr d)), elem_of_addrs, Hd).
    rewrite Hfl. apply elem_of_app in Hd as [Hd|[->|Hd]%elem_of_cons].
    2: { rewrite Hb', Haddr in *. tauto. }
    all: assert (b_addr d <> b_addr b) by (eapply addrs_mid; [apply Hr|set_solver]);
      rewrite (hi_free _ _ _ Hi d) by set_solver; tauto.
  - apply no_adj_split in Hadj as [Ha1 Ha2]. apply no_adj_join; try done.
    rewrite app_comm_cons in Ha2. by apply no_adj_split in Ha2 as [_ ?].
Qed.
End Release.

(** The link of [b] skips [m], and the pointer to the last block follows. *)
Lemma relink_run h A hd tl l1 b m l2 fl (cond : bool) : arena h A -> rep h A hd tl (l1 ++ b :: m ++ l2) fl ->
  is_tail (l1 ++ b :: m ++ l2) tl -> cond = (match l2 with [] => true | _ => false end) ->
  exists g h' tl', wr (b_next (b_addr b)) (first_addr l2) ~{ h }~> tt; g /\
    (if cond then wr (u32 (vm_start h + 4)) (b_addr b) else mret tt) ~{ g }~> tt; h' /\
    rep h' A hd tl' (l1 ++ b :: l2) fl /\ is_tail (l1 ++ b :: l2) tl' /\ frame A h h'.
Proof.
  intros Har Hr Ht ->. pose proof (rp_nd _ _ _ _ _ _ Hr) as Hnd.
  assert (HbA : b_addr b ∈ A) by (apply (rp_bsA _ _ _ _ _ _ Hr), elem_of_addrs; set_solver).
  pose proof (wr_next h A Har _ (first_addr l2) HbA) as Hw.
  pose proof (frame_field h A (b_addr b) 8 (first_addr l2) HbA ltac:(lia)) as Hf1.
  assert (Hr1 : rep (put (b_addr b + 8) (first_addr l2) h) A hd tl (l1 ++ b :: l2) fl).
  { apply (rep_put_next h A _ _ Har l1 b m [] l2); [done| |intros a Ha; by apply elem_of_nil in Ha|intros c Hc; by apply elem_of_nil in Hc| |].
    - cbn. rewrite addrs_app in *. cbn in *. rewrite addrs_app in Hnd.
      eapply sublist_NoDup; [exact Hnd|]. apply sublist_app; [done|]. apply sublist_skip, sublist_inserts_l. done.
    - pose proof (rp_nexts _ _ _ _ _ _ Hr) as Hn. rewrite (cons_middle b), app_assoc, app_assoc in Hn.
      destruct l2 as [|d l2]; [done|]. by apply nexts_app in Hn as [_ Hn].
    - cbn. unfold first_addr. by destruct l2. }
  set (g := put (b_addr b + 8) (first_addr l2) h) in *. pose proof (frame_arena _ _ _ Hf1 Har) as Harg.
  exists g. destruct l2 as [|d l2].
  - eexists _, (b_addr b). split; [done|]. split; [by apply (wr_control g A Harg 4); lia|].
    split; [by apply (rep_put_tail g A hd tl Harg)|]. split; [by apply is_tail_last|].
    etrans; [exact Hf1|]. apply (frame_control g A 4). lia.
  - exists g, tl. split_and!; try done. apply is_tail_cons.
    rewrite (cons_middle b), app_assoc, app_assoc in Ht.
    destruct ((l1 ++ [b]) ++ m) as [|z l _] using rev_ind; [done|].
    rewrite <- app_assoc in Ht. by apply is_tail_cons in Ht.
Qed.

(** The sizes read before a merge. *)
Lemma rd_real_size h bs fl b : heap_inv h bs fl -> b ∈ bs ->
  exists w, rd (b_addr b) ~{ h }~> w; h /\ block_get_real_size w = b_size b.
Proof.
  intros Hi Hb. destruct (hi_rep _ _ _ Hi) as (tl & Hr & _).
  destruct (heap_block_bounds _ _ _ _ Hi Hb) as (_ & _ & _ & Hs & _ & He).
  exists (hdr b). split; [|by apply real_size_bit].
  rewrite <- (rp_hdr _ _ _ _ _ _ Hr b Hb). by apply (rd_size h _ (hi_arena _ _ _ Hi)), elem_of_addrs.
Qed.

(** Consecutive blocks merged into one stay in the room they had. *)
Fixpoint extent (m : list blk) : Z :=
  match m with [] => 0 | c :: m => 12 + b_size c + extent m end.
Definition merged (b : blk) (m : list blk) : blk := Blk (b_addr b) (b_size b + extent m) true.

Lemma merged_laid m l2 hi : forall b lo, laid lo (b :: m ++ l2) hi -> laid lo (merged b m :: l2) hi.
Proof.
  induction m as [|c m IH]; intros b lo Hl.
  - cbn in *. unfold merged, b_end in *. cbn. by rewrite Z.add_0_r.
  - assert (Hm : merged b (c :: m) = merged (merged b [c]) m) by (unfold merged; cbn; f_equal; lia).
    rewrite Hm. apply IH. destruct Hl as (? & ? & ? & ? & ? & ? & ? & ? & Hl).
    unfold merged, b_end in *. cbn. split_and!; try done; try lia; [dlia|].
    eapply laid_mono; [| |exact Hl]; unfold b_end; cbn; lia.
Qed.
Lemma merged_list_laid l1 b m l2 lo hi : laid lo (l1 ++ b :: m ++ l2) hi -> laid lo (l1 ++ merged b m :: l2) hi.
Proof.
  intros Hl. apply laid_app in Hl as (mid & H1 & H2). apply laid_app. exists mid. split; [done|]. by apply merged_laid.
Qed.
Lemma merged_size h bs fl l1 b m l2 : heap_inv h bs fl -> bs = l1 ++ b :: m ++ l2 ->
  is_u32 (b_size (merged b m)) /\ b_size (merged b m) mod 2 = 0.
Proof.
  intros Hi ->. pose proof (hi_arena _ _ _ Hi) as Har.
  pose proof (ar_top _ _ Har). pose proof (ar_end _ _ Har). pose proof (ar_base _ _ Har).
  pose proof (merged_list_laid _ _ _ _ _ _ (hi_laid _ _ _ Hi)) as Hl.
  destruct (laid_in _ (merged b m) _ _ Hl) as (? & ? & ? & ? & ?); [set_solver|].
  unfold b_end, is_u32 in *. cbn [b_addr merged] in *. split; [lia|dlia].
Qed.

(** Merging [b :: m] once the header of the result is written. *)
Lemma merge_run h l1 b m l2 fl tl : heap_inv h (l1 ++ b :: m ++ l2) fl ->
  rep h (addrs (l1 ++ b :: m ++ l2)) (first_addr (l1 ++ b :: m ++ l2)) tl (l1 ++ b :: m ++ l2) fl ->
  is_tail (l1 ++ b :: m ++ l2) tl ->
  let A := addrs (l1 ++ b :: m ++ l2) in
  exists h1, (forall B (k : M heap B),
      (wr (b_addr b) (b_size (merged b m)) ;; block_set_free (b_addr b) true ;; k) h = k h1) /\
    vm_start h1 = vm_start h /\ arena h1 A /\ frame A h h1 /\
    rep h1 A (first_addr (l1 ++ b :: m ++ l2)) tl (l1 ++ merged b m :: m ++ l2) fl /\
    is_tail (l1 ++ merged b m :: m ++ l2) tl.
Proof.
  intros Hi Hr Ht A. pose proof (hi_arena _ _ _ Hi) as Har.
  destruct (merged_size _ _ _ _ _ _ _ Hi eq_refl) as [Hu He].
  assert (HbA : b_addr b ∈ A) by (apply elem_of_addrs; set_solver).
  assert (Hf : frame A h (put (b_addr b) (hdr (merged b m)) h)).
  { rewrite <- (Z.add_0_r (b_addr b)). apply frame_field; [done|lia]. }
  exists (put (b_addr b) (hdr (merged b m)) h). split_and!; try done.
  - intros B k. apply (write_header_run h A _ _ true k Har HbA Hu He).
  - by apply arena_put.
  - by apply (rep_put_header h A _ _ Har _ b).
  - destruct (m ++ l2); [apply is_tail_last; by apply is_tail_last in Ht|].
    apply is_tail_cons. by apply is_tail_cons in Ht.
Qed.

(** The free list after a merge of [b] (free before) with [m]. *)
Lemma remove_elem (fl : list Z) x : NoDup fl -> x ∈ fl -> exists f1 f2, fl = f1 ++ x :: f2 /\
  forall a, a ∈ f1 ++ f2 <-> a ∈ fl /\ a <> x.
Proof.
  intros Hnd Hx. apply list_elem_of_split in Hx as (f1 & f2 & ->). exists f1, f2. split; [done|].
  destruct (NoDup_middle _ _ _ Hnd) as [_ [Hx1 Hx2]].
  intros a. rewrite !elem_of_app, elem_of_cons. split; [|tauto].
  intros [Ha|Ha]; split; try tauto; by intros ->.
Qed.

Lemma free_both_run h l0 p c n l3 fl tl : heap_inv h (l0 ++ p :: c :: n :: l3) fl ->
  rep h (addrs (l0 ++ p :: c :: n :: l3)) (first_addr (l0 ++ p :: c :: n :: l3)) tl (l0 ++ p :: c :: n :: l3) fl ->
  is_tail (l0 ++ p :: c :: n :: l3) tl -> b_isfree p = true -> b_isfree c = false -> b_isfree n = true ->
  exists h' fl', free_both (b_addr p) (b_addr c) (b_addr n) tl (u32 (vm_start h + 4)) (u32 (vm_start h + 8))
      ~{ h }~> tt; h' /\ heap_inv h' (l0 ++ merged p [c; n] :: l3) fl' /\
    frame (addrs (l0 ++ p :: c :: n :: l3)) h h'.
Proof.
  intros Hi Hr Ht Hp Hc Hn. pose proof (hi_adj _ _ _ Hi) as Hadj. set (A := addrs (l0 ++ p :: c :: n :: l3)) in *.
  destruct (rd_real_size h _ _ p Hi ltac:(set_solver)) as (wp & Hrp & Hwp).
  destruct (rd_real_size h _ _ c Hi ltac:(set_solver)) as (wc & Hrc & Hwc).
  destruct (rd_real_size h _ _ n Hi ltac:(set_solver)) as (wn & Hrn & Hwn).
  unfold free_both. rewrite (bind_ok _ _ _ _ _ Hrp), (bind_ok _ _ _ _ _ Hrc), (bind_ok _ _ _ _ _ Hrn), Hwp, Hwc, Hwn.
  destruct (merged_size h _ fl l0 p [c; n] l3 Hi eq_refl) as [Hu _].
  replace (b_size p + 2 * OVERHEAD + b_size c + b_size n) with (b_size (merged p [c; n])) by (cbn; unfold OVERHEAD; lia).
  rewrite (u32_small (b_size (merged p [c; n]))) by done.
  destruct (merge_run h l0 p [c; n] l3 fl tl Hi Hr Ht) as (h1 & Hw & Hst & Har1 & Hf1 & Hr1 & Ht1). rewrite Hw.
  pose proof (get_next_block_run h1 A (first_addr (l0 ++ p :: c :: n :: l3)) tl (l0 ++ [merged p [c; n]; c]) n l3 fl Har1) as Hnx.
  rewrite <- app_assoc, Hst in Hnx. rewrite (bind_ok _ _ _ _ _ (Hnx Hr1 Ht1)).
  destruct (relink_run h1 A _ tl l0 (merged p [c; n]) [c; n] l3 fl (tl =? b_addr n) Har1 Hr1 Ht1)
    as (g & h2 & tl' & Hw1 & Hw2 & Hr2 & Ht2 & Hf2).
  { rewrite Z.eqb_sym. apply (is_tail_eqb (l0 ++ [p; c])); rewrite <- app_assoc; [apply Hr|done]. }
  rewrite Hst in Hw2. rewrite (bind_ok _ _ _ _ _ Hw1), (bind_ok _ _ _ _ _ Hw2).
  destruct (remove_elem fl (b_addr n)) as (f1 & f2 & Hfl & Hel);
    [apply Hr|apply (hi_free _ _ _ Hi); [set_solver|done]|].
  rewrite Hfl in Hr2. destruct (remove_from_freelist_run h2 A _ _ _ _ _ _ (frame_arena _ _ _ Hf2 Har1) Hr2)
    as (h3 & Hrun & Hr3 & Hf3). rewrite (fr_start _ _ _ Hf2), Hst in Hrun.
  exists h3, (f1 ++ f2). split; [done|].
  assert (Hf : frame A h h3) by (etrans; [exact Hf1|]; etrans; [exact Hf2|apply Hf3]). split; [|done].
  assert (Hpin : b_addr p ∈ fl) by (apply (hi_free _ _ _ Hi); [set_solver|done]).
  assert (Hcin : b_addr c ∉ fl) by (intros Hin; apply (hi_free _ _ _ Hi) in Hin; [congruence|set_solver]).
  assert (Hpn : b_addr p <> b_addr n).
  { apply (addrs_mid (l0 ++ [p; c]) n l3); [rewrite <- app_assoc; apply Hr|set_solver]. }
  eapply (release_inv h h3 l0 p _ [c; n] l3 fl _ tl'); try done.
  - apply merged_list_laid, (hi_laid _ _ _ Hi).
  - intros a. rewrite Hel. change (addrs [c; n]) with [b_addr c; b_addr n]. set_solver.
  - intros x. by apply (adj_before l0 p (c :: n :: l3)).
  - intros y. apply (adj_after (l0 ++ [p; c]) n l3); [by rewrite <- app_assoc|done].
Qed.

Lemma free_prev_run h l0 p c l2 fl tl : heap_inv h (l0 ++ p :: c :: l2) fl ->
  rep h (addrs (l0 ++ p :: c :: l2)) (first_addr (l0 ++ p :: c :: l2)) tl (l0 ++ p :: c :: l2) fl ->
  is_tail (l0 ++ p :: c :: l2) tl -> b_isfree p = true -> b_isfree c = false ->
  (forall y, head l2 = Some y -> b_isfree y = false) ->
  exists h', free_prev (b_addr p) (b_addr c) (first_addr l2) tl (u32 (vm_start h + 4)) ~{ h }~> tt; h' /\
    heap_inv h' (l0 ++ merged p [c] :: l2) fl /\ frame (addrs (l0 ++ p :: c :: l2)) h h'.
Proof.
  intros Hi Hr Ht Hp Hc Hn. pose proof (hi_adj _ _ _ Hi) as Hadj. set (A := addrs (l0 ++ p :: c :: l2)) in *.
  destruct (rd_real_size h _ _ p Hi ltac:(set_solver)) as (wp & Hrp & Hwp).
  destruct (rd_real_size h _ _ c Hi ltac:(set_solver)) as (wc & Hrc & Hwc).
  unfold free_prev. rewrite (bind_ok _ _ _ _ _ Hrp), (bind_ok _ _ _ _ _ Hrc), Hwp, Hwc.
  destruct (merged_size h _ fl l0 p [c] l2 Hi eq_refl) as [Hu _].
  replace (b_size p + OVERHEAD + b_size c) with (b_size (merged p [c])) by (cbn; unfold OVERHEAD; lia).
  rewrite (u32_small (b_size (merged p [c]))) by done.
  destruct (merge_run h l0 p [c] l2 fl tl Hi Hr Ht) as (h1 & Hw & Hst & Har1 & Hf1 & Hr1 & Ht1). rewrite Hw.
  destruct (relink_run h1 A _ tl l0 (merged p [c]) [c] l2 fl (tl =? b_addr c) Har1 Hr1 Ht1)
    as (g & h2 & tl' & Hw1 & Hw2 & Hr2 & Ht2 & Hf2).
  { rewrite Z.eqb_sym. apply (is_tail_eqb (l0 ++ [p])); rewrite <- app_assoc; [apply Hr|done]. }
  rewrite Hst in Hw2. rewrite (bind_ok _ _ _ _ _ Hw1). exists h2. split; [done|].
  assert (Hf : frame A h h2) by (etrans; [exact Hf1|exact Hf2]). split; [|done].
  assert (Hpin : b_addr p ∈ fl) by (apply (hi_free _ _ _ Hi); [set_solver|done]).
  assert (Hcin : b_addr c ∉ fl) by (intros Hin; apply (hi_free _ _ _ Hi) in Hin; [congruence|set_solver]).
  eapply (release_inv h h2 l0 p _ [c] l2 fl _ tl'); try done.
  - apply merged_list_laid, (hi_laid _ _ _ Hi).
  - intros a. change (addrs [c]) with [b_addr c]. set_solver.
  - intros x. by apply (adj_before l0 p (c :: l2)).
Qed.

Lemma free_next_run h l1 c n l3 fl tl : heap_inv h (l1 ++ c :: n :: l3) fl ->
  rep h (addrs (l1 ++ c :: n :: l3)) (first_addr (l1 ++ c :: n :: l3)) tl (l1 ++ c :: n :: l3) fl ->
  is_tail (l1 ++ c :: n :: l3) tl -> b_isfree c = false -> b_isfree n = true ->
  (forall x, last l1 = Some x -> b_isfree x = false) ->
  exists h' fl', free_next (b_addr c) (b_addr n) tl (u32 (vm_start h + 4)) (u32 (vm_start h + 8)) ~{ h }~> tt; h' /\
    heap_inv h' (l1 ++ merged c [n] :: l3) fl' /\ frame (addrs (l1 ++ c :: n :: l3)) h h'.
Proof.
  intros Hi Hr Ht Hc Hn Hx. pose proof (hi_adj _ _ _ Hi) as Hadj. set (A := addrs (l1 ++ c :: n :: l3)) in *.
  destruct (rd_real_size h _ _ c Hi ltac:(set_solver)) as (wc & Hrc & Hwc).
  destruct (rd_real_size h _ _ n Hi ltac:(set_solver)) as (wn & Hrn & Hwn).
  unfold free_next. rewrite (bind_ok _ _ _ _ _ Hrc), (bind_ok _ _ _ _ _ Hrn), Hwc, Hwn.
  destruct (merged_size h _ fl l1 c [n] l3 Hi eq_refl) as [Hu _].
  replace (b_size c + OVERHEAD + b_size n) with (b_size (merged c [n])) by (cbn; unfold OVERHEAD; lia).
  rewrite (u32_small (b_size (merged c [n]))) by done.
  destruct (merge_run h l1 c [n] l3 fl tl Hi Hr Ht) as (h1 & Hw & Hst & Har1 & Hf1 & Hr1 & Ht1). rewrite Hw.
  pose proof (get_next_block_run h1 A (first_addr (l1 ++ c :: n :: l3)) tl (l1 ++ [merged c [n]]) n l3 fl Har1) as Hnx.
  rewrite <- app_assoc, Hst in Hnx. rewrite (bind_ok _ _ _ _ _ (Hnx Hr1 Ht1)).
  destruct (relink_run h1 A _ tl l1 (merged c [n]) [n] l3 fl (tl =? b_addr n) Har1 Hr1 Ht1)
    as (g & h2 & tl' & Hw1 & Hw2 & Hr2 & Ht2 & Hf2).
  { rewrite Z.eqb_sym. apply (is_tail_eqb (l1 ++ [c])); rewrite <- app_assoc; [apply Hr|done]. }
  rewrite Hst in Hw2. rewrite (bind_ok _ _ _ _ _ Hw1), (bind_ok _ _ _ _ _ Hw2).
  destruct (remove_elem fl (b_addr n)) as (f1 & f2 & Hfl & Hel);
    [apply Hr|apply (hi_free _ _ _ Hi); [set_solver|done]|].
  pose proof (frame_arena _ _ _ Hf2 Har1) as Har2.
  rewrite Hfl in Hr2. destruct (remove_from_freelist_run h2 A _ _ _ _ _ _ Har2 Hr2) as (h3 & Hrun & Hr3 & [Hf3 _ _ _ _]).
  rewrite (fr_start _ _ _ Hf2), Hst in Hrun. rewrite (bind_ok _ _ _ _ _ Hrun).
  assert (Hcin : b_addr c ∉ fl) by (intros Hin; apply (hi_free _ _ _ Hi) in Hin; [congruence|set_solver]).
  assert (Hcn : b_addr c <> b_addr n).
  { apply (addrs_mid (l1 ++ [c]) n l3); [rewrite <- app_assoc; apply Hr|set_solver]. }
  destruct (add_to_freelist_run h3 A _ _ _ _ (b_addr c) (frame_arena _ _ _ Hf3 Har2) Hr3)
    as (h4 & Hrun4 & Hr4 & [Hf4 _ _ _ _]); [apply elem_of_addrs; set_solver|rewrite Hel; tauto|].
  rewrite (fr_start _ _ _ Hf3), (fr_start _ _ _ Hf2), Hst in Hrun4.
  exists h4, (b_addr c :: f1 ++ f2). split; [done|].
  assert (Hf : frame A h h4) by (etrans; [exact Hf1|]; etrans; [exact Hf2|]; by etrans). split; [|done].
  eapply (release_inv h h4 l1 c _ [n] l3 fl _ tl'); try done.
  - apply merged_list_laid, (hi_laid _ _ _ Hi).
  - intros a. rewrite elem_of_cons, Hel. change (addrs [n]) with [b_addr n]. set_solver.
  - intros y. apply (adj_after (l1 ++ [c]) n l3); [by rewrite <- app_assoc|done].
Qed.

Lemma free_alone_run h l1 c l2 fl tl : heap_inv h (l1 ++ c :: l2) fl ->
  rep h (addrs (l1 ++ c :: l2)) (first_addr (l1 ++ c :: l2)) tl (l1 ++ c :: l2) fl ->
  is_tail (l1 ++ c :: l2) tl -> b_isfree c = false ->
  (forall x, last l1 = Some x -> b_isfree x = false) -> (forall y, head l2 = Some y -> b_isfree y = false) ->
  exists h' fl', free_alone (b_addr c) (u32 (vm_start h + 8)) ~{ h }~> tt; h' /\
    heap_inv h' (l1 ++ merged c [] :: l2) fl' /\ frame (addrs (l1 ++ c :: l2)) h h'.
Proof.
  intros Hi Hr Ht Hc Hx Hy. pose proof (hi_arena _ _ _ Hi) as Har. set (A := addrs (l1 ++ c :: l2)) in *.
  assert (HcA : b_addr c ∈ A) by (apply elem_of_addrs; set_solver).
  destruct (heap_block_bounds _ _ _ c Hi ltac:(set_solver)) as (_ & _ & _ & Hs & _ & He).
  assert (Hw : word h (b_addr c) = b_size c).
  { rewrite (rp_hdr _ _ _ _ _ _ Hr c) by set_solver. unfold hdr. rewrite Hc. cbn. lia. }
  unfold free_alone. rewrite (bind_ok _ _ _ _ _ (block_set_free_run h A _ _ true Har HcA Hw Hs He)).
  assert (Hm : hdr (merged c []) = b_size c + bool_int true) by (unfold hdr; cbn; lia). rewrite <- Hm.
  pose proof (rep_put_header h A _ _ Har l1 c (merged c []) l2 fl Hr eq_refl) as Hr1.
  assert (Hf1 : frame A h (put (b_addr c) (hdr (merged c [])) h)).
  { rewrite <- (Z.add_0_r (b_addr c)). apply frame_field; [done|lia]. }
  assert (Hcin : b_addr c ∉ fl) by (intros Hin; apply (hi_free _ _ _ Hi) in Hin; [congruence|set_solver]).
  destruct (add_to_freelist_run _ A _ _ _ _ (b_addr c) (frame_arena _ _ _ Hf1 Har) Hr1 HcA Hcin)
    as (h2 & Hrun & Hr2 & [Hf2 _ _ _ _]).
  exists h2, (b_addr c :: fl). split; [done|]. assert (Hf : frame A h h2) by (by etrans). split; [|done].
  eapply (release_inv h h2 l1 c _ [] l2 fl _ tl); try done.
  - destruct l2; [apply is_tail_last; by apply is_tail_last in Ht|apply is_tail_cons; by apply is_tail_cons in Ht].
  - apply (merged_list_laid l1 c [] l2), (hi_laid _ _ _ Hi).
  - intros a. change (addrs []) with (@nil Z). set_solver.
Qed.

(** ** [kfree] *)

(** Whether the block before or after is free. *)
Lemma neighbour_free_run h bs fl l (o : option blk) a : heap_inv h bs fl ->
  (forall b, o = Some b -> b ∈ bs) -> a = default NULL (b_addr <$> o) -> l = default false (b_isfree <$> o) ->
  block_is_free a ~{ h }~> l; h.
Proof.
  intros Hi Hin -> ->. destruct o as [b|]; [|done]. destruct (hi_rep _ _ _ Hi) as (tl & Hr & _).
  specialize (Hin b eq_refl). eapply block_is_free_run; [apply Hi|exact Hr|done|].
  by apply (heap_block_bounds _ _ _ _ Hi).
Qed.

Lemma last_addr_last l : last_addr l = default NULL (b_addr <$> last l).
Proof. unfold last_addr, addrs. by rewrite fmap_last. Qed.
Lemma first_addr_head l : first_addr l = default NULL (b_addr <$> head l).
Proof. by destruct l. Qed.

(** [freed bs p bs']: exactly the block at [p] is given back. *)
Definition freed (bs : list blk) (p : Z) (bs' : list blk) : Prop :=
  forall q m, busy bs' q m <-> busy bs q m /\ q <> p.

Lemma merged_freed h l1 b m l2 fl p : heap_inv h (l1 ++ b :: m ++ l2) fl ->
  (forall q n, busy (b :: m) q n <-> q = p /\ busy (b :: m) p n) -> (exists n, busy (b :: m) p n) ->
  freed (l1 ++ b :: m ++ l2) p (l1 ++ merged b m :: l2).
Proof.
  intros Hi Hone (n0 & d & Hd & _ & Hp & _) q n. destruct (hi_rep _ _ _ Hi) as (tl & Hr & _).
  assert (Hne : forall e, e ∈ l1 ++ l2 -> b_addr e + 12 <> p).
  { intros e He Heq. assert (Hdd : d = e).
    { apply (addr_inj (l1 ++ b :: m ++ l2)); [apply Hr| | |lia].
      - rewrite elem_of_app, app_comm_cons, elem_of_app. tauto.
      - rewrite elem_of_app, app_comm_cons, elem_of_app in *. tauto. }
    subst e. pose proof (rp_nd _ _ _ _ _ _ Hr) as Hnd. rewrite app_comm_cons, !addrs_app in Hnd.
    apply elem_of_addrs in Hd. apply NoDup_app in Hnd as (_ & Hd1 & Hnd). apply NoDup_app in Hnd as (_ & Hd2 & _).
    apply elem_of_app in He as [He|He]; apply elem_of_addrs in He.
    - apply (Hd1 _ He). rewrite elem_of_app. by left.
    - by apply (Hd2 _ Hd). }
  assert (Hout : forall l, l ⊆ l1 ++ l2 -> busy l q n -> q <> p).
  { intros l Hl (e & He & _ & -> & _). by apply Hne, Hl. }
  pose proof (Hout l1 ltac:(set_solver)). pose proof (Hout l2 ltac:(set_solver)).
  rewrite app_comm_cons, !busy_app, busy_cons. cbn [b_isfree merged]. rewrite (Hone q n).
  intuition congruence.
Qed.

Lemma busy_one b m c p : c ∈ b :: m -> b_isfree c = false -> p = b_addr c + 12 ->
  (forall d, d ∈ b :: m -> d = c \/ b_isfree d = true) ->
  (forall q n, busy (b :: m) q n <-> q = p /\ busy (b :: m) p n) /\ exists n, busy (b :: m) p n.
Proof.
  intros Hc Hf -> Hall. split; [|exists (b_size c), c; done].
  intros q n. split; [|by intros [-> ?]]. intros Hb. assert (q = b_addr c + 12) as ->; [|done].
  destruct Hb as (d & Hd & Hdf & -> & _). destruct (Hall d Hd) as [->|?]; congruence.
Qed.

(** The four branches of [__do_free]. *)
Lemma free_branches_run h l1 c l2 fl tl : heap_inv h (l1 ++ c :: l2) fl ->
  rep h (addrs (l1 ++ c :: l2)) (first_addr (l1 ++ c :: l2)) tl (l1 ++ c :: l2) fl ->
  is_tail (l1 ++ c :: l2) tl -> b_isfree c = false ->
  exists h' bs' fl', (if default false (b_isfree <$> last l1)
    then if default false (b_isfree <$> head l2)
         then free_both (last_addr l1) (b_addr c) (first_addr l2) tl (u32 (vm_start h + 4)) (u32 (vm_start h + 8))
         else free_prev (last_addr l1) (b_addr c) (first_addr l2) tl (u32 (vm_start h + 4))
    else if default false (b_isfree <$> head l2)
         then free_next (b_addr c) (first_addr l2) tl (u32 (vm_start h + 4)) (u32 (vm_start h + 8))
         else free_alone (b_addr c) (u32 (vm_start h + 8))) ~{ h }~> tt; h' /\
    heap_inv h' bs' fl' /\ frame (addrs (l1 ++ c :: l2)) h h' /\ freed (l1 ++ c :: l2) (b_addr c + 12) bs'.
Proof.
  intros Hi Hr Ht Hc.
  assert (Hhead : default false (b_isfree <$> head l2) = false -> forall y, head l2 = Some y -> b_isfree y = false)
    by (intros Hd y Hy; by rewrite Hy in Hd).
  assert (Hlast : default false (b_isfree <$> last l1) = false -> forall x, last l1 = Some x -> b_isfree x = false)
    by (intros Hd x Hx; by rewrite Hx in Hd).
  destruct (default false (b_isfree <$> last l1)) eqn:Ep, (default false (b_isfree <$> head l2)) eqn:En.
  - destruct l1 as [|p l0 _] using rev_ind; [done|]. destruct l2 as [|n l3]; [done|].
    rewrite last_snoc in Ep. rewrite last_addr_snoc. cbn in Ep, En. rewrite <- app_assoc in *.
    destruct (free_both_run h l0 p c n l3 fl tl Hi Hr Ht Ep Hc En) as (h' & fl' & Hrun & Hi' & Hf).
    exists h', (l0 ++ merged p [c; n] :: l3), fl'. split_and!; try done.
    eapply (merged_freed h l0 p [c; n] l3 fl); [done|apply (busy_one p [c; n] c); set_solver..].
  - destruct l1 as [|p l0 _] using rev_ind; [done|].
    rewrite last_snoc in Ep. rewrite last_addr_snoc. cbn in Ep. rewrite <- app_assoc in *.
    destruct (free_prev_run h l0 p c l2 fl tl Hi Hr Ht Ep Hc (Hhead eq_refl)) as (h' & Hrun & Hi' & Hf).
    exists h', (l0 ++ merged p [c] :: l2), fl. split_and!; try done.
    eapply (merged_freed h l0 p [c] l2 fl); [done|apply (busy_one p [c] c); set_solver..].
  - destruct l2 as [|n l3]; [done|]. cbn in En.
    destruct (free_next_run h l1 c n l3 fl tl Hi Hr Ht Hc En (Hlast eq_refl)) as (h' & fl' & Hrun & Hi' & Hf).
    exists h', (l1 ++ merged c [n] :: l3), fl'. split_and!; try done.
    eapply (merged_freed h l1 c [n] l3 fl); [done|apply (busy_one c [n] c); set_solver..].
  - destruct (free_alone_run h l1 c l2 fl tl Hi Hr Ht Hc (Hlast eq_refl) (Hhead eq_refl)) as (h' & fl' & Hrun & Hi' & Hf).
    exists h', (l1 ++ merged c [] :: l2), fl'. split_and!; try done.
    eapply (merged_freed h l1 c [] l2 fl); [done|apply (busy_one c [] c); set_solver..].
Qed.

Lemma kfree_run h bs fl p n : heap_inv h bs fl -> busy bs p n ->
  exists h' bs' fl', kfree p ~{ h }~> tt; h' /\ heap_inv h' bs' fl' /\ freed bs p bs' /\ kept bs h h' /\
    vm_start h' = vm_start h /\ vm_end h' = vm_end h /\ kernel_heap_top h' = kernel_heap_top h.
Proof.
  intros Hi (c & Hcin & Hc & -> & ->). pose proof (hi_arena _ _ _ Hi) as Har.
  destruct (heap_block_bounds _ _ _ _ Hi Hcin) as (? & ? & _ & ? & _). unfold b_end in *.
  pose proof (ar_top _ _ Har). pose proof (ar_end _ _ Har). pose proof (ar_base _ _ Har).
  apply list_elem_of_split in Hcin as (l1 & l2 & ->). destruct (hi_rep _ _ _ Hi) as (tl & Hr & Ht).
  destruct (free_branches_run h l1 c l2 fl tl Hi Hr Ht Hc) as (h' & bs' & fl' & Hrun & Hi' & Hf & Hfr).
  exists h', bs', fl'.
  split; [|split_and!; [done|done|eapply frame_kept; [apply Hi|done|done]|apply Hf|apply Hf|apply Hf]].
  unfold kfree, do_free. rewrite (bind_ok (gets vm_start) _ h _ h eq_refl). unfold OVERHEAD. cbv zeta.
  rewrite (bind_ok _ _ _ _ _ (rd_control h _ Har 4 ltac:(lia))), (rp_tl _ _ _ _ _ _ Hr).
  replace (u32 (b_addr c + 12 - 12)) with (b_addr c) by (rewrite u32_small; lia).
  rewrite (bind_ok _ _ _ _ _ (get_previous_run _ _ _ _ _ Hi)).
  rewrite (bind_ok _ _ _ _ _ (get_next_block_run _ _ _ _ _ _ _ _ Har Hr Ht)).
  rewrite (bind_ok _ _ _ _ _ (neighbour_free_run h _ _ (default false (b_isfree <$> last l1)) (last l1) _ Hi
    ltac:(intros b Hb; apply last_Some_elem_of in Hb; set_solver) (last_addr_last l1) eq_refl)).
  pose proof (neighbour_free_run h _ _ (default false (b_isfree <$> head l2)) (head l2) _ Hi
    ltac:(intros b Hb; destruct l2; [done|injection Hb as ->; set_solver]) (first_addr_head l2) eq_refl) as Hnf.
  by destruct (default false (b_isfree <$> last l1)); rewrite (bind_ok _ _ _ _ _ Hnf);
    destruct (default false (b_isfree <$> head l2)).
Qed.

(** ** [kmalloc_align] *)
Lemma needed_addr_eq t : 0 <= t -> t + 4108 < 4294967296 ->
  ADDR_ALIGN (Z.land (u32 (t + 12)) 4294963200) = (t + 12) / 4096 * 4096 + 4096.
Proof.
  intros H0 Ht. unfold ADDR_ALIGN. change 4294963200 with (u32_not (2 ^ 12 - 1)).
  rewrite (u32_small (t + 12)) by lia. rewrite (land_align (t + 12) 12) by (unfold is_u32; lia).
  change (2 ^ 12) with 4096. rewrite (land_align _ 12) by (unfold is_u32; dlia).
  change (2 ^ 12) with 4096. rewrite Z.div_mul by lia. rewrite u32_small; dlia.
Qed.
Lemma IS_ALIGN_mod x : IS_ALIGN x = (x mod 4096 =? 0).
Proof. unfold IS_ALIGN. change 4095 with (Z.ones 12). by rewrite Z.land_ones. Qed.

(** [kmalloc_align] returns a block as [kmalloc] does; the pointer is
    page-aligned when the block is new, but when a free block is reused it is
    the one whose header, not whose payload, satisfies the alignment test, and
    the pointer is 3964 modulo 4096. *)
Theorem kmalloc_align_correct h bs fl size : heap_inv h bs fl -> 0 < size < 2147470000 ->
  kernel_heap_top h + round16 size + 4108 <= vm_end h ->
  kmalloc_align size ~{ h }~>! FFatal \/
  exists p n h' bs' fl', kmalloc_align size ~{ h }~> p; h' /\ heap_inv h' bs' fl' /\ size <= n /\
    malloced h bs p n h' bs' /\
    (p mod 4096 = 0 \/ p mod 4096 = 3964 /\ exists b, b ∈ bs /\ b_isfree b = true /\ p = b_addr b + 12).
Proof.
  intros Hi Hs Hroom. pose proof (hi_arena _ _ _ Hi) as Har. destruct (hi_rep _ _ _ Hi) as (tl & Hr & Ht).
  pose proof (ar_top _ _ Har). pose proof (ar_end _ _ Har). pose proof (ar_base _ _ Har).
  assert (Hrnd : size <= round16 size < 2147470016 /\ round16 size mod 4 = 0) by (unfold round16; dlia).
  unfold kmalloc_align, do_malloc_align. destruct (Z.eqb_spec size 0); [lia|].
  rewrite (bind_ok (gets vm_start) _ h _ h eq_refl), (bind_ok _ _ _ _ _ (rd_head h _ Har)).
  rewrite (bind_ok _ _ _ _ _ (rd_control h _ Har 4 ltac:(lia))), (rp_hd _ _ _ _ _ _ Hr), (rp_tl _ _ _ _ _ _ Hr).
  cbv zeta. rewrite CEIL_round16 by lia. unfold OVERHEAD. rewrite (u32_small (round16 size + 12)) by lia.
  destruct (find_align_run h bs fl (round16 size) Hi ltac:(lia) ltac:(dlia)) as (r & Hrun & Hb).
  rewrite (bind_ok _ _ _ _ _ Hrun).
  destruct (negb (r =? NULL) && IS_ALIGN (u32 (r + 12 * 12))) eqn:Er.
  - destruct (Hb eq_refl) as (b & Hbin & <- & Hf & Hfit). clear Hb.
    destruct (heap_block_bounds _ _ _ _ Hi Hbin) as (? & ? & _ & ? & _). unfold b_end in *.
    apply andb_true_iff in Er as [_ Er]. rewrite u32_small, IS_ALIGN_mod in Er by lia.
    pose proof Hbin as Hbin'. apply list_elem_of_split in Hbin' as (l1 & l2 & ->).
    destruct (reuse_malloced h l1 b l2 fl tl (round16 size) Hi Hr Ht Hf ltac:(lia))
      as (h' & k & bs' & fl' & Hrun' & Hi' & Hsz & Hm & Htop).
    right. exists (b_addr b + 12), k, h', bs', fl'. split_and!; try done; [lia|].
    right. split; [dlia|by exists b].
  - rewrite (bind_ok (gets kernel_heap_top) _ h _ h eq_refl), needed_addr_eq by lia.
    set (np := (kernel_heap_top h + 12) / 4096 * 4096 + 4096). pose proof (ar_top_al _ _ Har).
    assert (Hnp : kernel_heap_top h + 12 < np <= kernel_heap_top h + 12 + 4096 /\ np mod 4096 = 0) by (unfold np; dlia).
    clearbody np. rewrite (u32_small (np - 12)) by lia.
    set (c := Blk (np - 12) (round16 size) false).
    assert (Hn : np - 12 - kernel_heap_top h + 12 + round16 size = b_end c - kernel_heap_top h) by (unfold b_end; cbn; lia).
    rewrite Hn, (u32_small (b_end c - kernel_heap_top h)) by (unfold b_end; cbn; lia).
    destruct (extend_malloced h bs fl tl c Hi Hr Ht) as [Herr|(h1 & h' & Hr1 & Hr2 & Hi' & Hm & Htop')];
      try done; try (unfold b_end; cbn; dlia).
    { left. by apply bind_err. }
    right. exists np, (round16 size), h', (bs ++ [c]), fl.
    rewrite (bind_ok _ _ _ _ _ Hr1), (bind_ok _ _ _ _ _ Hr2). cbn in Hm. replace (np - 12 + 12) with np in Hm by lia.
    split_and!; try done; [lia|left; lia].
Qed.

(** ** Initialisation *)
Lemma kheap_init_run h s e : pm_ok (h_vm h) -> 0 < s -> s mod 4096 = 0 -> s + 12 <= e -> e + 4096 <= 4294967296 ->
  (forall a, s <= a < e + 4096 -> pm_good a 3) ->
  kheap_init s e ~{ h }~>! FFatal \/
  exists h', kheap_init s e ~{ h }~> tt; h' /\ heap_inv h' [] [] /\
    vm_start h' = s /\ vm_end h' = e /\ kernel_heap_top h' = s + 12.
Proof.
  intros Hok Hs Hal Hse He Hgood. set (h0 := MkHeap (h_mem h) (h_vm h) s e 3 s).
  assert (Hinit : kheap_init s e h = (vmm_create_page s 3 ;; wr s 0 ;; wr (u32 (s + 4)) 0 ;; wr (u32 (s + 8)) 0 ;;
    modify (fun g => set_top (u32 (kernel_heap_top g + 12)) g)) h0) by reflexivity. rewrite Hinit. clear Hinit.
  destruct (create_page_run h0 s 3 Hok) as [Herr|(h1 & Hrun & Hst & Hen & Hfl & Htop & Hok1 & Hm & _)];
    [unfold is_u32; lia|apply Hgood; lia|left; by apply bind_err|right].
  rewrite (bind_ok _ _ _ _ _ Hrun). cbn in Hst, Hen, Hfl, Htop.
  assert (Hacc : forall g x, h_vm g = h_vm h1 -> s <= x < s + 12 -> x mod 4 = 0 -> accessible g x = true).
  { intros g x Hg Hx Hx4. unfold accessible. rewrite Hx4, Hg, Hm. cbn [Z.eqb andb].
    case_bool_decide as Hp; [done|]. exfalso. apply Hp. dlia. }
  assert (Hwr : forall g x v, h_vm g = h_vm h1 -> s <= x < s + 12 -> x mod 4 = 0 -> wr x v ~{ g }~> tt; put x v g).
  { intros g x v ? ? ?. unfold wr. by rewrite Hacc. }
  rewrite (u32_small (s + 4)), (u32_small (s + 8)) by lia.
  rewrite (bind_ok _ _ _ _ _ (Hwr h1 s 0 eq_refl ltac:(lia) ltac:(dlia))).
  rewrite (bind_ok _ _ _ _ _ (Hwr (put s 0 h1) (s + 4) 0 eq_refl ltac:(lia) ltac:(dlia))).
  rewrite (bind_ok _ _ _ _ _ (Hwr (put (s + 4) 0 (put s 0 h1)) (s + 8) 0 eq_refl ltac:(lia) ltac:(dlia))).
  set (h2 := put (s + 8) 0 (put (s + 4) 0 (put s 0 h1))).
  exists (set_top (u32 (kernel_heap_top h2 + 12)) h2). split; [done|].
  assert (Htop2 : u32 (kernel_heap_top h2 + 12) = s + 12) by (cbn; rewrite Htop, u32_small; lia).
  rewrite Htop2. split; [|done]. split; cbn; rewrite ?Hst, ?Hen.
  - split; cbn; rewrite ?Hst, ?Hen, ?Hfl; try done; try dlia.
    + intros p Hp. rewrite Hm. case_bool_decide as Hpe; [done|]. exfalso. apply Hpe. dlia.
    + intros a Ha. by apply elem_of_nil in Ha.
    + intros a b Ha. by apply elem_of_nil in Ha.
  - lia.
  - exists 0. split; [|by left]. unfold h2. split; cbn; rewrite ?Hst; try done.
    + intros b Hb. by apply elem_of_nil in Hb.
    + unfold word. cbn. by rewrite lookup_insert_eq.
    + unfold word. cbn. rewrite !lookup_insert_ne, lookup_insert_eq by lia. done.
    + unfold word. cbn. rewrite lookup_insert_ne, lookup_insert_eq by lia. done.
    + constructor.
    + constructor.
  - intros b Hb. by apply elem_of_nil in Hb.
  - done.
Qed.

(** ** The heap as its callers see it

    [al] gives the requested size of every block the callers own. *)
Definition heap_ok (h : heap) (al : gmap Z Z) : Prop :=
  exists bs fl, heap_inv h bs fl /\
    (forall p n, busy bs p n -> exists s, al !! p = Some s /\ s <= n) /\
    (forall p s, al !! p = Some s -> exists n, busy bs p n).

(** Every byte of the blocks in [al] has the same value in [h] and [h']. *)
Definition untouched (al : gmap Z Z) (h h' : heap) : Prop :=
  forall q s x, al !! q = Some s -> q <= x < q + s -> word h' x = word h x.

Lemma kept_untouched bs al h h' : (forall p n, busy bs p n -> exists s, al !! p = Some s /\ s <= n) ->
  (forall p s, al !! p = Some s -> exists n, busy bs p n) -> kept bs h h' -> untouched al h h'.
Proof.
  intros H1 H2 Hk q s x Hq Hx. destruct (H2 q s Hq) as [n Hb]. destruct (H1 q n Hb) as (s' & Hs' & Hle).
  simplify_eq. apply (Hk q n x Hb). lia.
Qed.

Lemma heap_ok_malloced h bs al p n s h' bs' fl' : heap_inv h' bs' fl' -> malloced h bs p n h' bs' -> s <= n ->
  (forall p n, busy bs p n -> exists s, al !! p = Some s /\ s <= n) ->
  (forall p s, al !! p = Some s -> exists n, busy bs p n) -> heap_ok h' (<[p := s]> al) /\ al !! p = None.
Proof.
  intros Hi' [Hb Hfr _ _ _] Hs H1 H2. split.
  - exists bs', fl'. split; [done|]. split.
    + intros q m [[-> ->]|Hq]%Hb; [exists s; by rewrite lookup_insert_eq|].
      assert (q <> p) by (intros ->; by eapply Hfr). rewrite lookup_insert_ne by done. by apply H1.
    + intros q t Hq. destruct (decide (q = p)) as [->|Hne].
      * exists n. apply Hb. by left.
      * rewrite lookup_insert_ne in Hq by done. destruct (H2 q t Hq) as [m Hm]. exists m. apply Hb. by right.
  - destruct (al !! p) as [t|] eqn:E; [|done]. destruct (H2 p t E) as [m Hm]. by apply Hfr in Hm.
Qed.

Lemma kmalloc_ok h al size : heap_ok h al -> 0 < size < 2147483600 ->
  kernel_heap_top h + size + 27 <= vm_end h ->
  kmalloc size ~{ h }~>! FFatal \/
  exists p h', kmalloc size ~{ h }~> p; h' /\ heap_ok h' (<[p := size]> al) /\ al !! p = None /\ untouched al h h'.
Proof.
  intros (bs & fl & Hi & H1 & H2) Hs Hroom.
  destruct (kmalloc_run h bs fl size Hi Hs) as [[_ Herr]|(p & n & h' & bs' & fl' & Hrun & Hi' & Hn & Hm & _)];
    [unfold round16; dlia|by left|right].
  destruct (heap_ok_malloced h bs al p n size h' bs' fl' Hi' Hm Hn H1 H2) as [Hok Hnone].
  exists p, h'. split_and!; try done. eapply kept_untouched; [exact H1|exact H2|apply Hm].
Qed.

(** One call takes at most [size + 27] bytes of the region. *)
Lemma kmalloc_top h al size p h' : heap_ok h al -> 0 < size < 2147483600 ->
  kernel_heap_top h + size + 27 <= vm_end h -> kmalloc size ~{ h }~> p; h' ->
  vm_end h' = vm_end h /\ kernel_heap_top h' <= kernel_heap_top h + size + 27.
Proof.
  intros (bs & fl & Hi & _) Hs Hroom Hrun.
  destruct (kmalloc_run h bs fl size Hi Hs) as [[_ Herr]|(q & n & h1 & bs' & fl' & Hrun' & _ & _ & Hm & Hcase)];
    [unfold round16; dlia|congruence|].
  rewrite Hrun in Hrun'. injection Hrun' as <- <-. split; [apply Hm|].
  destruct Hcase as [(_ & _ & _ & ->)|(_ & _ & _ & ->)]; unfold round16; dlia.
Qed.

Lemma kfree_ok h al p s : heap_ok h al -> al !! p = Some s ->
  exists h', kfree p ~{ h }~> tt; h' /\ heap_ok h' (delete p al) /\ untouched al h h' /\
    kernel_heap_top h' = kernel_heap_top h /\ vm_end h' = vm_end h.
Proof.
  intros (bs & fl & Hi & H1 & H2) Hp. destruct (H2 p s Hp) as [n Hb].
  destruct (kfree_run h bs fl p n Hi Hb) as (h' & bs' & fl' & Hrun & Hi' & Hfr & Hk & _ & Hend & Htop).
  exists h'. split; [done|]. split; [|split; [by eapply kept_untouched|done]].
  exists bs', fl'. split; [done|]. split.
  - intros q m [Hq Hne]%Hfr. rewrite lookup_delete_ne by done. by apply H1.
  - intros q t Hq. apply lookup_delete_Some in Hq as [Hne Hq]. destruct (H2 q t Hq) as [m Hm].
    exists m. apply Hfr. by split.
Qed.

Lemma heap_ok_disjoint h al p s q t : heap_ok h al -> al !! p = Some s -> al !! q = Some t ->
  (p = q \/ p + s + 12 <= q \/ q + t + 12 <= p) /\
  vm_start h + 24 <= p /\ p + s <= kernel_heap_top h /\ p mod 4 = 0.
Proof.
  intros (bs & fl & Hi & H1 & H2) Hp Hq. pose proof (hi_laid _ _ _ Hi) as Hl.
  destruct (H2 p s Hp) as [n Hn]. destruct (H2 q t Hq) as [m Hm].
  destruct (H1 p n Hn) as (s' & ? & ?). destruct (H1 q m Hm) as (t' & ? & ?). simplify_eq.
  destruct Hn as (b & Hb & _ & -> & ->). destruct Hm as (c & Hc & _ & -> & ->).
  destruct (laid_in _ _ _ _ Hl Hb) as (? & ? & ? & ? & ?). destruct (laid_in _ _ _ _ Hl Hc) as (? & ? & ? & ? & ?).
  destruct (laid_disjoint _ _ _ _ _ Hl Hb Hc) as [->|?]; unfold b_end in *; split_and!; try lia; dlia.
Qed.

(** ** Callers of the heap

    Any number of callers allocate, release and write the blocks they own. [sh]
    holds the words they wrote and did not give back. *)
Inductive heap_event : Type :=
| HMalloc (size : Z)
| HFree (p : Z)
| HWrite (p off v : Z).

Definition forget (p s : Z) (sh : gmap Z Z) : gmap Z Z :=
  filter (fun kv => ~ (p <= kv.1 < p + s)) sh.

(** One call, or a write of a word through a pointer. *)
Definition step (e : heap_event) (al sh : gmap Z Z) : M heap (gmap Z Z * gmap Z Z) :=
  match e with
  | HMalloc size => p ← kmalloc size; mret (<[p := size]> al, sh)
  | HFree p => kfree p ;; mret (delete p al, forget p (default 0 (al !! p)) sh)
  | HWrite p off v => wr (p + off) v ;; mret (al, <[p + off := v]> sh)
  end.
Fixpoint session (es : list heap_event) (al sh : gmap Z Z) : M heap (gmap Z Z * gmap Z Z) :=
  match es with
  | [] => mret (al, sh)
  | e :: es => r ← step e al sh; session es r.1 r.2
  end.

(** What callers may do: ask for at least one byte while there is room for the block
    below the end of the heap, give back a block they own, and write a word inside
    one. *)
Definition may (e : heap_event) (al : gmap Z Z) (h : heap) : bool :=
  match e with
  | HMalloc size => bool_decide (0 < size < 2147483600) && (kernel_heap_top h + size + 27 <=? vm_end h)
  | HFree p => bool_decide (is_Some (al !! p))
  | HWrite p off v => match al !! p with Some s => bool_decide (0 <= off /\ off + 4 <= s /\ off mod 4 = 0) | None => false end
  end.
Fixpoint allowed (es : list heap_event) (al sh : gmap Z Z) (h : heap) : bool :=
  match es with
  | [] => true
  | e :: es => may e al h && match step e al sh h with Ok (r, h') => allowed es r.1 r.2 h' | Err _ => true end
  end.

(** The words the callers wrote are still there. *)
Definition shadow_ok (h : heap) (al sh : gmap Z Z) : Prop :=
  forall x v, sh !! x = Some v -> word h x = v /\ exists p s, al !! p = Some s /\ p <= x /\ x + 4 <= p + s.

Lemma heap_ok_write h al p s off v : heap_ok h al -> al !! p = Some s -> 0 <= off -> off + 4 <= s -> off mod 4 = 0 ->
  wr (p + off) v ~{ h }~> tt; put (p + off) v h /\ heap_ok (put (p + off) v h) al.
Proof.
  intros Hok Hp Ho1 Ho2 Ho3. destruct (heap_ok_disjoint h al p s p s Hok Hp Hp) as (_ & Hlo & Hhi & Hal).
  destruct Hok as (bs & fl & Hi & H1 & H2). pose proof (hi_arena _ _ _ Hi) as Har.
  split; [apply (wr_run h _ Har); dlia|]. exists bs, fl. split; [|done].
  destruct (H2 p s Hp) as [n Hb]. destruct (H1 p n Hb) as (s' & Hs' & Hn). simplify_eq.
  destruct (busy_outside _ _ _ _ _ (p + off) (hi_laid _ _ _ Hi) Hb ltac:(lia)) as [_ Hout].
  assert (Hw : forall a k, a ∈ addrs bs -> 0 <= k < 12 -> word (put (p + off) v h) (a + k) = word h (a + k)).
  { intros a k Ha Hk. apply word_put_ne. pose proof (Hout a Ha). lia. }
  destruct (hi_rep _ _ _ Hi) as (tl & [] & Ht).
  split; [by apply arena_put|apply (hi_laid _ _ _ Hi)| |apply (hi_free _ _ _ Hi)|apply (hi_adj _ _ _ Hi)].
  exists tl. split; [|done]. split; try done; cbn [vm_start put set_mem]; rewrite ?word_put_ne by lia; try done.
  - intros b Hin. rewrite <- (Z.add_0_r (b_addr b)), Hw, Z.add_0_r by (lia || by apply elem_of_addrs). auto.
  - apply nexts_ext with h; [|done]. intros b Hin. apply Hw; [by apply elem_of_addrs|lia].
  - apply flchain_ext with h; [|done]. intros a Hin. apply Hw; [by apply rp_flA0|lia].
Qed.

Lemma shadow_untouched h h' al al' sh : shadow_ok h al sh -> untouched al h h' ->
  (forall x v p s, sh !! x = Some v -> al !! p = Some s -> p <= x -> x + 4 <= p + s -> al' !! p = Some s) ->
  shadow_ok h' al' sh.
Proof.
  intros Hsh Hu Hal x v Hx. destruct (Hsh x v Hx) as (Hw & p & s & Hp & Hlo & Hhi).
  split; [rewrite (Hu p s x) by (done || lia); done|]. exists p, s. split; [by eapply Hal|done].
Qed.

Lemma shadow_forget h h' al sh p s : heap_ok h al -> al !! p = Some s -> shadow_ok h al sh -> untouched al h h' ->
  shadow_ok h' (delete p al) (forget p s sh).
Proof.
  intros Hok Hp Hsh Hu. eapply (shadow_untouched h _ al); [|done|].
  - intros x v [Hx _]%map_lookup_filter_Some. by apply Hsh.
  - intros x v q t [_ Hx]%map_lookup_filter_Some Hq Hlo Hhi. cbn in Hx.
    rewrite lookup_delete_ne; [done|]. intros ->. simplify_eq. lia.
Qed.

Lemma shadow_write h al sh p s off v : heap_ok h al -> al !! p = Some s -> 0 <= off -> off + 4 <= s ->
  shadow_ok h al sh -> shadow_ok (put (p + off) v h) al (<[p + off := v]> sh).
Proof.
  intros Hok Hp Ho1 Ho2 Hsh x w Hx. destruct (decide (x = p + off)) as [->|Hne].
  - rewrite lookup_insert_eq in Hx. simplify_eq. split; [apply word_put_eq|]. exists p, s. split; [done|lia].
  - rewrite lookup_insert_ne in Hx by done. rewrite word_put_ne by done. by apply Hsh.
Qed.

Lemma heap_step_run e h al sh : heap_ok h al -> shadow_ok h al sh -> may e al h = true ->
  step e al sh ~{ h }~>! FFatal \/ exists r h', step e al sh ~{ h }~> r; h' /\ heap_ok h' r.1 /\ shadow_ok h' r.1 r.2.
Proof.
  intros Hok Hsh Hmay. destruct e as [size|p|p off v]; cbn [step may] in *.
  - apply andb_true_iff in Hmay as [Hs%bool_decide_eq_true Hroom%Z.leb_le].
    destruct (kmalloc_ok h al size Hok Hs Hroom) as [Herr|(p & h1 & Hr1 & Hok1 & Hnone & Hu)]; [left; by apply bind_err|right].
    rewrite (bind_ok _ _ _ _ _ Hr1). eexists _, h1. split; [reflexivity|]. split; [exact Hok1|]. cbn [fst snd].
    eapply shadow_untouched; [done|done|]. intros x v q t _ Hq _ _. rewrite lookup_insert_ne; [done|]. intros ->. congruence.
  - apply bool_decide_eq_true in Hmay as [s E]. destruct (kfree_ok h al p s Hok E) as (h1 & Hr1 & Hok1 & Hu & _). right.
    rewrite (bind_ok _ _ _ _ _ Hr1), E. eexists _, h1. split; [reflexivity|]. split; [exact Hok1|by eapply shadow_forget].
  - destruct (al !! p) as [s|] eqn:E; [|done]. apply bool_decide_eq_true in Hmay as (Ho1 & Ho2 & Ho3). right.
    destruct (heap_ok_write h al p s off v Hok E Ho1 Ho2 Ho3) as [Hr1 Hok1].
    rewrite (bind_ok _ _ _ _ _ Hr1). eexists _, _. split; [reflexivity|]. split; [exact Hok1|by eapply shadow_write].
Qed.
Lemma session_run es : forall h al sh, heap_ok h al -> shadow_ok h al sh -> allowed es al sh h = true ->
  session es al sh ~{ h }~>! FFatal \/
  exists al' sh' h', session es al sh ~{ h }~> (al', sh'); h' /\ heap_ok h' al' /\ shadow_ok h' al' sh'.
Proof.
  induction es as [|e es IH]; intros h al sh Hok Hsh Ha; cbn [session allowed] in *; [right; by exists al, sh, h|].
  apply andb_true_iff in Ha as [Hmay Ha]. destruct (heap_step_run e h al sh Hok Hsh Hmay) as [Herr|(r & h1 & Hr & Hok1 & Hsh1)].
  - left. by apply bind_err.
  - rewrite Hr in Ha. rewrite (bind_ok _ _ _ _ _ Hr). by apply IH.
Qed.

(** ** What the heap promises *)

(** C2: [kmalloc] with enough virtual room either dies because no page frame is
    left, or returns a block no caller owned, of at least the requested size;
    no byte of a block owned by a caller changes and the heap stays well formed. *)
Theorem kmalloc_correct h al size : heap_ok h al -> 0 < size < 2147483600 ->
  kernel_heap_top h + size + 27 <= vm_end h ->
  kmalloc size ~{ h }~>! FFatal \/
  exists p h', kmalloc size ~{ h }~> p; h' /\ heap_ok h' (<[p := size]> al) /\ al !! p = None /\
    untouched al h h' /\
    forall q t, al !! q = Some t -> p + size + 12 <= q \/ q + t + 12 <= p.
Proof.
  intros Hok Hs Hroom.
  destruct (kmalloc_ok h al size Hok Hs Hroom) as [Herr|(p & h' & Hrun & Hok' & Hn & Hu)]; [by left|right].
  exists p, h'. split_and!; try done. intros q t Hq. assert (Hne : q <> p) by congruence.
  destruct (heap_ok_disjoint h' _ p size q t Hok' (lookup_insert_eq _ _ _)) as [[Heq|Hd] _];
    [by rewrite lookup_insert_ne|congruence|done].
Qed.

(** C25: [kmalloc] reuses memory by best fit: on a well-formed heap and for
    [0 < size < 2147483600], when some free block holds the size rounded up to 16,
    the block returned starts at a smallest such block and the heap does not grow;
    otherwise, if there is room below the end of the heap, it is a new block of the
    rounded size at the top, or no page frame is left. *)
Theorem kmalloc_best_fit h bs fl size : heap_inv h bs fl -> 0 < size < 2147483600 ->
  (no_fit bs (round16 size) -> kernel_heap_top h + round16 size + 12 <= vm_end h) ->
  (no_fit bs (round16 size) /\ kmalloc size ~{ h }~>! FFatal) \/
  exists p h', kmalloc size ~{ h }~> p; h' /\
    ((exists b, best_fit bs (round16 size) b /\ p = b_addr b + 12 /\ kernel_heap_top h' = kernel_heap_top h) \/
     (no_fit bs (round16 size) /\ p = kernel_heap_top h + 12)).
Proof.
  intros Hi Hs Hroom.
  destruct (kmalloc_run h bs fl size Hi Hs Hroom) as [[Hn Herr]|(p & n & h' & bs' & fl' & Hrun & _ & _ & _ & Hcase)];
    [by left|right].
  exists p, h'. split; [done|]. destruct Hcase as [?|(? & ? & _)]; [by left|by right].
Qed.

(** C6: [kfree] of a pointer a caller owns never faults; it gives back exactly
    that block, merging it with its free neighbours, and no byte of the other
    blocks changes. *)
Theorem kfree_correct h al p s : heap_ok h al -> al !! p = Some s ->
  exists h', kfree p ~{ h }~> tt; h' /\ heap_ok h' (delete p al) /\ untouched (delete p al) h h'.
Proof.
  intros Hok Hp. destruct (kfree_ok h al p s Hok Hp) as (h' & Hrun & Hok' & Hu & _).
  exists h'. split_and!; try done. intros q t x Hq. apply Hu. by apply lookup_delete_Some in Hq as [_ Hq].
Qed.

(** C1: whatever the callers do, as long as each asks for at least one byte that
    still fits below the end of the heap (with 27 bytes to spare), gives back only what it owns and writes
    only in its own blocks, every call comes to an end, unless no page frame is
    left: then the blocks in use are disjoint, inside the heap and aligned, and every word a
    caller wrote in a block it still owns has the value written. (Beyond the end
    of the heap the code goes through null: [kmalloc_exhausted].) *)
Theorem heap_sessions_isolated es h al sh : heap_ok h al -> shadow_ok h al sh -> allowed es al sh h = true ->
  session es al sh ~{ h }~>! FFatal \/
  exists al' sh' h', session es al sh ~{ h }~> (al', sh'); h' /\
    (forall p s q t, al' !! p = Some s -> al' !! q = Some t ->
      (p = q \/ p + s + 12 <= q \/ q + t + 12 <= p) /\
      vm_start h' + 24 <= p /\ p + s <= kernel_heap_top h' /\ p mod 4 = 0) /\
    (forall x v, sh' !! x = Some v -> word h' x = v).
Proof.
  intros Hok Hsh Ha. destruct (session_run es h al sh Hok Hsh Ha) as [Herr|(al' & sh' & h' & Hrun & Hok' & Hsh')]; [by left|right].
  exists al', sh', h'. split; [done|]. split; [|intros x v Hx; by apply Hsh'].
  intros p s q t Hp Hq. by apply (heap_ok_disjoint h' al').
Qed.

(** [kheap_init] on a page-aligned region ends in a well-formed empty heap,
    unless no page frame is left. *)
Theorem kheap_init_correct h s e : pm_ok (h_vm h) -> 0 < s -> s mod 4096 = 0 -> s + 12 <= e -> e + 4096 <= 4294967296 ->
  (forall a, s <= a < e + 4096 -> pm_good a 3) ->
  kheap_init s e ~{ h }~>! FFatal \/
  exists h', kheap_init s e ~{ h }~> tt; h' /\ heap_ok h' ∅ /\ vm_start h' = s /\ vm_end h' = e.
Proof.
  intros Hok Hs Hal Hse He Hgood.
  destruct (kheap_init_run h s e Hok Hs Hal Hse He Hgood) as [Herr|(h' & Hrun & Hi & Hst & Hen & _)]; [by left|right].
  exists h'. split_and!; try done. exists [], []. split; [done|]. split.
  - intros p n (b & Hb & _). by apply elem_of_nil in Hb.
  - intros p t Hp. by rewrite lookup_empty in Hp.
Qed.

End Kheap.
Arguments heap : clear implicits.

(** ** A concrete heap

    A machine on which every page can be mapped; page 0 is mapped, as in the
    kernel, which keeps the identity mapping of the first 4 MiB. *)
#[export] Instance unlimited_mapper : PageMapper (gset Z).
Proof.
  refine {| pm_create := fun a _ v => Ok (tt, {[a / 4096]} ∪ v);
            pm_mapped := fun v p => bool_decide (p ∈ v); pm_ok := fun _ => True; pm_good := fun _ _ => True |}.
  abstract (intros v a f _ _ _; right; eexists; split; [reflexivity|]; split; [done|];
            intros p; repeat case_bool_decide; set_solver).
Defined.

(** The heap keeps the promise of its interface. *)
#[export] Instance kernel_heap_allocator : HeapAllocator (heap (gset Z)).
Proof.
  refine {| ha_alloc := kmalloc; ha_free := kfree; ha_ok := heap_ok;
            ha_room := fun h n => kernel_heap_top h + n <= vm_end h; ha_cost := fun size => size + 27 |}.
  - abstract (intros size; lia).
  - abstract (intros h n m; lia).
  - abstract (intros h al size m Hok Hs Hm Hroom;
      destruct (kmalloc_ok h al size Hok ltac:(lia) ltac:(lia)) as [Herr|(p & h' & Hrun & Hok' & Hn & _)]; [by left|right];
      destruct (kmalloc_top h al size p h' Hok ltac:(lia) ltac:(lia) Hrun); exists p, h'; split_and!; try done; lia).
  - abstract (intros h al p s Hok Hp; destruct (kfree_ok h al p s Hok Hp) as (h' & Hrun & Hok' & _ & Htop & Hend);
      exists h'; split_and!; try done; intros m; by rewrite Htop, Hend).
  - abstract (intros h al p s q t Hok Hp Hq; destruct (heap_ok_disjoint h al p s q t Hok Hp Hq) as [Hd _]; lia).
  - abstract (intros h al p s Hok Hp; destruct (heap_ok_disjoint h al p s p s Hok Hp Hp) as [_ [? _]]; destruct Hok as (bs & fl & Hi & _); pose proof (ar_base _ _ (hi_arena _ _ _ Hi)); lia).
Defined.

Definition boot_heap : heap (gset Z) := MkHeap ∅ {[0]} 0 0 0 0.
(** The region of the kernel heap: KERNEL_HEAP_START and KERNEL_HEAP_END. *)
Definition heap0 : heap (gset Z) :=
  MkHeap {[3489660928 := 0; 3489660932 := 0; 3489660936 := 0]} {[0; 851968]} 3489660928 4026531840 3 3489660940.

(** Three blocks of 100, 50 and 300 bytes, the second one given back. *)
Definition heap1_prog : M (heap (gset Z)) Z :=
  p ← kmalloc 100; q ← kmalloc 50; r ← kmalloc 300; kfree q ;; mret p.

Lemma boot_vm_ok : pm_ok (h_vm boot_heap).
Proof. exact I. Qed.
Lemma heap0_ok : heap_ok heap0 ∅.
Proof.
  destruct (kheap_init_run boot_heap 3489660928 4026531840 boot_vm_ok ltac:(lia) ltac:(done) ltac:(lia) ltac:(lia) ltac:(done))
    as [Herr|(h' & Hrun & Hi & _)]; [vm_compute in Herr; discriminate|].
  assert (Heq : kheap_init 3489660928 4026531840 boot_heap = Ok (tt, heap0)) by (vm_compute; reflexivity).
  rewrite Heq in Hrun. injection Hrun as <-. exists [], []. split; [done|]. split.
  - intros p n (b & Hb & _). by apply elem_of_nil in Hb.
  - intros p t Hp. by rewrite lookup_empty in Hp.
Qed.
Lemma heap0_inv : heap_inv heap0 [] [].
Proof.
  destruct (kheap_init_run boot_heap 3489660928 4026531840 boot_vm_ok ltac:(lia) ltac:(done) ltac:(lia) ltac:(lia) ltac:(done))
    as [Herr|(h' & Hrun & Hi & _)]; [vm_compute in Herr; discriminate|].
  assert (Heq : kheap_init 3489660928 4026531840 boot_heap = Ok (tt, heap0)) by (vm_compute; reflexivity).
  rewrite Heq in Hrun. by injection Hrun as <-.
Qed.
Lemma heap0_shadow : shadow_ok heap0 ∅ ∅.
Proof. intros x v Hx. by rewrite lookup_empty in Hx. Qed.

Definition result_of {S A} (r : res (A * S)) : option A :=
  match r with Ok (a, _) => Some a | Err _ => None end.

(** ** Defects *)

(** The size and the new top are computed modulo 2^32 without a check:
    [kmalloc] of the largest size returns a block of no bytes, and [kmalloc] of
    1 GiB succeeds on the 512 MiB region and moves the top of the heap below its
    start. *)
Theorem kmalloc_size_overflow :
  (exists h, kmalloc 4294967295 ~{ heap0 }~> 3489660952; h /\ word h 3489660940 = 0) /\
  (exists h, kmalloc 1073741824 ~{ heap0 }~> 3489660952; h /\ kernel_heap_top h < vm_start h).
Proof.
  assert (H1 : exists h, kmalloc 4294967295 heap0 = Ok (3489660952, h) /\ (word h 3489660940 =? 0) = true)
    by (vm_compute; eexists; split; reflexivity).
  assert (H2 : exists h, kmalloc 1073741824 heap0 = Ok (3489660952, h) /\ (kernel_heap_top h <? vm_start h) = true)
    by (vm_compute; eexists; split; reflexivity).
  destruct H1 as (h1 & Hr1 & Hw%Z.eqb_eq), H2 as (h2 & Hr2 & Ht%Z.ltb_lt).
  split; [by exists h1|by exists h2].
Qed.

(** When the region is exhausted [kmalloc] does not return NULL: with page 0
    mapped it writes a header at address 0 and returns the pointer 12; with page
    0 unmapped it faults at address 8. *)
Theorem kmalloc_exhausted :
  (exists h, kmalloc 536870912 ~{ heap0 }~> 12; h /\ word h 0 = 536870912) /\
  kmalloc 536870912 ~{ set_vm {[851968]} heap0 }~>! FPtr 8.
Proof.
  split; [|vm_compute; reflexivity].
  assert (H1 : exists h, kmalloc 536870912 heap0 = Ok (12, h) /\ (word h 0 =? 536870912) = true)
    by (vm_compute; eexists; split; reflexivity).
  destruct H1 as (h1 & Hr1 & Hw%Z.eqb_eq). by exists h1.
Qed.

(** [kmalloc_align] returns a pointer that is not page-aligned when a free
    block lies at 3952 modulo 4096. *)
Theorem kmalloc_align_misaligned :
  result_of ((kmalloc 1280 ;; kmalloc 1280 ;; kmalloc 1344 ;; p ← kmalloc 64; kmalloc 16 ;; kfree p ;;
              kmalloc_align 32) heap0) = Some 3489664892 /\ 3489664892 mod 4096 = 3964.
Proof. split; vm_compute; reflexivity. Qed.

(** ** Witnesses *)
Lemma kmalloc_correct_witness : exists h', kmalloc 100 ~{ heap0 }~> 3489660952; h' /\ heap_ok h' {[3489660952 := 100]}.
Proof.
  destruct (kmalloc_correct heap0 ∅ 100 heap0_ok ltac:(lia) ltac:(vm_compute; congruence)) as [Herr|(p & h' & Hrun & Hok & _)].
  - vm_compute in Herr. discriminate.
  - assert (Hp : result_of (kmalloc 100 heap0) = Some 3489660952) by (vm_compute; reflexivity).
    rewrite Hrun in Hp. injection Hp as ->. by exists h'.
Defined.

Lemma kmalloc_best_fit_witness : exists h', kmalloc 100 ~{ heap0 }~> 3489660952; h'.
Proof.
  destruct (kmalloc_best_fit heap0 [] [] 100 heap0_inv ltac:(lia) ltac:(intros _; vm_compute; congruence))
    as [[_ Herr]|(p & h' & Hrun & _)].
  - vm_compute in Herr. discriminate.
  - assert (Hp : result_of (kmalloc 100 heap0) = Some 3489660952) by (vm_compute; reflexivity).
    rewrite Hrun in Hp. injection Hp as ->. by exists h'.
Defined.

Lemma kfree_correct_witness : exists h', kfree 3489660952 ~{ match kmalloc 100 heap0 with Ok (_, h) => h | Err _ => heap0 end }~> tt; h'
  /\ heap_ok h' (delete 3489660952 {[3489660952 := 100]}).
Proof.
  destruct (kmalloc_ok heap0 ∅ 100 heap0_ok ltac:(lia) ltac:(vm_compute; congruence)) as [Herr|(p & h' & Hrun & Hok & _)];
    [vm_compute in Herr; discriminate|].
  assert (Hp : result_of (kmalloc 100 heap0) = Some 3489660952) by (vm_compute; reflexivity).
  rewrite Hrun in Hp. injection Hp as ->. rewrite Hrun.
  destruct (kfree_correct h' _ 3489660952 100 Hok (lookup_insert_eq _ _ _)) as (h2 & Hrun2 & Hok2 & _).
  by exists h2.
Defined.

Definition demo_session : list heap_event :=
  [HMalloc 100; HWrite 3489660952 0 7; HMalloc 50; HFree 3489660952; HMalloc 20].

Lemma heap_sessions_isolated_witness : exists al sh h, session demo_session ∅ ∅ ~{ heap0 }~> (al, sh); h /\
  (forall x v, sh !! x = Some v -> word h x = v) /\ size al = 2%nat.
Proof.
  destruct (heap_sessions_isolated demo_session heap0 ∅ ∅ heap0_ok heap0_shadow) as [Herr|(al & sh & h & Hr & _ & Hw)].
  - vm_compute. reflexivity.
  - exfalso. vm_compute in Herr. discriminate.
  - exists al, sh, h. split; [exact Hr|]. split; [exact Hw|].
    assert (Hsz : (x ← session demo_session ∅ ∅; mret (base.size x.1)) heap0 = Ok (2%nat, h)).
    { rewrite (bind_ok _ _ _ _ _ Hr). vm_compute in Hr. injection Hr as <- <- <-. reflexivity. }
    rewrite (bind_ok _ _ _ _ _ Hr) in Hsz. by injection Hsz.
Defined.

Lemma kheap_init_correct_witness : exists h', kheap_init 3489660928 4026531840 ~{ boot_heap }~> tt; h' /\ heap_ok h' ∅.
Proof.
  destruct (kheap_init_correct boot_heap 3489660928 4026531840 boot_vm_ok ltac:(lia) ltac:(done) ltac:(lia) ltac:(lia) ltac:(done))
    as [Herr|(h' & Hrun & Hok & _)]; [vm_compute in Herr; discriminate|by exists h'].
Defined.

Lemma kmalloc_align_correct_witness : exists p h', kmalloc_align 100 ~{ heap0 }~> p; h' /\ p mod 4096 = 0.
Proof.
  destruct (kmalloc_align_correct heap0 [] [] 100 heap0_inv ltac:(lia) ltac:(vm_compute; congruence))
    as [Herr|(p & n & h' & bs' & fl' & Hrun & _ & _ & _ & Hal)]; [vm_compute in Herr; discriminate|].
  exists p, h'. split; [done|]. destruct Hal as [Hal|(_ & b & Hb & _)]; [done|]. by apply elem_of_nil in Hb.
Defined.

End Kheap.
