(* ===== verification/Vmm.v ===== *)
(** * Page tables (src/kernel/memory/vmm.c)

    The two-level page tables of the i386, the machine that walks them, and the
    functions that map, create, unmap and free pages through the recursive
    mapping. The physical frames come from any [FrameAllocator]; the kernel heap
    sits on top through the [PageMapper] instance at the end. *)

From S2P Require Import Prelude Interfaces Pmm Kheap.

Module Vmm.

(** ** Page table entries *)
Definition PML_present (raw : Z) : bool := Z.testbit raw 0.
Definition PML_writable (raw : Z) : bool := Z.testbit raw 1.
(** The size bit of a directory entry. *)
Definition PML_size (raw : Z) : bool := Z.testbit raw 7.
Definition PML_global (raw : Z) : bool := Z.testbit raw 8.
Definition PML_frame (raw : Z) : Z := Z.shiftr raw 12.
(** [page->ptbits.frame = index] *)
Definition PML_set_frame (raw index : Z) : Z := Z.lor (Z.land raw 4095) (Z.shiftl (Z.land index 1048575) 12).

Definition PAGE_SIZE : Z := 4096.
Definition PAGE_LOW_MASK : Z := 4095.
Definition ENTRY_MASK : Z := 1023.
Definition PAGE_DIRECTORY_VIRT : Z := 4294963200.
Definition PAGE_TABLE_BASE : Z := 4290772992.
Definition PML_KERNEL_ACCESS : Z := 3.
Definition PML_USER_ACCESS : Z := 7.
Definition KERNEL_PDE_START_IDX : Z := 768.
Definition KERNEL_INIT_NPTE : Z := 2.
Definition ALIGN_DOWN (a : Z) : Z := Z.land a (u32_not 4095).
Definition ALIGN_UP (a : Z) : Z := Z.land (u32 (a + 4095)) (u32_not 4095).
Definition PDE_INDEX (x : Z) : Z := Z.land (Z.shiftr x 22) ENTRY_MASK.

Section Vmm.
Context {St : Type} `{FrameAllocator St}.

(** ** The machine

    Physical memory by frame and word (what was never written reads as 0), the
    register cr3, the pointers [cur_pdir] and [k_pdir], and the frame
    allocator. *)
Record vm : Type := Vm {
  phys : gmap Z (gmap Z Z);
  cr3 : Z;
  cur_pdir : Z;
  k_pdir : Z;
  frames : St
}.
#[local] Instance eta_vm : Eta vm := {| eta := fun x => Vm (phys x) (cr3 x) (cur_pdir x) (k_pdir x) (frames x) |}.

Definition pword (s : vm) (f i : Z) : Z := default 0 (default ∅ (phys s !! f) !! i).
Definition put_pword (s : vm) (f i v : Z) : vm :=
  s <| phys := <[f := <[i := v]> (default ∅ (phys s !! f))]> (phys s) |>.

(** The walk of the tables: the frame and the index of the word at [va]. The code
    runs in the kernel, so the user bits mean nothing; cr4.PSE is off, so neither
    does the size bit of a directory entry. cr0.WP is on (bootstrap.S sets it), so
    the kernel may only write where both entries are writable:
    [translate] is for reading and [translate_write] for writing. The TLB is left
    out. *)
Definition directory (s : vm) : Z := PML_frame (cr3 s).
Definition translate (s : vm) (va : Z) : option (Z * Z) :=
  let pde := pword s (directory s) (va / 4194304) in
  if PML_present pde then
    let pte := pword s (PML_frame pde) (va / 4096 mod 1024) in
    if PML_present pte then Some (PML_frame pte, va / 4 mod 1024) else None
  else None.
Definition write_protected (s : vm) (va : Z) : bool :=
  let pde := pword s (directory s) (va / 4194304) in
  let pte := pword s (PML_frame pde) (va / 4096 mod 1024) in
  negb (PML_writable pde && PML_writable pte).
Definition translate_write (s : vm) (va : Z) : option (Z * Z) :=
  if write_protected s va then None else translate s va.

Definition load (va : Z) : M vm Z := fun s =>
  match translate s va with Some (f, i) => Ok (pword s f i, s) | None => Err (FPtr va) end.
Definition store (va v : Z) : M vm unit := fun s =>
  match translate_write s va with Some (f, i) => Ok (tt, put_pword s f i v) | None => Err (FPtr va) end.
(** [memset(va, 0, PAGE_SIZE)] for an aligned [va]. *)
Definition clear_page (va : Z) : M vm unit := fun s =>
  match translate_write s va with Some (f, _) => Ok (tt, s <| phys := <[f := ∅]> (phys s) |>) | None => Err (FPtr va) end.

Definition in_pmm {A} (m : M St A) : M vm A := zoom frames (fun x s => s <| frames := x |>) m.

(** ** vmm.c *)
Definition vmm_page_set_flags (page flags : Z) : M vm unit :=
  raw ← load page; store page (Z.lor raw (Z.land PAGE_LOW_MASK flags)).

(** [page->ptbits.frame = index] through a pointer. *)
Definition set_frame (page index : Z) : M vm unit :=
  raw ← load page; store page (PML_set_frame raw index).

Definition vmm_page_allocate (page flags : Z) : M vm unit :=
  raw ← load page;
  (if negb (PML_present raw) then index ← in_pmm fa_alloc; set_frame page index else mret tt) ;;
  vmm_page_set_flags page flags.

Definition vmm_page_map_addr (page flags physAddr : Z) : M vm unit :=
  in_pmm (fa_mark physAddr) ;;
  set_frame page (Z.shiftr physAddr 12) ;;
  vmm_page_set_flags page flags.

Definition vmm_pde_allocate (pde flags : Z) : M vm unit :=
  raw ← load pde;
  (if negb (PML_present raw) then index ← in_pmm fa_alloc; set_frame pde index else mret tt) ;;
  vmm_page_set_flags pde flags.

Definition vmm_get_kernel_directory : M vm Z := gets k_pdir.
Definition vmm_get_directory : M vm Z := gets cur_pdir.
Definition vmm_r_get_directory : M vm Z := mret PAGE_DIRECTORY_VIRT.
Definition vmm_r_get_ptable (virtAddr : Z) : M vm Z := mret (u32 (PAGE_TABLE_BASE + PDE_INDEX virtAddr * PAGE_SIZE)).
(** [&pd->entries[i]], [&pt->pages[i]] *)
Definition entry_ptr (table i : Z) : Z := u32 (table + 4 * i).

Definition vmm_switch_directory (new_pdir : Z) : M vm unit :=
  k ← gets k_pdir;
  let new_pdir := if negb (new_pdir =? NULL) then new_pdir else k in
  modify (fun s => s <| cur_pdir := new_pdir |>) ;;
  pdir_phy_addr ← load (entry_ptr new_pdir 1023);
  modify (fun s => s <| cr3 := Z.land pdir_phy_addr (u32_not 4095) |>).

Definition vmm_r_get_phy_addr (virtAddr : Z) : M vm Z :=
  pt ← vmm_r_get_ptable virtAddr;
  phyAddr ← load (entry_ptr pt (Z.land (Z.shiftr virtAddr 12) ENTRY_MASK));
  mret (Z.lor (Z.land phyAddr (u32_not 4095)) (Z.land virtAddr 4095)).

Definition vmm_clone_pdir (from : Z) : M vm Z := mret NULL.

(** [pd_entry] and [pt_entry] of an aligned address. *)
Definition pd_entry (virtAddr : Z) : Z := Z.land (Z.shiftr (Z.shiftr virtAddr 12) 10) ENTRY_MASK.
Definition pt_entry (virtAddr : Z) : Z := Z.land (Z.shiftr virtAddr 12) ENTRY_MASK.

(** "Setup page table": the table at [pt] of the directory entry [i] of [pd]. *)
Definition setup_table (pd i pt flags : Z) : M vm unit :=
  pde ← load (entry_ptr pd i);
  if negb (PML_present pde) then vmm_pde_allocate (entry_ptr pd i) flags ;; clear_page pt else mret tt.

(** The page itself: a frame if it has none, and the flags. *)
Definition fill_page (page virtAddr flags : Z) : M vm unit :=
  pte ← load page;
  (if negb (PML_present pte) then vmm_page_allocate page flags ;; clear_page virtAddr else mret tt) ;;
  vmm_page_set_flags page flags.

Definition vmm_create_page (virtAddr flags : Z) : M vm Z :=
  let virtAddr := ALIGN_DOWN virtAddr in
  pd ← vmm_r_get_directory;
  pt ← vmm_r_get_ptable virtAddr;
  setup_table pd (pd_entry virtAddr) pt flags ;;
  pde ← load (entry_ptr pd (pd_entry virtAddr));
  if PML_size pde then mret NULL
  else
    let page := entry_ptr pt (pt_entry virtAddr) in
    fill_page page virtAddr flags ;;
    mret page.

Definition vmm_get_page (virtAddr : Z) : M vm Z :=
  let virtAddr := ALIGN_DOWN virtAddr in
  pd ← vmm_r_get_directory;
  pt ← vmm_r_get_ptable virtAddr;
  pde ← load (entry_ptr pd (pd_entry virtAddr));
  if negb (PML_present pde) then mret NULL
  else if PML_size pde then mret NULL
  else
    pte ← load (entry_ptr pt (pt_entry virtAddr));
    if negb (PML_present pte) then mret NULL else mret (entry_ptr pt (pt_entry virtAddr)).

Definition vmm_map_page (virtAddr physAddr flags : Z) : M vm Z :=
  let virtAddr := ALIGN_DOWN virtAddr in
  pd ← vmm_get_directory;
  pt ← vmm_r_get_ptable virtAddr;
  setup_table pd (pd_entry virtAddr) pt flags ;;
  pde ← load (entry_ptr pd (pd_entry virtAddr));
  if PML_size pde then mret NULL
  else
    _ ← load (entry_ptr pt (pt_entry virtAddr));
    vmm_page_map_addr (entry_ptr pt (pt_entry virtAddr)) flags physAddr ;;
    mret (entry_ptr pt (pt_entry virtAddr)).

Definition vmm_unmap_page (virtAddr : Z) : M vm unit :=
  let virtAddr := ALIGN_DOWN virtAddr in
  pd ← vmm_get_directory;
  pt ← vmm_r_get_ptable virtAddr;
  pde ← load (entry_ptr pd (pd_entry virtAddr));
  if negb (PML_present pde) then mret tt
  else
    pte ← load (entry_ptr pt (pt_entry virtAddr));
    if negb (PML_present pte) then mret tt else store (entry_ptr pt (pt_entry virtAddr)) 0.

Definition vmm_free_page (virtAddr : Z) : M vm unit :=
  let virtAddr := ALIGN_DOWN virtAddr in
  pd ← vmm_get_directory;
  pt ← vmm_r_get_ptable virtAddr;
  pde ← load (entry_ptr pd (pd_entry virtAddr));
  if negb (PML_present pde) then mret tt
  else
    pte ← load (entry_ptr pt (pt_entry virtAddr));
    if negb (PML_present pte) then mret tt
    else in_pmm (fa_free pte) ;; store (entry_ptr pt (pt_entry virtAddr)) 0.

(** The loops run over aligned addresses below 2^32, so they do not wrap. *)
Definition for_pages (startAddr endAddr : Z) (body : Z -> M vm unit) : M vm unit :=
  for_range (Z.to_nat ((endAddr - startAddr + 4095) / 4096)) 0 (fun i => body (startAddr + 4096 * i)).

Definition vmm_map_range (virtAddr physAddr size flags : Z) : M vm unit :=
  let startAddr := ALIGN_DOWN virtAddr in
  let endAddr := ALIGN_UP (u32 (virtAddr + size)) in
  let physAddr := ALIGN_DOWN physAddr in
  for_pages startAddr endAddr (fun a => _ ← vmm_map_page a (u32 (physAddr + (a - startAddr))) flags; mret tt).

Definition vmm_unmap_range (virtAddr size : Z) : M vm unit :=
  for_pages (ALIGN_UP virtAddr) (ALIGN_DOWN (u32 (virtAddr + size))) vmm_unmap_page.

Definition vmm_allocate_range (virtAddr size flags : Z) : M vm unit :=
  for_pages (ALIGN_DOWN virtAddr) (ALIGN_UP (u32 (virtAddr + size))) (fun a => _ ← vmm_create_page a flags; mret tt).

(** The second loop of [vmm_deallocate_range]. *)
Definition free_tables (pd pd_i pd_e : Z) : M vm unit :=
  for_range (Z.to_nat (pd_e - pd_i)) pd_i (fun i =>
    raw ← load (entry_ptr pd i);
    if PML_present raw then in_pmm (fa_free raw) ;; store (entry_ptr pd i) 0 else mret tt).
Definition vmm_deallocate_range (virtAddr size : Z) : M vm unit :=
  for_pages (ALIGN_UP virtAddr) (ALIGN_DOWN (u32 (virtAddr + size))) vmm_free_page ;;
  let pd_i := Z.land (Z.shiftr (ALIGN_UP virtAddr) 20) ENTRY_MASK in
  let pd_e := pd_i + Z.shiftr size 20 in
  pd ← vmm_get_directory;
  free_tables pd pd_i pd_e.

(** [init_page_region] is the address of the boot directory, and the rest comes
    from [boot_info]. *)
Definition vmm_init (init_page_region kernel_end video_start video_end video_phy_start : Z) : M vm unit :=
  modify (fun s => s <| k_pdir := init_page_region |>) ;;
  modify (fun s => s <| cur_pdir := init_page_region |>) ;;
  k_phy_pdir ← gets cr3;
  for_range (Z.to_nat (1023 - (KERNEL_PDE_START_IDX + KERNEL_INIT_NPTE))) (KERNEL_PDE_START_IDX + KERNEL_INIT_NPTE)
    (fun i => vmm_pde_allocate (entry_ptr init_page_region i) PML_KERNEL_ACCESS) ;;
  store (entry_ptr init_page_region 1023) (Z.lor (Z.land k_phy_pdir (u32_not 4095)) PML_KERNEL_ACCESS) ;;
  let pmm_used := ALIGN_UP 131072 in
  let pmm_start := ALIGN_UP kernel_end in
  for_pages 0 pmm_used (fun i_virt => _ ← vmm_create_page (u32 (pmm_start + i_virt)) PML_KERNEL_ACCESS; mret tt) ;;
  let video_size := ALIGN_UP (u32 (video_end - video_start)) in
  vmm_map_range video_start video_phy_start video_size PML_USER_ACCESS ;;
  vmm_switch_directory init_page_region.

(** ** Bits of entries *)
Lemma low_bit flags k : 0 <= k -> Z.testbit (Z.land PAGE_LOW_MASK flags) k = bool_decide (k < 12) && Z.testbit flags k.
Proof.
  intros Hk. change PAGE_LOW_MASK with (Z.ones 12). rewrite Z.land_spec.
  case_bool_decide; [by rewrite Z.ones_spec_low by lia|by rewrite Z.ones_spec_high by lia].
Qed.
Definition with_flags (raw flags : Z) : Z := Z.lor raw (Z.land PAGE_LOW_MASK flags).
Lemma with_flags_bit raw flags k : 0 <= k < 12 -> Z.testbit (with_flags raw flags) k = Z.testbit raw k || Z.testbit flags k.
Proof. intros Hk. unfold with_flags. rewrite Z.lor_spec, low_bit, bool_decide_true by lia. done. Qed.
Lemma with_flags_frame raw flags : PML_frame (with_flags raw flags) = PML_frame raw.
Proof.
  unfold PML_frame, with_flags. apply Z.bits_inj'. intros k Hk. rewrite !Z.shiftr_spec, Z.lor_spec, low_bit by lia.
  rewrite bool_decide_false by lia. by rewrite orb_false_r.
Qed.
Lemma with_flags_range raw flags : is_u32 raw -> is_u32 (with_flags raw flags).
Proof.
  intros Hr. apply word_bound_testbit; [apply Z.lor_nonneg; split; [apply Hr|by apply Z.land_nonneg; left]|].
  intros k Hk. unfold with_flags. rewrite Z.lor_spec, low_bit, word_testbit_high by (done || lia). by rewrite bool_decide_false by lia.
Qed.
Lemma set_frame_spec raw index k : 0 <= k -> Z.testbit (PML_set_frame raw index) k =
  if bool_decide (k < 12) then Z.testbit raw k else bool_decide (k < 32) && Z.testbit index (k - 12).
Proof.
  intros Hk. unfold PML_set_frame. change 4095 with (Z.ones 12). change 1048575 with (Z.ones 20).
  rewrite Z.lor_spec, Z.shiftl_spec, !Z.land_spec by lia. case_bool_decide as H1.
  - rewrite Z.ones_spec_low, (Z.testbit_neg_r _ (k - 12)) by lia. by rewrite andb_true_r, orb_false_r.
  - rewrite (Z.ones_spec_high 12), andb_false_r by lia. cbn [orb]. case_bool_decide as H2.
    + rewrite (Z.ones_spec_low 20) by lia. by rewrite andb_true_r.
    + rewrite (Z.ones_spec_high 20) by lia. by rewrite andb_false_r.
Qed.
Lemma set_frame_bit raw index k : 0 <= k < 12 -> Z.testbit (PML_set_frame raw index) k = Z.testbit raw k.
Proof. intros Hk. rewrite set_frame_spec, bool_decide_true by lia. done. Qed.
Lemma set_frame_frame raw index : 0 <= index < 1048576 -> PML_frame (PML_set_frame raw index) = index.
Proof.
  intros Hi. unfold PML_frame. apply Z.bits_inj'. intros k Hk. rewrite Z.shiftr_spec, set_frame_spec, bool_decide_false by lia.
  replace (k + 12 - 12) with k by lia. case_bool_decide; [done|]. cbn [andb]. symmetry. rewrite <- (Z.mod_small index (2 ^ 20)) by (cbn; lia).
  apply Z.mod_pow2_bits_high. lia.
Qed.
Lemma set_frame_range raw index : is_u32 (PML_set_frame raw index).
Proof.
  apply word_bound_testbit.
  - unfold PML_set_frame. apply Z.lor_nonneg. split; [apply Z.land_nonneg; by right|apply Z.shiftl_nonneg, Z.land_nonneg; by right].
  - intros k Hk. rewrite set_frame_spec, !bool_decide_false by lia. done.
Qed.
(** Flags that make an entry present, writable and no large page, as all callers
    give them. *)
Definition flags_ok (flags : Z) : Prop := Z.testbit flags 0 = true /\ Z.testbit flags 1 = true /\ Z.testbit flags 7 = false.
Lemma with_flags_access raw flags : flags_ok flags -> PML_present (with_flags raw flags) = true /\ PML_writable (with_flags raw flags) = true.
Proof. intros (F1 & F2 & _). unfold PML_present, PML_writable. by rewrite !with_flags_bit, F1, F2, !orb_true_r by lia. Qed.

(** ** Addresses *)
Lemma ALIGN_DOWN_eq a : is_u32 a -> ALIGN_DOWN a = a / 4096 * 4096.
Proof. intros Ha. unfold ALIGN_DOWN. change 4095 with (2 ^ 12 - 1). by rewrite land_align by (done || lia). Qed.
Lemma land_1023 x : Z.land x 1023 = x mod 1024.
Proof. change 1023 with (Z.ones 10). by rewrite Z.land_ones. Qed.
Lemma pd_entry_eq a : is_u32 a -> pd_entry (ALIGN_DOWN a) = a / 4194304.
Proof.
  intros Ha. unfold pd_entry, ENTRY_MASK. rewrite ALIGN_DOWN_eq, land_1023, !Z.shiftr_div_pow2 by (done || lia).
  change (2 ^ 12) with 4096. change (2 ^ 10) with 1024. wraplia.
Qed.
Lemma pt_entry_eq a : is_u32 a -> pt_entry (ALIGN_DOWN a) = a / 4096 mod 1024.
Proof.
  intros Ha. unfold pt_entry, ENTRY_MASK. rewrite ALIGN_DOWN_eq, land_1023, !Z.shiftr_div_pow2 by (done || lia).
  change (2 ^ 12) with 4096. wraplia.
Qed.
Definition ptable (i : Z) : Z := 4290772992 + i * 4096.
Lemma r_ptable_eq a (s : vm) : is_u32 a -> vmm_r_get_ptable (ALIGN_DOWN a) ~{ s }~> ptable (a / 4194304); s.
Proof.
  intros Ha. unfold vmm_r_get_ptable, PDE_INDEX, ENTRY_MASK, PAGE_SIZE, PAGE_TABLE_BASE, ptable.
  rewrite ALIGN_DOWN_eq, land_1023, Z.shiftr_div_pow2 by (done || lia). change (2 ^ 22) with 4194304.
  replace (a / 4096 * 4096 / 4194304 mod 1024) with (a / 4194304) by wraplia. by rewrite u32_small by wraplia.
Qed.

(** ** Memory *)
Lemma pword_put s f i v f' i' : pword (put_pword s f i v) f' i' = if bool_decide (f' = f /\ i' = i) then v else pword s f' i'.
Proof.
  unfold pword, put_pword. cbn. destruct (decide (f' = f)) as [->|Hf].
  - rewrite lookup_insert_eq. cbn. destruct (decide (i' = i)) as [->|Hi].
    + rewrite lookup_insert_eq, bool_decide_true; done.
    + rewrite lookup_insert_ne, bool_decide_false by (congruence || tauto). done.
  - rewrite lookup_insert_ne, bool_decide_false by (congruence || tauto). done.
Qed.
Definition cleared (s : vm) (g : Z) : vm := s <| phys := <[g := ∅]> (phys s) |>.
Lemma pword_cleared s g f i : pword (cleared s g) f i = if bool_decide (f = g) then 0 else pword s f i.
Proof.
  unfold pword, cleared. cbn. case_bool_decide as Hf; [subst; by rewrite lookup_insert_eq|]. by rewrite lookup_insert_ne.
Qed.

(** ** The address space

    [pde s i] is a directory entry and [entry s p] the table entry of page [p], 0
    when there is no table. *)
Definition pde (s : vm) (i : Z) : Z := pword s (directory s) i.
Definition entry (s : vm) (p : Z) : Z :=
  if PML_present (pde s (p / 1024)) then pword s (PML_frame (pde s (p / 1024))) (p mod 1024) else 0.
(** The pages below the recursive mapping. *)
Definition low_page (p : Z) : Prop := 0 <= p < 1047552.

Lemma translate_entry s va : 0 <= va < PAGE_TABLE_BASE -> translate s va =
  if PML_present (entry s (va / 4096)) then Some (PML_frame (entry s (va / 4096)), va / 4 mod 1024) else None.
Proof.
  intros Hva. unfold translate, entry, pde. replace (va / 4096 / 1024) with (va / 4194304) by dlia.
  by destruct (PML_present (pword s (directory s) (va / 4194304))).
Qed.

(** The walk for writing to a page below the recursive mapping. *)
Lemma walk_write s va pde pte : pword s (directory s) (va / 4194304) = pde -> PML_present pde = true -> PML_writable pde = true ->
  pword s (PML_frame pde) (va / 4096 mod 1024) = pte -> PML_present pte = true -> PML_writable pte = true ->
  translate_write s va = Some (PML_frame pte, va / 4 mod 1024).
Proof. intros <- Hp Hw <- Hp' Hw'. unfold translate_write, write_protected, translate. by rewrite Hp, Hw, Hp', Hw'. Qed.
Lemma translate_write_read s va w : translate_write s va = Some w -> translate s va = Some w.
Proof. unfold translate_write. by destruct (write_protected s va). Qed.

(** The directory is mapped into itself and at [cur_pdir]; the tables are in use and
    writable, each has a frame of its own, and none is a large page. *)
Record vm_ok (s : vm) : Prop := {
  vo_frames : fa_ok (frames s);
  vo_words : forall f i, is_u32 (pword s f i);
  vo_dir : fa_used (frames s) (directory s) = true;
  vo_rec : PML_present (pde s 1023) = true /\ PML_writable (pde s 1023) = true /\ PML_frame (pde s 1023) = directory s;
  vo_small : forall i, 0 <= i < 1023 -> PML_size (pde s i) = false;
  vo_table : forall i, 0 <= i < 1023 -> PML_present (pde s i) = true ->
    fa_used (frames s) (PML_frame (pde s i)) = true /\ PML_frame (pde s i) <> directory s;
  vo_writable : forall i, 0 <= i < 1023 -> PML_present (pde s i) = true -> PML_writable (pde s i) = true;
  vo_inj : forall i j, 0 <= i < 1023 -> 0 <= j < 1023 -> PML_present (pde s i) = true -> PML_present (pde s j) = true ->
    PML_frame (pde s i) = PML_frame (pde s j) -> i = j;
  vo_pdir : 0 <= cur_pdir s < PAGE_TABLE_BASE /\ cur_pdir s mod 4096 = 0 /\
    PML_present (entry s (cur_pdir s / 4096)) = true /\ PML_writable (entry s (cur_pdir s / 4096)) = true /\
    PML_frame (entry s (cur_pdir s / 4096)) = directory s
}.

Lemma translate_write_entry s va : vm_ok s -> 0 <= va < PAGE_TABLE_BASE -> translate_write s va =
  if PML_present (entry s (va / 4096)) && PML_writable (entry s (va / 4096)) then Some (PML_frame (entry s (va / 4096)), va / 4 mod 1024) else None.
Proof.
  intros Hok Hva. unfold translate_write. rewrite translate_entry by done. unfold write_protected, entry. fold (pde s (va / 4194304)).
  replace (va / 4096 / 1024) with (va / 4194304) by dlia. destruct (PML_present (pde s (va / 4194304))) eqn:E; [|by destruct (negb _)].
  rewrite (vo_writable _ Hok) by (done || unfold PAGE_TABLE_BASE in *; dlia). cbn [andb]. destruct (PML_writable _); [by rewrite andb_true_r|by rewrite andb_false_r].
Qed.

(** The two ways to reach the directory. *)
Definition is_dir (s : vm) (pd : Z) : Prop := pd = PAGE_DIRECTORY_VIRT \/ pd = cur_pdir s.
(** [s'] is [s] but for the word [i] of the directory and the frame [g]. *)
Record table_changed (s s' : vm) (i g : Z) : Prop := {
  tc_cr3 : cr3 s' = cr3 s;
  tc_pdir : cur_pdir s' = cur_pdir s;
  tc_word : forall f j, f <> g -> ~ (f = directory s /\ j = i) -> pword s' f j = pword s f j
}.

(** A frame that holds neither the directory nor a table. *)
Definition apart (s : vm) (g : Z) : Prop :=
  g <> directory s /\ forall c, 0 <= c < 1023 -> PML_present (pde s c) = true -> PML_frame (pde s c) <> g.
Lemma unused_apart s g : vm_ok s -> fa_used (frames s) g = false -> apart s g.
Proof.
  intros Hok Hg. split; [intros ->; pose proof (vo_dir _ Hok); congruence|].
  intros c Hc Hp <-. destruct (vo_table _ Hok c Hc Hp). congruence.
Qed.
Lemma frame_nonneg raw : is_u32 raw -> 0 <= PML_frame raw.
Proof. intros Hr. unfold PML_frame. apply Z.shiftr_nonneg. apply Hr. Qed.
Lemma minus_apart s : vm_ok s -> apart s (-1).
Proof.
  intros Hok. destruct (vo_rec _ Hok) as (_ & _ & Hd). pose proof (vo_words _ Hok) as Hw. split.
  - rewrite <- Hd. pose proof (frame_nonneg (pde s 1023) (Hw _ _)). lia.
  - intros c _ _. pose proof (frame_nonneg (pde s c) (Hw _ _)). lia.
Qed.

Lemma walk_dir s s' i g pd j : vm_ok s -> is_dir s pd -> i <> 1023 -> (0 <= i < 1023 -> PML_present (pde s i) = false) ->
  apart s g -> table_changed s s' i g -> 0 <= j < 1024 ->
  translate_write s' (entry_ptr pd j) = Some (directory s, j).
Proof.
  intros Hok Hpd Hi Habs [HgD Hg] [Hcr Hpp Hw] Hj. destruct (vo_rec _ Hok) as (Hr1 & Hrw & Hr2).
  destruct (vo_pdir _ Hok) as (Hc1 & Hc2 & Hc3 & Hcw & Hc4). unfold PAGE_TABLE_BASE in Hc1.
  assert (Hd : directory s' = directory s) by (unfold directory; by rewrite Hcr).
  destruct Hpd as [->| ->].
  - assert (H1023 : pword s' (directory s') 1023 = pde s 1023) by (rewrite Hd; apply Hw; [done|lia]).
    unfold entry_ptr, PAGE_DIRECTORY_VIRT. rewrite u32_small by lia. rewrite (walk_write _ _ (pde s 1023) (pde s 1023)); try done.
    + rewrite Hr2. do 2 f_equal. dlia.
    + by replace ((4294963200 + 4 * j) / 4194304) with 1023 by dlia.
    + replace ((4294963200 + 4 * j) / 4096 mod 1024) with 1023 by dlia. by rewrite Hr2, <- Hd.
  - unfold entry_ptr. rewrite u32_small by lia. unfold entry in *. set (c := cur_pdir s / 4096 / 1024) in *.
    assert (Hc : 0 <= c < 1023) by (unfold c; dlia).
    destruct (PML_present (pde s c)) eqn:Ep; [|done]. destruct (vo_table _ Hok c Hc Ep) as [Hu HnD].
    rewrite (walk_write _ _ (pde s c) (pword s (PML_frame (pde s c)) (cur_pdir s / 4096 mod 1024))); try done.
    + rewrite Hc4. do 2 f_equal. dlia.
    + replace ((cur_pdir s + 4 * j) / 4194304) with c by (unfold c; dlia). rewrite Hd. apply Hw; [done|]. intros [_ E]. subst i. by rewrite Habs in Ep.
    + by apply (vo_writable _ Hok).
    + replace ((cur_pdir s + 4 * j) / 4096 mod 1024) with (cur_pdir s / 4096 mod 1024) by dlia. apply Hw; [by apply Hg|]. tauto.
Qed.

Lemma walk_pd s pd j : vm_ok s -> is_dir s pd -> 0 <= j < 1024 -> translate_write s (entry_ptr pd j) = Some (directory s, j).
Proof. intros Hok Hpd Hj. apply (walk_dir s s (-1) (-1)); try done; [lia|by apply minus_apart]. Qed.

(** *** Reading and writing through a walk that is known *)
Lemma load_run s va f i : translate_write s va = Some (f, i) -> load va ~{ s }~> pword s f i; s.
Proof. intros Ht%translate_write_read. unfold load. by rewrite Ht. Qed.
Lemma store_run s va f i v : translate_write s va = Some (f, i) -> store va v ~{ s }~> tt; put_pword s f i v.
Proof. intros Ht. unfold store. by rewrite Ht. Qed.
Lemma clear_run s va f i : translate_write s va = Some (f, i) -> clear_page va ~{ s }~> tt; cleared s f.
Proof. intros Ht. unfold clear_page. by rewrite Ht. Qed.

Lemma pmm_alloc_run s : fa_ok (frames s) -> in_pmm fa_alloc ~{ s }~>! FFatal \/
  exists g fr, in_pmm fa_alloc ~{ s }~> g; s <| frames := fr |> /\ fa_ok fr /\ (0 < g < 1048576 /\ g < fa_limit (frames s)) /\ fa_used (frames s) g = false /\
    fa_limit fr = fa_limit (frames s) /\ forall f, fa_used fr f = bool_decide (f = g) || fa_used (frames s) f.
Proof.
  intros Hok. unfold in_pmm, zoom. destruct (fa_alloc (frames s)) as [[g fr]|e] eqn:E.
  - right. destruct (fa_alloc_law _ _ _ Hok E) as (Hfr & Hlim & Hg & Hmax & Hfree & Hu). exists g, fr. split_and!; try done; lia.
  - left. by rewrite (fa_alloc_complete _ _ Hok E).
Qed.

(** The table at [ptable i], once the directory entry [i] is present. *)
Lemma walk_table s i j : PML_present (pde s 1023) = true /\ PML_writable (pde s 1023) = true /\ PML_frame (pde s 1023) = directory s -> 0 <= i < 1023 ->
  PML_present (pde s i) = true -> PML_writable (pde s i) = true -> 0 <= j < 1024 -> translate_write s (entry_ptr (ptable i) j) = Some (PML_frame (pde s i), j).
Proof.
  intros (H1 & Hw & H2) Hi Hp Hpw Hj. unfold entry_ptr, ptable. rewrite u32_small by lia. rewrite (walk_write _ _ (pde s 1023) (pde s i)); try done.
  - do 2 f_equal. dlia.
  - by replace ((4290772992 + i * 4096 + 4 * j) / 4194304) with 1023 by dlia.
  - rewrite H2. by replace ((4290772992 + i * 4096 + 4 * j) / 4096 mod 1024) with i by dlia.
Qed.
Lemma ptable_first i : entry_ptr (ptable i) 0 = u32 (ptable i).
Proof. unfold entry_ptr. f_equal. lia. Qed.

(** *** A new table *)
Section Setup.
Context (s : vm) (pd i flags : Z) (Hok : vm_ok s) (Hpd : is_dir s pd) (Hi : 0 <= i < 1023) (Hfl : flags_ok flags).
Context (Habs : PML_present (pde s i) = false).
Notation raw := (pde s i).

(** The state once the table is in place, in frame [g]. *)
Definition tabled (g : Z) (fr : St) : vm :=
  cleared (put_pword (put_pword (s <| frames := fr |>) (directory s) i (PML_set_frame raw g)) (directory s) i
    (with_flags (PML_set_frame raw g) flags)) g.

(** The words of the directory before the table is cleared. *)
Lemma written_pde g fr : let s3 := put_pword (put_pword (s <| frames := fr |>) (directory s) i (PML_set_frame raw g)) (directory s) i
    (with_flags (PML_set_frame raw g) flags) in
  pde s3 i = with_flags (PML_set_frame raw g) flags /\ (forall j, j <> i -> pde s3 j = pde s j) /\
  PML_present (with_flags (PML_set_frame raw g) flags) = true /\ PML_writable (with_flags (PML_set_frame raw g) flags) = true /\
  PML_size (with_flags (PML_set_frame raw g) flags) = false.
Proof.
  cbv zeta. pose proof Hfl as (_ & _ & F2). split_and!.
  - unfold pde. rewrite pword_put, bool_decide_true; done.
  - intros j Hj. unfold pde. rewrite !pword_put, !bool_decide_false by (intros [_ E]; done). done.
  - by apply with_flags_access.
  - by apply with_flags_access.
  - unfold PML_size. rewrite with_flags_bit, set_frame_bit, F2 by lia. rewrite orb_false_r. apply (vo_small _ Hok i Hi).
Qed.

Lemma walk_changed s' g j : apart s g -> table_changed s s' i g -> 0 <= j < 1024 ->
  translate_write s' (entry_ptr pd j) = Some (directory s, j).
Proof. intros Hg Htc Hj. by apply (walk_dir s s' i g); [| |lia| | | |]. Qed.

Lemma walk_now fr : translate_write (s <| frames := fr |>) (entry_ptr pd i) = Some (directory s, i).
Proof. apply (walk_changed _ (-1)); [by apply minus_apart|by split|lia]. Qed.

Lemma setup_new : setup_table pd i (ptable i) flags ~{ s }~>! FFatal \/
  exists g fr, setup_table pd i (ptable i) flags ~{ s }~> tt; tabled g fr /\ fa_ok fr /\ 0 < g < 1048576 /\
    fa_used (frames s) g = false /\ fa_limit fr = fa_limit (frames s) /\
    forall f, fa_used fr f = bool_decide (f = g) || fa_used (frames s) f.
Proof.
  assert (Ht : translate_write s (entry_ptr pd i) = Some (directory s, i)) by (pose proof (walk_now (frames s)) as Hw; by destruct s).
  unfold setup_table. run (load_run _ _ _ _ Ht). fold (pde s i). rewrite Habs. cbn [negb]. unfold vmm_pde_allocate.
  rewrite bind_assoc. run (load_run _ _ _ _ Ht). fold (pde s i). rewrite Habs. cbn [negb]. rewrite !bind_assoc.
  destruct (pmm_alloc_run s (vo_frames _ Hok)) as [Herr|(g & fr & Hr & Hfr & [Hg _] & Hfree & Hlim & Hu)].
  { left. by apply bind_err. }
  right. exists g, fr. split; [|done]. run Hr. pose proof (unused_apart s g Hok Hfree) as Hap.
  unfold set_frame. rewrite bind_assoc. run (load_run _ _ _ _ (walk_now fr)). fold (pde s i).
  change (pword (s <| frames := fr |>) (directory s) i) with raw. run (store_run _ _ _ _ (PML_set_frame raw g) (walk_now fr)).
  set (s2 := put_pword _ _ _ _).
  assert (Hw2 : translate_write s2 (entry_ptr pd i) = Some (directory s, i)).
  { apply (walk_changed _ g); [done| |lia]. split; try done. intros f j Hf Hj. unfold s2. by rewrite pword_put, bool_decide_false. }
  unfold vmm_page_set_flags. rewrite bind_assoc. run (load_run _ _ _ _ Hw2).
  assert (pword s2 (directory s) i = PML_set_frame raw g) as -> by (unfold s2; by rewrite pword_put, bool_decide_true).
  fold (with_flags (PML_set_frame raw g) flags). run (store_run _ _ _ _ (with_flags (PML_set_frame raw g) flags) Hw2).
  set (s3 := put_pword s2 _ _ _).
  pose proof (written_pde g fr) as (E1 & E2 & E3 & Ew & E4). pose proof (vo_rec _ Hok) as Hrec.
  assert (Hw3 : translate_write s3 (ptable i) = Some (g, 0)).
  { rewrite <- (u32_small (ptable i)) by (unfold ptable; lia). rewrite <- ptable_first.
    assert (Hp : pde s3 i = with_flags (PML_set_frame raw g) flags) by exact E1.
    assert (Hp2 : pde s3 1023 = pde s 1023) by (apply E2; lia).
    rewrite walk_table; rewrite ?Hp, ?Hp2, ?with_flags_frame, ?set_frame_frame; done || lia. }
  exact (clear_run _ _ _ _ Hw3).
Qed.

Lemma tabled_pde g fr j : g <> directory s -> pde (tabled g fr) j =
  if decide (j = i) then with_flags (PML_set_frame raw g) flags else pde s j.
Proof.
  intros Hg. pose proof (written_pde g fr) as (E1 & E2 & _). unfold pde, tabled. rewrite pword_cleared.
  change (directory (cleared _ _)) with (directory s). rewrite bool_decide_false by done.
  destruct (decide (j = i)) as [->|Hj]; [exact E1|by apply (E2 j)].
Qed.
Lemma tabled_word g fr f j : f <> g -> f <> directory s -> pword (tabled g fr) f j = pword s f j.
Proof.
  intros Hf HfD. unfold tabled. rewrite pword_cleared, bool_decide_false by done.
  by rewrite !pword_put, !bool_decide_false by tauto.
Qed.

Lemma tabled_entry g fr p : 0 < g < 1048576 -> apart s g -> low_page p -> entry (tabled g fr) p = entry s p.
Proof.
  intros Hg [HgD Hgt] Hp. unfold entry. rewrite tabled_pde by done. destruct (written_pde g fr) as (_ & _ & Hpr & _ & _).
  assert (Hpi : 0 <= p / 1024 < 1023) by (unfold low_page in Hp; dlia).
  destruct (decide (p / 1024 = i)) as [->|Hne].
  - rewrite Hpr, Habs, with_flags_frame, set_frame_frame by lia. unfold tabled.
    rewrite pword_cleared, bool_decide_true; done.
  - destruct (PML_present (pde s (p / 1024))) eqn:E; [|done]. apply tabled_word; [by apply Hgt|].
    by destruct (vo_table _ Hok _ Hpi E).
Qed.

Lemma tabled_ok g fr : fa_ok fr -> 0 < g < 1048576 -> fa_used (frames s) g = false ->
  (forall f, fa_used fr f = bool_decide (f = g) || fa_used (frames s) f) -> vm_ok (tabled g fr).
Proof.
  intros Hfr Hg Hfree Hu. pose proof (unused_apart s g Hok Hfree) as Hap. pose proof Hap as [HgD Hgt].
  destruct (written_pde g fr) as (_ & _ & Hpr & Hwr & Hsz).
  assert (Hpde : forall j, pde (tabled g fr) j = if decide (j = i) then with_flags (PML_set_frame raw g) flags else pde s j)
    by (intros j; by apply tabled_pde).
  assert (Hframe : PML_frame (with_flags (PML_set_frame raw g) flags) = g) by (rewrite with_flags_frame, set_frame_frame; done || lia).
  assert (Hold : forall c, 0 <= c < 1023 -> PML_present (pde s c) = true -> fa_used fr (PML_frame (pde s c)) = true /\
    PML_frame (pde s c) <> directory s).
  { intros c Hc Hp. destruct (vo_table _ Hok c Hc Hp) as [Hu1 Hn]. split; [|done]. by rewrite Hu, Hu1, orb_true_r. }
  split; change (directory (tabled g fr)) with (directory s); change (frames (tabled g fr)) with fr;
    change (cur_pdir (tabled g fr)) with (cur_pdir s).
  - done.
  - intros f j. unfold tabled. rewrite pword_cleared. case_bool_decide; [done|]. rewrite !pword_put.
    case_bool_decide; [apply with_flags_range, set_frame_range|]. apply (vo_words _ Hok).
  - rewrite Hu, (vo_dir _ Hok). apply orb_true_r.
  - rewrite Hpde, decide_False by lia. apply (vo_rec _ Hok).
  - intros c Hc. rewrite Hpde. destruct (decide (c = i)); [done|]. by apply (vo_small _ Hok).
  - intros c Hc. rewrite Hpde. destruct (decide (c = i)) as [->|]; [|by apply Hold].
    intros _. rewrite Hframe, Hu, bool_decide_true by done. done.
  - intros c Hc. rewrite Hpde. destruct (decide (c = i)); [done|]. by apply (vo_writable _ Hok).
  - intros c d Hc Hd. rewrite !Hpde. destruct (decide (c = i)) as [->|], (decide (d = i)) as [->|]; rewrite ?Hframe; try done.
    + intros _ Hp E. exfalso. by apply (Hgt d).
    + intros Hp _ E. exfalso. by apply (Hgt c).
    + by apply (vo_inj _ Hok).
  - destruct (vo_pdir _ Hok) as (H1 & H2 & H3). unfold PAGE_TABLE_BASE in *.
    rewrite tabled_entry; [done|done|done|]. unfold low_page. dlia.
Qed.
End Setup.

(** The table of an address is there. *)
Lemma setup_run s pd i flags : vm_ok s -> is_dir s pd -> 0 <= i < 1023 -> flags_ok flags ->
  setup_table pd i (ptable i) flags ~{ s }~>! FFatal \/
  exists s', setup_table pd i (ptable i) flags ~{ s }~> tt; s' /\ vm_ok s' /\ PML_present (pde s' i) = true /\
    (forall p, low_page p -> entry s' p = entry s p) /\ cr3 s' = cr3 s /\ cur_pdir s' = cur_pdir s /\ k_pdir s' = k_pdir s /\
    fa_limit (frames s') = fa_limit (frames s) /\
    (forall f, fa_used (frames s) f = true -> fa_used (frames s') f = true).
Proof.
  intros Hok Hpd Hi Hfl. destruct (PML_present (pde s i)) eqn:Ep.
  - right. exists s. split; [|done]. unfold setup_table.
    run (load_run _ _ _ _ (walk_pd s pd i Hok Hpd ltac:(lia))). fold (pde s i). by rewrite Ep.
  - destruct (setup_new s pd i flags Hok Hpd Hi Hfl Ep) as [Herr|(g & fr & Hr & Hfr & Hg & Hfree & Hlim & Hu)]; [by left|right].
    pose proof (unused_apart s g Hok Hfree) as Hap. exists (tabled s i flags g fr). split; [done|].
    split; [by apply tabled_ok|]. split_and!; try done.
    + rewrite tabled_pde, decide_True by (done || apply Hap). apply (written_pde s i flags Hok Hi Hfl g fr).
    + intros p Hp. by apply tabled_entry.
    + intros f Hf. change (fa_used fr f = true). by rewrite Hu, Hf, orb_true_r.
Qed.

(** *** Writing an entry *)
Definition written (s : vm) (p v : Z) : vm := put_pword s (PML_frame (pde s (p / 1024))) (p mod 1024) v.

Section Entry.
Context (s : vm) (p : Z) (Hok : vm_ok s) (Hp : low_page p) (Hpr : PML_present (pde s (p / 1024)) = true).
Notation page := (entry_ptr (ptable (p / 1024)) (p mod 1024)).

Lemma low_pde : 0 <= p / 1024 < 1023.
Proof. unfold low_page in Hp. dlia. Qed.
Lemma entry_present : entry s p = pword s (PML_frame (pde s (p / 1024))) (p mod 1024).
Proof. unfold entry. by rewrite Hpr. Qed.
Lemma entry_walk : translate_write s page = Some (PML_frame (pde s (p / 1024)), p mod 1024).
Proof. apply walk_table; [apply Hok|apply low_pde|done|apply (vo_writable _ Hok); [apply low_pde|done]|by apply Z.mod_pos_bound]. Qed.
Lemma entry_load : load page ~{ s }~> entry s p; s.
Proof. rewrite entry_present. apply load_run, entry_walk. Qed.
Lemma entry_store v : store page v ~{ s }~> tt; written s p v.
Proof. apply store_run, entry_walk. Qed.

Lemma written_pde' v i : pde (written s p v) i = pde s i.
Proof.
  unfold pde, written. rewrite pword_put. change (directory (put_pword _ _ _ _)) with (directory s).
  destruct (vo_table _ Hok _ low_pde Hpr) as [_ Hn]. rewrite bool_decide_false; [done|]. intros [E _]. by rewrite <- E in Hn.
Qed.
Lemma written_entry v q : low_page q -> entry (written s p v) q = if decide (q = p) then v else entry s q.
Proof.
  intros Hq. unfold entry. rewrite written_pde'. destruct (decide (q = p)) as [->|Hne].
  - rewrite Hpr. unfold written. by rewrite pword_put, bool_decide_true.
  - destruct (PML_present (pde s (q / 1024))) eqn:E; [|done]. unfold written. rewrite pword_put, bool_decide_false; [done|].
    intros [E1 E2]. apply Hne. assert (q / 1024 = p / 1024).
    { apply (vo_inj _ Hok); try done; [unfold low_page in Hq; dlia|apply low_pde]. }
    rewrite (Z.div_mod q 1024), (Z.div_mod p 1024); lia.
Qed.
Lemma written_ok v : is_u32 v -> (p = cur_pdir s / 4096 -> PML_present v = true /\ PML_writable v = true /\ PML_frame v = directory s) -> vm_ok (written s p v).
Proof.
  intros Hv Hcur. pose proof (vo_pdir _ Hok) as (H1 & H2 & H3 & H4). pose proof (vo_rec _ Hok). pose proof (vo_dir _ Hok).
  assert (Hlc : low_page (cur_pdir s / 4096)) by (unfold low_page, PAGE_TABLE_BASE in *; dlia).
  split; change (directory (written s p v)) with (directory s); change (frames (written s p v)) with (frames s);
    change (cur_pdir (written s p v)) with (cur_pdir s).
  - apply Hok.
  - intros f i. unfold written. rewrite pword_put. case_bool_decide; [done|apply (vo_words _ Hok)].
  - done.
  - by rewrite written_pde'.
  - intros i Hi. rewrite written_pde'. by apply (vo_small _ Hok).
  - intros i Hi. rewrite written_pde'. by apply (vo_table _ Hok).
  - intros i Hi. rewrite written_pde'. by apply (vo_writable _ Hok).
  - intros i j Hi Hj. rewrite !written_pde'. by apply (vo_inj _ Hok).
  - rewrite written_entry by done. destruct (decide _) as [E|]; [|done]. destruct (Hcur (eq_sym E)). done.
Qed.
End Entry.

(** Other frames in use, and another frame cleared. *)
Lemma frames_ok' s fr g : vm_ok s -> fa_ok fr -> apart s g ->
  (forall f, fa_used (frames s) f = true -> f <> g -> fa_used fr f = true) -> vm_ok (s <| frames := fr |>).
Proof.
  intros [] Hfr [Hg1 Hg2] Hu. split; try done; [by apply Hu|]. intros i Hi Hp. destruct (vo_table0 i Hi Hp).
  split; [apply Hu; [done|by apply Hg2]|done].
Qed.
Lemma frames_ok s fr : vm_ok s -> fa_ok fr -> (forall f, fa_used (frames s) f = true -> fa_used fr f = true) ->
  vm_ok (s <| frames := fr |>).
Proof. intros Hok Hfr Hu. apply (frames_ok' s fr (-1)); [done|done|by apply minus_apart|]. intros f Hf _. by apply Hu. Qed.
Lemma cleared_pde s g i : apart s g -> pde (cleared s g) i = pde s i.
Proof. intros [Hg _]. unfold pde. rewrite pword_cleared, bool_decide_false; done. Qed.
Lemma cleared_entry s g p : apart s g -> low_page p -> entry (cleared s g) p = entry s p.
Proof.
  intros Hg Hp. unfold entry. rewrite cleared_pde by done. destruct (PML_present (pde s (p / 1024))) eqn:E; [|done].
  rewrite pword_cleared, bool_decide_false; [done|]. apply (proj2 Hg); [unfold low_page in Hp; dlia|done].
Qed.
Lemma cleared_ok s g : vm_ok s -> apart s g -> vm_ok (cleared s g).
Proof.
  intros Hok Hg. pose proof (vo_pdir _ Hok) as (H1 & H2 & H3 & H4). pose proof (vo_rec _ Hok). pose proof (vo_dir _ Hok).
  assert (Hlc : low_page (cur_pdir s / 4096)) by (unfold low_page, PAGE_TABLE_BASE in *; dlia).
  split; change (directory (cleared s g)) with (directory s); change (frames (cleared s g)) with (frames s);
    change (cur_pdir (cleared s g)) with (cur_pdir s).
  - apply Hok.
  - intros f i. rewrite pword_cleared. case_bool_decide; [done|apply (vo_words _ Hok)].
  - done.
  - by rewrite cleared_pde.
  - intros i Hi. rewrite cleared_pde by done. by apply (vo_small _ Hok).
  - intros i Hi. rewrite cleared_pde by done. by apply (vo_table _ Hok).
  - intros i Hi. rewrite cleared_pde by done. by apply (vo_writable _ Hok).
  - intros i j Hi Hj. rewrite !cleared_pde by done. by apply (vo_inj _ Hok).
  - by rewrite cleared_entry.
Qed.

Lemma cleared_apart s g f : apart s g -> apart s f -> apart (cleared s g) f.
Proof. intros Hg [H1 H2]. split; [done|]. intros c Hc. rewrite cleared_pde by done. by apply H2. Qed.
Lemma written_apart s p v g : vm_ok s -> low_page p -> PML_present (pde s (p / 1024)) = true -> apart s g -> apart (written s p v) g.
Proof. intros Hok Hp Hpr [H1 H2]. split; [done|]. intros c Hc. rewrite written_pde' by done. by apply H2. Qed.

(** *** The address space after an operation

    [s'] maps page [p] with the entry [v] and every other page as [s] does. *)
Record updated (s s' : vm) (p v : Z) : Prop := {
  up_ok : vm_ok s';
  up_entry : forall q, low_page q -> entry s' q = if decide (q = p) then v else entry s q;
  up_pdir : cur_pdir s' = cur_pdir s;
  up_limit : fa_limit (frames s') = fa_limit (frames s)
}.
Lemma updated_trans s s1 s2 p v1 v2 : updated s s1 p v1 -> updated s1 s2 p v2 -> updated s s2 p v2.
Proof.
  intros [] []. split; try congruence. intros q Hq. rewrite up_entry1, up_entry0 by done. by destruct (decide (q = p)).
Qed.

Section Steps.
Context (s : vm) (p : Z) (Hok : vm_ok s) (Hp : low_page p) (Hpr : PML_present (pde s (p / 1024)) = true).
Notation page := (entry_ptr (ptable (p / 1024)) (p mod 1024)).

Lemma step_written v : is_u32 v -> (p = cur_pdir s / 4096 -> PML_present v = true /\ PML_writable v = true /\ PML_frame v = directory s) ->
  updated s (written s p v) p v.
Proof. intros Hv Hc. split; try done; [by apply written_ok|intros q Hq; by apply written_entry]. Qed.
Lemma entry_range : is_u32 (entry s p).
Proof. unfold entry. rewrite Hpr. apply (vo_words _ Hok). Qed.

Lemma set_flags_run flags : vmm_page_set_flags page flags ~{ s }~> tt; written s p (with_flags (entry s p) flags).
Proof. unfold vmm_page_set_flags. run (entry_load s p Hok Hp Hpr). by apply entry_store. Qed.
Lemma set_frame_run g : set_frame page g ~{ s }~> tt; written s p (PML_set_frame (entry s p) g).
Proof. unfold set_frame. run (entry_load s p Hok Hp Hpr). by apply entry_store. Qed.

Lemma set_flags_updated flags : flags_ok flags -> updated s (written s p (with_flags (entry s p) flags)) p (with_flags (entry s p) flags).
Proof.
  intros Hfl. destruct (with_flags_access (entry s p) flags Hfl). apply step_written; [apply with_flags_range, entry_range|]. intros E.
  destruct (vo_pdir _ Hok) as (_ & _ & _ & _ & H4). rewrite with_flags_frame. by rewrite <- E in H4.
Qed.

(** Giving the page the frame [g] and then the flags. *)
Lemma map_frame_run g flags : p <> cur_pdir s / 4096 -> flags_ok flags -> exists s',
  (set_frame page g ;; vmm_page_set_flags page flags) ~{ s }~> tt; s' /\
  updated s s' p (with_flags (PML_set_frame (entry s p) g) flags) /\ (forall i, pde s' i = pde s i) /\ frames s' = frames s /\ cr3 s' = cr3 s.
Proof.
  intros Hne Hfl. set (v1 := PML_set_frame (entry s p) g). pose proof (step_written v1 (set_frame_range _ _) ltac:(done)) as Hu1.
  pose proof (up_ok _ _ _ _ Hu1) as Hok1.
  assert (Hpr1 : PML_present (pde (written s p v1) (p / 1024)) = true) by (by rewrite written_pde').
  assert (Ee : entry (written s p v1) p = v1) by (rewrite written_entry by done; by rewrite decide_True).
  exists (written (written s p v1) p (with_flags v1 flags)). split_and!; try done.
  - run (set_frame_run g). unfold vmm_page_set_flags. run (entry_load (written s p v1) p Hok1 Hp Hpr1). rewrite Ee.
    exact (entry_store (written s p v1) p Hok1 Hp Hpr1 (with_flags v1 flags)).
  - eapply updated_trans; [exact Hu1|]. split; try done.
    + apply written_ok; try done. apply with_flags_range, set_frame_range.
    + intros q Hq. by apply written_entry.
  - intros i. by rewrite !written_pde'.
Qed.
End Steps.

(** ** What the operations do *)

(** The page of an address below the recursive mapping. *)
Lemma low_addr va : 0 <= va < PAGE_TABLE_BASE -> is_u32 va /\ low_page (va / 4096) /\
  va / 4194304 = va / 4096 / 1024 /\ 0 <= va / 4194304 < 1023.
Proof. unfold PAGE_TABLE_BASE, low_page, is_u32. intros Hva. split_and!; dlia. Qed.

Lemma map_page_run s va pa flags : vm_ok s -> 0 <= va < PAGE_TABLE_BASE -> va / 4096 <> cur_pdir s / 4096 ->
  0 <= pa / 4096 < fa_limit (frames s) -> flags_ok flags ->
  let v := with_flags (PML_set_frame (entry s (va / 4096)) (pa / 4096)) flags in
  vmm_map_page va pa flags ~{ s }~>! FFatal \/
  exists s' page, vmm_map_page va pa flags ~{ s }~> page; s' /\ page <> NULL /\ updated s s' (va / 4096) v.
Proof.
  intros Hok Hva Hne Hpa Hfl v. destruct (low_addr va Hva) as (Hu & Hlow & Hdiv & Hi). unfold vmm_map_page. cbv zeta.
  unfold vmm_get_directory. rewrite (bind_ok (gets _) _ s (cur_pdir s) s eq_refl). run (r_ptable_eq va s Hu).
  rewrite pd_entry_eq, pt_entry_eq by done.
  destruct (setup_run s (cur_pdir s) (va / 4194304) flags Hok ltac:(by right) Hi Hfl)
    as [Herr|(s1 & Hr & Hok1 & Hpr & He & Hcr & Hcp & _ & Hlim & Hus)]; [left; by apply bind_err|right].
  run Hr. run (load_run _ _ _ _ (walk_pd s1 (cur_pdir s) (va / 4194304) Hok1 ltac:(right; congruence) ltac:(lia))).
  fold (pde s1 (va / 4194304)). rewrite (vo_small _ Hok1) by done. rewrite Hdiv in Hpr |- *.
  run (entry_load s1 (va / 4096) Hok1 Hlow Hpr).
  destruct (fa_mark_law (frames s1) pa (vo_frames _ Hok1) ltac:(by rewrite Hlim)) as (fr & Hm & Hfr & Hlim2 & Hmu).
  set (s2 := s1 <| frames := fr |>).
  assert (Hok2 : vm_ok s2) by (apply frames_ok; [done|done|]; intros f Hf; by rewrite Hmu, Hf, orb_true_r).
  destruct (map_frame_run s2 (va / 4096) Hok2 Hlow Hpr (pa / 4096) flags) as (s3 & Hr3 & Hu3 & _); [by rewrite <- Hcp in Hne|done|].
  unfold vmm_page_map_addr. rewrite bind_assoc. rewrite (bind_ok (in_pmm _) _ s1 tt s2) by (unfold in_pmm, zoom; by rewrite Hm).
  rewrite Z.shiftr_div_pow2 by lia. run Hr3. eexists _, _. split; [reflexivity|]. split.
  - unfold entry_ptr, ptable, NULL. rewrite u32_small by dlia. dlia.
  - destruct Hu3 as [U1 U2 U3 U4]. change (entry s2) with (entry s1) in *. rewrite (He _ Hlow) in U2. split; try done.
    + intros q Hq. rewrite U2 by done. by rewrite He.
    + rewrite U3. exact Hcp.
    + rewrite U4. change (fa_limit fr = fa_limit (frames s)). congruence.
Qed.

(** The page is there already: it only gets the flags. Otherwise it gets a frame
    that was not in use, filled with zeros. *)
Record created (s s' : vm) (p flags : Z) : Prop := {
  cd_ok : vm_ok s';
  cd_others : forall q, low_page q -> q <> p -> entry s' q = entry s q;
  cd_old : PML_present (entry s p) = true -> entry s' p = with_flags (entry s p) flags;
  cd_new : PML_present (entry s p) = false -> exists g, 0 < g < fa_limit (frames s) /\ fa_used (frames s) g = false /\ fa_used (frames s') g = true /\
    apart s' g /\ entry s' p = with_flags (PML_set_frame (entry s p) g) flags /\ PML_frame (entry s' p) = g /\
    forall j, pword s' g j = 0;
  cd_pdir : cur_pdir s' = cur_pdir s;
  cd_limit : fa_limit (frames s') = fa_limit (frames s);
  cd_used : forall f, fa_used (frames s) f = true -> fa_used (frames s') f = true
}.

Lemma with_flags_twice raw flags : with_flags (with_flags raw flags) flags = with_flags raw flags.
Proof. unfold with_flags. by rewrite <- Z.lor_assoc, Z.lor_diag. Qed.

(** A frame that was not in use, given to the page and cleared. *)
Lemma filled_created s s2 p flags g : let v := with_flags (PML_set_frame (entry s p) g) flags in
  low_page p -> updated s s2 p v -> apart s2 g -> PML_present (pde s2 (p / 1024)) = true -> flags_ok flags -> 0 < g < 1048576 ->
  PML_present (entry s p) = false -> fa_used (frames s) g = false -> fa_used (frames s2) g = true -> g < fa_limit (frames s) ->
  (forall f, fa_used (frames s) f = true -> fa_used (frames s2) f = true) -> created s (written (cleared s2 g) p v) p flags.
Proof.
  intros v Hlow Hu2 Hap Hpr2 Hfl Hg Habs Hfree Hused Hgl Hmono. pose proof Hu2 as [U1 U2 U3 U4]. pose proof (cleared_ok s2 g U1 Hap) as Hok3.
  assert (Hpr3 : PML_present (pde (cleared s2 g) (p / 1024)) = true) by (by rewrite cleared_pde).
  assert (Ee3 : entry (cleared s2 g) p = v) by (by rewrite cleared_entry, U2, decide_True).
  pose proof (set_flags_updated (cleared s2 g) p Hok3 Hlow Hpr3 flags Hfl) as Hu4. rewrite Ee3 in Hu4. unfold v in Hu4. 
  rewrite with_flags_twice in Hu4. fold v in Hu4. destruct Hu4 as [V1 V2 V3 V4].
  assert (Hev : entry (written (cleared s2 g) p v) p = v) by (by rewrite V2, decide_True).
  split; try done.
  - intros q Hq Hne. by rewrite V2, decide_False, cleared_entry, U2, decide_False.
  - congruence.
  - intros _. exists g. rewrite Hev. split_and!; try done; [lia|by apply written_apart, cleared_apart|unfold v; rewrite with_flags_frame, set_frame_frame; done || lia|].
    intros j. unfold written. rewrite pword_put, cleared_pde by done. rewrite bool_decide_false.
    + rewrite pword_cleared, bool_decide_true; done.
    + intros [E _]. apply (proj2 Hap (p / 1024)); [unfold low_page in Hlow; dlia|done|done].
Qed.

(** The part of [vmm_create_page] after the table is in place. *)
Lemma fill_run s va flags : vm_ok s -> 0 <= va < PAGE_TABLE_BASE -> flags_ok flags -> PML_present (pde s (va / 4096 / 1024)) = true ->
  let p := va / 4096 in let page := entry_ptr (ptable (p / 1024)) (p mod 1024) in
  let body := fill_page page (ALIGN_DOWN va) flags in
  body ~{ s }~>! FFatal \/ exists s', body ~{ s }~> tt; s' /\ created s s' p flags.
Proof.
  intros Hok Hva Hfl Hpr p page body. destruct (low_addr va Hva) as (Hu & Hlow & _ & _). fold p in Hlow, Hpr. unfold body, fill_page.
  pose proof (entry_load s p Hok Hlow Hpr) as Hld. run Hld. destruct (PML_present (entry s p)) eqn:Ee; cbn [negb].
  - right. pose proof (set_flags_updated s p Hok Hlow Hpr flags Hfl) as [U1 U2 U3 U4].
    eexists. split; [apply (set_flags_run s p Hok Hlow Hpr)|]. split; try done.
    + intros q Hq Hne. by rewrite U2, decide_False.
    + intros _. by rewrite U2, decide_True.
    + congruence.
  - assert (Hne : p <> cur_pdir s / 4096) by (intros E; destruct (vo_pdir _ Hok) as (_ & _ & H3 & _); rewrite <- E in H3; congruence).
    unfold vmm_page_allocate. rewrite !bind_assoc. run Hld. rewrite Ee. cbn [negb]. rewrite !bind_assoc.
    destruct (pmm_alloc_run s (vo_frames _ Hok)) as [Herr|(g & fr & Hr & Hfr & [Hg Hgl] & Hfree & Hlim & Hus)]; [left; by apply bind_err|right].
    run Hr. set (s1 := s <| frames := fr |>).
    assert (Hmono : forall f, fa_used (frames s) f = true -> fa_used fr f = true) by (intros f Hf; by rewrite Hus, Hf, orb_true_r).
    assert (Hok1 : vm_ok s1) by (by apply frames_ok).
    destruct (map_frame_run s1 p Hok1 Hlow Hpr g flags Hne Hfl) as (s2 & Hr2 & [U1 U2 U3 U4] & Hpde2 & Hf2 & Hcr2).
    change (entry s1) with (entry s) in *. set (v := with_flags (PML_set_frame (entry s p) g) flags) in *.
    assert (Hap : apart s2 g).
    { destruct (unused_apart s g Hok Hfree) as [H1 H2]. split; [unfold directory; by rewrite Hcr2|].
      intros c Hc. rewrite Hpde2. by apply H2. }
    assert (Hpr2 : PML_present (pde s2 (p / 1024)) = true) by (by rewrite Hpde2).
    assert (Hcd : created s (written (cleared s2 g) p v) p flags).
    { apply filled_created; try done; [by split; [done|done|done|rewrite U4]|by rewrite Hf2; cbn; rewrite Hus, bool_decide_true|by rewrite Hf2]. }
    rewrite <- (bind_assoc (set_frame page g)). rewrite (bind_ok _ _ _ _ _ Hr2).
    assert (Htr : translate_write s2 (ALIGN_DOWN va) = Some (g, ALIGN_DOWN va / 4 mod 1024)).
    { rewrite ALIGN_DOWN_eq by done. rewrite translate_write_entry by (done || unfold PAGE_TABLE_BASE in *; dlia).
      replace (va / 4096 * 4096 / 4096) with p by (unfold p; dlia). rewrite U2, decide_True by done. unfold v.
      destruct (with_flags_access (PML_set_frame (entry s p) g) flags Hfl) as [-> ->]. by rewrite with_flags_frame, set_frame_frame by lia. }
    run (clear_run _ _ _ _ Htr). eexists. split; [|exact Hcd].
    rewrite (set_flags_run (cleared s2 g) p (cleared_ok s2 g U1 Hap) Hlow) by (by rewrite cleared_pde).
    rewrite cleared_entry, U2, decide_True by done. unfold v. by rewrite with_flags_twice.
Qed.

Lemma create_run s va flags : vm_ok s -> 0 <= va < PAGE_TABLE_BASE -> flags_ok flags ->
  vmm_create_page va flags ~{ s }~>! FFatal \/
  exists s' page, vmm_create_page va flags ~{ s }~> page; s' /\ page <> NULL /\ created s s' (va / 4096) flags.
Proof.
  intros Hok Hva Hfl. destruct (low_addr va Hva) as (Hu & Hlow & Hdiv & Hi). unfold vmm_create_page. cbv zeta.
  unfold vmm_r_get_directory. rewrite bind_ret_l. run (r_ptable_eq va s Hu). rewrite pd_entry_eq, pt_entry_eq by done.
  destruct (setup_run s PAGE_DIRECTORY_VIRT (va / 4194304) flags Hok ltac:(by left) Hi Hfl)
    as [Herr|(s1 & Hr & Hok1 & Hpr & He & Hcr & Hcp & _ & Hlim & Hus)]; [left; by apply bind_err|].
  run Hr. run (load_run _ _ _ _ (walk_pd s1 PAGE_DIRECTORY_VIRT (va / 4194304) Hok1 ltac:(by left) ltac:(lia))).
  fold (pde s1 (va / 4194304)). rewrite (vo_small _ Hok1) by done. rewrite Hdiv in Hpr |- *.
  destruct (fill_run s1 va flags Hok1 Hva Hfl Hpr) as [Herr|(s2 & Hr2 & [C1 C2 C3 C4 C5 C6 C7])]; [left; by apply bind_err|right].
  run Hr2. eexists _, _. split; [reflexivity|]. split; [unfold entry_ptr, ptable, NULL; rewrite u32_small by dlia; dlia|].
  rewrite He in C3, C4 by done. split; try congruence; try done.
  - intros q Hq Hne. by rewrite C2, He.
  - intros Hab. destruct (C4 Hab) as (g & Hg & Hf & Hrest). exists g. split; [by rewrite <- Hlim|]. split; [|done].
    destruct (fa_used (frames s) g) eqn:E; [|done]. by rewrite (Hus _ E) in Hf.
  - intros f Hf. by apply C7, Hus.
Qed.

(** The lookup that unmapping and freeing start with. *)
Lemma lookup_run {B} s va (k1 : M vm B) (k2 : Z -> Z -> M vm B) : vm_ok s -> 0 <= va < PAGE_TABLE_BASE ->
  (pd ← vmm_get_directory; pt ← vmm_r_get_ptable (ALIGN_DOWN va);
   pde ← load (entry_ptr pd (pd_entry (ALIGN_DOWN va)));
   if negb (PML_present pde) then k1
   else pte ← load (entry_ptr pt (pt_entry (ALIGN_DOWN va))); k2 (entry_ptr pt (pt_entry (ALIGN_DOWN va))) pte) s =
  if PML_present (pde s (va / 4096 / 1024))
  then k2 (entry_ptr (ptable (va / 4096 / 1024)) (va / 4096 mod 1024)) (entry s (va / 4096)) s else k1 s.
Proof.
  intros Hok Hva. destruct (low_addr va Hva) as (Hu & Hlow & Hdiv & Hi). unfold vmm_get_directory.
  rewrite (bind_ok (gets _) _ s (cur_pdir s) s eq_refl). run (r_ptable_eq va s Hu). rewrite pd_entry_eq, pt_entry_eq by done.
  run (load_run _ _ _ _ (walk_pd s (cur_pdir s) (va / 4194304) Hok ltac:(by right) ltac:(lia))). fold (pde s (va / 4194304)).
  rewrite Hdiv. destruct (PML_present (pde s (va / 4096 / 1024))) eqn:E; cbn [negb]; [|done].
  by run (entry_load s (va / 4096) Hok Hlow E).
Qed.
Lemma entry_no_table s p : PML_present (pde s (p / 1024)) = false -> entry s p = 0.
Proof. intros E. unfold entry. by rewrite E. Qed.
Lemma updated_same s p v : vm_ok s -> v = entry s p -> updated s s p v.
Proof. intros Hok ->. split; try done. intros q Hq. by destruct (decide (q = p)) as [->|]. Qed.

Lemma unmap_page_run s va : vm_ok s -> 0 <= va < PAGE_TABLE_BASE -> va / 4096 <> cur_pdir s / 4096 ->
  exists s', vmm_unmap_page va ~{ s }~> tt; s' /\
    updated s s' (va / 4096) (if PML_present (entry s (va / 4096)) then 0 else entry s (va / 4096)).
Proof.
  intros Hok Hva Hne. destruct (low_addr va Hva) as (_ & Hlow & _ & _). unfold vmm_unmap_page. cbv zeta.
  rewrite (lookup_run s va (mret tt) (fun page pte => if negb (PML_present pte) then mret tt else store page 0)) by done.
  destruct (PML_present (pde s (va / 4096 / 1024))) eqn:E.
  - destruct (PML_present (entry s (va / 4096))) eqn:Ee; cbn [negb].
    + eexists. split; [by apply entry_store|]. by apply step_written.
    + exists s. split; [done|]. by apply updated_same.
  - exists s. split; [done|]. apply updated_same; [done|]. by rewrite entry_no_table.
Qed.

(** A page whose frame can be given back: it is not one of the tables'. *)
Lemma free_page_run s va : vm_ok s -> 0 <= va < PAGE_TABLE_BASE -> va / 4096 <> cur_pdir s / 4096 ->
  let e := entry s (va / 4096) in
  (PML_present e = true -> 0 < PML_frame e < fa_limit (frames s) /\ apart s (PML_frame e)) ->
  exists s', vmm_free_page va ~{ s }~> tt; s' /\ updated s s' (va / 4096) (if PML_present e then 0 else e) /\
    forall f, fa_used (frames s') f = negb (PML_present e && bool_decide (f = PML_frame e)) && fa_used (frames s) f.
Proof.
  intros Hok Hva Hne e Hfr. destruct (low_addr va Hva) as (_ & Hlow & _ & _). unfold vmm_free_page. cbv zeta.
  rewrite (lookup_run s va (mret tt) (fun page pte => if negb (PML_present pte) then mret tt else in_pmm (fa_free pte) ;; store page 0)) by done.
  fold e. destruct (PML_present (pde s (va / 4096 / 1024))) eqn:E.
  - destruct (PML_present e) eqn:Ee; cbn [negb].
    + destruct (Hfr eq_refl) as [Hrange Hap].
      assert (Hdiv : e / 4096 = PML_frame e) by (unfold PML_frame; by rewrite Z.shiftr_div_pow2 by lia).
      destruct (fa_free_law (frames s) e (vo_frames _ Hok) ltac:(by rewrite Hdiv)) as (fr & Hr & Hok' & Hlim & Hu).
      rewrite Hdiv in Hu. set (s1 := s <| frames := fr |>).
      assert (Hok1 : vm_ok s1) by (by apply (frames_ok' s fr (PML_frame e)); try done; intros f Hf Hn; rewrite Hu, Hf, bool_decide_false).
      rewrite (bind_ok (in_pmm _) _ s tt s1) by (unfold in_pmm, zoom; by rewrite Hr).
      eexists. split; [by apply (entry_store s1)|]. destruct (step_written s1 (va / 4096) Hok1 Hlow E 0) as [U1 U2 U3 U4]; [done|done|].
      split; [split; try done; by rewrite U4|]. intros f. change (fa_used fr f = negb (true && bool_decide (f = PML_frame e)) && fa_used (frames s) f).
      by rewrite Hu.
    + exists s. split; [done|]. split; [by apply updated_same|done].
  - exists s. split; [done|]. assert (e = 0) as -> by (by apply entry_no_table). split; [|done]. apply updated_same; [done|].
    symmetry. by apply entry_no_table.
Qed.

Lemma get_page_run s va : vm_ok s -> 0 <= va < PAGE_TABLE_BASE -> exists page, vmm_get_page va ~{ s }~> page; s /\
  negb (page =? NULL) = PML_present (entry s (va / 4096)).
Proof.
  intros Hok Hva. destruct (low_addr va Hva) as (Hu & Hlow & Hdiv & Hi). unfold vmm_get_page. cbv zeta.
  unfold vmm_r_get_directory. rewrite bind_ret_l. run (r_ptable_eq va s Hu). rewrite pd_entry_eq, pt_entry_eq by done.
  run (load_run _ _ _ _ (walk_pd s PAGE_DIRECTORY_VIRT (va / 4194304) Hok ltac:(by left) ltac:(lia))).
  fold (pde s (va / 4194304)). rewrite Hdiv. destruct (PML_present (pde s (va / 4096 / 1024))) eqn:E; cbn [negb].
  - rewrite (vo_small _ Hok) by (by rewrite <- Hdiv). run (entry_load s (va / 4096) Hok Hlow E).
    destruct (PML_present (entry s (va / 4096))); cbn [negb]; eexists; (split; [reflexivity|]); [|done].
    apply negb_true_iff, Z.eqb_neq. unfold entry_ptr, ptable, NULL. rewrite u32_small by dlia. dlia.
  - eexists. split; [reflexivity|]. by rewrite entry_no_table.
Qed.

(** ** The address space as a map

    What mapping, unmapping and looking up mean for the map from pages to
    entries. *)
Inductive vm_op : Type := VMap (va pa flags : Z) | VUnmap (va : Z) | VGet (va : Z).
Fixpoint vm_session (ops : list vm_op) : M vm (list bool) :=
  match ops with
  | [] => mret []
  | VMap va pa flags :: ops => page ← vmm_map_page va pa flags; rs ← vm_session ops; mret (negb (page =? NULL) :: rs)
  | VUnmap va :: ops => vmm_unmap_page va ;; rs ← vm_session ops; mret (true :: rs)
  | VGet va :: ops => page ← vmm_get_page va; rs ← vm_session ops; mret (negb (page =? NULL) :: rs)
  end.

Definition upd (e : Z -> Z) (p v : Z) : Z -> Z := fun q => if decide (q = p) then v else e q.
Definition vm_spec (o : vm_op) (e : Z -> Z) : bool * (Z -> Z) :=
  match o with
  | VMap va pa flags => (true, upd e (va / 4096) (with_flags (PML_set_frame (e (va / 4096)) (pa / 4096)) flags))
  | VUnmap va => (true, upd e (va / 4096) (if PML_present (e (va / 4096)) then 0 else e (va / 4096)))
  | VGet va => (PML_present (e (va / 4096)), e)
  end.
Fixpoint vm_specs (ops : list vm_op) (e : Z -> Z) : list bool * (Z -> Z) :=
  match ops with
  | [] => ([], e)
  | o :: ops => let r := vm_spec o e in let rs := vm_specs ops r.2 in (r.1 :: rs.1, rs.2)
  end.

(** Addresses below the recursive mapping; the page of the directory itself must
    not be touched and the frames must exist. *)
Definition vop_ok (s : vm) (o : vm_op) : Prop :=
  match o with
  | VMap va pa flags => 0 <= va < PAGE_TABLE_BASE /\ va / 4096 <> cur_pdir s / 4096 /\ 0 <= pa / 4096 < fa_limit (frames s) /\ flags_ok flags
  | VUnmap va => 0 <= va < PAGE_TABLE_BASE /\ va / 4096 <> cur_pdir s / 4096
  | VGet va => 0 <= va < PAGE_TABLE_BASE
  end.
Lemma vop_ok_same s s' o : cur_pdir s' = cur_pdir s -> fa_limit (frames s') = fa_limit (frames s) -> vop_ok s o -> vop_ok s' o.
Proof. intros Ec El. destruct o; cbn; by rewrite ?Ec, ?El. Qed.

Lemma vm_specs_ext ops : forall e e', Forall (fun o => match o with VMap va _ _ | VUnmap va | VGet va => 0 <= va < PAGE_TABLE_BASE end) ops ->
  (forall p, low_page p -> e p = e' p) ->
  (vm_specs ops e).1 = (vm_specs ops e').1 /\ forall p, low_page p -> (vm_specs ops e).2 p = (vm_specs ops e').2 p.
Proof.
  induction ops as [|o ops IH]; intros e e' Hops He; [done|]. apply Forall_cons in Hops as [Ho Hops]. cbn [vm_specs].
  assert (H1 : (vm_spec o e).1 = (vm_spec o e').1 /\ forall p, low_page p -> (vm_spec o e).2 p = (vm_spec o e').2 p).
  { destruct o as [va pa fl|va|va]; cbn in *; destruct (low_addr va Ho) as (_ & Hlow & _); rewrite (He _ Hlow);
      (split; [done|]); intros p Hp; unfold upd; try destruct (decide _); auto. }
  destruct H1 as [H1 H2]. destruct (IH _ _ Hops H2) as [I1 I2]. cbn. split; [by rewrite H1, I1|exact I2].
Qed.

(** One operation. *)
Lemma vm_step_run s o : vm_ok s -> vop_ok s o ->
  vm_session [o] ~{ s }~>! FFatal \/
  exists s', vm_session [o] ~{ s }~> [(vm_spec o (entry s)).1]; s' /\ vm_ok s' /\ cur_pdir s' = cur_pdir s /\
    fa_limit (frames s') = fa_limit (frames s) /\ forall p, low_page p -> entry s' p = (vm_spec o (entry s)).2 p.
Proof.
  intros Hok Ho. destruct o as [va pa fl|va|va]; cbn [vm_session vop_ok vm_spec fst snd] in *.
  - destruct Ho as (Hva & Hne & Hpa & Hfl). destruct (map_page_run s va pa fl Hok Hva Hne Hpa Hfl) as [Herr|(s' & page & Hr & Hp & [])];
      [left; by apply bind_err|right]. exists s'. split; [run Hr; by rewrite (proj2 (Z.eqb_neq _ _) Hp)|done].
  - destruct Ho as (Hva & Hne). destruct (unmap_page_run s va Hok Hva Hne) as (s' & Hr & []). right. exists s'. split; [by run Hr|done].
  - destruct (get_page_run s va Hok Ho) as (page & Hr & Hp). right. exists s. split; [run Hr; by rewrite Hp|done].
Qed.
Lemma vm_session_cons o ops s : vm_session (o :: ops) s = (rs1 ← vm_session [o]; rs ← vm_session ops; mret (rs1 ++ rs)) s.
Proof.
  destruct o as [va pa fl|va|va]; cbn [vm_session]; unfold mbind, M_bind, mret, M_ret; cbn.
  - by destruct (vmm_map_page va pa fl s) as [[]|].
  - by destruct (vmm_unmap_page va s) as [[]|].
  - by destruct (vmm_get_page va s) as [[]|].
Qed.

Lemma vop_range s ops : Forall (vop_ok s) ops ->
  Forall (fun o => match o with VMap va _ _ | VUnmap va | VGet va => 0 <= va < PAGE_TABLE_BASE end) ops.
Proof. intros Hops. eapply Forall_impl; [exact Hops|]. intros []; cbn; tauto. Qed.

(** C5: the page tables implement a map from pages to entries. After any sequence
    of mappings, unmappings and lookups below the recursive mapping, each has
    returned what the map says, the tables are well formed, the entries are those
    of the map, and the machine translates every address accordingly, for reading
    and, with CR0.WP set, for writing. The only failure is that no frame is left for a
    table. It starts with well-formed tables ([vm_ok]); the pages are mapped to frames
    that exist with the flags of present, writable pages of 4 KiB, which are added to
    those of the entry, and the page the directory is seen at is left alone
    ([vop_ok]). *)
Theorem address_space_refines ops : forall s, vm_ok s -> Forall (vop_ok s) ops ->
  let e := (vm_specs ops (entry s)).2 in
  vm_session ops ~{ s }~>! FFatal \/
  exists s', vm_session ops ~{ s }~> (vm_specs ops (entry s)).1; s' /\ vm_ok s' /\
    (forall p, low_page p -> entry s' p = e p) /\
    forall va, 0 <= va < PAGE_TABLE_BASE -> let v := e (va / 4096) in
      translate s' va = (if PML_present v then Some (PML_frame v, va / 4 mod 1024) else None) /\
      translate_write s' va = if PML_present v && PML_writable v then Some (PML_frame v, va / 4 mod 1024) else None.
Proof.
  induction ops as [|o ops IH]; intros s Hok Hops.
  { right. exists s. split_and!; try done. intros va Hva v. split; [by apply translate_entry|by apply translate_write_entry]. }
  apply Forall_cons in Hops as [Ho Hops]. cbn [vm_specs]. rewrite vm_session_cons.
  destruct (vm_step_run s o Hok Ho) as [Herr|(s1 & Hr & Hok1 & Hc & Hl & He)]; [left; by apply bind_err|].
  assert (Hops1 : Forall (vop_ok s1) ops) by (eapply Forall_impl; [exact Hops|]; intros o'; by apply vop_ok_same).
  destruct (vm_specs_ext ops (entry s1) (vm_spec o (entry s)).2 (vop_range s ops Hops) He) as [E1 E2].
  destruct (IH s1 Hok1 Hops1) as [Herr|(s2 & Hr2 & Hok2 & He2 & Ht2)].
  - left. run Hr. by apply bind_err.
  - right. exists s2. cbn [fst snd]. split; [run Hr; run Hr2; by rewrite E1|]. split; [done|]. split.
    + intros p Hp. by rewrite He2, E2.
    + intros va Hva. rewrite <- E2 by (by apply low_addr). by apply Ht2.
Qed.

(** C29: [vmm_create_page] makes the page of an address accessible whose page table is
    there: a page that is there only gets the flags, a page that is not gets a frame
    that nobody used, filled with zeros. No other page changes, and the only failure
    is that no frame is left. The address is below the recursive mapping, the tables
    are well formed ([vm_ok]) and the flags are those of a present, writable page of
    4 KiB: a page that is read-only cannot be cleared with CR0.WP set. (When the page
    table is missing the code makes it with the same flags, [create_run]; the doc
    comment says it gets the user bits, and only with MMU_GET_MAKE.) *)
Theorem create_page_correct s va flags : vm_ok s -> 0 <= va < PAGE_TABLE_BASE -> flags_ok flags ->
  PML_present (pde s (va / 4194304)) = true ->
  vmm_create_page va flags ~{ s }~>! FFatal \/
  exists s' page, vmm_create_page va flags ~{ s }~> page; s' /\ page <> NULL /\ created s s' (va / 4096) flags.
Proof. intros Hok Hva Hfl _. by apply create_run. Qed.

(** Creating a page that was not there and freeing it again leaves every page
    as it was, and gives the page's frame back: what is in use afterwards is what
    was in use before and the frame of a table that had to be added. *)
Theorem create_free_roundtrip s va flags s1 page : vm_ok s -> 0 <= va < PAGE_TABLE_BASE -> flags_ok flags ->
  PML_present (entry s (va / 4096)) = false -> vmm_create_page va flags ~{ s }~> page; s1 ->
  exists g s2, PML_frame (entry s1 (va / 4096)) = g /\ fa_used (frames s) g = false /\ fa_used (frames s1) g = true /\
    vmm_free_page va ~{ s1 }~> tt; s2 /\ vm_ok s2 /\
    (forall q, low_page q -> PML_present (entry s2 q) = PML_present (entry s q) /\ (q <> va / 4096 -> entry s2 q = entry s q)) /\
    forall f, fa_used (frames s2) f = negb (bool_decide (f = g)) && fa_used (frames s1) f.
Proof.
  intros Hok Hva Hfl Habs Hr. destruct (create_run s va flags Hok Hva Hfl) as [Herr|(s1' & page' & Hr' & _ & Hcd)]; [congruence|].
  rewrite Hr in Hr'. injection Hr' as <- <-. destruct Hcd as [C1 C2 _ C4 C5 C6 _].
  destruct (C4 Habs) as (g & Hg & Hf & Hu & Hap & He & Hef & _). destruct (low_addr va Hva) as (_ & Hlow & _).
  assert (Hp1 : PML_present (entry s1 (va / 4096)) = true).
  { rewrite He. by apply with_flags_access. }
  assert (Hne : va / 4096 <> cur_pdir s1 / 4096).
  { rewrite C5. intros E. destruct (vo_pdir _ Hok) as (_ & _ & H3 & _). rewrite <- E in H3. congruence. }
  destruct (free_page_run s1 va C1 Hva Hne) as (s2 & Hr2 & [U1 U2 _ _] & Hus); [intros _; rewrite Hef, C6; done|].
  rewrite Hp1 in U2, Hus. rewrite Hef in Hus. cbn [andb] in Hus.
  exists g, s2. split_and!; try done. intros q Hq. rewrite U2 by done. case_decide as Hqp; [by subst q; rewrite Habs|by rewrite C2].
Qed.

(** ** Pages for the kernel heap *)
Definition mapped (s : vm) (p : Z) : bool := bool_decide (low_page p) && (PML_present (entry s p) && PML_writable (entry s p)).

Lemma created_mapped s s' p flags q : low_page p -> flags_ok flags -> created s s' p flags ->
  mapped s' q = bool_decide (q = p) || mapped s q.
Proof.
  intros Hp Hfl [C1 C2 C3 C4 _ _ _]. unfold mapped. case_bool_decide as Hq.
  - case_bool_decide as E; [subst q|by rewrite C2]. cbn [andb orb].
    destruct (PML_present (entry s p)) eqn:Ee.
    + rewrite C3 by done. by destruct (with_flags_access (entry s p) flags Hfl) as [-> ->].
    + destruct (C4 eq_refl) as (g & _ & _ & _ & _ & -> & _). by destruct (with_flags_access (PML_set_frame (entry s p) g) flags Hfl) as [-> ->].
  - rewrite bool_decide_false; [done|]. by intros ->.
Qed.

End Vmm.
Arguments vm : clear implicits.

(** [vmm_create_page] as the heap calls it. *)
#[export] Instance page_tables {St} `{FrameAllocator St} : PageMapper (vm St).
Proof.
  refine {| pm_create := fun a flags => _ ← vmm_create_page a flags; mret tt; pm_mapped := mapped; pm_ok := vm_ok;
            pm_good := fun a flags => a < PAGE_TABLE_BASE /\ flags_ok flags |}.
  abstract (intros v a flags Hok Ha [Hlt Hfl]; unfold is_u32 in Ha;
    destruct (create_run v a flags Hok ltac:(lia) Hfl) as [Herr|(s' & page & Hr & _ & Hcd)]; [left; by apply bind_err|right];
    exists s'; split; [by run Hr|]; split; [apply Hcd|]; intros p; apply created_mapped with flags; [apply (low_addr a); lia|done|done]).
Defined.

(** The kernel heap asks these page tables for its pages: whatever its callers do
    (within [Kheap.allowed]), the page tables are still well formed and the machine lets
    the kernel write at every address of every block in use. (The words of the heap
    are kept in a memory of their own beside the page tables.) *)
Theorem heap_on_page_tables {St} `{FrameAllocator St} es (h : Kheap.heap (vm St)) al sh :
  Kheap.heap_ok h al -> Kheap.shadow_ok h al sh -> Kheap.allowed es al sh h = true ->
  Kheap.session es al sh ~{ h }~>! FFatal \/
  exists al' sh' h', Kheap.session es al sh ~{ h }~> (al', sh'); h' /\ vm_ok (Kheap.h_vm h') /\
    forall p n x, al' !! p = Some n -> p <= x < p + n -> exists f, translate_write (Kheap.h_vm h') x = Some (f, x / 4 mod 1024).
Proof.
  intros Hok Hsh Ha. destruct (Kheap.session_run es h al sh Hok Hsh Ha) as [Herr|(al' & sh' & h' & Hrun & Hok' & _)]; [by left|right].
  exists al', sh', h'. split; [exact Hrun|].
  pose proof Hok' as (bs & fl & Hi & _). pose proof (Kheap.hi_arena _ _ _ Hi) as Har. split; [apply (Kheap.ar_vm _ _ Har)|].
  intros p n x Hp Hx. destruct (Kheap.heap_ok_disjoint h' al' p n p n Hok' Hp Hp) as (_ & Hlo & Hhi & _).
  pose proof (Kheap.ar_base _ _ Har) as [Hb _]. pose proof (Kheap.ar_top _ _ Har) as Htop.
  destruct (Kheap.ar_good _ _ Har x ltac:(lia)) as [Hlt _].
  pose proof (Kheap.ar_mapped _ _ Har (x / 4096) ltac:(split; [apply Z.div_le_mono; lia|apply Z.div_le_mono; lia])) as Hm.
  cbn in Hm. unfold mapped in Hm. apply andb_true_iff in Hm as [_ Hm].
  rewrite (translate_write_entry _ _ (Kheap.ar_vm _ _ Har)) by lia. rewrite Hm. by eexists.
Qed.

(** ** The properties at a concrete machine

    A directory in frame 0, mapped at 0xC0000000 through a table in frame 1, and
    the frame allocator of [Pmm.demo]. *)
#[local] Existing Instance Pmm.pmm_frame_allocator.
Definition demo_vm : vm Pmm.pmm :=
  Vm {[0 := {[768 := 4099; 1023 := 3]}; 1 := {[0 := 3]}]} 0 3221225472 3221225472 Pmm.demo.

Lemma demo_pword f i : pword demo_vm f i = if decide (f = 0 /\ i = 768) then 4099 else if decide (f = 0 /\ i = 1023) then 3
  else if decide (f = 1 /\ i = 0) then 3 else 0.
Proof.
  unfold pword, demo_vm. cbn [phys]. destruct (decide (f = 0)) as [->|H0].
  - rewrite lookup_insert_eq. cbn [default from_option id]. destruct (decide (i = 768)) as [->|H1]; [done|].
    rewrite lookup_insert_ne by done. destruct (decide (i = 1023)) as [->|H2]; [done|]. rewrite lookup_singleton_ne by done.
    rewrite !decide_False by tauto. done.
  - rewrite lookup_insert_ne by done. destruct (decide (f = 1)) as [->|H1].
    + rewrite lookup_singleton_eq. cbn [default from_option id]. destruct (decide (i = 0)) as [->|H2]; [done|].
      rewrite lookup_singleton_ne by done. by rewrite !decide_False by tauto.
    + rewrite lookup_singleton_ne by done. by rewrite !decide_False by tauto.
Qed.
Lemma demo_vm_ok : vm_ok demo_vm.
Proof.
  assert (Hpde : forall i, 0 <= i < 1023 -> pde demo_vm i = if decide (i = 768) then 4099 else 0).
  { intros i Hi. unfold pde. change (directory demo_vm) with 0. rewrite demo_pword. repeat destruct (decide _); try done; lia. }
  split.
  - exact Pmm.demo_wf.
  - intros f i. rewrite demo_pword. repeat destruct (decide _); done.
  - reflexivity.
  - split_and!; reflexivity.
  - intros i Hi. rewrite Hpde by done. by destruct (decide _).
  - intros i Hi. rewrite Hpde by done. destruct (decide _); [|done]. intros _. split; [reflexivity|discriminate].
  - intros i Hi. rewrite Hpde by done. by destruct (decide _).
  - intros i j Hi Hj. rewrite !Hpde by done. destruct (decide (i = 768)), (decide (j = 768)); try done. congruence.
  - split_and!; [vm_compute; congruence|reflexivity..].
Qed.

(** The video page at 0xB8000 is mapped at 0xE0000000. *)
Lemma address_space_refines_witness : exists s', vm_session [VMap 3758096384 69632 3; VGet 3758096384; VUnmap 3758096384; VGet 3758096384; VMap 3758096384 73728 3]
  ~{ demo_vm }~> [true; true; true; false; true]; s' /\ translate_write s' 3758096388 = Some (18, 1).
Proof.
  destruct (address_space_refines [VMap 3758096384 69632 3; VGet 3758096384; VUnmap 3758096384; VGet 3758096384; VMap 3758096384 73728 3] demo_vm demo_vm_ok)
    as [Herr|(s' & Hr & _ & _ & Ht)].
  - repeat constructor; try (vm_compute; congruence).
  - exfalso. vm_compute in Herr. discriminate.
  - exists s'. split; [exact Hr|]. rewrite (proj2 (Ht 3758096388 ltac:(vm_compute; split; congruence))). reflexivity.
Defined.

Lemma create_free_roundtrip_witness : exists s1 page g s2, vmm_create_page 3489660928 3 ~{ demo_vm }~> page; s1 /\
  PML_frame (entry s1 851968) = g /\ Pmm.frame_used (frames s1) g = true /\
  vmm_free_page 3489660928 ~{ s1 }~> tt; s2 /\ Pmm.frame_used (frames s2) g = false.
Proof.
  destruct (vmm_create_page 3489660928 3 demo_vm) as [[page s1]|e] eqn:E; [|vm_compute in E; discriminate].
  destruct (create_free_roundtrip demo_vm 3489660928 3 s1 page demo_vm_ok) as (g & s2 & Hg & _ & Hu & Hr & _ & _ & Hs2);
    [vm_compute; split; congruence|split_and!; reflexivity|reflexivity|exact E|].
  exists s1, page, g, s2. split; [reflexivity|]. split; [exact Hg|]. split; [exact Hu|]. split; [exact Hr|].
  transitivity (negb (bool_decide (g = g)) && Pmm.frame_used (frames s1) g); [exact (Hs2 g)|].
  clear. rewrite bool_decide_eq_true_2 by reflexivity. reflexivity.
Defined.

(** [vmm_deallocate_range] frees the wrong page tables: it counts directory
    entries in MiB, where an entry covers 4 MiB. Giving back 1 MiB at 0xE0000000,
    where nothing is mapped, drops the table of 0x80000000. *)
Theorem deallocate_range_wrong_table : exists s',
  (_ ← vmm_map_page 2147483648 69632 3; page ← vmm_get_page 3758096384; before ← gets (fun s => translate s 2147483648);
   vmm_deallocate_range 3758096384 1048576 ;; after ← gets (fun s => translate s 2147483648); mret (page, before, after))
    ~{ demo_vm }~> (NULL, Some (17, 0), None); s'.
Proof. eexists. vm_compute. reflexivity. Qed.

(** Pages that may not be written cannot be made: with the flags 1 the new table is
    write-protected, and clearing it is a page fault. *)
Example read_only_table_faults : vmm_create_page 3758096384 1 ~{ demo_vm }~>! FPtr 4294443008.
Proof. vm_compute. reflexivity. Qed.

Lemma create_page_correct_witness : exists s' page, vmm_create_page 3221245952 3 ~{ demo_vm }~> page; s' /\
  exists g, 0 < g < 32 /\ Pmm.frame_used Pmm.demo g = false /\ PML_frame (entry s' 786437) = g.
Proof.
  destruct (create_page_correct demo_vm 3221245952 3 demo_vm_ok) as [Herr|(s' & page & Hr & _ & Hcd)];
    [vm_compute; split; congruence|split_and!; reflexivity|reflexivity|exfalso; vm_compute in Herr; discriminate|].
  exists s', page. split; [exact Hr|]. destruct (cd_new _ _ _ _ Hcd eq_refl) as (g & Hg & Hu & _ & _ & _ & Hf & _).
  exists g. split; [exact Hg|]. split; [exact Hu|exact Hf].
Defined.

(** The kernel heap at 0xD0000000. *)
Definition demo_paged : Kheap.heap (vm Pmm.pmm) := Kheap.MkHeap ∅ demo_vm 0 0 0 0.
Definition demo_events : list Kheap.heap_event := [Kheap.HMalloc 100; Kheap.HMalloc 5000; Kheap.HFree 3489660952].
Definition demo_paged0 : Kheap.heap (vm Pmm.pmm) :=
  match Kheap.kheap_init 3489660928 4026531840 demo_paged with Ok (_, h) => h | Err _ => demo_paged end.
Definition demo_paged1 : (gmap Z Z * gmap Z Z) * Kheap.heap (vm Pmm.pmm) :=
  match Kheap.session demo_events ∅ ∅ demo_paged0 with Ok r => r | Err _ => ((∅, ∅), demo_paged0) end.

Lemma empty_heap_ok (h : Kheap.heap (vm Pmm.pmm)) : Kheap.heap_inv h [] [] -> Kheap.heap_ok h ∅.
Proof.
  intros Hi. exists [], []. split; [exact Hi|].
  split; [intros p n (b & Hb & _); by apply elem_of_nil in Hb|intros p t Hp; by rewrite lookup_empty in Hp].
Qed.
Lemma demo_paged0_ok : Kheap.heap_ok demo_paged0 ∅.
Proof.
  destruct (Kheap.kheap_init_run demo_paged 3489660928 4026531840) as [Herr|(h0 & Hr & Hi & _)]; try lia.
  - exact demo_vm_ok.
  - reflexivity.
  - intros a Ha. split; [unfold PAGE_TABLE_BASE; lia|split_and!; reflexivity].
  - exfalso. vm_compute in Herr. discriminate.
  - unfold demo_paged0. rewrite Hr. exact (empty_heap_ok h0 Hi).
Qed.

(** After a kmalloc(100), a kmalloc(5000) and a kfree of the first block, the
    second one, which spans two pages, is there. *)
Lemma heap_on_page_tables_witness : vm_ok (Kheap.h_vm demo_paged1.2) /\
  demo_paged1.1.1 !! 3489661076 = Some 5000 /\ exists f, translate_write (Kheap.h_vm demo_paged1.2) 3489665024 = Some (f, 0).
Proof.
  assert (Hp : demo_paged1.1.1 !! 3489661076 = Some 5000) by (vm_compute; reflexivity).
  assert (Hr : Kheap.session demo_events ∅ ∅ demo_paged0 = Ok demo_paged1) by (vm_compute; reflexivity).
  destruct (heap_on_page_tables demo_events demo_paged0 ∅ ∅ demo_paged0_ok)
    as [Herr|(al & sh & h & Hr' & Hv & Ht)]; [intros x v Hx; by rewrite lookup_empty in Hx|vm_compute; reflexivity|rewrite Hr in Herr; discriminate Herr|].
  rewrite Hr in Hr'. assert (E : demo_paged1 = (al, sh, h)) by exact (f_equal (fun o => match o with Ok r => r | Err _ => demo_paged1 end) Hr').
  rewrite E in Hp |- *. split; [exact Hv|]. split; [exact Hp|]. refine (Ht 3489661076 5000 3489665024 Hp _). clear. lia.
Defined.
End Vmm.
