(* ===== verification/Task.v ===== *)
(** * Tasks (include/kernel/process/task.h, scheduler.h, wait.h, signal.h)

    The state the scheduler and the signals share: the task structures, the links
    of the lists they are on, the queued signals, the wait queue entries, the run
    queue and the interrupt frame. A task is named by its address; its list nodes
    are at the offsets they have in [struct task_struct]. The kernel heap, the
    page directories and the open files are behind [HeapAllocator] and
    [ProcessServices]. *)

From S2P Require Import Prelude Interfaces ListHead Kheap.

Module Task.
Import ListHead.

(** ** Data *)
(** The registers an interrupt saves, in the order of the frame. *)
Record pt_regs : Type := PtRegs {
  gs : Z;
  fs : Z;
  es : Z;
  ds : Z;
  edi : Z;
  esi : Z;
  ebp : Z;
  esp : Z;
  ebx : Z;
  edx : Z;
  ecx : Z;
  eax : Z;
  int_no : Z;
  err_code : Z;
  eip : Z;
  cs : Z;
  eflags : Z;
  useresp : Z;
  ss : Z
}.
#[export] Instance eta_pt_regs : Eta pt_regs := {| eta := fun x =>
  PtRegs (gs x) (fs x) (es x) (ds x) (edi x) (esi x) (ebp x) (esp x) (ebx x) (edx x) (ecx x) (eax x) (int_no x) (err_code x) (eip x) (cs x) (eflags x) (useresp x) (ss x) |}.

(** What a task does with a signal. A signal set is an array of two words. *)
Record sigaction_t : Type := SigAction {
  sa_handler : Z;
  sa_mask : list Z;
  sa_flags : Z
}.
#[export] Instance eta_sigaction_t : Eta sigaction_t := {| eta := fun x =>
  SigAction (sa_handler x) (sa_mask x) (sa_flags x) |}.

(** The description of a signal. *)
Record siginfo_t : Type := SigInfo {
  si_signo : Z;
  si_code : Z;
  si_value : Z;
  si_errno : Z;
  si_pid : Z;
  si_uid : Z;
  si_addr : Z;
  si_status : Z;
  si_band : Z
}.
#[export] Instance eta_siginfo_t : Eta siginfo_t := {| eta := fun x =>
  SigInfo (si_signo x) (si_code x) (si_value x) (si_errno x) (si_pid x) (si_uid x) (si_addr x) (si_status x) (si_band x) |}.

(** The scheduling data of a task. [utilization_factor] is a double that only the
    EDF and RM schedulers read; it is left out. *)
Record sched_entity_t : Type := SchedEntity {
  prio : Z;
  start_runtime : Z;
  exec_start : Z;
  exec_runtime : Z;
  sum_exec_runtime : Z;
  vruntime : Z;
  period : Z;
  deadline : Z;
  arrivaltime : Z;
  executed : bool;
  is_periodic : bool;
  is_under_analysis : bool;
  next_period : Z;
  worst_case_exec : Z
}.
#[export] Instance eta_sched_entity_t : Eta sched_entity_t := {| eta := fun x =>
  SchedEntity (prio x) (start_runtime x) (exec_start x) (exec_runtime x) (sum_exec_runtime x) (vruntime x) (period x) (deadline x) (arrivaltime x) (executed x) (is_periodic x) (is_under_analysis x) (next_period x) (worst_case_exec x) |}.

(** [t_regs] is [thread.regs], [action] and [siglock] are those of [sighand] and
    [pending_signal] is [pending.signal]. *)
Record task_struct : Type := TaskStruct {
  pid : Z;
  sid : Z;
  pgid : Z;
  gid : Z;
  uid : Z;
  state : Z;
  parent : Z;
  t_regs : pt_regs;
  signal_regs : pt_regs;
  se : sched_entity_t;
  exit_code : Z;
  t_mm : Z;
  error_no : Z;
  sigreturn_addr : Z;
  action : list sigaction_t;
  siglock : Z;
  blocked : list Z;
  real_blocked : list Z;
  saved_sigmask : list Z;
  pending_signal : list Z
}.
#[export] Instance eta_task_struct : Eta task_struct := {| eta := fun x =>
  TaskStruct (pid x) (sid x) (pgid x) (gid x) (uid x) (state x) (parent x) (t_regs x) (signal_regs x) (se x) (exit_code x) (t_mm x) (error_no x) (sigreturn_addr x) (action x) (siglock x) (blocked x) (real_blocked x) (saved_sigmask x) (pending_signal x) |}.

(** An entry of a wait queue; the only wake function of the kernel is
    [default_wake_function]. *)
Inductive wake_func : Type := default_wake_function_p.
(** The fields of a wait queue entry apart from its links. *)
Record wait_queue_entry_t : Type := WaitEntry {
  wq_flags : Z;
  wq_task : Z;
  wq_func : wake_func
}.
#[export] Instance eta_wait_queue_entry_t : Eta wait_queue_entry_t := {| eta := fun x =>
  WaitEntry (wq_flags x) (wq_task x) (wq_func x) |}.

(** The parameters of a periodic task. *)
Record sched_param_t : Type := SchedParam {
  sp_sched_priority : Z;
  sp_period : Z;
  sp_deadline : Z;
  sp_arrivaltime : Z;
  sp_is_periodic : bool
}.
#[export] Instance eta_sched_param_t : Eta sched_param_t := {| eta := fun x =>
  SchedParam (sp_sched_priority x) (sp_period x) (sp_deadline x) (sp_arrivaltime x) (sp_is_periodic x) |}.

(** The kernel: the links of all lists, the task structures, the queued signals
    and the wait queue entries by address, the fields of [runqueue], the next
    process identifier, the clock, the interrupt frame [*f], the words written to
    user memory, the locks of the wait queue heads and the error number of the
    idle kernel. [X] is the state of the services. *)
Record kern {X : Type} : Type := Kern {
  links : store;
  tasks : gmap Z task_struct;
  sigqueues : gmap Z siginfo_t;
  waits : gmap Z wait_queue_entry_t;
  num_active : Z;
  num_periodic : Z;
  curr : Z;
  tid : Z;
  ticks : Z;
  frame : pt_regs;
  umem : gmap Z Z;
  wq_locks : gmap Z Z;
  errno0 : Z;
  kx : X
}.
Arguments kern : clear implicits.
#[export] Instance eta_kern X : Eta (kern X) := {| eta := fun x =>
  Kern X (links x) (tasks x) (sigqueues x) (waits x) (num_active x) (num_periodic x) (curr x) (tid x) (ticks x) (frame x) (umem x) (wq_locks x) (errno0 x) (kx x) |}.

(** The lists of a task: [run_list], [children], [sibling] and [pending.list]. The
    heads [runqueue.queue] and [stopped_queue.task_list] are static objects; only
    their identity matters, and negative numbers name them. *)
Definition run_list (p : Z) : Z := p + 36.
Definition children (p : Z) : Z := p + 44.
Definition sibling (p : Z) : Z := p + 52.
Definition pending_list (p : Z) : Z := p + 5548.
Definition sizeof_task_struct : Z := 6688.
Definition sizeof_sigqueue_t : Z := 48.
Definition sizeof_wait_queue_entry_t : Z := 20.
Definition runqueue_queue : Z := -8.
Definition stopped_queue : Z := -16.
(** [list_entry] for each kind of node; the node of a queued signal is at its
    start, the one of a wait queue entry at offset 12. *)
Definition entry_run (it : Z) : Z := it - 36.
Definition entry_sibling (it : Z) : Z := it - 52.
Definition wait_node (w : Z) : Z := w + 12.
Definition entry_wait (it : Z) : Z := it - 12.

Definition TASK_RUNNING : Z := 0.
Definition TASK_UNINTERRUPTIBLE : Z := 2.
Definition TASK_STOPPED : Z := 4.
Definition EXIT_ZOMBIE : Z := 16.
Definition EXIT_DEAD : Z := 32.

Definition EPERM : Z := 1.
Definition ESRCH : Z := 3.
Definition ECHILD : Z := 10.
Definition EAGAIN : Z := 11.
Definition EFAULT : Z := 14.
Definition EINVAL : Z := 22.
Definition WNOHANG : Z := 1.

(** ** Access to the state *)
Section Access.
Context {X : Type}.
Notation K := (kern X).

(** [p->...]: a fault when there is no task at [p]. *)
Definition task_at (p : Z) : M K task_struct := getsome (FPtr p) (fun k => tasks k !! p).
Definition upd_task (p : Z) (f : task_struct -> task_struct) : M K unit := fun k =>
  match tasks k !! p with
  | Some t => Ok (tt, k <| tasks := <[p := f t]> (tasks k) |>)
  | None => Err (FPtr p)
  end.

(** Operations on the links. *)
Definition lnk {A} (m : M store A) : M K A := zoom links (fun s k => k <| links := s |>) m.
(** [list_for_each], with the same bound on the steps as in [ListHead]. *)
Definition list_for_each_k {A B} (head : Z) (body : Z -> A -> M K (A + B)) (acc : A) : M K (A + B) :=
  fuel ← gets (fun k => S (S (size (links k))));
  first ← lnk (get_next head);
  for_each_loop fuel (fun it => lnk (get_next it)) head first body acc.

Definition list_for_each_safe_k {A B} (head : Z) (body : Z -> A -> M K (A + B)) (acc : A) : M K (A + B) :=
  fuel ← gets (fun k => S (S (size (links k))));
  pos ← lnk (get_next head);
  store ← lnk (get_next pos);
  for_each_safe_loop fuel (fun it => lnk (get_next it)) head pos store body acc.

(** The heap and the services. *)
Definition srv {A} (m : M X A) : M K A := zoom kx (fun x k => k <| kx := x |>) m.

(** [spinlock_lock] on a single processor: nobody can release a lock that is
    held, so waiting for it never ends. *)
Definition spinlock_lock (v : Z) : res Z := if v =? 0 then Ok 1 else Err FLoop.
Definition lock_task_sighand (p : Z) : M K unit := fun k =>
  match tasks k !! p with
  | Some t => match spinlock_lock (siglock t) with
              | Ok v => Ok (tt, k <| tasks := <[p := t <| siglock := v |>]> (tasks k) |>)
              | Err f => Err f
              end
  | None => Err (FPtr p)
  end.
Definition unlock_task_sighand (p : Z) : M K unit := upd_task p (fun t => t <| siglock := 0 |>).

(** [errno = e]: the error number of the current process. *)
Definition set_errno (e : Z) : M K unit := fun k =>
  if curr k =? NULL then Ok (tt, k <| errno0 := e |>) else upd_task (curr k) (fun t => t <| error_no := e |>) k.

Definition lock_queue (head : Z) : M K unit := fun k =>
  match wq_locks k !! head with
  | Some l => match spinlock_lock l with
              | Ok v => Ok (tt, k <| wq_locks := <[head := v]> (wq_locks k) |>)
              | Err f => Err f
              end
  | None => Err (FPtr head)
  end.
Definition unlock_queue (head : Z) : M K unit := fun k =>
  match wq_locks k !! head with
  | Some _ => Ok (tt, k <| wq_locks := <[head := 0]> (wq_locks k) |>)
  | None => Err (FPtr head)
  end.

(** The counter has 64 bits, the value returned 32. *)
Definition timer_get_ticks : M K Z := gets (fun k => u32 (ticks k)).

(** A store through a pointer to user memory. *)
Definition store_user (a v : Z) : M K unit := modify (fun k => k <| umem := <[a := v]> (umem k) |>).

(** ** Objects on the heap

    A block from kmalloc becomes an object when its fields are written; its links
    can be written from the start. Giving an object back removes it and its nodes
    from the state, so that a later access through a stale pointer is a fault. *)
Context `{HeapAllocator X}.

Definition new_node (a : Z) : M K unit := modify (fun k => k <| links := <[a := Node NULL NULL]> (links k) |>).
Definition alloc_sigqueue : M K Z :=
  q ← srv (ha_alloc sizeof_sigqueue_t);
  (if negb (q =? NULL) then new_node q else mret tt) ;;
  mret q.
Definition free_sigqueue (q : Z) : M K unit :=
  srv (ha_free q) ;;
  modify (fun k => k <| links := delete q (links k) |> <| sigqueues := delete q (sigqueues k) |>).
Definition alloc_wait_entry : M K Z :=
  w ← srv (ha_alloc sizeof_wait_queue_entry_t);
  (if negb (w =? NULL) then new_node (wait_node w) else mret tt) ;;
  mret w.
Definition free_wait_entry (w : Z) : M K unit :=
  srv (ha_free w) ;;
  modify (fun k => k <| links := delete (wait_node w) (links k) |> <| waits := delete w (waits k) |>).
Definition free_task (p : Z) : M K unit :=
  srv (ha_free p) ;;
  modify (fun k => k <| links := delete (run_list p) (delete (children p) (delete (sibling p)
                                   (delete (pending_list p) (links k)))) |>
                     <| tasks := delete p (tasks k) |>).
End Access.

(** ** What the accesses do *)
Section Runs.
Context {X : Type}.
Implicit Types k : kern X.

Lemma task_at_run k p t : tasks k !! p = Some t -> task_at p ~{ k }~> t; k.
Proof. intros Hp. by apply getsome_ok. Qed.
Lemma task_at_none k p : tasks k !! p = None -> task_at p ~{ k }~>! FPtr p.
Proof. intros Hp. unfold task_at, getsome. by rewrite Hp. Qed.
Lemma upd_task_run k p t f : tasks k !! p = Some t ->
  upd_task p f ~{ k }~> tt; k <| tasks := <[p := f t]> (tasks k) |>.
Proof. intros Hp. unfold upd_task. by rewrite Hp. Qed.
Lemma upd_task_none k p f : tasks k !! p = None -> upd_task p f ~{ k }~>! FPtr p.
Proof. intros Hp. unfold upd_task. by rewrite Hp. Qed.

Lemma lnk_run {A} (m : M store A) k a s : m ~{ links k }~> a; s -> lnk m ~{ k }~> a; k <| links := s |>.
Proof. intros Hm. unfold lnk, zoom. by rewrite Hm. Qed.
Lemma links_same k : k <| links := links k |> = k.
Proof. by destruct k. Qed.
Lemma lnk_read {A} (m : M store A) k a : m ~{ links k }~> a; links k -> lnk m ~{ k }~> a; k.
Proof. intros Hm. by rewrite (lnk_run m k a _ Hm), links_same. Qed.
Lemma srv_run {A} (m : M X A) k a x : m ~{ kx k }~> a; x -> srv m ~{ k }~> a; k <| kx := x |>.
Proof. intros Hm. unfold srv, zoom. by rewrite Hm. Qed.
Lemma lnk_run_at {A} (m : M store A) k s0 a s : m ~{ s0 }~> a; s -> links k = s0 ->
  lnk m ~{ k }~> a; k <| links := s |>.
Proof. intros Hm <-. by apply lnk_run. Qed.
Lemma srv_run_at {A} (m : M X A) k x0 a x : m ~{ x0 }~> a; x -> kx k = x0 -> srv m ~{ k }~> a; k <| kx := x |>.
Proof. intros Hm <-. by apply srv_run. Qed.
Lemma srv_err {A} (m : M X A) k e : m ~{ kx k }~>! e -> srv m ~{ k }~>! e.
Proof. intros Hm. unfold srv, zoom. by rewrite Hm. Qed.

Lemma lock_run k p t : tasks k !! p = Some t -> siglock t = 0 ->
  lock_task_sighand p ~{ k }~> tt; k <| tasks := <[p := t <| siglock := 1 |>]> (tasks k) |>.
Proof. intros Hp Hl. unfold lock_task_sighand. by rewrite Hp, Hl. Qed.
Lemma lock_queue_run k h : wq_locks k !! h = Some 0 ->
  lock_queue h ~{ k }~> tt; k <| wq_locks := <[h := 1]> (wq_locks k) |>.
Proof. intros Hl. unfold lock_queue. by rewrite Hl. Qed.
Lemma unlock_queue_run k h l : wq_locks k !! h = Some l ->
  unlock_queue h ~{ k }~> tt; k <| wq_locks := <[h := 0]> (wq_locks k) |>.
Proof. intros Hl. unfold unlock_queue. by rewrite Hl. Qed.

Section Walks.
Context {A B : Type} (k : kern X) (h : Z) (xs : list Z) (Hl : is_list (links k) h xs).

Lemma walk_start : lnk (get_next h) ~{ k }~> hd h xs; k.
Proof. apply lnk_read, get_next_ok, (ring_first _ _ _ Hl). Qed.
Lemma walk_head : h ∉ xs.
Proof. pose proof (ring_nodup _ _ Hl) as Hnd. by apply NoDup_cons in Hnd as [? _]. Qed.
Lemma walk_next l1 x l2 : xs = l1 ++ x :: l2 -> lnk (get_next x) ~{ k }~> hd h l2; k.
Proof. intros Heq. apply lnk_read. by apply (is_list_next _ h xs l1 x l2). Qed.

Lemma list_for_each_k_run (body : Z -> A -> M (kern X) (A + B)) f acc :
  (forall x acc, x ∈ xs -> body x acc ~{ k }~> f x acc; k) ->
  list_for_each_k h body acc ~{ k }~> fold_break f xs acc; k.
Proof.
  intros Hb. unfold list_for_each_k. rewrite (bind_ok (gets _) _ k _ k eq_refl), (bind_ok _ _ _ _ _ walk_start).
  apply for_each_loop_run; [pose proof (list_length _ _ _ Hl); lia|done|apply walk_head|apply walk_next|done].
Qed.

Lemma list_for_each_k_find (body : Z -> A -> M (kern X) (A + B)) acc l1 x l2 b k' : xs = l1 ++ x :: l2 ->
  (forall y, y ∈ l1 -> body y acc ~{ k }~> inl acc; k) -> body x acc ~{ k }~> inr b; k' ->
  list_for_each_k h body acc ~{ k }~> inr b; k'.
Proof.
  intros Heq Hb Hx. unfold list_for_each_k. rewrite (bind_ok (gets _) _ k _ k eq_refl), (bind_ok _ _ _ _ _ walk_start).
  pose proof (list_length _ _ _ Hl) as Hlen. pose proof walk_head as Hh. pose proof walk_next as Hn.
  subst xs. rewrite length_app in Hlen.
  by apply (for_each_loop_find _ _ _ _ h x l2 b acc l1); [lia| | | | |].
Qed.

Lemma list_for_each_k_inv (I : list Z -> A -> kern X -> Prop) (body : Z -> A -> M (kern X) (A + B)) acc :
  I xs acc k ->
  (forall l1 x l2 acc k1, xs = l1 ++ x :: l2 -> I (x :: l2) acc k1 -> links k1 = links k -> exists acc' k2,
    body x acc ~{ k1 }~> inl acc'; k2 /\ links k2 = links k /\ I l2 acc' k2) ->
  exists acc' k', list_for_each_k h body acc ~{ k }~> inl acc'; k' /\ links k' = links k /\ I [] acc' k'.
Proof.
  intros HI Hb. unfold list_for_each_k. rewrite (bind_ok (gets _) _ k _ k eq_refl), (bind_ok _ _ _ _ _ walk_start).
  destruct (for_each_loop_inv (B := B) (fun l a k1 => links k1 = links k /\ I l a k1) (fun it => lnk (get_next it)) body h xs
    (hd h xs) acc (S (S (size (links k)))) k) as (acc' & k' & Hr & Hk & HI'); [..|by exists acc', k'].
  - pose proof (list_length _ _ _ Hl). lia.
  - done.
  - apply walk_head.
  - done.
  - intros l1 x l2 a k1 Heq [Hk1 H1]. destruct (Hb l1 x l2 a k1 Heq H1 Hk1) as (a' & k2 & Hr & Hk2 & H2).
    exists a', k2. split_and!; try done. apply lnk_read. rewrite Hk2. by apply (is_list_next _ h xs l1 x l2).
Qed.
End Walks.

(** Looking for the first node whose task satisfies [P]. *)
Lemma first_such (P : Z -> bool) (xs : list Z) :
  (forall x, x ∈ xs -> P x = false) \/
  exists l1 x l2, xs = l1 ++ x :: l2 /\ P x = true /\ forall y, y ∈ l1 -> P y = false.
Proof.
  induction xs as [|x xs [IH|(l1 & y & l2 & -> & Hy & Hl)]]; [left; set_solver| |].
  - destruct (P x) eqn:E; [right; exists [], x, xs; set_solver|left; set_solver].
  - right. destruct (P x) eqn:E; [exists [], x, (l1 ++ y :: l2); set_solver|]. exists (x :: l1), y, l2. set_solver.
Qed.
End Runs.

(** ** Fresh objects

    The nodes of the lists are static objects or lie in blocks in use, so that a
    new block holds none of them. *)
Definition owned (L : gmap Z (list Z)) (al : gmap Z Z) : Prop :=
  forall h xs x, L !! h = Some xs -> x ∈ h :: xs -> x < 0 \/ exists p s, al !! p = Some s /\ p <= x < p + s.

Definition in_block (al : gmap Z Z) (x : Z) : bool :=
  (x <? 0) || existsb (fun b : Z * Z => (b.1 <=? x) && (x <? b.1 + b.2)) (map_to_list al).
Definition owned_check (L : gmap Z (list Z)) (al : gmap Z Z) : bool :=
  forallb (fun l : Z * list Z => forallb (in_block al) (l.1 :: l.2)) (map_to_list L).
Lemma owned_check_sound L al : owned_check L al = true -> owned L al.
Proof.
  unfold owned_check. rewrite forallb_forall. intros Hc h xs x Hh Hx.
  pose proof (Hc (h, xs)) as Hl. rewrite <- list_elem_of_In, elem_of_map_to_list in Hl. specialize (Hl Hh).
  rewrite forallb_forall in Hl. specialize (Hl x). rewrite <- list_elem_of_In in Hl. specialize (Hl Hx).
  unfold in_block in Hl. rewrite orb_true_iff, Z.ltb_lt, existsb_exists in Hl.
  destruct Hl as [?|([q s] & Hq & [Hl1%Z.leb_le Hl2%Z.ltb_lt]%andb_true_iff)]; [by left|right].
  exists q, s. rewrite <- list_elem_of_In, elem_of_map_to_list in Hq. done.
Qed.

Section Fresh.
Context {X : Type} `{HeapAllocator X}.

Lemma fresh_outside (x : X) L al q sz off : owned L al -> ha_ok x (<[q := sz]> al) -> al !! q = None ->
  0 <= off < sz -> outside L (q + off).
Proof.
  intros Hown Hx Hq Hoff h xs Hh Hin. pose proof (ha_positive x _ q sz Hx (lookup_insert_eq _ _ _)) as Hpos.
  destruct (Hown h xs _ Hh Hin) as [?|(p & s & Hp & Hrange)]; [lia|].
  assert (Hne : p <> q) by congruence.
  destruct (ha_disjoint x _ q sz p s Hx (lookup_insert_eq _ _ _)) as [?|[?|?]]; [by rewrite lookup_insert_ne|done|lia|lia].
Qed.

Lemma owned_insert L al q sz : owned L al -> al !! q = None -> owned L (<[q := sz]> al).
Proof.
  intros Hown Hq h xs x Hh Hx. destruct (Hown h xs x Hh Hx) as [?|(p & s & Hp & ?)]; [by left|right].
  exists p, s. split; [|done]. rewrite lookup_insert_ne; [done|]. intros ->. congruence.
Qed.

(** A list gets a node of a block in use. *)
Lemma owned_add L al h xs q sz off : owned L al -> L !! h = Some xs -> al !! q = Some sz -> 0 <= off < sz ->
  owned (<[h := xs ++ [q + off]]> L) al.
Proof.
  intros Hown Hh Hq Hoff k ys x Hk Hx. destruct (decide (k = h)) as [->|Hne].
  - rewrite lookup_insert_eq in Hk. simplify_eq. rewrite elem_of_cons, elem_of_app, list_elem_of_singleton in Hx.
    destruct Hx as [->|[Hx| ->]].
    + by apply (Hown h xs); [|left].
    + by apply (Hown h xs); [|right].
    + right. exists q, sz. split; [done|lia].
  - rewrite lookup_insert_ne in Hk by done. by apply (Hown k ys).
Qed.
End Fresh.

(** ** Symbolic execution of kernel code *)
Ltac solve_task :=
  cbn;
  repeat first [rewrite lookup_insert_eq | rewrite lookup_insert_ne by (congruence || done)];
  first [eassumption | reflexivity].
Ltac kstep :=
  match goal with
  | |- context [(gets ?g ≫= ?c) ?k] => change ((gets g ≫= c) k) with (c (g k) k)
  | |- context [(modify ?f ≫= ?c) ?k] => change ((modify f ≫= c) k) with (c tt (f k))
  | |- context [(timer_get_ticks ≫= ?c) ?k] => change ((timer_get_ticks ≫= c) k) with (c (u32 (ticks k)) k)
  | |- context [(mret ?a ≫= ?c) ?k] => change ((mret a ≫= c) k) with (c a k)
  | |- context [((?m ≫= ?c) ≫= ?h) ?k] => rewrite (bind_assoc m c h k)
  | |- context [(task_at ?p ≫= ?c) ?k] =>
      let H := fresh in
      eassert (H : tasks k !! p = Some _) by solve_task;
      rewrite (bind_ok _ c _ _ _ (task_at_run k p _ H)); clear H
  | |- context [(upd_task ?p ?f ≫= ?c) ?k] =>
      let H := fresh in
      eassert (H : tasks k !! p = Some _) by solve_task;
      rewrite (bind_ok _ c _ _ _ (upd_task_run k p _ f H)); clear H
  end; cbv beta.
Ltac ksteps := repeat kstep.
(** The next step is an operation on the links, or a service, whose run is [H]. *)
Ltac runl H :=
  match goal with
  | |- context [(lnk ?m ≫= ?c) ?k] => rewrite (bind_ok (lnk m) c k _ _ (lnk_run_at m k _ _ _ H eq_refl)); cbv beta
  end.
Ltac runs H :=
  match goal with
  | |- context [(srv ?m ≫= ?c) ?k] => rewrite (bind_ok (srv m) c k _ _ (srv_run_at m k _ _ _ H eq_refl)); cbv beta
  end.

(** ** A concrete kernel

    Three tasks allocated on the kernel heap: init, its child with pid 2 and the
    child of that one with pid 3. All of them are on the run queue and runnable
    and pid 2 is running. The services of the other components do nothing. *)
#[export] Existing Instances Kheap.unlimited_mapper Kheap.kernel_heap_allocator.
#[export] Instance quiet_services : ProcessServices (Kheap.heap (gset Z)).
Proof.
  refine {| ps_vfs_destroy := fun _ => mret tt; ps_mmu_destroy := fun _ => mret tt; ps_switch := fun _ => mret tt |};
    abstract (intros x al p Hok; by exists x).
Defined.

Definition T1 : Z := 3489660952.
Definition T2 : Z := 3489667652.
Definition T3 : Z := 3489674352.
Fixpoint demo_heaps (n : nat) : Kheap.heap (gset Z) :=
  match n with
  | O => Kheap.heap0
  | S n => match Kheap.kmalloc 6688 (demo_heaps n) with Ok (_, h) => h | Err _ => Kheap.heap0 end
  end.
Definition demo_heap : Kheap.heap (gset Z) := demo_heaps 3.
Definition demo_blocks : gmap Z Z := <[T3 := 6688]> (<[T2 := 6688]> (<[T1 := 6688]> ∅)).

Lemma demo_heaps_ok n al p : ha_ok (demo_heaps n) al ->
  (Kheap.kernel_heap_top (demo_heaps n) + 6715 <=? Kheap.vm_end (demo_heaps n)) = true ->
  Kheap.result_of (Kheap.kmalloc 6688 (demo_heaps n)) = Some p ->
  ha_ok (demo_heaps (S n)) (<[p := 6688]> al).
Proof.
  intros Hok Hroom%Z.leb_le Hrun.
  destruct (ha_alloc_law (demo_heaps n) al 6688 0 Hok) as [Herr|(q & h1 & Hr & Hok1 & _)];
    [lia|lia|change (Kheap.kernel_heap_top (demo_heaps n) + (6688 + 27 + 0) <= Kheap.vm_end (demo_heaps n)); lia|..].
  - change (ha_alloc 6688) with (Kheap.kmalloc (H := Kheap.unlimited_mapper) 6688) in Herr. by rewrite Herr in Hrun.
  - change (ha_alloc 6688) with (Kheap.kmalloc (H := Kheap.unlimited_mapper) 6688) in Hr.
    cbn [demo_heaps]. rewrite Hr in Hrun |- *. by injection Hrun as <-.
Qed.

Lemma demo_heap_ok : ha_ok demo_heap demo_blocks.
Proof.
  apply (demo_heaps_ok 2); [|vm_compute; reflexivity..].
  apply (demo_heaps_ok 1); [|vm_compute; reflexivity..].
  apply (demo_heaps_ok 0); [exact Kheap.heap0_ok|vm_compute; reflexivity..].
Qed.

Definition demo_regs (n : Z) : pt_regs := PtRegs 0 0 0 0 0 0 0 0 0 0 0 n 0 0 n 27 0 n 0.
Definition demo_entity : sched_entity_t := SchedEntity 120 0 0 0 0 0 0 0 0 false false false 0 0.
Definition demo_task (n par : Z) : task_struct :=
  TaskStruct n 0 0 0 0 TASK_RUNNING par (demo_regs n) (demo_regs 0) demo_entity 0 n 0 0
    (replicate 32 (SigAction 0 [0; 0] 0)) 0 [0; 0] [0; 0] [0; 0] [0; 0].
Definition demo_tasks : gmap Z task_struct :=
  {[T1 := demo_task 1 NULL; T2 := demo_task 2 T1; T3 := demo_task 3 T2]}.
Definition demo_kern_lists : gmap Z (list Z) :=
  {[runqueue_queue := [run_list T1; run_list T2; run_list T3]; stopped_queue := [];
    children T1 := [sibling T2]; children T2 := [sibling T3]; children T3 := []; sibling T1 := [];
    pending_list T1 := []; pending_list T2 := []; pending_list T3 := []]}.
Definition demo_kern : kern (Kheap.heap (gset Z)) :=
  Kern _ (links_of demo_kern_lists) demo_tasks ∅ ∅ 3 0 T2 4 1000 (demo_regs 2) ∅ {[stopped_queue := 0]} 0 demo_heap.

Lemma demo_kern_lists_ok : lists (links demo_kern) demo_kern_lists.
Proof. apply lists_check_sound. vm_compute. reflexivity. Qed.

End Task.
