(* ===== verification/Scheduler.v ===== *)
(** * The scheduler (src/kernel/process/scheduler.c, sched_algo.c, wait.c)

    The run queue, the round-robin choice of the next task (the algorithm that is
    compiled when no SCHEDULER_* macro is defined), the context switch, the system
    calls on process attributes and scheduling parameters, the wait queues and
    [sys_waitpid]. [sys_exit] and [scheduler_run] need the signals and are in
    [Delivery.v]. *)

From S2P Require Import Prelude Interfaces ListHead Task.

Module Scheduler.
Import ListHead Task.

Section Scheduler.
Context {X : Type} `{ProcessServices X}.
Notation K := (kern X).

(** ** The run queue *)
Definition scheduler_init : M K unit :=
  lnk (list_head_init runqueue_queue) ;;
  modify (fun k => k <| curr := NULL |>) ;;
  modify (fun k => k <| num_active := 0 |>).

Definition scheduler_getpid : M K Z :=
  n ← gets tid;
  modify (fun k => k <| tid := u32 (n + 1) |>) ;;
  mret n.

Definition scheduler_get_current_process : M K Z := gets curr.

Definition scheduler_get_maximum_vruntime : M K Z :=
  r ← list_for_each_k (B := Z) runqueue_queue (fun it vr =>
        if it =? runqueue_queue then mret (inl vr)
        else
          entry ← task_at (entry_run it);
          if is_periodic (se entry) && negb (is_under_analysis (se entry)) then mret (inl vr)
          else mret (inl (if vr <? vruntime (se entry) then vruntime (se entry) else vr))) 0;
  match r with inl vr => mret vr | inr vr => mret vr end.

Definition scheduler_get_active_processes : M K Z := gets num_active.

(** [entry = list_entry(it, ...); if (entry->pid == p) { ... }]: the body of the
    searches by process identifier, which stop at the first match. *)
Definition with_pid {B} (p it : Z) (found : M K B) : M K (unit + B) :=
  entry ← task_at (entry_run it);
  if pid entry =? p then r ← found; mret (inr r) else mret (inl tt).

Definition scheduler_get_running_process (p : Z) : M K Z :=
  r ← list_for_each_k runqueue_queue (fun it _ => with_pid p it (mret (entry_run it))) tt;
  match r with inl _ => mret NULL | inr e => mret e end.

Definition scheduler_enqueue_task (process : Z) : M K unit :=
  c ← gets curr;
  (if c =? NULL then modify (fun k => k <| curr := process |>) else mret tt) ;;
  lnk (list_head_insert_before (run_list process) runqueue_queue) ;;
  modify (fun k => k <| num_active := u32 (num_active k + 1) |>).

Definition scheduler_dequeue_task (process : Z) : M K unit :=
  lnk (list_head_remove (run_list process)) ;;
  modify (fun k => k <| num_active := u32 (num_active k - 1) |>) ;;
  t ← task_at process;
  if is_periodic (se t)
  then modify (fun k => k <| num_periodic := u32 (num_periodic k - 1) |>)
  else mret tt.

(** ** Choosing the next task *)
Definition is_periodic_task (t : task_struct) : bool := is_periodic (se t) && negb (is_under_analysis (se t)).

(** The body of the search. *)
Definition rr_visit (skip_periodic : bool) (it : Z) (_ : unit) : M K (unit + Z) :=
  if it =? runqueue_queue then mret (inl tt)
  else
    t ← task_at (entry_run it);
    if negb (state t =? TASK_RUNNING) then mret (inl tt)
    else if is_periodic_task t && skip_periodic then mret (inl tt)
    else mret (inr (entry_run it)).

Definition scheduler_rr (skip_periodic : bool) : M K Z :=
  c ← gets curr;
  n ← lnk (list_head_size (run_list c));
  if n <=? 1 then gets curr
  else
    r ← list_for_each_k (run_list c) (rr_visit skip_periodic) tt;
    match r with inl _ => mret NULL | inr e => mret e end.

Definition scheduler_pick_next_task : M K Z :=
  next ← scheduler_rr false;
  now ← timer_get_ticks;
  upd_task next (fun t => t <| se := (se t) <| exec_start := now |> |>) ;;
  mret next.

(** ** Context switch *)
Definition scheduler_store_context (process : Z) : M K unit :=
  f ← gets frame; upd_task process (fun t => t <| t_regs := f |>).

Definition scheduler_restore_context (process : Z) : M K unit :=
  modify (fun k => k <| curr := process |>) ;;
  t ← task_at process;
  modify (fun k => k <| frame := t_regs t |>) ;;
  srv (ps_switch (t_mm t)).

(** ** Sleeping and waking up *)
Definition try_to_wake_up (process : Z) : M K Z :=
  t ← task_at process;
  if (state t =? TASK_UNINTERRUPTIBLE) || (state t =? TASK_STOPPED)
  then upd_task process (fun t => t <| state := TASK_RUNNING |>) ;; mret 1
  else mret 0.

Definition wait_at (w : Z) : M K wait_queue_entry_t := getsome (FPtr w) (fun k => waits k !! w).

Definition default_wake_function (w : Z) : M K Z :=
  e ← wait_at w; try_to_wake_up (wq_task e).

(** [entry->func(entry, 0, 0)] *)
Definition call_wake_func (w : Z) : M K Z :=
  e ← wait_at w;
  match wq_func e with default_wake_function_p => default_wake_function w end.

Definition init_waitqueue_entry (w task : Z) : M K unit :=
  modify (fun k => k <| waits := <[w := WaitEntry 0 task default_wake_function_p]> (waits k) |>).

Definition add_wait_queue (head w : Z) : M K unit :=
  e ← wait_at w;
  modify (fun k => k <| waits := <[w := e <| wq_flags := Z.land (wq_flags e) (u32_not 1) |>]> (waits k) |>) ;;
  lock_queue head ;;
  lnk (list_head_insert_before (wait_node w) head) ;;
  unlock_queue head.

Definition remove_wait_queue (head w : Z) : M K unit :=
  lock_queue head ;;
  lnk (list_head_remove (wait_node w)) ;;
  unlock_queue head.

Definition sleep_on (wq : Z) : M K Z :=
  sleeping_task ← scheduler_get_current_process;
  upd_task sleeping_task (fun t => t <| state := TASK_UNINTERRUPTIBLE |>) ;;
  wait_entry ← alloc_wait_entry;
  init_waitqueue_entry wait_entry sleeping_task ;;
  add_wait_queue wq wait_entry ;;
  mret wait_entry.

(** ** Process attributes *)
Definition is_orphaned_pgrp (pg : Z) : M K Z :=
  r ← list_for_each_k runqueue_queue (fun it _ =>
        task ← task_at (entry_run it);
        if pgid task =? pg then mret (inr (sid task)) else mret (inl tt)) tt;
  let s := match r with inl _ => 0 | inr s => s end in
  r ← list_for_each_k runqueue_queue (fun it _ => with_pid s it (mret 0)) tt;
  match r with inl _ => mret 1 | inr v => mret v end.

(** [runqueue.curr] when there must be one. *)
Definition current_or_panic : M K Z :=
  c ← gets curr; if c =? NULL then fail FFatal else mret c.

Definition sys_getpid : M K Z :=
  c ← current_or_panic; t ← task_at c; mret (pid t).

Definition sys_getsid (p : Z) : M K Z :=
  if p =? 0 then c ← current_or_panic; t ← task_at c; mret (sid t)
  else
    r ← list_for_each_k runqueue_queue (fun it _ => with_pid p it (
          c ← gets curr; cur ← task_at c;
          task ← task_at (entry_run it);
          if negb (sid cur =? sid task) then mret (- EPERM) else mret (sid task))) tt;
    match r with inl _ => mret (- ESRCH) | inr v => mret v end.

Definition sys_setsid : M K Z :=
  task ← current_or_panic;
  t ← task_at task;
  if sid t =? pid t then mret (- EPERM)
  else
    upd_task task (fun t => t <| sid := pid t |>) ;;
    upd_task task (fun t => t <| pgid := pid t |>) ;;
    t ← task_at task; mret (sid t).

Definition sys_getpgid (p : Z) : M K Z :=
  task ← (if p =? 0 then gets curr else scheduler_get_running_process p);
  if negb (task =? NULL) then t ← task_at task; mret (pgid t) else mret 0.

Definition sys_setpgid (p pg : Z) : M K Z :=
  task ← (if p =? 0 then gets curr else scheduler_get_running_process p);
  (if negb (task =? NULL) then upd_task task (fun t => t <| pgid := pg |>) else mret tt) ;;
  mret 0.

Definition sys_getuid : M K Z :=
  c ← gets curr;
  if negb (c =? NULL) then t ← task_at c; mret (uid t) else mret (u32 (- EPERM)).

Definition sys_setuid (u : Z) : M K Z :=
  c ← gets curr;
  root ← (if negb (c =? NULL) then t ← task_at c; mret (uid t =? 0) else mret false);
  if (root : bool) then upd_task c (fun t => t <| uid := u |>) ;; mret 0 else mret (- EPERM).

Definition sys_getgid : M K Z :=
  c ← gets curr;
  if negb (c =? NULL) then t ← task_at c; mret (gid t) else mret (- EPERM).

Definition sys_setgid (g : Z) : M K Z :=
  c ← gets curr;
  root ← (if negb (c =? NULL) then t ← task_at c; mret (uid t =? 0) else mret false);
  if (root : bool) then upd_task c (fun t => t <| gid := g |>) ;; mret 0 else mret (- EPERM).

Definition sys_getppid : M K Z :=
  c ← gets curr;
  if c =? NULL then mret (- EPERM)
  else t ← task_at c;
       if parent t =? NULL then mret (- EPERM) else q ← task_at (parent t); mret (pid q).

(** prio.h *)
Definition MIN_NICE : Z := -20.
Definition MAX_NICE : Z := 19.
Definition NICE_WIDTH : Z := MAX_NICE - MIN_NICE + 1.
Definition MAX_RT_PRIO : Z := 100.
Definition DEFAULT_PRIO : Z := MAX_RT_PRIO + NICE_WIDTH / 2.
Definition NICE_TO_PRIO (nice : Z) : Z := s32 (nice + DEFAULT_PRIO).
Definition PRIO_TO_NICE (prio : Z) : Z := s32 (prio - DEFAULT_PRIO).

Definition sys_nice (increment : Z) : M K Z :=
  c ← current_or_panic;
  let increment := if increment <? -40 then -40 else increment in
  let increment := if 40 <? increment then 40 else increment in
  t ← task_at c;
  let newNice := s32 (PRIO_TO_NICE (prio (se t)) + increment) in
  let newNice := if newNice <? MIN_NICE then MIN_NICE else newNice in
  let newNice := if MAX_NICE <? newNice then MAX_NICE else newNice in
  (if negb (PRIO_TO_NICE (prio (se t)) =? newNice) && (MIN_NICE <=? newNice) && (newNice <=? MAX_NICE)
   then upd_task c (fun t => t <| se := (se t) <| prio := NICE_TO_PRIO newNice |> |>)
   else mret tt) ;;
  t ← task_at c;
  mret (PRIO_TO_NICE (prio (se t))).

(** ** Waiting for a child *)
(** What is done to the zombie found. *)
Definition reap_child (entry status : Z) : M K Z :=
  t ← task_at entry;
  let ppid := pid t in
  (if negb (status =? NULL) then store_user status (state t) else mret tt) ;;
  srv (ps_vfs_destroy entry) ;;
  lnk (list_head_remove (sibling entry)) ;;
  scheduler_dequeue_task entry ;;
  free_task entry ;;
  mret ppid.

(** The body of the search among the children. *)
Definition waitpid_visit (p status it : Z) (_ : unit) : M K (unit + Z) :=
  let entry := entry_sibling it in
  if entry =? NULL then mret (inl tt)
  else
    t ← task_at entry;
    if negb (state t =? EXIT_ZOMBIE) then mret (inl tt)
    else if (1 <? p) && negb (pid t =? p) then mret (inl tt)
    else r ← reap_child entry status; mret (inr r).

Definition sys_waitpid (p status options : Z) : M K Z :=
  c ← current_or_panic;
  if (p <? -1) || (p =? 0) then mret (- ESRCH)
  else
    t ← task_at c;
    if p =? pid t then mret (- ECHILD)
    else if negb (options =? 0) && negb (options =? WNOHANG) then mret (- EINVAL)
    else
      e ← lnk (list_head_empty (children c));
      if (e : bool) then mret (- ECHILD)
      else
        r ← list_for_each_k (children c) (waitpid_visit p status) tt;
        match r with inl _ => mret 0 | inr ppid => mret ppid end.

(** ** Periodic tasks *)
(** What is done to the task found. *)
Definition set_params (param : sched_param_t) (it : Z) : M K Z :=
  entry ← task_at (entry_run it);
  (if negb (is_periodic (se entry)) && sp_is_periodic param
   then modify (fun k => k <| num_periodic := u32 (num_periodic k + 1) |>)
   else if is_periodic (se entry) && negb (sp_is_periodic param)
   then modify (fun k => k <| num_periodic := u32 (num_periodic k - 1) |>)
   else mret tt) ;;
  now ← timer_get_ticks;
  upd_task (entry_run it) (fun t => t <| se := (se t)
    <| prio := sp_sched_priority param |>
    <| period := sp_period param |>
    <| arrivaltime := sp_arrivaltime param |>
    <| is_periodic := sp_is_periodic param |>
    <| deadline := u32 (now + sp_deadline param) |>
    <| next_period := now |>
    <| is_under_analysis := true |>
    <| executed := false |> |>) ;;
  mret 1.
Definition get_params (param : sched_param_t) (it : Z) : M K (Z * sched_param_t) :=
  entry ← task_at (entry_run it);
  mret (1, param <| sp_sched_priority := prio (se entry) |>
         <| sp_period := period (se entry) |>
         <| sp_deadline := deadline (se entry) |>
         <| sp_arrivaltime := arrivaltime (se entry) |>).

Definition sys_sched_setparam (p : Z) (param : sched_param_t) : M K Z :=
  r ← list_for_each_k runqueue_queue (fun it _ => with_pid p it (set_params param it)) tt;
  match r with inl _ => mret (-1) | inr v => mret v end.

(** [*param] before and after the call. *)
Definition sys_sched_getparam (p : Z) (param : sched_param_t) : M K (Z * sched_param_t) :=
  r ← list_for_each_k runqueue_queue (fun it _ => with_pid p it (get_params param it)) tt;
  match r with inl _ => mret (-1, param) | inr v => mret v end.

Definition sys_waitperiod : M K Z :=
  c ← scheduler_get_current_process;
  if c =? NULL then mret (- ESRCH)
  else
    t ← task_at c;
    if negb (is_periodic (se t)) then mret (- EPERM)
    else
      current_time ← timer_get_ticks;
      let wcet := u32 (current_time - exec_start (se t)) in
      (if worst_case_exec (se t) <? wcet
       then upd_task c (fun t => t <| se := (se t) <| worst_case_exec := wcet |> |>) else mret tt) ;;
      t ← task_at c;
      (if is_under_analysis (se t)
       then
         upd_task c (fun t => t <| se := (se t) <| worst_case_exec := sum_exec_runtime (se t) |> |>) ;;
         upd_task c (fun t => t <| se := (se t) <| is_under_analysis := false |>
           <| next_period := current_time |> <| deadline := u32 (current_time + period (se t)) |> |>)
       else mret tt) ;;
      upd_task c (fun t => t <| se := (se t) <| executed := true |> |>) ;;
      mret 0.

(** ** The run queue as a list of tasks *)
Implicit Types k : K.

(** The queue holds the tasks [ts], in this order. *)
Definition queued (k : K) (ts : list Z) : Prop :=
  is_list (links k) runqueue_queue (run_list <$> ts) /\ forall p, p ∈ ts -> is_Some (tasks k !! p).

Lemma entry_run_list p : entry_run (run_list p) = p.
Proof. unfold entry_run, run_list. lia. Qed.
Lemma run_list_inj p q : run_list p = run_list q -> p = q.
Proof. unfold run_list. lia. Qed.
Lemma elem_of_run_list p (ts : list Z) : run_list p ∈ run_list <$> ts <-> p ∈ ts.
Proof.
  rewrite list_elem_of_fmap. split; [|eauto]. intros (q & Hq & Hin). by apply run_list_inj in Hq as ->.
Qed.
Lemma queued_nodup k ts : queued k ts -> NoDup ts.
Proof.
  intros [Hl _]. unfold is_list in Hl. apply ring_nodup, NoDup_cons in Hl as [_ Hl]. by apply NoDup_fmap_1 in Hl.
Qed.
Lemma queued_not_head k ts p : queued k ts -> p ∈ ts -> run_list p <> runqueue_queue.
Proof.
  intros [Hl _] Hp Heq. unfold is_list in Hl. apply ring_nodup, NoDup_cons in Hl as [Hl _].
  apply Hl. rewrite <- Heq. by apply elem_of_run_list.
Qed.

(** ** The round-robin choice *)
Definition runnable (k : K) (p : Z) : bool :=
  match tasks k !! p with Some t => state t =? TASK_RUNNING | None => false end.
(** The only task, or else the first runnable one after the current task in
    circular order, the current task excluded. *)
Definition rr_choice (k : K) (ts1 : list Z) (c : Z) (ts2 : list Z) : option Z :=
  if bool_decide (ts1 ++ ts2 = []) then Some c else List.find (runnable k) (ts2 ++ ts1).

(** One step of the search. *)
Definition rr_step (k : K) (it : Z) (_ : unit) : unit + Z :=
  if it =? runqueue_queue then inl tt
  else if runnable k (entry_run it) then inr (entry_run it) else inl tt.

Lemma rr_step_find k l1 l2 : (forall p, p ∈ l1 ++ l2 -> run_list p <> runqueue_queue) ->
  fold_break (rr_step k) ((run_list <$> l1) ++ runqueue_queue :: (run_list <$> l2)) tt =
  match List.find (runnable k) (l1 ++ l2) with Some p => inr p | None => inl tt end.
Proof.
  assert (Hstep : forall p rest, run_list p <> runqueue_queue ->
    fold_break (rr_step k) (run_list p :: rest) tt =
    if runnable k p then inr p else fold_break (rr_step k) rest tt).
  { intros p rest Hp. cbn [fold_break]. unfold rr_step at 1.
    rewrite (proj2 (Z.eqb_neq _ _) Hp), entry_run_list. by destruct (runnable k p). }
  intros Hne. induction l1 as [|p l1 IH].
  - cbn [fmap list_fmap app]. cbn [fold_break]. unfold rr_step at 1. rewrite Z.eqb_refl.
    induction l2 as [|q l2 IH2]; [done|]. cbn [fmap list_fmap app]. rewrite Hstep by (apply Hne; by left). cbn [List.find].
    destruct (runnable k q); [done|]. apply IH2. intros p Hp. apply Hne. by right.
  - cbn [fmap list_fmap app]. rewrite Hstep by (apply Hne; by left). cbn [List.find].
    destruct (runnable k p); [done|]. apply IH. intros q Hq. apply Hne. by right.
Qed.

Section RoundRobin.
Context (k : K) (ts1 ts2 : list Z) (c : Z).
Context (Hq : queued k (ts1 ++ c :: ts2)) (Hc : curr k = c).
Context (Hlen : Z.of_nat (length (ts1 ++ c :: ts2)) < 4294967296).

(** The ring of the queue seen from the current task. *)
Lemma rr_ring : is_list (links k) (run_list c) ((run_list <$> ts2) ++ runqueue_queue :: (run_list <$> ts1)).
Proof.
  destruct Hq as [Hl _]. unfold is_list in *. rewrite fmap_app, fmap_cons, app_comm_cons in Hl.
  by apply ring_app in Hl.
Qed.

Lemma rr_visit_run it u : it ∈ (run_list <$> ts2) ++ runqueue_queue :: (run_list <$> ts1) ->
  rr_visit false it u ~{ k }~> rr_step k it u; k.
Proof.
  intros Hit. unfold rr_step, rr_visit. destruct (Z.eqb_spec it runqueue_queue); [done|].
  rewrite elem_of_app, elem_of_cons, !list_elem_of_fmap in Hit.
  assert (exists p, it = run_list p /\ p ∈ ts1 ++ c :: ts2) as (p & -> & Hp).
  { destruct Hit as [(p & ? & ?)|[?|(p & ? & ?)]]; [|done|]; exists p; split; [done|set_solver|done|set_solver]. }
  rewrite entry_run_list. destruct (proj2 Hq p Hp) as [t Ht]. kstep. unfold runnable. rewrite Ht, andb_false_r.
  by destruct (state t =? TASK_RUNNING).
Qed.

Lemma rr_run : scheduler_rr false ~{ k }~> default NULL (rr_choice k ts1 c ts2); k.
Proof.
  unfold scheduler_rr. ksteps. rewrite Hc. pose proof Hlen as Hn. rewrite length_app in Hn. cbn [length] in Hn.
  rewrite (bind_ok _ _ _ _ _ (lnk_read _ _ _ (size_run _ _ _ rr_ring
    ltac:(rewrite length_app; cbn [length]; rewrite !length_fmap; lia)))).
  rewrite length_app. cbn [length]. rewrite !length_fmap. unfold rr_choice.
  destruct (Z.leb_spec (Z.of_nat (length ts2 + S (length ts1))) 1).
  - rewrite bool_decide_eq_true_2; [cbn; by rewrite Hc|]. by destruct ts1, ts2; cbn in *; try lia.
  - rewrite bool_decide_eq_false_2; [|by destruct ts1, ts2; cbn in *; try lia].
    rewrite (bind_ok _ _ _ _ _ (list_for_each_k_run k _ _ rr_ring _ (rr_step k) tt rr_visit_run)).
    rewrite rr_step_find; [by destruct (List.find _ _)|].
    intros p Hp. apply (queued_not_head k _ p Hq). set_solver.
Qed.

Lemma rr_choice_task p : rr_choice k ts1 c ts2 = Some p -> is_Some (tasks k !! p).
Proof.
  intros Hp. apply (proj2 Hq). unfold rr_choice in Hp. case_bool_decide; [simplify_eq; set_solver|].
  apply List.find_some in Hp as [Hp _]. apply list_elem_of_In in Hp. set_solver.
Qed.

(** The choice makes the task the one whose execution starts now. *)
Definition started (p : Z) : K :=
  k <| tasks := alter (fun t => t <| se := (se t) <| exec_start := u32 (ticks k) |> |>) p (tasks k) |>.

Lemma pick_run p : rr_choice k ts1 c ts2 = Some p -> scheduler_pick_next_task ~{ k }~> p; started p.
Proof.
  intros Hp. destruct (rr_choice_task p Hp) as [t Ht]. unfold scheduler_pick_next_task.
  rewrite (bind_ok _ _ _ _ _ rr_run), Hp. cbn [default]. ksteps. unfold started.
  do 3 f_equal. symmetry. rewrite alter_alt. by rewrite Ht.
Qed.

Lemma pick_none : tasks k !! NULL = None -> rr_choice k ts1 c ts2 = None ->
  scheduler_pick_next_task ~{ k }~>! FPtr NULL.
Proof.
  intros Hn Hp. unfold scheduler_pick_next_task. rewrite (bind_ok _ _ _ _ _ rr_run), Hp. cbn [default]. kstep.
  by rewrite (bind_err _ _ _ _ (upd_task_none _ _ _ Hn)).
Qed.
End RoundRobin.

(** ** Searches of the queue *)
Definition pid_of (k : K) (p : Z) : Z := match tasks k !! p with Some t => pid t | None => 0 end.
Definition has_pid (k : K) (n p : Z) : bool := pid_of k p =? n.

Section Search.
Context (k : K) (ts : list Z) (Hq : queued k ts).

Lemma find_pid_cases n :
  (List.find (has_pid k n) ts = None /\ forall p, p ∈ ts -> pid_of k p <> n) \/
  exists l1 p l2 t, ts = l1 ++ p :: l2 /\ List.find (has_pid k n) ts = Some p /\ tasks k !! p = Some t /\ pid t = n /\
    forall q, q ∈ l1 -> pid_of k q <> n.
Proof.
  destruct (first_such (has_pid k n) ts) as [Hno|(l1 & p & l2 & -> & Hp & Hl1)].
  - left. split; [|intros p Hp; by apply Z.eqb_neq, Hno]. destruct (List.find _ _) eqn:E; [|done].
    apply List.find_some in E as [Hin E]. apply list_elem_of_In in Hin. by rewrite Hno in E.
  - right. destruct (proj2 Hq p ltac:(set_solver)) as [t Ht]. exists l1, p, l2, t. split_and!; try done.
    + clear -Hp Hl1. induction l1 as [|q l1 IH]; cbn; [by rewrite Hp|]. rewrite Hl1 by (by left). apply IH. set_solver.
    + unfold has_pid, pid_of in Hp. rewrite Ht in Hp. by apply Z.eqb_eq.
    + intros q Hin. by apply Z.eqb_neq, Hl1.
Qed.

Lemma with_pid_skip {B} n p (found : M K B) : p ∈ ts -> pid_of k p <> n ->
  with_pid n (run_list p) found ~{ k }~> inl tt; k.
Proof.
  intros Hp Hn. destruct (proj2 Hq p Hp) as [t Ht]. unfold with_pid. rewrite entry_run_list. kstep.
  unfold pid_of in Hn. rewrite Ht in Hn. by rewrite (proj2 (Z.eqb_neq _ _) Hn).
Qed.

Lemma with_pid_hit {B} p t (found : M K B) b k' : tasks k !! p = Some t -> found ~{ k }~> b; k' ->
  with_pid (pid t) (run_list p) found ~{ k }~> inr b; k'.
Proof.
  intros Ht Hf. unfold with_pid. rewrite entry_run_list. kstep. rewrite Z.eqb_refl. by rewrite (bind_ok _ _ _ _ _ Hf).
Qed.

(** A search that finds nothing, and one that stops at the first task with the
    identifier. *)
Lemma search_none {B} n (found : Z -> M K B) : (forall p, p ∈ ts -> pid_of k p <> n) ->
  list_for_each_k runqueue_queue (fun it _ => with_pid n it (found it)) tt ~{ k }~> inl tt; k.
Proof.
  intros Hno. rewrite (list_for_each_k_run k _ _ (proj1 Hq) _ (fun _ _ => inl tt)).
  - do 2 f_equal. clear. by induction (run_list <$> ts).
  - intros x [] (p & -> & Hp)%list_elem_of_fmap. by apply with_pid_skip; [|apply Hno].
Qed.
Lemma search_hit {B} l1 p l2 t (found : Z -> M K B) b k' : ts = l1 ++ p :: l2 -> tasks k !! p = Some t ->
  (forall q, q ∈ l1 -> pid_of k q <> pid t) -> found (run_list p) ~{ k }~> b; k' ->
  list_for_each_k runqueue_queue (fun it _ => with_pid (pid t) it (found it)) tt ~{ k }~> inr b; k'.
Proof.
  intros Heq Ht Hl1 Hf.
  apply (list_for_each_k_find k _ _ (proj1 Hq) _ tt (run_list <$> l1) (run_list p) (run_list <$> l2)).
  - by rewrite Heq, fmap_app.
  - intros y (q & -> & Hin)%list_elem_of_fmap. apply with_pid_skip; [set_solver|by apply Hl1].
  - by apply with_pid_hit.
Qed.

Lemma get_running_run n : scheduler_get_running_process n ~{ k }~> default NULL (List.find (has_pid k n) ts); k.
Proof.
  unfold scheduler_get_running_process.
  destruct (find_pid_cases n) as [[-> Hno]|(l1 & p & l2 & t & Heq & -> & Ht & <- & Hl1)].
  - by rewrite (bind_ok _ _ _ _ _ (search_none n _ Hno)).
  - assert (Hf : (mret (entry_run (run_list p)) : M K Z) ~{ k }~> p; k) by (by rewrite entry_run_list).
    by rewrite (bind_ok _ _ _ _ _ (search_hit l1 p l2 t (fun it => mret (entry_run it)) p k Heq Ht Hl1 Hf)).
Qed.
End Search.

(** ** The bookkeeping of the queue *)
Definition periodic (k : K) (p : Z) : bool :=
  match tasks k !! p with Some t => is_periodic (se t) | None => false end.

(** The queue holds [ts], every other task is off the queue and the counters
    are those of [ts]. *)
Record queue_ok (k : K) (L : gmap Z (list Z)) (ts : list Z) : Prop := {
  qo_lists : lists (links k) L;
  qo_queue : L !! runqueue_queue = Some (run_list <$> ts);
  qo_tasks : forall p, p ∈ ts -> is_Some (tasks k !! p);
  qo_home : forall p, is_Some (tasks k !! p) -> run_list p <> runqueue_queue /\ (p ∈ ts \/ L !! run_list p = Some []);
  qo_active : num_active k = u32 (Z.of_nat (length ts));
  qo_periodic : num_periodic k = u32 (Z.of_nat (length (List.filter (periodic k) ts)))
}.

Lemma queue_ok_queued k L ts : queue_ok k L ts -> queued k ts.
Proof. intros Hq. split; [apply (proj1 (qo_lists _ _ _ Hq)), Hq|apply Hq]. Qed.

Lemma filter_ne_fmap p (ts : list Z) : filter (.≠ run_list p) (run_list <$> ts) = run_list <$> filter (.≠ p) ts.
Proof.
  induction ts as [|q ts IH]; [done|]. rewrite fmap_cons, !filter_cons. rewrite IH.
  destruct (decide (q = p)) as [->|Hne].
  - by rewrite !decide_False by tauto.
  - rewrite !decide_True; [done|done|]. intros Heq. by apply run_list_inj in Heq.
Qed.

Lemma enqueue_run k L ts p : queue_ok k L ts -> is_Some (tasks k !! p) -> p ∉ ts -> periodic k p = false ->
  exists k' L', scheduler_enqueue_task p ~{ k }~> tt; k' /\ queue_ok k' L' (ts ++ [p]) /\
    tasks k' = tasks k /\ curr k' = (if curr k =? NULL then p else curr k).
Proof.
  intros Hq Hp Hts Hper. destruct (qo_home _ _ _ Hq p Hp) as [Hne [?|Hdet]]; [done|].
  destruct (lists_add_tail _ _ (qo_lists _ _ _ Hq) _ _ _ Hdet (qo_queue _ _ _ Hq) Hne) as (s & Hrun & Hl).
  set (k1 := if curr k =? NULL then k <| curr := p |> else k).
  assert (Hk1 : links k1 = links k /\ tasks k1 = tasks k /\ num_active k1 = num_active k /\
    num_periodic k1 = num_periodic k /\ curr k1 = (if curr k =? NULL then p else curr k)).
  { unfold k1. by destruct (curr k =? NULL) eqn:E; rewrite ?E. }
  destruct Hk1 as (E1 & E2 & E3 & E4 & E5). rewrite <- E1 in Hrun.
  eexists _, _. split_and!.
  - unfold scheduler_enqueue_task. kstep.
    rewrite (bind_ok _ _ k tt k1) by (unfold k1; by destruct (curr k =? NULL)).
    rewrite (bind_ok _ _ _ _ _ (lnk_run _ _ _ _ Hrun)). reflexivity.
  - split.
    + cbn. exact Hl.
    + rewrite lookup_insert_eq, fmap_app. done.
    + intros q [Hin| ->%list_elem_of_singleton]%elem_of_app; cbn; rewrite E2; [by apply (qo_tasks _ _ _ Hq)|done].
    + intros q. cbn. rewrite E2. intros Hqt. destruct (qo_home _ _ _ Hq q Hqt) as [Hqn Hqh]. split; [done|].
      destruct (decide (q = p)) as [->|Hqp]; [left; set_solver|]. destruct Hqh as [Hqh|Hqh]; [left; set_solver|right].
      rewrite lookup_insert_ne by done. rewrite lookup_delete_ne; [done|]. intros Heq. by apply run_list_inj in Heq.
    + cbn. rewrite E3, (qo_active _ _ _ Hq), length_app. cbn [length]. wraplia.
    + cbn. rewrite E4, (qo_periodic _ _ _ Hq). unfold periodic in *. cbn. rewrite E2, List.filter_app. cbn [List.filter].
      rewrite Hper. by rewrite app_nil_r.
  - cbn. exact E2.
  - cbn. exact E5.
Qed.

Lemma filter_length_ne (f : Z -> bool) p (ts : list Z) : NoDup ts -> p ∈ ts ->
  length (List.filter f ts) = ((if f p then 1 else 0) + length (List.filter f (filter (.≠ p) ts)))%nat.
Proof.
  intros Hnd Hp. apply list_elem_of_split in Hp as (l1 & l2 & ->). rewrite filter_ne_middle by done.
  rewrite !List.filter_app. cbn [List.filter]. rewrite !length_app. destruct (f p); cbn [length]; lia.
Qed.

Lemma dequeue_run k L ts p : queue_ok k L ts -> p ∈ ts ->
  exists k' L', scheduler_dequeue_task p ~{ k }~> tt; k' /\ queue_ok k' L' (filter (.≠ p) ts) /\
    tasks k' = tasks k /\ curr k' = curr k.
Proof.
  intros Hq Hp. pose proof (queued_nodup _ _ (queue_ok_queued _ _ _ Hq)) as Hnd.
  destruct (lists_take _ _ (qo_lists _ _ _ Hq) _ (run_list p) _ (qo_queue _ _ _ Hq)) as (s & Hrun & Hl);
    [by apply elem_of_run_list|]. rewrite filter_ne_fmap in Hl.
  destruct (qo_tasks _ _ _ Hq p Hp) as [t Ht]. destruct (qo_home _ _ _ Hq p (mk_is_Some _ _ Ht)) as [Hne _].
  pose proof (filter_length_ne (fun _ => true) p ts Hnd Hp) as Hlen.
  pose proof (filter_length_ne (periodic k) p ts Hnd Hp) as Hper.
  assert (Hall : forall l : list Z, List.filter (fun _ => true) l = l) by (induction l; [done|cbn; congruence]).
  rewrite !Hall in Hlen. unfold periodic at 2 in Hper. rewrite Ht in Hper.
  pose (k1 := (k <| links := s |>) <| num_active := u32 (num_active k - 1) |>).
  pose (k2 := if is_periodic (se t) then k1 <| num_periodic := u32 (num_periodic k - 1) |> else k1).
  exists k2, (<[run_list p := []]> (<[runqueue_queue := run_list <$> filter (.≠ p) ts]> L)).
  assert (E : links k2 = s /\ tasks k2 = tasks k /\ curr k2 = curr k /\ num_active k2 = u32 (num_active k - 1) /\
    num_periodic k2 = if is_periodic (se t) then u32 (num_periodic k - 1) else num_periodic k).
  { unfold k2. by destruct (is_periodic (se t)). }
  destruct E as (E1 & E2 & E3 & E4 & E5). split_and!; [| |done|done].
  - unfold scheduler_dequeue_task. rewrite (bind_ok _ _ _ _ _ (lnk_run _ _ _ _ Hrun)). ksteps.
    unfold k2. by destruct (is_periodic (se t)).
  - split; rewrite ?E1, ?E2, ?E4, ?E5.
    + exact Hl.
    + rewrite lookup_insert_ne, lookup_insert_eq by done. done.
    + intros q [_ Hin]%list_elem_of_filter. by apply (qo_tasks _ _ _ Hq).
    + intros q Hqt. destruct (qo_home _ _ _ Hq q Hqt) as [Hqn Hqh]. split; [done|].
      destruct (decide (q = p)) as [->|Hqp]; [right; by rewrite lookup_insert_eq|].
      destruct Hqh as [Hqh|Hqh]; [left; by apply list_elem_of_filter|right].
      rewrite lookup_insert_ne, lookup_insert_ne; [done|done|]. intros Heq. by apply run_list_inj in Heq.
    + rewrite (qo_active _ _ _ Hq), Hlen. wraplia.
    + rewrite (qo_periodic _ _ _ Hq), Hper. unfold periodic. rewrite E2. destruct (is_periodic (se t)); [wraplia|done].
Qed.

(** Sequences of changes of the queue. *)
Inductive queue_op : Type := QEnqueue (p : Z) | QDequeue (p : Z).
Fixpoint run_queue_ops (ops : list queue_op) : M K unit :=
  match ops with
  | [] => mret tt
  | QEnqueue p :: ops => scheduler_enqueue_task p ;; run_queue_ops ops
  | QDequeue p :: ops => scheduler_dequeue_task p ;; run_queue_ops ops
  end.
(** What they mean: a task may be enqueued when it exists, is off the queue and
    not periodic, and dequeued when it is on the queue. *)
Fixpoint queue_spec (k : K) (ops : list queue_op) (ts : list Z) : option (list Z) :=
  match ops with
  | [] => Some ts
  | QEnqueue p :: ops =>
      if bool_decide (is_Some (tasks k !! p) /\ p ∉ ts) && negb (periodic k p)
      then queue_spec k ops (ts ++ [p]) else None
  | QDequeue p :: ops => if bool_decide (p ∈ ts) then queue_spec k ops (filter (.≠ p) ts) else None
  end.

Lemma queue_spec_tasks ops : forall k k' ts, tasks k' = tasks k -> queue_spec k' ops ts = queue_spec k ops ts.
Proof.
  induction ops as [|[p|p] ops IH]; intros k k' ts Hk; simpl; [done| |].
  - unfold periodic. rewrite Hk. destruct (_ && _); [by apply IH|done].
  - destruct (bool_decide _); [by apply IH|done].
Qed.

(** ** Reaping a child *)
Definition ready (k : K) (n p : Z) : bool :=
  match tasks k !! p with
  | Some t => (state t =? EXIT_ZOMBIE) && negb ((1 <? n) && negb (pid t =? n))
  | None => false
  end.

Lemma entry_sibling_sibling p : entry_sibling (sibling p) = p.
Proof. unfold entry_sibling, sibling. lia. Qed.

(** The lists after the task [z] is destroyed. *)
Definition reaped_lists (z : Z) (L : gmap Z (list Z)) : gmap Z (list Z) :=
  delete (run_list z) (delete (children z) (delete (sibling z) (delete (pending_list z)
    (unlink (run_list z) (unlink (sibling z) L))))).

Lemma task_nodes_ne z : NoDup [run_list z; children z; sibling z; pending_list z].
Proof. unfold run_list, children, sibling, pending_list. repeat constructor; rewrite ?elem_of_cons, ?elem_of_nil; lia. Qed.

Lemma unlink_lookup_ne e L h : h <> e -> unlink e L !! h = filter (.≠ e) <$> L !! h.
Proof. intros Hne. unfold unlink. by rewrite lookup_insert_ne, lookup_fmap. Qed.
Lemma unlink_lookup_eq e L : unlink e L !! e = Some [].
Proof. apply lookup_insert_eq. Qed.

Lemma unlink_placed s e f L : lists s L -> placed e L -> f <> e -> placed f L -> placed f (unlink e L).
Proof.
  intros HL He Hne [Hf|(h & xs & Hh & Hf)].
  - left. by rewrite unlink_lookup_ne, Hf.
  - right. exists h, (filter (.≠ e) xs). rewrite unlink_lookup_ne, Hh; [|].
    + split; [done|]. by apply list_elem_of_filter.
    + intros ->. pose proof (ring_nodup _ _ (proj1 HL _ _ Hh)) as [Hnd _]%NoDup_cons.
      destruct He as [He|(h' & ys & Hh' & Hin)]; [rewrite He in Hh; simplify_eq; set_solver|].
      rewrite (proj2 HL h' e ys xs e Hh' Hh) in Hh'; [|by right|by left]. by simplify_eq.
Qed.

Lemma free_task_run k z L al sz : lists (links k) L ->
  (forall h, h ∈ [run_list z; children z; sibling z; pending_list z] -> is_Some (L !! h)) ->
  ha_ok (kx k) al -> al !! z = Some sz ->
  exists k', free_task z ~{ k }~> tt; k' /\
    lists (links k') (delete (run_list z) (delete (children z) (delete (sibling z) (delete (pending_list z) L)))) /\
    ha_ok (kx k') (delete z al) /\ tasks k' = delete z (tasks k) /\ num_active k' = num_active k /\
    curr k' = curr k /\ umem k' = umem k.
Proof.
  intros HL Hin Hx Hz. destruct (ha_free_law _ _ _ _ Hx Hz) as (x' & Hr & Hx' & _).
  eexists. split; [unfold free_task; rewrite (bind_ok _ _ _ _ _ (srv_run _ _ _ _ Hr)); reflexivity|].
  split; [|by cbn]. cbn.
  destruct (Hin (run_list z)) as [l1 H1]; [set_solver|]. destruct (Hin (children z)) as [l2 H2]; [set_solver|].
  destruct (Hin (sibling z)) as [l3 H3]; [set_solver|]. destruct (Hin (pending_list z)) as [l4 H4]; [set_solver|].
  pose proof (task_nodes_ne z) as Hnd. rewrite !NoDup_cons, !not_elem_of_cons in Hnd.
  destruct Hnd as ((?&?&?&_) & (?&?&_) & (?&_) & _).
  apply (lists_drop _ _ HL) in H4 as HL4.
  assert (E3 : delete (pending_list z) L !! sibling z = Some l3) by (by rewrite lookup_delete_ne).
  apply (lists_drop _ _ HL4) in E3 as HL3.
  assert (E2 : delete (sibling z) (delete (pending_list z) L) !! children z = Some l2) by (by rewrite !lookup_delete_ne).
  apply (lists_drop _ _ HL3) in E2 as HL2.
  apply (lists_drop _ _ HL2 _ l1). by rewrite !lookup_delete_ne.
Qed.

(** A task that can be destroyed: its nodes are known and its block is in use. *)
Record disposable (z : Z) (L : gmap Z (list Z)) (al : gmap Z Z) : Prop := {
  dp_sibling : placed (sibling z) L;
  dp_run : placed (run_list z) L;
  dp_children : is_Some (L !! children z);
  dp_pending : is_Some (L !! pending_list z);
  dp_block : is_Some (al !! z)
}.

(** What is left of the kernel once [z] is destroyed. *)
Record reaped (k : K) (L : gmap Z (list Z)) (al : gmap Z Z) (z status : Z) (t : task_struct) (k' : K) : Prop := {
  rp_lists : lists (links k') (reaped_lists z L);
  rp_heap : ha_ok (kx k') (delete z al);
  rp_tasks : tasks k' = delete z (tasks k);
  rp_active : num_active k' = u32 (num_active k - 1);
  rp_curr : curr k' = curr k;
  rp_status : umem k' = if status =? NULL then umem k else <[status := state t]> (umem k)
}.

Lemma reap_child_run k L al z t status : lists (links k) L -> ha_ok (kx k) al -> tasks k !! z = Some t ->
  disposable z L al -> exists k', reap_child z status ~{ k }~> pid t; k' /\ reaped k L al z status t k'.
Proof.
  intros HL Hx Ht [Hsib Hrl [l2 Hch] [l4 Hpd] [sz Hz]].
  pose proof (task_nodes_ne z) as Hnd. rewrite !NoDup_cons, !not_elem_of_cons in Hnd.
  destruct Hnd as ((?&?&?&_) & (?&?&_) & (?&_) & _).
  assert (exists k1, (if negb (status =? NULL) then store_user status (state t) else mret tt) ~{ k }~> tt; k1 /\
    links k1 = links k /\ kx k1 = kx k /\ tasks k1 = tasks k /\ num_active k1 = num_active k /\
    curr k1 = curr k /\ umem k1 = if status =? NULL then umem k else <[status := state t]> (umem k))
    as (k1 & Hr1 & El & Ex & Et & Ea & Ec & Eu) by (destruct (status =? NULL); by eexists).
  rewrite <- El in HL. rewrite <- Ex in Hx. rewrite <- Et in Ht.
  destruct (ps_vfs_law (kx k1) al z Hx) as (x2 & Hr2 & Hx2).
  destruct (lists_unlink _ _ HL _ Hsib) as (s3 & Hr3 & HL3).
  pose proof (unlink_placed _ (sibling z) (run_list z) _ HL Hsib ltac:(done) Hrl) as Hrl3.
  destruct (lists_unlink _ _ HL3 _ Hrl3) as (s4 & Hr4 & HL4).
  set (k4 := ((k1 <| kx := x2 |>) <| links := s4 |>) <| num_active := u32 (num_active k1 - 1) |>).
  assert (exists k5, (if is_periodic (se t)
      then modify (fun k => k <| num_periodic := u32 (num_periodic k - 1) |>) else mret tt) ~{ k4 }~> tt; k5 /\
    links k5 = s4 /\ kx k5 = x2 /\ tasks k5 = tasks k1 /\ num_active k5 = u32 (num_active k1 - 1) /\
    curr k5 = curr k1 /\ umem k5 = umem k1) as (k5 & Hr5 & El5 & Ex5 & Et5 & Ea5 & Ec5 & Eu5)
    by (destruct (is_periodic (se t)); by eexists).
  rewrite <- El5 in HL4. rewrite <- Ex5 in Hx2.
  destruct (free_task_run k5 z _ al sz HL4) as (k6 & Hr6 & HL6 & Hx6 & Et6 & Ea6 & Ec6 & Eu6); [|done|done|].
  { intros h Hh. rewrite !elem_of_cons, elem_of_nil in Hh. destruct Hh as [->|[->|[->|[->|[]]]]].
    - by rewrite unlink_lookup_eq.
    - rewrite !unlink_lookup_ne, Hch by done. done.
    - rewrite unlink_lookup_ne, unlink_lookup_eq by done. done.
    - rewrite !unlink_lookup_ne, Hpd by done. done. }
  exists k6. split.
  - unfold reap_child. rewrite Et in Ht. kstep. run Hr1. rewrite <- Et in Ht.
    runs Hr2. runl Hr3.
    unfold scheduler_dequeue_task. rewrite !bind_assoc.
    runl Hr4. ksteps.
    run Hr5. by run Hr6.
  - split; [exact HL6|exact Hx6|by rewrite Et6, Et5, Et|by rewrite Ea6, Ea5, Ea|by rewrite Ec6, Ec5, Ec|by rewrite Eu6, Eu5].
Qed.


(** The current task [c] and its children [cs]. *)
Record family (k : K) (L : gmap Z (list Z)) (al : gmap Z Z) (t : task_struct) (cs : list Z) : Prop := {
  fm_curr : curr k <> NULL;
  fm_task : tasks k !! curr k = Some t;
  fm_lists : lists (links k) L;
  fm_heap : ha_ok (kx k) al;
  fm_children : L !! children (curr k) = Some (sibling <$> cs);
  fm_child : forall z, z ∈ cs -> z <> NULL /\ is_Some (tasks k !! z) /\ disposable z L al
}.

Lemma visit_skip k n st z t u : tasks k !! z = Some t -> z <> NULL -> ready k n z = false ->
  waitpid_visit n st (sibling z) u ~{ k }~> inl tt; k.
Proof.
  intros Ht Hz Hr. unfold waitpid_visit. cbv zeta. rewrite entry_sibling_sibling, (proj2 (Z.eqb_neq _ _) Hz). kstep.
  unfold ready in Hr. rewrite Ht in Hr. destruct (state t =? EXIT_ZOMBIE); [|done].
  cbn [negb andb] in *. by destruct (_ && _).
Qed.
Lemma visit_reap k n st z t u k' : tasks k !! z = Some t -> z <> NULL -> ready k n z = true ->
  reap_child z st ~{ k }~> pid t; k' -> waitpid_visit n st (sibling z) u ~{ k }~> inr (pid t); k'.
Proof.
  intros Ht Hz Hr Hrun. unfold waitpid_visit. cbv zeta. rewrite entry_sibling_sibling, (proj2 (Z.eqb_neq _ _) Hz). kstep.
  unfold ready in Hr. rewrite Ht in Hr. destruct (state t =? EXIT_ZOMBIE); [|done].
  cbn [negb andb] in *. destruct (_ && _); [done|]. by run Hrun.
Qed.

Lemma children_walk k L al t cs n st : family k L al t cs ->
  match List.find (ready k n) cs with
  | None => list_for_each_k (children (curr k)) (waitpid_visit n st) tt ~{ k }~> inl tt; k
  | Some z => exists tz k', tasks k !! z = Some tz /\ reaped k L al z st tz k' /\
      list_for_each_k (children (curr k)) (waitpid_visit n st) tt ~{ k }~> inr (pid tz); k'
  end.
Proof.
  intros Hf. pose proof (proj1 (fm_lists _ _ _ _ _ Hf) _ _ (fm_children _ _ _ _ _ Hf)) as Hl.
  destruct (first_such (ready k n) cs) as [Hno|(l1 & z & l2 & Heq & Hz & Hl1)].
  - destruct (List.find (ready k n) cs) eqn:E.
    { apply List.find_some in E as [Hin E]. apply list_elem_of_In in Hin. by rewrite Hno in E. }
    rewrite (list_for_each_k_run k _ _ Hl _ (fun _ _ => inl tt)).
    + do 2 f_equal. clear. by induction (sibling <$> cs).
    + intros x u (z & -> & Hin)%list_elem_of_fmap. destruct (fm_child _ _ _ _ _ Hf z Hin) as (Hne & [tz Htz] & _).
      by apply (visit_skip k n st z tz); [| |apply Hno].
  - assert (List.find (ready k n) cs = Some z) as ->.
    { rewrite Heq. clear -Hz Hl1. induction l1 as [|q l1 IH]; cbn; [by rewrite Hz|]. rewrite Hl1 by (by left). apply IH. set_solver. }
    destruct (fm_child _ _ _ _ _ Hf z) as (Hne & [tz Htz] & Hd); [rewrite Heq; set_solver|].
    destruct (reap_child_run k L al z tz st (fm_lists _ _ _ _ _ Hf) (fm_heap _ _ _ _ _ Hf) Htz Hd) as (k' & Hrun & Hk').
    exists tz, k'. split_and!; [done|done|].
    apply (list_for_each_k_find k _ _ Hl _ tt (sibling <$> l1) (sibling z) (sibling <$> l2)).
    + by rewrite Heq, fmap_app.
    + intros y (q & -> & Hin)%list_elem_of_fmap.
      destruct (fm_child _ _ _ _ _ Hf q) as (Hqn & [tq Htq] & _); [rewrite Heq; set_solver|].
      by apply (visit_skip k n st q tq); [| |apply Hl1].
    + by apply visit_reap.
Qed.

(** ** What the scheduler promises *)

(** C22: with the tasks [ts1 ++ c :: ts2] on the queue and [c] running, the next
    task is [c] when it is alone and otherwise the first runnable task after [c]
    in circular order, [c] itself excluded; its execution starts at the current
    tick and nothing else changes. When no other task is runnable nothing is
    chosen, even if [c] is runnable, and the code writes through NULL. *)
Theorem pick_next_correct k ts1 c ts2 : queued k (ts1 ++ c :: ts2) -> curr k = c ->
  Z.of_nat (length (ts1 ++ c :: ts2)) < 4294967296 -> tasks k !! NULL = None ->
  match rr_choice k ts1 c ts2 with
  | Some p => scheduler_pick_next_task ~{ k }~> p; started k p
  | None => scheduler_pick_next_task ~{ k }~>! FPtr NULL
  end.
Proof.
  intros Hq Hc Hlen Hn. destruct (rr_choice k ts1 c ts2) as [p|] eqn:E.
  - by apply (pick_run k ts1 ts2 c).
  - by apply (pick_none k ts1 ts2 c).
Qed.

(** C32: any sequence of enqueues of existing tasks that are not periodic and not on
    the queue, and of dequeues of tasks that are on it, periodic or not, runs
    without a fault; the queue then holds the tasks in the order of arrival and
    the counters of active and periodic tasks agree with it. (The enqueue does not
    count a periodic task, the dequeue does: a periodic task is counted when
    [sys_sched_setparam] makes it one.) *)
Theorem run_queue_sessions ops : forall k L ts ts', queue_ok k L ts -> queue_spec k ops ts = Some ts' ->
  exists k' L', run_queue_ops ops ~{ k }~> tt; k' /\ queue_ok k' L' ts' /\ tasks k' = tasks k /\
    (curr k <> NULL -> curr k' = curr k).
Proof.
  induction ops as [|[p|p] ops IH]; intros k L ts ts' Hq Hspec; cbn [run_queue_ops queue_spec] in *.
  - simplify_eq. by exists k, L.
  - destruct (bool_decide _) eqn:Hb; [|done]. apply bool_decide_eq_true in Hb as [Hp Hts].
    destruct (periodic k p) eqn:Hper; [done|]. cbn [negb andb] in Hspec.
    destruct (enqueue_run k L ts p Hq Hp Hts Hper) as (k1 & L1 & Hr & Hq1 & Ht1 & Hc1).
    rewrite <- (queue_spec_tasks ops _ _ _ Ht1) in Hspec.
    destruct (IH k1 L1 _ _ Hq1 Hspec) as (k' & L' & Hr' & Hq' & Ht' & Hc').
    exists k', L'. split; [by run Hr|]. split; [done|]. split; [congruence|].
    intros Hne. rewrite (proj2 (Z.eqb_neq _ _) Hne) in Hc1. rewrite <- Hc1. apply Hc'. by rewrite Hc1.
  - destruct (bool_decide _) eqn:Hb; [|done]. apply bool_decide_eq_true in Hb.
    destruct (dequeue_run k L ts p Hq Hb) as (k1 & L1 & Hr & Hq1 & Ht1 & Hc1).
    rewrite <- (queue_spec_tasks ops _ _ _ Ht1) in Hspec.
    destruct (IH k1 L1 _ _ Hq1 Hspec) as (k' & L' & Hr' & Hq' & Ht' & Hc').
    exists k', L'. split; [by run Hr|]. split; [done|]. split; [congruence|]. intros Hne. rewrite Hc'; congruence.
Qed.

Definition clamp (lo hi x : Z) : Z := Z.max lo (Z.min hi x).

(** [sys_nice] moves the niceness of the current task by the increment,
    itself limited to 40 either way, stops at -20 and 19, returns the niceness
    obtained and stores the priority that corresponds to it. *)
Theorem nice_correct k t increment : curr k <> NULL -> tasks k !! curr k = Some t ->
  MAX_RT_PRIO <= prio (se t) < MAX_RT_PRIO + NICE_WIDTH ->
  let n := clamp MIN_NICE MAX_NICE (prio (se t) - DEFAULT_PRIO + clamp (-40) 40 increment) in
  sys_nice increment ~{ k }~> n;
    k <| tasks := <[curr k := t <| se := (se t) <| prio := n + DEFAULT_PRIO |> |>]> (tasks k) |>.
Proof.
  intros Hc Ht Hp. unfold MAX_RT_PRIO, NICE_WIDTH, MAX_NICE, MIN_NICE, DEFAULT_PRIO in *. cbv zeta.
  unfold sys_nice, current_or_panic. ksteps. rewrite (proj2 (Z.eqb_neq _ _) Hc). ksteps.
  set (inc := if 40 <? (if increment <? -40 then -40 else increment) then 40 else _).
  assert (Hinc : inc = clamp (-40) 40 increment) by (unfold inc, clamp; repeat case_match; lia).
  rewrite Hinc. assert (Hcl : -40 <= clamp (-40) 40 increment <= 40) by (unfold clamp; lia).
  set (d := clamp (-40) 40 increment) in *. clearbody d. clear inc Hinc.
  unfold PRIO_TO_NICE, NICE_TO_PRIO, DEFAULT_PRIO, NICE_WIDTH, MAX_RT_PRIO, MAX_NICE, MIN_NICE.
  change (100 + (19 - -20 + 1) / 2) with 120 in *. change (100 + (19 - -20 + 1)) with 140 in Hp.
  rewrite (s32_small (prio (se t) - 120)), (s32_small (prio (se t) - 120 + d)) by lia.
  set (n0 := if 19 <? _ then 19 else _).
  assert (Hn : n0 = clamp (-20) 19 (prio (se t) - 120 + d)) by (unfold n0, clamp; repeat case_match; lia).
  rewrite Hn. clear n0 Hn. set (n := clamp _ _ _).
  assert (Hr : -20 <= n <= 19) by (unfold n, clamp; lia). clearbody n.
  rewrite (s32_small (n + 120)) by lia.
  rewrite (proj2 (Z.leb_le (-20) n)), (proj2 (Z.leb_le n 19)), !andb_true_r by lia.
  destruct (Z.eqb_spec (prio (se t) - 120) n) as [Heq|Hne]; cbn [negb].
  - ksteps. unfold mret, M_ret. rewrite s32_small, Heq by lia. do 2 f_equal.
    replace (n + 120) with (prio (se t)) by lia.
    replace (t <| se := _ |>) with t by (by destruct t as [? ? ? ? ? ? ? ? ? [] ]).
    rewrite insert_id by done. by destruct k.
  - ksteps. unfold mret, M_ret. cbn [se prio setter]. rewrite s32_small by lia. do 2 f_equal. lia.
Qed.


(** The parameters a call of [sys_sched_setparam] installs. *)
Definition with_params (k : K) (prm : sched_param_t) (t : task_struct) : task_struct :=
  t <| se := SchedEntity (sp_sched_priority prm) (start_runtime (se t)) (exec_start (se t)) (exec_runtime (se t))
    (sum_exec_runtime (se t)) (vruntime (se t)) (sp_period prm) (u32 (u32 (ticks k) + sp_deadline prm)) (sp_arrivaltime prm)
    false (sp_is_periodic prm) true (u32 (ticks k)) (worst_case_exec (se t)) |>.

Lemma set_params_run k p t prm : tasks k !! p = Some t ->
  exists k', set_params prm (run_list p) ~{ k }~> 1; k' /\ tasks k' = <[p := with_params k prm t]> (tasks k) /\
    links k' = links k.
Proof.
  intros Ht. unfold set_params. rewrite entry_run_list. kstep.
  assert (exists k1, (if negb (is_periodic (se t)) && sp_is_periodic prm
     then modify (fun k => k <| num_periodic := u32 (num_periodic k + 1) |>)
     else if is_periodic (se t) && negb (sp_is_periodic prm)
     then modify (fun k => k <| num_periodic := u32 (num_periodic k - 1) |>)
     else mret tt) ~{ k }~> tt; k1 /\ links k1 = links k /\ tasks k1 = tasks k /\ ticks k1 = ticks k)
    as (k1 & Hr & El & Et & Ei) by (repeat case_match; by eexists).
  run Hr. rewrite <- Et in Ht. ksteps. eexists. split; [reflexivity|]. cbn. rewrite Et, Ei. done.
Qed.
Lemma get_params_run k p t q : tasks k !! p = Some t ->
  get_params q (run_list p) ~{ k }~> (1, SchedParam (prio (se t)) (period (se t)) (deadline (se t)) (arrivaltime (se t))
    (sp_is_periodic q)); k.
Proof. intros Ht. unfold get_params. rewrite entry_run_list. by kstep. Qed.

(** [sys_sched_setparam] installs the parameters in the first task with the
    pid, with the deadline made absolute, and [sys_sched_getparam] reads them back,
    except [is_periodic], which it leaves as the caller had it; both return -1 and
    change nothing when no task on the queue has the pid. *)
Theorem sched_params_roundtrip k ts n prm q : queued k ts ->
  match List.find (has_pid k n) ts with
  | None => sys_sched_setparam n prm ~{ k }~> -1; k /\ sys_sched_getparam n q ~{ k }~> (-1, q); k
  | Some p => exists t k', tasks k !! p = Some t /\ sys_sched_setparam n prm ~{ k }~> 1; k' /\
      tasks k' = <[p := with_params k prm t]> (tasks k) /\
      sys_sched_getparam n q ~{ k' }~> (1, SchedParam (sp_sched_priority prm) (sp_period prm)
        (u32 (u32 (ticks k) + sp_deadline prm)) (sp_arrivaltime prm) (sp_is_periodic q)); k'
  end.
Proof.
  intros Hq. unfold sys_sched_setparam, sys_sched_getparam.
  destruct (find_pid_cases k ts Hq n) as [[-> Hno]|(l1 & p & l2 & t & Heq & -> & Ht & <- & Hl1)].
  - by split; [run (search_none k ts Hq n (set_params prm) Hno)|run (search_none k ts Hq n (get_params q) Hno)].
  - destruct (set_params_run k p t prm Ht) as (k' & Hrun & Hk' & Hl'). exists t, k'. split_and!; [done| |done|].
    + by run (search_hit k ts Hq l1 p l2 t (set_params prm) 1 k' Heq Ht Hl1 Hrun).
    + assert (Hq' : queued k' ts).
      { split; [rewrite Hl'; apply Hq|]. intros x Hx. rewrite Hk'. destruct (decide (x = p)) as [->|Hne];
          [by rewrite lookup_insert_eq|rewrite lookup_insert_ne by done; by apply Hq]. }
      set (t' := with_params k prm t) in *.
      assert (Ht' : tasks k' !! p = Some t') by (by rewrite Hk', lookup_insert_eq).
      assert (Hpids : forall y, y ∈ l1 -> pid_of k' y <> pid t').
      { intros y Hy. replace (pid_of k' y) with (pid_of k y); [by apply Hl1|]. unfold pid_of. rewrite Hk'.
        destruct (decide (y = p)) as [->|Hne]; [by rewrite lookup_insert_eq, Ht|by rewrite lookup_insert_ne]. }
      change (pid t) with (pid t').
      by run (search_hit k' ts Hq' l1 p l2 t' (get_params q) _ k' Heq Ht' Hpids (get_params_run k' p t' q Ht')).
Qed.

End Scheduler.

(** ** The concrete kernel *)
Lemma demo_queued : queued demo_kern [T1; T2; T3].
Proof.
  split; [apply (proj1 demo_kern_lists_ok); reflexivity|].
  intros p Hp. rewrite !elem_of_cons, elem_of_nil in Hp. destruct Hp as [->|[->|[->|[]]]]; eexists; reflexivity.
Qed.
Lemma demo_tasks_only p : is_Some (demo_tasks !! p) -> p = T1 \/ p = T2 \/ p = T3.
Proof.
  intros [t Ht]. unfold demo_tasks in Ht. rewrite !lookup_insert_Some, lookup_singleton_Some in Ht. naive_solver.
Qed.

Lemma pick_next_correct_witness : scheduler_pick_next_task ~{ demo_kern }~> T3; started demo_kern T3.
Proof.
  pose proof (pick_next_correct demo_kern [T1] T2 [T3] demo_queued eq_refl eq_refl eq_refl) as Hp.
  assert (E : rr_choice demo_kern [T1] T2 [T3] = Some T3) by (vm_compute; reflexivity).
  rewrite E in Hp. exact Hp.
Defined.

Lemma demo_queue_ok : queue_ok demo_kern demo_kern_lists [T1; T2; T3].
Proof.
  split; [apply demo_kern_lists_ok|reflexivity|apply demo_queued| |reflexivity|reflexivity].
  intros p Hp. apply demo_tasks_only in Hp as [->|[->| ->]]; (split; [done|left; set_solver]).
Qed.

(** Task 2 leaves the queue and comes back behind task 3. *)
Lemma run_queue_sessions_witness :
  exists k' L', run_queue_ops [QDequeue T2; QEnqueue T2] ~{ demo_kern }~> tt; k' /\ queue_ok k' L' [T1; T3; T2].
Proof.
  assert (E : queue_spec demo_kern [QDequeue T2; QEnqueue T2] [T1; T2; T3] = Some [T1; T3; T2]) by (vm_compute; reflexivity).
  pose proof (run_queue_sessions _ demo_kern _ _ _ demo_queue_ok E) as (k' & L' & Hr & Hq & _).
  exists k', L'. exact (conj Hr Hq).
Defined.

Lemma nice_correct_witness : sys_nice 100 ~{ demo_kern }~> 19;
  demo_kern <| tasks := <[T2 := (demo_task 2 T1) <| se := demo_entity <| prio := 139 |> |>]> demo_tasks |>.
Proof. apply (nice_correct demo_kern (demo_task 2 T1) 100); [done|reflexivity|by vm_compute]. Defined.

(** Task 3 has exited. *)
Definition demo_zombie :=
  demo_kern <| tasks := <[T3 := (demo_task 3 T2) <| state := EXIT_ZOMBIE |>]> demo_tasks |>.

Lemma demo_family : family demo_zombie demo_kern_lists demo_blocks (demo_task 2 T1) [T3].
Proof.
  split; [done|reflexivity|apply demo_kern_lists_ok|apply demo_heap_ok|reflexivity|].
  intros z ->%list_elem_of_singleton. split; [done|]. split; [by eexists|]. split.
  - right. exists (children T2), [sibling T3]. split; [reflexivity|by left].
  - right. exists runqueue_queue, [run_list T1; run_list T2; run_list T3]. split; [reflexivity|set_solver].
  - by eexists.
  - by eexists.
  - by eexists.
Qed.


Lemma sched_params_roundtrip_witness :
  exists k', sys_sched_setparam 3 (SchedParam 110 20 10 5 true) ~{ demo_kern }~> 1; k' /\
    sys_sched_getparam 3 (SchedParam 0 0 0 0 false) ~{ k' }~> (1, SchedParam 110 20 1010 5 false); k'.
Proof.
  pose proof (sched_params_roundtrip demo_kern [T1; T2; T3] 3 (SchedParam 110 20 10 5 true) (SchedParam 0 0 0 0 false)
    demo_queued) as Hs.
  assert (E : List.find (has_pid demo_kern 3) [T1; T2; T3] = Some T3) by (vm_compute; reflexivity).
  rewrite E in Hs. destruct Hs as (t & k' & _ & H1 & _ & H2).
  exists k'. exact (conj H1 H2).
Defined.

End Scheduler.
