(* ===== verification/Signal.v ===== *)
(** * Signals (src/kernel/system/signal.c)

    Signal sets, sending a signal, taking the next one from the queue, calling a
    handler and returning from it, and the system calls on signals. The loop that
    delivers the pending signals, [do_signal], calls [sys_exit] and the scheduler
    and is in [Delivery.v]. *)

From S2P Require Import Prelude Interfaces ListHead Kheap Task Scheduler.
From Stdlib Require String.
Import String.StringSyntax.
#[local] Delimit Scope string_scope with string.

Module Signal.
Import ListHead Task Scheduler.

(** ** Signal numbers *)
Definition SIGHUP : Z := 1.
Definition SIGCHLD : Z := 18.
Definition SIGSTOP : Z := 23.
Definition SIGTSTP : Z := 24.
Definition SIGCONT : Z := 25.
Definition SIGTTIN : Z := 26.
Definition SIGTTOU : Z := 27.
Definition NSIG : Z := 32.
Definition SI_USER : Z := 1.
Definition SI_KERNEL : Z := 2.
Definition SIG_DFL : Z := 0.
Definition SIG_IGN : Z := 1.
Definition SIG_ERR : Z := 4294967295.
Definition SA_NOCLDSTOP : Z := 1.
Definition SA_SIGINFO : Z := 4.
Definition SA_ONSTACK : Z := 134217728.
Definition SA_NODEFER : Z := 1073741824.
Definition SA_RESETHAND : Z := 2147483648.
Definition SIG_BLOCK : Z := 0.
Definition SIG_UNBLOCK : Z := 1.
Definition SIG_SETMASK : Z := 2.

Definition sys_siglist : list String.string :=
  ["HUP"; "INT"; "QUIT"; "ILL"; "TRAP"; "ABRT"; "EMT"; "FPE"; "KILL"; "BUS"; "SEGV"; "SYS"; "PIPE"; "ALRM";
   "TERM"; "USR1"; "USR2"; "CHLD"; "PWR"; "WINCH"; "URG"; "POLL"; "STOP"; "TSTP"; "CONT"; "TTIN"; "TTOU";
   "VTALRM"; "PROF"; "XCPU"; "XFSZ"]%string.
(** [None] is NULL. *)
Definition strsignal (sig : Z) : option String.string :=
  if (SIGHUP <=? sig) && (sig <? NSIG) then zlookup sys_siglist (sig - 1) else None.

(** ** Signal sets

    The operations take a pointer: their state is the array it points to, or
    [None] for NULL. *)
Definition sigset_word (w : list Z) (signum : Z) : res (Z * Z * Z) :=
  let i := Z.quot (signum - 1) 32 in
  let b := Z.rem (signum - 1) 32 in
  if b <? 0 then Err (FBound b)
  else match zlookup w i with Some v => Ok (i, b, v) | None => Err (FBound i) end.

Definition sigset_assign (f : Z -> Z -> Z) (signum : Z) (w : list Z) : res (list Z) :=
  match sigset_word w signum with Ok (i, b, v) => Ok (zinsert w i (f v b)) | Err e => Err e end.

Definition sigset_fill (v : Z) : M (option (list Z)) Z := fun set =>
  match set with
  | Some w => match zlookup w 0 with Some _ => Ok (0, Some (zinsert w 0 v)) | None => Err (FBound 0) end
  | None => Ok (-1, None)
  end.
Definition sigemptyset : M (option (list Z)) Z := sigset_fill 0.
Definition sigfillset : M (option (list Z)) Z := sigset_fill (u32_not 0).

Definition sigaddset (signum : Z) : M (option (list Z)) Z := fun set =>
  match set with
  | Some w => if negb (signum =? 0)
              then match sigset_assign word_set signum w with Ok w' => Ok (0, Some w') | Err e => Err e end
              else Ok (-1, set)
  | None => Ok (-1, None)
  end.
Definition sigdelset (signum : Z) : M (option (list Z)) Z := fun set =>
  match set with
  | Some w => match sigset_assign word_clear signum w with Ok w' => Ok (0, Some w') | Err e => Err e end
  | None => Ok (-1, None)
  end.
Definition sigismember (signum : Z) : M (option (list Z)) Z := fun set =>
  match set with
  | Some w => match sigset_word w signum with
              | Ok (_, b, v) => Ok (s32 (Z.land v (u32 (Z.shiftl 1 b))), set)
              | Err e => Err e
              end
  | None => Ok (-1, None)
  end.

(** bitops.h *)
Fixpoint first_bit (n : nat) (i : Z) (want : bool) (value : Z) : Z :=
  match n with
  | O => 0
  | S n => if Bool.eqb (word_test value i) want then i else first_bit n (i + 1) want value
  end.
Definition find_first_zero (value : Z) : Z := first_bit 32 0 false value.
Definition find_first_non_zero (value : Z) : Z := first_bit 32 0 true value.
Definition bitmask_clear (v m : Z) : Z := Z.land v (u32_not m).

Definition next_signal (pending mask : list Z) : res Z :=
  match pending, mask with
  | p0 :: ps, m0 :: ms =>
      let x := bitmask_clear p0 m0 in
      if negb (x =? 0) then Ok (1 + find_first_non_zero x)
      else match ps, ms with
           | p1 :: _, m1 :: _ =>
               let x := bitmask_clear p1 m1 in
               if negb (x =? 0) then Ok (33 + find_first_non_zero x) else Ok 0
           | _, _ => Err (FBound 1)
           end
  | _, _ => Err (FBound 0)
  end.

(** ** Signal sets as sets of numbers *)
Definition two_words (w : list Z) : Prop := exists a b, w = [a; b] /\ is_u32 a /\ is_u32 b.
(** Signal [n] is in the set. *)
Definition mem (w : list Z) (n : Z) : bool :=
  match zlookup w ((n - 1) / 32) with Some v => Z.testbit v ((n - 1) mod 32) | None => false end.

Lemma two_words_lookup w i : two_words w -> 0 <= i < 2 -> exists v, zlookup w i = Some v /\ is_u32 v.
Proof.
  intros (a & b & -> & Ha & Hb) Hi. assert (i = 0 \/ i = 1) as [->| ->] by lia; [by exists a|by exists b].
Qed.
Lemma two_words_insert w i v : two_words w -> 0 <= i < 2 -> is_u32 v -> two_words (zinsert w i v).
Proof.
  intros (a & b & -> & Ha & Hb) Hi Hv. assert (i = 0 \/ i = 1) as [->| ->] by lia; [by exists v, b|by exists a, v].
Qed.

Lemma same_slot m n : (m - 1) / 32 = (n - 1) / 32 -> (m - 1) mod 32 = (n - 1) mod 32 -> m = n.
Proof. intros H1 H2. pose proof (Z.div_mod (m - 1) 32 ltac:(lia)). pose proof (Z.div_mod (n - 1) 32 ltac:(lia)). lia. Qed.

Section Sets.
Context (w : list Z) (Hw : two_words w) (n : Z) (Hn : 1 <= n <= 64).

Lemma sigset_word_run : exists v, is_u32 v /\ zlookup w ((n - 1) / 32) = Some v /\
  sigset_word w n = Ok ((n - 1) / 32, (n - 1) mod 32, v).
Proof.
  destruct (two_words_lookup w ((n - 1) / 32) Hw) as (v & Hv & Hr); [dlia|].
  exists v. split; [done|]. split; [done|]. unfold sigset_word.
  rewrite Z.quot_div_nonneg, Z.rem_mod_nonneg by lia.
  destruct (Z.ltb_spec ((n - 1) mod 32) 0); [dlia|]. by rewrite Hv.
Qed.

Lemma mem_insert v m : 1 <= m <= 64 ->
  mem (zinsert w ((n - 1) / 32) v) m = if (m - 1) / 32 =? (n - 1) / 32 then Z.testbit v ((m - 1) mod 32) else mem w m.
Proof.
  intros Hm. unfold mem. destruct Hw as (a & b & -> & _ & _). destruct (Z.eqb_spec ((m - 1) / 32) ((n - 1) / 32)) as [->|Hne].
  - rewrite zlookup_zinsert_eq by (cbn; dlia). done.
  - by rewrite zlookup_zinsert_ne.
Qed.

Lemma sigaddset_run : exists w', sigaddset n (Some w) = Ok (0, Some w') /\ two_words w' /\
  forall m, 1 <= m <= 64 -> mem w' m = (m =? n) || mem w m.
Proof.
  destruct sigset_word_run as (v & Hv & Hl & Hr). unfold sigaddset, sigset_assign.
  destruct (Z.eqb_spec n 0); [lia|]. cbn [negb]. rewrite Hr. eexists. split; [done|].
  assert (Hb : forall x, 0 <= x mod 32 < 32) by (intros x; by apply Z.mod_pos_bound).
  split; [apply two_words_insert; [done|dlia|by apply word_set_range; [|apply Hb]]|].
  intros m Hm. rewrite mem_insert by done. unfold mem. destruct (Z.eqb_spec ((m - 1) / 32) ((n - 1) / 32)) as [E|E].
  - rewrite E, Hl, word_set_testbit by apply Hb. f_equal.
    destruct (Z.eqb_spec m n) as [->|Hne]; case_bool_decide as Hm'; try done; exfalso; by apply Hne, same_slot.
  - destruct (Z.eqb_spec m n) as [->|Hne]; done.
Qed.

Lemma sigdelset_run : exists w', sigdelset n (Some w) = Ok (0, Some w') /\ two_words w' /\
  forall m, 1 <= m <= 64 -> mem w' m = negb (m =? n) && mem w m.
Proof.
  destruct sigset_word_run as (v & Hv & Hl & Hr). unfold sigdelset, sigset_assign. rewrite Hr. eexists. split; [done|].
  assert (Hb : forall x, 0 <= x mod 32 < 32) by (intros x; by apply Z.mod_pos_bound).
  split; [apply two_words_insert; [done|dlia|by apply word_clear_range; [|apply Hb]]|].
  intros m Hm. rewrite mem_insert by done. unfold mem. destruct (Z.eqb_spec ((m - 1) / 32) ((n - 1) / 32)) as [E|E].
  - rewrite E, Hl, word_clear_testbit by (done || apply Hb). f_equal.
    destruct (Z.eqb_spec m n) as [->|Hne]; case_bool_decide as Hm'; try done; exfalso; by apply Hne, same_slot.
  - destruct (Z.eqb_spec m n) as [->|Hne]; done.
Qed.

Lemma sigismember_run : exists r, sigismember n (Some w) = Ok (r, Some w) /\ negb (r =? 0) = mem w n.
Proof.
  destruct sigset_word_run as (v & Hv & Hl & Hr). unfold sigismember. rewrite Hr. eexists. split; [done|].
  assert (Hb : forall x, 0 <= x mod 32 < 32) by (intros x; by apply Z.mod_pos_bound). unfold mem. rewrite Hl, <- word_test_testbit by apply Hb. unfold word_test.
  set (x := Z.land v _). assert (Hx : is_u32 x).
  { split; [apply Z.land_nonneg; left; apply Hv|]. apply word_bound_testbit.
    - apply Z.land_nonneg. left. apply Hv.
    - intros k Hk. unfold x. rewrite Z.land_spec, (word_testbit_high v) by (done || lia). done. }
  f_equal. destruct (Z.eqb_spec x 0) as [->|Hne]; [done|]. destruct (Z.eqb_spec (s32 x) 0); [|done]. wraplia.
Qed.

(** The whole first word. *)
Lemma sigset_fill_mem v : is_u32 v -> exists w', sigset_fill v (Some w) = Ok (0, Some w') /\ two_words w' /\
  forall m, 1 <= m <= 64 -> mem w' m = if m <=? 32 then Z.testbit v (m - 1) else mem w m.
Proof.
  intros Hv. destruct Hw as (a & b & -> & Ha & Hb). exists [v; b]. split; [done|]. split; [by exists v, b|].
  intros m Hm. unfold mem. destruct (Z.leb_spec m 32).
  - by rewrite Z.div_small, Z.mod_small by lia.
  - by replace ((m - 1) / 32) with 1 by dlia.
Qed.

End Sets.

(** Adding, removing and looking up a signal number are those operations on
    the set of the numbers from 1 to 64; emptying and filling a set only reach the
    numbers up to 32, the others stay. *)
Theorem sigset_correct w n : two_words w -> 1 <= n <= 64 ->
  (exists w', sigaddset n (Some w) = Ok (0, Some w') /\ two_words w' /\
     forall m, 1 <= m <= 64 -> mem w' m = (m =? n) || mem w m) /\
  (exists w', sigdelset n (Some w) = Ok (0, Some w') /\ two_words w' /\
     forall m, 1 <= m <= 64 -> mem w' m = negb (m =? n) && mem w m) /\
  (exists r, sigismember n (Some w) = Ok (r, Some w) /\ negb (r =? 0) = mem w n) /\
  (exists w', sigemptyset (Some w) = Ok (0, Some w') /\ two_words w' /\
     forall m, 1 <= m <= 64 -> mem w' m = negb (m <=? 32) && mem w m) /\
  (exists w', sigfillset (Some w) = Ok (0, Some w') /\ two_words w' /\
     forall m, 1 <= m <= 64 -> mem w' m = (m <=? 32) || mem w m).
Proof.
  intros Hw Hn. split; [by apply sigaddset_run|]. split; [by apply sigdelset_run|]. split; [by apply sigismember_run|]. split.
  - destruct (sigset_fill_mem w Hw 0) as (w' & Hr & Hw' & Hm); [done|]. exists w'. split_and!; [done..|].
    intros m H. rewrite Hm, Z.bits_0 by done. by destruct (m <=? 32).
  - destruct (sigset_fill_mem w Hw (u32_not 0)) as (w' & Hr & Hw' & Hm); [done|]. exists w'. split_and!; [done..|].
    intros m H. rewrite Hm by done. destruct (Z.leb_spec m 32); [|done]. unfold u32_not.
    rewrite u32_testbit, Z.lnot_0, Z.bits_m1 by lia. by rewrite bool_decide_true by lia.
Qed.

(** ** The first bit of a word *)
Lemma first_bit_spec n : forall i v, (forall j, i <= j < i + Z.of_nat n -> word_test v j = false) /\ first_bit n i true v = 0 \/
  exists j, i <= j < i + Z.of_nat n /\ first_bit n i true v = j /\ word_test v j = true /\
    forall l, i <= l < j -> word_test v l = false.
Proof.
  induction n as [|n IH]; intros i v; cbn [first_bit]; [left; split; [lia|done]|].
  destruct (word_test v i) eqn:E; cbn [Bool.eqb].
  - right. exists i. split_and!; [lia|lia|done|done|lia].
  - destruct (IH (i + 1) v) as [[Hno ->]|(j & Hj & -> & Ht & Hl)].
    + left. split; [|done]. intros j Hj. destruct (decide (j = i)) as [->|]; [done|]. apply Hno. lia.
    + right. exists j. split_and!; try done; [lia|lia|]. intros l Hl'. destruct (decide (l = i)) as [->|]; [done|]. apply Hl. lia.
Qed.

(** A word that is not zero has a first bit. *)
Lemma find_first_non_zero_spec v : is_u32 v -> v <> 0 ->
  let j := find_first_non_zero v in 0 <= j < 32 /\ Z.testbit v j = true /\ forall l, 0 <= l < j -> Z.testbit v l = false.
Proof.
  intros Hv Hne. cbv zeta. unfold find_first_non_zero. destruct (first_bit_spec 32 0 v) as [[Hno _]|(j & Hj & -> & Ht & Hl)].
  - exfalso. apply Hne. apply Z.bits_inj'. intros l Hl. rewrite Z.bits_0. destruct (decide (l < 32)).
    + rewrite <- word_test_testbit by lia. apply Hno. lia.
    + apply word_testbit_high; [done|lia].
  - change (Z.of_nat 32) with 32 in Hj. rewrite word_test_testbit in Ht by lia. split; [lia|]. split; [done|].
    intros l Hl'. rewrite <- word_test_testbit by lia. by apply Hl.
Qed.

Lemma bitmask_clear_testbit v m k : is_u32 v -> 0 <= k -> Z.testbit (bitmask_clear v m) k = Z.testbit v k && negb (Z.testbit m k).
Proof.
  intros Hv Hk. unfold bitmask_clear, u32_not. rewrite Z.land_spec, u32_testbit, Z.lnot_spec by lia.
  case_bool_decide; [done|]. by rewrite (word_testbit_high v) by (done || lia).
Qed.
Lemma bitmask_clear_range v m : is_u32 v -> is_u32 (bitmask_clear v m).
Proof.
  intros Hv. apply word_bound_testbit; [apply Z.land_nonneg; left; apply Hv|].
  intros k Hk. rewrite bitmask_clear_testbit, word_testbit_high by (done || lia). done.
Qed.

(** [sig] is pending and not blocked, and it is the lowest such signal. *)
Definition lowest (pending mask : list Z) (sig : Z) : Prop :=
  1 <= sig <= 64 /\ mem pending sig = true /\ mem mask sig = false /\
  forall m, 1 <= m < sig -> mem pending m = false \/ mem mask m = true.
Definition none_ready (pending mask : list Z) : Prop :=
  forall m, 1 <= m <= 64 -> mem pending m = false \/ mem mask m = true.

Lemma next_signal_run p m : two_words p -> two_words m ->
  (next_signal p m = Ok 0 /\ none_ready p m) \/ (exists sig, next_signal p m = Ok sig /\ lowest p m sig).
Proof.
  intros (a & b & -> & Ha & Hb) (c & d & -> & Hc & Hd). unfold next_signal.
  assert (Hmem : forall x y k, 1 <= k <= 64 -> mem [x; y] k = if k <=? 32 then Z.testbit x (k - 1) else Z.testbit y (k - 33)).
  { intros x y k Hk. unfold mem. destruct (Z.leb_spec k 32).
    - rewrite Z.div_small, Z.mod_small by lia. done.
    - replace ((k - 1) / 32) with 1 by dlia. replace ((k - 1) mod 32) with (k - 33) by dlia. done. }
  assert (Hz : forall v msk, is_u32 v -> bitmask_clear v msk = 0 -> forall j, 0 <= j -> Z.testbit v j = false \/ Z.testbit msk j = true).
  { intros v msk Hv H0 j Hj. pose proof (bitmask_clear_testbit v msk j Hv Hj) as E. rewrite H0, Z.bits_0 in E.
    destruct (Z.testbit v j), (Z.testbit msk j); naive_solver. }
  destruct (Z.eqb_spec (bitmask_clear a c) 0) as [E1|E1]; cbn [negb].
  - destruct (Z.eqb_spec (bitmask_clear b d) 0) as [E2|E2]; cbn [negb].
    + left. split; [done|]. intros k Hk. rewrite !Hmem by done. destruct (Z.leb_spec k 32); apply Hz; try done; lia.
    + right. eexists. split; [done|].
      destruct (find_first_non_zero_spec _ (bitmask_clear_range b d Hb) E2) as (Hj & Ht & Hl).
      set (j := find_first_non_zero _) in *. rewrite bitmask_clear_testbit in Ht by (done || lia). apply andb_true_iff in Ht as [Ht1 Ht2%negb_true_iff].
      split; [lia|]. rewrite !Hmem by lia. destruct (Z.leb_spec (33 + j) 32); [lia|].
      replace (33 + j - 33) with j by lia. split_and!; try done. intros k Hk. rewrite !Hmem by lia.
      destruct (Z.leb_spec k 32); [apply Hz; [done|done|lia]|].
      pose proof (Hl (k - 33) ltac:(lia)) as E. rewrite bitmask_clear_testbit in E by (done || lia).
      destruct (Z.testbit b (k - 33)), (Z.testbit d (k - 33)); naive_solver.
  - right. eexists. split; [done|].
    destruct (find_first_non_zero_spec _ (bitmask_clear_range a c Ha) E1) as (Hj & Ht & Hl).
    set (j := find_first_non_zero _) in *. rewrite bitmask_clear_testbit in Ht by (done || lia). apply andb_true_iff in Ht as [Ht1 Ht2%negb_true_iff].
    split; [lia|]. rewrite !Hmem by lia. destruct (Z.leb_spec (1 + j) 32); [|lia].
    replace (1 + j - 1) with j by lia. split_and!; try done. intros k Hk. rewrite !Hmem by lia.
    destruct (Z.leb_spec k 32); [|lia].
    pose proof (Hl (k - 1) ltac:(lia)) as E. rewrite bitmask_clear_testbit in E by (done || lia).
    destruct (Z.testbit a (k - 1)), (Z.testbit c (k - 1)); naive_solver.
Qed.

Section Signal.
Context {X : Type} `{ProcessServices X}.
(** The value of memory that was never written. *)
Context (uninit : Z).
Notation K := (kern X).

Definition lift {A} (r : res A) : M K A := fun k => match r with Ok a => Ok (a, k) | Err e => Err e end.
(** A set operation on a local variable, on a set of the task at [p]. *)
Definition on_local {A} (w : list Z) (m : M (option (list Z)) A) : M K (A * list Z) :=
  lift (match m (Some w) with Ok (a, o) => Ok (a, default w o) | Err e => Err e end).
Definition on_set {A} (p : Z) (get : task_struct -> list Z) (put : list Z -> task_struct -> task_struct)
    (m : M (option (list Z)) A) : M K A :=
  t ← task_at p; r ← on_local (get t) m; upd_task p (put r.2) ;; mret r.1.
Definition put_pending (w : list Z) (t : task_struct) : task_struct := t <| pending_signal := w |>.
Definition put_blocked (w : list Z) (t : task_struct) : task_struct := t <| blocked := w |>.

Definition uninit_siginfo : siginfo_t :=
  SigInfo uninit uninit uninit uninit uninit uninit uninit uninit uninit.
Definition clear_siginfo : siginfo_t := SigInfo 0 0 0 0 0 0 0 0 0.

(** ** Sending *)
Definition action_at (p sig : Z) : M K sigaction_t :=
  t ← task_at p; lift (match zlookup (action t) (sig - 1) with Some a => Ok a | None => Err (FBound (sig - 1)) end).
Definition set_action (p sig : Z) (a : sigaction_t) : M K unit :=
  _ ← action_at p sig; upd_task p (fun t => t <| action := zinsert (action t) (sig - 1) a |>).

Definition get_handler (p sig : Z) : M K Z := a ← action_at p sig; mret (sa_handler a).

Definition sig_is_ignored (p sig : Z) : M K bool :=
  t ← task_at p;
  b ← on_local (blocked t) (sigismember sig);
  m ← (if negb (b.1 =? 0) then mret true
       else r ← on_local (real_blocked t) (sigismember sig); mret (negb (r.1 =? 0)));
  if (m : bool) then mret false
  else
    handler ← get_handler p sig;
    mret ((handler =? SIG_IGN) && negb (sig =? SIGCHLD)).

(** [info] is [None] for SEND_SIG_NOINFO. *)
Definition send_signal (sig : Z) (info : option siginfo_t) (p : Z) : M K Z :=
  lock_task_sighand p ;;
  ign ← sig_is_ignored p sig;
  if (ign : bool) then unlock_task_sighand p ;; mret 0
  else
    t ← task_at p;
    if (state t =? EXIT_ZOMBIE) || (state t =? EXIT_DEAD)
    then unlock_task_sighand p ;; mret (- EINVAL)
    else
      q ← alloc_sigqueue;
      if q =? NULL then unlock_task_sighand p ;; mret (- EAGAIN)
      else
        lnk (list_head_insert_before q (pending_list p)) ;;
        modify (fun k => k <| sigqueues := <[q := default uninit_siginfo info]> (sigqueues k) |>) ;;
        on_set p pending_signal put_pending (sigaddset sig) ;;
        unlock_task_sighand p ;;
        mret 0.

Definition sigqueue_at (q : Z) : M K siginfo_t := getsome (FPtr q) (fun k => sigqueues k !! q).

(** [__rm_from_queue(mask, &p->pending)] *)
Definition rm_from_queue (mask : list Z) (p : Z) : M K unit :=
  _ ← list_for_each_safe_k (B := unit) (pending_list p) (fun it _ =>
        info ← sigqueue_at it;
        r ← on_local mask (sigismember (si_signo info));
        (if negb (r.1 =? 0) then lnk (list_head_remove it) ;; free_sigqueue it else mret tt) ;;
        mret (inl tt)) tt;
  mret tt.

Fixpoint sigaddsets (sigs : list Z) (w : list Z) : M K (list Z) :=
  match sigs with
  | [] => mret w
  | s :: sigs => r ← on_local w (sigaddset s); sigaddsets sigs r.2
  end.
Definition sigset_of (sigs : list Z) : M K (list Z) :=
  r ← on_local [uninit; uninit] sigemptyset; sigaddsets sigs r.2.

Definition handle_stop_signal (sig p : Z) : M K unit :=
  (if (sig =? SIGSTOP) || (sig =? SIGTSTP) || (sig =? SIGTTIN) || (sig =? SIGTTOU)
   then mask ← sigset_of [SIGCONT]; rm_from_queue mask p
   else mret tt) ;;
  if sig =? SIGCONT then
    mask ← sigset_of [SIGSTOP; SIGTSTP; SIGTTIN; SIGTTOU];
    rm_from_queue mask p ;;
    _ ← list_for_each_safe_k stopped_queue (fun it _ =>
          let w := entry_wait it in
          entry ← wait_at w;
          task ← task_at (wq_task entry);
          target ← task_at p;
          if pid task =? pid target then
            res ← call_wake_func w;
            (if res =? 1 then remove_wait_queue stopped_queue w ;; free_wait_entry w else mret tt) ;;
            mret (inr tt)
          else mret (inl tt)) tt;
    mret tt
  else mret tt.

Definition send_sig_info (sig : Z) (info : siginfo_t) (p : Z) : M K Z :=
  if (sig <? 0) || (NSIG <? sig) then mret (- EINVAL)
  else if sig =? 0 then mret 0
  else
    lock_task_sighand p ;;
    handle_stop_signal sig p ;;
    unlock_task_sighand p ;;
    _ ← send_signal sig (Some info) p;
    mret 0.

Definition sys_kill (p sig : Z) : M K Z :=
  current ← scheduler_get_running_process p;
  if current =? NULL then mret (- ESRCH)
  else if (sig <? 0) || (NSIG <=? sig) then mret (- EINVAL)
  else
    t ← task_at current;
    send_sig_info sig (SigInfo sig SI_USER 0 0 (pid t) (uid t) NULL 0 0) current.

(** ** Taking the next signal *)

(** The entry of [sig] in the queue of [p], and whether there is another one. *)
Definition find_sigqueue (sig p : Z) : M K (Z * bool) :=
  r ← list_for_each_k (pending_list p) (fun it queue_entry =>
        info ← sigqueue_at it;
        if si_signo info =? sig
        then if negb (queue_entry =? NULL) then mret (inr queue_entry) else mret (inl it)
        else mret (inl queue_entry)) NULL;
  match r with inl queue_entry => mret (queue_entry, false) | inr queue_entry => mret (queue_entry, true) end.

(** [__collect_signal(sig, &p->pending, &info)] *)
Definition collect_signal (sig p : Z) : M K siginfo_t :=
  r ← find_sigqueue sig p;
  let queue_entry := r.1 in
  (if negb r.2 then on_set p pending_signal put_pending (sigdelset sig) ;; mret tt else mret tt) ;;
  if negb (queue_entry =? NULL) then
    lnk (list_head_remove queue_entry) ;;
    info ← sigqueue_at queue_entry;
    free_sigqueue queue_entry ;;
    mret info
  else
    current ← scheduler_get_current_process;
    t ← task_at current;
    mret (SigInfo sig SI_USER 0 0 (pid t) (uid t) NULL 0 0).

(** [__dequeue_signal(&p->pending, &p->blocked, &info)] *)
Definition dequeue_signal (p : Z) (info : siginfo_t) : M K (Z * siginfo_t) :=
  t ← task_at p;
  sig ← lift (next_signal (pending_signal t) (blocked t));
  if (0 <? sig) && (sig <? NSIG) then info ← collect_signal sig p; mret (sig, info)
  else mret (sig, info).

(** ** Running a handler *)
Definition push_value (v : Z) : M K unit :=
  modify (fun k => k <| frame := (frame k) <| useresp := u32 (useresp (frame k) - 4) |> |>) ;;
  a ← gets (fun k => useresp (frame k));
  store_user a v.

Definition siginfo_words (i : siginfo_t) : list Z :=
  [si_signo i; si_code i; si_value i; si_errno i; si_pid i; si_uid i; si_addr i; si_status i; si_band i].
Fixpoint store_words (a : Z) (ws : list Z) : M K unit :=
  match ws with [] => mret tt | w :: ws => store_user a w ;; store_words (u32 (a + 4)) ws end.

Definition push_siginfo (info : siginfo_t) : M K unit :=
  modify (fun k => k <| frame := (frame k) <| useresp := u32 (useresp (frame k) - 36) |> |>) ;;
  siginfo_addr ← gets (fun k => useresp (frame k));
  store_words siginfo_addr (siginfo_words info) ;;
  push_value siginfo_addr.

Definition handle_signal (signr : Z) (info : siginfo_t) (ka : sigaction_t) : M K Z :=
  current ← scheduler_get_current_process;
  t ← task_at current;
  if pid t =? 1 then set_errno ESRCH ;; mret 0
  else
    upd_task current (fun t => t <| saved_sigmask := blocked t |>) ;;
    on_set current blocked put_blocked (sigaddset signr) ;;
    f ← gets frame;
    upd_task current (fun t => t <| signal_regs := f |>) ;;
    t ← task_at current;
    modify (fun k => k <| frame := t_regs t |>) ;;
    modify (fun k => k <| frame := (frame k) <| eip := sa_handler ka |> |>) ;;
    (if negb (Z.land (sa_flags ka) SA_SIGINFO =? 0) then push_siginfo info else mret tt) ;;
    push_value signr ;;
    t ← task_at current;
    push_value (sigreturn_addr t) ;;
    mret 1.

Definition sys_sigreturn : M K Z :=
  current ← scheduler_get_current_process;
  t ← task_at current;
  modify (fun k => k <| frame := signal_regs t |>) ;;
  upd_task current (fun t => t <| blocked := saved_sigmask t |>) ;;
  t ← task_at current;
  srv (ps_switch (t_mm t)) ;;
  mret 0.

Definition notify_parent (current signr : Z) : M K Z :=
  t ← task_at current;
  send_signal signr (Some (SigInfo signr SI_KERNEL 0 0 (pid t) (uid t) NULL 0 0)) (parent t).

(** ** System calls *)
Definition sys_signal (signum handler sigreturn : Z) : M K Z :=
  if (signum <? 0) || (NSIG <=? signum) then mret SIG_ERR
  else
    current ← scheduler_get_current_process;
    t ← task_at current;
    if pid t =? 1 then mret SIG_ERR
    else
      m ← on_local [uninit; uninit] sigemptyset;
      lock_task_sighand current ;;
      upd_task current (fun t => t <| sigreturn_addr := sigreturn |>) ;;
      old_handler ← get_handler current signum;
      set_action current signum (SigAction handler m.2 (Z.lor SA_RESETHAND SA_NODEFER)) ;;
      unlock_task_sighand current ;;
      mret old_handler.

(** [act] is [None] for NULL, which the code reads through; the result is the
    return value and what is stored in [*oldact]. *)
Definition sys_sigaction (signum : Z) (act : option sigaction_t) (oldact : bool) (sigreturn : Z) :
    M K (Z * option sigaction_t) :=
  if (signum <? 0) || (NSIG <=? signum) then mret (- EINVAL, None)
  else
    current ← scheduler_get_current_process;
    t ← task_at current;
    if pid t =? 1 then mret (- EINVAL, None)
    else
      lock_task_sighand current ;;
      upd_task current (fun t => t <| sigreturn_addr := sigreturn |>) ;;
      old ← (if oldact then a ← action_at current signum; mret (Some a) else mret None);
      a ← of_option (FPtr NULL) act;
      set_action current signum a ;;
      unlock_task_sighand current ;;
      mret (0, old).

Definition map_words (f : Z -> Z -> Z) (a b : list Z) : list Z := zip_with f a b.

(** [set] is [None] for NULL and [oldset] tells whether it is not NULL; the
    result is the return value and what is stored in [*oldset]. *)
Definition sys_sigprocmask (how : Z) (set : option (list Z)) (oldset : bool) : M K (Z * option (list Z)) :=
  if match set with None => negb oldset | Some _ => false end then mret (- EFAULT, None)
  else if (how <? SIG_BLOCK) || (SIG_SETMASK <? how) then mret (- EINVAL, None)
  else
    current ← scheduler_get_current_process;
    t ← task_at current;
    if pid t =? 1 then mret (- EINVAL, None)
    else
      let old := if oldset then Some (blocked t) else None in
      match set with
      | None => mret (0, old)
      | Some s =>
          (if how =? SIG_BLOCK then
             upd_task current (fun t => t <| blocked := map_words Z.lor (blocked t) s |>)
           else if how =? SIG_UNBLOCK then
             upd_task current (fun t => t <| blocked := map_words bitmask_clear (blocked t) s |>)
           else
             upd_task current (fun t => t <| blocked := s |>)) ;;
          mret (0, old)
      end.

Definition signals_init : M K Z := lnk (list_head_init stopped_queue) ;; mret 1.

(** ** Sending a signal *)
Implicit Types k : K.

Record task_words (t : task_struct) : Prop := {
  tw_blocked : two_words (blocked t);
  tw_real : two_words (real_blocked t);
  tw_saved : two_words (saved_sigmask t);
  tw_pending : two_words (pending_signal t);
  tw_action : length (action t) = 32%nat
}.

Definition handler_of (t : task_struct) (sig : Z) : Z :=
  match zlookup (action t) (sig - 1) with Some a => sa_handler a | None => 0 end.
(** A signal is dropped when it is not blocked and its handler is SIG_IGN, but
    SIGCHLD never is. *)
Definition ignored (t : task_struct) (sig : Z) : bool :=
  negb (mem (blocked t) sig || mem (real_blocked t) sig) && (handler_of t sig =? SIG_IGN) && negb (sig =? SIGCHLD).

Lemma on_local_run {A} k w (m : M (option (list Z)) A) a w' : m (Some w) = Ok (a, Some w') ->
  on_local w m ~{ k }~> (a, w'); k.
Proof. intros Hm. unfold on_local, lift. by rewrite Hm. Qed.
Lemma on_set_run {A} k p t get put (m : M (option (list Z)) A) a w' : tasks k !! p = Some t ->
  m (Some (get t)) = Ok (a, Some w') ->
  on_set p get put m ~{ k }~> a; k <| tasks := <[p := put w' t]> (tasks k) |>.
Proof. intros Ht Hm. unfold on_set. kstep. run (on_local_run k _ _ _ _ Hm). by kstep. Qed.

Ltac runset Hm :=
  match goal with
  | |- context [(on_set ?p ?g ?u ?m ≫= ?c) ?k] =>
      let Hk := fresh in
      eassert (Hk : tasks k !! p = Some _) by solve_task;
      rewrite (bind_ok (on_set p g u m) c k _ _ (on_set_run k p _ g u m _ _ Hk Hm)); clear Hk; cbv beta
  end.

Lemma action_run k p t sig : tasks k !! p = Some t -> length (action t) = 32%nat -> 1 <= sig < NSIG ->
  exists a, zlookup (action t) (sig - 1) = Some a /\ action_at p sig ~{ k }~> a; k.
Proof.
  unfold NSIG. intros Ht Hl Hs. destruct (zlookup_some (action t) (sig - 1)) as [a Ha]; [lia|].
  exists a. split; [done|]. unfold action_at. kstep. unfold lift. by rewrite Ha.
Qed.

Lemma sig_is_ignored_run k p t sig : tasks k !! p = Some t -> task_words t -> 1 <= sig < NSIG ->
  sig_is_ignored p sig ~{ k }~> ignored t sig; k.
Proof.
  unfold NSIG. intros Ht Hw Hs. unfold sig_is_ignored. kstep.
  destruct (sigismember_run _ (tw_blocked _ Hw) sig) as (r & Hr & Hm); [lia|].
  run (on_local_run k _ _ _ _ Hr). cbn [fst]. unfold ignored. rewrite Hm.
  destruct (mem (blocked t) sig); [done|]. cbn [orb].
  destruct (sigismember_run _ (tw_real _ Hw) sig) as (r2 & Hr2 & Hm2); [lia|]. rewrite bind_assoc.
  run (on_local_run k _ _ _ _ Hr2). cbn [fst]. rewrite Hm2. kstep. destruct (mem (real_blocked t) sig); [done|].
  destruct (action_run k p t sig Ht (tw_action _ Hw)) as (a & Ha & Hrun); [done|].
  unfold get_handler. rewrite bind_assoc. run Hrun. kstep. unfold handler_of. by rewrite Ha.
Qed.

(** The block of a queued signal holds no other node than its own. *)
Definition own_block (L : gmap Z (list Z)) (al : gmap Z Z) (q : Z) : Prop :=
  al !! q = Some sizeof_sigqueue_t /\
  forall h xs x, L !! h = Some xs -> x ∈ h :: xs -> q <= x < q + sizeof_sigqueue_t -> x = q.

(** The signals queued for the task at [p]: the entries [qs] with the
    descriptions [infos], the pending set being the set of their numbers. *)
Record sig_ok (k : K) (L : gmap Z (list Z)) (al : gmap Z Z) (p : Z) (t : task_struct) (qs : list Z)
    (infos : list siginfo_t) : Prop := {
  so_lists : lists (links k) L;
  so_heap : ha_ok (kx k) al;
  so_owned : owned L al;
  so_task : tasks k !! p = Some t;
  so_words : task_words t;
  so_queue : L !! pending_list p = Some qs;
  so_infos : Forall2 (fun q i => sigqueues k !! q = Some i) qs infos;
  so_blocks : forall q, q ∈ qs -> own_block L al q;
  so_range : forall i, i ∈ infos -> 1 <= si_signo i < NSIG;
  so_bits : forall n, 1 <= n <= 64 -> mem (pending_signal t) n = true <-> exists i, i ∈ infos /\ si_signo i = n
}.

(** What neither sending nor taking a signal changes. *)
Record same_rest (k k' : K) : Prop := {
  sr_curr : curr k' = curr k;
  sr_frame : frame k' = frame k;
  sr_umem : umem k' = umem k;
  sr_waits : waits k' = waits k;
  sr_locks : wq_locks k' = wq_locks k;
  sr_active : num_active k' = num_active k
}.

(** The lock of [p] is taken. *)
Definition locked_kern k (p : Z) (t : task_struct) : K := k <| tasks := <[p := t <| siglock := 1 |>]> (tasks k) |>.

Lemma relock_same k p t : tasks k !! p = Some t -> siglock t = 0 ->
  unlock_task_sighand p ~{ locked_kern k p t }~> tt; k.
Proof.
  intros Ht Hl. unfold unlock_task_sighand, upd_task, locked_kern. cbn. rewrite lookup_insert_eq. do 2 f_equal.
  rewrite insert_insert_eq. cbn. replace (TaskStruct _ _ _ _ _ _ _ _ _ _ _ _ _ _ _ _ _ _ _ _) with t by (destruct t; cbn in *; congruence).
  rewrite insert_id by done. by destruct k.
Qed.

Lemma alloc_sigqueue_run k al m : ha_ok (kx k) al -> 0 <= m -> ha_room (kx k) (ha_cost sizeof_sigqueue_t + m) ->
  alloc_sigqueue ~{ k }~>! FFatal \/
  exists q x, alloc_sigqueue ~{ k }~> q; (k <| kx := x |>) <| links := <[q := Node NULL NULL]> (links k) |> /\
    ha_ok x (<[q := sizeof_sigqueue_t]> al) /\ al !! q = None /\ ha_room x m /\ q <> NULL.
Proof.
  intros Hx Hm Hroom. unfold alloc_sigqueue.
  destruct (ha_alloc_law (kx k) al sizeof_sigqueue_t m Hx) as [Herr|(q & x & Hr & Hx' & Hq & Hroom')];
    [done|done|done|left; by apply bind_err, srv_err|right].
  pose proof (ha_positive x _ q _ Hx' (lookup_insert_eq _ _ _)) as Hpos.
  exists q, x. split_and!; try done; [|unfold NULL; lia]. runs Hr.
  rewrite (proj2 (Z.eqb_neq q NULL)) by (unfold NULL; lia). done.
Qed.

(** A change of the task that keeps the queue of its signals. *)
Lemma sig_ok_task k k' L al p t t' qs infos : sig_ok k L al p t qs infos -> links k' = links k -> kx k' = kx k ->
  sigqueues k' = sigqueues k -> tasks k' !! p = Some t' -> task_words t' -> pending_signal t' = pending_signal t ->
  sig_ok k' L al p t' qs infos.
Proof. intros [] El Ex Eq Ht Hw Ep. split; rewrite ?El, ?Ex, ?Eq, ?Ep; done. Qed.

Section Send.
Context (k : K) (L : gmap Z (list Z)) (al : gmap Z Z) (p : Z) (t : task_struct) (qs : list Z) (infos : list siginfo_t).
Context (Hok : sig_ok k L al p t qs infos) (sig : Z) (Hsig : 1 <= sig < NSIG) (info : siginfo_t).
Context (Hlock : siglock t = 0).

Notation locked := (locked_kern k p t).

Lemma locked_task : tasks locked !! p = Some (t <| siglock := 1 |>).
Proof. apply lookup_insert_eq. Qed.
Lemma locked_words : task_words (t <| siglock := 1 |>).
Proof. destruct (so_words _ _ _ _ _ _ _ Hok). by split. Qed.

(** A new block does not get in the way of the others. *)
Lemma own_block_add q x : ha_ok x (<[q := sizeof_sigqueue_t]> al) -> al !! q = None ->
  forall q', q' ∈ qs ++ [q] -> own_block (<[pending_list p := qs ++ [q]]> L) (<[q := sizeof_sigqueue_t]> al) q'.
Proof.
  intros Hx Hq q' Hq'. pose proof (so_blocks _ _ _ _ _ _ _ Hok) as Hb.
  assert (Hin : forall h xs y, <[pending_list p := qs ++ [q]]> L !! h = Some xs -> y ∈ h :: xs ->
    y = q \/ exists h' xs', L !! h' = Some xs' /\ y ∈ h' :: xs').
  { intros h xs y [[<- <-]|[Hne Hh]]%lookup_insert_Some Hy; [|right; by exists h, xs].
    rewrite elem_of_cons, elem_of_app, list_elem_of_singleton in Hy.
    destruct Hy as [->|[Hy| ->]]; [right..|by left]; exists (pending_list p), qs; (split; [apply Hok|set_solver]). }
  apply elem_of_app in Hq' as [Hq'|Hq'%list_elem_of_singleton].
  - destruct (Hb q' Hq') as [Hal Hno]. assert (Hne : q' <> q) by congruence. split; [by rewrite lookup_insert_ne|].
    intros h xs y Hh Hy Hr. destruct (Hin h xs y Hh Hy) as [->|(h' & xs' & Hh' & Hy')]; [|by apply (Hno h' xs')].
    exfalso. destruct (ha_disjoint x _ q' sizeof_sigqueue_t q sizeof_sigqueue_t Hx) as [?|[?|?]];
      [by rewrite lookup_insert_ne|apply lookup_insert_eq|done|lia|unfold sizeof_sigqueue_t in *; lia].
  - subst q'. split; [apply lookup_insert_eq|]. intros h xs y Hh Hy Hr.
    destruct (Hin h xs y Hh Hy) as [->|(h' & xs' & Hh' & Hy')]; [done|]. exfalso.
    apply (fresh_outside x L al q sizeof_sigqueue_t (y - q) (so_owned _ _ _ _ _ _ _ Hok) Hx Hq ltac:(lia) h' xs' Hh').
    by replace (q + (y - q)) with y by lia.
Qed.

(** The signal is put at the end of the queue and into the set. *)
Lemma sent_ok k' t' w' q x s' : si_signo info = sig -> ha_ok x (<[q := sizeof_sigqueue_t]> al) -> al !! q = None ->
  lists s' (<[pending_list p := qs ++ [q]]> L) -> two_words w' ->
  (forall m, 1 <= m <= 64 -> mem w' m = (m =? sig) || mem (pending_signal t) m) ->
  t' = t <| pending_signal := w' |> -> links k' = s' -> kx k' = x -> tasks k' = <[p := t']> (tasks k) ->
  sigqueues k' = <[q := info]> (sigqueues k) ->
  sig_ok k' (<[pending_list p := qs ++ [q]]> L) (<[q := sizeof_sigqueue_t]> al) p t' (qs ++ [q]) (infos ++ [info]).
Proof.
  intros Hin Hx Hq HL Hw Hmem -> Hl Hk Ht Hsq. destruct Hok. split.
  - by rewrite Hl.
  - by rewrite Hk.
  - pose proof (owned_insert L al q sizeof_sigqueue_t so_owned0 Hq) as Hown.
    replace q with (q + 0) at 1 by lia. eapply owned_add; [done|done|apply lookup_insert_eq|done].
  - rewrite Ht. apply lookup_insert_eq.
  - destruct so_words0. by split.
  - apply lookup_insert_eq.
  - rewrite Hsq. apply Forall2_app.
    + apply (Forall2_weaken _ _ _ _ so_infos0). intros q' i Hq' Hi. rewrite lookup_insert_ne; [done|].
      intros ->. by rewrite (proj1 (so_blocks0 _ Hq')) in Hq.
    + constructor; [apply lookup_insert_eq|constructor].
  - by apply (own_block_add q x).
  - intros i [Hi| ->%list_elem_of_singleton]%elem_of_app; [by apply so_range0|lia].
  - intros n Hn. cbn. rewrite Hmem, orb_true_iff, Z.eqb_eq, so_bits0 by done. split.
    + intros [->|(i & Hi & Hin')]; [exists info|exists i]; set_solver.
    + intros (i & [Hi| ->%list_elem_of_singleton]%elem_of_app & Hin'); [right; by exists i|left; congruence].
Qed.

Lemma send_dropped r : (if ignored t sig then r = 0 else (state t = EXIT_ZOMBIE \/ state t = EXIT_DEAD) /\ r = - EINVAL) ->
  send_signal sig (Some info) p ~{ k }~> r; k.
Proof.
  intros Hr. unfold send_signal. run (lock_run k p t (so_task _ _ _ _ _ _ _ Hok) Hlock).
  run (sig_is_ignored_run locked p _ sig locked_task locked_words Hsig).
  change (ignored (t <| siglock := 1 |>) sig) with (ignored t sig).
  pose proof (relock_same k p t (so_task _ _ _ _ _ _ _ Hok) Hlock) as Hun.
  destruct (ignored t sig); [run Hun; by rewrite Hr|]. destruct Hr as [Hst ->].
  rewrite (bind_ok _ _ _ _ _ (task_at_run _ _ _ locked_task)).
  change (state (t <| siglock := 1 |>)) with (state t).
  replace ((state t =? EXIT_ZOMBIE) || (state t =? EXIT_DEAD)) with true; [by run Hun|].
  by destruct Hst as [-> | ->].
Qed.

Lemma send_queued m : si_signo info = sig -> ignored t sig = false -> state t <> EXIT_ZOMBIE -> state t <> EXIT_DEAD ->
  0 <= m -> ha_room (kx k) (ha_cost sizeof_sigqueue_t + m) ->
  send_signal sig (Some info) p ~{ k }~>! FFatal \/
  exists q k' t', send_signal sig (Some info) p ~{ k }~> 0; k' /\
    sig_ok k' (<[pending_list p := qs ++ [q]]> L) (<[q := sizeof_sigqueue_t]> al) p t' (qs ++ [q]) (infos ++ [info]) /\
    t' = t <| pending_signal := pending_signal t' |> /\ tasks k' = <[p := t']> (tasks k) /\ al !! q = None /\
    same_rest k k' /\ ha_room (kx k') m.
Proof.
  intros Hin Hign Hz Hd Hm Hroom. pose proof Hok as [HL Hx Hown Ht Hw Hq _ _ _ _]. unfold send_signal.
  run (lock_run k p t Ht Hlock). run (sig_is_ignored_run locked p _ sig locked_task locked_words Hsig).
  change (ignored (t <| siglock := 1 |>) sig) with (ignored t sig). rewrite Hign.
  rewrite (bind_ok _ _ _ _ _ (task_at_run _ _ _ locked_task)).
  change (state (t <| siglock := 1 |>)) with (state t).
  rewrite (proj2 (Z.eqb_neq _ _) Hz), (proj2 (Z.eqb_neq _ _) Hd). cbn [orb].
  destruct (alloc_sigqueue_run locked al m Hx Hm Hroom) as [Herr|(q & x & Hr & Hx' & Hqn & Hroom' & Hq0)];
    [left; by apply bind_err|right].
  run Hr. rewrite (proj2 (Z.eqb_neq _ _) Hq0).
  assert (Hout : outside L q).
  { replace q with (q + 0) by lia. by apply (fresh_outside x L al q sizeof_sigqueue_t 0). }
  destruct (lists_add_fresh _ _ (lists_new _ _ HL q (Node NULL NULL) Hout) q (pending_list p) qs Hout) as (s' & Hrun & HL');
    [by rewrite lookup_insert_eq|done|].
  runl Hrun. kstep.
  destruct (sigaddset_run _ (tw_pending _ Hw) sig) as (w' & Hadd & Hw' & Hmem); [unfold NSIG in Hsig; lia|].
  change (pending_signal t) with (pending_signal (t <| siglock := 1 |>)) in Hadd.
  runset Hadd.
  unfold unlock_task_sighand. kstep.
  exists q. eexists. exists (t <| pending_signal := w' |>). split; [reflexivity|]. split_and!.
  - eapply (sent_ok _ _ w' q x s'). all: try done. cbn. rewrite !insert_insert_eq. cbn. by rewrite Hlock.
  - done.
  - cbn. rewrite !insert_insert_eq. cbn. by rewrite Hlock.
  - done.
  - by split.
  - done.
Qed.

End Send.

(** ** Taking a signal *)

(** The queue as the code means it: the signals in the order of arrival. The
    next one to deliver has the least number among those that are not blocked, and
    is the oldest with that number. *)
Fixpoint take_first (sig : Z) (infos : list siginfo_t) : option (siginfo_t * list siginfo_t) :=
  match infos with
  | [] => None
  | i :: rest => if si_signo i =? sig then Some (i, rest)
                 else match take_first sig rest with Some (j, r) => Some (j, i :: r) | None => None end
  end.
Definition ready_signal (msk : list Z) (infos : list siginfo_t) : option Z :=
  foldr (fun i best => if mem msk (si_signo i) then best
                       else Some (match best with Some s => Z.min s (si_signo i) | None => si_signo i end)) None infos.

Lemma take_first_split sig infos :
  (take_first sig infos = None /\ forall i, i ∈ infos -> si_signo i <> sig) \/
  exists i1 i i2, infos = i1 ++ i :: i2 /\ si_signo i = sig /\ (forall j, j ∈ i1 -> si_signo j <> sig) /\
    take_first sig infos = Some (i, i1 ++ i2).
Proof.
  induction infos as [|i l IH]; cbn [take_first]; [left; set_solver|].
  destruct (Z.eqb_spec (si_signo i) sig) as [He|Hne]; [right; exists [], i, l; set_solver|].
  destruct IH as [[-> Hno]|(i1 & j & i2 & -> & Hj & Hno & ->)]; [left; set_solver|].
  right. exists (i :: i1), j, i2. set_solver.
Qed.

Lemma ready_signal_spec msk infos :
  match ready_signal msk infos with
  | None => forall i, i ∈ infos -> mem msk (si_signo i) = true
  | Some s => (exists i, i ∈ infos /\ si_signo i = s /\ mem msk s = false) /\
              forall i, i ∈ infos -> mem msk (si_signo i) = true \/ s <= si_signo i
  end.
Proof.
  induction infos as [|i l IH]; cbn; [set_solver|]. destruct (mem msk (si_signo i)) eqn:Em.
  - unfold ready_signal in IH. destruct (foldr _ None l); set_solver.
  - unfold ready_signal in IH. destruct (foldr _ None l) as [s|].
    + destruct IH as [(j & Hj & Hs & Hm) Hle]. split.
      * destruct (Z.min_spec s (si_signo i)) as [[_ ->]|[_ ->]]; [exists j|exists i]; set_solver.
      * intros j' [->|Hj']%elem_of_cons; [right; lia|]. destruct (Hle j' Hj'); [by left|right; lia].
    + split; [exists i; set_solver|]. intros j' [->|Hj']%elem_of_cons; [right; lia|left; by apply IH].
Qed.

Section Take.
Context (k : K) (L : gmap Z (list Z)) (al : gmap Z Z) (p : Z) (t : task_struct) (qs : list Z) (infos : list siginfo_t).
Context (Hok : sig_ok k L al p t qs infos).

(** The lowest signal that is pending and not blocked is the next one of the queue. *)
Lemma next_signal_ready : next_signal (pending_signal t) (blocked t) = Ok (default 0 (ready_signal (blocked t) infos)).
Proof.
  pose proof (so_words _ _ _ _ _ _ _ Hok) as Hw. pose proof (so_bits _ _ _ _ _ _ _ Hok) as Hb.
  pose proof (so_range _ _ _ _ _ _ _ Hok) as Hr. unfold NSIG in Hr. pose proof (ready_signal_spec (blocked t) infos) as Hs.
  destruct (next_signal_run _ _ (tw_pending _ Hw) (tw_blocked _ Hw)) as [[-> Hno]|(sig & -> & Hsig & Hp & Hm & Hlow)].
  - destruct (ready_signal (blocked t) infos) as [s|]; [|done]. exfalso. destruct Hs as [(i & Hi & <- & Hm) _].
    pose proof (Hr i Hi) as Hri. destruct (Hno (si_signo i)) as [Hc|Hc]; [lia| |congruence].
    rewrite (proj2 (Hb (si_signo i) ltac:(lia))) in Hc; [done|]. by exists i.
  - apply Hb in Hp as (i & Hi & <-); [|done]. destruct (ready_signal (blocked t) infos) as [s|]; [|by rewrite Hs in Hm].
    destruct Hs as [(j & Hj & <- & Hmj) Hle]. cbn. f_equal. pose proof (Hr j Hj).
    destruct (Hle i Hi) as [?|?]; [congruence|]. destruct (decide (si_signo j < si_signo i)); [|lia]. exfalso.
    destruct (Hlow (si_signo j)) as [Hc|Hc]; [lia| |congruence].
    rewrite (proj2 (Hb (si_signo j) ltac:(lia))) in Hc; [done|]. by exists j.
Qed.

(** *** Looking for the oldest entry of a signal *)
Lemma sigqueue_at_run k1 q i : sigqueues k1 !! q = Some i -> sigqueue_at q ~{ k1 }~> i; k1.
Proof. intros Hq. unfold sigqueue_at. by apply getsome_ok. Qed.
Definition find_step (sig it queue_entry : Z) : Z + Z :=
  match sigqueues k !! it with
  | Some info => if si_signo info =? sig then if negb (queue_entry =? NULL) then inr queue_entry else inl it
                 else inl queue_entry
  | None => inl queue_entry
  end.

Notation queued_as l il := (Forall2 (fun q i => sigqueues k !! q = Some i) l il).
Lemma find_step_other sig l il acc : queued_as l il -> (forall i, i ∈ il -> si_signo i <> sig) ->
  fold_break (find_step sig) l acc = inl acc.
Proof.
  induction 1 as [|q i l il Hq _ IH]; intros Hno; [done|]. cbn [fold_break]. unfold find_step at 1. rewrite Hq.
  destruct (Z.eqb_spec (si_signo i) sig) as [He|_]; [by destruct (Hno i); [left|]|]. apply IH. intros j Hj. apply Hno. by right.
Qed.
Lemma find_step_more sig l il acc : queued_as l il -> acc <> NULL ->
  fold_break (find_step sig) l acc = if existsb (fun i => si_signo i =? sig) il then inr acc else inl acc.
Proof.
  intros H2 Hacc. induction H2 as [|q i l il Hq _ IH]; [done|]. cbn [fold_break existsb]. unfold find_step at 1. rewrite Hq.
  rewrite (proj2 (Z.eqb_neq _ _) Hacc). destruct (si_signo i =? sig); [done|]. apply IH.
Qed.

Lemma queue_entry_ne q : q ∈ qs -> q <> NULL.
Proof.
  intros Hq. destruct (so_blocks _ _ _ _ _ _ _ Hok q Hq) as [Hal _].
  pose proof (ha_positive _ _ _ _ (so_heap _ _ _ _ _ _ _ Hok) Hal). unfold NULL. lia.
Qed.

Lemma find_sigqueue_run sig q1 q q2 i1 i i2 : qs = q1 ++ q :: q2 -> infos = i1 ++ i :: i2 ->
  queued_as q1 i1 -> sigqueues k !! q = Some i -> queued_as q2 i2 ->
  si_signo i = sig -> (forall j, j ∈ i1 -> si_signo j <> sig) ->
  find_sigqueue sig p ~{ k }~> (q, existsb (fun j => si_signo j =? sig) i2); k.
Proof.
  intros Eq Ei H1 Hq H2 Hi Hno. pose proof (so_infos _ _ _ _ _ _ _ Hok) as Hall. unfold find_sigqueue.
  pose proof (proj1 (so_lists _ _ _ _ _ _ _ Hok) _ _ (so_queue _ _ _ _ _ _ _ Hok)) as Hl.
  rewrite (bind_ok _ _ k (fold_break (find_step sig) qs NULL) k).
  2:{ apply (list_for_each_k_run k _ qs Hl). intros x acc Hx. destruct (proj1 (list_elem_of_lookup _ _) Hx) as [n Hn].
      destruct (Forall2_lookup_l _ _ _ _ _ Hall Hn) as (info & _ & Hinfo). 
      run (sigqueue_at_run k x info Hinfo). unfold find_step. rewrite Hinfo.
      by destruct (si_signo info =? sig), (acc =? NULL). }
  rewrite Eq, fold_break_app, (find_step_other sig q1 i1) by done. cbn [fold_break].
  unfold find_step at 1. rewrite Hq, Hi, Z.eqb_refl. cbn [negb Z.eqb NULL].
  rewrite (find_step_more sig q2 i2) by (done || apply queue_entry_ne; set_solver).
  by destruct (existsb _ i2).
Qed.

(** *** Taking it out *)
Section Collect.
Context (q1 : list Z) (q : Z) (q2 : list Z) (i1 : list siginfo_t) (i : siginfo_t) (i2 : list siginfo_t).
Context (Eq : qs = q1 ++ q :: q2) (Ei : infos = i1 ++ i :: i2).
Context (H1 : queued_as q1 i1) (Hq : sigqueues k !! q = Some i) (H2 : queued_as q2 i2).
Notation L' := (<[pending_list p := q1 ++ q2]> L).

Lemma taken_nodes h xs x : L' !! h = Some xs -> x ∈ h :: xs ->
  x <> q /\ exists h' xs', L !! h' = Some xs' /\ x ∈ h' :: xs'.
Proof.
  intros Hh Hx. pose proof (so_lists _ _ _ _ _ _ _ Hok) as HL. pose proof (so_queue _ _ _ _ _ _ _ Hok) as HLq.
  pose proof (ring_nodup _ _ (proj1 HL _ _ HLq)) as Hnd. rewrite Eq, app_comm_cons in Hnd.
  pose proof (NoDup_middle _ _ _ Hnd) as (_ & Hq1 & Hq2).
  assert (Hin : q ∈ pending_list p :: qs) by set_solver.
  apply lookup_insert_Some in Hh as [[<- <-]|[Hne Hh]].
  - split; [set_solver|]. exists (pending_list p), qs. split; [done|]. set_solver.
  - split; [|by exists h, xs]. intros ->. apply Hne. by apply (proj2 HL _ _ _ _ _ HLq Hh Hin).
Qed.

(** What the queue of [p] is without the entry [q]. *)
Lemma taken_ok k' t' w' : lists (links k') L' -> ha_ok (kx k') (delete q al) -> two_words w' ->
  (forall m, 1 <= m <= 64 -> mem w' m = true <-> exists j, j ∈ i1 ++ i2 /\ si_signo j = m) ->
  t' = t <| pending_signal := w' |> -> tasks k' = <[p := t']> (tasks k) -> sigqueues k' = delete q (sigqueues k) ->
  sig_ok k' L' (delete q al) p t' (q1 ++ q2) (i1 ++ i2).
Proof.
  intros HL' Hx Hw Hmem -> Ht Hsq. pose proof taken_nodes as Hn. pose proof (so_blocks _ _ _ _ _ _ _ Hok) as Hbl.
  assert (Hdel : forall q', q' ∈ q1 ++ q2 -> q' <> q) by (intros q' Hq'; apply (Hn (pending_list p) (q1 ++ q2)); [apply lookup_insert_eq|by right]).
  destruct Hok. split; try done.
  - intros h xs x Hh Hx0. destruct (Hn h xs x Hh Hx0) as [Hne (h' & xs' & Hh' & Hx')].
    destruct (so_owned0 h' xs' x Hh' Hx') as [?|(a & s & Ha & Hr)]; [by left|right]. exists a, s. split; [|done].
    rewrite lookup_delete_ne; [done|]. intros ->. destruct (Hbl a ltac:(set_solver)) as [Hs Hno].
    apply Hne, (Hno h' xs'); [done|done|]. congruence.
  - rewrite Ht. apply lookup_insert_eq.
  - destruct so_words0. by split.
  - apply lookup_insert_eq.
  - rewrite Hsq. apply Forall2_weaken with (fun q i => sigqueues k !! q = Some i); [by apply Forall2_app|].
    intros x y Hx0 Hy. rewrite lookup_delete_ne; [done|]. intros <-. by apply (Hdel q).
  - intros q' Hq'. destruct (Hbl q' ltac:(set_solver)) as [Hs Hno]. split; [rewrite lookup_delete_ne; [done|]; intros <-; by apply (Hdel q)|].
    intros h xs x Hh Hx0 Hr. destruct (Hn h xs x Hh Hx0) as [_ (h' & xs' & Hh' & Hx')]. by apply (Hno h' xs').
  - intros j Hj. apply so_range0. set_solver.
Qed.

(** The numbers left in the queue. *)
Lemma left_numbers m : (exists j, j ∈ infos /\ si_signo j = m) <-> m = si_signo i \/ exists j, j ∈ i1 ++ i2 /\ si_signo j = m.
Proof. rewrite Ei. setoid_rewrite elem_of_app. setoid_rewrite elem_of_cons. naive_solver. Qed.
Lemma more_numbers sig : existsb (fun j => si_signo j =? sig) i2 = true <-> exists j, j ∈ i2 /\ si_signo j = sig.
Proof. rewrite existsb_exists. setoid_rewrite Z.eqb_eq. setoid_rewrite <- list_elem_of_In. done. Qed.

(** The number stays in the set when another such signal is queued. *)
Lemma clear_pending_run : (forall j, j ∈ i1 -> si_signo j <> si_signo i) -> let sig := si_signo i in
  exists w', (if negb (existsb (fun j => si_signo j =? sig) i2)
              then on_set p pending_signal put_pending (sigdelset sig) ;; mret tt else mret tt)
      ~{ k }~> tt; k <| tasks := <[p := t <| pending_signal := w' |>]> (tasks k) |> /\ two_words w' /\
    forall m, 1 <= m <= 64 -> mem w' m = true <-> exists j, j ∈ i1 ++ i2 /\ si_signo j = m.
Proof.
  intros Hno sig. pose proof (so_words _ _ _ _ _ _ _ Hok) as Hw. pose proof (so_bits _ _ _ _ _ _ _ Hok) as Hb.
  pose proof (so_range _ _ _ _ _ _ _ Hok i ltac:(set_solver)) as Hr. unfold NSIG in Hr. pose proof (so_task _ _ _ _ _ _ _ Hok) as Ht.
  destruct (existsb _ i2) eqn:Em; cbn [negb].
  - apply more_numbers in Em as (j & Hj & Hs). exists (pending_signal t). split; [|split; [by apply tw_pending|]].
    + replace (t <| pending_signal := pending_signal t |>) with t by (by destruct t). rewrite insert_id by done. by destruct k.
    + intros m Hm. rewrite Hb, left_numbers by done. split; [|by right]. intros [->|?]; [|done]. exists j. set_solver.
  - destruct (sigdelset_run _ (tw_pending _ Hw) sig) as (w' & Hrun & Hw' & Hmem); [lia|]. exists w'. split_and!; [|done|].
    + by run (on_set_run k p t pending_signal put_pending _ _ _ Ht Hrun).
    + intros m Hm. rewrite Hmem, andb_true_iff, negb_true_iff, Z.eqb_neq, Hb, left_numbers by done. split; [naive_solver|].
      intros (j & Hj & <-). split; [|right; by exists j]. intros He. apply elem_of_app in Hj as [Hj|Hj]; [by apply (Hno j)|].
      assert (existsb (fun j => si_signo j =? sig) i2 = true) by (apply more_numbers; by exists j). congruence.
Qed.

Lemma collect_signal_run : (forall j, j ∈ i1 -> si_signo j <> si_signo i) ->
  exists k' t', collect_signal (si_signo i) p ~{ k }~> i; k' /\
    sig_ok k' L' (delete q al) p t' (q1 ++ q2) (i1 ++ i2) /\
    t' = t <| pending_signal := pending_signal t' |> /\ tasks k' = <[p := t']> (tasks k) /\ same_rest k k' /\
    (forall m, ha_room (kx k) m -> ha_room (kx k') m).
Proof.
  intros Hno. pose proof Hok as [HL Hx Hown Ht Hw HLq Hall Hbl Hrg Hb]. unfold collect_signal.
  run (find_sigqueue_run (si_signo i) q1 q q2 i1 i i2 Eq Ei H1 Hq H2 eq_refl Hno). cbn [fst snd].
  destruct (clear_pending_run Hno) as (w' & Hr1 & Hw' & Hmem). run Hr1.
  assert (Hin : q ∈ qs) by set_solver.
  rewrite (proj2 (Z.eqb_neq _ _) (queue_entry_ne q Hin)). cbn [negb].
  destruct (lists_take _ _ HL (pending_list p) q qs HLq Hin) as (s1 & Hr2 & HL1). runl Hr2.
  match goal with |- context [(sigqueue_at q ≫= _) ?k1] => run (sigqueue_at_run k1 q i Hq) end.
  destruct (ha_free_law (kx k) al q _ Hx (proj1 (Hbl q Hin))) as (x2 & Hr3 & Hx2 & Hroom).
  unfold free_sigqueue. kstep. runs Hr3. ksteps.
  eexists. exists (t <| pending_signal := w' |>). split; [reflexivity|]. split_and!; try done.
  eapply taken_ok; try done. cbn.
  assert (HL'q : L' !! q = None).
  { destruct (L' !! q) as [xs|] eqn:E; [|done]. destruct (taken_nodes q xs q E) as [? _]; [by left|done]. }
  rewrite Eq, filter_ne_middle in HL1.
  2:{ pose proof (ring_nodup _ _ (proj1 HL _ _ HLq)) as Hnd. apply NoDup_cons in Hnd as [_ Hnd]. by rewrite <- Eq. }
  pose proof (lists_drop _ _ HL1 q [] (lookup_insert_eq _ _ _)) as HL2.
  by rewrite delete_insert_eq, (delete_id _ _ HL'q) in HL2.
Qed.
End Collect.

(** The oldest of the lowest signals that are not blocked is taken out. *)
Lemma dequeue_signal_run info0 : match ready_signal (blocked t) infos with
  | None => dequeue_signal p info0 ~{ k }~> (0, info0); k
  | Some sig => exists i rest k' t' q qs', take_first sig infos = Some (i, rest) /\
      dequeue_signal p info0 ~{ k }~> (sig, i); k' /\
      sig_ok k' (<[pending_list p := qs']> L) (delete q al) p t' qs' rest /\
      t' = t <| pending_signal := pending_signal t' |> /\ tasks k' = <[p := t']> (tasks k) /\ same_rest k k' /\
      (forall m, ha_room (kx k) m -> ha_room (kx k') m)
  end.
Proof.
  pose proof next_signal_ready as Hn. pose proof (ready_signal_spec (blocked t) infos) as Hs.
  pose proof (so_task _ _ _ _ _ _ _ Hok) as Ht. unfold dequeue_signal.
  assert (Hl : forall k1 : K, lift (next_signal (pending_signal t) (blocked t)) ~{ k1 }~> default 0 (ready_signal (blocked t) infos); k1)
    by (intros k1; unfold lift; by rewrite Hn).
  destruct (ready_signal (blocked t) infos) as [sig|]; kstep; run (Hl k); cbn [from_option id]; [|done].
  destruct Hs as [(j & Hj & Hjs & Hm) _]. pose proof (so_range _ _ _ _ _ _ _ Hok j Hj) as Hr.
  destruct (take_first_split sig infos) as [[_ Hno]|(i1 & i & i2 & Ei & His & Hno & Htake)]; [by destruct (Hno j Hj)|].
  pose proof (so_infos _ _ _ _ _ _ _ Hok) as Hall. rewrite Ei in Hall.
  apply Forall2_app_inv_r in Hall as (q1 & q2' & H1 & H2 & Eq). apply Forall2_cons_inv_r in H2 as (q & q2 & Hq & H2 & ->).
  destruct (collect_signal_run q1 q q2 i1 i i2 Eq Ei H1 Hq H2) as (k' & t' & Hrun & Hok' & ?); [by rewrite His|].
  rewrite (proj2 (Z.ltb_lt 0 sig)), (proj2 (Z.ltb_lt sig NSIG)) by lia. cbn [andb]. rewrite His in Hrun.
  exists i, (i1 ++ i2), k', t', q, (q1 ++ q2). split; [done|]. split; [by run Hrun|]. done.
Qed.

End Take.

(** ** Sessions: sending and taking in any order *)
Inductive sig_op : Type := OpSend (info : siginfo_t) | OpTake.
Inductive sig_event : Type := Sent (r : Z) | Taken (sig : Z) (info : siginfo_t).

Definition sig_step (p : Z) (o : sig_op) (info0 : siginfo_t) : M K sig_event :=
  match o with
  | OpSend info => r ← send_signal (si_signo info) (Some info) p; mret (Sent r)
  | OpTake => r ← dequeue_signal p info0; mret (Taken r.1 r.2)
  end.
Fixpoint sig_session (p : Z) (ops : list sig_op) (info0 : siginfo_t) : M K (list sig_event) :=
  match ops with
  | [] => mret []
  | o :: ops => e ← sig_step p o info0; es ← sig_session p ops info0; mret (e :: es)
  end.

(** The specification works on the list of the queued signals alone. *)
Definition dropped (t : task_struct) (sig : Z) : option Z :=
  if ignored t sig then Some 0
  else if (state t =? EXIT_ZOMBIE) || (state t =? EXIT_DEAD) then Some (- EINVAL) else None.
Definition sig_spec (t : task_struct) (o : sig_op) (info0 : siginfo_t) (infos : list siginfo_t) :
    sig_event * list siginfo_t :=
  match o with
  | OpSend info => match dropped t (si_signo info) with Some r => (Sent r, infos) | None => (Sent 0, infos ++ [info]) end
  | OpTake => match ready_signal (blocked t) infos with
              | Some sig => match take_first sig infos with
                            | Some (i, rest) => (Taken sig i, rest)
                            | None => (Taken sig info0, infos)
                            end
              | None => (Taken 0 info0, infos)
              end
  end.
Fixpoint sig_specs (t : task_struct) (ops : list sig_op) (info0 : siginfo_t) (infos : list siginfo_t) :
    list sig_event * list siginfo_t :=
  match ops with
  | [] => ([], infos)
  | o :: ops => let r := sig_spec t o info0 infos in let rs := sig_specs t ops info0 r.2 in (r.1 :: rs.1, rs.2)
  end.
(** The memory the signals put into the queue take. *)
Definition sig_cost (t : task_struct) (o : sig_op) : Z :=
  match o with
  | OpSend info => match dropped t (si_signo info) with Some _ => 0 | None => ha_cost sizeof_sigqueue_t end
  | OpTake => 0
  end.
Definition sig_costs (t : task_struct) (ops : list sig_op) : Z := foldr (fun o n => sig_cost t o + n) 0 ops.
Definition valid_op (o : sig_op) : Prop := match o with OpSend info => 1 <= si_signo info < NSIG | OpTake => True end.

Lemma dropped_spec t sig : match dropped t sig with
  | Some r => if ignored t sig then r = 0 else (state t = EXIT_ZOMBIE \/ state t = EXIT_DEAD) /\ r = - EINVAL
  | None => ignored t sig = false /\ state t <> EXIT_ZOMBIE /\ state t <> EXIT_DEAD
  end.
Proof.
  unfold dropped. destruct (ignored t sig); [done|].
  destruct (Z.eqb_spec (state t) EXIT_ZOMBIE), (Z.eqb_spec (state t) EXIT_DEAD); cbn [orb]; tauto.
Qed.

Lemma sig_step_run k L al p t qs infos o info0 m : sig_ok k L al p t qs infos -> siglock t = 0 -> valid_op o ->
  0 <= m -> ha_room (kx k) (sig_cost t o + m) ->
  sig_step p o info0 ~{ k }~>! FFatal \/
  exists k' L' al' w' qs', let t' := t <| pending_signal := w' |> in
    sig_step p o info0 ~{ k }~> (sig_spec t o info0 infos).1; k' /\
    sig_ok k' L' al' p t' qs' (sig_spec t o info0 infos).2 /\ ha_room (kx k') m /\
    tasks k' = <[p := t']> (tasks k) /\ same_rest k k'.
Proof.
  intros Hok Hlock Hv Hm Hroom. pose proof (so_task _ _ _ _ _ _ _ Hok) as Ht.
  assert (Hsame : t = t <| pending_signal := pending_signal t |> /\ tasks k = <[p := t]> (tasks k)).
  { split; [by destruct t|by rewrite insert_id]. }
  destruct Hsame as (Et & Etk). destruct o as [info|]; cbn [sig_step sig_spec sig_cost valid_op] in *.
  - pose proof (dropped_spec t (si_signo info)) as Hd. destruct (dropped t (si_signo info)) as [r|].
    + right. exists k, L, al, (pending_signal t), qs. cbv zeta. rewrite <- Et. split_and!; try done.
      by run (send_dropped k L al p t qs infos Hok (si_signo info) Hv info Hlock r Hd).
    + destruct Hd as (Hi & Hz & Hx).
      destruct (send_queued k L al p t qs infos Hok (si_signo info) Hv info Hlock m eq_refl Hi Hz Hx Hm Hroom)
        as [Herr|(q & k' & t' & Hr & Hok' & Et' & Htk & _ & Hsr & Hrm)]; [left; by apply bind_err|right].
      eexists k', _, _, (pending_signal t'), _. cbv zeta. rewrite <- Et'. split_and!; try done. by run Hr.
  - right. pose proof (dequeue_signal_run k L al p t qs infos Hok info0) as Hdq.
    destruct (ready_signal (blocked t) infos) as [sig|].
    + destruct Hdq as (i & rest & k' & t' & q & qs' & -> & Hr & Hok' & Et' & Htk & Hsr & Hrm).
      eexists k', _, _, (pending_signal t'), _. cbv zeta. rewrite <- Et'. split_and!; try done; [by run Hr|by apply Hrm].
    + exists k, L, al, (pending_signal t), qs. cbv zeta. rewrite <- Et. split_and!; try done. by run Hdq.
Qed.

(** What is done with a signal does not depend on the pending set. *)
Lemma sig_specs_pending t w ops info0 : forall infos,
  sig_specs (t <| pending_signal := w |>) ops info0 infos = sig_specs t ops info0 infos.
Proof.
  induction ops as [|o ops IH]; intros infos; [done|]. cbn [sig_specs]. rewrite IH.
  by change (sig_spec (t <| pending_signal := w |>) o info0 infos) with (sig_spec t o info0 infos).
Qed.
Lemma sig_costs_pending t w ops : sig_costs (t <| pending_signal := w |>) ops = sig_costs t ops.
Proof. induction ops as [|o ops IH]; [done|]. cbn. by f_equal. Qed.
Lemma same_rest_trans k1 k2 k3 : same_rest k1 k2 -> same_rest k2 k3 -> same_rest k1 k3.
Proof. intros [] []. split; congruence. Qed.

Lemma sig_costs_pos t ops : 0 <= sig_costs t ops.
Proof.
  induction ops as [|o ops IH]; [done|]. cbn. fold (sig_costs t ops). destruct o as [info|]; cbn [sig_cost]; [|done].
  pose proof (ha_cost_law sizeof_sigqueue_t ltac:(done)). destruct (dropped t (si_signo info)); lia.
Qed.

(** C7: the pending signals of a task are a queue by signal number. After any
    sequence of sends and takes, each send has returned what the specification
    says (dropped, refused for a zombie, or queued) and each take has returned the
    lowest signal that is not blocked, the oldest one of its number, or 0; the
    list, the set and the heap blocks agree with the specification's list. The
    only failure is the kernel running out of memory. *)
Theorem signal_queue_refines ops info0 p : forall k L al t qs infos, sig_ok k L al p t qs infos -> siglock t = 0 ->
  Forall valid_op ops -> ha_room (kx k) (sig_costs t ops) ->
  sig_session p ops info0 ~{ k }~>! FFatal \/
  exists k' L' al' t' qs', sig_session p ops info0 ~{ k }~> (sig_specs t ops info0 infos).1; k' /\
    sig_ok k' L' al' p t' qs' (sig_specs t ops info0 infos).2 /\ same_rest k k'.
Proof.
  induction ops as [|o ops IH]; intros k L al t qs infos Hok Hlock Hv Hroom.
  { right. by exists k, L, al, t, qs. }
  inversion Hv as [|? ? Ho Hv']; subst. cbn [sig_session sig_specs sig_costs foldr] in *. fold (sig_costs t ops) in Hroom.
  assert (Hpos : 0 <= sig_costs t ops) by apply sig_costs_pos.
  destruct (sig_step_run k L al p t qs infos o info0 _ Hok Hlock Ho Hpos Hroom) as [Herr|(k1 & L1 & al1 & w1 & qs1 & Hr & Hok1 & Hrm & _ & Hsr)].
  { left. by apply bind_err. }
  rewrite <- (sig_costs_pending t w1 ops) in Hrm.
  destruct (IH k1 _ _ _ _ _ Hok1 Hlock Hv' Hrm) as [Herr|(k2 & L2 & al2 & t2 & qs2 & Hr2 & Hok2 & Hsr2)].
  - left. run Hr. by apply bind_err.
  - rewrite sig_specs_pending in Hr2, Hok2. right. exists k2, L2, al2, t2, qs2. split_and!; [run Hr; by run Hr2|done|].
    by apply same_rest_trans with k1.
Qed.

(** ** Calling a handler and returning from it *)
Lemma store_words_run ws : forall k a, 0 <= a -> a + 4 * Z.of_nat (length ws) < 4294967296 ->
  exists u, store_words a ws ~{ k }~> tt; k <| umem := u |> /\
    (forall i w, ws !! i = Some w -> u !! (a + 4 * Z.of_nat i) = Some w) /\
    (forall b, b < a \/ a + 4 * Z.of_nat (length ws) <= b -> u !! b = umem k !! b).
Proof.
  induction ws as [|w ws IH]; intros k a Ha Hlen.
  { exists (umem k). split; [by destruct k|]. done. }
  rewrite length_cons, Nat2Z.inj_succ in Hlen.
  destruct (IH (k <| umem := <[a := w]> (umem k) |>) (a + 4)) as (u & Hr & Hin & Hout); [lia|lia|].
  exists u. split; [cbn [store_words]; unfold store_user; kstep; by rewrite u32_small by lia|]. split.
  - intros [|i] w' Hi; cbn in Hi.
    + simplify_eq. rewrite Z.add_0_r, Hout by lia. apply lookup_insert_eq.
    + rewrite <- (Hin i w' Hi). f_equal. lia.
  - rewrite length_cons, Nat2Z.inj_succ. intros b Hb. rewrite Hout by lia. cbn. apply lookup_insert_ne. lia.
Qed.

Lemma push_value_run k v sp : useresp (frame k) = sp -> 4 <= sp < 4294967296 -> push_value v ~{ k }~> tt;
  (k <| frame := (frame k) <| useresp := sp - 4 |> |>) <| umem := <[sp - 4 := v]> (umem k) |>.
Proof. intros <- Hsp. unfold push_value, store_user. ksteps. by rewrite u32_small by lia. Qed.

(** The words [ws] lie at [sp] and above. *)
Definition holds (u : gmap Z Z) (sp : Z) (ws : list Z) : Prop :=
  forall i w, ws !! i = Some w -> u !! (sp + 4 * Z.of_nat i) = Some w.
Lemma holds_push u sp ws v : holds u sp ws -> holds (<[sp - 4 := v]> u) (sp - 4) (v :: ws).
Proof.
  intros Hu [|i] w Hi; cbn in Hi.
  - simplify_eq. rewrite Z.add_0_r. apply lookup_insert_eq.
  - rewrite lookup_insert_ne by lia. rewrite <- (Hu i w Hi). f_equal. lia.
Qed.

(** [k] with the user stack pointer at [sp] and the user memory [u]. *)
Definition with_stack (k : K) (sp : Z) (u : gmap Z Z) : K := (k <| frame := (frame k) <| useresp := sp |> |>) <| umem := u |>.

Definition siginfo_stack (info : siginfo_t) (ka : sigaction_t) (sp : Z) : list Z :=
  if negb (Z.land (sa_flags ka) SA_SIGINFO =? 0) then (sp - 36) :: siginfo_words info else [].
Lemma push_siginfo_run k info ka sp : useresp (frame k) = sp -> 40 <= sp < 4294967296 ->
  let ws := siginfo_stack info ka sp in exists u,
  (if negb (Z.land (sa_flags ka) SA_SIGINFO =? 0) then push_siginfo info else mret tt) ~{ k }~> tt;
    with_stack k (sp - 4 * Z.of_nat (length ws)) u /\ holds u (sp - 4 * Z.of_nat (length ws)) ws.
Proof.
  intros Hsp Hr ws. unfold ws, siginfo_stack. destruct (negb _).
  - unfold push_siginfo. ksteps. cbn [frame useresp setter eta eta_kern eta_pt_regs]. rewrite Hsp, u32_small by lia.
    match goal with |- context [(store_words _ _ ≫= _) ?k1] =>
      destruct (store_words_run (siginfo_words info) k1 (sp - 36)) as (u & Hs & Hin & _); [lia|cbn; lia|] end.
    run Hs. exists (<[sp - 36 - 4 := sp - 36]> u).
    replace (sp - 4 * Z.of_nat (length (sp - 36 :: siginfo_words info))) with (sp - 36 - 4) by (cbn; lia).
    split; [|apply holds_push; exact Hin]. 
    rewrite (push_value_run _ _ (sp - 36)); [done|done|lia].
  - exists (umem k). split; [|done]. unfold with_stack. cbn. rewrite Z.sub_0_r, <- Hsp. by destruct k as [? ? ? ? ? ? ? ? ? [] ? ? ? ?].
Qed.

(** What the user program finds when the handler starts. *)
Definition handler_stack (t : task_struct) (signr : Z) (info : siginfo_t) (ka : sigaction_t) : list Z :=
  sigreturn_addr t :: signr :: siginfo_stack info ka (useresp (t_regs t)).
(** The task while the handler runs: the interrupted registers [f] and the mask
    are saved and the signal is blocked as well. *)
Record in_handler (t : task_struct) (signr : Z) (f : pt_regs) (t' : task_struct) : Prop := {
  ih_same : t' = t <| saved_sigmask := blocked t |> <| blocked := blocked t' |> <| signal_regs := f |>;
  ih_words : two_words (blocked t');
  ih_mask : forall m, 1 <= m <= 64 -> mem (blocked t') m = (m =? signr) || mem (blocked t) m
}.

Lemma handle_signal_run k t signr info ka : curr k <> NULL -> tasks k !! curr k = Some t -> task_words t -> pid t <> 1 ->
  1 <= signr < NSIG -> 48 <= useresp (t_regs t) < 4294967296 ->
  let ws := handler_stack t signr info ka in let sp := useresp (t_regs t) - 4 * Z.of_nat (length ws) in
  exists u t', handle_signal signr info ka ~{ k }~> 1;
    with_stack (k <| tasks := <[curr k := t']> (tasks k) |> <| frame := (t_regs t) <| eip := sa_handler ka |> |>) sp u /\
    holds u sp ws /\ in_handler t signr (frame k) t'.
Proof.
  intros Hc Ht Hw Hpid Hsig Hsp ws sp. unfold handle_signal, scheduler_get_current_process. ksteps.
  rewrite (proj2 (Z.eqb_neq _ _) Hpid). ksteps. unfold NSIG in Hsig.
  destruct (sigaddset_run _ (tw_blocked _ Hw) signr) as (w' & Hadd & Hw' & Hmem); [lia|].
  change (blocked t) with (blocked (t <| saved_sigmask := blocked t |>)) in Hadd. runset Hadd. ksteps.
  match goal with |- context [((if _ then _ else _) ≫= _) ?k1] =>
    destruct (push_siginfo_run k1 info ka (useresp (t_regs t)) eq_refl) as (u & Hr & Hu); [lia|] end.
  run Hr. set (sp0 := useresp (t_regs t) - 4 * Z.of_nat (length (siginfo_stack info ka (useresp (t_regs t))))) in *.
  assert (Hsp0 : 8 <= sp0 < 4294967296).
  { unfold sp0, siginfo_stack. destruct (negb _); cbn; lia. }
  match goal with |- context [(push_value _ ≫= _) ?k1] => run (push_value_run k1 signr sp0 eq_refl ltac:(lia)) end.
  ksteps.
  match goal with |- context [(push_value _ ≫= _) ?k1] => 
     run (push_value_run k1 (sigreturn_addr t) (sp0 - 4) eq_refl ltac:(lia)) end.
  exists (<[sp0 - 4 - 4 := sigreturn_addr t]> (<[sp0 - 4 := signr]> u)),
    (t <| saved_sigmask := blocked t |> <| blocked := w' |> <| signal_regs := frame k |>).
  assert (Esp : sp = sp0 - 4 - 4) by (unfold sp, sp0, ws, handler_stack; cbn [length]; lia). rewrite Esp. split_and!.
  - cbn. rewrite !insert_insert_eq. done.
  - by apply holds_push, holds_push.
  - by split.
Qed.

(** What a caller may ask for and the code does not look at: a mask for the handler, and
    the flags to leave the signal unblocked, to reset the handler and to use another
    stack. *)
Definition honoured (a : sigaction_t) : Prop :=
  sa_mask a = [0; 0] /\ Z.land (sa_flags a) (Z.lor SA_ONSTACK (Z.lor SA_NODEFER SA_RESETHAND)) = 0.

(** C34: the handler of an action with an empty mask and without the flags that the
    code ignores starts at its address, with the signal number (and, if it
    asked for it, the description of the signal) on the user stack above the
    address of the sigreturn code, and with the signal blocked. When sys_sigreturn
    runs while these are still the saved values, the interrupted registers and
    the mask are back, so that the call does not come back to the handler (what it
    returns is not claimed). The task is not init, its signal is in the range, its
    registers and masks are machine words ([task_words]), its stack has room for 48
    bytes, and the heap is intact when sys_sigreturn runs. *)
Theorem handler_roundtrip k t signr info ka : curr k <> NULL -> tasks k !! curr k = Some t -> task_words t -> pid t <> 1 ->
  1 <= signr < NSIG -> 48 <= useresp (t_regs t) < 4294967296 -> honoured ka ->
  exists k1 t1, handle_signal signr info ka ~{ k }~> 1; k1 /\ tasks k1 = <[curr k := t1]> (tasks k) /\
    curr k1 = curr k /\ kx k1 = kx k /\ eip (frame k1) = sa_handler ka /\ holds (umem k1) (useresp (frame k1)) (handler_stack t signr info ka) /\
    in_handler t signr (frame k) t1 /\
    forall k2 al, curr k2 = curr k -> tasks k2 !! curr k = Some t1 -> ha_ok (kx k2) al ->
      exists k3 t3 r, sys_sigreturn ~{ k2 }~> r; k3 /\ frame k3 = frame k /\
        tasks k3 = <[curr k := t3]> (tasks k2) /\ blocked t3 = blocked t /\ ha_ok (kx k3) al.
Proof.
  intros Hc Ht Hw Hpid Hsig Hsp _.
  destruct (handle_signal_run k t signr info ka Hc Ht Hw Hpid Hsig Hsp) as (u & t1 & Hr & Hu & Hh).
  eexists _, t1. split; [exact Hr|]. split_and!; [done|done|done|done|exact Hu|done|].
  intros k2 al Hc2 Ht2 Hx. pose proof (ih_same _ _ _ _ Hh) as Et. rewrite <- Hc2 in Ht2 |- *.
  destruct (ps_switch_law (kx k2) al (t_mm t1) Hx) as (x3 & Hr3 & Hx3).
  unfold sys_sigreturn, scheduler_get_current_process. ksteps.
  runs Hr3. eexists _, (t1 <| blocked := saved_sigmask t1 |>), _. split; [reflexivity|]. rewrite Et. by split_and!.
Qed.

(** ** The system calls on masks and actions *)

(** Two sets combined word by word. *)
Lemma map_words_mem f g a b : (forall v w j, is_u32 v -> is_u32 w -> 0 <= j -> Z.testbit (f v w) j = g (Z.testbit v j) (Z.testbit w j)) ->
  (forall v w, is_u32 v -> is_u32 w -> is_u32 (f v w)) -> two_words a -> two_words b ->
  two_words (map_words f a b) /\ forall m, 1 <= m <= 64 -> mem (map_words f a b) m = g (mem a m) (mem b m).
Proof.
  intros Hf Hr (a0 & a1 & -> & Ha0 & Ha1) (b0 & b1 & -> & Hb0 & Hb1). cbn [map_words zip_with]. split.
  - exists (f a0 b0), (f a1 b1). split_and!; [done|by apply Hr..].
  - intros m Hm. unfold mem. assert ((m - 1) / 32 = 0 \/ (m - 1) / 32 = 1) as [-> | ->] by dlia; cbn; apply Hf; try done;
      apply Z.mod_pos_bound; lia.
Qed.
Lemma lor_range v w : is_u32 v -> is_u32 w -> is_u32 (Z.lor v w).
Proof.
  intros Hv Hw. apply word_bound_testbit; [apply Z.lor_nonneg; split; [apply Hv|apply Hw]|].
  intros j Hj. by rewrite Z.lor_spec, !word_testbit_high.
Qed.

(** Membership in the new mask. *)
Definition new_mask (how : Z) (old set : bool) : bool :=
  if how =? SIG_BLOCK then old || set else if how =? SIG_UNBLOCK then old && negb set else set.

(** Sys_sigprocmask refuses two null pointers, an unknown operation and the
    init process; otherwise it hands out the old mask and, when there is a set, the
    new mask is the union, the difference or the set itself. *)
Theorem sigprocmask_correct k t how set old : curr k <> NULL -> tasks k !! curr k = Some t -> two_words (blocked t) ->
  (forall s, set = Some s -> two_words s) ->
  let returns r o := sys_sigprocmask how set old ~{ k }~> (r, o); k in
  let oldset := if old then Some (blocked t) else None in
  if bool_decide (set = None) && negb old then returns (- EFAULT) None
  else if (how <? SIG_BLOCK) || (SIG_SETMASK <? how) then returns (- EINVAL) None
  else if pid t =? 1 then returns (- EINVAL) None
  else match set with
       | None => returns 0 oldset
       | Some s => exists w', sys_sigprocmask how set old ~{ k }~> (0, oldset);
             k <| tasks := <[curr k := t <| blocked := w' |>]> (tasks k) |> /\ two_words w' /\
             forall m, 1 <= m <= 64 -> mem w' m = new_mask how (mem (blocked t) m) (mem s m)
       end.
Proof.
  intros Hc Ht Hw Hs returns oldset. unfold returns, sys_sigprocmask, scheduler_get_current_process, new_mask.
  destruct set as [s|]; cbn [bool_decide decide_rel]; [|destruct old; [|done]]; cbn [negb andb].
  - rewrite bool_decide_false by done. cbn [andb]. destruct (_ || _); [done|]. ksteps. destruct (pid t =? 1); [done|].
    specialize (Hs s eq_refl). destruct (how =? SIG_BLOCK); [|destruct (how =? SIG_UNBLOCK)].
    + destruct (map_words_mem Z.lor orb (blocked t) s) as [H1 H2]; try done; [intros; apply Z.lor_spec|by apply lor_range|].
      eexists. kstep. split; [reflexivity|done].
    + destruct (map_words_mem bitmask_clear (fun x y => x && negb y) (blocked t) s) as [H1 H2]; try done;
        [intros; by apply bitmask_clear_testbit|intros; by apply bitmask_clear_range|].
      eexists. kstep. split; [reflexivity|done].
    + eexists. kstep. by split.
  - destruct (_ || _); [done|]. ksteps. by destruct (pid t =? 1).
Qed.

(** The action of [sig] after an update. *)
Lemma set_action_run k p t sig a : tasks k !! p = Some t -> length (action t) = 32%nat -> 1 <= sig < NSIG ->
  set_action p sig a ~{ k }~> tt; k <| tasks := <[p := t <| action := zinsert (action t) (sig - 1) a |>]> (tasks k) |>.
Proof.
  intros Ht Hl Hs. destruct (action_run k p t sig Ht Hl Hs) as (a0 & _ & Hr). unfold set_action. run Hr. unfold upd_task. by rewrite Ht.
Qed.

(** The action of [sig] of the task at [p] is [a] and its return code at [sr]. *)
Definition acts (p sig : Z) (t : task_struct) (sr : Z) (a : sigaction_t) : task_struct :=
  t <| sigreturn_addr := sr |> <| action := zinsert (action t) (sig - 1) a |>.

Lemma sigaction_run k t signum a old sr : curr k <> NULL -> tasks k !! curr k = Some t -> task_words t -> siglock t = 0 ->
  pid t <> 1 -> 1 <= signum < NSIG -> exists a0, zlookup (action t) (signum - 1) = Some a0 /\
  sys_sigaction signum (Some a) old sr ~{ k }~> (0, if old then Some a0 else None);
    k <| tasks := <[curr k := acts (curr k) signum t sr a]> (tasks k) |>.
Proof.
  intros Hc Ht Hw Hlock Hpid Hs. unfold sys_sigaction, scheduler_get_current_process.
  rewrite (proj2 (Z.ltb_ge signum 0)), (proj2 (Z.leb_gt NSIG signum)) by lia. cbn [orb]. ksteps.
  rewrite (proj2 (Z.eqb_neq _ _) Hpid). run (lock_run k _ _ Ht Hlock). kstep.
  match goal with |- context [(_ ≫= _) ?k1] =>
    assert (Ht1 : tasks k1 !! curr k = Some (t <| siglock := 1 |> <| sigreturn_addr := sr |>)) by apply lookup_insert_eq;
    set (k1' := k1) in *
  end.
  destruct (action_run k1' (curr k) _ signum Ht1 (tw_action _ Hw) Hs) as (a0 & Ha & Hr). exists a0. split; [exact Ha|].
  pose proof (set_action_run k1' (curr k) _ signum a Ht1 (tw_action _ Hw) Hs) as Hset.
  assert (Hold : (if old then x ← action_at (curr k) signum; mret (Some x) else mret None) ~{ k1' }~> if old then Some a0 else None; k1')
    by (destruct old; [by run Hr|done]).
  run Hold. unfold of_option. kstep. run Hset. unfold unlock_task_sighand. kstep. unfold k1', acts. cbn.
  rewrite !insert_insert_eq. by rewrite Hlock.
Qed.

(** Sys_sigaction refuses numbers out of range and the init process;
    otherwise it hands out the action it replaces, and a second call hands out the
    action the first one installed. The actions of the other signals stay. For
    signal 0, which it accepts, the code writes below the array. *)
Theorem sigaction_correct k t signum a b old sr : curr k <> NULL -> tasks k !! curr k = Some t -> task_words t ->
  siglock t = 0 ->
  let refused := sys_sigaction signum (Some a) old sr ~{ k }~> (- EINVAL, None); k in
  if (signum <? 0) || (NSIG <=? signum) then refused
  else if pid t =? 1 then refused
  else if signum =? 0 then sys_sigaction signum (Some a) old sr ~{ k }~>! FBound (-1)
  else exists a0 k1, zlookup (action t) (signum - 1) = Some a0 /\
    sys_sigaction signum (Some a) old sr ~{ k }~> (0, if old then Some a0 else None); k1 /\
    tasks k1 = <[curr k := acts (curr k) signum t sr a]> (tasks k) /\
    (exists k2, sys_sigaction signum (Some b) true sr ~{ k1 }~> (0, Some a); k2) /\
    forall s, 1 <= s < NSIG -> s <> signum ->
      zlookup (action (acts (curr k) signum t sr a)) (s - 1) = zlookup (action t) (s - 1).
Proof.
  intros Hc Ht Hw Hlock refused. unfold refused. destruct (_ || _) eqn:E; [unfold sys_sigaction; by rewrite E|].
  apply orb_false_iff in E as [E1%Z.ltb_ge E2%Z.leb_gt].
  destruct (Z.eqb_spec (pid t) 1) as [Hp|Hp].
  { unfold sys_sigaction, scheduler_get_current_process. rewrite (proj2 (Z.ltb_ge _ _) E1), (proj2 (Z.leb_gt _ _) E2). cbn [orb]. ksteps. by rewrite Hp. }
  destruct (Z.eqb_spec signum 0) as [->|Hs].
  - unfold sys_sigaction, scheduler_get_current_process. cbn [orb Z.ltb Z.leb Z.compare NSIG]. ksteps.
    rewrite (proj2 (Z.eqb_neq _ _) Hp). run (lock_run k _ _ Ht Hlock). kstep.
    destruct old; [|unfold of_option]; unfold set_action, action_at; rewrite ?bind_assoc; by ksteps.
  - destruct (sigaction_run k t signum a old sr Hc Ht Hw Hlock Hp) as (a0 & Ha & Hr); [lia|].
    eexists a0, _. split; [done|]. split; [exact Hr|]. split; [reflexivity|]. split.
    + destruct (sigaction_run (k <| tasks := <[curr k := acts (curr k) signum t sr a]> (tasks k) |>)
        (acts (curr k) signum t sr a) signum b true sr) as (a1 & Ha1 & Hr1); try done; [apply lookup_insert_eq| |lia|].
      * destruct Hw. split; try done. cbn. by rewrite zinsert_length.
      * cbn in Ha1. rewrite zlookup_zinsert_eq in Ha1 by (pose proof (tw_action _ Hw); unfold NSIG in *; lia).
        simplify_eq. by eexists.
    + intros s Hs1 Hne. cbn. apply zlookup_zinsert_ne. lia.
Qed.

(** ** sys_kill *)
Definition job_control (sig : Z) : bool :=
  (sig =? SIGSTOP) || (sig =? SIGTSTP) || (sig =? SIGTTIN) || (sig =? SIGTTOU) || (sig =? SIGCONT).
(** The description that goes with the signal names the receiver. *)
Definition kill_info (t : task_struct) (sig : Z) : siginfo_t := SigInfo sig SI_USER 0 0 (pid t) (uid t) NULL 0 0.

Lemma handle_stop_none k p sig : job_control sig = false -> handle_stop_signal sig p ~{ k }~> tt; k.
Proof. unfold job_control, handle_stop_signal. intros [Hs Hc]%orb_false_iff. by rewrite Hs, Hc. Qed.

Lemma send_sig_info_eq k p t sig info : tasks k !! p = Some t -> siglock t = 0 -> job_control sig = false ->
  1 <= sig < NSIG -> send_sig_info sig info p k = (send_signal sig (Some info) p ≫= fun _ => mret 0) k.
Proof.
  unfold NSIG. intros Ht Hl Hj Hs. unfold send_sig_info, NSIG.
  rewrite (proj2 (Z.ltb_ge sig 0)), (proj2 (Z.ltb_ge 32 sig)), (proj2 (Z.eqb_neq sig 0)) by lia. cbn [orb].
  run (lock_run k p t Ht Hl). run (handle_stop_none (locked_kern k p t) p sig Hj). by run (relock_same k p t Ht Hl).
Qed.

(** A task that can get signals. *)
Definition receptive (k : K) (L : gmap Z (list Z)) (al : gmap Z Z) (p : Z) (t : task_struct) (qs : list Z)
    (infos : list siginfo_t) : Prop := p <> NULL /\ sig_ok k L al p t qs infos /\ siglock t = 0.

(** What a signal from the range does to a receiver that is found. *)
Lemma kill_run k L al ts n p t qs infos sig m : queued k ts -> List.find (has_pid k n) ts = Some p ->
  receptive k L al p t qs infos -> 1 <= sig < NSIG -> job_control sig = false -> 0 <= m ->
  ha_room (kx k) (ha_cost sizeof_sigqueue_t + m) ->
  match dropped t sig with
  | Some _ => sys_kill n sig ~{ k }~> 0; k
  | None => sys_kill n sig ~{ k }~>! FFatal \/
      exists q k' t', sys_kill n sig ~{ k }~> 0; k' /\
        sig_ok k' (<[pending_list p := qs ++ [q]]> L) (<[q := sizeof_sigqueue_t]> al) p t' (qs ++ [q]) (infos ++ [kill_info t sig]) /\
        t' = t <| pending_signal := pending_signal t' |> /\ tasks k' = <[p := t']> (tasks k) /\ same_rest k k' /\
        ha_room (kx k') m
  end.
Proof.
  unfold NSIG. intros Hq E (Hp & Hok & Hl) Hs Hj Hm Hroom. pose proof (so_task _ _ _ _ _ _ _ Hok) as Ht. unfold sys_kill.
  pose proof (get_running_run k ts Hq n) as Hg. rewrite E in Hg. run Hg. cbn [from_option id].
  rewrite (proj2 (Z.eqb_neq _ _) Hp), (proj2 (Z.ltb_ge sig 0)), (proj2 (Z.leb_gt NSIG sig)) by (unfold NSIG; lia). cbn [orb]. kstep.
  rewrite (send_sig_info_eq k p t sig _ Ht Hl Hj) by (unfold NSIG; lia). fold (kill_info t sig).
  pose proof (dropped_spec t sig) as Hd. destruct (dropped t sig) as [r|].
  - by run (send_dropped k L al p t qs infos Hok sig ltac:(unfold NSIG; lia) (kill_info t sig) Hl r Hd).
  - destruct Hd as (Hi & Hz & Hx).
    destruct (send_queued k L al p t qs infos Hok sig ltac:(unfold NSIG; lia) (kill_info t sig) Hl m eq_refl Hi Hz Hx Hm Hroom)
      as [Herr|(q & k' & t' & Hr & Hok' & Et & Htk & _ & Hsr & Hrm)]; [left; by apply bind_err|right].
    exists q, k', t'. split; [by run Hr|]. by split_and!.
Qed.


End Signal.

(** ** The properties at concrete states

    In the three-task kernel of [Task], with 0 for the memory that was never
    written. *)
Definition demo_info (sig : Z) : siginfo_t := SigInfo sig SI_KERNEL 0 0 2 0 0 0 0.
Lemma zero_words : two_words [0; 0].
Proof. by exists 0, 0. Qed.
Lemma demo_words n par : task_words (demo_task n par).
Proof. split; [apply zero_words..|reflexivity]. Qed.
Lemma demo_sig_ok p n par : tasks demo_kern !! p = Some (demo_task n par) -> demo_kern_lists !! pending_list p = Some [] ->
  receptive demo_kern demo_kern_lists demo_blocks p (demo_task n par) [] [].
Proof.
  intros Hp Hl. split; [intros ->; discriminate Hp|]. split; [|reflexivity]. split.
  - apply demo_kern_lists_ok.
  - apply demo_heap_ok.
  - apply owned_check_sound. vm_compute. reflexivity.
  - exact Hp.
  - apply demo_words.
  - exact Hl.
  - constructor.
  - intros q []%elem_of_nil.
  - intros i []%elem_of_nil.
  - intros m Hm. split; [|intros (i & []%elem_of_nil & _)]. intros Hmem. exfalso. revert Hmem. cbn [demo_task pending_signal].
    assert (mem [0; 0] m = false) as ->; [|done]. unfold mem.
    assert ((m - 1) / 32 = 0 \/ (m - 1) / 32 = 1) as [-> | ->] by dlia; apply Z.bits_0.
Qed.

(** Two signals sent, the lower one is taken first. *)
Lemma signal_queue_refines_witness : exists k', sig_session 0 T3 [OpSend (demo_info 15); OpSend (demo_info 10); OpTake] (demo_info 0)
  ~{ demo_kern }~> [Sent 0; Sent 0; Taken 10 (demo_info 10)]; k'.
Proof.
  destruct (demo_sig_ok T3 3 T2 eq_refl eq_refl) as (_ & Hok & _).
  destruct (signal_queue_refines 0 [OpSend (demo_info 15); OpSend (demo_info 10); OpTake] (demo_info 0) T3 _ _ _ _ _ _ Hok eq_refl)
    as [Herr|(k' & L' & al' & t' & qs' & Hr & _)].
  - repeat constructor; vm_compute; congruence.
  - vm_compute. congruence.
  - exfalso. vm_compute in Herr. discriminate.
  - exists k'. exact Hr.
Defined.

Definition word_of (w : list Z) : Z := default 0 (zlookup w 0).

Lemma sigset_correct_witness : exists w', sigaddset 10 (Some [0; 5]) = Ok (0, Some w') /\ mem w' 10 = true /\ mem w' 33 = true.
Proof.
  destruct (sigset_correct [0; 5] 10) as ((w' & Hr & _ & Hm) & _); [by exists 0, 5|lia|].
  exists w'. split; [exact Hr|]. rewrite !Hm by lia. split; reflexivity.
Defined.

(** Task 2 gets signal 10 with its stack at 8192 and a handler at 4096. *)
Definition demo_stack : kern (Kheap.heap (gset Z)) :=
  demo_kern <| tasks := <[T2 := (demo_task 2 T1) <| t_regs := (demo_regs 2) <| useresp := 8192 |> |>]> demo_tasks |>.
Lemma handler_roundtrip_witness : exists k1, handle_signal 10 (demo_info 10) (SigAction 4096 [0; 0] SA_SIGINFO) ~{ demo_stack }~> 1; k1 /\
  eip (frame k1) = 4096 /\ umem k1 !! (useresp (frame k1) + 4) = Some 10 /\
  exists k3 r, sys_sigreturn ~{ k1 }~> r; k3 /\ frame k3 = demo_regs 2.
Proof.
  destruct (handler_roundtrip demo_stack ((demo_task 2 T1) <| t_regs := (demo_regs 2) <| useresp := 8192 |> |>) 10 (demo_info 10)
    (SigAction 4096 [0; 0] SA_SIGINFO)) as (k1 & t1 & Hr & Htk & Hc & Hx & Hip & Hst & _ & Hret);
    [done|reflexivity|destruct (demo_words 2 T1); by split|done|done|done|by split|].
  exists k1. split; [exact Hr|]. split; [exact Hip|]. split; [exact (Hst 1%nat 10 eq_refl)|].
  destruct (Hret k1 demo_blocks) as (k3 & t3 & r & Hr3 & Hf & _); [exact Hc|rewrite Htk; apply lookup_insert_eq|rewrite Hx; apply demo_heap_ok|].
  exists k3, r. split; [exact Hr3|]. exact Hf.
Defined.

(** A handler for signal 10 with the mask 4 (signal 3) and SA_NODEFER: signal 3 is not
    blocked while it runs, and signal 10 is. *)
Example mask_ignored : match handle_signal 10 (demo_info 10) (SigAction 4096 [4; 0] SA_NODEFER) demo_stack with
  | Ok (_, k1) => match tasks k1 !! T2 with Some t => mem (blocked t) 3 = false /\ mem (blocked t) 10 = true | None => False end
  | Err _ => False end.
Proof. vm_compute. done. Qed.

Lemma sigprocmask_correct_witness : exists w', sys_sigprocmask SIG_BLOCK (Some [512; 0]) true ~{ demo_kern }~> (0, Some [0; 0]);
  demo_kern <| tasks := <[T2 := (demo_task 2 T1) <| blocked := w' |>]> demo_tasks |> /\ mem w' 10 = true.
Proof.
  pose proof (sigprocmask_correct demo_kern (demo_task 2 T1) SIG_BLOCK (Some [512; 0]) true) as Hs. cbv zeta in Hs.
  destruct Hs as (w' & Hr & _ & Hm); [done|reflexivity|apply zero_words|intros s [= <-]; by exists 512, 0|].
  exists w'. split; [exact Hr|]. clear Hr. rewrite Hm by lia. reflexivity.
Defined.

Lemma sigaction_correct_witness : exists k1, sys_sigaction 10 (Some (SigAction 4096 [0; 0] 0)) true 8 ~{ demo_kern }~> (0, Some (SigAction 0 [0; 0] 0)); k1 /\
  exists k2, sys_sigaction 10 (Some (SigAction 0 [0; 0] 0)) true 8 ~{ k1 }~> (0, Some (SigAction 4096 [0; 0] 0)); k2.
Proof.
  pose proof (sigaction_correct demo_kern (demo_task 2 T1) 10 (SigAction 4096 [0; 0] 0) (SigAction 0 [0; 0] 0) true 8) as Hs. cbv zeta in Hs.
  destruct Hs as (a0 & k1 & Ha & Hr & _ & Hr2 & _); [done|reflexivity|apply demo_words|reflexivity|].
  assert (a0 = SigAction 0 [0; 0] 0) as -> by (vm_compute in Ha; congruence). exists k1. split; [exact Hr|exact Hr2].
Defined.


(** SIGCONT cancels a pending SIGSTOP in the queue but not in the set: the next
    signal is still SIGSTOP, with a description that names the running task. *)
Lemma cancelled_stop_delivered :
  Kheap.result_of ((sys_kill 0 3 SIGSTOP ;; sys_kill 0 3 SIGCONT ;; dequeue_signal T3 (demo_info 0)) demo_kern) =
  Some (SIGSTOP, SigInfo SIGSTOP SI_USER 0 0 2 0 0 0 0).
Proof. vm_compute. reflexivity. Qed.

End Signal.
