(* ===== verification/Delivery.v ===== *)
(** * Exit, delivery of signals and the scheduler tick
      (src/kernel/process/scheduler.c, src/kernel/system/signal.c)

    [sys_exit], [do_signal] and [scheduler_run]. [do_signal] runs the scheduler
    when a task is stopped and the scheduler runs [do_signal], so both take fuel:
    one unit for every nested call and for every signal taken from a queue. *)

From S2P Require Import Prelude Interfaces ListHead Kheap Task Scheduler Signal.

Module Delivery.
Import ListHead Task Scheduler Signal.

Definition SIGQUIT : Z := 3.
Definition SIGILL : Z := 4.
Definition SIGTRAP : Z := 5.
Definition SIGABRT : Z := 6.
Definition SIGWINCH : Z := 20.
Definition SIGURG : Z := 21.

Section Delivery.
Context {X : Type} `{ProcessServices X} (uninit : Z).
Notation K := (kern X).
Notation sys_kill := (sys_kill uninit).
Notation send_signal := (send_signal uninit).

(** ** [sys_exit] *)
Definition reparent (c init_proc : Z) : M K unit :=
  _ ← list_for_each_k (B := unit) (children c) (fun it _ =>
        upd_task (entry_sibling it) (fun t => t <| parent := init_proc |>) ;; mret (inl tt)) tt;
  mret tt.

Definition sys_exit (code : Z) : M K unit :=
  c ← current_or_panic;
  init_proc ← scheduler_get_running_process 1;
  if c =? init_proc then fail FFatal
  else
    upd_task c (fun t => t <| exit_code := Z.land (Z.shiftl code 8) 65280 |>) ;;
    upd_task c (fun t => t <| state := EXIT_ZOMBIE |>) ;;
    t ← task_at c;
    (if negb (parent t =? NULL)
     then par ← task_at (parent t); _ ← sys_kill (pid par) SIGCHLD; mret tt
     else mret tt) ;;
    e ← lnk (list_head_empty (children c));
    (if negb e
     then reparent c init_proc ;; lnk (list_head_append (children init_proc) (children c))
     else mret tt) ;;
    t ← task_at c;
    srv (ps_mmu_destroy (t_mm t)).

(** ** [do_signal] *)

(** What the loop does after a signal: [continue], [break], or return. *)
Inductive verdict : Type := Continue | Break | Return (r : Z).

Section Loop.
(** The nested call of [scheduler_run]. *)
Context (run : M K unit).

Definition do_signal_stop (current signr : Z) : M K unit :=
  t ← task_at current;
  a ← action_at (parent t) SIGCHLD;
  (if Z.land SA_NOCLDSTOP (sa_flags a) =? 0
   then _ ← notify_parent uninit current SIGCHLD; mret tt
   else mret tt) ;;
  _ ← sleep_on stopped_queue;
  upd_task current (fun t => t <| state := TASK_STOPPED |>) ;;
  upd_task current (fun t => t <| exit_code := signr |>) ;;
  run.

(** [while (sys_waitpid(-1, NULL, WNOHANG) > 0) {}] *)
Fixpoint reap (fuel : nat) : M K unit :=
  match fuel with
  | O => fail FLoop
  | S fuel => r ← sys_waitpid (-1) NULL WNOHANG; if 0 <? r then reap fuel else mret tt
  end.

Inductive default_action : Type := ActIgnore | ActStop | ActStopUnlessOrphaned | ActAbort | ActTerminate.
Definition default_of (sig : Z) : default_action :=
  if (sig =? SIGCONT) || (sig =? SIGCHLD) || (sig =? SIGURG) || (sig =? SIGWINCH) then ActIgnore
  else if (sig =? SIGTSTP) || (sig =? SIGTTIN) || (sig =? SIGTTOU) then ActStopUnlessOrphaned
  else if sig =? SIGSTOP then ActStop
  else if (sig =? SIGQUIT) || (sig =? SIGILL) || (sig =? SIGTRAP) || (sig =? SIGABRT) then ActAbort
  else ActTerminate.

Definition stop_current (current signr : Z) : M K verdict :=
  unlock_task_sighand current ;;
  do_signal_stop current signr ;;
  lock_task_sighand current ;;
  mret Continue.

(** The switch on the default action. *)
Definition default_action_of (current signr : Z) : M K verdict :=
  match default_of signr with
  | ActIgnore => mret Continue
  | ActStopUnlessOrphaned =>
      t ← task_at current;
      o ← is_orphaned_pgrp (pgid t);
      if negb (o =? 0) then mret Continue else stop_current current signr
  | ActStop => stop_current current signr
  | ActAbort => sys_exit 3 ;; mret Continue
  | ActTerminate => sys_exit signr ;; unlock_task_sighand current ;; mret (Return 1)
  end.

(** The body of the loop once a signal was taken. *)
Definition deliver (current signr : Z) (info : siginfo_t) : M K verdict :=
  if (signr <? 0) || (NSIG <=? signr) then mret Break
  else if signr =? 0 then unlock_task_sighand current ;; mret (Return 0)
  else
    t ← task_at current;
    if pid t =? 1 then mret Continue
    else
      ka ← action_at current signr;
      if sa_handler ka =? SIG_IGN then
        (if signr =? SIGCHLD
         then fuel ← gets (fun k => S (size (tasks k))); reap fuel
         else mret tt) ;;
        mret Continue
      else if sa_handler ka =? SIG_DFL then default_action_of current signr
      else
        r ← handle_signal signr info ka;
        if r =? 1 then unlock_task_sighand current ;; mret (Return 1) else mret Continue.

Fixpoint signal_loop (fuel : nat) (current : Z) (info : siginfo_t) : M K Z :=
  match fuel with
  | O => fail FLoop
  | S fuel =>
      e ← lnk (list_head_empty (pending_list current));
      if (e : bool) then unlock_task_sighand current ;; mret 0
      else
        r ← dequeue_signal current info;
        v ← deliver current r.1 r.2;
        match v with
        | Continue => signal_loop fuel current r.2
        | Break => unlock_task_sighand current ;; mret 0
        | Return z => mret z
        end
  end.

Definition do_signal_with (fuel : nat) : M K Z :=
  current ← scheduler_get_current_process;
  if current =? NULL then mret 0
  else
    f ← gets frame;
    if negb (Z.land (cs f) 3 =? 3) then mret 0
    else
      lock_task_sighand current ;;
      signal_loop fuel current (uninit_siginfo uninit).
End Loop.

(** ** [scheduler_run] *)

(** The task after the current one, and the current one off the run queue. *)
Definition handle_zombie : M K Z :=
  c ← gets curr;
  nNode ← lnk (get_next (run_list c));
  nNode ← (if nNode =? runqueue_queue then lnk (get_next nNode) else mret nNode);
  c ← gets curr;
  scheduler_dequeue_task c ;;
  mret (entry_run nNode).

Fixpoint scheduler_run (fuel : nat) : M K unit :=
  match fuel with
  | O => fail FLoop
  | S fuel' =>
      c ← gets curr;
      if c =? NULL then mret tt
      else
        scheduler_store_context c ;;
        s ← do_signal_with (scheduler_run fuel') fuel';
        if negb (s =? 0) then mret tt
        else
          c ← gets curr;
          t ← task_at c;
          next ← (if state t =? EXIT_ZOMBIE then handle_zombie else scheduler_pick_next_task);
          c ← gets curr;
          if negb (next =? c) then scheduler_restore_context next else mret tt
  end.

Definition do_signal (fuel : nat) : M K Z := do_signal_with (scheduler_run fuel) fuel.


(** ** A quiet kernel

    Ticks between which user code runs: it changes the registers and stays in
    user mode. No task has a pending signal and all of them are runnable. *)
Implicit Types k : K.

Definition user_mode (f : pt_regs) : Prop := Z.land (cs f) 3 = 3.

Record calm (k : K) (p : Z) : Prop := {
  cm_ne : p <> NULL;
  cm_task : exists t, tasks k !! p = Some t /\ state t = TASK_RUNNING /\ siglock t = 0 /\ user_mode (t_regs t);
  cm_pending : is_list (links k) (pending_list p) []
}.
Record quiet (k : K) (al : gmap Z Z) (ts : list Z) : Prop := {
  qt_queue : queued k ts;
  qt_calm : forall p, p ∈ ts -> calm k p;
  qt_heap : ha_ok (kx k) al;
  qt_length : Z.of_nat (length ts) < 4294967296
}.

(** Without pending signals [do_signal] changes nothing. *)
Lemma do_signal_none (r : M K unit) fuel k t : curr k <> NULL -> tasks k !! curr k = Some t -> siglock t = 0 ->
  is_list (links k) (pending_list (curr k)) [] -> do_signal_with r (S fuel) ~{ k }~> 0; k.
Proof.
  intros Hc Ht Hl Hp. unfold do_signal_with, scheduler_get_current_process. ksteps. rewrite (proj2 (Z.eqb_neq _ _) Hc). kstep.
  destruct (negb _); [done|]. run (lock_run k _ t Ht Hl). cbn [signal_loop]. 
  run (lnk_read _ (locked_kern k (curr k) t) _ (empty_run _ _ _ Hp)).
  rewrite bool_decide_true by done. by run (relock_same k _ t Ht Hl).
Qed.

(** *** The ring of contexts

    The tasks from the running one on, in circular order, each with the registers
    it goes on with. *)
Definition rr_spec (u : pt_regs -> pt_regs) (ring : list (Z * pt_regs)) : list (Z * pt_regs) :=
  match ring with [] => [] | (c, f) :: rest => rest ++ [(c, u f)] end.

Definition regs_of (k : K) (p : Z) : pt_regs :=
  match tasks k !! p with Some t => t_regs t | None => frame k end.

Record runs_ring (k : K) (al : gmap Z Z) (ring : list (Z * pt_regs)) : Prop := {
  rn_queue : exists ts1 c ts2, quiet k al (ts1 ++ c :: ts2) /\ curr k = c /\
    ring = (c, frame k) :: ((fun p => (p, regs_of k p)) <$> ts2 ++ ts1);
  rn_user : user_mode (frame k)
}.

(** User code, then the timer interrupt. *)
Definition tick (fuel : nat) (u : pt_regs -> pt_regs) : M K unit :=
  modify (fun k => k <| frame := u (frame k) |>) ;; scheduler_run fuel.

Definition stored (k : K) (c : Z) (t : task_struct) : K := k <| tasks := <[c := t <| t_regs := frame k |>]> (tasks k) |>.

(** Changing the scheduling data or the saved registers of a task keeps the
    kernel quiet. *)
Lemma quiet_update k al ts p t t' : quiet k al ts -> tasks k !! p = Some t -> state t' = state t -> siglock t' = siglock t ->
  user_mode (t_regs t') -> quiet (k <| tasks := <[p := t']> (tasks k) |>) al ts.
Proof.
  intros Hq Ht Hs Hl Hu. destruct Hq as [[Hql Hqt] Hcm Hx Hlen]. split; [|intros q Hq|exact Hx|done].
  - split; [exact Hql|]. intros q Hq. cbn. apply lookup_insert_is_Some'. right. by apply Hqt.
  - destruct (Hcm q Hq) as [Hne (tq & Htq & Hst & Hlk & Hus) Hp]. split; [done| |exact Hp].
    cbn. destruct (decide (q = p)) as [->|Hqp].
    + exists t'. rewrite lookup_insert_eq. simplify_eq. split_and!; congruence.
    + exists tq. by rewrite lookup_insert_ne.
Qed.
Lemma quiet_env k al ts c f x : quiet k al ts -> ha_ok x al -> quiet (((k <| curr := c |>) <| frame := f |>) <| kx := x |>) al ts.
Proof. intros [Hq Hcm _ Hlen] Hx. split; [exact Hq| |exact Hx|done]. intros p Hp. by destruct (Hcm p Hp). Qed.

Lemma rr_choice_first k al ts1 c ts2 : quiet k al (ts1 ++ c :: ts2) -> rr_choice k ts1 c ts2 = Some (hd c (ts2 ++ ts1)).
Proof.
  intros Hq. unfold rr_choice. destruct (ts2 ++ ts1) as [|p rest] eqn:E.
  - apply app_eq_nil in E as [-> ->]. done.
  - rewrite bool_decide_false by (intros [-> ->]%app_eq_nil; done). cbn [List.find hd].
    assert (Hp : p ∈ ts1 ++ c :: ts2) by (assert (p ∈ ts2 ++ ts1) by (rewrite E; by left); set_solver).
    destruct (cm_task _ _ (qt_calm _ _ _ Hq p Hp)) as (t & Ht & Hst & _). unfold runnable. rewrite Ht, Hst. done.
Qed.

Lemma started_eq k p t : tasks k !! p = Some t ->
  started k p = k <| tasks := <[p := t <| se := (se t) <| exec_start := u32 (ticks k) |> |>]> (tasks k) |>.
Proof. intros Ht. unfold started. by rewrite alter_alt, Ht. Qed.
Lemma quiet_started k al ts p : quiet k al ts -> p ∈ ts -> quiet (started k p) al ts.
Proof.
  intros Hq Hp. destruct (cm_task _ _ (qt_calm _ _ _ Hq p Hp)) as (t & Ht & _ & _ & Hu).
  rewrite (started_eq k p t Ht). by apply (quiet_update k al ts p t).
Qed.
Lemma regs_started k p q : regs_of (started k p) q = regs_of k q.
Proof.
  unfold regs_of, started. cbn. destruct (decide (q = p)) as [->|Hne].
  - rewrite lookup_alter_eq. by destruct (tasks k !! p).
  - by rewrite lookup_alter_ne.
Qed.

(** The scheduler's part of a tick. *)
Lemma schedule_run fuel k al ts1 c ts2 : quiet k al (ts1 ++ c :: ts2) -> curr k = c -> user_mode (frame k) ->
  let p := hd c (ts2 ++ ts1) in exists k', scheduler_run (S (S fuel)) ~{ k }~> tt; k' /\ quiet k' al (ts1 ++ c :: ts2) /\
    curr k' = p /\ frame k' = (if decide (p = c) then frame k else regs_of k p) /\
    forall q, q ∈ ts1 ++ c :: ts2 -> regs_of k' q = if decide (q = c) then frame k else regs_of k q.
Proof.
  intros Hq Hc Hu p. assert (Hin : c ∈ ts1 ++ c :: ts2) by set_solver.
  destruct (qt_calm _ _ _ Hq c Hin) as [Hne (t & Ht & Hst & Hl & Hut) Hp]. cbn [scheduler_run]. kstep. rewrite Hc, (proj2 (Z.eqb_neq _ _) Hne).
  unfold scheduler_store_context. ksteps. fold (stored k c t). set (k1 := stored k c t).
  assert (Hq1 : quiet k1 al (ts1 ++ c :: ts2)) by (by apply (quiet_update k al _ c t)).
  assert (Ht1 : tasks k1 !! c = Some (t <| t_regs := frame k |>)) by apply lookup_insert_eq.
  assert (Hc1 : curr k1 = c) by exact Hc.
  assert (Hsig : forall r, do_signal_with r (S fuel) ~{ k1 }~> 0; k1).
  { intros r. apply (do_signal_none r fuel k1 (t <| t_regs := frame k |>)); rewrite ?Hc1; done. }
  match goal with |- context [do_signal_with ?r _ ≫= _] => run (Hsig r) end. cbn [Z.eqb negb]. kstep. rewrite Hc1, (bind_ok _ _ _ _ _ (task_at_run _ _ _ Ht1)).
  change (state (t <| t_regs := frame k |>)) with (state t). rewrite Hst. cbn [Z.eqb TASK_RUNNING EXIT_ZOMBIE].
  pose proof (rr_choice_first k1 al ts1 c ts2 Hq1) as Hch. fold p in Hch.
  run (pick_run k1 ts1 ts2 c (qt_queue _ _ _ Hq1) Hc1 (qt_length _ _ _ Hq1) p Hch). kstep.
  change (curr (started k1 p)) with (curr k1). rewrite Hc1.
  assert (Hinp : p ∈ ts1 ++ c :: ts2).
  { unfold p. destruct (ts2 ++ ts1) as [|p' rest] eqn:E; [done|]. cbn. assert (p' ∈ ts2 ++ ts1) by (rewrite E; by left). set_solver. }
  pose proof (quiet_started k1 al _ p Hq1 Hinp) as Hq2.
  assert (Hregs : forall q, q ∈ ts1 ++ c :: ts2 -> regs_of (started k1 p) q = if decide (q = c) then frame k else regs_of k q).
  { intros q _. rewrite regs_started. unfold regs_of, k1, stored. cbn. destruct (decide (q = c)) as [->|Hqc].
    - by rewrite lookup_insert_eq.
    - by rewrite lookup_insert_ne. }
  destruct (Z.eqb_spec p c) as [Hpc|Hpc]; cbn [negb].
  { exists (started k1 p). split_and!; try done; [by rewrite Hpc|by rewrite decide_True]. }
  destruct (cm_task _ _ (qt_calm _ _ _ Hq2 p Hinp)) as (tp & Htp & _ & _ & Hup).
  destruct (ps_switch_law (kx k) al (t_mm tp) (qt_heap _ _ _ Hq)) as (x' & Hsw & Hx').
  unfold scheduler_restore_context. kstep.
  match goal with |- context [(task_at p ≫= _) ?k2] => run (task_at_run k2 p tp Htp) end. kstep.
  eexists. split; [by apply (srv_run_at _ _ (kx k) tt x')|]. split_and!.
  - apply (quiet_env _ al _ p (t_regs tp) x' Hq2 Hx').
  - done.
  - rewrite decide_False by done. cbn. pose proof (Hregs p Hinp) as Hr. rewrite decide_False in Hr by done. rewrite <- Hr.
    unfold regs_of. by rewrite Htp.
  - intros q Hqin. rewrite <- (Hregs q Hqin). unfold regs_of. cbn. 
    destruct (qt_calm _ _ _ Hq2 q Hqin) as [_ (tq & Htq & _) _]. cbn in Htq. by rewrite Htq.
Qed.

(** Turning a queue seen from one of its elements. *)
Lemma turn {A} (ts1 : list A) c ts2 p rest : ts2 ++ ts1 = p :: rest ->
  exists ts1' ts2', ts1 ++ c :: ts2 = ts1' ++ p :: ts2' /\ ts2' ++ ts1' = rest ++ [c].
Proof.
  destruct ts2 as [|q ts2]; cbn; intros E.
  - subst ts1. exists [], (rest ++ [c]). by rewrite app_nil_r.
  - injection E as -> <-. exists (ts1 ++ [c]), ts2. by rewrite <- !app_assoc.
Qed.

(** A tick turns the ring by one place. *)
Lemma tick_run fuel u k al ring : runs_ring k al ring -> (forall f, user_mode f -> user_mode (u f)) ->
  exists k', tick (S (S fuel)) u ~{ k }~> tt; k' /\ runs_ring k' al (rr_spec u ring).
Proof.
  intros [(ts1 & c & ts2 & Hq & Hc & Er) Hu] Hpu. set (k0 := k <| frame := u (frame k) |>).
  assert (Hq0 : quiet k0 al (ts1 ++ c :: ts2)) by (destruct Hq as [Hql Hcm Hx Hlen]; split; [exact Hql| |exact Hx|done]; intros q Hqi; by destruct (Hcm q Hqi)).
  destruct (schedule_run fuel k0 al ts1 c ts2 Hq0 Hc (Hpu _ Hu)) as (k' & Hr & Hq' & Hc' & Hf' & Hregs).
  exists k'. split; [unfold tick; kstep; exact Hr|].
  assert (Hreg0 : forall q, q ∈ ts1 ++ c :: ts2 -> regs_of k0 q = regs_of k q).
  { intros q Hqi. destruct (qt_calm _ _ _ Hq q Hqi) as [_ (t & Ht & _) _]. unfold regs_of. cbn. by rewrite Ht. }
  pose proof (queued_nodup _ _ (qt_queue _ _ _ Hq)) as Hnd. apply NoDup_middle in Hnd as (_ & Hc1 & Hc2).
  rewrite Er. cbn [rr_spec]. destruct (ts2 ++ ts1) as [|p rest] eqn:E; cbn [hd] in Hc', Hf'.
  - apply app_eq_nil in E as [-> ->]. rewrite decide_True in Hf' by done. split; [|by rewrite Hf'; apply Hpu].
    exists [], c, []. split_and!; [done|done|]. cbn. by rewrite Hf'.
  - assert (Hin : forall q, q ∈ p :: rest -> q ∈ ts1 ++ c :: ts2 /\ q <> c) by (rewrite <- E; set_solver).
    destruct (Hin p ltac:(by left)) as [Hp Hpc]. rewrite decide_False, (Hreg0 p Hp) in Hf' by done.
    destruct (turn ts1 c ts2 p rest E) as (ts1' & ts2' & E1 & E2). rewrite E1 in Hq'. split.
    + exists ts1', p, ts2'. split; [done|]. split; [done|]. rewrite E2, fmap_cons, fmap_app. cbn [fmap list_fmap app].
      rewrite Hf', (Hregs c), decide_True by (done || set_solver). f_equal. f_equal. apply list_fmap_ext.
      intros i q Hq1%list_elem_of_lookup_2. destruct (Hin q ltac:(by right)) as [Hqi Hqc].
      by rewrite (Hregs q Hqi), decide_False, Hreg0.
    + rewrite Hf'. unfold regs_of. destruct (cm_task _ _ (qt_calm _ _ _ Hq p Hp)) as (t & Ht & _ & _ & Hut). by rewrite Ht.
Qed.

Fixpoint ticks_of (fuel : nat) (us : list (pt_regs -> pt_regs)) : M K unit :=
  match us with [] => mret tt | u :: us => tick fuel u ;; ticks_of fuel us end.
Definition rr_specs (us : list (pt_regs -> pt_regs)) (ring : list (Z * pt_regs)) : list (Z * pt_regs) :=
  fold_left (fun r u => rr_spec u r) us ring.

Lemma ticks_run fuel us : forall k al ring, runs_ring k al ring -> Forall (fun u => forall f, user_mode f -> user_mode (u f)) us ->
  exists k', ticks_of (S (S fuel)) us ~{ k }~> tt; k' /\ runs_ring k' al (rr_specs us ring).
Proof.
  induction us as [|u us IH]; intros k al ring Hr Hus; [by exists k|]. apply Forall_cons in Hus as [Hu Hus].
  destruct (tick_run fuel u k al ring Hr Hu) as (k1 & Hr1 & Hrn1). destruct (IH k1 al _ Hrn1 Hus) as (k2 & Hr2 & Hrn2).
  exists k2. split; [|done]. cbn [ticks_of]. by run Hr1.
Qed.

(** C3: on a kernel whose tasks are all runnable and have no pending signal, the
    timer interrupts make them run in turn: the kernel refines a ring of contexts
    which every tick turns by one place. Whatever the tasks do with their
    registers between the interrupts, each one goes on with exactly the registers
    it had when it was interrupted. *)
Theorem round_robin_refines fuel us k al ring : runs_ring k al ring ->
  Forall (fun u => forall f, user_mode f -> user_mode (u f)) us ->
  exists k', ticks_of (S (S fuel)) us ~{ k }~> tt; k' /\ runs_ring k' al (rr_specs us ring).
Proof. apply ticks_run. Qed.

(** C4: nobody waits for ever: the task at place [i] of the ring is running after
    [i] ticks. *)
Theorem round_robin_fair fuel us k al ring p f : runs_ring k al ring -> ring !! length us = Some (p, f) ->
  Forall (fun u => forall f, user_mode f -> user_mode (u f)) us ->
  exists k', ticks_of (S (S fuel)) us ~{ k }~> tt; k' /\ curr k' = p /\ frame k' = f.
Proof.
  intros Hr Hi Hus. destruct (ticks_run fuel us k al ring Hr Hus) as (k' & Hrun & [(ts1 & c & ts2 & _ & Hc & E) _]).
  exists k'. split; [done|].
  assert (Hh : forall us ring, ring !! length us = Some (p, f) -> exists rest, rr_specs us ring = (p, f) :: rest).
  { clear. induction us as [|u us IH]; intros ring Hi; cbn in Hi.
    - destruct ring as [|x ring]; [done|]. cbn in Hi. simplify_eq. by exists ring.
    - destruct ring as [|[c g] ring]; [done|]. cbn in Hi. cbn [rr_specs fold_left rr_spec]. apply IH.
      rewrite lookup_app_l; [done|]. by apply lookup_lt_Some in Hi. }
  destruct (Hh us ring Hi) as [rest Er]. rewrite Er in E. injection E as E1 E2 _. by rewrite Hc, E1, <- E2.
Qed.

(** ** Exit *)
Definition zombie (t : task_struct) (code : Z) : task_struct :=
  t <| exit_code := Z.land (Z.shiftl code 8) 65280 |> <| state := EXIT_ZOMBIE |>.
(** The tasks [cs] become children of [i]. *)
Definition adopted (i : Z) (cs : list Z) (m : gmap Z task_struct) : gmap Z task_struct :=
  foldl (fun m q => alter (fun t => t <| parent := i |>) q m) m cs.

Lemma adopted_some i cs q : forall m, is_Some (m !! q) -> is_Some (adopted i cs m !! q).
Proof. induction cs as [|c cs IH]; intros m Hm; [done|]. cbn. apply IH. by rewrite lookup_alter_is_Some. Qed.
Lemma adopted_snoc i cs q m : adopted i (cs ++ [q]) m = alter (fun t => t <| parent := i |>) q (adopted i cs m).
Proof. unfold adopted. by rewrite foldl_app. Qed.

Lemma reparent_run k L c i cs : lists (links k) L -> L !! children c = Some (sibling <$> cs) ->
  (forall q, q ∈ cs -> is_Some (tasks k !! q)) ->
  reparent c i ~{ k }~> tt; k <| tasks := adopted i cs (tasks k) |>.
Proof.
  intros HL Hc Hcs. unfold reparent.
  destruct (list_for_each_k_inv k (children c) (sibling <$> cs) (proj1 HL _ _ Hc)
    (fun l _ k1 => exists l1 l2, cs = l1 ++ l2 /\ l = sibling <$> l2 /\ k1 = k <| tasks := adopted i l1 (tasks k) |>)
    (B := unit) (fun it _ => upd_task (entry_sibling it) (fun t => t <| parent := i |>) ;; mret (inl tt)) tt)
    as (acc & k' & Hr & _ & (l1 & l2 & -> & Hl2 & ->)).
  - exists [], cs. split_and!; try done. by destruct k.
  - intros d x r _ k1 _ (l1 & l2 & E & El & ->) _. destruct l2 as [|q l2]; [done|]. cbn in El. injection El as -> ->.
    rewrite entry_sibling_sibling. destruct (adopted_some i l1 q (tasks k)) as [t Ht]; [apply Hcs; set_solver|].
    eexists tt, _. split; [by kstep|]. split; [done|]. exists (l1 ++ [q]), l2. split; [by rewrite <- app_assoc|]. split; [done|].
    rewrite adopted_snoc, alter_alt, Ht. done.
  - run Hr. destruct l2; [|done]. by rewrite app_nil_r.
Qed.

(** The running task [t] can exit: it is not the init process [i], its parent
    [par] can get signals, and [cs] and [ics] are its children and those of init. *)
Record exiting (k : K) (L : gmap Z (list Z)) (al : gmap Z Z) (ts : list Z) (t : task_struct) (tp : task_struct)
    (qs : list Z) (infos : list siginfo_t) (i : Z) (cs ics : list Z) : Prop := {
  ex_queue : queued k ts;
  ex_curr : curr k <> NULL;
  ex_task : tasks k !! curr k = Some t;
  ex_init : List.find (has_pid k 1) ts = Some i;
  ex_not_init : curr k <> i;
  ex_parent : parent t <> curr k;
  ex_found : List.find (has_pid k (pid tp)) ts = Some (parent t);
  ex_receptive : receptive k L al (parent t) tp qs infos;
  ex_children : L !! children (curr k) = Some (sibling <$> cs);
  ex_child : forall q, q ∈ cs -> is_Some (tasks k !! q);
  ex_heirs : L !! children i = Some (sibling <$> ics);
  ex_some : ics <> [];
  ex_apart : pending_list (parent t) <> children (curr k) /\ pending_list (parent t) <> children i
}.

Lemma find_ext {A} (f g : A -> bool) l : (forall x, f x = g x) -> List.find f l = List.find g l.
Proof. intros Hfg. induction l as [|x l IH]; [done|]. simpl. by rewrite Hfg, IH. Qed.

Section Exit.
Context (k : K) (L : gmap Z (list Z)) (al : gmap Z Z) (ts : list Z) (t tp : task_struct) (qs : list Z) (infos : list siginfo_t).
Context (i : Z) (cs ics : list Z) (Hex : exiting k L al ts t tp qs infos i cs ics) (code : Z).
Notation c := (curr k).
Notation par := (parent t).

(** The running task is a zombie. *)
Definition dying : K := k <| tasks := <[c := zombie t code]> (tasks k) |>.

Lemma dying_task q : q <> c -> tasks dying !! q = tasks k !! q.
Proof. intros Hq. by apply lookup_insert_ne. Qed.
Lemma dying_queued : queued dying ts.
Proof.
  destruct (ex_queue _ _ _ _ _ _ _ _ _ _ _ Hex) as [Hl Ht]. split; [exact Hl|]. intros q Hq. cbn.
  apply lookup_insert_is_Some'. right. by apply Ht.
Qed.
Lemma dying_pid n q : has_pid dying n q = has_pid k n q.
Proof.
  unfold has_pid, pid_of. destruct (decide (q = c)) as [->|Hq]; [|by rewrite dying_task].
  cbn. by rewrite lookup_insert_eq, (ex_task _ _ _ _ _ _ _ _ _ _ _ Hex).
Qed.
Lemma dying_receptive : receptive dying L al par tp qs infos.
Proof.
  destruct (ex_receptive _ _ _ _ _ _ _ _ _ _ _ Hex) as (Hn & Hok & Hl). split; [done|]. split; [|done].
  destruct Hok. split; try done. rewrite dying_task; [done|]. apply (ex_parent _ _ _ _ _ _ _ _ _ _ _ Hex).
Qed.

(** The parent hears of it. *)
Lemma exit_notify : ha_room (kx k) (ha_cost sizeof_sigqueue_t + 0) ->
  sys_kill (pid tp) SIGCHLD ~{ dying }~>! FFatal \/
  exists k' al' tp' qs', sys_kill (pid tp) SIGCHLD ~{ dying }~> 0; k' /\
    sig_ok k' (<[pending_list par := qs']> L) al' par tp' qs'
      (infos ++ match dropped tp SIGCHLD with Some _ => [] | None => [kill_info tp SIGCHLD] end) /\
    tp' = tp <| pending_signal := pending_signal tp' |> /\ tasks k' = <[par := tp']> (<[c := zombie t code]> (tasks k)) /\
    curr k' = c.
Proof.
  intros Hroom. assert (Hfind : List.find (has_pid dying (pid tp)) ts = Some par).
  { rewrite <- (ex_found _ _ _ _ _ _ _ _ _ _ _ Hex). apply find_ext, dying_pid. }
  pose proof (kill_run uninit dying L al ts (pid tp) par tp qs infos SIGCHLD 0 dying_queued Hfind dying_receptive
    ltac:(done) ltac:(done) ltac:(done) Hroom) as Hk.
  pose proof dying_receptive as (_ & Hok & _). destruct (dropped tp SIGCHLD).
  - right. exists dying, al, tp, qs. rewrite app_nil_r, insert_id by apply (so_queue _ _ _ _ _ _ _ Hok).
    split_and!; try done; [by destruct tp|]. symmetry. apply insert_id. exact (so_task _ _ _ _ _ _ _ Hok).
  - destruct Hk as [Herr|(q & k' & t' & Hr & Hok' & Et & Htk & Hsr & _)]; [by left|right].
    eexists k', _, t', _. split_and!; try done. by rewrite (sr_curr _ _ Hsr).
Qed.

(** The orphans go to init. *)
Lemma exit_orphans k1 L1 : lists (links k1) L1 -> L1 !! children c = Some (sibling <$> cs) ->
  L1 !! children i = Some (sibling <$> ics) -> (forall q, q ∈ cs -> is_Some (tasks k1 !! q)) ->
  exists s', (e ← lnk (list_head_empty (children c));
   if negb e then reparent c i ;; lnk (list_head_append (children i) (children c)) else mret tt) ~{ k1 }~> tt;
    (k1 <| tasks := adopted i cs (tasks k1) |>) <| links := s' |> /\
    lists s' (<[children c := []]> (<[children i := sibling <$> ics ++ cs]> L1)).
Proof.
  intros HL Hc Hi Hcs. run (lnk_read _ k1 _ (empty_run _ _ _ (proj1 HL _ _ Hc))).
  destruct (decide (sibling <$> cs = [])) as [Ecs|Ecs].
  - rewrite bool_decide_true by done. exists (links k1). cbn [negb]. apply fmap_nil_inv in Ecs. rewrite Ecs in Hc |- *.
    split; [by destruct k1|]. by rewrite app_nil_r, (insert_id L1 (children i)), insert_id.
  - rewrite bool_decide_false by done. cbn [negb]. run (reparent_run k1 L1 c i cs HL Hc Hcs).
    assert (Hne : children i <> children c).
    { unfold children. pose proof (ex_not_init _ _ _ _ _ _ _ _ _ _ _ Hex). lia. }
    destruct (lists_move (links k1) L1 HL (children i) (children c) _ _ Hi Hc Hne) as (s' & Hr & HL').
    + pose proof (ex_some _ _ _ _ _ _ _ _ _ _ _ Hex). by destruct ics.
    + done.
    + exists s'. split; [by apply (lnk_run_at _ _ (links k1))|]. by rewrite fmap_app.
Qed.

Lemma adopted_mm cs' q m x : adopted i cs' m !! q = Some x -> t_mm <$> m !! q = Some (t_mm x).
Proof.
  revert m. induction cs' as [|d cs' IH]; intros m Hx; cbn in Hx; [by rewrite Hx|]. apply IH in Hx. destruct (decide (q = d)) as [->|Hne].
  - rewrite lookup_alter_eq in Hx. by destruct (m !! d).
  - by rewrite lookup_alter_ne in Hx.
Qed.

End Exit.

(** ** Delivery of a signal with a handler *)
Section Handled.
Context (k : K) (L : gmap Z (list Z)) (al : gmap Z Z) (t : task_struct) (qs : list Z) (infos : list siginfo_t).
Context (Hok : sig_ok k L al (curr k) t qs infos) (Hlock : siglock t = 0) (Hc : curr k <> NULL) (Huser : user_mode (frame k)).
Notation p := (curr k).

Lemma locked_ok : sig_ok (locked_kern k p t) L al p (t <| siglock := 1 |>) qs infos.
Proof. apply (sig_ok_task k _ _ _ _ t); try done; [apply lookup_insert_eq|]. by destruct (so_words _ _ _ _ _ _ _ Hok). Qed.

(** The loop starts when there is a signal in the queue. *)
Lemma do_signal_start r fuel : infos <> [] -> do_signal_with r (S fuel) k =
  (d ← dequeue_signal p (uninit_siginfo uninit); v ← deliver r p d.1 d.2;
   match v with
   | Continue => signal_loop r fuel p d.2
   | Break => unlock_task_sighand p ;; mret 0
   | Return z => mret z
   end) (locked_kern k p t).
Proof.
  intros Hne. unfold do_signal_with, scheduler_get_current_process. ksteps. rewrite (proj2 (Z.eqb_neq _ _) Hc). kstep.
  unfold user_mode in Huser. rewrite Huser. cbn [Z.eqb negb Pos.eqb].
  run (lock_run k p t (so_task _ _ _ _ _ _ _ Hok) Hlock). cbn [signal_loop].
  pose proof (proj1 (so_lists _ _ _ _ _ _ _ Hok) _ _ (so_queue _ _ _ _ _ _ _ Hok)) as Hl.
  run (lnk_read _ (locked_kern k p t) _ (empty_run _ _ _ Hl)). rewrite bool_decide_false; [done|].
  intros ->. pose proof (so_infos _ _ _ _ _ _ _ Hok) as H2. by inversion H2.
Qed.

(** All pending signals are blocked. *)
Lemma do_signal_blocked r fuel : infos <> [] -> ready_signal (blocked t) infos = None -> do_signal_with r (S fuel) ~{ k }~> 0; k.
Proof.
  intros Hne Hr. rewrite do_signal_start by done.
  pose proof (dequeue_signal_run _ _ _ _ _ _ _ locked_ok (uninit_siginfo uninit)) as Hd.
  change (blocked (t <| siglock := 1 |>)) with (blocked t) in Hd. rewrite Hr in Hd. run Hd.
  unfold deliver. cbn [fst snd Z.ltb Z.leb Z.eqb Z.compare NSIG orb].
  rewrite bind_assoc. by run (relock_same k p t (so_task _ _ _ _ _ _ _ Hok) Hlock).
Qed.

(** [deliver] with a handler, for the task [t1] with its lock taken. *)
Lemma deliver_handler r k1 t1 sig x a : curr k1 = p -> tasks k1 !! p = Some t1 -> task_words t1 -> pid t1 <> 1 ->
  1 <= sig < NSIG -> zlookup (action t1) (sig - 1) = Some a -> sa_handler a <> SIG_IGN -> sa_handler a <> SIG_DFL ->
  48 <= useresp (t_regs t1) < 4294967296 ->
  exists u t2, deliver r p sig x ~{ k1 }~> Return 1;
    with_stack (k1 <| tasks := <[p := t2 <| siglock := 0 |>]> (tasks k1) |> <| frame := (t_regs t1) <| eip := sa_handler a |> |>)
      (useresp (t_regs t1) - 4 * Z.of_nat (length (handler_stack t1 sig x a))) u /\
    holds u (useresp (t_regs t1) - 4 * Z.of_nat (length (handler_stack t1 sig x a))) (handler_stack t1 sig x a) /\
    in_handler t1 sig (frame k1) t2.
Proof.
  unfold NSIG. intros Hc1 Ht1 Hw Hpid Hsig Ha Hni Hnd Hsp. unfold deliver, NSIG.
  rewrite (proj2 (Z.ltb_ge sig 0)), (proj2 (Z.leb_gt 32 sig)), (proj2 (Z.eqb_neq sig 0)) by lia. cbn [orb].
  run (task_at_run k1 p t1 Ht1). rewrite (proj2 (Z.eqb_neq _ _) Hpid).
  destruct (action_run k1 p t1 sig Ht1 (tw_action _ Hw) ltac:(unfold NSIG; lia)) as (a' & Ha' & Hr). rewrite Ha in Ha'. injection Ha' as <-.
  run Hr. rewrite (proj2 (Z.eqb_neq _ _) Hni), (proj2 (Z.eqb_neq _ _) Hnd).
  destruct (handle_signal_run k1 t1 sig x a) as (u & t2 & Hh & Hu & Hi); rewrite ?Hc1; try done.
  exists u, t2. split; [|done]. run Hh. cbn [Z.eqb Pos.eqb]. rewrite Hc1. unfold unlock_task_sighand. kstep. cbn.
  by rewrite insert_insert_eq.
Qed.
End Handled.

(** C23: when the running task, which is not init, returns to user mode with signals in its
    queue, nothing happens if all of them are blocked. Otherwise, if the action of the
    lowest unblocked signal is a handler (with an empty mask and without the flags
    that the code ignores), the oldest one of that number leaves the queue and the
    handler runs next, with the signal number on the stack above the address of the
    sigreturn code, the interrupted registers and mask saved and the signal blocked. The
    stack has room for 48 bytes. Ignored signals and default actions are not covered. *)
Theorem do_signal_correct fuel k L al t qs infos : sig_ok k L al (curr k) t qs infos -> siglock t = 0 -> curr k <> NULL ->
  user_mode (frame k) -> pid t <> 1 -> infos <> [] -> 48 <= useresp (t_regs t) < 4294967296 ->
  match ready_signal (blocked t) infos with
  | None => do_signal (S fuel) ~{ k }~> 0; k
  | Some sig => exists x rest a, take_first sig infos = Some (x, rest) /\ zlookup (action t) (sig - 1) = Some a /\
      (sa_handler a <> SIG_IGN -> sa_handler a <> SIG_DFL -> honoured a ->
       exists k' L' al' t' qs', do_signal (S fuel) ~{ k }~> 1; k' /\ sig_ok k' L' al' (curr k) t' qs' rest /\
         eip (frame k') = sa_handler a /\ holds (umem k') (useresp (frame k')) (handler_stack t sig x a) /\
         saved_sigmask t' = blocked t /\ signal_regs t' = frame k /\ siglock t' = 0 /\
         forall m, 1 <= m <= 64 -> mem (blocked t') m = (m =? sig) || mem (blocked t) m)
  end.
Proof.
  intros Hok Hlock Hc Huser Hpid Hne Hsp. unfold do_signal. destruct (ready_signal (blocked t) infos) as [sig|] eqn:Er.
  2:{ by apply (do_signal_blocked k L al t qs infos). }
  pose proof (ready_signal_spec (blocked t) infos) as Hs. rewrite Er in Hs. destruct Hs as [(j & Hj & Hjs & _) _].
  pose proof (so_range _ _ _ _ _ _ _ Hok j Hj) as Hr. rewrite Hjs in Hr.
  destruct (action_run k _ t sig (so_task _ _ _ _ _ _ _ Hok) (tw_action _ (so_words _ _ _ _ _ _ _ Hok)) Hr) as (a & Ha & _).
  pose proof (dequeue_signal_run _ _ _ _ _ _ _ (locked_ok k L al t qs infos Hok) (uninit_siginfo uninit)) as Hd.
  change (blocked (t <| siglock := 1 |>)) with (blocked t) in Hd. rewrite Er in Hd.
  destruct Hd as (x & rest & k1 & t1 & q & qs' & Htake & Hrun & Hok1 & Et & Htk & Hsr & _). exists x, rest, a.
  split; [done|]. split; [done|]. intros Hni Hnd _. pose proof (so_task _ _ _ _ _ _ _ Hok1) as Ht1.
  assert (exists w, t1 = t <| siglock := 1 |> <| pending_signal := w |>) as [w ->] by (by eexists). clear Et.
  destruct (deliver_handler k Hc (scheduler_run (S fuel)) k1 _ sig x a (sr_curr _ _ Hsr) Ht1 (so_words _ _ _ _ _ _ _ Hok1) Hpid Hr Ha Hni Hnd Hsp)
    as (u & t2 & Hdl & Hu & Hih).
  pose proof (ih_same _ _ _ _ Hih) as E2. eexists _, _, _, (t2 <| siglock := 0 |>), _. split.
  { rewrite (do_signal_start k L al t qs infos Hok Hlock Hc Huser) by done. run Hrun. cbn [fst snd]. by run Hdl. }
  split_and!; try done.
  - apply (sig_ok_task k1 _ _ _ _ _ _ _ _ Hok1); try done; [apply lookup_insert_eq| |by rewrite E2].
    destruct (so_words _ _ _ _ _ _ _ Hok1). pose proof (ih_words _ _ _ _ Hih). rewrite E2. by split.
  - by rewrite E2.
  - rewrite E2. cbn. apply (sr_frame _ _ Hsr).
  - intros m Hm. apply (ih_mask _ _ _ _ Hih m Hm).
Qed.
End Delivery.

(** ** The properties at concrete states *)
Definition demo_ring : list (Z * pt_regs) := [(T2, demo_regs 2); (T3, demo_regs 3); (T1, demo_regs 1)].
Lemma demo_calm p : p ∈ [T1; T2; T3] -> calm demo_kern p.
Proof.
  rewrite !elem_of_cons, elem_of_nil. intros Hp.
  destruct Hp as [->|[->|[->|[]]]]; (split; [discriminate|eexists; split; [reflexivity|split_and!; reflexivity]|
    apply (proj1 demo_kern_lists_ok); reflexivity]).
Qed.
Lemma demo_runs_ring : runs_ring demo_kern demo_blocks demo_ring.
Proof.
  split; [|reflexivity]. exists [T1], T2, [T3]. split; [|split; reflexivity].
  split; [apply demo_queued|apply demo_calm|apply demo_heap_ok|reflexivity].
Qed.

(** Two ticks; every task counts its ticks in eax. *)
Definition count_eax (f : pt_regs) : pt_regs := f <| eax := eax f + 1 |>.
Lemma round_robin_refines_witness : exists k', ticks_of 0 2 [count_eax; count_eax] ~{ demo_kern }~> tt; k' /\
  runs_ring k' demo_blocks [(T1, demo_regs 1); (T2, count_eax (demo_regs 2)); (T3, count_eax (demo_regs 3))].
Proof.
  apply (round_robin_refines 0 0 [count_eax; count_eax] demo_kern demo_blocks demo_ring demo_runs_ring).
  repeat constructor; intros f Hf; exact Hf.
Defined.
Lemma round_robin_fair_witness : exists k', ticks_of 0 2 [count_eax; count_eax] ~{ demo_kern }~> tt; k' /\
  curr k' = T1 /\ frame k' = demo_regs 1.
Proof.
  apply (round_robin_fair 0 0 [count_eax; count_eax] demo_kern demo_blocks demo_ring T1 (demo_regs 1) demo_runs_ring eq_refl).
  repeat constructor; intros f Hf; exact Hf.
Defined.

(** Task 3, the child of 2, as the running task. *)
Definition demo_three : kern (Kheap.heap (gset Z)) := demo_kern <| curr := T3 |>.
(** Task 2, the child of init, exits; task 3 is its child. *)
Lemma demo_exiting : exiting demo_kern demo_kern_lists demo_blocks [T1; T2; T3] (demo_task 2 T1) (demo_task 1 NULL) [] [] T1 [T3] [T2].
Proof.
  split; try reflexivity; try discriminate.
  - exact demo_queued.
  - split; [discriminate|]. split; [|reflexivity].
    apply (sig_ok_task demo_kern _ _ _ _ (demo_task 1 NULL)); try reflexivity; [|apply demo_words].
    apply (demo_sig_ok T1 1 NULL); reflexivity.
  - intros q ->%list_elem_of_singleton. by exists (demo_task 3 T2).
  - split; discriminate.
Qed.
(** list_head_append does nothing when the first list is empty: if init has no child,
    the orphans stay on the list of the dead process. *)
Definition demo_childless : kern (Kheap.heap (gset Z)) :=
  demo_kern <| links := links_of (<[children T1 := []]> (<[sibling T2 := []]> demo_kern_lists)) |>.
Example orphans_stay : match sys_exit 0 7 demo_childless with
  | Ok (_, k') => next_of (links k') (children T1) = Some (children T1) /\ next_of (links k') (children T2) = Some (sibling T3) /\
      (parent <$> tasks k' !! T3) = Some T1
  | Err _ => False end.
Proof. vm_compute. done. Qed.

(** Task 2 has a handler at 4096 for signal 10. *)
Definition demo_handler : task_struct :=
  (demo_task 2 T1) <| t_regs := (demo_regs 2) <| useresp := 8192 |> |> <| action := <[9%nat := SigAction 4096 [0; 0] 0]> (replicate 32 (SigAction 0 [0; 0] 0)) |>.
Definition demo_handled : kern (Kheap.heap (gset Z)) := demo_kern <| tasks := <[T2 := demo_handler]> demo_tasks |>.
Lemma do_signal_correct_witness : exists k1 k', send_signal 0 10 (Some (demo_info 10)) T2 ~{ demo_handled }~> 0; k1 /\
  do_signal 0 4 ~{ k1 }~> 1; k' /\ eip (frame k') = 4096.
Proof.
  assert (Hok : sig_ok demo_handled demo_kern_lists demo_blocks T2 demo_handler [] []).
  { apply (sig_ok_task demo_kern _ _ _ _ (demo_task 2 T1)); try reflexivity; [|destruct (demo_words 2 T1); by split].
    apply (demo_sig_ok T2 2 T1); reflexivity. }
  destruct (send_queued 0 demo_handled _ _ _ _ _ _ Hok 10 ltac:(done) (demo_info 10) eq_refl 0 eq_refl eq_refl)
    as [Herr|(q & k1 & t1 & Hr & Hok1 & Et & _ & _ & Hsr & _)]; [discriminate|discriminate|lia|vm_compute; congruence|..].
  { exfalso. vm_compute in Herr. discriminate. }
  exists k1. assert (Ec : T2 = curr k1) by exact (eq_sym (sr_curr _ _ Hsr)). rewrite Ec in Hok1.
  assert (exists w, t1 = demo_handler <| pending_signal := w |>) as [w E1] by (by eexists).
  pose proof (do_signal_correct 0 3 k1 _ _ t1 _ _ Hok1) as Hd. rewrite E1 in Hd.
  destruct Hd as (x & rest & a & _ & Ha & Hd); [reflexivity|rewrite <- Ec; discriminate|
    unfold user_mode; rewrite (sr_frame _ _ Hsr); reflexivity|discriminate|discriminate|split; [discriminate|reflexivity]|].
  assert (a = SigAction 4096 [0; 0] 0) as -> by (vm_compute in Ha; congruence).
  destruct Hd as (k' & L' & al' & t' & qs' & Hr' & _ & Hip & _); [discriminate|discriminate|by split|].
  exists k'. split; [exact Hr|]. split; [exact Hr'|exact Hip].
Defined.

(** Task 3 exits and task 2 waits for it: two tasks are left but the counter of
    active tasks is 1, because both the tick and the wait count the zombie off. *)
Lemma zombie_counted_twice :
  Kheap.result_of ((sys_exit 0 0 ;; scheduler_run 0 4 ;; scheduler_run 0 4 ;; r ← sys_waitpid (-1) NULL 0;
                    n ← scheduler_get_active_processes; ts ← gets (fun k => size (tasks k)); mret (r, n, ts)) demo_three) =
  Some (3, 1, 2%nat).
Proof. vm_compute. reflexivity. Qed.

End Delivery.
