(* ===== verification/Timer.v ===== *)
(** * Timers (src/arch/i386/timer.c, include/arch/i386/timer.h)

    Dynamic timers on a hierarchical timing wheel: a root vector of 256 lists for
    the next 256 ticks and four vectors of 64 lists, each slot of which covers as
    many ticks as the whole vector below. [run_timer_softirq] moves the timers of a
    slot down when its time has come and runs the ones that are due. On top of them
    are sleeping, alarms and interval timers. What a timer runs is a parameter of
    the wheel: its theorem is proved against [TimerClient]. *)

From S2P Require Import Prelude Interfaces ListHead Kheap Task Scheduler Signal.
From Stdlib Require Import Sorted.

Module Timer.
Import ListHead Task Scheduler Signal.

Definition SIGALRM : Z := 14.
Definition SIGPROF : Z := 29.
Definition ITIMER_REAL : Z := 0.
Definition ITIMER_VIRTUAL : Z := 1.
Definition ITIMER_PROF : Z := 2.
Definition TICKS_PER_SECOND : Z := 1193.
Definition TVN_BITS : Z := 6.
Definition TVR_BITS : Z := 8.
Definition TVN_SIZE : Z := Z.shiftl 1 TVN_BITS.
Definition TVR_SIZE : Z := Z.shiftl 1 TVR_BITS.
Definition TVN_MASK : Z := TVN_SIZE - 1.
Definition TVR_MASK : Z := TVR_SIZE - 1.
Definition TIMER_TICKS_BITS (tv : Z) : Z := TVR_BITS + TVN_BITS * tv.
Definition TIMER_TICKS (tv : Z) : Z := Z.shiftl 1 (TIMER_TICKS_BITS tv).

(** ** Data *)
(** The functions a timer can be given; [None] is a pointer never set. *)
Inductive timer_function : Type := sleep_timeout_p | alarm_timeout_p | it_real_fn_p.
#[export] Instance timer_function_eq_dec : EqDecision timer_function.
Proof. solve_decision. Defined.

(** [struct timer_list] apart from its links. *)
Record timer_list : Type := TimerList {
  t_lock : Z;
  expires : Z;
  function : option timer_function;
  data : Z;
  base : Z
}.
#[export] Instance eta_timer_list : Eta timer_list := {| eta := fun x =>
  TimerList (t_lock x) (expires x) (function x) (data x) (base x) |}.

Record sleep_data_t : Type := SleepData { sd_entry : Z; sd_rem : Z }.
#[export] Instance eta_sleep_data_t : Eta sleep_data_t := {| eta := fun x => SleepData (sd_entry x) (sd_rem x) |}.

(** The timer fields of [struct task_struct]. *)
Record task_timers : Type := TaskTimers {
  real_timer : Z;
  it_real_incr : Z;
  it_real_value : Z;
  it_virt_incr : Z;
  it_virt_value : Z;
  it_prof_incr : Z;
  it_prof_value : Z
}.
#[export] Instance eta_task_timers : Eta task_timers := {| eta := fun x =>
  TaskTimers (real_timer x) (it_real_incr x) (it_real_value x) (it_virt_incr x) (it_virt_value x)
    (it_prof_incr x) (it_prof_value x) |}.

Record timeval : Type := TimeVal { tv_sec : Z; tv_usec : Z }.
Record itimerval : Type := ITimerVal { it_interval : timeval; it_value : timeval }.
Record timespec : Type := TimeSpec { ts_sec : Z; ts_nsec : Z }.

(** The kernel with its timers: the processes, the links of the wheel and of the
    timers, the timers and the data of the sleepers by address, the timer fields
    of the tasks, and the fields of [cpu_base]. *)
Record tkern {X : Type} : Type := TKern {
  kk : kern X;
  wlinks : store;
  timers : gmap Z timer_list;
  sleeps : gmap Z sleep_data_t;
  itimers : gmap Z task_timers;
  timer_ticks : Z;
  base_lock : Z;
  running_timer : Z
}.
Arguments tkern : clear implicits.
#[export] Instance eta_tkern X : Eta (tkern X) := {| eta := fun x =>
  TKern X (kk x) (wlinks x) (timers x) (sleeps x) (itimers x) (timer_ticks x) (base_lock x) (running_timer x) |}.

(** The static objects: [cpu_base], whose vectors follow its first three words,
    and the list of [sleep_queue]. *)
Definition cpu_base : Z := -8204.
Definition tv1 : Z := cpu_base + 12.
Definition tv2 : Z := tv1 + 8 * TVR_SIZE.
Definition tv3 : Z := tv2 + 8 * TVN_SIZE.
Definition tv4 : Z := tv3 + 8 * TVN_SIZE.
Definition tv5 : Z := tv4 + 8 * TVN_SIZE.
Definition sleep_queue : Z := -24.
(** [base->tv<n>.vec] *)
Definition tvec (tv_index : Z) : Z :=
  if tv_index =? 1 then tv1 else if tv_index =? 2 then tv2 else if tv_index =? 3 then tv3
  else if tv_index =? 4 then tv4 else tv5.
Definition vec (tv_index index : Z) : Z := tvec tv_index + 8 * index.
Definition timer_entry (a : Z) : Z := a + 4.
Definition entry_timer (it : Z) : Z := it - 4.
Definition sizeof_timer_list : Z := 28.
Definition sizeof_sleep_data_t : Z := 8.

Section Timer.
Context {X : Type} `{ProcessServices X} (uninit : Z).
Notation K := (kern X).
Notation T := (tkern X).
Notation sys_kill := (sys_kill uninit).

(** ** Access to the state *)
Definition kop {A} (m : M K A) : M T A := zoom kk (fun k t => t <| kk := k |>) m.
Definition wl {A} (m : M store A) : M T A := zoom wlinks (fun s t => t <| wlinks := s |>) m.
Definition timer_at (a : Z) : M T timer_list := getsome (FPtr a) (fun t => timers t !! a).
Definition upd_timer (a : Z) (f : timer_list -> timer_list) : M T unit := fun t =>
  match timers t !! a with
  | Some x => Ok (tt, t <| timers := <[a := f x]> (timers t) |>)
  | None => Err (FPtr a)
  end.
Definition sleep_at (d : Z) : M T sleep_data_t := getsome (FPtr d) (fun t => sleeps t !! d).
Definition upd_sleep (d : Z) (f : sleep_data_t -> sleep_data_t) : M T unit := fun t =>
  match sleeps t !! d with
  | Some x => Ok (tt, t <| sleeps := <[d := f x]> (sleeps t) |>)
  | None => Err (FPtr d)
  end.
Definition itimers_at (p : Z) : M T task_timers := getsome (FPtr p) (fun t => itimers t !! p).
Definition upd_itimers (p : Z) (f : task_timers -> task_timers) : M T unit := fun t =>
  match itimers t !! p with
  | Some x => Ok (tt, t <| itimers := <[p := f x]> (itimers t) |>)
  | None => Err (FPtr p)
  end.
Definition ticks_now : M T Z := kop timer_get_ticks.

(** Blocks of the heap that become timers or data of sleepers. *)
Definition alloc_timer : M T Z :=
  a ← kop (srv (ha_alloc sizeof_timer_list));
  (if negb (a =? NULL)
   then modify (fun t => t <| wlinks := <[timer_entry a := Node NULL NULL]> (wlinks t) |>
                           <| timers := <[a := TimerList uninit uninit None uninit uninit]> (timers t) |>)
   else mret tt) ;;
  mret a.
Definition free_timer (a : Z) : M T unit :=
  kop (srv (ha_free a)) ;;
  modify (fun t => t <| wlinks := delete (timer_entry a) (wlinks t) |> <| timers := delete a (timers t) |>).
Definition alloc_sleep_data : M T Z :=
  d ← kop (srv (ha_alloc sizeof_sleep_data_t));
  (if negb (d =? NULL)
   then modify (fun t => t <| sleeps := <[d := SleepData uninit uninit]> (sleeps t) |>)
   else mret tt) ;;
  mret d.

Definition timer_get_seconds : M T Z := gets (fun t => Z.quot (ticks (kk t)) TICKS_PER_SECOND).

(** ** The wheel *)
Definition dynamic_timers_install : M T unit :=
  modify (fun t => t <| timer_ticks := 0 |>) ;;
  for_range (Z.to_nat TVR_SIZE) 0 (fun i => wl (list_head_init (vec 1 i))) ;;
  for_range (Z.to_nat TVN_SIZE) 0 (fun i =>
    wl (list_head_init (vec 2 i)) ;;
    wl (list_head_init (vec 3 i)) ;;
    wl (list_head_init (vec 4 i)) ;;
    wl (list_head_init (vec 5 i))) ;;
  kop (lnk (list_head_init sleep_queue)) ;;
  kop (unlock_queue sleep_queue).

(** The pair of [*index] and [*tv_index]. *)
Definition find_tvec (now expires : Z) : Z * Z :=
  let ticks := u32 (expires - now) in
  if s32 ticks <? 0 then (Z.land now TVR_MASK, 1)
  else if ticks <? TIMER_TICKS 0 then (Z.land expires TVR_MASK, 1)
  else if ticks <? TIMER_TICKS 1 then (Z.land (Z.shiftr expires (TIMER_TICKS_BITS 0)) TVN_MASK, 2)
  else if ticks <? TIMER_TICKS 2 then (Z.land (Z.shiftr expires (TIMER_TICKS_BITS 1)) TVN_MASK, 3)
  else if ticks <? TIMER_TICKS 3 then (Z.land (Z.shiftr expires (TIMER_TICKS_BITS 2)) TVN_MASK, 4)
  else (Z.land (Z.shiftr expires (TIMER_TICKS_BITS 3)) TVN_MASK, 5).

Definition add_timer_tvec_base (timer : Z) : M T unit :=
  t ← timer_at timer;
  now ← gets timer_ticks;
  let '(index, tv_index) := find_tvec now (expires t) in
  wl (list_head_insert_before (timer_entry timer) (vec tv_index index)).

(** The slot computed here is not used. *)
Definition rem_timer_tvec_base (timer : Z) : M T unit :=
  _ ← timer_at timer;
  wl (list_head_remove (timer_entry timer)).

Definition for_each_safe_w {A B} (head : Z) (body : Z -> A -> M T (A + B)) (acc : A) : M T (A + B) :=
  fuel ← gets (fun t => S (S (size (wlinks t))));
  pos ← wl (get_next head);
  store ← wl (get_next pos);
  for_each_safe_loop fuel (fun it => wl (get_next it)) head pos store body acc.

Definition cascate (tv_index time_index : Z) : M T Z :=
  e ← wl (list_head_empty (vec tv_index time_index));
  (if negb e
   then _ ← for_each_safe_w (B := unit) (vec tv_index time_index) (fun it _ =>
              wl (list_head_remove it) ;;
              add_timer_tvec_base (entry_timer it) ;;
              mret (inl tt)) tt;
        mret tt
   else mret tt) ;;
  mret time_index.

Definition lock_base : M T unit := fun t =>
  match spinlock_lock (base_lock t) with
  | Ok v => Ok (tt, t <| base_lock := v |>)
  | Err f => Err f
  end.
Definition unlock_base : M T unit := modify (fun t => t <| base_lock := 0 |>).

(** The lists of the four upper vectors whose time has come. *)
Definition cascades (now : Z) : M T unit :=
  r ← cascate 2 (Z.land (Z.shiftr now (TIMER_TICKS_BITS 0)) TVN_MASK);
  if negb (r =? 0) then mret tt
  else
    r ← cascate 3 (Z.land (Z.shiftr now (TIMER_TICKS_BITS 1)) TVN_MASK);
    if negb (r =? 0) then mret tt
    else
      r ← cascate 4 (Z.land (Z.shiftr now (TIMER_TICKS_BITS 2)) TVN_MASK);
      if negb (r =? 0) then mret tt
      else _ ← cascate 5 (Z.land (Z.shiftr now (TIMER_TICKS_BITS 3)) TVN_MASK); mret tt.

Section Run.
(** [timer->function(timer->data)] *)
Context (call : option timer_function -> Z -> M T unit).

Definition trigger (it : Z) : M T unit :=
  let timer := entry_timer it in
  t ← timer_at timer;
  unlock_base ;;
  call (function t) (data t) ;;
  lock_base ;;
  wl (list_head_remove it) ;;
  free_timer timer.

(** One turn of the loop. *)
Definition run_tick : M T unit :=
  now ← gets timer_ticks;
  let current_time_index := Z.land now TVR_MASK in
  (if current_time_index =? 0 then cascades now else mret tt) ;;
  e ← wl (list_head_empty (vec 1 current_time_index));
  (if negb e
   then _ ← for_each_safe_w (B := unit) (vec 1 current_time_index) (fun it _ => trigger it ;; mret (inl tt)) tt;
        mret tt
   else mret tt) ;;
  modify (fun t => t <| timer_ticks := u32 (timer_ticks t + 1) |>).

(** A turn for every tick up to [current_ticks]; when more turns are taken the
    counter has wrapped, and the loop never ends. *)
Fixpoint run_ticks (fuel : nat) (current_ticks : Z) : M T unit :=
  match fuel with
  | O => fail FLoop
  | S fuel =>
      now ← gets timer_ticks;
      if now <=? current_ticks then run_tick ;; run_ticks fuel current_ticks else mret tt
  end.

Definition run_timer_softirq_with : M T unit :=
  lock_base ;;
  current_ticks ← ticks_now;
  fuel ← gets (fun t => S (Z.to_nat (current_ticks + 1 - timer_ticks t)));
  run_ticks fuel current_ticks ;;
  modify (fun t => t <| running_timer := NULL |>) ;;
  modify (fun t => t <| running_timer := NULL |>) ;;
  unlock_base.
End Run.

Definition init_timer (a : Z) : M T unit :=
  upd_timer a (fun t => t <| base := NULL |>) ;;
  wl (list_head_init (timer_entry a)) ;;
  upd_timer a (fun t => t <| t_lock := 0 |>).

Definition add_timer (a : Z) : M T unit :=
  upd_timer a (fun t => t <| base := cpu_base |>) ;;
  add_timer_tvec_base a.

Definition del_timer (a : Z) : M T unit :=
  upd_timer a (fun t => t <| base := NULL |>) ;;
  rem_timer_tvec_base a.

(** Arming a timer: [timer->expires], [->function] and [->data] are set. *)
Definition set_timer (a e : Z) (f : timer_function) (d : Z) : M T unit :=
  upd_timer a (fun t => t <| expires := e |>) ;;
  upd_timer a (fun t => t <| function := Some f |>) ;;
  upd_timer a (fun t => t <| data := d |>).

(** ** Sleeping *)
Definition sleep_timeout (d : Z) : M T unit :=
  sleep_data ← sleep_at d;
  let entry := sd_entry sleep_data in
  e ← kop (wait_at entry);
  res ← kop (call_wake_func entry);
  if res =? 1 then
    kop (remove_wait_queue sleep_queue entry) ;;
    kop (free_wait_entry entry) ;;
    _ ← kop (task_at (wq_task e));
    mret tt
  else mret tt.

Definition sys_nanosleep (req : timespec) (rem : Z) : M T Z :=
  d ← alloc_sleep_data;
  upd_sleep d (fun s => s <| sd_rem := rem |>) ;;
  sleep_timer ← alloc_timer;
  init_timer sleep_timer ;;
  now ← ticks_now;
  set_timer sleep_timer (u32 (now + u32 (TICKS_PER_SECOND * ts_sec req))) sleep_timeout_p d ;;
  entry ← kop (sleep_on sleep_queue);
  upd_sleep d (fun s => s <| sd_entry := entry |>) ;;
  add_timer sleep_timer ;;
  mret (-1).

(** ** Alarms *)
Definition alarm_timeout (pid : Z) : M T unit :=
  _ ← kop (sys_kill (s32 pid) SIGALRM);
  cur ← kop scheduler_get_current_process;
  upd_itimers cur (fun i => i <| real_timer := NULL |>).

Definition arm_alarm (current timer seconds : Z) : M T unit :=
  upd_itimers current (fun i => i <| real_timer := timer |>) ;;
  init_timer timer ;;
  now ← ticks_now;
  c ← kop (task_at current);
  set_timer timer (u32 (now + s32 (TICKS_PER_SECOND * seconds))) alarm_timeout_p (u32 (pid c)) ;;
  add_timer timer.

Definition sys_alarm (seconds : Z) : M T Z :=
  current ← kop scheduler_get_current_process;
  i ← itimers_at current;
  if negb (real_timer i =? NULL) then
    let timer := real_timer i in
    del_timer timer ;;
    t ← timer_at timer;
    now ← ticks_now;
    let result := s32 (Z.quot (u32 (expires t - now)) TICKS_PER_SECOND) in
    if seconds =? 0 then
      free_timer timer ;;
      upd_itimers current (fun i => i <| real_timer := NULL |>) ;;
      mret result
    else arm_alarm current timer seconds ;; mret result
  else if seconds =? 0 then mret 0
  else
    timer ← alloc_timer;
    arm_alarm current timer seconds ;;
    mret 0.

(** ** Interval timers *)
Definition calc_itimerval (incr value : Z) : itimerval :=
  ITimerVal (TimeVal (Z.quot incr TICKS_PER_SECOND) (u32 (Z.quot incr TICKS_PER_SECOND * 1000)))
            (TimeVal (Z.quot value TICKS_PER_SECOND) (u32 (Z.quot value TICKS_PER_SECOND * 1000))).

(** [v.tv_sec * TICKS_PER_SECOND + v.tv_usec * TICKS_PER_SECOND / 1000] *)
Definition ticks_of (v : timeval) : Z :=
  u32 (u32 (tv_sec v * TICKS_PER_SECOND) + Z.quot (u32 (tv_usec v * TICKS_PER_SECOND)) 1000).

Definition update_task_itimerval (which : Z) (val : itimerval) : M T unit :=
  let interval_ticks := ticks_of (it_interval val) in
  let value_ticks := ticks_of (it_value val) in
  curr ← kop scheduler_get_current_process;
  if which =? ITIMER_REAL then
    upd_itimers curr (fun i => i <| it_real_incr := interval_ticks |>) ;;
    upd_itimers curr (fun i => i <| it_real_value := value_ticks |>)
  else if which =? ITIMER_VIRTUAL then
    upd_itimers curr (fun i => i <| it_virt_incr := interval_ticks |>) ;;
    upd_itimers curr (fun i => i <| it_virt_value := value_ticks |>)
  else if which =? ITIMER_PROF then
    upd_itimers curr (fun i => i <| it_prof_incr := interval_ticks |>) ;;
    upd_itimers curr (fun i => i <| it_prof_value := value_ticks |>)
  else mret tt.

(** The result and, when it is written, [*curr_value]. *)
Definition sys_getitimer (which : Z) : M T (Z * option itimerval) :=
  if (which <? 0) || (3 <? which) then mret (EINVAL, None)
  else
    curr ← kop scheduler_get_current_process;
    if which =? ITIMER_REAL then
      i ← itimers_at curr;
      t ← timer_at (real_timer i);
      now ← ticks_now;
      let value := u32 (expires t - now) in
      upd_itimers curr (fun i => i <| it_real_value := value |>) ;;
      i ← itimers_at curr;
      mret (0, Some (calc_itimerval (it_real_incr i) (it_real_value i)))
    else if which =? ITIMER_VIRTUAL then
      i ← itimers_at curr;
      mret (0, Some (calc_itimerval (it_virt_incr i) (it_virt_value i)))
    else if which =? ITIMER_PROF then
      i ← itimers_at curr;
      mret (0, Some (calc_itimerval (it_prof_incr i) (it_prof_value i)))
    else mret (0, None).

Definition it_real_fn (p : Z) : M T unit :=
  cur ← kop (scheduler_get_running_process (s32 p));
  _ ← kop (sys_kill (s32 p) SIGALRM);
  i ← itimers_at cur;
  if negb (it_real_incr i =? 0) then
    timer ← alloc_timer;
    upd_itimers cur (fun i => i <| real_timer := timer |>) ;;
    init_timer timer ;;
    now ← ticks_now;
    i ← itimers_at cur;
    c ← kop (task_at cur);
    set_timer timer (u32 (now + it_real_incr i)) it_real_fn_p (u32 (pid c)) ;;
    add_timer timer
  else upd_itimers cur (fun i => i <| real_timer := NULL |>).

(** [old] tells whether [old_value] is not NULL; the result is paired with what
    is written to it. *)
Definition sys_setitimer (which : Z) (new_value : itimerval) (old : bool) : M T (Z * option itimerval) :=
  if (which <? 0) || (3 <? which) then mret (EINVAL, None)
  else
    o ← (if old then r ← sys_getitimer which; mret r.2 else mret None);
    let interval_ticks := ticks_of (it_interval new_value) in
    cur ← kop scheduler_get_current_process;
    if interval_ticks =? 0 then
      (if which =? ITIMER_REAL
       then i ← itimers_at cur;
            if negb (real_timer i =? NULL) then upd_itimers cur (fun i => i <| real_timer := NULL |>) else mret tt
       else mret tt) ;;
      update_task_itimerval which new_value ;;
      mret (-1, o)
    else
      (if which =? ITIMER_REAL then
         i ← itimers_at cur;
         timer ← (if negb (real_timer i =? NULL) then del_timer (real_timer i) ;; mret (real_timer i) else alloc_timer);
         init_timer timer ;;
         now ← ticks_now;
         c ← kop (task_at cur);
         set_timer timer (u32 (now + interval_ticks)) it_real_fn_p (u32 (pid c)) ;;
         add_timer timer
       else mret tt) ;;
      update_task_itimerval which new_value ;;
      mret (-1, o).

Definition update_process_profiling_timer (proc : Z) : M T unit :=
  i ← itimers_at proc;
  if negb (it_prof_incr i =? 0) then
    t ← kop (task_at proc);
    upd_itimers proc (fun i => i <| it_prof_value := u32 (it_prof_value i + exec_runtime (se t)) |>) ;;
    i ← itimers_at proc;
    if it_prof_incr i <=? it_prof_value i then
      _ ← kop (sys_kill (pid t) SIGPROF);
      upd_itimers proc (fun i => i <| it_prof_value := 0 |>)
    else mret tt
  else mret tt.

(** ** The timer interrupt *)
Definition timer_call (f : option timer_function) (d : Z) : M T unit :=
  match f with
  | Some sleep_timeout_p => sleep_timeout d
  | Some alarm_timeout_p => alarm_timeout d
  | Some it_real_fn_p => it_real_fn d
  | None => fail (FPtr uninit)
  end.

Definition run_timer_softirq : M T unit := run_timer_softirq_with timer_call.

(** ** What the accesses do *)
Implicit Types t : T.

Lemma kop_run {A} (m : M K A) t a k : m ~{ kk t }~> a; k -> kop m ~{ t }~> a; t <| kk := k |>.
Proof. intros Hm. unfold kop, zoom. by rewrite Hm. Qed.
Lemma kop_read {A} (m : M K A) t a : m ~{ kk t }~> a; kk t -> kop m ~{ t }~> a; t.
Proof. intros Hm. rewrite (kop_run m t a _ Hm). by destruct t. Qed.
Lemma wl_run {A} (m : M store A) t a s : m ~{ wlinks t }~> a; s -> wl m ~{ t }~> a; t <| wlinks := s |>.
Proof. intros Hm. unfold wl, zoom. by rewrite Hm. Qed.
Lemma wl_read {A} (m : M store A) t a : m ~{ wlinks t }~> a; wlinks t -> wl m ~{ t }~> a; t.
Proof. intros Hm. rewrite (wl_run m t a _ Hm). by destruct t. Qed.
Lemma wl_run_at {A} (m : M store A) t s0 a s : m ~{ s0 }~> a; s -> wlinks t = s0 -> wl m ~{ t }~> a; t <| wlinks := s |>.
Proof. intros Hm <-. by apply wl_run. Qed.
Lemma kop_run_at {A} (m : M K A) t k0 a k : m ~{ k0 }~> a; k -> kk t = k0 -> kop m ~{ t }~> a; t <| kk := k |>.
Proof. intros Hm <-. by apply kop_run. Qed.
Lemma timer_at_run t a x : timers t !! a = Some x -> timer_at a ~{ t }~> x; t.
Proof. intros Ha. by apply getsome_ok. Qed.
Lemma upd_timer_run t a x f : timers t !! a = Some x -> upd_timer a f ~{ t }~> tt; t <| timers := <[a := f x]> (timers t) |>.
Proof. intros Ha. unfold upd_timer. by rewrite Ha. Qed.

Lemma lock_base_run t : base_lock t = 0 -> lock_base ~{ t }~> tt; t <| base_lock := 1 |>.
Proof. intros Hl. unfold lock_base. by rewrite Hl. Qed.

(** The next step is an operation on the wheel's links, or on the processes,
    whose run is [H]. *)
Ltac runw H :=
  match goal with
  | |- context [(wl ?m ≫= ?c) ?t] => rewrite (bind_ok (wl m) c t _ _ (wl_run_at m t _ _ _ H eq_refl)); cbv beta
  end.
Ltac runk H :=
  match goal with
  | |- context [(kop ?m ≫= ?c) ?t] => rewrite (bind_ok (kop m) c t _ _ (kop_run_at m t _ _ _ H eq_refl)); cbv beta
  end.
Ltac tstep :=
  match goal with
  | |- context [(gets ?g ≫= ?c) ?t] => change ((gets g ≫= c) t) with (c (g t) t)
  | |- context [(modify ?f ≫= ?c) ?t] => change ((modify f ≫= c) t) with (c tt (f t))
  | |- context [(mret ?a ≫= ?c) ?t] => change ((mret a ≫= c) t) with (c a t)
  | |- context [((?m ≫= ?c) ≫= ?h) ?t] => rewrite (bind_assoc m c h t)
  | |- context [(timer_at ?p ≫= ?c) ?t] =>
      let E := fresh in
      eassert (E : timers t !! p = Some _) by solve_task;
      rewrite (bind_ok _ c _ _ _ (timer_at_run t p _ E)); clear E
  | |- context [(upd_timer ?p ?f ≫= ?c) ?t] =>
      let E := fresh in
      eassert (E : timers t !! p = Some _) by solve_task;
      rewrite (bind_ok _ c _ _ _ (upd_timer_run t p _ f E)); clear E
  end; cbv beta.

(** A walk over the list at [h] during which the body takes the first element
    off or leaves the list as it is. *)
Lemma walk_slot (J : list Z -> T -> Prop) (body : Z -> unit -> M T (unit + unit)) h xs t :
  is_list (wlinks t) h xs -> J xs t ->
  (forall x l t1, J (x :: l) t1 -> is_list (wlinks t1) h (x :: l) -> exists t2,
     body x tt ~{ t1 }~> inl tt; t2 /\ is_list (wlinks t2) h l /\ J l t2) ->
  exists t', for_each_safe_w h body tt ~{ t }~> inl tt; t' /\ is_list (wlinks t') h [] /\ J [] t'.
Proof.
  intros Hl HJ Hb. unfold for_each_safe_w. set (fuel := gets _). run (eq_refl : fuel t = Ok (_, t)).
  assert (Hnext : forall t1 l, is_list (wlinks t1) h l -> wl (get_next h) ~{ t1 }~> hd h l; t1)
    by (intros t1 l Hl1; apply wl_read, get_next_ok, (ring_first _ _ _ Hl1)).
  assert (Hnext2 : forall t1 x l, is_list (wlinks t1) h (x :: l) -> wl (get_next x) ~{ t1 }~> hd h l; t1)
    by (intros t1 x l Hl1; apply wl_read; by apply (is_list_next _ h (x :: l) [] x l)).
  assert (Hst : exists z, wl (get_next (hd h xs)) ~{ t }~> z; t /\ forall x l, xs = x :: l -> z = hd h l).
  { destruct xs as [|x l]; eexists; (split; [apply Hnext, Hl || apply Hnext2, Hl|]); [done|]. intros ? ? [= <- <-]. done. }
  destruct Hst as (z & Hz & Ez). run (Hnext t xs Hl). run Hz. clear Hz fuel.
  assert (Hlen : (length xs < S (S (size (wlinks t))))%nat) by (pose proof (list_length _ _ _ Hl); lia).
  revert Hlen. generalize (S (S (size (wlinks t)))). intros n.
  revert t xs z Hl HJ Ez. induction n as [|n IH]; intros t xs z Hl HJ Ez Hlen; [lia|]. cbn [for_each_safe_loop].
  destruct xs as [|x l]; cbn [hd]; [rewrite Z.eqb_refl; by exists t|].
  assert (Hx : x <> h) by (pose proof (ring_nodup _ _ Hl) as Hnd; apply NoDup_cons in Hnd as [Hnd _]; set_solver).
  rewrite (proj2 (Z.eqb_neq _ _) Hx). destruct (Hb x l t HJ Hl) as (t2 & Hr & Hl2 & HJ2). run Hr.
  rewrite (Ez x l eq_refl).
  assert (Hst : exists z, wl (get_next (hd h l)) ~{ t2 }~> z; t2 /\ forall x2 l2, l = x2 :: l2 -> z = hd h l2).
  { destruct l as [|x2 l2]; eexists; (split; [apply Hnext, Hl2 || apply Hnext2, Hl2|]); [done|]. intros ? ? [= <- <-]. done. }
  destruct Hst as (z2 & Hz2 & Ez2). run Hz2. apply (IH t2 l z2 Hl2 HJ2 Ez2). cbn in Hlen. lia.
Qed.

(** ** The slots

    A slot of vector [j] covers [unit_of j] ticks. *)
Definition unit_of (j : Z) : Z := if j =? 1 then 1 else TIMER_TICKS (j - 2).
Definition slots (j : Z) : Z := if j =? 1 then TVR_SIZE else TVN_SIZE.
Definition valid (j i : Z) : Prop := 1 <= j <= 5 /\ 0 <= i < slots j.
(** The number of the first span of vector [j] that is not yet begun at [now]. *)
Definition first_span (now j : Z) : Z := (now + unit_of j - 1) / unit_of j.
(** The slot of vector [j] for a timer due at [e]: that span begins at [now] or
    later, less than a turn of the vector away. *)
Definition in_slot (now j i e : Z) : Prop :=
  i = (e / unit_of j) mod slots j /\ first_span now j <= e / unit_of j < first_span now j + slots j.
(** The slot whose span begins at [now]. *)
Definition cur (now j : Z) : Z := (now / unit_of j) mod slots j.

Lemma level_cases j : 1 <= j <= 5 -> j = 1 \/ j = 2 \/ j = 3 \/ j = 4 \/ j = 5.
Proof. lia. Qed.
Ltac levels H := destruct (level_cases _ H) as [->|[->|[->|[->| ->]]]].
Ltac unit_values :=
  try change (unit_of 1) with 1 in *; try change (unit_of 2) with 256 in *; try change (unit_of 3) with 16384 in *;
  try change (unit_of 4) with 1048576 in *; try change (unit_of 5) with 67108864 in *;
  try change (slots 1) with 256 in *; try change (slots 2) with 64 in *; try change (slots 3) with 64 in *;
  try change (slots 4) with 64 in *; try change (slots 5) with 64 in *; rewrite ?Z.div_1_r in *.
Lemma unit_pos j : 1 <= j <= 5 -> 0 < unit_of j.
Proof. intros Hj. by levels Hj. Qed.
Lemma slots_pos j : 0 < slots j.
Proof. unfold slots. by case_match. Qed.

Lemma mask_mod x : Z.land x TVR_MASK = x mod 256 /\ Z.land x TVN_MASK = x mod 64.
Proof. change TVR_MASK with (Z.ones 8). change TVN_MASK with (Z.ones 6). by rewrite !Z.land_ones by lia. Qed.
Lemma bits_div x : Z.shiftr x (TIMER_TICKS_BITS 0) = x / 256 /\ Z.shiftr x (TIMER_TICKS_BITS 1) = x / 16384 /\
  Z.shiftr x (TIMER_TICKS_BITS 2) = x / 1048576 /\ Z.shiftr x (TIMER_TICKS_BITS 3) = x / 67108864.
Proof.
  change (TIMER_TICKS_BITS 0) with 8. change (TIMER_TICKS_BITS 1) with 14. change (TIMER_TICKS_BITS 2) with 20.
  change (TIMER_TICKS_BITS 3) with 26. by rewrite !Z.shiftr_div_pow2 by lia.
Qed.

(** The slot chosen for a timer that is not late, and for one that is. *)
Lemma find_tvec_spec now e : is_u32 now -> is_u32 e -> now <= e -> e - now < 2147483648 ->
  exists j i, find_tvec now e = (i, j) /\ valid j i /\ in_slot now j i e /\ (j = 1 \/ unit_of j <= e - now).
Proof.
  intros Hn He Hle Hd. unfold find_tvec, is_u32 in *. rewrite u32_small, s32_small by lia.
  destruct (Z.ltb_spec (e - now) 0); [lia|].
  rewrite (proj1 (mask_mod e)). destruct (bits_div e) as (-> & -> & -> & ->).
  assert (Hmod : forall x, Z.land x TVN_MASK = x mod 64) by (intros x; apply mask_mod). rewrite !Hmod.
  change (TIMER_TICKS 0) with 256. change (TIMER_TICKS 1) with 16384. change (TIMER_TICKS 2) with 1048576. change (TIMER_TICKS 3) with 67108864.
  unfold valid, in_slot, first_span.
  destruct (Z.ltb_spec (e - now) 256); [exists 1|destruct (Z.ltb_spec (e - now) 16384); [exists 2|
    destruct (Z.ltb_spec (e - now) 1048576); [exists 3|destruct (Z.ltb_spec (e - now) 67108864); [exists 4|exists 5]]]];
  eexists; (split; [reflexivity|]); unit_values; (split; [split; [lia|apply Z.mod_pos_bound; lia]|]);
  (split; [split; [done|dlia]|lia]).
Qed.
Lemma find_tvec_late now e : is_u32 now -> is_u32 e -> e < now -> now - e <= 2147483648 ->
  find_tvec now e = (now mod 256, 1) /\ valid 1 (now mod 256) /\ in_slot now 1 (now mod 256) now.
Proof.
  intros Hn He Hlt Hd. unfold find_tvec. destruct (Z.ltb_spec (s32 (u32 (e - now))) 0); [|wraplia].
  rewrite (proj1 (mask_mod now)). split; [done|]. unfold valid, in_slot, first_span.
  unit_values.
  pose proof (Z.mod_pos_bound now 256 ltac:(lia)). unfold is_u32 in *. split_and!; try done; lia.
Qed.

(** Distinct slots are distinct lists. *)
Lemma vec_inj j i k l : valid j i -> valid k l -> vec j i = vec k l -> j = k /\ i = l.
Proof.
  intros [Hj Hi] [Hk Hl]. assert (Hv : forall j, 1 <= j <= 5 -> tvec j = -8192 + (if j =? 1 then 0 else 2048 + 512 * (j - 2)))
    by (intros m Hm; by levels Hm).
  unfold vec. rewrite !Hv by done. unfold slots in *. change TVR_SIZE with 256 in *. change TVN_SIZE with 64 in *.
  repeat case_match; lia.
Qed.
Lemma cur_valid now j : 1 <= j <= 5 -> valid j (cur now j).
Proof. intros Hj. split; [done|]. apply Z.mod_pos_bound, slots_pos. Qed.

(** Where the slot that begins now holds timers: they are due within its span. *)
Lemma in_slot_cur now j e : 1 <= j <= 5 -> now mod unit_of j = 0 -> in_slot now j (cur now j) e ->
  e / unit_of j = now / unit_of j.
Proof.
  intros Hj Hal [Hi Hr]. unfold cur, first_span in *. pose proof (unit_pos j Hj) as Hu. pose proof (slots_pos j) as Hs.
  assert (E : (now + unit_of j - 1) / unit_of j = now / unit_of j).
  { clear Hi Hr; levels Hj; unit_values; dlia. }
  rewrite E in Hr. assert (Hsl : slots j = 256 \/ slots j = 64) by (unfold slots; case_match; [by left|by right]).
  revert Hi Hr. generalize (e / unit_of j) (now / unit_of j). intros q p. clear E. destruct Hsl as [-> | ->]; intros; dlia.
Qed.
(** A timer that is put into vector [j] is not put into the slot that begins now,
    unless it is in the root vector. *)
Lemma in_slot_not_cur now j i e : 2 <= j <= 5 -> now mod unit_of j = 0 -> in_slot now j i e -> unit_of j <= e - now ->
  i <> cur now j.
Proof.
  intros Hj Hal Hs Hd ->. assert (Hq : e / unit_of j = now / unit_of j) by (apply in_slot_cur; [lia|done|done]).
  assert (Hj' : 1 <= j <= 5) by lia. clear Hs. levels Hj'; unit_values; dlia.
Qed.
(** A tick later. *)
Lemma in_slot_next now j i e : 1 <= j <= 5 -> 0 <= now -> in_slot now j i e ->
  (now mod unit_of j = 0 -> i <> cur now j) -> in_slot (now + 1) j i e.
Proof.
  intros Hj Hn [Hi Hr] Hc. split; [done|]. unfold first_span, cur in *. pose proof (slots_pos j) as Hs.
  assert (E : (now mod unit_of j = 0 /\ (now + unit_of j - 1) / unit_of j = now / unit_of j /\
     (now + 1 + unit_of j - 1) / unit_of j = now / unit_of j + 1) \/
    (now + 1 + unit_of j - 1) / unit_of j = (now + unit_of j - 1) / unit_of j).
  { clear Hi Hr Hc; levels Hj; unit_values; dlia. }
  destruct E as [(E1 & E2 & E3)|E]; [|rewrite E; lia]. rewrite E2 in Hr. rewrite E3. split; [|lia].
  destruct (decide (e / unit_of j = now / unit_of j)) as [Eq|]; [|lia]. destruct (Hc E1). by rewrite Hi, Eq.
Qed.

(** ** The wheel as a set of pending timers

    [P] gives the tick at which each timer on the wheel is due: its [expires], or
    the tick it was added at when that was in the past. [W] are the lists. *)
Definition due_at (j : Z) (x : timer_list) (e : Z) : Prop := expires x = e \/ (j = 1 /\ expires x < e).

Record wheel (now : Z) (s : store) (tms : gmap Z timer_list) (W : gmap Z (list Z)) (P : gmap Z Z) : Prop := {
  wh_lists : lists s W;
  wh_slots : forall j i, valid j i -> is_Some (W !! vec j i);
  wh_nodes : forall j i xs n, valid j i -> W !! vec j i = Some xs -> n ∈ xs -> exists e x,
    P !! entry_timer n = Some e /\ tms !! entry_timer n = Some x /\ in_slot now j i e /\ due_at j x e;
  wh_pending : forall a e, P !! a = Some e -> (0 < a /\ now <= e < 4294967296) /\
    exists j i xs, valid j i /\ W !! vec j i = Some xs /\ timer_entry a ∈ xs
}.

Lemma entry_timer_entry a : entry_timer (timer_entry a) = a.
Proof. unfold entry_timer, timer_entry. lia. Qed.
Lemma timer_entry_timer n : timer_entry (entry_timer n) = n.
Proof. unfold entry_timer, timer_entry. lia. Qed.

Section Wheel.
Context (now : Z) (s : store) (tms : gmap Z timer_list) (W : gmap Z (list Z)) (P : gmap Z Z) (Hw : wheel now s tms W P).

Lemma wheel_slot j i : valid j i -> exists xs, W !! vec j i = Some xs /\ is_list s (vec j i) xs.
Proof.
  intros Hv. destruct (wh_slots _ _ _ _ _ Hw j i Hv) as [xs Hx]. exists xs. split; [done|].
  by apply (proj1 (wh_lists _ _ _ _ _ Hw)).
Qed.
(** A node on the wheel is no list head. *)
Lemma wheel_node_head j i xs n : W !! vec j i = Some xs -> n ∈ xs -> W !! n = None.
Proof.
  intros Hx Hn. destruct (W !! n) as [ys|] eqn:E; [|done]. exfalso.
  destruct (wh_lists _ _ _ _ _ Hw) as [Hl Hd]. assert (n = vec j i) as ->.
  { apply (Hd n (vec j i) ys xs n); [done|done|by left|by right]. }
  pose proof (ring_nodup _ _ (Hl _ _ Hx)) as Hnd. by apply NoDup_cons in Hnd as [? _].
Qed.
(** A node is in one slot only. *)
Lemma wheel_node_slot j i k l xs ys n : valid j i -> valid k l -> W !! vec j i = Some xs -> W !! vec k l = Some ys -> n ∈ xs -> n ∈ ys ->
  j = k /\ i = l.
Proof.
  intros Hv Hv' Hx Hy Hnx Hny. apply vec_inj; [done|done|].
  apply (proj2 (wh_lists _ _ _ _ _ Hw) _ _ xs ys n); [done|done|by right|by right].
Qed.

(** Taking a pending timer off. *)
Lemma wheel_remove a e : P !! a = Some e -> exists s', list_head_remove (timer_entry a) ~{ s }~> tt; s' /\
  wheel now s' tms (unlink (timer_entry a) W) (delete a P) /\
  (forall j i, valid j i -> unlink (timer_entry a) W !! vec j i = filter (.≠ timer_entry a) <$> W !! vec j i) /\
  unlink (timer_entry a) W !! timer_entry a = Some [].
Proof.
  intros Ha. destruct (wh_pending _ _ _ _ _ Hw a e Ha) as (_ & j & i & xs & Hv & Hx & Hin).
  pose proof (wheel_node_head j i xs _ Hx Hin) as Hnh.
  destruct (lists_unlink s W (wh_lists _ _ _ _ _ Hw) (timer_entry a)) as (s' & Hr & Hl); [right; by eexists _, _|].
  assert (Hun : forall j i, valid j i -> unlink (timer_entry a) W !! vec j i = filter (.≠ timer_entry a) <$> W !! vec j i).
  { intros j' i' Hv'. destruct (wh_slots _ _ _ _ _ Hw j' i' Hv') as [ys Hy]. unfold unlink.
    rewrite lookup_insert_ne by congruence. by rewrite lookup_fmap. }
  exists s'. split; [done|]. split; [|split; [done|by apply lookup_insert_eq]]. split.
  - done.
  - intros j' i' Hv'. rewrite Hun by done. destruct (wh_slots _ _ _ _ _ Hw j' i' Hv') as [ys ->]. by eexists.
  - intros j' i' ys n Hv' Hy Hn. rewrite Hun in Hy by done. apply fmap_Some in Hy as (zs & Hz & ->).
    apply list_elem_of_filter in Hn as [Hne Hn]. destruct (wh_nodes _ _ _ _ _ Hw j' i' zs n Hv' Hz Hn) as (e' & x & He & Hrest).
    exists e', x. split; [|done]. rewrite lookup_delete_ne; [done|]. intros ->. by rewrite timer_entry_timer in Hne.
  - intros b f Hb. apply lookup_delete_Some in Hb as [Hne Hb].
    destruct (wh_pending _ _ _ _ _ Hw b f Hb) as (Hf & j' & i' & ys & Hv' & Hy & Hin'). split; [done|].
    exists j', i', (filter (.≠ timer_entry a) ys). rewrite Hun, Hy by done. split_and!; try done.
    apply list_elem_of_filter. split; [|done]. unfold timer_entry. lia.
Qed.

Lemma vec_neg k l a : valid k l -> 0 < a -> vec k l <> timer_entry a.
Proof.
  intros [Hk Hl] Ha. unfold vec, timer_entry. levels Hk; unit_values;
    repeat match goal with |- context [tvec ?n] => let v := eval vm_compute in (tvec n) in change (tvec n) with v end; lia.
Qed.

(** Putting a timer into the slot [find_tvec] chooses. *)
Lemma wheel_add a x j i e : 0 < a -> P !! a = None -> W !! timer_entry a = Some [] -> tms !! a = Some x -> valid j i ->
  in_slot now j i e -> due_at j x e -> now <= e < 4294967296 ->
  exists s' W', list_head_insert_before (timer_entry a) (vec j i) ~{ s }~> tt; s' /\
    wheel now s' tms W' (<[a := e]> P) /\
    (forall k l, valid k l -> vec k l <> vec j i -> W' !! vec k l = W !! vec k l) /\
    exists xs, W !! vec j i = Some xs /\ W' !! vec j i = Some (xs ++ [timer_entry a]).
Proof.
  intros Hpos Ha Hn Hx Hv Hs Hd He. destruct (wh_slots _ _ _ _ _ Hw j i Hv) as [xs Hxs].
  destruct (lists_add_tail s W (wh_lists _ _ _ _ _ Hw) (timer_entry a) (vec j i) xs Hn Hxs) as (s' & Hr & Hl);
    [intros E; by apply (vec_neg j i a)|].
  set (W' := <[vec j i := xs ++ [timer_entry a]]> (delete (timer_entry a) W)) in *.
  assert (Hother : forall k l, valid k l -> vec k l <> vec j i -> W' !! vec k l = W !! vec k l).
  { intros k l Hkl Hne. unfold W'. rewrite lookup_insert_ne, lookup_delete_ne; [done|..|done]. intros E. by apply (vec_neg k l a). }
  assert (Hthis : W' !! vec j i = Some (xs ++ [timer_entry a])) by apply lookup_insert_eq.
  exists s', W'. split_and!; [done| |done|by exists xs]. split; [done|..].
  - intros k l Hkl. destruct (decide (vec k l = vec j i)) as [->|Hne]; [by eexists|].
    rewrite Hother by done. by apply (wh_slots _ _ _ _ _ Hw).
  - assert (Hold : forall k l ys n, valid k l -> W !! vec k l = Some ys -> n ∈ ys -> exists e' x', <[a := e]> P !! entry_timer n = Some e' /\
      tms !! entry_timer n = Some x' /\ in_slot now k l e' /\ due_at k x' e').
    { intros k l ys n Hkl Hy Hn'. destruct (wh_nodes _ _ _ _ _ Hw k l ys n Hkl Hy Hn') as (e' & x' & He' & Hrest).
      exists e', x'. split; [|done]. rewrite lookup_insert_ne; [done|]. congruence. }
    intros k l ys n Hkl Hy Hn'. destruct (decide (vec k l = vec j i)) as [E|Hne]; [|rewrite Hother in Hy by done; by apply (Hold k l ys n)].
    destruct (vec_inj k l j i Hkl Hv E) as [-> ->]. rewrite Hthis in Hy. simplify_eq.
    apply elem_of_app in Hn' as [Hn'|Hn']; [by apply (Hold j i xs n)|]. apply list_elem_of_singleton in Hn' as ->.
    exists e, x. rewrite entry_timer_entry, lookup_insert_eq. done.
  - intros b f Hb. destruct (decide (b = a)) as [->|Hne].
    + rewrite lookup_insert_eq in Hb. simplify_eq. split; [by split|]. exists j, i, (xs ++ [timer_entry a]). split_and!; try done. set_solver.
    + rewrite lookup_insert_ne in Hb by done. destruct (wh_pending _ _ _ _ _ Hw b f Hb) as (Hf & k & l & ys & Hkl & Hy & Hin).
      split; [done|]. destruct (decide (vec k l = vec j i)) as [E|Hne'].
      * exists j, i, (xs ++ [timer_entry a]). split_and!; try done. rewrite E in Hy. simplify_eq. set_solver.
      * exists k, l, ys. by rewrite Hother.
Qed.

(** Time goes on when nothing is due and the slots that begin now are empty. *)
Lemma wheel_next : 0 <= now -> (forall a e, P !! a = Some e -> e <> now) ->
  (forall j, 2 <= j <= 5 -> now mod unit_of j = 0 -> W !! vec j (cur now j) = Some []) ->
  wheel (now + 1) s tms W P.
Proof.
  intros Hnow Hdue Hclean. destruct Hw as [Hl Hsl Hnd Hp]. split; [done|done| |].
  - intros j i xs n Hv Hx Hn. destruct (Hnd j i xs n Hv Hx Hn) as (e & x & He & Ht & Hs & Hd). exists e, x. split_and!; try done.
    apply in_slot_next; [apply Hv|done|done|]. intros Hal ->. destruct (decide (j = 1)) as [->|Hj].
    + apply (Hdue _ _ He). destruct Hv as [Hj _]. pose proof (in_slot_cur now 1 e Hj Hal Hs) as E. unit_values. done.
    + rewrite Hclean in Hx; [|destruct Hv; lia|done]. simplify_eq. by apply not_elem_of_nil in Hn.
  - intros a e Ha. destruct (Hp a e Ha) as (He & Hrest). split; [|done]. pose proof (Hdue a e Ha). lia.
Qed.

(** What is due now is in the slot of the root vector. *)
Lemma wheel_due a : P !! a = Some now ->
  (forall j, 2 <= j <= 5 -> now mod unit_of j = 0 -> W !! vec j (cur now j) = Some []) ->
  exists xs, W !! vec 1 (cur now 1) = Some xs /\ timer_entry a ∈ xs.
Proof.
  intros Ha Hclean. destruct (wh_pending _ _ _ _ _ Hw a now Ha) as (Hr & j & i & xs & Hv & Hx & Hin).
  destruct (wh_nodes _ _ _ _ _ Hw j i xs _ Hv Hx Hin) as (e & x & He & _ & [Hi Hs] & _).
  rewrite entry_timer_entry in He. simplify_eq. change ((now / unit_of j) mod slots j) with (cur now j) in *.
  destruct (decide (j = 1)) as [->|Hj]; [by exists xs|]. destruct Hv as [Hj' _].
  assert (Hal : now mod unit_of j = 0).
  { clear - Hs Hj Hj'. unfold first_span in Hs. levels Hj'; unit_values; [done|dlia..]. }
  rewrite Hclean in Hx; [|lia|done]. simplify_eq. by apply not_elem_of_nil in Hin.
Qed.
Lemma wheel_root xs n : W !! vec 1 (cur now 1) = Some xs -> n ∈ xs -> P !! entry_timer n = Some now.
Proof.
  intros Hx Hn. destruct (wh_nodes _ _ _ _ _ Hw 1 _ xs n (cur_valid now 1 ltac:(lia)) Hx Hn) as (e & x & He & _ & Hs & _).
  rewrite He. f_equal. assert (Hal : now mod unit_of 1 = 0) by apply Z.mod_1_r.
  pose proof (in_slot_cur now 1 e ltac:(lia) Hal Hs) as E. unit_values. done.
Qed.
End Wheel.

Lemma filter_ne_head (x : Z) (l : list Z) h : NoDup (h :: x :: l) -> filter (.≠ x) (x :: l) = l.
Proof.
  intros Hnd. apply NoDup_cons in Hnd as [_ Hnd]. apply NoDup_cons in Hnd as [Hx _].
  rewrite filter_cons_False by (by intros []). by apply filter_ne_id.
Qed.

Lemma unit_divides now j k : 1 <= k <= j -> j <= 5 -> now mod unit_of j = 0 -> now mod unit_of k = 0.
Proof.
  intros Hk Hj. assert (Hk' : 1 <= k <= 5) by lia. assert (Hj' : 1 <= j <= 5) by lia.
  levels Hk'; levels Hj'; unit_values; (lia || dlia).
Qed.

(** Moving the timers of the slot that begins now to the vectors below. *)
Definition moved (now j : Z) (t : T) (P : gmap Z Z) (l : list Z) (t1 : T) : Prop :=
  exists s1 W1, t1 = t <| wlinks := s1 |> /\ wheel now s1 (timers t) W1 P /\
    W1 !! vec j (cur now j) = Some l /\
    forall k, 2 <= k < j -> W1 !! vec k (cur now k) = Some [].

Lemma move_one now j t P x l t1 : timer_ticks t = now -> is_u32 now -> 2 <= j <= 5 -> now mod unit_of j = 0 ->
  moved now j t P (x :: l) t1 ->
  exists t2, (wl (list_head_remove x) ;; add_timer_tvec_base (entry_timer x) ;; mret (inl tt)) ~{ t1 }~> (inl tt : unit + unit); t2 /\
    is_list (wlinks t2) (vec j (cur now j)) l /\ moved now j t P l t2.
Proof.
  intros Ht Hn Hj Hal (s1 & W1 & -> & Hw & Hl & Hclean).
  assert (Hvj : valid j (cur now j)) by (apply cur_valid; lia).
  destruct (wh_nodes _ _ _ _ _ Hw j _ _ x Hvj Hl) as (e & y & He & Hy & Hs & Hd); [by left|].
  destruct (wh_pending _ _ _ _ _ Hw _ _ He) as [[Hpos Her] _].
  assert (Hexp : expires y = e) by (destruct Hd as [?|[? _]]; [done|lia]).
  assert (Hq : e - now < unit_of j).
  { pose proof (in_slot_cur now j e ltac:(lia) Hal Hs) as Eq. clear - Eq Hal Hj Her. assert (Hj' : 1 <= j <= 5) by lia. levels Hj'; unit_values; dlia. }
  assert (Hu : unit_of j <= 67108864) by (assert (Hj' : 1 <= j <= 5) by lia; by levels Hj').
  destruct (wheel_remove _ _ _ _ _ Hw _ _ He) as (s2 & Hr2 & Hw2 & Hun & Hempty). rewrite timer_entry_timer in *.
  destruct (find_tvec_spec now e) as (k & i & Hf & Hv & Hs' & Hk); [done|unfold is_u32 in *; lia|lia|lia|].
  assert (Hkj : k < j).
  { destruct Hk as [->|Hk]; [lia|]. destruct (Z.lt_ge_cases k j) as [|Hge]; [done|exfalso].
    assert (unit_of j <= unit_of k); [|lia]. destruct Hv as [Hk5 _]. assert (Hj' : 1 <= j <= 5) by lia. levels Hj'; levels Hk5; unit_values; lia. }
  destruct (wheel_add now s2 (timers t) _ _ Hw2 (entry_timer x) y k i e) as (s3 & W3 & Hr3 & Hw3 & Hother & xs & Hxs & Hxs3);
    [done|apply lookup_delete_eq|by rewrite timer_entry_timer|done|done|done|by left|lia|]. rewrite timer_entry_timer in *.
  rewrite insert_delete_eq, insert_id in Hw3 by done.
  assert (Hne : forall m, 2 <= m <= j -> vec m (cur now m) <> vec k i).
  { intros m Hm E. destruct (vec_inj m (cur now m) k i) as [-> Ec]; [apply cur_valid; lia|done|done|].
    destruct Hk as [->|Hk]; [lia|]. apply (in_slot_not_cur now k i e); [lia|by apply (unit_divides now j); [lia|lia|]|done|done|done]. }
  assert (Hf2 : forall m, 2 <= m <= j -> W3 !! vec m (cur now m) = filter (.≠ x) <$> W1 !! vec m (cur now m)).
  { intros m Hm. rewrite Hother by (try apply cur_valid; try apply Hne; lia). apply Hun, cur_valid. lia. }
  pose proof (filter_ne_head x l _ (ring_nodup _ _ (proj1 (wh_lists _ _ _ _ _ Hw) _ _ Hl))) as Hfl.
  exists (t <| wlinks := s3 |>). split; [|split].
  - runw Hr2. unfold add_timer_tvec_base. tstep.
    match goal with |- context [(timer_at ?a ≫= _) ?u] => assert (Hta : timers u !! a = Some y) by exact Hy; run (timer_at_run u a y Hta) end.
    repeat tstep. change (timer_ticks (t <| wlinks := s1 |> <| wlinks := s2 |>)) with (timer_ticks t). rewrite Ht, Hexp, Hf, timer_entry_timer.
    runw Hr3. done.
  - apply (proj1 (wh_lists _ _ _ _ _ Hw3)). rewrite Hf2, Hl by lia. exact (f_equal Some Hfl).
  - exists s3, W3. split_and!; [done|done| |].
    + rewrite Hf2, Hl by lia. exact (f_equal Some Hfl).
    + intros m Hm. rewrite Hf2, Hclean by lia. done.
Qed.

(** The slots of the vectors 2 to [j] that begin now are empty. *)
Definition clean (now j : Z) (W : gmap Z (list Z)) : Prop := forall k, 2 <= k <= j -> W !! vec k (cur now k) = Some [].

Lemma cascate_run now j t W P : timer_ticks t = now -> is_u32 now -> 2 <= j <= 5 -> now mod unit_of j = 0 ->
  wheel now (wlinks t) (timers t) W P -> clean now (j - 1) W ->
  exists s' W', cascate j (cur now j) ~{ t }~> cur now j; t <| wlinks := s' |> /\ wheel now s' (timers t) W' P /\ clean now j W'.
Proof.
  intros Ht Hn Hj Hal Hw Hc. destruct (wheel_slot _ _ _ _ _ Hw j (cur now j)) as (xs & Hxs & Hl); [apply cur_valid; lia|].
  unfold cascate. run (wl_read _ t _ (empty_run _ _ _ Hl)). destruct (decide (xs = [])) as [->|Hne].
  - rewrite bool_decide_true by done. exists (wlinks t), W. split; [by destruct t|]. split; [done|].
    intros k Hk. destruct (decide (k = j)) as [->|]; [done|]. apply Hc. lia.
  - rewrite bool_decide_false by done. cbn [negb].
    destruct (walk_slot (moved now j t P) (fun it _ => wl (list_head_remove it) ;; add_timer_tvec_base (entry_timer it) ;; mret (inl tt))
      (vec j (cur now j)) xs t Hl) as (t' & Hr & _ & s' & W' & -> & Hw' & Hl' & Hc').
    + exists (wlinks t), W. split_and!; try done; [by destruct t|]. intros k Hk. apply Hc. lia.
    + intros x l t1 Hm _. by apply move_one.
    + rewrite bind_assoc. run Hr. exists s', W'. split; [done|]. split; [done|].
      intros k Hk. destruct (decide (k = j)) as [->|]; [done|]. apply Hc'. lia.
Qed.

(** All cascades of a tick: afterwards every slot that begins now is empty. *)
Lemma cascades_run now t W P : timer_ticks t = now -> is_u32 now -> wheel now (wlinks t) (timers t) W P ->
  now mod unit_of 2 = 0 ->
  exists s' W', cascades now ~{ t }~> tt; t <| wlinks := s' |> /\ wheel now s' (timers t) W' P /\
    forall j, 2 <= j <= 5 -> now mod unit_of j = 0 -> W' !! vec j (cur now j) = Some [].
Proof.
  intros Ht Hn Hw Hal. unfold cascades. destruct (bits_div now) as (-> & -> & -> & ->).
  assert (Hmod : forall x, Z.land x TVN_MASK = x mod 64) by (intros x; apply mask_mod). rewrite !Hmod.
  change ((now / 256) mod 64) with (cur now 2). change ((now / 16384) mod 64) with (cur now 3).
  change ((now / 1048576) mod 64) with (cur now 4). change ((now / 67108864) mod 64) with (cur now 5).
  assert (Hstop : forall j W', 2 <= j < 5 -> clean now j W' -> now mod unit_of j = 0 -> cur now j <> 0 ->
    forall k, 2 <= k <= 5 -> now mod unit_of k = 0 -> W' !! vec k (cur now k) = Some []).
  { intros j W' Hj Hc Haj Hcur k Hk Hak. apply Hc. destruct (Z.le_gt_cases k j) as [|Hgt]; [lia|exfalso]. apply Hcur.
    assert (Hj5 : 1 <= j <= 5) by lia. assert (Hk5 : 1 <= k <= 5) by lia. unfold cur. clear - Haj Hak Hgt Hj5 Hk5 Hk Hj.
    levels Hj5; levels Hk5; unit_values; try lia; dlia. }
  assert (Hup : forall j, 2 <= j < 5 -> now mod unit_of j = 0 -> cur now j = 0 -> now mod unit_of (j + 1) = 0).
  { intros j Hj Haj Hcur. assert (Hj5 : 1 <= j <= 5) by lia. unfold cur in Hcur. clear - Haj Hcur Hj5 Hj. levels Hj5; try lia; match goal with |- context [unit_of (?a + 1)] => let v := eval vm_compute in (a + 1) in change (a + 1) with v end; unit_values; dlia. }
  destruct (cascate_run now 2 t W P Ht Hn ltac:(lia) Hal Hw) as (s2 & W2 & Hr2 & Hw2 & Hc2); [intros k Hk; lia|]. run Hr2.
  destruct (Z.eqb_spec (cur now 2) 0) as [E2|E2]; cbn [negb]; [|exists s2, W2; split_and!; [done|done|by apply (Hstop 2)]].
  pose proof (Hup 2 ltac:(lia) Hal E2) as Ha3. set (t2 := t <| wlinks := s2 |>) in *.
  destruct (cascate_run now 3 t2 W2 P Ht Hn ltac:(lia) Ha3 Hw2 Hc2) as (s3 & W3 & Hr3 & Hw3 & Hc3). run Hr3.
  destruct (Z.eqb_spec (cur now 3) 0) as [E3|E3]; cbn [negb]; [|exists s3, W3; split_and!; [done|done|by apply (Hstop 3)]].
  pose proof (Hup 3 ltac:(lia) Ha3 E3) as Ha4. set (t3 := t2 <| wlinks := s3 |>) in *.
  destruct (cascate_run now 4 t3 W3 P Ht Hn ltac:(lia) Ha4 Hw3 Hc3) as (s4 & W4 & Hr4 & Hw4 & Hc4). run Hr4.
  destruct (Z.eqb_spec (cur now 4) 0) as [E4|E4]; cbn [negb]; [|exists s4, W4; split_and!; [done|done|by apply (Hstop 4)]].
  pose proof (Hup 4 ltac:(lia) Ha4 E4) as Ha5. set (t4 := t3 <| wlinks := s4 |>) in *.
  destruct (cascate_run now 5 t4 W4 P Ht Hn ltac:(lia) Ha5 Hw4 Hc4) as (s5 & W5 & Hr5 & Hw5 & Hc5). run Hr5.
  exists s5, W5. split_and!; [done|done|]. intros j Hj _. by apply Hc5.
Qed.

(** ** The functions of timers

    [I evs t al]: in state [t], with the blocks [al] of the heap in use and after
    the timers of [evs] (tick and address) have been run, the invariant of whoever
    set the timers holds. It does not depend on the wheel itself; running a timer
    advances it and leaves the wheel alone, and it survives that a timer that has
    run is freed. *)
Class TimerClient (call : option timer_function -> Z -> M T unit) (I : list (Z * Z) -> T -> gmap Z Z -> Prop) : Prop := {
  tc_heap : forall evs t al, I evs t al -> ha_ok (kx (kk t)) al;
  tc_timers : forall evs t al a x, I evs t al -> timers t !! a = Some x -> al !! a = Some sizeof_timer_list;
  tc_same : forall evs t al t', I evs t al -> kk t' = kk t -> timers t' = timers t -> sleeps t' = sleeps t ->
    itimers t' = itimers t -> I evs t' al;
  tc_call : forall evs t al a x, I evs t al -> timers t !! a = Some x -> a ∉ evs.*2 ->
    exists t' al', call (function x) (data x) ~{ t }~> tt; t' /\ I (evs ++ [(timer_ticks t, a)]) t' al' /\
      wlinks t' = wlinks t /\ timers t' = timers t /\ timer_ticks t' = timer_ticks t /\ base_lock t' = base_lock t /\
      ticks (kk t') = ticks (kk t);
  tc_free : forall evs t al a x, I evs t al -> a ∈ evs.*2 -> al !! a = Some sizeof_timer_list -> ha_ok x (delete a al) ->
    I evs (t <| kk := (kk t) <| kx := x |> |> <| timers := delete a (timers t) |>) (delete a al)
}.

(** The timers [evs] of [P0] have run, those of [P] have not. *)
Record history (P0 P : gmap Z Z) (now : Z) (evs : list (Z * Z)) : Prop := {
  hi_sub : forall a e, P !! a = Some e -> P0 !! a = Some e;
  hi_fired : forall e a, (e, a) ∈ evs <-> P0 !! a = Some e /\ P !! a = None;
  hi_once : NoDup evs.*2;
  hi_sorted : StronglySorted (fun p q : Z * Z => p.1 <= q.1) evs;
  hi_past : forall e a, (e, a) ∈ evs -> e <= now
}.

Lemma sorted_snoc (evs : list (Z * Z)) p : StronglySorted (fun p q : Z * Z => p.1 <= q.1) evs ->
  (forall q, q ∈ evs -> q.1 <= p.1) -> StronglySorted (fun p q : Z * Z => p.1 <= q.1) (evs ++ [p]).
Proof.
  induction 1 as [|q evs Hs IH Hq]; intros Hp; cbn; [by repeat constructor|].
  constructor; [apply IH; intros r Hr; apply Hp; by right|].
  apply Forall_app. split; [done|]. apply Forall_singleton. apply Hp. by left.
Qed.

Lemma history_fire P0 P now evs a : history P0 P now evs -> P !! a = Some now ->
  a ∉ evs.*2 /\ history P0 (delete a P) now (evs ++ [(now, a)]).
Proof.
  intros [Hsub Hf Ho Hs Hp] Ha. assert (Hno : a ∉ evs.*2).
  { intros ([e b] & E & Hin)%list_elem_of_fmap. cbn in E. subst b. apply Hf in Hin as [_ Hin]. congruence. }
  split; [done|]. split.
  - intros b e Hb. apply lookup_delete_Some in Hb as [_ Hb]. by apply Hsub.
  - intros e b. rewrite elem_of_app, list_elem_of_singleton, Hf. split.
    + intros [[H1 H2]|[= -> ->]]; [split; [done|]|split; [by apply Hsub|by apply lookup_delete_eq]].
      apply lookup_delete_None. by right.
    + intros [H1 [<-|H2]%lookup_delete_None]; [right|by left]. apply Hsub in Ha. congruence.
  - rewrite fmap_app. apply NoDup_app. split_and!; [done| |apply NoDup_singleton]. intros b Hb. cbn. set_solver.
  - apply sorted_snoc; [done|]. intros [e b] Hb. cbn. by apply (Hp e b).
  - intros e b. rewrite elem_of_app, list_elem_of_singleton. intros [Hb|[= -> ->]]; [by apply (Hp e b)|lia].
Qed.

Lemma wheel_free now s tms W P a : wheel now s tms W P -> W !! timer_entry a = Some [] -> P !! a = None -> 0 < a ->
  wheel now (delete (timer_entry a) s) (delete a tms) (delete (timer_entry a) W) P.
Proof.
  intros Hw Hn Ha Hpos. destruct Hw as [Hl Hs Hnd Hp]. 
  assert (Hv : forall j i, valid j i -> delete (timer_entry a) W !! vec j i = W !! vec j i).
  { intros j i Hv. apply lookup_delete_ne. intros E. by apply (vec_neg j i a Hv Hpos). }
  split.
  - by apply (lists_drop _ _ Hl (timer_entry a) []).
  - intros j i Hji. rewrite Hv by done. by apply Hs.
  - intros j i xs n Hji Hx Hn'. rewrite Hv in Hx by done. destruct (Hnd j i xs n Hji Hx Hn') as (e & x & He & Ht & Hrest).
    exists e, x. split; [done|]. split; [|done]. rewrite lookup_delete_ne; [done|]. congruence.
  - intros b e Hb. destruct (Hp b e Hb) as (Hr & j & i & xs & Hji & Hx & Hin). split; [done|]. exists j, i, xs. by rewrite Hv.
Qed.

Section Client.
Context (call : option timer_function -> Z -> M T unit) (I : list (Z * Z) -> T -> gmap Z Z -> Prop) `{!TimerClient call I}.
Context (P0 : gmap Z Z) (c : Z).

(** At tick [now], when the timers due up to [b] have run. *)
Record running (now b : Z) (t : T) (W : gmap Z (list Z)) (P : gmap Z Z) : Prop := {
  ru_now : timer_ticks t = now;
  ru_clock : ticks (kk t) = c;
  ru_lock : base_lock t = 1;
  ru_wheel : wheel now (wlinks t) (timers t) W P;
  ru_client : exists evs al, history P0 P b evs /\ I evs t al
}.
(** During tick [now]; [l] are the nodes left in the current slot. *)
Definition firing (now : Z) (l : list Z) (t : T) : Prop := exists W P, running now now t W P /\
  W !! vec 1 (cur now 1) = Some l /\ forall j, 2 <= j <= 5 -> now mod unit_of j = 0 -> W !! vec j (cur now j) = Some [].

Lemma trigger_run now x l t : firing now (x :: l) t ->
  exists t', trigger call x ~{ t }~> tt; t' /\ is_list (wlinks t') (vec 1 (cur now 1)) l /\ firing now l t'.
Proof.
  intros (W & P & [Hnow Hclk Hlock Hw (evs & al & Hhi & HI)] & Hx & Hc). set (a := entry_timer x).
  assert (Hv1 : valid 1 (cur now 1)) by (by apply cur_valid).
  destruct (wh_nodes _ _ _ _ _ Hw 1 _ _ x Hv1 Hx ltac:(by left)) as (e & y & He & Hy & _).
  pose proof (wheel_root _ _ _ _ _ Hw _ x Hx ltac:(by left)) as Hdue. fold a in He, Hy, Hdue. 
  destruct (wh_pending _ _ _ _ _ Hw _ _ Hdue) as [[Hpos _] _].
  destruct (history_fire _ _ _ _ _ Hhi Hdue) as [Hno Hhi'].
  unfold trigger. fold a. run (timer_at_run t a y Hy). unfold unlock_base. repeat tstep.
  set (t1 := t <| base_lock := 0 |>).
  destruct (tc_call evs t1 al a y) as (t2 & al2 & Hr2 & HI2 & E1 & E2 & E3 & E4 & E5); [by apply (tc_same evs t)|done|done|].
  change (timer_ticks t1) with (timer_ticks t) in HI2. rewrite Hnow in HI2.
  run Hr2. run (lock_base_run t2 E4). set (t3 := t2 <| base_lock := 1 |>).
  destruct (wheel_remove _ _ _ _ _ Hw _ _ Hdue) as (s4 & Hr4 & Hw4 & Hun & Hempty). unfold a in Hr4, Hw4, Hun, Hempty. rewrite timer_entry_timer in *. fold a in Hw4.
  assert (Es : wlinks t3 = wlinks t) by exact E1. rewrite <- Es in Hr4. rewrite (bind_ok _ _ _ _ _ (wl_run _ _ _ _ Hr4)).
  assert (Ha2 : al2 !! a = Some sizeof_timer_list) by (apply (tc_timers _ t2 al2 a y HI2); rewrite E2; done).
  destruct (ha_free_law (kx (kk t2)) al2 a _ (tc_heap _ _ _ HI2) Ha2) as (x5 & Hr5 & Hx5 & _).
  unfold free_timer. runk (srv_run_at _ (kk t3) (kx (kk t2)) tt x5 Hr5 eq_refl).
  eexists. split; [reflexivity|].
  assert (Hfl : forall j i, valid j i -> delete (timer_entry a) (unlink x W) !! vec j i = filter (.≠ x) <$> W !! vec j i).
  { intros j i Hv. rewrite lookup_delete_ne by (intros E; by apply (vec_neg j i a Hv Hpos)). by apply Hun. }
  pose proof (filter_ne_head x l _ (ring_nodup _ _ (proj1 (wh_lists _ _ _ _ _ Hw) _ _ Hx))) as Hf.
  assert (Hw5 : wheel now (delete (timer_entry a) s4) (delete a (timers t)) (delete (timer_entry a) (unlink x W)) (delete a P)).
  { apply wheel_free; [done|unfold a; by rewrite timer_entry_timer|by apply lookup_delete_eq|done]. }
  assert (Hcur : delete (timer_entry a) (unlink x W) !! vec 1 (cur now 1) = Some l) by (rewrite Hfl, Hx by done; exact (f_equal Some Hf)).
  split; [exact (proj1 (wh_lists _ _ _ _ _ Hw5) _ _ Hcur)|].
  exists (delete (timer_entry a) (unlink x W)), (delete a P). split_and!; [split|exact Hcur|].
  - change (timer_ticks t2 = now). by rewrite E3.
  - change (ticks (kk t2) = c). by rewrite E5.
  - done.
  - cbn. rewrite E2. exact Hw5.
  - exists (evs ++ [(now, a)]), (delete a al2). split; [exact Hhi'|].
    assert (Hin : a ∈ (evs ++ [(now, a)]).*2) by (rewrite fmap_app; set_solver).
    eapply (tc_same _ _ _ _ (tc_free _ t2 al2 a x5 HI2 Hin Ha2 Hx5)); done.
  - intros j Hj Hal. rewrite Hfl, (Hc j Hj Hal) by (apply cur_valid; lia). done.
Qed.

Lemma history_later P b b' evs : history P0 P b evs -> b <= b' -> history P0 P b' evs.
Proof. intros [H1 H2 H3 H4 H5] Hb. split; try done. intros e a Hin. pose proof (H5 e a Hin). lia. Qed.

(** A tick runs everything that is due at it. *)
Lemma run_tick_run now t W P : running now (now - 1) t W P -> 0 <= now -> now + 1 < 4294967296 ->
  exists t' W' P', run_tick call ~{ t }~> tt; t' /\ running (now + 1) now t' W' P'.
Proof.
  intros [Hnow Hclk Hlock Hw (evs & al & Hhi & HI)] H0n Hlt. assert (Hu : is_u32 now) by (unfold is_u32; lia).
  unfold run_tick. tstep. rewrite Hnow, (proj1 (mask_mod now)). cbv zeta.
  assert (Hcas : exists s' W', (if now mod 256 =? 0 then cascades now else mret tt) ~{ t }~> tt; t <| wlinks := s' |> /\
    wheel now s' (timers t) W' P /\ forall j, 2 <= j <= 5 -> now mod unit_of j = 0 -> W' !! vec j (cur now j) = Some []).
  { destruct (Z.eqb_spec (now mod 256) 0) as [E|E]; [by apply (cascades_run now t W P)|].
    exists (wlinks t), W. split_and!; [by destruct t|done|]. intros j Hj Hal. destruct E. by apply (unit_divides now j 2); [lia|lia|]. }
  destruct Hcas as (s' & W' & Hrc & Hw' & Hc). run Hrc. set (t1 := t <| wlinks := s' |>).
  assert (Hr1 : running now now t1 W' P).
  { split; try done. exists evs, al. split; [apply (history_later P (now - 1)); [done|lia]|]. by apply (tc_same evs t). }
  destruct (wheel_slot _ _ _ _ _ Hw' 1 (cur now 1)) as (xs & Hxs & Hl); [by apply cur_valid|].
  assert (Ecur : now mod 256 = cur now 1) by (unfold cur; unit_values; done). rewrite Ecur. runw (empty_run _ _ _ Hl).
  assert (Hwalk : exists t2, (if negb (bool_decide (xs = []))
      then _ ← for_each_safe_w (B := unit) (vec 1 (cur now 1)) (fun it _ => trigger call it ;; mret (inl tt)) tt; mret tt
      else mret tt) ~{ t1 }~> tt; t2 /\ firing now [] t2).
  { case_bool_decide as E; cbn [negb]; [subst xs; exists t1; split; [done|]; by exists W', P|].
    destruct (walk_slot (firing now) (fun it _ => trigger call it ;; mret (inl tt)) (vec 1 (cur now 1)) xs t1 Hl) as (t2 & Hr2 & _ & Hf).
    - by exists W', P.
    - intros x l t2 Hf _. destruct (trigger_run now x l t2 Hf) as (t3 & Hr3 & Hl3 & Hf3). exists t3. split; [by run Hr3|done].
    - exists t2. split; [by run Hr2|done]. }
  destruct Hwalk as (t2 & Hr2 & W2 & P2 & [Hn2 Hc2 Hl2 Hw2 (evs2 & al2 & Hhi2 & HI2)] & Hx2 & Hcl2).
  replace (t1 <| wlinks := wlinks t1 |>) with t1 by done. run Hr2.
  exists (t2 <| timer_ticks := now + 1 |>), W2, P2. split; [unfold modify; rewrite Hn2, u32_small by lia; done|]. split; try done.
  - cbn. apply wheel_next; [done|done| |done]. intros a e Ha ->. destruct (wheel_due _ _ _ _ _ Hw2 a Ha Hcl2) as (ys & Hys & Hin).
    rewrite Hx2 in Hys. simplify_eq. by apply not_elem_of_nil in Hin.
  - exists evs2, al2. split; [done|]. by apply (tc_same evs2 t2).
Qed.

(** Catching up with the clock. *)
Lemma run_ticks_run n : forall now t W P, running now (now - 1) t W P -> 0 <= now -> u32 c + 1 < 4294967296 ->
  now <= u32 c + 1 -> (Z.to_nat (u32 c + 1 - now) < n)%nat ->
  exists t' W' P', run_ticks call n (u32 c) ~{ t }~> tt; t' /\ running (u32 c + 1) (u32 c) t' W' P'.
Proof.
  induction n as [|n IH]; intros now t W P Hr H0n Hc Hle Hn; [lia|]. cbn [run_ticks]. tstep.
  rewrite (ru_now _ _ _ _ _ Hr). destruct (Z.leb_spec now (u32 c)).
  - destruct (run_tick_run now t W P Hr H0n) as (t1 & W1 & P1 & Hr1 & Hru1); [lia|]. run Hr1.
    apply (IH (now + 1) t1 W1 P1); [by replace (now + 1 - 1) with now by lia|lia..].
  - exists t, W, P. split; [done|]. by replace (u32 c + 1) with now by lia; replace (u32 c) with (now - 1) by lia.
Qed.
End Client.

(** ** Adding and removing timers *)
Lemma wheel_timers now s tms tms' W P : wheel now s tms W P ->
  (forall a e x, P !! a = Some e -> tms !! a = Some x -> exists x', tms' !! a = Some x' /\ expires x' = expires x) ->
  wheel now s tms' W P.
Proof.
  intros [Hl Hs Hn Hp] Ht. split; try done. intros j i xs n Hv Hx Hin.
  destruct (Hn j i xs n Hv Hx Hin) as (e & x & He & Hx' & Hsl & Hd). destruct (Ht _ e x He Hx') as (x' & Htx & Ex).
  exists e, x'. split_and!; try done. unfold due_at. by rewrite Ex.
Qed.
Lemma wheel_timer_unused now s tms W P a x : wheel now s tms W P -> P !! a = None -> wheel now s (<[a := x]> tms) W P.
Proof.
  intros Hw Ha. apply (wheel_timers now s tms); [done|]. intros b e y Hb Hy. exists y. split; [|done].
  rewrite lookup_insert_ne; [done|]. congruence.
Qed.

(** A block that is no node of the wheel becomes one, as [init_timer] leaves it. *)
Definition wheel_at (t : T) (W : gmap Z (list Z)) (P : gmap Z Z) : Prop := wheel (timer_ticks t) (wlinks t) (timers t) W P.
(** The expiry of a timer is less than half the range of the clock away. *)
Definition near (now e : Z) : Prop := is_u32 now /\ is_u32 e /\ e - now < 2147483648 /\ now - e <= 2147483648.

Lemma add_timer_run t W P a x : wheel_at t W P -> timers t !! a = Some x -> 0 < a -> P !! a = None ->
  W !! timer_entry a = Some [] -> near (timer_ticks t) (expires x) ->
  exists s' W', add_timer a ~{ t }~> tt; t <| wlinks := s' |> <| timers := <[a := x <| base := cpu_base |>]> (timers t) |> /\
    wheel (timer_ticks t) s' (<[a := x <| base := cpu_base |>]> (timers t)) W' (<[a := Z.max (timer_ticks t) (expires x)]> P) /\
    (forall z, is_Some (s' !! z) -> is_Some (wlinks t !! z)).
Proof.
  intros Hw Hx Hpos Ha Hn (Hu & He & Hd1 & Hd2). unfold add_timer. run (upd_timer_run t a x (fun y => y <| base := cpu_base |>) Hx).
  set (x' := x <| base := cpu_base |>). set (t1 := t <| timers := <[a := x']> (timers t) |>).
  assert (Hw1 : wheel (timer_ticks t) (wlinks t) (<[a := x']> (timers t)) W P) by (by apply wheel_timer_unused).
  assert (Hx1 : timers t1 !! a = Some x') by apply lookup_insert_eq.
  assert (Hslot : exists j i e, find_tvec (timer_ticks t) (expires x) = (i, j) /\ valid j i /\ in_slot (timer_ticks t) j i e /\
    due_at j x' e /\ e = Z.max (timer_ticks t) (expires x)).
  { destruct (Z.le_gt_cases (timer_ticks t) (expires x)) as [Hle|Hgt].
    - destruct (find_tvec_spec (timer_ticks t) (expires x)) as (j & i & Hf & Hv & Hs & _); [done|done|done|lia|].
      exists j, i, (expires x). split_and!; [done|done..|by left|lia].
    - destruct (find_tvec_late (timer_ticks t) (expires x)) as (Hf & Hv & Hs); [done|done|lia|lia|].
      exists 1, (timer_ticks t mod 256), (timer_ticks t). split_and!; [done|done..|right; split; [done|cbn; lia]|lia]. }
  destruct Hslot as (j & i & e & Hf & Hv & Hs & Hdue & ->).
  destruct (wheel_add _ _ _ _ _ Hw1 a x' j i _ Hpos Ha Hn Hx1 Hv Hs Hdue) as (s' & W' & Hr & Hw' & _);
    [unfold is_u32 in *; lia|].
  unfold add_timer_tvec_base. run (timer_at_run t1 a x' Hx1). tstep.
  change (timer_ticks t1) with (timer_ticks t). change (expires x') with (expires x). rewrite Hf.
  exists s', W'. split; [by rewrite (wl_run_at _ t1 _ _ _ Hr eq_refl)|]. split; [exact Hw'|]. by apply (insert_before_dom _ _ _ _ Hr).
Qed.

Lemma del_timer_run t W P a x e : wheel_at t W P -> timers t !! a = Some x -> P !! a = Some e ->
  exists s' W', del_timer a ~{ t }~> tt; t <| timers := <[a := x <| base := NULL |>]> (timers t) |> <| wlinks := s' |> /\
    wheel (timer_ticks t) s' (<[a := x <| base := NULL |>]> (timers t)) W' (delete a P) /\ W' !! timer_entry a = Some [].
Proof.
  intros Hw Hx Ha. unfold del_timer. run (upd_timer_run t a x (fun y => y <| base := NULL |>) Hx).
  set (x' := x <| base := NULL |>). set (t1 := t <| timers := <[a := x']> (timers t) |>).
  assert (Hx1 : timers t1 !! a = Some x') by apply lookup_insert_eq.
  assert (Hw1 : wheel (timer_ticks t) (wlinks t) (<[a := x']> (timers t)) W P).
  { apply (wheel_timers _ _ (timers t)); [done|]. intros b f y Hb Hy. destruct (decide (b = a)) as [->|Hne].
    - exists x'. simplify_eq. by rewrite lookup_insert_eq.
    - exists y. by rewrite lookup_insert_ne. }
  destruct (wheel_remove _ _ _ _ _ Hw1 a e Ha) as (s' & Hr & Hw' & _ & Hn).
  unfold rem_timer_tvec_base. run (timer_at_run t1 a x' Hx1). exists s', (unlink (timer_entry a) W). split; [|done].
  by rewrite (wl_run_at _ t1 _ _ _ Hr eq_refl).
Qed.

(** ** Sleepers

    [S] gives for each timer the data, the wait queue entry and the task of the
    sleeper that set it; [tasks0] and [L0] are the tasks and the lists of the
    processes before any of them was woken. *)
Definition fired (evs : list (Z * Z)) (a : Z) : Prop := a ∈ evs.*2.
Record sleepers (tasks0 : gmap Z task_struct) (L0 : gmap Z (list Z)) (S : gmap Z (Z * Z * Z)) (evs : list (Z * Z)) (t : T)
    (al : gmap Z Z) : Prop := {
  sl_heap : ha_ok (kx (kk t)) al;
  sl_lock : wq_locks (kk t) !! sleep_queue = Some 0;
  sl_queue : exists L Q, lists (links (kk t)) L /\ L !! sleep_queue = Some Q /\
    (forall a d w p, S !! a = Some (d, w, p) -> ~ fired evs a -> wait_node w ∈ Q) /\
    (forall h, h <> sleep_queue -> (forall a d w p, S !! a = Some (d, w, p) -> h <> wait_node w) -> L !! h = L0 !! h);
  sl_timers : forall a x, timers t !! a = Some x -> al !! a = Some sizeof_timer_list /\
    exists d w p, S !! a = Some (d, w, p) /\ function x = Some sleep_timeout_p /\ data x = d;
  sl_asleep : forall a d w p, S !! a = Some (d, w, p) -> ~ fired evs a -> al !! w = Some sizeof_wait_queue_entry_t /\
    al !! d = Some sizeof_sleep_data_t /\ (exists sd, sleeps t !! d = Some sd /\ sd_entry sd = w) /\
    (exists e, waits (kk t) !! w = Some e /\ wq_task e = p) /\
    (exists tp, tasks0 !! p = Some tp /\ state tp = TASK_UNINTERRUPTIBLE);
  sl_tasks : forall p, (forall a d w, S !! a = Some (d, w, p) -> ~ fired evs a) -> tasks (kk t) !! p = tasks0 !! p;
  sl_woken : forall a d w p, S !! a = Some (d, w, p) -> fired evs a ->
    tasks (kk t) !! p = (fun tp => tp <| state := TASK_RUNNING |>) <$> tasks0 !! p;
  sl_distinct : forall a d w p b f v q, S !! a = Some (d, w, p) -> S !! b = Some (f, v, q) -> a <> b -> d <> f /\ w <> v /\ p <> q
}.

Lemma remove_wait_queue_run (k : K) L h w Q : lists (links k) L -> L !! h = Some Q -> wait_node w ∈ Q -> wq_locks k !! h = Some 0 ->
  exists s, remove_wait_queue h w ~{ k }~> tt; k <| links := s |> /\
    lists s (<[wait_node w := []]> (<[h := filter (.≠ wait_node w) Q]> L)).
Proof.
  intros HL HQ Hin Hlk. unfold remove_wait_queue. run (lock_queue_run k h Hlk).
  destruct (lists_take (links k) L HL h (wait_node w) Q HQ Hin) as (s & Hr & Hl). runl Hr. exists s. split; [|done].
  match goal with |- unlock_queue h ?k1 = _ => rewrite (unlock_queue_run k1 h 1) by (apply lookup_insert_eq) end.
  do 2 f_equal. destruct k as [? ? ? ? ? ? ? ? ? ? ? lk ? ?]. cbn in *. by rewrite insert_insert_eq, insert_id.
Qed.

Lemma fired_snoc evs n a b : fired (evs ++ [(n, a)]) b <-> fired evs b \/ b = a.
Proof. unfold fired. rewrite fmap_app, elem_of_app. cbn. by rewrite list_elem_of_singleton. Qed.

(** What [sleep_timeout] makes of the processes. *)
Definition awake (k : K) (w p : Z) (tp : task_struct) (s : store) (x : X) : K :=
  k <| tasks := <[p := tp <| state := TASK_RUNNING |>]> (tasks k) |> <| links := delete (wait_node w) s |>
    <| kx := x |> <| waits := delete w (waits k) |>.

Lemma sleep_timeout_run t L Q al d sd e tp : sleeps t !! d = Some sd -> let w := sd_entry sd in waits (kk t) !! w = Some e ->
  tasks (kk t) !! wq_task e = Some tp -> state tp = TASK_UNINTERRUPTIBLE -> lists (links (kk t)) L -> L !! sleep_queue = Some Q ->
  wait_node w ∈ Q -> wq_locks (kk t) !! sleep_queue = Some 0 -> ha_ok (kx (kk t)) al -> al !! w = Some sizeof_wait_queue_entry_t ->
  exists s x, sleep_timeout d ~{ t }~> tt; t <| kk := awake (kk t) w (wq_task e) tp s x |> /\ ha_ok x (delete w al) /\
    lists (delete (wait_node w) s) (delete (wait_node w) (<[sleep_queue := filter (.≠ wait_node w) Q]> L)).
Proof.
  intros Hsd w He Hp Hst HL HQ Hin Hlk Hx Hal. unfold sleep_timeout.
  assert (Hrs : sleep_at d ~{ t }~> sd; t) by (by apply getsome_ok). run Hrs. fold w. set (k := kk t) in *.
  assert (Hrw : wait_at w ~{ k }~> e; k) by (by apply getsome_ok). runk Hrw.
  set (k1 := k <| tasks := <[wq_task e := tp <| state := TASK_RUNNING |>]> (tasks k) |>).
  assert (Hrc : call_wake_func w ~{ k }~> 1; k1).
  { unfold call_wake_func. run Hrw. destruct (wq_func e). unfold default_wake_function. run Hrw.
    unfold try_to_wake_up. kstep. rewrite Hst. cbn [Z.eqb Pos.eqb TASK_UNINTERRUPTIBLE orb]. by kstep. }
  runk Hrc. cbn [Z.eqb Pos.eqb].
  destruct (remove_wait_queue_run k1 L sleep_queue w Q HL HQ Hin Hlk) as (s & Hr2 & HL2). runk Hr2.
  destruct (ha_free_law (kx k) al w _ Hx Hal) as (x & Hrf & Hx2 & _).
  set (k3 := awake k w (wq_task e) tp s x).
  assert (Hr3 : free_wait_entry w ~{ k1 <| links := s |> }~> tt; k3) by (unfold free_wait_entry; by runs Hrf).
  runk Hr3. assert (Hr4 : task_at (wq_task e) ~{ k3 }~> tp <| state := TASK_RUNNING |>; k3) by (apply task_at_run, lookup_insert_eq).
  runk Hr4. exists s, x. split_and!; [done|done|].
  assert (Hd : delete (wait_node w) (<[sleep_queue := filter (.≠ wait_node w) Q]> L) =
    delete (wait_node w) (<[wait_node w := []]> (<[sleep_queue := filter (.≠ wait_node w) Q]> L))) by (by rewrite delete_insert_eq).
  rewrite Hd. apply (lists_drop _ _ HL2 _ []). apply lookup_insert_eq.
Qed.

Lemma sleeper_wake tasks0 L0 S evs t al a x : sleepers tasks0 L0 S evs t al -> timers t !! a = Some x -> ~ fired evs a ->
  exists t' al', timer_call (function x) (data x) ~{ t }~> tt; t' /\ sleepers tasks0 L0 S (evs ++ [(timer_ticks t, a)]) t' al' /\
    wlinks t' = wlinks t /\ timers t' = timers t /\ timer_ticks t' = timer_ticks t /\ base_lock t' = base_lock t /\
    ticks (kk t') = ticks (kk t).
Proof.
  intros [Hx Hlk (L & Q & HL & HQ & Hin & Hrest) Htm Has Htk Hwk Hdi] Ha Hno.
  destruct (Htm a x Ha) as (Hal & d & w & p & HS & Hfn & Hd).
  destruct (Has a d w p HS Hno) as (Hw & Hdd & (sd & Hsd & <-) & (e & He & <-) & (tp & Htp & Hst)). set (w := sd_entry sd) in *. set (p := wq_task e) in *.
  assert (Hp : tasks (kk t) !! p = Some tp).
  { rewrite Htk; [done|]. intros b f v Hb. destruct (decide (b = a)) as [->|Hne]; [done|].
    destruct (Hdi a d w p b f v p HS Hb) as (_ & _ & Hpp); [congruence|done]. }
  destruct (sleep_timeout_run t L Q al d sd e tp Hsd He Hp Hst HL HQ (Hin a d w p HS Hno) Hlk Hx Hw) as (s & x' & Hr & Hx' & HL').
  fold w p in Hr, Hx', HL'.
  exists (t <| kk := awake (kk t) w p tp s x' |>), (delete w al). split; [rewrite Hfn, Hd; exact Hr|]. split; [|done].
  assert (Hsame : forall b f v q, S !! b = Some (f, v, q) -> ~ fired (evs ++ [(timer_ticks t, a)]) b -> ~ fired evs b /\ b <> a)
    by (intros b f v q _; rewrite fired_snoc; tauto).
  split; try done.
  - eexists _, _. split; [exact HL'|]. split; [|split].
    + rewrite lookup_delete_ne; [by apply lookup_insert_eq|]. intros E. pose proof (ring_nodup _ _ (proj1 HL _ _ HQ)) as Hnd.
      apply NoDup_cons in Hnd as [Hnd _]. apply Hnd. rewrite <- E. by apply (Hin a d w p).
    + intros b f v q Hb Hnf. destruct (Hsame b f v q Hb Hnf) as [Hf Hne]. apply list_elem_of_filter. split; [|by apply (Hin b f v q)].
      destruct (Hdi a d w p b f v q HS Hb) as (_ & Hv & _); [congruence|]. unfold wait_node. lia.
    + intros h Hh Hout. rewrite lookup_delete_ne, lookup_insert_ne; [by apply Hrest|done|]. intros <-. by apply (Hout a d w p).
  - intros b y Hb. destruct (Htm b y Hb) as (Hbal & f & v & q & HSb & Hrest'). split; [|by exists f, v, q].
    rewrite lookup_delete_ne; [done|]. intros <-. rewrite Hw in Hbal. done.
  - intros b f v q Hb Hnf. destruct (Hsame b f v q Hb Hnf) as [Hf Hne]. destruct (Has b f v q Hb Hf) as (Hv & Hff & Hsl & (e' & He' & Eq) & Ht').
    destruct (Hdi a d w p b f v q HS Hb) as (_ & Hwv & _); [congruence|].
    split_and!; [by rewrite lookup_delete_ne|rewrite lookup_delete_ne; [done|intros <-; by rewrite Hw in Hff]|done|exists e'; split; [|done]; cbn; by rewrite lookup_delete_ne|done].
  - intros q Hq. assert (Hqp : q <> p). { intros ->. apply (Hq a d w HS). rewrite fired_snoc. by right. }
    cbn. rewrite lookup_insert_ne by done. apply Htk. intros b f v Hb Hf. apply (Hq b f v Hb). rewrite fired_snoc. by left.
  - intros b f v q Hb Hf%fired_snoc. cbn. destruct (decide (b = a)) as [->|Hne].
    + rewrite HS in Hb. simplify_eq. by rewrite lookup_insert_eq, Htp.
    + destruct (Hdi a d w p b f v q HS Hb) as (_ & _ & Hpq); [congruence|]. rewrite lookup_insert_ne by done.
      destruct Hf as [Hf|?]; [|done]. by apply (Hwk b f v q).
Qed.

#[export] Instance sleepers_client tasks0 L0 S : TimerClient timer_call (sleepers tasks0 L0 S).
Proof.
  split.
  - intros evs t al Hs. apply Hs.
  - intros evs t al a x Hs Ha. by destruct (sl_timers _ _ _ _ _ _ Hs a x Ha) as [? _].
  - intros evs t al t' [] E1 E2 E3 E4. split; rewrite ?E1, ?E2, ?E3; done.
  - intros evs t al a x Hs Ha Hno. by apply (sleeper_wake tasks0 L0 S evs t al a x).
  - intros evs t al a x [Hx Hlk Hq Htm Has Htk Hwk Hdi] Hf Ha Hx'. split; try done.
    + intros b y Hb. change (delete a (timers t) !! b = Some y) in Hb. apply lookup_delete_Some in Hb as [Hne Hb]. destruct (Htm b y Hb) as (Hbal & Hrest). split; [by rewrite lookup_delete_ne|done].
    + intros b d w p Hb Hnf. destruct (Has b d w p Hb Hnf) as (Hw & Hd & Hrest).
      split; [|split; [|done]]; (rewrite lookup_delete_ne; [done|]; intros ->); [by rewrite Hw in Ha|by rewrite Hd in Ha].
Qed.

(** ** Setting up *)
Lemma wheel_new now s tms W P a x n : wheel now s tms W P -> outside W (timer_entry a) -> P !! a = None -> 0 < a ->
  exists s', list_head_init (timer_entry a) ~{ <[timer_entry a := n]> s }~> tt; s' /\
    wheel now s' (<[a := x]> tms) (<[timer_entry a := []]> W) P /\
    (forall z, is_Some (s' !! z) <-> is_Some (s !! z) \/ z = timer_entry a).
Proof.
  intros Hw Hout Ha Hpos. pose proof (wheel_timer_unused _ _ _ _ _ a x Hw Ha) as [Hl Hs Hn Hp].
  destruct (lists_init _ _ (lists_new _ _ Hl (timer_entry a) n Hout) (timer_entry a) Hout) as (s' & Hr & Hl' & _ & Hdom); [by rewrite lookup_insert_eq|].
  assert (Hv : forall j i, valid j i -> <[timer_entry a := []]> W !! vec j i = W !! vec j i).
  { intros j i Hv. apply lookup_insert_ne. intros E. by apply (vec_neg j i a Hv Hpos). }
  exists s'. split; [done|]. split; [split; [done|..]|].
  - intros j i Hji. rewrite Hv by done. by apply Hs.
  - intros j i xs m Hji Hx. rewrite Hv in Hx by done. by apply Hn.
  - intros b e Hb. destruct (Hp b e Hb) as (Hr' & j & i & xs & Hji & Hx & Hin). split; [done|]. exists j, i, xs. by rewrite Hv.
  - intros z. rewrite Hdom. destruct (decide (z = timer_entry a)) as [->|Hne]; [rewrite lookup_insert_eq; naive_solver|].
    rewrite lookup_insert_ne by done. tauto.
Qed.

(** The nodes of a store lie in blocks in use or are static. *)
Definition nodes_owned (s : store) (al : gmap Z Z) : Prop :=
  forall z, is_Some (s !! z) -> z < 0 \/ exists p n, al !! p = Some n /\ p <= z < p + n.
Lemma nodes_owned_fresh s L al (x : X) q sz off : lists s L -> nodes_owned s al -> ha_ok x (<[q := sz]> al) -> al !! q = None ->
  0 <= off < sz -> outside L (q + off).
Proof.
  intros HL Hown Hx Hq Hoff h xs Hh Hin. pose proof (ha_positive x _ q sz Hx (lookup_insert_eq _ _ _)) as Hpos.
  destruct (Hown (q + off)) as [?|(p & n & Hp & Hr)]; [by apply (ring_some s (h :: xs)); [apply (proj1 HL)|]|lia|].
  assert (Hne : p <> q) by congruence.
  destruct (ha_disjoint x _ q sz p n Hx (lookup_insert_eq _ _ _)) as [?|[?|?]]; [by rewrite lookup_insert_ne|done|lia|lia].
Qed.
Lemma nodes_owned_insert s al q sz : nodes_owned s al -> al !! q = None -> nodes_owned s (<[q := sz]> al).
Proof.
  intros Hown Hq z Hz. destruct (Hown z Hz) as [?|(p & n & Hp & ?)]; [by left|right]. exists p, n. split; [|done].
  rewrite lookup_insert_ne; [done|]. intros ->. congruence.
Qed.
Lemma nodes_owned_add s s' al q sz off : nodes_owned s al -> al !! q = Some sz -> 0 <= off < sz ->
  (forall z, is_Some (s' !! z) -> is_Some (s !! z) \/ z = q + off) -> nodes_owned s' al.
Proof.
  intros Hown Hq Hoff Hs z Hz. destruct (Hs z Hz) as [Hz'| ->]; [by apply Hown|right]. exists q, sz. split; [done|lia].
Qed.

Lemma kop_err {A} (m : M K A) t e : m ~{ kk t }~>! e -> kop m ~{ t }~>! e.
Proof. intros Hm. unfold kop, zoom. by rewrite Hm. Qed.

(** A block of the heap. *)
Lemma alloc_run t al n m : ha_ok (kx (kk t)) al -> 0 < n < 65536 -> 0 <= m -> ha_room (kx (kk t)) (ha_cost n + m) ->
  kop (srv (ha_alloc n)) ~{ t }~>! FFatal \/
  exists a x, kop (srv (ha_alloc n)) ~{ t }~> a; t <| kk := (kk t) <| kx := x |> |> /\ ha_ok x (<[a := n]> al) /\
    al !! a = None /\ ha_room x m /\ 0 < a.
Proof.
  intros Hx Hn Hm Hroom. destruct (ha_alloc_law (kx (kk t)) al n m Hx Hn Hm Hroom) as [Herr|(a & x & Hr & Hx' & Ha & Hroom')].
  - left. by apply kop_err, srv_err.
  - right. exists a, x. pose proof (ha_positive x _ a _ Hx' (lookup_insert_eq _ _ _)) as Hpos. split_and!; try done.
    by apply kop_run, srv_run.
Qed.

Lemma upd_sleep_run t d sd f : sleeps t !! d = Some sd -> upd_sleep d f ~{ t }~> tt; t <| sleeps := <[d := f sd]> (sleeps t) |>.
Proof. intros Hd. unfold upd_sleep. by rewrite Hd. Qed.

(** A new timer. *)
Lemma new_timer_run t W P al m : wheel_at t W P -> nodes_owned (wlinks t) al -> ha_ok (kx (kk t)) al -> 0 <= m ->
  (forall a e, P !! a = Some e -> al !! a = Some sizeof_timer_list) ->
  ha_room (kx (kk t)) (ha_cost sizeof_timer_list + m) ->
  alloc_timer ~{ t }~>! FFatal \/
  exists a x s n, alloc_timer ~{ t }~> a; t <| kk := (kk t) <| kx := x |> |> <| wlinks := <[timer_entry a := n]> (wlinks t) |>
      <| timers := <[a := TimerList uninit uninit None uninit uninit]> (timers t) |> /\
    list_head_init (timer_entry a) ~{ <[timer_entry a := n]> (wlinks t) }~> tt; s /\
    (forall y, wheel (timer_ticks t) s (<[a := y]> (timers t)) (<[timer_entry a := []]> W) P) /\
    nodes_owned s (<[a := sizeof_timer_list]> al) /\
    ha_ok x (<[a := sizeof_timer_list]> al) /\ al !! a = None /\ ha_room x m /\ 0 < a /\ P !! a = None.
Proof.
  intros Hw Hown Hx Hm Hal Hroom. unfold alloc_timer.
  destruct (alloc_run t al sizeof_timer_list m Hx) as [Herr|(a & x & Hr & Hx' & Ha & Hroom' & Hpos)]; [done|done|done|left; by apply bind_err|right].
  assert (HPa : P !! a = None) by (destruct (P !! a) as [e|] eqn:E; [apply Hal in E; congruence|done]).
  assert (Hout : outside W (timer_entry a)) by (apply (nodes_owned_fresh (wlinks t) W al x a sizeof_timer_list 4); [apply Hw|done..]).
  destruct (wheel_new _ _ _ _ _ a (TimerList uninit uninit None uninit uninit) (Node NULL NULL) Hw Hout HPa Hpos) as (s & Hi & _ & Hdom).
  exists a, x, s, (Node NULL NULL). split_and!; try done.
  - run Hr. rewrite (proj2 (Z.eqb_neq a NULL)) by (unfold NULL; lia). done.
  - intros y. destruct (wheel_new _ _ _ _ _ a y (Node NULL NULL) Hw Hout HPa Hpos) as (s2 & Hi2 & Hw2 & _). rewrite Hi in Hi2. by simplify_eq.
  - apply (nodes_owned_add (wlinks t) s _ a sizeof_timer_list 4); [by apply nodes_owned_insert|by apply lookup_insert_eq|done|].
    intros z Hz. by apply Hdom.
Qed.

(** [init_timer] on a fresh timer, then its fields. *)
Lemma init_set_run {B} (c : M T B) t a n s e f d : list_head_init (timer_entry a) ~{ wlinks t }~> tt; s -> timers t !! a = Some n ->
  (init_timer a ;; now ← ticks_now; set_timer a (e now) f d ;; c) t =
    c (t <| wlinks := s |> <| timers := <[a := TimerList 0 (e (u32 (ticks (kk t)))) (Some f) d NULL]> (timers t) |>).
Proof.
  intros Hi Hn. unfold init_timer, set_timer. repeat tstep.
  match goal with |- context [wl _ ≫= _] => runw Hi end. repeat tstep.
  unfold ticks_now. match goal with |- context [(kop timer_get_ticks ≫= _) ?u] =>
    rewrite (bind_ok _ _ _ _ _ (kop_read timer_get_ticks u (u32 (ticks (kk u))) eq_refl)) end. repeat tstep.
  f_equal. cbn. rewrite !insert_insert_eq. done.
Qed.

(** [sleep_on] puts the current task to sleep. *)
Definition sleeping (k : K) (w : Z) (tp : task_struct) (s : store) (x : X) : K :=
  k <| tasks := <[curr k := tp <| state := TASK_UNINTERRUPTIBLE |>]> (tasks k) |> <| kx := x |>
    <| waits := <[w := WaitEntry 0 (curr k) default_wake_function_p]> (waits k) |> <| links := s |>.
Lemma sleep_on_run (k : K) L Q al h tp m : tasks k !! curr k = Some tp -> lists (links k) L -> L !! h = Some Q -> wq_locks k !! h = Some 0 ->
  ha_ok (kx k) al -> nodes_owned (links k) al -> 0 <= m -> ha_room (kx k) (ha_cost sizeof_wait_queue_entry_t + m) ->
  sleep_on h ~{ k }~>! FFatal \/
  exists w x s, sleep_on h ~{ k }~> w; sleeping k w tp s x /\ lists s (<[h := Q ++ [wait_node w]]> L) /\
    nodes_owned s (<[w := sizeof_wait_queue_entry_t]> al) /\ ha_ok x (<[w := sizeof_wait_queue_entry_t]> al) /\
    al !! w = None /\ outside L (wait_node w) /\ ha_room x m.
Proof.
  intros Htp HL HQ Hlk Hx Hown Hm Hroom. unfold sleep_on, scheduler_get_current_process, alloc_wait_entry. repeat kstep.
  set (k1 := k <| tasks := _ |>).
  destruct (ha_alloc_law (kx k) al sizeof_wait_queue_entry_t m Hx) as [Herr|(w & x & Hr & Hx' & Hw & Hroom')]; [done|done|done|left|right].
  { apply bind_err. by apply srv_err. }
  pose proof (ha_positive x _ w _ Hx' (lookup_insert_eq _ _ _)) as Hpos.
  runs Hr. rewrite (proj2 (Z.eqb_neq w NULL)) by (unfold NULL; lia). cbn [negb]. unfold new_node, init_waitqueue_entry, add_wait_queue. repeat kstep.
  match goal with |- context [(wait_at w ≫= _) ?u] =>
    assert (Hwt : waits u !! w = Some (WaitEntry 0 (curr k) default_wake_function_p)) by apply lookup_insert_eq;
    assert (Hrw : wait_at w ~{ u }~> WaitEntry 0 (curr k) default_wake_function_p; u) by (by apply getsome_ok); run Hrw end. repeat kstep.
  match goal with |- context [(lock_queue h ≫= _) ?u] => run (lock_queue_run u h Hlk) end. repeat kstep.
  assert (Hout : outside L (wait_node w)) by (by apply (nodes_owned_fresh (links k) L al x w sizeof_wait_queue_entry_t 12)).
  set (n := Node NULL NULL). pose proof (lists_new _ _ HL (wait_node w) n Hout) as HL1.
  assert (Hsn : is_Some (<[wait_node w := n]> (links k) !! wait_node w)) by (rewrite lookup_insert_eq; by eexists).
  destruct (lists_add_fresh _ _ HL1 (wait_node w) h Q Hout Hsn HQ) as (s & Hrs & HLs).
  destruct (insert_before_run _ h Q (wait_node w) (proj1 HL1 h Q HQ) (Hout h Q HQ) Hsn) as (s2 & Hrs2 & _ & _ & Hdom).
  rewrite Hrs in Hrs2. injection Hrs2 as <-.
  runl Hrs. repeat kstep.
  match goal with |- context [(unlock_queue h ≫= _) ?u] => run (unlock_queue_run u h 1 (lookup_insert_eq _ _ _)) end.
  exists w, x, s. split; [|split; [done|split; [|done]]].
  - unfold mret, M_ret. do 2 f_equal. unfold sleeping. destruct k as [? ? ? ? ? ? ? ? ? ? ? lk ? ?]. cbn in *.
    rewrite !insert_insert_eq, (insert_id lk) by done. done.
  - apply (nodes_owned_add (links k) s _ w sizeof_wait_queue_entry_t 12); [by apply nodes_owned_insert|by apply lookup_insert_eq|done|].
    intros z Hz. apply Hdom in Hz. destruct (decide (z = wait_node w)) as [->|Hne]; [by right|left]. by rewrite lookup_insert_ne in Hz.
Qed.

(** ** A kernel with sleepers *)
Record sleep_ok (S : gmap Z (Z * Z * Z)) (t : T) (W : gmap Z (list Z)) (P al : gmap Z Z) : Prop := {
  so_sleepers : exists L, sleepers (tasks (kk t)) L S [] t al;
  so_wheel : wheel_at t W P;
  so_links : nodes_owned (links (kk t)) al;
  so_wlinks : nodes_owned (wlinks t) al;
  so_dom : forall a, is_Some (S !! a) <-> is_Some (P !! a)
}.
Lemma wheel_timer now s tms W P a e : wheel now s tms W P -> P !! a = Some e -> is_Some (tms !! a).
Proof.
  intros Hw Ha. destruct (wh_pending _ _ _ _ _ Hw a e Ha) as (_ & j & i & xs & Hv & Hx & Hin).
  destruct (wh_nodes _ _ _ _ _ Hw j i xs _ Hv Hx Hin) as (e' & x & _ & Ht & _). rewrite entry_timer_entry in Ht. by eexists.
Qed.

Lemma not_fired_nil a : ~ fired [] a.
Proof. unfold fired. cbn. apply not_elem_of_nil. Qed.

(** One more sleeper. *)
Lemma sleepers_add L0 S t al k' s' a d w x tp L Q s tms sls al' :
  sleepers (tasks (kk t)) L0 S [] t al -> lists (links (kk t)) L -> L !! sleep_queue = Some Q ->
  (forall b f v q, S !! b = Some (f, v, q) -> wait_node v ∈ Q /\ q <> curr (kk t)) ->
  tasks (kk t) !! curr (kk t) = Some tp -> al !! d = None -> al !! a = None -> al !! w = None -> d <> a -> d <> w -> a <> w ->
  al' = <[w := sizeof_wait_queue_entry_t]> (<[a := sizeof_timer_list]> (<[d := sizeof_sleep_data_t]> al)) ->
  k' = sleeping (kk t) w tp s x -> ha_ok x al' -> lists s (<[sleep_queue := Q ++ [wait_node w]]> L) ->
  (exists sd, sls !! d = Some sd /\ sd_entry sd = w) -> (forall f, f <> d -> sls !! f = sleeps t !! f) ->
  (exists y, tms !! a = Some y /\ function y = Some sleep_timeout_p /\ data y = d) -> (forall b, b <> a -> tms !! b = timers t !! b) ->
  sleepers (tasks k') (<[sleep_queue := Q ++ [wait_node w]]> L) (<[a := (d, w, curr (kk t))]> S) []
    (t <| kk := k' |> <| wlinks := s' |> <| timers := tms |> <| sleeps := sls |>) al'.
Proof.
  intros [Hx Hlk Hq Htm Has Htk Hwk Hdi] HL HQ Hold Htp Hd Ha Hw Hda Hdw Haw -> -> Hx' HL' Hsd Hsls Hy Htms.
  assert (Hcase : forall b f v q, <[a := (d, w, curr (kk t))]> S !! b = Some (f, v, q) -> (b = a /\ f = d /\ v = w /\ q = curr (kk t)) \/ (b <> a /\ S !! b = Some (f, v, q))).
  { intros b f v q Hb. destruct (decide (b = a)) as [->|Hne]; [rewrite lookup_insert_eq in Hb; simplify_eq; by left|].
    rewrite lookup_insert_ne in Hb by done. by right. }
  assert (Hkeep : forall b n, al !! b = Some n -> <[w := sizeof_wait_queue_entry_t]> (<[a := sizeof_timer_list]> (<[d := sizeof_sleep_data_t]> al)) !! b = Some n).
  { intros b n Hb. rewrite !lookup_insert_ne by congruence. done. }
  split; try done.
  - eexists _, _. split; [exact HL'|]. split; [apply lookup_insert_eq|]. split; [|done].
    intros b f v q [(_ & _ & -> & _)|[_ Hb]]%Hcase _; [set_solver|]. destruct (Hold b f v q Hb). set_solver.
  - intros b y Hb. cbn in Hb. destruct (decide (b = a)) as [->|Hne].
    + destruct Hy as (y' & Hy' & Hf & Hdat). simplify_eq. split; [rewrite lookup_insert_ne, lookup_insert_eq by done; done|].
      exists (data y'), w, (curr (kk t)). by rewrite lookup_insert_eq.
    + rewrite Htms in Hb by done. destruct (Htm b y Hb) as (Hal & f & v & q & HS & Hrest). split; [by apply Hkeep|].
      exists f, v, q. by rewrite lookup_insert_ne.
  - intros b f v q [(-> & -> & -> & ->)|[Hne Hb]]%Hcase _; cbn.
    + split_and!; [by apply lookup_insert_eq|by rewrite !lookup_insert_ne, lookup_insert_eq by done|done| |].
      * eexists. by rewrite lookup_insert_eq.
      * eexists. by rewrite lookup_insert_eq.
    + destruct (Has b f v q Hb (not_fired_nil b)) as (Hv & Hf & (sd & Hsd' & Esd) & (e & He & Ee) & (tq & Htq & Hst)).
      destruct (Hold b f v q Hb) as [_ Hqc]. split_and!; [by apply Hkeep|by apply Hkeep| | |].
      * exists sd. rewrite Hsls by congruence. done.
      * exists e. rewrite lookup_insert_ne by congruence. done.
      * exists tq. rewrite lookup_insert_ne by congruence. done.
  - intros b f v q _ Hf. by destruct (not_fired_nil b).
  - intros b f v q b' f' v' q' Hb Hb' Hne. apply Hcase in Hb, Hb'.
    destruct Hb as [(-> & -> & -> & ->)|[N1 Hb]], Hb' as [(-> & -> & -> & ->)|[N2 Hb']]; try done.
    + destruct (Has _ _ _ _ Hb' (not_fired_nil b')) as (Hv & Hf & _). destruct (Hold _ _ _ _ Hb') as [_ Hqc].
      split_and!; congruence.
    + destruct (Has _ _ _ _ Hb (not_fired_nil b)) as (Hv & Hf & _). destruct (Hold _ _ _ _ Hb) as [_ Hqc]. split_and!; congruence.
    + by apply (Hdi b f v q b' f' v' q').
Qed.

Lemma sleep_ok_timers S t W P al a e : sleep_ok S t W P al -> P !! a = Some e -> al !! a = Some sizeof_timer_list.
Proof.
  intros [[L Hs] Hw _ _ _] Ha. destruct (wheel_timer _ _ _ _ _ a e Hw Ha) as [x Hx].
  by destruct (sl_timers _ _ _ _ _ _ Hs a x Hx).
Qed.

(** The timer of a sleep of [sec] seconds. *)
Definition wake_time (t : T) (sec : Z) : Z := u32 (u32 (ticks (kk t)) + u32 (TICKS_PER_SECOND * sec)).
Definition sleep_cost : Z := ha_cost sizeof_sleep_data_t + (ha_cost sizeof_timer_list + ha_cost sizeof_wait_queue_entry_t).

Lemma alloc_sleep_data_run t al m : ha_ok (kx (kk t)) al -> 0 <= m -> ha_room (kx (kk t)) (ha_cost sizeof_sleep_data_t + m) ->
  alloc_sleep_data ~{ t }~>! FFatal \/
  exists d x, alloc_sleep_data ~{ t }~> d; t <| kk := (kk t) <| kx := x |> |> <| sleeps := <[d := SleepData uninit uninit]> (sleeps t) |> /\
    ha_ok x (<[d := sizeof_sleep_data_t]> al) /\ al !! d = None /\ ha_room x m.
Proof.
  intros Hx Hm Hroom. unfold alloc_sleep_data.
  destruct (alloc_run t al sizeof_sleep_data_t m Hx) as [Herr|(d & x & Hr & Hx' & Hd & Hroom' & Hpos)]; [done|done|done|left; by apply bind_err|right].
  exists d, x. split_and!; try done. run Hr. rewrite (proj2 (Z.eqb_neq d NULL)) by (unfold NULL; lia). done.
Qed.

(** Before it goes to sleep, [sys_nanosleep] has the data [d] and the timer [a]. *)
Definition armed (t : T) (d a : Z) (x : X) (s : store) (y : timer_list) (rem : Z) : T :=
  t <| kk := (kk t) <| kx := x |> |> <| sleeps := <[d := SleepData uninit rem]> (sleeps t) |> <| wlinks := s |>
    <| timers := <[a := y]> (timers t) |>.
Definition sleep_timer (t : T) (sec d : Z) : timer_list := TimerList 0 (wake_time t sec) (Some sleep_timeout_p) d NULL.

Record prepared (S : gmap Z (Z * Z * Z)) (t : T) (W : gmap Z (list Z)) (P al : gmap Z Z) (req : timespec) (rem m d a : Z) (x : X) (s : store) : Prop := {
  pr_rest : sys_nanosleep req rem t = (entry ← kop (sleep_on sleep_queue); upd_sleep d (fun s => s <| sd_entry := entry |>) ;;
         add_timer a ;; mret (-1)) (armed t d a x s (sleep_timer t (ts_sec req) d) rem);
  pr_wheel : wheel (timer_ticks t) s (<[a := sleep_timer t (ts_sec req) d]> (timers t)) (<[timer_entry a := []]> W) P;
  pr_wlinks : nodes_owned s (<[a := sizeof_timer_list]> (<[d := sizeof_sleep_data_t]> al));
  pr_heap : ha_ok x (<[a := sizeof_timer_list]> (<[d := sizeof_sleep_data_t]> al));
  pr_room : ha_room x (ha_cost sizeof_wait_queue_entry_t + m);
  pr_data : al !! d = None;
  pr_timer : <[d := sizeof_sleep_data_t]> al !! a = None;
  pr_pos : 0 < a;
  pr_free : P !! a = None
}.

Lemma nanosleep_prepare S t W P al req rem m : sleep_ok S t W P al -> 0 <= m -> ha_room (kx (kk t)) (sleep_cost + m) ->
  sys_nanosleep req rem ~{ t }~>! FFatal \/ exists d a x s, prepared S t W P al req rem m d a x s.
Proof.
  intros Hok Hm Hroom. pose proof (fun a e => sleep_ok_timers S t W P al a e Hok) as HPal.
  destruct Hok as [[L0 Hs] Hw _ Hwo _]. pose proof (sl_heap _ _ _ _ _ _ Hs) as Hx.
  unfold sleep_cost in Hroom. pose proof (ha_cost_law sizeof_timer_list ltac:(done)) as Hc1. pose proof (ha_cost_law sizeof_wait_queue_entry_t ltac:(done)) as Hc2.
  assert (Hm1 : 0 <= ha_cost sizeof_wait_queue_entry_t + m) by lia.
  destruct (alloc_sleep_data_run t al (ha_cost sizeof_timer_list + (ha_cost sizeof_wait_queue_entry_t + m)) Hx) as [Herr|(d & x1 & Hr1 & Hx1 & Hd & Hroom1)];
    [lia|by rewrite <- !Z.add_assoc in Hroom|left; unfold sys_nanosleep; by apply bind_err|].
  set (t1 := t <| kk := _ |> <| sleeps := _ |>) in Hr1. set (al1 := <[d := sizeof_sleep_data_t]> al) in *.
  set (t2 := t1 <| sleeps := <[d := SleepData uninit rem]> (sleeps t1) |>).
  assert (Hr2 : upd_sleep d (fun s => s <| sd_rem := rem |>) ~{ t1 }~> tt; t2).
  { apply (upd_sleep_run t1 d (SleepData uninit uninit)). apply lookup_insert_eq. }
  assert (Hwo1 : nodes_owned (wlinks t2) al1) by (by apply nodes_owned_insert).
  assert (HPal1 : forall a e, P !! a = Some e -> al1 !! a = Some sizeof_timer_list).
  { intros a e Ha. unfold al1. rewrite lookup_insert_ne; [by apply (HPal a e)|]. intros <-. rewrite (HPal _ _ Ha) in Hd. done. }
  destruct (new_timer_run t2 W P al1 (ha_cost sizeof_wait_queue_entry_t + m) Hw Hwo1 Hx1 Hm1 HPal1 Hroom1)
    as [Herr|(a & x2 & s2 & n & Hr3 & Hi & Hw2 & Hwo2 & Hx2 & Ha & Hroom2 & Hpos & HPa)].
  { left. unfold sys_nanosleep. run Hr1. run Hr2. by apply bind_err. }
  right. exists d, a, x2, s2. split; try done.
  set (t3 := t2 <| kk := _ |> <| wlinks := _ |> <| timers := _ |>) in Hr3.
  unfold sys_nanosleep. run Hr1. run Hr2. run Hr3.
  rewrite (init_set_run _ t3 a (TimerList uninit uninit None uninit uninit) s2 (fun now => u32 (now + u32 (TICKS_PER_SECOND * ts_sec req)))
    sleep_timeout_p d Hi (lookup_insert_eq _ _ _)).
  f_equal. unfold armed. cbn. rewrite !insert_insert_eq. done.
Qed.

Lemma nanosleep_run S t W P al tp req rem m : sleep_ok S t W P al -> tasks (kk t) !! curr (kk t) = Some tp ->
  (forall a d w p, S !! a = Some (d, w, p) -> p <> curr (kk t)) ->
  near (timer_ticks t) (wake_time t (ts_sec req)) -> 0 <= m -> ha_room (kx (kk t)) (sleep_cost + m) ->
  sys_nanosleep req rem ~{ t }~>! FFatal \/
  exists t' a d w W' al', sys_nanosleep req rem ~{ t }~> -1; t' /\ S !! a = None /\
    sleep_ok (<[a := (d, w, curr (kk t))]> S) t' W' (<[a := Z.max (timer_ticks t) (wake_time t (ts_sec req))]> P) al' /\
    tasks (kk t') = <[curr (kk t) := tp <| state := TASK_UNINTERRUPTIBLE |>]> (tasks (kk t)) /\
    timer_ticks t' = timer_ticks t /\ base_lock t' = base_lock t /\ ticks (kk t') = ticks (kk t) /\ curr (kk t') = curr (kk t) /\
    ha_room (kx (kk t')) m.
Proof.
  intros Hok Htp Hnot Hnear Hm Hroom.
  destruct (nanosleep_prepare S t W P al req rem m Hok Hm Hroom) as [|(d & a & x & s & [Hpre Hw2 Hwo2 Hx2 Hroom2 Hd Ha Hpos HPa])]; [by left|].
  destruct Hok as [[L0 Hs] Hw Hlo _ Hdom]. pose proof Hs as [Hx Hlk (L & Q & HL & HQ & Hin & Hout) _ _ _ _ _].
  set (y := sleep_timer t (ts_sec req) d) in *. set (t4 := armed t d a x s y rem) in *. set (al2 := <[a := sizeof_timer_list]> _) in *.
  assert (Hlo2 : nodes_owned (links (kk t4)) al2) by (apply nodes_owned_insert; [by apply nodes_owned_insert|done]).
  destruct (sleep_on_run (kk t4) L Q al2 sleep_queue tp m Htp HL HQ Hlk Hx2 Hlo2 Hm Hroom2)
    as [Herr|(w & x3 & s3 & Hr5 & HL3 & Hlo3 & Hx3 & Hwn & Hwout & Hroom3)]; [left; rewrite Hpre; by apply bind_err, kop_err|right].
  set (k5 := sleeping (kk t4) w tp s3 x3) in *. set (t5 := t4 <| kk := k5 |>).
  set (t6 := t5 <| sleeps := <[d := SleepData w rem]> (sleeps t5) |>).
  assert (Hr6 : upd_sleep d (fun s => s <| sd_entry := w |>) ~{ t5 }~> tt; t6).
  { apply (upd_sleep_run t5 d (SleepData uninit rem)). apply lookup_insert_eq. }
  destruct (add_timer_run t6 (<[timer_entry a := []]> W) P a y) as (s7 & W7 & Hr7 & Hw7 & Hd7);
    [exact Hw2|apply lookup_insert_eq|done|done|apply lookup_insert_eq|exact Hnear|].
  set (y' := y <| base := cpu_base |>) in *. set (t7 := t6 <| wlinks := s7 |> <| timers := _ |>) in Hr7.
  assert (Hrun : sys_nanosleep req rem ~{ t }~> -1; t7).
  { rewrite Hpre. rewrite (bind_ok _ _ _ _ _ (kop_run_at _ t4 _ _ _ Hr5 eq_refl)). run Hr6. by run Hr7. }
  apply lookup_insert_None in Ha as [Ha Hda]. apply lookup_insert_None in Hwn as [Hwn Haw]. apply lookup_insert_None in Hwn as [Hwn Hdw].
  exists t7, a, d, w, W7, (<[w := sizeof_wait_queue_entry_t]> al2). split; [exact Hrun|]. split; [|split; [split|done]].
  - destruct (S !! a) eqn:E; [|done]. assert (Hsome : is_Some (S !! a)) by (by rewrite E). apply Hdom in Hsome as [e He]. congruence.
  - exists (<[sleep_queue := Q ++ [wait_node w]]> L). apply (sleepers_add L0 S t al k5 s7 a d w x3 tp L Q s3 (timers t7) (sleeps t7)); try done.
    + intros b f v q Hb. split; [by apply (Hin b f v q Hb), not_fired_nil|by apply (Hnot b f v q)].
    + exists (SleepData w rem). split; [apply lookup_insert_eq|done].
    + intros f Hf. cbn. by rewrite !lookup_insert_ne.
    + exists y'. split; [apply lookup_insert_eq|done].
    + intros b Hb. cbn. by rewrite !lookup_insert_ne.
  - exact Hw7.
  - exact Hlo3.
  - apply nodes_owned_insert; [|by unfold al2; rewrite !lookup_insert_ne]. intros z Hz. by apply Hwo2, Hd7.
  - intros b. destruct (decide (b = a)) as [->|Hne]; [rewrite !lookup_insert_eq; split; intros _; by eexists|].
    rewrite !lookup_insert_ne by done. apply Hdom.
Qed.

(** ** The empty wheel *)
Definition heads (l : list Z) : gmap Z (list Z) := list_to_map ((fun h => (h, [])) <$> l).
Lemma heads_lookup l h xs : heads l !! h = Some xs <-> xs = [] /\ h ∈ l.
Proof.
  induction l as [|x l IH]; cbn; [rewrite lookup_empty, elem_of_nil; naive_solver|]. change (list_to_map _) with (heads l).
  destruct (decide (h = x)) as [->|Hne].
  - rewrite lookup_insert_eq, elem_of_cons. naive_solver.
  - rewrite lookup_insert_ne, IH, elem_of_cons by done. naive_solver.
Qed.
Lemma heads_init s l h : lists s (heads l) -> h ∉ l -> is_Some (s !! h) -> exists s', list_head_init h ~{ s }~> tt; s' /\
  lists s' (heads (h :: l)) /\ forall x, is_Some (s' !! x) <-> is_Some (s !! x).
Proof.
  intros Hl Hh Hs. destruct (lists_init s (heads l) Hl h) as (s' & Hr & Hl' & _ & Hd); [|done|by exists s'].
  intros k xs [-> Hk]%heads_lookup Hin. apply list_elem_of_singleton in Hin as ->. done.
Qed.
(** The heads of the slots of the vectors in [js] before index [i]. *)
Definition slots_in (js : list Z) (i : Z) (h : Z) : Prop := exists j k, j ∈ js /\ 0 <= k < i /\ h = vec j k.
Definition wheel_heads (h : Z) : Prop := exists j i, valid j i /\ h = vec j i.

Lemma empty_wheel now s tms l : lists s (heads l) -> (forall h, wheel_heads h -> h ∈ l) -> wheel now s tms (heads l) ∅.
Proof.
  intros Hl Hh. split; [done|..].
  - intros j i Hv. exists []. apply heads_lookup. split; [done|]. apply Hh. by exists j, i.
  - intros j i xs n Hv [-> _]%heads_lookup Hn. by apply not_elem_of_nil in Hn.
  - intros a e Ha. done.
Qed.

(** Initialising one more slot of some vectors. *)
Lemma install_slots js : NoDup js -> (forall j, j ∈ js -> 1 <= j <= 5) -> forall t l i, 0 <= i -> (forall j, j ∈ js -> i < slots j) ->
  lists (wlinks t) (heads l) -> (forall j, j ∈ js -> vec j i ∉ l) -> (forall h, wheel_heads h -> is_Some (wlinks t !! h)) ->
  exists s' l', foldr (fun j m => wl (list_head_init (vec j i)) ;; m) (mret tt) js ~{ t }~> tt; t <| wlinks := s' |> /\
    lists s' (heads l') /\ (forall h, h ∈ l' <-> h ∈ l \/ exists j, j ∈ js /\ h = vec j i) /\
    (forall h, wheel_heads h -> is_Some (s' !! h)).
Proof.
  intros Hnd. induction Hnd as [|j js Hj Hnd IH]; intros Hr t l i Hi Hb Hl Hfresh Hdom; cbn [foldr].
  - exists (wlinks t), l. split_and!; [by destruct t|done| |done]. intros h. split; [by left|]. intros [?|(j & Hj & _)]; [done|].
    by apply not_elem_of_nil in Hj.
  - assert (Hv : valid j i) by (split; [apply Hr; by left|split; [done|apply Hb; by left]]).
    destruct (heads_init (wlinks t) l (vec j i) Hl) as (s1 & Hr1 & Hl1 & Hd1); [apply Hfresh; by left|apply Hdom; by exists j, i|].
    rewrite (bind_ok _ _ _ _ _ (wl_run _ t _ _ Hr1)).
    destruct (IH ltac:(intros; apply Hr; by right) (t <| wlinks := s1 |>) (vec j i :: l) i Hi) as (s' & l' & Hr' & Hl' & Hin' & Hd');
      [intros; apply Hb; by right|done| |intros h Hh; apply Hd1; by apply Hdom|].
    + intros k Hk [E|Hin]%elem_of_cons; [|by apply (Hfresh k); [right|]].
      assert (Hvk : valid k i) by (split; [apply Hr; by right|split; [done|apply Hb; by right]]).
      destruct (vec_inj k i j i Hvk Hv E) as [-> _]. done.
    + exists s', l'. split; [exact Hr'|]. split; [done|]. split; [|done]. intros h. rewrite Hin', elem_of_cons. split.
      * intros [[->|?]|(k & Hk & ->)]; [right; exists j; split; [by left|done]|by left|right; exists k; split; [by right|done]].
      * intros [?|(k & [->|Hk]%elem_of_cons & ->)]; [by left; right|left; by left|right; by exists k].
Qed.

Lemma install_loop js n t l : NoDup js -> (forall j, j ∈ js -> 1 <= j <= 5 /\ Z.of_nat n <= slots j) ->
  lists (wlinks t) (heads l) -> (forall j k, j ∈ js -> 0 <= k < Z.of_nat n -> vec j k ∉ l) ->
  (forall h, wheel_heads h -> is_Some (wlinks t !! h)) ->
  exists s' l', for_range n 0 (fun i => foldr (fun j m => wl (list_head_init (vec j i)) ;; m) (mret tt) js) ~{ t }~> tt; t <| wlinks := s' |> /\
    lists s' (heads l') /\ (forall h, h ∈ l' <-> h ∈ l \/ slots_in js (Z.of_nat n) h) /\ (forall h, wheel_heads h -> is_Some (s' !! h)).
Proof.
  intros Hnd Hjs Hl Hfresh Hdom.
  destruct (for_range_ok (fun i t' => 0 <= i <= Z.of_nat n /\ exists s' l', t' = t <| wlinks := s' |> /\ lists s' (heads l') /\
      (forall h, h ∈ l' <-> h ∈ l \/ slots_in js i h) /\ (forall h, wheel_heads h -> is_Some (s' !! h))) n 0
    (fun i => foldr (fun j m => wl (list_head_init (vec j i)) ;; m) (mret tt) js) t) as (t' & Hr & _ & s' & l' & -> & H3 & H4 & H5).
  - split; [lia|]. exists (wlinks t), l. split_and!; [by destruct t|done| |done]. intros h. split; [by left|].
    intros [?|(j & k & _ & Hk & _)]; [done|lia].
  - intros i t1 Hi [_ (s1 & l1 & -> & Hl1 & Hin1 & Hd1)].
    destruct (install_slots js Hnd ltac:(intros; by apply Hjs) (t <| wlinks := s1 |>) l1 i) as (s2 & l2 & Hr2 & Hl2 & Hin2 & Hd2);
      [lia|intros j Hj; destruct (Hjs j Hj); lia|done| |done|].
    + intros j Hj [Hin|(k & m & Hk & Hm & E)]%Hin1; [by apply (Hfresh j i); [|lia|]|].
      destruct (Hjs j Hj) as [Hj1 Hj2], (Hjs k Hk) as [Hk1 Hk2].
      assert (Hvj : valid j i) by (split; [done|lia]). assert (Hvk : valid k m) by (split; [done|lia]).
      destruct (vec_inj j i k m Hvj Hvk E) as [_ ->]. lia.
    + eexists. split; [exact Hr2|]. split; [lia|]. exists s2, l2. split; [done|]. split; [done|]. split; [|done].
      intros h. rewrite Hin2, Hin1. split.
      * intros [[?|(j & k & Hj & Hk & ->)]|(j & Hj & ->)]; [by left|right; exists j, k; split_and!; [done|lia|lia|done]|right; exists j, i; split_and!; [done|lia|lia|done]].
      * intros [?|(j & k & Hj & Hk & ->)]; [by left; left|]. destruct (decide (k = i)) as [->|]; [right; by exists j|].
        left. right. exists j, k. split_and!; [done|lia|lia|done].
  - exists s', l'. split_and!; done.
Qed.

Lemma for_range_ext n a (f g : Z -> M T unit) : (forall i t, f i t = g i t) -> forall t, for_range n a f t = for_range n a g t.
Proof.
  intros Hfg. revert a. induction n as [|n IH]; intros a t; [done|]. cbn [for_range]. unfold mbind, M_bind. rewrite Hfg.
  destruct (g a t) as [[[] t1]|]; [apply IH|done].
Qed.
Lemma then_ret (m : M T unit) t : (m ;; mret tt) t = m t.
Proof. unfold mbind, M_bind. by destruct (m t) as [[[] ?]|]. Qed.
Lemma bind_ext {A} (m : M T unit) (f g : M T A) t : (forall t, f t = g t) -> (m ;; f) t = (m ;; g) t.
Proof. intros Hfg. unfold mbind, M_bind. destruct (m t) as [[[] ?]|]; [apply Hfg|done]. Qed.

(** [dynamic_timers_install] empties every slot of the five vectors and the
    queue of the sleepers: no timer is pending and the time of the wheel is 0. *)
Theorem timers_install_correct t L : (forall h, wheel_heads h -> is_Some (wlinks t !! h)) ->
  lists (links (kk t)) L -> outside L sleep_queue -> is_Some (links (kk t) !! sleep_queue) -> is_Some (wq_locks (kk t) !! sleep_queue) ->
  exists t' W, dynamic_timers_install ~{ t }~> tt; t' /\ timer_ticks t' = 0 /\ wheel_at t' W ∅ /\
    lists (links (kk t')) (<[sleep_queue := []]> L) /\ wq_locks (kk t') !! sleep_queue = Some 0 /\ timers t' = timers t.
Proof.
  intros Hdom HL Hout Hsq [lk Hlk]. unfold dynamic_timers_install. tstep. set (t0 := t <| timer_ticks := 0 |>).
  assert (Hnil : lists (wlinks t0) (heads [])) by (split; [intros h xs Hh|intros h k xs ys x Hh]; by apply heads_lookup in Hh as [_ Hh%not_elem_of_nil]).
  destruct (install_loop [1] (Z.to_nat TVR_SIZE) t0 []) as (s1 & l1 & Hr1 & Hl1 & Hin1 & Hd1);
    [apply NoDup_singleton|intros j ->%list_elem_of_singleton; by split|done|intros; by apply not_elem_of_nil|done|].
  set (t1 := t0 <| wlinks := s1 |>) in *.
  rewrite <- (for_range_ext _ _ (fun i => wl (list_head_init (vec 1 i)))) in Hr1 by (intros i u; cbn [foldr]; by rewrite then_ret). run Hr1.
  destruct (install_loop [2; 3; 4; 5] (Z.to_nat TVN_SIZE) t1 l1) as (s2 & l2 & Hr2 & Hl2 & Hin2 & Hd2); [..|done|].
  { apply (bool_decide_unpack _). by vm_compute. }
  { intros j Hj. rewrite !elem_of_cons, elem_of_nil in Hj. destruct Hj as [->|[->|[->|[->|[]]]]]; by split. }
  { done. }
  { intros j k Hj Hk [[]%not_elem_of_nil|(i & m & ->%list_elem_of_singleton & Hm & E)]%Hin1.
    assert (Hv : valid j k) by (rewrite !elem_of_cons, elem_of_nil in Hj; destruct Hj as [->|[->|[->|[->|[]]]]]; by split).
    destruct (vec_inj j k 1 m Hv) as [-> _]; [by split|done|]. rewrite !elem_of_cons, elem_of_nil in Hj. lia. }
  rewrite <- (for_range_ext _ _ (fun i => wl (list_head_init (vec 2 i)) ;; wl (list_head_init (vec 3 i)) ;; wl (list_head_init (vec 4 i)) ;;
    wl (list_head_init (vec 5 i)))) in Hr2 by (intros i u; cbn [foldr]; do 3 (apply bind_ext; intros ?); by rewrite then_ret). run Hr2.
  set (t2 := t1 <| wlinks := s2 |>).
  destruct (lists_init _ L HL sleep_queue Hout Hsq) as (s3 & Hr3 & HL3 & _ & _).
  runk (lnk_run_at _ (kk t2) _ _ _ Hr3 eq_refl).
  eexists _, (heads l2). split; [match goal with |- kop _ ?u = _ => exact (kop_run _ u _ _ (unlock_queue_run (kk u) sleep_queue lk Hlk)) end|].
  split_and!; [done| |exact HL3|by apply lookup_insert_eq|done].
  apply empty_wheel; [exact Hl2|]. intros h (j & i & [Hj Hi] & ->). apply Hin2. destruct (decide (j = 1)) as [->|Hne].
  - left. apply Hin1. right. exists 1, i. split_and!; [by left|apply Hi|apply Hi|done].
  - right. exists j, i. split; [|split; [|done]].
    + rewrite !elem_of_cons. lia.
    + replace (slots j) with 64 in Hi by (by levels Hj). exact Hi.
Qed.

(** ** Running the timers *)
Lemma softirq_run call I `{!TimerClient call I} t W P al : I [] t al -> base_lock t = 0 -> wheel_at t W P ->
  let c := u32 (ticks (kk t)) in 0 <= timer_ticks t <= c + 1 -> c + 1 < 4294967296 ->
  exists t' W' al' evs, run_timer_softirq_with call ~{ t }~> tt; t' /\ timer_ticks t' = c + 1 /\ base_lock t' = 0 /\
    ticks (kk t') = ticks (kk t) /\ wheel_at t' W' (filter (fun p => c < p.2) P) /\ I evs t' al' /\
    StronglySorted (fun p q : Z * Z => p.1 <= q.1) evs /\ NoDup evs.*2 /\ forall e a, (e, a) ∈ evs <-> P !! a = Some e /\ e <= c.
Proof.
  intros HI Hlock Hw c Hnow Hc. unfold run_timer_softirq_with. run (lock_base_run t Hlock). set (t0 := t <| base_lock := 1 |>).
  unfold ticks_now. rewrite (bind_ok _ _ _ _ _ (kop_read timer_get_ticks t0 c eq_refl)). tstep.
  assert (Hrun : running I P (ticks (kk t)) (timer_ticks t) (timer_ticks t - 1) t0 W P).
  { split; try done. exists [], al. split; [|by apply (tc_same [] t)]. split; try done.
    - intros e a. rewrite elem_of_nil. split; [done|]. intros [H1 H2]. congruence.
    - apply NoDup_nil_2.
    - constructor.
    - intros e a Hin. by apply not_elem_of_nil in Hin. }
  destruct (run_ticks_run call I P (ticks (kk t)) (S (Z.to_nat (c + 1 - timer_ticks t))) _ t0 W P Hrun)
    as (t1 & W1 & P1 & Hr1 & [Hn1 Hk1 Hl1 Hw1 (evs & al1 & [Hsub Hf Ho Hs Hp] & HI1)]); [lia|done|fold c; lia|fold c; lia|].
  fold c in Hr1, Hn1, Hw1, Hp. change (timer_ticks t0) with (timer_ticks t). run Hr1. repeat tstep.
  eexists _, W1, al1, evs. split; [reflexivity|].
  assert (Hev : forall e a, (e, a) ∈ evs <-> P !! a = Some e /\ e <= c).
  { intros e a. split; [intros Hin; split; [by apply Hf|by apply (Hp e a)]|]. intros [He Hle]. apply Hf. split; [done|].
    destruct (P1 !! a) as [f|] eqn:E; [|done]. pose proof (Hsub _ _ E). destruct (wh_pending _ _ _ _ _ Hw1 a f E) as [[_ Hr] _].
    simplify_eq. lia. }
  assert (EP : filter (fun p => c < p.2) P = P1).
  { apply map_eq. intros a. apply option_eq. intros e. rewrite map_lookup_filter_Some. cbn. split.
    - intros [Ha Hlt]. destruct (P1 !! a) as [f|] eqn:E; [apply Hsub in E; congruence|].
      assert (Hin : (e, a) ∈ evs) by (by apply Hf). apply Hev in Hin. lia.
    - intros E. split; [by apply Hsub|]. destruct (wh_pending _ _ _ _ _ Hw1 a e E) as [[_ Hr] _]. lia. }
  split_and!; [done|done|done| |by apply (tc_same evs t1)|done|done|done].
  rewrite EP. unfold wheel_at. cbn. rewrite Hn1. exact Hw1.
Qed.

(** C8: whoever the timers belong to, [run_timer_softirq] runs exactly the timers
    that are due, each of them once and in the order of their ticks, at the tick
    each is due at; it keeps the others pending, catches up with the clock and
    ends. *)
Theorem softirq_correct call I t W P al : TimerClient call I -> I [] t al -> base_lock t = 0 -> wheel_at t W P ->
  let c := u32 (ticks (kk t)) in 0 <= timer_ticks t <= c + 1 -> c + 1 < 4294967296 ->
  exists t' W' al' evs, run_timer_softirq_with call ~{ t }~> tt; t' /\ timer_ticks t' = c + 1 /\ base_lock t' = 0 /\
    ticks (kk t') = ticks (kk t) /\ wheel_at t' W' (filter (fun p => c < p.2) P) /\ I evs t' al' /\
    StronglySorted (fun p q : Z * Z => p.1 <= q.1) evs /\ NoDup evs.*2 /\ forall e a, (e, a) ∈ evs <-> P !! a = Some e /\ e <= c.
Proof. intros Hcl HI Hlock Hw c. by apply (softirq_run call I t W P al). Qed.

(** A timer that is added to the wheel is pending for its expiry, or at once
    when that has passed, whatever slot it goes to; deleting it, at once or
    later, makes the pending timers what they were. *)
Theorem add_del_timer_correct t W P a x : wheel_at t W P -> timers t !! a = Some x -> 0 < a -> P !! a = None ->
  W !! timer_entry a = Some [] -> near (timer_ticks t) (expires x) ->
  exists t' W', add_timer a ~{ t }~> tt; t' /\ wheel_at t' W' (<[a := Z.max (timer_ticks t) (expires x)]> P) /\ kk t' = kk t /\
    (forall t1 W1 P1 e, wheel_at t1 W1 P1 -> P1 !! a = Some e -> exists t2 W2, del_timer a ~{ t1 }~> tt; t2 /\
       wheel_at t2 W2 (delete a P1) /\ W2 !! timer_entry a = Some [] /\ kk t2 = kk t1) /\
    delete a (<[a := Z.max (timer_ticks t) (expires x)]> P) = P.
Proof.
  intros Hw Hx Hpos Ha Hn Hnear. destruct (add_timer_run t W P a x Hw Hx Hpos Ha Hn Hnear) as (s & W' & Hr & Hw' & _).
  eexists _, W'. split; [exact Hr|]. split; [exact Hw'|]. split; [done|]. split; [|by rewrite delete_insert_eq, delete_id].
  intros t1 W1 P1 e Hw1 Ha1. destruct (wheel_timer _ _ _ _ _ a e Hw1 Ha1) as [y Hy].
  destruct (del_timer_run t1 W1 P1 a y e Hw1 Hy Ha1) as (s2 & W2 & Hr2 & Hw2 & Hn2). eexists _, W2. split; [exact Hr2|]. by split.
Qed.

(** The clock moves on. *)
Definition at_time (n : Z) (t : T) : T := t <| kk := (kk t) <| ticks := n |> |>.
Lemma sleepers_time tasks0 L0 S evs t al n : sleepers tasks0 L0 S evs t al -> sleepers tasks0 L0 S evs (at_time n t) al.
Proof. intros []. by split. Qed.

(** Running the timers of sleepers wakes those that are due. *)
Lemma sleepers_run tasks0 L S t W P al : sleepers tasks0 L S [] t al -> base_lock t = 0 -> wheel_at t W P ->
  let c := u32 (ticks (kk t)) in 0 <= timer_ticks t <= c + 1 -> c + 1 < 4294967296 ->
  exists t2 W2, run_timer_softirq ~{ t }~> tt; t2 /\ timer_ticks t2 = c + 1 /\ wheel_at t2 W2 (filter (fun p => c < p.2) P) /\
    (forall b f v p e, S !! b = Some (f, v, p) -> P !! b = Some e -> tasks (kk t2) !! p =
       if e <=? c then (fun q => q <| state := TASK_RUNNING |>) <$> tasks0 !! p else tasks0 !! p) /\
    (forall p, (forall b f v, S !! b <> Some (f, v, p)) -> tasks (kk t2) !! p = tasks0 !! p).
Proof.
  intros Hs Hlock Hw c Hle Hlt.
  destruct (softirq_run timer_call (sleepers tasks0 L S) t W P al Hs Hlock Hw Hle Hlt)
    as (t2 & W2 & al2 & evs & Hr2 & Hn2 & _ & _ & Hw2 & Hs2 & _ & _ & Hev).
  exists t2, W2. split; [exact Hr2|]. split; [exact Hn2|]. split; [exact Hw2|]. fold c in Hev.
  assert (Hf : forall b e, P !! b = Some e -> fired evs b <-> e <= c).
  { intros b e Hb. unfold fired. rewrite list_elem_of_fmap. split.
    - intros ([f a] & -> & Hin). apply Hev in Hin as [Hb' Hle']. change ((f, a).2) with a in Hb. congruence.
    - intros Hle'. exists (e, b). split; [done|]. by apply Hev. }
  split.
  - intros b f v p e HS HP. destruct (Z.leb_spec e c) as [Hle'|Hgt].
    + apply (sl_woken _ _ _ _ _ _ Hs2 b f v p HS). by apply (Hf b e HP).
    + apply (sl_tasks _ _ _ _ _ _ Hs2). intros a g u HSa Hfa. destruct (decide (a = b)) as [->|Hne].
      * apply (Hf b e HP) in Hfa. lia.
      * by destruct (sl_distinct _ _ _ _ _ _ Hs2 a g u p b f v p HSa HS Hne) as (_ & _ & ?).
  - intros p Hp. apply (sl_tasks _ _ _ _ _ _ Hs2). intros b f v HSb. by destruct (Hp b f v).
Qed.

(** A call of nanosleep takes the caller off the processor until the clock
    reaches the second it asked for; [tv_nsec] is ignored and the result is -1,
    which is not what timer.h says. *)
Theorem nanosleep_wakes S t W P al tp req rem : sleep_ok S t W P al -> tasks (kk t) !! curr (kk t) = Some tp ->
  (forall a d w p, S !! a = Some (d, w, p) -> p <> curr (kk t)) -> base_lock t = 0 -> 0 <= timer_ticks t ->
  near (timer_ticks t) (wake_time t (ts_sec req)) -> ha_room (kx (kk t)) (sleep_cost + 0) ->
  sys_nanosleep req rem ~{ t }~>! FFatal \/
  exists t1 a d w, sys_nanosleep req rem ~{ t }~> -1; t1 /\
    tasks (kk t1) = <[curr (kk t) := tp <| state := TASK_UNINTERRUPTIBLE |>]> (tasks (kk t)) /\
    forall n, timer_ticks t <= u32 n + 1 -> u32 n + 1 < 4294967296 ->
      let S' := <[a := (d, w, curr (kk t))]> S in
      let P' := <[a := Z.max (timer_ticks t) (wake_time t (ts_sec req))]> P in
      exists t2, run_timer_softirq ~{ at_time n t1 }~> tt; t2 /\
        (forall b f v p e, S' !! b = Some (f, v, p) -> P' !! b = Some e -> tasks (kk t2) !! p =
           if e <=? u32 n then (fun q => q <| state := TASK_RUNNING |>) <$> tasks (kk t1) !! p else tasks (kk t1) !! p) /\
        (forall p, (forall b f v, S' !! b <> Some (f, v, p)) -> tasks (kk t2) !! p = tasks (kk t1) !! p).
Proof.
  intros Hok Htp Hnot Hlock Hnow Hnear Hroom.
  destruct (nanosleep_run S t W P al tp req rem 0 Hok Htp Hnot Hnear ltac:(lia) Hroom)
    as [|(t1 & a & d & w & W1 & al1 & Hr & HSa & [[L Hs] Hw1 _ _ _] & Et & En & El & _)]; [by left|right].
  exists t1, a, d, w. split; [done|]. split; [done|]. intros n Hle Hlt S' P'.
  destruct (sleepers_run _ L S' (at_time n t1) W1 P' al1 (sleepers_time _ _ _ _ _ _ n Hs)) as (t2 & W2 & Hr2 & _ & _ & H1 & H2).
  - change (base_lock t1 = 0). by rewrite El.
  - exact Hw1.
  - change (0 <= timer_ticks t1 <= u32 n + 1). rewrite En. lia.
  - exact Hlt.
  - exists t2. by split_and!.
Qed.

(** C9: once the timers have run at a tick, every process that sleeps on one of
    them is runnable when its wake-up time has come and as it was when it has
    not; the other tasks are untouched and the timers that are not due stay
    pending. It takes a wheel all of whose timers belong to sleepers
    ([sleep_ok]), unlocked, whose time is not ahead of the clock, and a clock that
    is not at its last value, 2^32 - 1. *)
Theorem sleepers_wake S t W P al n : sleep_ok S t W P al -> base_lock t = 0 ->
  0 <= timer_ticks t <= u32 n + 1 -> u32 n + 1 < 4294967296 ->
  exists t2 W2, run_timer_softirq ~{ at_time n t }~> tt; t2 /\ timer_ticks t2 = u32 n + 1 /\
    wheel_at t2 W2 (filter (fun p => u32 n < p.2) P) /\
    (forall b f v p, S !! b = Some (f, v, p) -> exists e, P !! b = Some e /\ tasks (kk t2) !! p =
       if e <=? u32 n then (fun q => q <| state := TASK_RUNNING |>) <$> tasks (kk t) !! p else tasks (kk t) !! p) /\
    (forall p, (forall b f v, S !! b <> Some (f, v, p)) -> tasks (kk t2) !! p = tasks (kk t) !! p).
Proof.
  intros [[L Hs] Hw _ _ Hdom] Hlock Hle Hlt.
  destruct (sleepers_run _ L S (at_time n t) W P al (sleepers_time _ _ _ _ _ _ n Hs) Hlock Hw Hle Hlt)
    as (t2 & W2 & Hr2 & Hn2 & Hw2 & H1 & H2).
  exists t2, W2. split; [exact Hr2|]. split; [exact Hn2|]. split; [exact Hw2|]. split; [|exact H2].
  intros b f v p HS. destruct (proj1 (Hdom b) ltac:(by eexists)) as [e He]. exists e. split; [done|]. by apply (H1 b f v p e).
Qed.

(** An empty wheel is empty at every time. *)
Lemma wheel_empty_now now now' s tms W : wheel now s tms W ∅ -> wheel now' s tms W ∅.
Proof. intros [Hl Hs Hn Hp]. split; try done. intros j i xs n Hv Hx Hin. by destruct (Hn j i xs n Hv Hx Hin) as (e & x & He & _). Qed.
Lemma run_tick_empty call t W : is_u32 (timer_ticks t) -> wheel_at t W ∅ ->
  exists t' W', run_tick call ~{ t }~> tt; t' /\ timer_ticks t' = u32 (timer_ticks t + 1) /\ wheel_at t' W' ∅.
Proof.
  intros Hn Hw. unfold run_tick. tstep. cbv zeta. rewrite (proj1 (mask_mod (timer_ticks t))).
  assert (Hcas : exists s' W', (if timer_ticks t mod 256 =? 0 then cascades (timer_ticks t) else mret tt) ~{ t }~> tt; t <| wlinks := s' |> /\
    wheel (timer_ticks t) s' (timers t) W' ∅).
  { destruct (Z.eqb_spec (timer_ticks t mod 256) 0) as [E|E].
    - destruct (cascades_run (timer_ticks t) t W ∅ eq_refl Hn Hw E) as (s' & W' & Hr & Hw' & _). by exists s', W'.
    - exists (wlinks t), W. by destruct t. }
  destruct Hcas as (s' & W' & Hrc & Hw'). run Hrc.
  assert (Ecur : timer_ticks t mod 256 = cur (timer_ticks t) 1) by (unfold cur; unit_values; done). rewrite Ecur.
  destruct (wheel_slot _ _ _ _ _ Hw' 1 (cur (timer_ticks t) 1)) as ([|x xs] & Hxs & Hl); [by apply cur_valid| |].
  - runw (empty_run _ _ _ Hl). rewrite bool_decide_true by done. cbn [negb]. repeat tstep.
    eexists _, W'. split; [reflexivity|]. split; [done|]. by apply (wheel_empty_now (timer_ticks t)).
  - destruct (wh_nodes _ _ _ _ _ Hw' 1 _ _ x (cur_valid _ 1 ltac:(lia)) Hxs ltac:(by left)) as (e & y & He & _). done.
Qed.

(** [run_timer_softirq] at the last value of the 32-bit clock never ends: the
    loop compares with [<=] and [timer_ticks] wraps to 0. *)
Theorem softirq_last_tick call t W n : is_u32 (timer_ticks t) -> wheel_at t W ∅ -> run_ticks call n 4294967295 ~{ t }~>! FLoop.
Proof.
  revert t W. induction n as [|n IH]; intros t W Hn Hw; [done|]. cbn [run_ticks]. tstep.
  rewrite (proj2 (Z.leb_le _ _)) by (unfold is_u32 in Hn; lia).
  destruct (run_tick_empty call t W Hn Hw) as (t' & W' & Hr & Hn' & Hw'). run Hr.
  apply (IH t' W'); [rewrite Hn'; apply u32_range|done].
Qed.
End Timer.

(** ** Concrete kernels *)
Definition wheel_list : list Z :=
  flat_map (fun j => (fun i => vec j (Z.of_nat i)) <$> seq 0 (Z.to_nat (slots j))) [1; 2; 3; 4; 5].
Lemma wheel_list_heads h : wheel_heads h -> h ∈ wheel_list.
Proof.
  intros (j & i & [Hj Hi] & ->). unfold wheel_list. rewrite list_elem_of_In, in_flat_map. exists j. split.
  - cbn. lia.
  - rewrite <- list_elem_of_In, list_elem_of_fmap. exists (Z.to_nat i). split; [by rewrite Z2Nat.id by lia|].
    apply list_elem_of_In, in_seq. lia.
Qed.

(** The kernel of [Task] with the sleep queue and an empty wheel. *)
Definition demo_links : gmap Z (list Z) := <[sleep_queue := []]> demo_kern_lists.
Definition demo_processes : kern (Kheap.heap (gset Z)) :=
  demo_kern <| links := links_of demo_links |> <| wq_locks := {[stopped_queue := 0; sleep_queue := 0]} |>.
Definition demo_timers : tkern (Kheap.heap (gset Z)) :=
  TKern _ demo_processes (links_of (heads wheel_list)) ∅ ∅ {[T1 := TaskTimers 0 0 0 0 0 0 0; T2 := TaskTimers 0 0 0 0 0 0 0; T3 := TaskTimers 0 0 0 0 0 0 0]} 1001 0 0.

Lemma demo_wheel_lists : lists (links_of (heads wheel_list)) (heads wheel_list).
Proof. apply lists_check_sound. vm_compute. reflexivity. Qed.
Lemma demo_wheel : wheel_at demo_timers (heads wheel_list) ∅.
Proof. apply empty_wheel; [exact demo_wheel_lists|exact wheel_list_heads]. Qed.
Definition nodes_check (s : store) (al : gmap Z Z) : bool := forallb (fun n : Z * node => in_block al n.1) (map_to_list s).
Lemma nodes_check_sound s al : nodes_check s al = true -> nodes_owned s al.
Proof.
  unfold nodes_check. rewrite forallb_forall. intros Hc z [n Hz].
  specialize (Hc (z, n)). rewrite <- list_elem_of_In, elem_of_map_to_list in Hc. specialize (Hc Hz).
  unfold in_block in Hc. rewrite orb_true_iff, Z.ltb_lt, existsb_exists in Hc.
  destruct Hc as [?|([q m] & Hq & [H1%Z.leb_le H2%Z.ltb_lt]%andb_true_iff)]; [by left|right].
  exists q, m. rewrite <- list_elem_of_In, elem_of_map_to_list in Hq. done.
Qed.
Lemma demo_sleep_ok : sleep_ok ∅ demo_timers (heads wheel_list) ∅ demo_blocks.
Proof.
  split; [|exact demo_wheel|apply nodes_check_sound; vm_compute; reflexivity|apply nodes_check_sound; vm_compute; reflexivity|intros a; split; intros [? E]; by rewrite lookup_empty in E].
  exists demo_links. split; try done.
  - exact demo_heap_ok.
  - exists demo_links, []. split; [apply lists_check_sound; vm_compute; reflexivity|done].
Qed.

(** Process 2 sleeps for a second from tick 1000 on and wakes up at tick 2193. *)
Lemma nanosleep_wakes_witness : exists t1 t2 t3, sys_nanosleep 0 (TimeSpec 1 0) 0 ~{ demo_timers }~> -1; t1 /\
  run_timer_softirq 0 ~{ at_time 2192 t1 }~> tt; t2 /\ run_timer_softirq 0 ~{ at_time 2193 t1 }~> tt; t3 /\
  state <$> tasks (kk t1) !! T2 = Some TASK_UNINTERRUPTIBLE /\
  state <$> tasks (kk t2) !! T2 = Some TASK_UNINTERRUPTIBLE /\ state <$> tasks (kk t3) !! T2 = Some TASK_RUNNING.
Proof.
  destruct (nanosleep_wakes 0 ∅ demo_timers (heads wheel_list) ∅ demo_blocks (demo_task 2 T1) (TimeSpec 1 0) 0 demo_sleep_ok)
    as [Herr|(t1 & a & d & w & Hr & Et & Hall)];
    [vm_compute; reflexivity|intros ? ? ? ? E; by rewrite lookup_empty in E|reflexivity|vm_compute; discriminate|
     vm_compute; repeat split; discriminate|vm_compute; discriminate| |].
  - assert (Hok : Kheap.result_of (sys_nanosleep 0 (TimeSpec 1 0) 0 demo_timers) = Some (-1)) by (vm_compute; reflexivity).
    rewrite Herr in Hok. discriminate Hok.
  - destruct (Hall 2192) as (t2 & Hr2 & Hin2 & _); [vm_compute; discriminate|vm_compute; reflexivity|].
    destruct (Hall 2193) as (t3 & Hr3 & Hin3 & _); [vm_compute; discriminate|vm_compute; reflexivity|].
    assert (E1 : tasks (kk t1) !! T2 = Some ((demo_task 2 T1) <| state := TASK_UNINTERRUPTIBLE |>)) by (rewrite Et; apply lookup_insert_eq).
    pose proof (Hin2 a d w T2 2193 (lookup_insert_eq _ _ _) (lookup_insert_eq _ _ _)) as E2. rewrite E1 in E2.
    pose proof (Hin3 a d w T2 2193 (lookup_insert_eq _ _ _) (lookup_insert_eq _ _ _)) as E3. rewrite E1 in E3.
    exists t1, t2, t3. split; [exact Hr|]. split; [exact Hr2|]. split; [exact Hr3|]. rewrite E1, E2, E3. repeat split.
Defined.

(** The sleeper of the run above at the tick before its wake-up time, and at it. *)
Lemma sleepers_wake_witness : exists t1 t2 t3, sys_nanosleep 0 (TimeSpec 1 0) 0 ~{ demo_timers }~> -1; t1 /\
  run_timer_softirq 0 ~{ at_time 2192 t1 }~> tt; t2 /\ run_timer_softirq 0 ~{ at_time 2193 t1 }~> tt; t3 /\
  state <$> tasks (kk t2) !! T2 = Some TASK_UNINTERRUPTIBLE /\ state <$> tasks (kk t3) !! T2 = Some TASK_RUNNING.
Proof.
  destruct (nanosleep_run 0 ∅ demo_timers (heads wheel_list) ∅ demo_blocks (demo_task 2 T1) (TimeSpec 1 0) 0 0 demo_sleep_ok)
    as [Herr|(t1 & a & d & w & W1 & al1 & Hr & HSa & Hok & Et & En & El & _)];
    [vm_compute; reflexivity|intros ? ? ? ? E; by rewrite lookup_empty in E|
     vm_compute; repeat split; discriminate|lia|vm_compute; discriminate| |].
  - assert (Hok : Kheap.result_of (sys_nanosleep 0 (TimeSpec 1 0) 0 demo_timers) = Some (-1)) by (vm_compute; reflexivity).
    rewrite Herr in Hok. discriminate Hok.
  - destruct (sleepers_wake 0 _ t1 W1 _ al1 2192 Hok El) as (t2 & W2 & Hr2 & _ & _ & H2 & _);
      [rewrite En; vm_compute; split; discriminate|vm_compute; reflexivity|].
    destruct (sleepers_wake 0 _ t1 W1 _ al1 2193 Hok El) as (t3 & W3 & Hr3 & _ & _ & H3 & _);
      [rewrite En; vm_compute; split; discriminate|vm_compute; reflexivity|].
    assert (E1 : tasks (kk t1) !! T2 = Some ((demo_task 2 T1) <| state := TASK_UNINTERRUPTIBLE |>)) by (rewrite Et; apply lookup_insert_eq).
    destruct (H2 a d w T2 (lookup_insert_eq _ _ _)) as (e2 & P2 & E2). destruct (H3 a d w T2 (lookup_insert_eq _ _ _)) as (e3 & P3 & E3).
    rewrite lookup_insert_eq in P2, P3. apply (f_equal (from_option id 0)) in P2, P3. change (2193 = e2) in P2. change (2193 = e3) in P3.
    subst e2 e3. rewrite E1 in E2, E3.
    exists t1, t2, t3. split; [exact Hr|]. split; [exact Hr2|]. split; [exact Hr3|]. rewrite E2, E3. repeat split.
Defined.

Lemma one_event (evs : list (Z * Z)) (a e : Z) : NoDup evs.*2 -> (forall f b, (f, b) ∈ evs <-> b = a /\ f = e) -> evs = [(e, a)].
Proof.
  intros Hnd Hev. assert (Hall : forall p, p ∈ evs -> p = (e, a)) by (intros [f b] [-> ->]%Hev; done).
  assert (Hin : (e, a) ∈ evs) by (by apply Hev).
  destruct evs as [|p [|q evs]]; [by apply not_elem_of_nil in Hin|by rewrite (Hall p) by left|].
  exfalso. rewrite (Hall p), (Hall q) in Hnd by set_solver. cbn in Hnd. apply NoDup_cons in Hnd as [Hnd _]. set_solver.
Qed.
Lemma due_one (P : gmap Z Z) (evs : list (Z * Z)) (a e c : Z) : (forall f b, P !! b = Some f <-> b = a /\ f = e) -> e <= c ->
  (forall f b, (f, b) ∈ evs <-> P !! b = Some f /\ f <= c) -> NoDup evs.*2 ->
  evs = [(e, a)] /\ filter (fun p : Z * Z => c < p.2) P = ∅.
Proof.
  intros HP Hle Hev Hnd. split.
  - apply one_event; [done|]. intros f b. rewrite Hev, HP. naive_solver.
  - apply map_eq. intros b. rewrite lookup_empty. apply map_lookup_filter_None. right. intros f [-> ->]%HP. cbn. lia.
Qed.

(** The same run seen by the wheel: one timer, run at tick 2193. *)
Lemma softirq_correct_witness : exists t1 t2 a, sys_nanosleep 0 (TimeSpec 1 0) 0 ~{ demo_timers }~> -1; t1 /\
  run_timer_softirq_with (timer_call 0) ~{ at_time 5000 t1 }~> tt; t2 /\ timer_ticks t2 = 5001 /\
  (exists al tasks0 L0 S, sleepers tasks0 L0 S [(2193, a)] t2 al) /\ exists W, wheel_at t2 W ∅.
Proof.
  destruct (nanosleep_run 0 ∅ demo_timers (heads wheel_list) ∅ demo_blocks (demo_task 2 T1) (TimeSpec 1 0) 0 0 demo_sleep_ok)
    as [Herr|(t1 & a & d & w & W1 & al1 & Hr & HSa & [[L Hs] Hw1 _ _ _] & Et & En & El & _)];
    [vm_compute; reflexivity|intros ? ? ? ? E; by rewrite lookup_empty in E|
     vm_compute; repeat split; discriminate|lia|vm_compute; discriminate| |].
  - assert (Hok : Kheap.result_of (sys_nanosleep 0 (TimeSpec 1 0) 0 demo_timers) = Some (-1)) by (vm_compute; reflexivity).
    rewrite Herr in Hok. discriminate Hok.
  - set (P := <[a := _]> _) in Hw1.
    destruct (softirq_correct (timer_call 0) (sleepers (tasks (kk t1)) L (<[a := (d, w, T2)]> ∅)) (at_time 5000 t1) W1 P al1)
      as (t2 & W2 & al2 & evs & Hr2 & Hn2 & _ & _ & Hw2 & Hs2 & _ & Hnd & Hev);
      [apply _|by apply sleepers_time|exact El|exact Hw1|change (timer_ticks (at_time 5000 t1)) with (timer_ticks t1); rewrite En; vm_compute; split; discriminate|
       vm_compute; reflexivity|].
    exists t1, t2, a. split; [exact Hr|]. split; [exact Hr2|]. split; [exact Hn2|]. change (u32 (ticks (kk (at_time 5000 t1)))) with 5000 in *.
    assert (HP : forall e b, P !! b = Some e <-> b = a /\ e = 2193).
    { change P with (<[a := 2193]> (∅ : gmap Z Z)). clear. intros e b. rewrite lookup_insert_Some, lookup_empty. naive_solver. }
    destruct (due_one P evs a 2193 5000 HP ltac:(discriminate) Hev Hnd) as [-> EP].
    split; [exists al2, (tasks (kk t1)), L, (<[a := (d, w, T2)]> ∅); exact Hs2|exists W2; rewrite <- EP; exact Hw2].
Defined.

Lemma demo_no_sleep_queue : outside demo_kern_lists sleep_queue.
Proof.
  intros h xs Hh Hin. assert (Hc : forallb (fun l : Z * list Z => negb (bool_decide (sleep_queue ∈ l.1 :: l.2))) (map_to_list demo_kern_lists) = true)
    by (vm_compute; reflexivity). rewrite forallb_forall in Hc. specialize (Hc (h, xs)). rewrite <- list_elem_of_In, elem_of_map_to_list in Hc.
  specialize (Hc Hh). change (negb (bool_decide (sleep_queue ∈ h :: xs)) = true) in Hc. by rewrite bool_decide_true in Hc.
Qed.
Lemma demo_process_lists : lists (links (kk demo_timers)) demo_kern_lists.
Proof. apply lists_check_sound. vm_compute. reflexivity. Qed.
Lemma demo_wheel_nodes h : wheel_heads h -> is_Some (wlinks demo_timers !! h).
Proof.
  intros Hh. apply (ring_some _ [h]); [|by left]. apply (proj1 demo_wheel_lists). apply heads_lookup. split; [done|]. by apply wheel_list_heads.
Qed.
Lemma demo_sleep_node : is_Some (links (kk demo_timers) !! sleep_queue) /\ is_Some (wq_locks (kk demo_timers) !! sleep_queue).
Proof. split; eexists; vm_compute; reflexivity. Qed.
Lemma timers_install_correct_witness : exists t' W, dynamic_timers_install ~{ demo_timers }~> tt; t' /\ timer_ticks t' = 0 /\ wheel_at t' W ∅.
Proof.
  destruct (timers_install_correct demo_timers demo_kern_lists demo_wheel_nodes demo_process_lists demo_no_sleep_queue (proj1 demo_sleep_node)
    (proj2 demo_sleep_node)) as (t' & W & Hr & Hn & Hw & _).
  exists t', W. split; [exact Hr|]. split; [exact Hn|exact Hw].
Defined.

Definition demo_unset : tkern (Kheap.heap (gset Z)) :=
  demo_timers <| wlinks := links_of (heads (timer_entry 5000 :: wheel_list)) |>
    <| timers := {[5000 := TimerList 0 300000 None 0 0]} |>.
Lemma demo_unset_lists : lists (wlinks demo_unset) (heads (timer_entry 5000 :: wheel_list)).
Proof. apply lists_check_sound. vm_compute. reflexivity. Qed.
Lemma add_del_timer_correct_witness : exists t' t2 W2, add_timer 5000 ~{ demo_unset }~> tt; t' /\ del_timer 5000 ~{ t' }~> tt; t2 /\ wheel_at t2 W2 ∅.
Proof.
  destruct (add_del_timer_correct demo_unset (heads (timer_entry 5000 :: wheel_list)) ∅ 5000 (TimerList 0 300000 None 0 0))
    as (t' & W' & Hr & Hw' & _ & Hdel & E);
    [apply empty_wheel; [exact demo_unset_lists|intros h Hh; right; by apply wheel_list_heads]|reflexivity|lia|reflexivity|
     apply heads_lookup; split; [done|by left]|vm_compute; repeat split; discriminate|].
  destruct (Hdel t' W' _ _ Hw' (lookup_insert_eq _ _ _)) as (t2 & W2 & Hr2 & Hw2 & _). rewrite E in Hw2. exists t', t2, W2. split; [exact Hr|]. split; [exact Hr2|exact Hw2].
Defined.

Lemma softirq_last_tick_witness : run_ticks (timer_call 0) 5 4294967295 ~{ demo_timers }~>! FLoop.
Proof. apply (softirq_last_tick (timer_call 0) demo_timers (heads wheel_list) 5); [vm_compute; split; [discriminate|reflexivity]|exact demo_wheel]. Defined.

(** The alarm of process 3 goes off while process 2, which has one as well, is
    running: [alarm_timeout] forgets the timer of process 2 and leaves process 3
    with a pointer to the timer that is about to be freed. *)
Definition demo_alarms : tkern (Kheap.heap (gset Z)) :=
  demo_timers <| itimers := {[T2 := TaskTimers 6000 0 0 0 0 0 0; T3 := TaskTimers 5000 0 0 0 0 0 0]} |>.
Lemma alarm_timeout_wrong_task : exists t', alarm_timeout 0 3 ~{ demo_alarms }~> tt; t' /\
  real_timer <$> itimers t' !! T3 = Some 5000 /\ real_timer <$> itimers t' !! T2 = Some NULL.
Proof.
  assert (E : match alarm_timeout 0 3 demo_alarms with
              | Ok (_, t') => Some (real_timer <$> itimers t' !! T3, real_timer <$> itimers t' !! T2)
              | Err _ => None end = Some (Some 5000, Some NULL)) by (vm_compute; reflexivity).
  destruct (alarm_timeout 0 3 demo_alarms) as [[[] t']|]; [|discriminate E]. exists t'. injection E as E1 E2. split; [reflexivity|split; assumption].
Qed.
(** [sys_setitimer] arms a timer and forgets it: [real_timer] stays NULL, so that a
    following [sys_getitimer] reads through NULL. *)
Lemma setitimer_forgets_timer : exists t' o, sys_setitimer 0 0 (ITimerVal (TimeVal 1 0) (TimeVal 1 0)) false ~{ demo_timers }~> (-1, o); t' /\
  real_timer <$> itimers t' !! T2 = Some NULL /\ sys_getitimer 0 ~{ t' }~>! FPtr NULL.
Proof.
  assert (E : match sys_setitimer 0 0 (ITimerVal (TimeVal 1 0) (TimeVal 1 0)) false demo_timers with
              | Ok (r, t') => Some (r.1, real_timer <$> itimers t' !! T2, match sys_getitimer 0 t' with Err f => Some f | Ok _ => None end)
              | Err _ => None end = Some (-1, Some NULL, Some (FPtr NULL))) by (vm_compute; reflexivity).
  destruct (sys_setitimer 0 0 (ITimerVal (TimeVal 1 0) (TimeVal 1 0)) false demo_timers) as [[[r o] t']|]; [|discriminate E].
  exists t', o. injection E as E1 E2 E3. simpl fst in E1. subst r. split; [reflexivity|]. split; [assumption|].
  destruct (sys_getitimer 0 t') as [|f]; [discriminate E3|]. injection E3 as ->. reflexivity.
Qed.

End Timer.

