(* ===== verification/Ext2.v ===== *)
(** * The ext2 file system: structures, blocks, inodes, allocation (src/kernel/fs/ext2.c)

    The packed structures of the disk are byte strings with fields; the buffers
    the code allocates are blocks of the kernel heap with their bytes. The file
    system runs on any [BlockDevice] and any [HeapAllocator]. *)

From stdpp Require Import strings.
From S2P Require Import Prelude Bytes Hoare Interfaces Kheap Task.

Module Ext2.
Open Scope string_scope.
Open Scope Z_scope.

(** ** Structures on the disk *)
Definition EXT2_SUPERBLOCK_MAGIC : Z := 61267.
Definition EXT2_INDIRECT_BLOCKS : Z := 12.
Definition EXT2_NAME_LEN : Z := 255.
Definition EXT2_S_IFDIR : Z := 16384.

Definition ext2_superblock_t : struct :=
  [("inodes_count", (4, 1)); ("blocks_count", (4, 1)); ("r_blocks_count", (4, 1)); ("free_blocks_count", (4, 1));
   ("free_inodes_count", (4, 1)); ("first_data_block", (4, 1)); ("log_block_size", (4, 1)); ("log_frag_size", (4, 1));
   ("blocks_per_group", (4, 1)); ("frags_per_group", (4, 1)); ("inodes_per_group", (4, 1)); ("mtime", (4, 1));
   ("wtime", (4, 1)); ("mnt_count", (2, 1)); ("max_mnt_count", (2, 1)); ("magic", (2, 1)); ("state", (2, 1));
   ("errors", (2, 1)); ("minor_rev_level", (2, 1)); ("lastcheck", (4, 1)); ("checkinterval", (4, 1));
   ("creator_os", (4, 1)); ("rev_level", (4, 1)); ("def_resuid", (2, 1)); ("def_resgid", (2, 1));
   ("first_ino", (4, 1)); ("inode_size", (2, 1)); ("block_group_nr", (2, 1)); ("feature_compat", (4, 1));
   ("feature_incompat", (4, 1)); ("feature_ro_compat", (4, 1)); ("uuid", (1, 16)); ("volume_name", (1, 16));
   ("last_mounted", (1, 64)); ("algo_bitmap", (4, 1)); ("prealloc_blocks", (1, 1)); ("prealloc_dir_blocks", (1, 1));
   ("padding0", (2, 1)); ("journal_uuid", (1, 16)); ("journal_inum", (4, 1)); ("jounral_dev", (4, 1));
   ("last_orphan", (4, 1)); ("hash_seed", (4, 4)); ("def_hash_version", (1, 1)); ("padding1", (2, 1));
   ("padding2", (1, 1)); ("default_mount_options", (4, 1)); ("first_meta_block_group_id", (4, 1)); ("reserved", (1, 760))].
Definition ext2_group_descriptor_t : struct :=
  [("block_bitmap", (4, 1)); ("inode_bitmap", (4, 1)); ("inode_table", (4, 1)); ("free_blocks_count", (2, 1));
   ("free_inodes_count", (2, 1)); ("used_dirs_count", (2, 1)); ("pad", (2, 1)); ("reserved", (4, 3))].
(** The union [data] has the block indices and, over the same 60 bytes, the
    target of a symbolic link, which the driver only prints. *)
Definition ext2_inode_t : struct :=
  [("mode", (2, 1)); ("uid", (2, 1)); ("size", (4, 1)); ("atime", (4, 1)); ("ctime", (4, 1)); ("mtime", (4, 1));
   ("dtime", (4, 1)); ("gid", (2, 1)); ("links_count", (2, 1)); ("blocks_count", (4, 1)); ("flags", (4, 1));
   ("osd1", (4, 1)); ("dir_blocks", (4, EXT2_INDIRECT_BLOCKS)); ("indir_block", (4, 1)); ("doubly_indir_block", (4, 1));
   ("trebly_indir_block", (4, 1)); ("generation", (4, 1)); ("file_acl", (4, 1)); ("dir_acl", (4, 1));
   ("fragment_addr", (4, 1)); ("osd2", (4, 3))].
Definition ext2_dirent_t : struct :=
  [("inode", (4, 1)); ("rec_len", (2, 1)); ("name_len", (1, 1)); ("file_type", (1, 1)); ("name", (1, EXT2_NAME_LEN))].

Definition SUPERBLOCK_SIZE : Z := Eval vm_compute in sizeof ext2_superblock_t.
Definition DESCRIPTOR_SIZE : Z := Eval vm_compute in sizeof ext2_group_descriptor_t.
Definition INODE_SIZE : Z := Eval vm_compute in sizeof ext2_inode_t.
Definition DIRENT_SIZE : Z := Eval vm_compute in sizeof ext2_dirent_t.

Definition sb_blocks_count : field := Eval vm_compute in fieldof ext2_superblock_t "blocks_count".
Definition sb_free_blocks_count : field := Eval vm_compute in fieldof ext2_superblock_t "free_blocks_count".
Definition sb_free_inodes_count : field := Eval vm_compute in fieldof ext2_superblock_t "free_inodes_count".
Definition sb_first_data_block : field := Eval vm_compute in fieldof ext2_superblock_t "first_data_block".
Definition sb_log_block_size : field := Eval vm_compute in fieldof ext2_superblock_t "log_block_size".
Definition sb_blocks_per_group : field := Eval vm_compute in fieldof ext2_superblock_t "blocks_per_group".
Definition sb_inodes_per_group : field := Eval vm_compute in fieldof ext2_superblock_t "inodes_per_group".
Definition sb_magic : field := Eval vm_compute in fieldof ext2_superblock_t "magic".
Definition sb_first_ino : field := Eval vm_compute in fieldof ext2_superblock_t "first_ino".
Definition sb_inode_size : field := Eval vm_compute in fieldof ext2_superblock_t "inode_size".

Definition gd_block_bitmap : field := Eval vm_compute in fieldof ext2_group_descriptor_t "block_bitmap".
Definition gd_inode_bitmap : field := Eval vm_compute in fieldof ext2_group_descriptor_t "inode_bitmap".
Definition gd_inode_table : field := Eval vm_compute in fieldof ext2_group_descriptor_t "inode_table".
Definition gd_free_blocks_count : field := Eval vm_compute in fieldof ext2_group_descriptor_t "free_blocks_count".
Definition gd_free_inodes_count : field := Eval vm_compute in fieldof ext2_group_descriptor_t "free_inodes_count".
Definition gd_used_dirs_count : field := Eval vm_compute in fieldof ext2_group_descriptor_t "used_dirs_count".

Definition i_mode : field := Eval vm_compute in fieldof ext2_inode_t "mode".
Definition i_uid : field := Eval vm_compute in fieldof ext2_inode_t "uid".
Definition i_size : field := Eval vm_compute in fieldof ext2_inode_t "size".
Definition i_atime : field := Eval vm_compute in fieldof ext2_inode_t "atime".
Definition i_ctime : field := Eval vm_compute in fieldof ext2_inode_t "ctime".
Definition i_mtime : field := Eval vm_compute in fieldof ext2_inode_t "mtime".
Definition i_dtime : field := Eval vm_compute in fieldof ext2_inode_t "dtime".
Definition i_gid : field := Eval vm_compute in fieldof ext2_inode_t "gid".
Definition i_links_count : field := Eval vm_compute in fieldof ext2_inode_t "links_count".
Definition i_blocks_count : field := Eval vm_compute in fieldof ext2_inode_t "blocks_count".
Definition i_flags : field := Eval vm_compute in fieldof ext2_inode_t "flags".
Definition i_osd1 : field := Eval vm_compute in fieldof ext2_inode_t "osd1".
Definition i_dir_blocks (i : Z) : field := Field (4 * i + 40) 4.
Definition i_indir_block : field := Eval vm_compute in fieldof ext2_inode_t "indir_block".
Definition i_doubly_indir_block : field := Eval vm_compute in fieldof ext2_inode_t "doubly_indir_block".
Definition i_trebly_indir_block : field := Eval vm_compute in fieldof ext2_inode_t "trebly_indir_block".
Definition i_generation : field := Eval vm_compute in fieldof ext2_inode_t "generation".
Definition i_file_acl : field := Eval vm_compute in fieldof ext2_inode_t "file_acl".
Definition i_dir_acl : field := Eval vm_compute in fieldof ext2_inode_t "dir_acl".
Definition i_fragment_addr : field := Eval vm_compute in fieldof ext2_inode_t "fragment_addr".
Definition i_osd2 (i : Z) : field := Field (4 * i + 116) 4.
Example arrays_of_inode : i_dir_blocks 0 = fieldof ext2_inode_t "dir_blocks" /\ i_osd2 0 = fieldof ext2_inode_t "osd2".
Proof. split; reflexivity. Qed.
(** A 32-bit block pointer of a block of pointers. *)
Definition pointer (i : Z) : field := Field (4 * i) 4.

(** ** The mounted file system

    [superblock] and [block_groups] are the bytes of the superblock and of the
    table of descriptors in memory; no bytes stand for a null [block_groups]. *)
Record ext2_filesystem_t := MkFs {
  superblock : list Z;
  block_groups : list Z;
  block_size : Z;
  inodes_per_block_count : Z;
  blocks_per_block_count : Z;
  block_groups_count : Z;
  pointers_per_block : Z;
  bgdt_start_block : Z;
  bgdt_end_block : Z;
  bgdt_length : Z;
  indirect_blocks_index : Z;
  doubly_indirect_blocks_index : Z;
  trebly_indirect_blocks_index : Z;
  fs_spinlock : Z
}.
#[export] Instance eta_fs : Eta ext2_filesystem_t := {| eta := fun f =>
  MkFs (superblock f) (block_groups f) (block_size f) (inodes_per_block_count f) (blocks_per_block_count f)
    (block_groups_count f) (pointers_per_block f) (bgdt_start_block f) (bgdt_end_block f) (bgdt_length f)
    (indirect_blocks_index f) (doubly_indirect_blocks_index f) (trebly_indirect_blocks_index f) (fs_spinlock f) |}.

(** The device, the kernel heap, the bytes of the buffers on it by address, and
    the file system. *)
Record state (D X : Type) := MkState {
  st_dev : D;
  st_heap : X;
  st_bufs : gmap Z (list Z);
  st_fs : ext2_filesystem_t
}.
#[global] Arguments MkState {D X} _ _ _ _.
#[global] Arguments st_dev {D X} _.
#[global] Arguments st_heap {D X} _.
#[global] Arguments st_bufs {D X} _.
#[global] Arguments st_fs {D X} _.
#[export] Instance eta_state D X : Eta (state D X) := {| eta := fun s =>
  MkState (st_dev s) (st_heap s) (st_bufs s) (st_fs s) |}.

(** What the proofs see of a state: the bytes of the device, the room that is
    left on the heap, the buffers and the file system. *)
Record view := View { v_disk : list Z; v_room : Z; v_bufs : gmap Z (list Z); v_fs : ext2_filesystem_t }.
#[export] Instance eta_view : Eta view := {| eta := fun v => View (v_disk v) (v_room v) (v_bufs v) (v_fs v) |}.

(** Unsigned division and remainder. *)
Definition udiv {S} (a b : Z) : M S Z := if b =? 0 then fail FDiv0 else mret (a / b).
Definition umod {S} (a b : Z) : M S Z := if b =? 0 then fail FDiv0 else mret (a mod b).

Section Operations.
Context {D X : Type} `{BlockDevice D} `{HeapAllocator X}.
Abbreviation E := (M (state D X)).

(** ** Buffers

    [kmalloc] of [n] bytes that are then cleared with memset, and [kfree]. *)
Definition new_cache (n : Z) : E Z :=
  p ← zoom st_heap (fun h s => s <| st_heap := h |>) (ha_alloc n);
  modify (fun s => s <| st_bufs := <[p := zeros n]> (st_bufs s) |>) ;;
  mret p.
Definition free_cache (p : Z) : E unit :=
  zoom st_heap (fun h s => s <| st_heap := h |>) (ha_free p) ;;
  modify (fun s => s <| st_bufs := delete p (st_bufs s) |>).

Definition buf (p : Z) : E (list Z) := getsome (FPtr p) (fun s => st_bufs s !! p).
Definition set_buf (p : Z) (c : list Z) : E unit := modify (fun s => s <| st_bufs := <[p := c]> (st_bufs s) |>).
(** A field of the buffer at [p]. *)
Definition ld (p : Z) (f : field) : E Z :=
  c ← buf p; if fits f c then mret (fget f c) else fail (FBound (f_off f)).
Definition st (p : Z) (f : field) (x : Z) : E unit :=
  c ← buf p; if fits f c then set_buf p (fset f x c) else fail (FBound (f_off f)).
(** memcpy out of and into the buffer at [p]; memset of a whole buffer. *)
Definition copy_out (p off n : Z) : E (list Z) :=
  c ← buf p; if (0 <=? off) && (0 <=? n) && (off + n <=? zlen c) then mret (slice off n c) else fail (FBound off).
Definition copy_in (p off : Z) (v : list Z) : E unit :=
  c ← buf p; if (0 <=? off) && (off + zlen v <=? zlen c) then set_buf p (splice off v c) else fail (FBound off).

(** ** The file system in memory *)
Definition fs {A} (g : ext2_filesystem_t -> A) : E A := gets (fun s => g (st_fs s)).
Definition set_fs (g : ext2_filesystem_t -> ext2_filesystem_t) : E unit := modify (fun s => s <| st_fs := g (st_fs s) |>).
Definition sb (f : field) : E Z := fs (fun m => fget f (superblock m)).
Definition set_sb (f : field) (x : Z) : E unit := set_fs (fun m => m <| superblock := fset f x (superblock m) |>).

(** [fs->block_groups[g].f] *)
Definition bg (g : Z) (f : field) : E Z :=
  t ← fs block_groups;
  if fits (at_ (DESCRIPTOR_SIZE * g) f) t then mret (fget (at_ (DESCRIPTOR_SIZE * g) f) t) else fail (FBound g).
Definition set_bg (g : Z) (f : field) (x : Z) : E unit :=
  t ← fs block_groups;
  if fits (at_ (DESCRIPTOR_SIZE * g) f) t
  then set_fs (fun m => m <| block_groups := fset (at_ (DESCRIPTOR_SIZE * g) f) x t |>) else fail (FBound g).

Definition fs_lock : E unit :=
  l ← fs fs_spinlock;
  match Task.spinlock_lock l with Ok l => set_fs (fun m => m <| fs_spinlock := l |>) | Err e => fail e end.
Definition fs_unlock : E unit := set_fs (fun m => m <| fs_spinlock := 0 |>).

(** ** Where things are *)
Definition ext2_get_group_index_from_inode (inode_index : Z) : E Z :=
  ipg ← sb sb_inodes_per_group; udiv (u32 (inode_index - 1)) ipg.
Definition ext2_get_inode_offest_in_group (inode_index : Z) : E Z :=
  ipg ← sb sb_inodes_per_group; umod (u32 (inode_index - 1)) ipg.
Definition ext2_get_block_index_from_inode_offset (inode_offset : Z) : E Z :=
  size ← sb sb_inode_size; bs ← fs block_size; udiv (u32 (inode_offset * size)) bs.

(** ** Bitmaps *)
Definition ext2_check_bitmap_bit (p linear_index : Z) : E bool :=
  b ← ld p (Field (linear_index / 8) 1);
  mret (negb (Z.land b (Z.shiftl 1 (linear_index mod 8)) =? 0)).
Definition ext2_set_bitmap_bit (p linear_index : Z) (occupied : bool) : E unit :=
  b ← ld p (Field (linear_index / 8) 1);
  st p (Field (linear_index / 8) 1)
    (u8 (if occupied then Z.lor b (Z.shiftl 1 (linear_index mod 8))
         else Z.land b (u32_not (Z.shiftl 1 (linear_index mod 8))))).

(** The loops give back whether a free bit was found and the final [linear_index]. *)
Fixpoint find_free_inode_loop (n : nat) (p linear_index first_ino : Z) (skip_reserved : bool) : E (bool * Z) :=
  match n with
  | O => mret (false, linear_index)
  | S n =>
      if skip_reserved && (linear_index <? first_ino)
      then find_free_inode_loop n p (linear_index + 1) first_ino skip_reserved
      else b ← ext2_check_bitmap_bit p linear_index;
           if negb b then mret (true, linear_index)
           else find_free_inode_loop n p (linear_index + 1) first_ino skip_reserved
  end.
Definition ext2_find_free_inode_in_group (p : Z) (skip_reserved : bool) : E (bool * Z) :=
  ipg ← sb sb_inodes_per_group; first_ino ← sb sb_first_ino;
  find_free_inode_loop (Z.to_nat ipg) p 0 first_ino skip_reserved.

Fixpoint find_free_block_loop (n : nat) (p linear_index : Z) : E (bool * Z) :=
  match n with
  | O => mret (false, linear_index)
  | S n => b ← ext2_check_bitmap_bit p linear_index;
           if negb b then mret (true, linear_index) else find_free_block_loop n p (linear_index + 1)
  end.
Definition ext2_find_free_block_in_group (p : Z) : E (bool * Z) :=
  bpg ← sb sb_blocks_per_group; find_free_block_loop (Z.to_nat bpg) p 0.

(** ** Blocks of the device *)
Definition ext2_read_block (block_index p : Z) : E Z :=
  if block_index =? 0 then mret (-1)
  else if p =? NULL then mret (-1)
  else bs ← fs block_size;
       r ← zoom st_dev (fun d s => s <| st_dev := d |>) (bd_read (u32 (block_index * bs)) bs);
       copy_in p 0 r.2 ;;
       mret r.1.
Definition ext2_write_block (block_index p : Z) : E Z :=
  if block_index =? 0 then mret (-1)
  else if p =? NULL then mret (-1)
  else bs ← fs block_size;
       v ← copy_out p 0 bs;
       zoom st_dev (fun d s => s <| st_dev := d |>) (bd_write (u32 (block_index * bs)) v).

Definition ext2_read_superblock : E Z :=
  r ← zoom st_dev (fun d s => s <| st_dev := d |>) (bd_read 1024 SUPERBLOCK_SIZE);
  set_fs (fun m : ext2_filesystem_t => m <| superblock := splice 0 r.2 (superblock m) |>) ;;
  mret r.1.
Definition ext2_write_superblock : E Z :=
  v ← fs superblock;
  zoom st_dev (fun d s => s <| st_dev := d |>) (bd_write 1024 v).

(** One block of the table of descriptors, in memory at [block_size * i]. *)
Definition read_bgdt_block (i : Z) : E unit :=
  start ← fs bgdt_start_block; bs ← fs block_size; t ← fs block_groups;
  if u32 (start + i) =? 0 then mret tt
  else r ← zoom st_dev (fun d s => s <| st_dev := d |>) (bd_read (u32 (u32 (start + i) * bs)) bs);
       if bs * i + zlen r.2 <=? zlen t
       then set_fs (fun m => m <| block_groups := splice (bs * i) r.2 t |>) else fail (FBound i).
Definition ext2_read_bgdt : E Z :=
  t ← fs block_groups;
  match t with
  | [] => mret (-1)
  | _ => n ← fs bgdt_length; for_range (Z.to_nat n) 0 read_bgdt_block ;; mret 0
  end.
Definition write_bgdt_block (i : Z) : E unit :=
  start ← fs bgdt_start_block; bs ← fs block_size; t ← fs block_groups;
  if u32 (start + i) =? 0 then mret tt
  else if bs * i + bs <=? zlen t
       then zoom st_dev (fun d s => s <| st_dev := d |>) (bd_write (u32 (u32 (start + i) * bs)) (slice (bs * i) bs t)) ;; mret tt
       else fail (FBound i).
Definition ext2_write_bgdt : E Z :=
  t ← fs block_groups;
  match t with
  | [] => mret (-1)
  | _ => n ← fs bgdt_length; for_range (Z.to_nat n) 0 write_bgdt_block ;; mret 0
  end.

(** ** Searching the groups *)
Fixpoint find_free_inode_groups (n : nat) (p group_index linear_index : Z) : E (bool * Z * Z) :=
  match n with
  | O => mret (false, group_index, linear_index)
  | S n =>
      free ← bg group_index gd_free_inodes_count;
      if 0 <? free then
        b ← bg group_index gd_inode_bitmap;
        r ← ext2_read_block b p;
        if r <? 0 then mret (false, group_index, linear_index)
        else '(found, linear_index) ← ext2_find_free_inode_in_group p (group_index =? 0);
             if (found : bool) then mret (true, group_index, linear_index)
             else find_free_inode_groups n p (group_index + 1) linear_index
      else find_free_inode_groups n p (group_index + 1) linear_index
  end.
Definition ext2_find_free_inode (p preferred_group : Z) : E (bool * Z * Z) :=
  n ← fs block_groups_count;
  if negb (preferred_group =? 0) then
    '(found, linear_index) ← ext2_find_free_inode_in_group p (preferred_group =? 0);
    if (found : bool) then mret (true, preferred_group, linear_index)
    else find_free_inode_groups (Z.to_nat n) p 0 linear_index
  else find_free_inode_groups (Z.to_nat n) p 0 0.

Fixpoint find_free_block_groups (n : nat) (p group_index linear_index : Z) : E (bool * Z * Z) :=
  match n with
  | O => mret (false, group_index, linear_index)
  | S n =>
      free ← bg group_index gd_free_blocks_count;
      if 0 <? free then
        b ← bg group_index gd_block_bitmap;
        r ← ext2_read_block b p;
        if r <? 0 then mret (false, group_index, linear_index)
        else '(found, linear_index) ← ext2_find_free_block_in_group p;
             if (found : bool) then mret (true, group_index, linear_index)
             else find_free_block_groups n p (group_index + 1) linear_index
      else find_free_block_groups n p (group_index + 1) linear_index
  end.
Definition ext2_find_free_block (p : Z) : E (bool * Z * Z) :=
  n ← fs block_groups_count; find_free_block_groups (Z.to_nat n) p 0 0.

(** ** Inodes

    [None] is the result -1, with which the caller's inode is left alone. *)
Definition inode_place (inode_index : Z) : E (option (Z * Z * Z)) :=
  if inode_index =? 0 then mret None
  else group_index ← ext2_get_group_index_from_inode inode_index;
       n ← fs block_groups_count;
       if n <? group_index then mret None
       else inode_offset ← ext2_get_inode_offest_in_group inode_index;
            block_index ← ext2_get_block_index_from_inode_offset inode_offset;
            per ← fs inodes_per_block_count;
            inode_offset ← umod inode_offset per;
            mret (Some (group_index, block_index, inode_offset)).
Definition ext2_read_inode (inode_index : Z) : E (option (list Z)) :=
  o ← inode_place inode_index;
  match o with
  | None => mret None
  | Some (group_index, block_index, inode_offset) =>
      bs ← fs block_size; size ← sb sb_inode_size;
      cache ← new_cache bs;
      table ← bg group_index gd_inode_table;
      ext2_read_block (u32 (table + block_index)) cache ;;
      inode ← copy_out cache (u32 (inode_offset * size)) INODE_SIZE;
      free_cache cache ;;
      mret (Some inode)
  end.
Definition ext2_write_inode (inode : list Z) (inode_index : Z) : E Z :=
  o ← inode_place inode_index;
  match o with
  | None => mret (-1)
  | Some (group_index, block_index, inode_offset) =>
      bs ← fs block_size; size ← sb sb_inode_size;
      cache ← new_cache bs;
      table ← bg group_index gd_inode_table;
      ext2_read_block (u32 (table + block_index)) cache ;;
      copy_in cache (u32 (inode_offset * size)) inode ;;
      ext2_write_block (u32 (table + block_index)) cache ;;
      free_cache cache ;;
      mret 0
  end.

(** ** Allocation

    The search, and what is done with the bit it found. *)
Definition claim_inode (cache group_index linear_index : Z) : E Z :=
  ipg ← sb sb_inodes_per_group;
  let inode_index := u32 (u32 (group_index * ipg) + linear_index + 1) in
  ext2_set_bitmap_bit cache linear_index true ;;
  b ← bg group_index gd_inode_bitmap;
  ext2_write_block b cache ;;
  free_cache cache ;;
  n ← bg group_index gd_free_inodes_count;
  set_bg group_index gd_free_inodes_count (u16 (n - 1)) ;;
  ext2_write_bgdt ;;
  n ← sb sb_free_inodes_count;
  set_sb sb_free_inodes_count (u32 (n - 1)) ;;
  ext2_write_superblock ;;
  fs_unlock ;;
  mret inode_index.
Definition ext2_allocate_inode (preferred_group : Z) : E Z :=
  fs_lock ;;
  bs ← fs block_size;
  cache ← new_cache bs;
  '(ok, group_index, linear_index) ← ext2_find_free_inode cache preferred_group;
  if negb (ok : bool) then fs_unlock ;; free_cache cache ;; mret 0
  else claim_inode cache group_index linear_index.

Definition claim_block (cache group_index linear_index : Z) : E Z :=
  bs ← fs block_size; bpg ← sb sb_blocks_per_group;
  let block_index := u32 (u32 (group_index * bpg) + linear_index) in
  ext2_set_bitmap_bit cache linear_index true ;;
  b ← bg group_index gd_block_bitmap;
  ext2_write_block b cache ;;
  n ← bg group_index gd_free_blocks_count;
  set_bg group_index gd_free_blocks_count (u16 (n - 1)) ;;
  ext2_write_bgdt ;;
  n ← sb sb_free_blocks_count;
  set_sb sb_free_blocks_count (u32 (n - 1)) ;;
  ext2_write_superblock ;;
  copy_in cache 0 (zeros bs) ;;
  ext2_write_block block_index cache ;;
  free_cache cache ;;
  fs_unlock ;;
  mret block_index.
Definition ext2_allocate_block : E Z :=
  fs_lock ;;
  bs ← fs block_size;
  cache ← new_cache bs;
  '(ok, group_index, linear_index) ← ext2_find_free_block cache;
  if negb (ok : bool) then fs_unlock ;; free_cache cache ;; mret 0
  else claim_block cache group_index linear_index.
End Operations.

(** ** Representation and rules *)
Section Rules.
Context {D X : Type} `{BlockDevice D} `{HeapAllocator X}.

Record repr (s : state D X) (v : view) : Prop := {
  re_dev : bd_ok (st_dev s);
  re_disk : bd_bytes (st_dev s) = v_disk v;
  re_heap : exists al, ha_ok (st_heap s) al /\ forall p c, v_bufs v !! p = Some c -> al !! p = Some (zlen c);
  re_room : 0 <= v_room v /\ ha_room (st_heap s) (v_room v);
  re_bufs : st_bufs s = v_bufs v;
  re_fs : st_fs s = v_fs v
}.
Abbreviation tri := (triple repr).
Abbreviation cost := (ha_cost (X := X)).
Implicit Types (d : list Z) (r : Z) (b : gmap Z (list Z)) (f : ext2_filesystem_t).

Lemma repr_bytes s v : repr s v -> bytes (v_disk v).
Proof. intros []. rewrite <- re_disk0. by apply bd_byte_law. Qed.

Lemma tri_new_cache d r b f n (Q : Z -> view -> Prop) : 0 < n < 65536 -> cost n <= r ->
  (forall p, b !! p = None -> 0 < p -> Q p (View d (r - cost n) (<[p := zeros n]> b) f)) ->
  tri (View d r b f) (new_cache n) Q.
Proof.
  intros Hn Hr HQ s [Hd Hdisk (al & Hal & Hb) [Hr0 Hroom] Hbufs Hfs]. simpl in *.
  apply wp_bind, wp_zoom, wp_of_run. pose proof (ha_cost_law (X := X) n (proj1 Hn)) as Hc.
  assert (Hm : 0 <= r - cost n) by lia.
  destruct (ha_alloc_law (st_heap s) al n (r - cost n) Hal Hn Hm) as [Herr|(p & x' & Hrun & Hok & Hnew & Hroom')];
    [by replace (cost n + (r - cost n)) with r by lia|by left|right].
  exists p, x'. split; [done|]. eexists. split.
  2:{ apply HQ.
    - destruct (b !! p) as [c|] eqn:E; [|done]. specialize (Hb p c E). congruence.
    - apply (ha_positive x' _ p n Hok). apply lookup_insert_eq. }
  split; simpl; try done; [|by rewrite Hbufs].
  exists (<[p := n]> al). split; [done|]. intros q c [[<- <-]|[? Hq]]%lookup_insert_Some.
  - rewrite lookup_insert_eq, zeros_zlen by lia. done.
  - rewrite lookup_insert_ne by done. by apply Hb.
Qed.

Lemma tri_free_cache d r b f p c (Q : unit -> view -> Prop) : b !! p = Some c ->
  Q tt (View d r (delete p b) f) -> tri (View d r b f) (free_cache p) Q.
Proof.
  intros Hp HQ s [Hd Hdisk (al & Hal & Hb) [Hr0 Hroom] Hbufs Hfs]. simpl in *.
  apply wp_bind, wp_zoom, wp_of_run. right.
  destruct (ha_free_law _ _ _ _ Hal (Hb p c Hp)) as (x' & Hrun & Hok & Hroom').
  exists tt, x'. split; [done|]. eexists. split; [|exact HQ].
  split; simpl; try done; [|split; [done|by apply Hroom']|by rewrite Hbufs].
  exists (delete p al). split; [done|]. intros q c' [? Hq]%lookup_delete_Some.
  rewrite lookup_delete_ne by done. by apply Hb.
Qed.

Lemma tri_buf d r b f p c (Q : list Z -> view -> Prop) : b !! p = Some c ->
  Q c (View d r b f) -> tri (View d r b f) (buf p) Q.
Proof. intros Hp HQ. eapply triple_getsome; [|done]. intros s []. simpl in *. by rewrite re_bufs0. Qed.

Lemma tri_set_buf d r b f p c0 c (Q : unit -> view -> Prop) : b !! p = Some c0 -> zlen c = zlen c0 ->
  Q tt (View d r (<[p := c]> b) f) -> tri (View d r b f) (set_buf p c) Q.
Proof.
  intros Hp Hlen HQ. eapply triple_modify; [|exact HQ]. intros s [Hd Hdisk (al & Hal & Hb) Hroom Hbufs Hfs].
  split; simpl in *; try done; [|by rewrite Hbufs].
  exists al. split; [done|]. intros q c' [[<- <-]|[? Hq]]%lookup_insert_Some; [|by apply Hb].
  rewrite Hlen. by apply Hb.
Qed.

Lemma tri_ld d r b f p c g (Q : Z -> view -> Prop) : b !! p = Some c -> fits g c = true ->
  Q (fget g c) (View d r b f) -> tri (View d r b f) (ld p g) Q.
Proof. intros Hp Hg HQ. apply triple_bind. eapply tri_buf; [done|]. rewrite Hg. by apply triple_ret. Qed.

Lemma tri_st d r b f p c g x (Q : unit -> view -> Prop) : b !! p = Some c -> fits g c = true ->
  Q tt (View d r (<[p := fset g x c]> b) f) -> tri (View d r b f) (st p g x) Q.
Proof.
  intros Hp Hg HQ. apply triple_bind. eapply tri_buf; [done|]. rewrite Hg.
  eapply tri_set_buf; [done|by apply fset_zlen|done].
Qed.

Lemma tri_copy_out d r b f p c off n (Q : list Z -> view -> Prop) : b !! p = Some c ->
  0 <= off -> 0 <= n -> off + n <= zlen c ->
  Q (slice off n c) (View d r b f) -> tri (View d r b f) (copy_out p off n) Q.
Proof.
  intros Hp ? ? ? HQ. apply triple_bind. eapply tri_buf; [done|].
  do 3 (rewrite (proj2 (Z.leb_le _ _)) by lia). by apply triple_ret.
Qed.

Lemma tri_copy_in d r b f p c off w (Q : unit -> view -> Prop) : b !! p = Some c ->
  0 <= off -> off + zlen w <= zlen c ->
  Q tt (View d r (<[p := splice off w c]> b) f) -> tri (View d r b f) (copy_in p off w) Q.
Proof.
  intros Hp ? ? HQ. apply triple_bind. eapply tri_buf; [done|].
  do 2 (rewrite (proj2 (Z.leb_le _ _)) by lia). eapply tri_set_buf; [done|by apply splice_zlen|done].
Qed.

Lemma tri_fs {A} d r b f (g : ext2_filesystem_t -> A) (Q : A -> view -> Prop) :
  Q (g f) (View d r b f) -> tri (View d r b f) (fs g) Q.
Proof. intros HQ. apply triple_gets. intros s []. simpl in *. by rewrite re_fs0. Qed.
Lemma tri_set_fs d r b f g (Q : unit -> view -> Prop) :
  Q tt (View d r b (g f)) -> tri (View d r b f) (set_fs g) Q.
Proof. intros HQ. eapply triple_modify; [|exact HQ]. intros s []. split; simpl in *; try done. by rewrite re_fs0. Qed.
Lemma tri_sb d r b f g (Q : Z -> view -> Prop) :
  Q (fget g (superblock f)) (View d r b f) -> tri (View d r b f) (sb g) Q.
Proof. apply (tri_fs _ _ _ _ (fun m => fget g (superblock m))). Qed.
Lemma tri_set_sb d r b f g x (Q : unit -> view -> Prop) :
  Q tt (View d r b (f <| superblock := fset g x (superblock f) |>)) -> tri (View d r b f) (set_sb g x) Q.
Proof. intros HQ. by apply tri_set_fs. Qed.
Lemma tri_bg d r b f i g (Q : Z -> view -> Prop) : fits (at_ (DESCRIPTOR_SIZE * i) g) (block_groups f) = true ->
  Q (fget (at_ (DESCRIPTOR_SIZE * i) g) (block_groups f)) (View d r b f) -> tri (View d r b f) (bg i g) Q.
Proof. intros Hg HQ. apply triple_bind, tri_fs. rewrite Hg. by apply triple_ret. Qed.
Lemma tri_set_bg d r b f i g x (Q : unit -> view -> Prop) : fits (at_ (DESCRIPTOR_SIZE * i) g) (block_groups f) = true ->
  Q tt (View d r b (f <| block_groups := fset (at_ (DESCRIPTOR_SIZE * i) g) x (block_groups f) |>)) ->
  tri (View d r b f) (set_bg i g x) Q.
Proof. intros Hg HQ. apply triple_bind, tri_fs. rewrite Hg. by apply tri_set_fs. Qed.

Lemma tri_fs_lock d r b f (Q : unit -> view -> Prop) : fs_spinlock f = 0 ->
  Q tt (View d r b (f <| fs_spinlock := 1 |>)) -> tri (View d r b f) fs_lock Q.
Proof. intros Hl HQ. apply triple_bind, tri_fs. rewrite Hl. simpl. by apply tri_set_fs. Qed.
Lemma tri_fs_unlock d r b f (Q : unit -> view -> Prop) :
  Q tt (View d r b (f <| fs_spinlock := 0 |>)) -> tri (View d r b f) fs_unlock Q.
Proof. intros HQ. by apply tri_set_fs. Qed.

Lemma tri_udiv v a n (Q : Z -> view -> Prop) : n <> 0 -> Q (a / n) v -> tri v (udiv a n) Q.
Proof. intros Hn HQ. unfold udiv. rewrite (proj2 (Z.eqb_neq _ _) Hn). by apply triple_ret. Qed.
Lemma tri_umod v a n (Q : Z -> view -> Prop) : n <> 0 -> Q (a mod n) v -> tri v (umod a n) Q.
Proof. intros Hn HQ. unfold umod. rewrite (proj2 (Z.eqb_neq _ _) Hn). by apply triple_ret. Qed.

(** The device. *)
Lemma tri_bd_read d r b f off n (Q : Z * list Z -> view -> Prop) :
  0 <= off -> off mod 512 = 0 -> 0 < n -> off + n <= zlen d ->
  Q (n, slice off n d) (View d r b f) -> tri (View d r b f) (zoom st_dev (fun x s => s <| st_dev := x |>) (bd_read off n)) Q.
Proof.
  intros ? ? ? ? HQ s [Hd Hdisk Hheap Hroom Hbufs Hfs]. simpl in *.
  apply wp_zoom, wp_of_run. right.
  destruct (bd_read_law (st_dev s) off n) as (x' & Hrun & Hok & Hb); [done..|by rewrite Hdisk|].
  exists (n, slice off n (bd_bytes (st_dev s))), x'. split; [done|]. eexists. split; [|rewrite Hdisk; exact HQ].
  split; simpl; try done. by rewrite Hb.
Qed.

Lemma tri_bd_write d r b f off w (Q : Z -> view -> Prop) :
  0 <= off -> off mod 512 = 0 -> 0 < zlen w -> bytes w -> off + zlen w <= zlen d ->
  Q (zlen w) (View (splice off w d) r b f) -> tri (View d r b f) (zoom st_dev (fun x s => s <| st_dev := x |>) (bd_write off w)) Q.
Proof.
  intros ? ? ? ? ? HQ s [Hd Hdisk Hheap Hroom Hbufs Hfs]. simpl in *.
  apply wp_zoom, wp_of_run. right.
  destruct (bd_write_law (st_dev s) off w) as (x' & Hrun & Hok & Hb); [done..|by rewrite Hdisk|].
  exists (zlen w), x'. split; [done|]. eexists. split; [|exact HQ].
  split; simpl; try done. by rewrite Hb, Hdisk.
Qed.

(** A buffer in use, or a larger state of the heap. *)
Lemma repr_less_room s d r b f r' : repr s (View d r b f) -> 0 <= r' <= r -> repr s (View d r' b f).
Proof.
  intros [] Hr. split; simpl in *; try done. split; [lia|]. destruct re_room0 as [_ Hroom].
  eapply ha_room_mono; [exact Hroom|lia].
Qed.
End Rules.

(** ** The file system on the disk

    Block [n] of the disk, the fields of descriptor [g] and of the superblock,
    and the bits of a bitmap. *)
Definition blk (f : ext2_filesystem_t) (d : list Z) (n : Z) : list Z := slice (n * block_size f) (block_size f) d.
Definition gd (f : ext2_filesystem_t) (g : Z) (h : field) : Z := fget (at_ (DESCRIPTOR_SIZE * g) h) (block_groups f).
Definition sbf (f : ext2_filesystem_t) (h : field) : Z := fget h (superblock f).
Definition bit_at (c : list Z) (i : Z) : bool := Z.testbit (fget (Field (i / 8) 1) c) (i mod 8).
Definition set_bit (c : list Z) (i : Z) : list Z :=
  fset (Field (i / 8) 1) (u8 (Z.lor (fget (Field (i / 8) 1) c) (Z.shiftl 1 (i mod 8)))) c.
(** The number of blocks of the inode table of a group. *)
Definition table_length (f : ext2_filesystem_t) : Z :=
  (sbf f sb_inodes_per_group + inodes_per_block_count f - 1) / inodes_per_block_count f.

(** The blocks that hold the file system itself. *)
Inductive region := RDescriptors | RBlockBitmap (g : Z) | RInodeBitmap (g : Z) | RInodes (g : Z).
Definition in_region (f : ext2_filesystem_t) (r : region) (b : Z) : Prop :=
  match r with
  | RDescriptors => bgdt_start_block f <= b < bgdt_start_block f + bgdt_length f
  | RBlockBitmap g => 0 <= g < block_groups_count f /\ b = gd f g gd_block_bitmap
  | RInodeBitmap g => 0 <= g < block_groups_count f /\ b = gd f g gd_inode_bitmap
  | RInodes g => 0 <= g < block_groups_count f /\ gd f g gd_inode_table <= b < gd f g gd_inode_table + table_length f
  end.

(** A file system with blocks of 4 KiB or more, as create_filesystem.sh makes it:
    its numbers fit together and its regions do not overlap. *)
Record geometry (f : ext2_filesystem_t) : Prop := {
  ge_bs : 4096 <= block_size f <= 32768;
  ge_bs_mod : block_size f mod 1024 = 0;
  ge_sb : zlen (superblock f) = SUPERBLOCK_SIZE /\ bytes (superblock f);
  ge_bg : zlen (block_groups f) = bgdt_length f * block_size f /\ bytes (block_groups f);
  ge_table : bgdt_start_block f = 1 /\ 0 < bgdt_length f;
  ge_groups : 0 < block_groups_count f /\ DESCRIPTOR_SIZE * block_groups_count f <= bgdt_length f * block_size f;
  ge_blocks : 0 < sbf f sb_blocks_count /\ sbf f sb_blocks_count * block_size f <= 2147483648;
  ge_bpg : 0 < sbf f sb_blocks_per_group <= 8 * block_size f;
  ge_cover : (block_groups_count f - 1) * sbf f sb_blocks_per_group < sbf f sb_blocks_count <=
             block_groups_count f * sbf f sb_blocks_per_group;
  ge_ipg : 0 < sbf f sb_inodes_per_group <= 8 * block_size f;
  ge_isize : 128 <= sbf f sb_inode_size /\ 0 < inodes_per_block_count f /\
             sbf f sb_inode_size * inodes_per_block_count f = block_size f;
  ge_region : forall r b, in_region f r b -> 0 < b < sbf f sb_blocks_count;
  ge_disjoint : forall r1 r2 b, in_region f r1 b -> in_region f r2 b -> r1 = r2
}.

(** The superblock and the descriptors in memory are those of the disk. *)
Record mounted (f : ext2_filesystem_t) (d : list Z) : Prop := {
  mo_geometry : geometry f;
  mo_bytes : bytes d;
  mo_size : sbf f sb_blocks_count * block_size f <= zlen d;
  mo_sb : slice 1024 SUPERBLOCK_SIZE d = superblock f;
  mo_bg : slice (block_size f) (bgdt_length f * block_size f) d = block_groups f
}.

(** What the block bitmaps of the disk say about block [b]. *)
Definition block_used (f : ext2_filesystem_t) (d : list Z) (b : Z) : bool :=
  bit_at (blk f d (gd f (b / sbf f sb_blocks_per_group) gd_block_bitmap)) (b mod sbf f sb_blocks_per_group).
(** ... and the inode bitmaps about inode [i]. *)
Definition inode_used (f : ext2_filesystem_t) (d : list Z) (i : Z) : bool :=
  bit_at (blk f d (gd f ((i - 1) / sbf f sb_inodes_per_group) gd_inode_bitmap)) ((i - 1) mod sbf f sb_inodes_per_group).

(** The bitmaps mark the superblock, the regions and what lies beyond the end. *)
Record consistent (f : ext2_filesystem_t) (d : list Z) : Prop := {
  co_super : block_used f d 0 = true;
  co_region : forall r b, in_region f r b -> block_used f d b = true;
  co_end : forall b, sbf f sb_blocks_count <= b < block_groups_count f * sbf f sb_blocks_per_group -> block_used f d b = true
}.

(** The file systems that differ in their counters only. *)
Record same_layout (f f' : ext2_filesystem_t) : Prop := {
  sl_bs : block_size f' = block_size f;
  sl_ipb : inodes_per_block_count f' = inodes_per_block_count f;
  sl_bpb : blocks_per_block_count f' = blocks_per_block_count f;
  sl_groups : block_groups_count f' = block_groups_count f;
  sl_ppb : pointers_per_block f' = pointers_per_block f;
  sl_start : bgdt_start_block f' = bgdt_start_block f;
  sl_length : bgdt_length f' = bgdt_length f;
  sl_indirect : indirect_blocks_index f' = indirect_blocks_index f;
  sl_doubly : doubly_indirect_blocks_index f' = doubly_indirect_blocks_index f;
  sl_trebly : trebly_indirect_blocks_index f' = trebly_indirect_blocks_index f;
  sl_lock : fs_spinlock f' = fs_spinlock f;
  sl_sb : zlen (superblock f') = zlen (superblock f) /\
    forall h, h ∈ [sb_blocks_count; sb_blocks_per_group; sb_inodes_per_group; sb_inode_size; sb_first_ino; sb_first_data_block] ->
      sbf f' h = sbf f h;
  sl_bg : zlen (block_groups f') = zlen (block_groups f) /\
    forall g h, 0 <= g < block_groups_count f -> h ∈ [gd_block_bitmap; gd_inode_bitmap; gd_inode_table] -> gd f' g h = gd f g h
}.

Lemma same_layout_refl f : same_layout f f.
Proof. by split. Qed.

Lemma same_layout_numbers f f' : same_layout f f' -> sbf f' sb_blocks_count = sbf f sb_blocks_count /\
  sbf f' sb_blocks_per_group = sbf f sb_blocks_per_group /\ sbf f' sb_inodes_per_group = sbf f sb_inodes_per_group /\
  sbf f' sb_inode_size = sbf f sb_inode_size.
Proof. intros Hl. destruct (sl_sb _ _ Hl) as [_ Hs]. split_and!; apply Hs; set_solver. Qed.

Section Layout.
Implicit Types f : ext2_filesystem_t.

Lemma same_layout_region f f' r b : same_layout f f' -> in_region f' r b <-> in_region f r b.
Proof.
  intros []. destruct sl_bg0 as [_ Hg], sl_sb0 as [_ Hs].
  destruct r as [|g|g|g]; unfold in_region, table_length.
  - by rewrite sl_start0, sl_length0.
  - rewrite sl_groups0. split; intros [Hr ->]; (split; [done|]); rewrite Hg by (done || set_solver); done.
  - rewrite sl_groups0. split; intros [Hr ->]; (split; [done|]); rewrite Hg by (done || set_solver); done.
  - rewrite sl_groups0, sl_ipb0, Hs by set_solver.
    split; intros [Hr Hb]; (split; [done|]); rewrite Hg in * by (done || set_solver); done.
Qed.

Lemma same_layout_geometry f f' : same_layout f f' -> bytes (superblock f') -> bytes (block_groups f') ->
  geometry f -> geometry f'.
Proof.
  intros Hl Hbs Hbb Hg. pose proof (same_layout_region f f') as Hr. destruct (id Hl), (id Hg).
  destruct sl_bg0 as [Hzb _], sl_sb0 as [Hzs Hs].
  split; rewrite ?sl_bs0, ?sl_length0, ?sl_start0, ?sl_groups0, ?sl_ipb0, ?Hs, ?Hzb, ?Hzs by set_solver; try done; try tauto.
  - intros r b Hrb. apply (ge_region0 r). by apply Hr.
  - intros r1 r2 b H1 H2. apply (ge_disjoint0 r1 r2 b); by apply Hr.
Qed.

Lemma blk_zlen f d n : mounted f d -> 0 <= n < sbf f sb_blocks_count -> zlen (blk f d n) = block_size f.
Proof. intros [[] _ Hsz _ _] Hn. apply slice_zlen; nia. Qed.
Lemma blk_bytes f d n : mounted f d -> bytes (blk f d n).
Proof. intros [_ Hb _ _ _]. by apply slice_bytes. Qed.

(** Writing block [m] changes block [m] only. *)
Lemma blk_write f d n m w : mounted f d -> 0 <= m < sbf f sb_blocks_count -> 0 <= n -> zlen w = block_size f ->
  blk f (splice (m * block_size f) w d) n = if decide (n = m) then w else blk f d n.
Proof.
  intros [[] _ Hsz _ _] Hm Hn Hw. unfold blk. case_decide as E.
  - subst. apply slice_splice_eq; nia.
  - apply slice_splice_ne; nia.
Qed.

(** A block that lies apart from the superblock and the descriptors does not touch them. *)
Lemma mounted_write f d m w : mounted f d -> 0 < m < sbf f sb_blocks_count -> ~ in_region f RDescriptors m ->
  zlen w = block_size f -> bytes w -> mounted f (splice (m * block_size f) w d).
Proof.
  intros Hm Hr Hnot Hw Hwb. pose proof (mo_geometry _ _ Hm) as []. destruct Hm as [Hg Hb Hsz Hsb Hbg].
  destruct ge_table0 as [Hst Hl]. simpl in Hnot. rewrite Hst in Hnot.
  split; [done|by apply splice_bytes|rewrite splice_zlen by nia; done|..].
  - rewrite slice_splice_ne by (unfold SUPERBLOCK_SIZE; nia). done.
  - rewrite slice_splice_ne; [done|nia..|]. assert (m < 1 \/ 1 + bgdt_length f <= m) as [?|?] by lia; nia.
Qed.
End Layout.

(** ** Bits *)
Lemma byte_fits c i : 0 <= i -> i / 8 < zlen c -> fits (Field (i / 8) 1) c = true.
Proof. intros. apply fits_spec. simpl. dlia. Qed.

Lemma bit_of_byte b k : 0 <= k < 8 -> negb (Z.land b (Z.shiftl 1 k) =? 0) = Z.testbit b k.
Proof.
  intros Hk. rewrite <- word_test_testbit by lia. unfold word_test. rewrite (u32_small (Z.shiftl 1 k)); [done|].
  rewrite Z.shiftl_1_l. split; [lia|]. apply (Z.le_lt_trans _ (2 ^ 8)); [apply Z.pow_le_mono_r; lia|lia].
Qed.

Lemma set_bit_zlen c i : 0 <= i -> i / 8 < zlen c -> zlen (set_bit c i) = zlen c.
Proof. intros. by apply fset_zlen, byte_fits. Qed.
Lemma set_bit_bytes c i : bytes c -> bytes (set_bit c i).
Proof. apply fset_bytes. Qed.

Lemma testbit_u8 x k : 0 <= k < 8 -> Z.testbit (u8 x) k = Z.testbit x k.
Proof. intros. unfold u8. change 256 with (2 ^ 8). by rewrite Z.mod_pow2_bits_low by lia. Qed.

Lemma bit_at_set c i j : bytes c -> 0 <= i -> i / 8 < zlen c -> 0 <= j ->
  bit_at (set_bit c i) j = bool_decide (j = i) || bit_at c j.
Proof.
  intros Hb Hi Hlen Hj. unfold bit_at, set_bit. pose proof (byte_fits c i Hi Hlen) as Hf.
  destruct (decide (j / 8 = i / 8)) as [E|E].
  - rewrite E, fget_fset_small by (done || (change (fmax _) with 256; unfold u8; dlia)).
    rewrite testbit_u8, Z.lor_spec by dlia. rewrite one_shiftl_testbit by dlia. rewrite orb_comm. f_equal.
    apply bool_decide_ext. dlia.
  - rewrite fget_fset_ne by (done || (unfold apart; simpl; dlia)).
    rewrite bool_decide_eq_false_2 by (intros ->; done). done.
Qed.

(** ** The operations on the represented state *)
Section Blocks.
Context {D X : Type} `{BlockDevice D} `{HeapAllocator X}.
Abbreviation tri := (triple (repr (D := D) (X := X))).
Abbreviation cost := (ha_cost (X := X)).
Implicit Types (d c : list Z) (r : Z) (b : gmap Z (list Z)) (f : ext2_filesystem_t).

Lemma block_aligned n m : m mod 1024 = 0 -> (n * m) mod 512 = 0.
Proof.
  intros Hm. assert (m = 512 * (2 * (m / 1024))) as -> by dlia.
  rewrite Z.mul_assoc, (Z.mul_comm n), <- Z.mul_assoc, Z.mul_comm. apply Z_mod_mult.
Qed.

Lemma tri_read_block d r b f n p c (Q : Z -> view -> Prop) : mounted f d -> 0 < n < sbf f sb_blocks_count ->
  b !! p = Some c -> 0 < p -> zlen c = block_size f ->
  Q (block_size f) (View d r (<[p := blk f d n]> b) f) -> tri (View d r b f) (ext2_read_block n p) Q.
Proof.
  intros Hm Hn Hp Hp0 Hc HQ. pose proof (mo_geometry _ _ Hm) as []. pose proof (mo_size _ _ Hm).
  unfold ext2_read_block, NULL. do 2 (rewrite (proj2 (Z.eqb_neq _ _)) by lia).
  apply triple_bind, tri_fs, triple_bind. rewrite u32_small by nia.
  apply tri_bd_read; [nia|by apply block_aligned|lia|nia|]. simpl. apply triple_bind.
  eapply tri_copy_in; [done|lia|by rewrite slice_zlen by nia; lia|].
  apply triple_ret. rewrite splice_all; [exact HQ|]. rewrite slice_zlen by nia. lia.
Qed.

Lemma tri_write_block d r b f n p c (Q : Z -> view -> Prop) : mounted f d -> 0 < n < sbf f sb_blocks_count ->
  b !! p = Some c -> 0 < p -> zlen c = block_size f -> bytes c ->
  Q (block_size f) (View (splice (n * block_size f) c d) r b f) -> tri (View d r b f) (ext2_write_block n p) Q.
Proof.
  intros Hm Hn Hp Hp0 Hc Hcb HQ. pose proof (mo_geometry _ _ Hm) as []. pose proof (mo_size _ _ Hm).
  unfold ext2_write_block, NULL. do 2 (rewrite (proj2 (Z.eqb_neq _ _)) by lia).
  apply triple_bind, tri_fs, triple_bind. eapply tri_copy_out; [done|lia..|]. rewrite slice_all by lia.
  rewrite u32_small by nia. apply tri_bd_write; [nia|by apply block_aligned|lia|done|nia|]. by rewrite Hc.
Qed.

Lemma tri_check_bit d r b f p c i (Q : bool -> view -> Prop) : b !! p = Some c -> 0 <= i -> i / 8 < zlen c ->
  Q (bit_at c i) (View d r b f) -> tri (View d r b f) (ext2_check_bitmap_bit p i) Q.
Proof.
  intros Hp Hi Hc HQ. apply triple_bind. eapply tri_ld; [done|by apply byte_fits|].
  apply triple_ret. rewrite bit_of_byte by dlia. exact HQ.
Qed.

Lemma tri_set_bit d r b f p c i (Q : unit -> view -> Prop) : b !! p = Some c -> 0 <= i -> i / 8 < zlen c ->
  Q tt (View d r (<[p := set_bit c i]> b) f) -> tri (View d r b f) (ext2_set_bitmap_bit p i true) Q.
Proof.
  intros Hp Hi Hc HQ. apply triple_bind. eapply tri_ld; [done|by apply byte_fits|].
  eapply tri_st; [done|by apply byte_fits|exact HQ].
Qed.

(** What a search from [lo] to [hi] for the first index with [P] gives back. *)
Definition first_found (P : Z -> Prop) (lo hi : Z) (a : bool * Z) : Prop :=
  (forall i, lo <= i < (if a.1 then a.2 else hi) -> ~ P i) /\ (a.1 = true -> lo <= a.2 < hi /\ P a.2).

Lemma first_found_skip P lo hi a : ~ P lo -> first_found P (lo + 1) hi a -> first_found P lo hi a.
Proof.
  intros HP [Hn Hy]. split.
  - intros i Hi. destruct (decide (i = lo)) as [->|]; [done|]. apply Hn. lia.
  - intros Ha. destruct (Hy Ha). split; [lia|done].
Qed.

Lemma find_free_block_loop_ok d r b f p c n : forall li, b !! p = Some c -> 0 <= li -> li + Z.of_nat n <= 8 * zlen c ->
  tri (View d r b f) (find_free_block_loop n p li)
    (fun a v' => v' = View d r b f /\ first_found (fun i => bit_at c i = false) li (li + Z.of_nat n) a).
Proof.
  induction n as [|n IH]; intros li Hp Hli Hlen; cbn [find_free_block_loop].
  { apply triple_ret. split; [done|]. split; simpl; [lia|done]. }
  apply triple_bind. eapply tri_check_bit; [done|lia|dlia|].
  destruct (bit_at c li) eqn:E; cbn [negb].
  - eapply triple_mono; [apply IH; [done|lia..]|]. intros a v' [-> Ha]. split; [done|].
    apply first_found_skip; [by rewrite E|]. by replace (li + 1 + Z.of_nat n) with (li + Z.of_nat (S n)) in Ha by lia.
  - apply triple_ret. split; [done|]. split; simpl; [lia|]. intros _. split; [lia|done].
Qed.

Lemma find_free_inode_loop_ok d r b f p c n first skip : forall li, b !! p = Some c -> 0 <= li ->
  li + Z.of_nat n <= 8 * zlen c ->
  tri (View d r b f) (find_free_inode_loop n p li first skip)
    (fun a v' => v' = View d r b f /\
       first_found (fun i => (skip = true -> first <= i) /\ bit_at c i = false) li (li + Z.of_nat n) a).
Proof.
  induction n as [|n IH]; intros li Hp Hli Hlen; cbn [find_free_inode_loop].
  { apply triple_ret. split; [done|]. split; simpl; [lia|done]. }
  assert (Hnext : ~ ((skip = true -> first <= li) /\ bit_at c li = false) ->
    tri (View d r b f) (find_free_inode_loop n p (li + 1) first skip) (fun a v' => v' = View d r b f /\
      first_found (fun i => (skip = true -> first <= i) /\ bit_at c i = false) li (li + Z.of_nat (S n)) a)).
  { intros Hno. eapply triple_mono; [apply IH; [done|lia..]|]. intros a v' [-> Ha]. split; [done|].
    apply first_found_skip; [done|]. by replace (li + 1 + Z.of_nat n) with (li + Z.of_nat (S n)) in Ha by lia. }
  destruct (skip && (li <? first)) eqn:Esk.
  { apply Hnext. apply andb_true_iff in Esk as [-> ?%Z.ltb_lt]. intros [Hf _]. specialize (Hf eq_refl). lia. }
  apply triple_bind. eapply tri_check_bit; [done|lia|dlia|].
  destruct (bit_at c li) eqn:E; cbn [negb]; [apply Hnext; by intros [_ ?]|].
  apply triple_ret. split; [done|]. split; simpl; [lia|]. intros _. split; [lia|]. split; [|done].
  intros ->. apply andb_false_iff in Esk as [?|?%Z.ltb_ge]; [done|lia].
Qed.

Lemma gd_fits f g h : geometry f -> 0 <= g < block_groups_count f -> 0 <= f_off h ->
  f_off h + Z.of_nat (f_size h) <= DESCRIPTOR_SIZE -> fits (at_ (DESCRIPTOR_SIZE * g) h) (block_groups f) = true.
Proof.
  intros [] Hg Hh Hs. apply fits_spec. unfold at_, DESCRIPTOR_SIZE in *. simpl. destruct ge_bg0 as [-> _]. lia.
Qed.

(** The first free block of the groups [g0], ..., [g0 + n - 1] whose counter is
    positive. *)
Definition block_search f d g0 n (a : bool * Z * Z) : Prop :=
  let '(ok, g, li) := a in
  (forall g', g0 <= g' < (if ok then g else g0 + n) -> 0 < gd f g' gd_free_blocks_count ->
     forall i, 0 <= i < sbf f sb_blocks_per_group -> bit_at (blk f d (gd f g' gd_block_bitmap)) i = true) /\
  (ok = true -> g0 <= g < g0 + n /\ 0 < gd f g gd_free_blocks_count /\
     first_found (fun i => bit_at (blk f d (gd f g gd_block_bitmap)) i = false) 0 (sbf f sb_blocks_per_group) (true, li)).

Lemma block_search_skip f d g0 n a : 
  (0 < gd f g0 gd_free_blocks_count -> forall i, 0 <= i < sbf f sb_blocks_per_group ->
     bit_at (blk f d (gd f g0 gd_block_bitmap)) i = true) ->
  block_search f d (g0 + 1) n a -> block_search f d g0 (n + 1) a.
Proof.
  destruct a as [[ok g] li]. intros H0' [Hno Hyes]. split.
  - intros g' Hg'. destruct (decide (g' = g0)) as [->|]; [done|]. apply Hno. destruct ok; lia.
  - intros Hok. destruct (Hyes Hok) as (? & ?). split; [lia|done].
Qed.

Lemma find_free_block_groups_ok d r f p n : forall b g0 li c, mounted f d -> b !! p = Some c -> 0 < p ->
  zlen c = block_size f -> 0 <= g0 -> g0 + Z.of_nat n <= block_groups_count f ->
  tri (View d r b f) (find_free_block_groups n p g0 li)
    (fun a v' => block_search f d g0 (Z.of_nat n) a /\ exists c', zlen c' = block_size f /\
       v' = View d r (<[p := c']> b) f /\ (a.1.1 = true -> c' = blk f d (gd f a.1.2 gd_block_bitmap))).
Proof.
  induction n as [|n IH]; intros b g0 li c Hm Hp Hp0 Hc Hg0 Hn; cbn [find_free_block_groups].
  { apply triple_ret. split; [split; [simpl; lia|done]|]. exists c. by rewrite insert_id. }
  pose proof (mo_geometry _ _ Hm) as Hgeo.
  assert (Hnext : forall b' li' c', b' !! p = Some c' -> zlen c' = block_size f -> (forall x, <[p := x]> b' = <[p := x]> b) ->
    (0 < gd f g0 gd_free_blocks_count -> forall i, 0 <= i < sbf f sb_blocks_per_group ->
       bit_at (blk f d (gd f g0 gd_block_bitmap)) i = true) ->
    tri (View d r b' f) (find_free_block_groups n p (g0 + 1) li') (fun a v' => block_search f d g0 (Z.of_nat (S n)) a /\
       exists c', zlen c' = block_size f /\ v' = View d r (<[p := c']> b) f /\
         (a.1.1 = true -> c' = blk f d (gd f a.1.2 gd_block_bitmap)))).
  { intros b' li' c' Hp' Hc' Hb' Hfull. eapply triple_mono; [apply (IH b' (g0 + 1) li' c'); try done; lia|].
    intros a v' (Hs & c2 & Hc2 & -> & Ha). split.
    - replace (Z.of_nat (S n)) with (Z.of_nat n + 1) by lia. by apply block_search_skip.
    - exists c2. by rewrite Hb'. }
  apply triple_bind, tri_bg; [apply gd_fits; simpl; try done; lia|].
  fold (gd f g0 gd_free_blocks_count). case_match eqn:Hfree; [apply Z.ltb_lt in Hfree|apply Z.ltb_ge in Hfree].
  2:{ apply (Hnext b li c); try done. lia. }
  apply triple_bind, tri_bg; [apply gd_fits; simpl; try done; lia|]. fold (gd f g0 gd_block_bitmap).
  assert (Hreg : 0 < gd f g0 gd_block_bitmap < sbf f sb_blocks_count)
    by (apply (ge_region _ Hgeo (RBlockBitmap g0)); split; [lia|done]).
  apply triple_bind. eapply tri_read_block; [done|done|done|done|done|]. pose proof (ge_bs _ Hgeo).
  rewrite (proj2 (Z.ltb_ge _ _)) by lia. apply triple_bind, triple_bind, tri_sb. fold (sbf f sb_blocks_per_group).
  pose proof (ge_bpg _ Hgeo) as Hbpg. pose proof (blk_zlen f d _ Hm (conj (Z.lt_le_incl _ _ (proj1 Hreg)) (proj2 Hreg))) as Hz.
  eapply triple_mono; [apply find_free_block_loop_ok; [apply lookup_insert_eq|lia|rewrite Hz; lia]|].
  intros [ok i] v' [-> Hf]. rewrite Z2Nat.id, Z.add_0_l in Hf by lia. destruct ok.
  - apply triple_ret. split; [split; [simpl; lia|intros _; split; [lia|done]]|].
    exists (blk f d (gd f g0 gd_block_bitmap)). done.
  - eapply Hnext; [apply lookup_insert_eq|done|intros; apply insert_insert_eq|].
    intros _ j Hj. destruct Hf as [Hf _]. apply not_false_iff_true. by apply Hf.
Qed.
End Blocks.

(** ** Counters and their copies on the disk *)
Lemma splice_app off v w l : 0 <= off -> off + zlen v + zlen w <= zlen l ->
  splice (off + zlen v) w (splice off v l) = splice off (v ++ w) l.
Proof.
  intros. pose proof (zlen_nonneg v). pose proof (zlen_nonneg w).
  apply list_eq. intros j. rewrite lookup_splice by (rewrite ?splice_zlen by lia; lia).
  rewrite !lookup_splice by (rewrite ?zlen_app; lia). rewrite zlen_app. unfold zlen in *.
  repeat case_decide; try lia; try done.
  - rewrite lookup_app_r by lia. f_equal. lia.
  - by rewrite lookup_app_l by lia.
Qed.

Lemma splice_nil off a (m l : list Z) : splice off (slice a 0 m) l = l.
Proof. unfold splice, slice. simpl. rewrite Nat.add_0_r. apply take_drop. Qed.

(** One less in field [hg] of descriptor [g] and in field [hs] of the superblock. *)
Definition count_down (f : ext2_filesystem_t) (g : Z) (hg hs : field) : ext2_filesystem_t :=
  f <| block_groups := fset (at_ (DESCRIPTOR_SIZE * g) hg) (u16 (gd f g hg - 1)) (block_groups f) |>
    <| superblock := fset hs (u32 (sbf f hs - 1)) (superblock f) |>.
(** The disk after the descriptors and the superblock are written. *)
Definition flush (f : ext2_filesystem_t) (d : list Z) : list Z :=
  splice 1024 (superblock f) (splice (block_size f) (block_groups f) d).

Section Counters.
Implicit Types (f : ext2_filesystem_t) (g : Z) (hg hs : field).

Definition is_counter hg hs : Prop := (hg = gd_free_blocks_count /\ hs = sb_free_blocks_count) \/
  (hg = gd_free_inodes_count /\ hs = sb_free_inodes_count).

Lemma counter_fits f g hg hs : geometry f -> 0 <= g < block_groups_count f -> is_counter hg hs ->
  fits (at_ (DESCRIPTOR_SIZE * g) hg) (block_groups f) = true /\ fits hs (superblock f) = true.
Proof.
  intros Hg Hr Hc. split.
  - apply gd_fits; [done|done|..]; destruct Hc as [[-> _]|[-> _]]; simpl; unfold DESCRIPTOR_SIZE; lia.
  - apply fits_spec. destruct (ge_sb _ Hg) as [-> _]. destruct Hc as [[_ ->]|[_ ->]]; simpl; unfold SUPERBLOCK_SIZE; lia.
Qed.

Lemma gd_apart f g g' hg h x : fits (at_ (DESCRIPTOR_SIZE * g) hg) (block_groups f) = true -> 0 <= g' -> 0 <= f_off h ->
  f_off h + Z.of_nat (f_size h) <= DESCRIPTOR_SIZE -> f_off hg + Z.of_nat (f_size hg) <= DESCRIPTOR_SIZE -> 0 <= f_off hg ->
  g <> g' \/ apart hg h ->
  fget (at_ (DESCRIPTOR_SIZE * g') h) (fset (at_ (DESCRIPTOR_SIZE * g) hg) x (block_groups f)) = gd f g' h.
Proof.
  intros Hf Hg' Hh Hh2 Hhg Hhg2 Hor. apply fget_fset_ne; [done|unfold at_, DESCRIPTOR_SIZE in *; simpl; lia|].
  unfold apart, at_, DESCRIPTOR_SIZE in *. simpl. destruct (decide (g = g')) as [->|]; [|lia].
  destruct Hor as [?|Ha]; [done|lia].
Qed.

Lemma count_down_layout f g hg hs : geometry f -> 0 <= g < block_groups_count f -> is_counter hg hs ->
  same_layout f (count_down f g hg hs).
Proof.
  intros Hgeo Hg Hc. destruct (counter_fits f g hg hs Hgeo Hg Hc) as [Hf Hs].
  split; try done; unfold count_down; simpl.
  - split; [by apply fset_zlen|]. intros h Hh. unfold sbf. simpl.
    apply fget_fset_ne; [done|..]; destruct Hc as [[_ ->]|[_ ->]];
      repeat (apply elem_of_cons in Hh as [->|Hh]); try (by apply elem_of_nil in Hh); unfold apart; simpl; lia.
  - split; [by apply fset_zlen|]. intros g' h Hg' Hh. apply gd_apart; [done|lia|..];
      destruct Hc as [[-> _]|[-> _]]; repeat (apply elem_of_cons in Hh as [->|Hh]); try (by apply elem_of_nil in Hh);
      unfold apart, DESCRIPTOR_SIZE; simpl; lia.
Qed.

Lemma count_down_bytes f g hg hs : geometry f ->
  bytes (superblock (count_down f g hg hs)) /\ bytes (block_groups (count_down f g hg hs)).
Proof. intros []. split; apply fset_bytes; tauto. Qed.

Lemma count_down_geometry f g hg hs : geometry f -> 0 <= g < block_groups_count f -> is_counter hg hs ->
  geometry (count_down f g hg hs).
Proof.
  intros Hgeo Hg Hc. destruct (count_down_bytes f g hg hs Hgeo).
  eapply same_layout_geometry; [by apply count_down_layout|done..].
Qed.

Lemma count_down_counts f g hg hs : geometry f -> 0 <= g < block_groups_count f -> is_counter hg hs -> 0 < gd f g hg ->
  gd (count_down f g hg hs) g hg = gd f g hg - 1 /\ sbf (count_down f g hg hs) hs = u32 (sbf f hs - 1) /\
  forall g', 0 <= g' -> g' <> g -> gd (count_down f g hg hs) g' hg = gd f g' hg.
Proof.
  intros Hgeo Hg Hc Hpos. destruct (counter_fits f g hg hs Hgeo Hg Hc) as [Hf Hs].
  assert (Hr : 0 <= gd f g hg < 65536).
  { unfold gd. pose proof (fget_range _ _ (proj2 (ge_bg _ Hgeo)) Hf) as Hr. unfold fmax, at_ in Hr. simpl in Hr.
    destruct Hc as [[-> _]|[-> _]]; done. }
  split_and!.
  - unfold gd at 1, count_down. simpl. rewrite fget_fset by done. unfold u16.
    replace (fmax (at_ (DESCRIPTOR_SIZE * g) hg)) with 65536 by (by destruct Hc as [[-> _]|[-> _]]).
    rewrite Zmod_mod. rewrite Z.mod_small by lia. done.
  - unfold sbf at 1, count_down. simpl. rewrite fget_fset by done. unfold u32.
    replace (fmax hs) with 4294967296 by (by destruct Hc as [[_ ->]|[_ ->]]). apply Zmod_mod.
  - intros g' Hg' Hne. apply gd_apart; [done|lia|..]; try (destruct Hc as [[-> _]|[-> _]]; unfold DESCRIPTOR_SIZE; simpl; lia).
Qed.

(** [flush] makes the disk agree with the memory and leaves the other blocks. *)
Lemma flush_zlen f d : geometry f -> sbf f sb_blocks_count * block_size f <= zlen d -> zlen (flush f d) = zlen d.
Proof.
  intros [] Hd. destruct ge_sb0 as [Hs _], ge_bg0 as [Hb _], ge_table0 as [Ht ?].
  pose proof (ge_region0 RDescriptors (bgdt_length f)) as Hreg. simpl in Hreg. rewrite Ht in Hreg.
  unfold flush. rewrite !splice_zlen; unfold SUPERBLOCK_SIZE in *; rewrite ?splice_zlen; nia.
Qed.

Lemma flush_blk f d n : geometry f -> sbf f sb_blocks_count * block_size f <= zlen d -> 0 < n ->
  ~ in_region f RDescriptors n -> blk f (flush f d) n = blk f d n.
Proof.
  intros Hgeo Hd Hn Hr. pose proof (flush_zlen f d Hgeo Hd) as Hz. destruct Hgeo.
  destruct ge_sb0 as [Hs _], ge_bg0 as [Hb _], ge_table0 as [Ht ?]. simpl in Hr. rewrite Ht in Hr.
  pose proof (ge_region0 RDescriptors (bgdt_length f)) as Hreg. simpl in Hreg. rewrite Ht in Hreg.
  unfold blk, flush, SUPERBLOCK_SIZE in *. rewrite slice_splice_ne.
  - rewrite slice_splice_ne; [done|nia..].
  - lia.
  - rewrite splice_zlen; nia.
  - nia.
  - right. nia.
Qed.


Lemma flush_mounted f d : geometry f -> bytes d -> sbf f sb_blocks_count * block_size f <= zlen d -> mounted f (flush f d).
Proof.
  intros Hgeo Hb Hd. pose proof (flush_zlen f d Hgeo Hd) as Hz. pose proof Hgeo as [].
  destruct ge_sb0 as [Hs Hsb], ge_bg0 as [Hg Hgb], ge_table0 as [Ht ?].
  pose proof (ge_region0 RDescriptors (bgdt_length f)) as Hreg. simpl in Hreg. rewrite Ht in Hreg.
  assert (Hz2 : zlen (splice (block_size f) (block_groups f) d) = zlen d) by (apply splice_zlen; nia).
  split; [done|by repeat apply splice_bytes|by rewrite Hz|..]; unfold flush, SUPERBLOCK_SIZE in *.
  - apply slice_splice_eq; [lia|nia|done].
  - rewrite slice_splice_ne by nia. apply slice_splice_eq; nia.
Qed.
End Counters.

Section Allocation.
Context {D X : Type} `{BlockDevice D} `{HeapAllocator X}.
Abbreviation tri := (triple (repr (D := D) (X := X))).
Abbreviation cost := (ha_cost (X := X)).
Implicit Types (d c : list Z) (r : Z) (b : gmap Z (list Z)) (f : ext2_filesystem_t).

Lemma tri_write_bgdt d r b f (Q : Z -> view -> Prop) : geometry f -> sbf f sb_blocks_count * block_size f <= zlen d ->
  Q 0 (View (splice (block_size f) (block_groups f) d) r b f) -> tri (View d r b f) ext2_write_bgdt Q.
Proof.
  intros Hgeo Hd HQ. pose proof Hgeo as [Hbs Hmod _ [Hzg Hgb] [Hst Hlen] _ Hnb _ _ _ _ Hreg _].
  pose proof (Hreg RDescriptors (bgdt_length f)) as Hlast. simpl in Hlast. rewrite Hst in Hlast.
  unfold ext2_write_bgdt. apply triple_bind, tri_fs.
  destruct (block_groups f) as [|x t] eqn:E; [unfold zlen in Hzg; simpl in Hzg; nia|]. rewrite <- E in *. clear E x t.
  apply triple_bind, tri_fs, triple_bind.
  apply (triple_for_range _ _ _ _ _ (fun i => View (splice (block_size f) (slice 0 (i * block_size f) (block_groups f)) d) r b f)).
  - by rewrite Z.mul_0_l, splice_nil.
  - intros i Hi. rewrite Z2Nat.id in Hi by lia. unfold write_bgdt_block.
    apply triple_bind, tri_fs, triple_bind, tri_fs, triple_bind, tri_fs. rewrite Hst.
    rewrite !(u32_small (1 + i)) by nia. rewrite (proj2 (Z.eqb_neq _ _)) by lia.
    rewrite (proj2 (Z.leb_le _ _)) by nia. rewrite u32_small by nia.
    assert (Hz1 : zlen (slice 0 (i * block_size f) (block_groups f)) = i * block_size f) by (apply slice_zlen; nia).
    assert (Hz2 : zlen (slice (block_size f * i) (block_size f) (block_groups f)) = block_size f) by (apply slice_zlen; nia).
    apply triple_bind, tri_bd_write; [nia|by apply block_aligned|lia|by apply slice_bytes|rewrite splice_zlen; nia|].
    apply triple_ret. f_equal.
    replace ((1 + i) * block_size f) with (block_size f + zlen (slice 0 (i * block_size f) (block_groups f))) by nia.
    rewrite splice_app by nia. f_equal.
    replace ((i + 1) * block_size f) with (i * block_size f + block_size f) by lia.
    rewrite slice_app by nia. by rewrite Z.add_0_l, Z.mul_comm.
  - rewrite Z2Nat.id, Z.add_0_l by lia. rewrite slice_all by done. by apply triple_ret.
Qed.

Lemma tri_write_superblock d r b f (Q : Z -> view -> Prop) : geometry f -> sbf f sb_blocks_count * block_size f <= zlen d ->
  Q SUPERBLOCK_SIZE (View (splice 1024 (superblock f) d) r b f) -> tri (View d r b f) ext2_write_superblock Q.
Proof.
  intros [] Hd HQ. destruct ge_sb0 as [Hs Hsb]. pose proof (ge_region0 RDescriptors 1) as Hreg. simpl in Hreg.
  unfold ext2_write_superblock. apply triple_bind, tri_fs. unfold SUPERBLOCK_SIZE in *.
  apply tri_bd_write; [lia|done|lia|done|nia|]. by rewrite Hs.
Qed.

(** The end of an allocation: the counters go down and are written. *)
Lemma tri_count_down {A} d r b f g hg hs (k : M (state D X) A) Q : geometry f -> 0 <= g < block_groups_count f ->
  is_counter hg hs -> sbf f sb_blocks_count * block_size f <= zlen d ->
  tri (View (flush (count_down f g hg hs) d) r b (count_down f g hg hs)) k Q ->
  tri (View d r b f)
    (n ← bg g hg; set_bg g hg (u16 (n - 1)) ;; ext2_write_bgdt ;;
     n ← sb hs; set_sb hs (u32 (n - 1)) ;; ext2_write_superblock ;; k) Q.
Proof.
  intros Hgeo Hg Hc Hd Hk. destruct (counter_fits f g hg hs Hgeo Hg Hc) as [Hf Hs].
  set (f1 := f <| block_groups := fset (at_ (DESCRIPTOR_SIZE * g) hg) (u16 (gd f g hg - 1)) (block_groups f) |>).
  assert (Hgeo1 : geometry f1).
  { eapply (same_layout_geometry f); try done.
    - destruct (count_down_layout f g hg hs Hgeo Hg Hc). by split.
    - apply (ge_sb _ Hgeo).
    - apply fset_bytes, (ge_bg _ Hgeo). }
  apply triple_bind, tri_bg; [done|]. apply triple_bind, tri_set_bg; [done|]. fold (gd f g hg) f1.
  apply triple_bind, tri_write_bgdt; [done|done|].
  apply triple_bind, tri_sb. change (fget hs (superblock f1)) with (sbf f hs).
  apply triple_bind, tri_set_sb. change (f1 <| superblock := fset hs (u32 (sbf f hs - 1)) (superblock f1) |>) with (count_down f g hg hs).
  pose proof (count_down_geometry f g hg hs Hgeo Hg Hc) as Hgeo2.
  destruct (sl_sb _ _ (count_down_layout f g hg hs Hgeo Hg Hc)) as [_ Hsbf].
  apply triple_bind, tri_write_superblock; [done| |exact Hk].
  rewrite Hsbf by set_solver. change (block_size (count_down f g hg hs)) with (block_size f).
  destruct Hgeo1. destruct ge_bg0. pose proof (ge_region0 RDescriptors (bgdt_length f)) as Hreg. destruct ge_table0 as [Ht ?].
  simpl in Hreg. change (bgdt_start_block f1) with (bgdt_start_block f) in *. change (bgdt_length f1) with (bgdt_length f) in *.
  change (sbf f1 sb_blocks_count) with (sbf f sb_blocks_count) in *. change (block_size f1) with (block_size f) in *.
  rewrite splice_zlen; nia.
Qed.
End Allocation.

(** ** Taking a block *)

(** What the allocation of block [r] does to the file system and to the disk. *)
Record block_allocated (f : ext2_filesystem_t) (d : list Z) (r : Z) (f' : ext2_filesystem_t) (d' : list Z) : Prop := {
  ba_new : 0 < r < sbf f sb_blocks_count /\ block_used f d r = false /\ forall R, ~ in_region f R r;
  ba_positive : 0 < gd f (r / sbf f sb_blocks_per_group) gd_free_blocks_count;
  ba_first : forall x, 0 <= x < r -> 0 < gd f (x / sbf f sb_blocks_per_group) gd_free_blocks_count -> block_used f d x = true;
  ba_mounted : mounted f' d';
  ba_consistent : consistent f' d';
  ba_layout : same_layout f f';
  ba_used : forall x, 0 <= x < block_groups_count f * sbf f sb_blocks_per_group ->
    block_used f' d' x = bool_decide (x = r) || block_used f d x;
  ba_zero : blk f' d' r = zeros (block_size f);
  ba_frame : forall x, 0 < x < sbf f sb_blocks_count -> x <> r -> ~ in_region f RDescriptors x ->
    (forall g, ~ in_region f (RBlockBitmap g) x) -> blk f' d' x = blk f d x;
  ba_counts : gd f' (r / sbf f sb_blocks_per_group) gd_free_blocks_count =
                gd f (r / sbf f sb_blocks_per_group) gd_free_blocks_count - 1 /\
              sbf f' sb_free_blocks_count = u32 (sbf f sb_free_blocks_count - 1)
}.

Lemma mounted_lock f d x : mounted f d -> mounted (f <| fs_spinlock := x |>) d.
Proof. intros [[] ? ? ? ?]. split; [split|..]; assumption. Qed.

Lemma count_down_lock f g hg hs : fs_spinlock f = 0 ->
  (count_down (f <| fs_spinlock := 1 |>) g hg hs) <| fs_spinlock := 0 |> = count_down f g hg hs.
Proof. destruct f. simpl. by intros ->. Qed.
Lemma lock_unlock f : fs_spinlock f = 0 -> (f <| fs_spinlock := 1 |>) <| fs_spinlock := 0 |> = f.
Proof. destruct f. simpl. by intros ->. Qed.

Section TakeBlock.
Context (f : ext2_filesystem_t) (d : list Z) (g li : Z).
Context (Hm : mounted f d) (Hc : consistent f d).
Let bpg := sbf f sb_blocks_per_group.
Context (Hg : 0 <= g < block_groups_count f) (Hli : 0 <= li < bpg).
Context (Hpos : 0 < gd f g gd_free_blocks_count).
Context (Hfree : bit_at (blk f d (gd f g gd_block_bitmap)) li = false).
Context (Hfirst : forall i, 0 <= i < li -> bit_at (blk f d (gd f g gd_block_bitmap)) i = true).
Context (Hbefore : forall g', 0 <= g' < g -> 0 < gd f g' gd_free_blocks_count ->
  forall i, 0 <= i < bpg -> bit_at (blk f d (gd f g' gd_block_bitmap)) i = true).

Let r := g * bpg + li.
Let bm := gd f g gd_block_bitmap.
Let d1 := splice (bm * block_size f) (set_bit (blk f d bm) li) d.
Let f' := count_down f g gd_free_blocks_count sb_free_blocks_count.
Let d3 := flush f' d1.
Let d4 := splice (r * block_size f) (zeros (block_size f)) d3.

Lemma take_div : r / bpg = g /\ r mod bpg = li.
Proof.
  unfold r. rewrite (Z.add_comm _ li), Z_div_plus_full, Z_mod_plus_full by lia.
  rewrite Z.div_small, Z.mod_small by done. lia.
Qed.

Lemma take_new : 0 < r < sbf f sb_blocks_count /\ block_used f d r = false /\ forall R, ~ in_region f R r.
Proof.
  destruct take_div as [Hd Hmo]. assert (Hu : block_used f d r = false).
  { unfold block_used. fold bpg. by rewrite Hd, Hmo. }
  destruct Hc. split_and!; try done.
  - assert (r <> 0) by (intros E; rewrite E in Hu; congruence). unfold r in *. nia.
  - destruct (decide (r < sbf f sb_blocks_count)); [done|]. rewrite co_end0 in Hu; [done|]. fold bpg. unfold r in *. nia.
  - intros R HR. rewrite (co_region0 R) in Hu by done. done.
Qed.

Lemma take_bitmap : in_region f (RBlockBitmap g) bm /\ 0 < bm < sbf f sb_blocks_count /\ bm <> r /\
  zlen (blk f d bm) = block_size f /\ zlen (set_bit (blk f d bm) li) = block_size f /\
  bytes (set_bit (blk f d bm) li) /\ li / 8 < block_size f.
Proof.
  pose proof (mo_geometry _ _ Hm) as Hgeo. assert (Hin : in_region f (RBlockBitmap g) bm) by done.
  pose proof (ge_region _ Hgeo _ _ Hin) as Hr. destruct take_new as (_ & _ & Hnot).
  pose proof (blk_zlen f d bm Hm ltac:(lia)) as Hz. pose proof (ge_bpg _ Hgeo) as Hbp. fold bpg in Hbp.
  assert (li / 8 < block_size f) by dlia.
  split_and!; try done; try lia.
  - intros E. apply (Hnot (RBlockBitmap g)). by rewrite <- E.
  - rewrite set_bit_zlen; lia.
  - by apply set_bit_bytes, blk_bytes.
Qed.

Lemma take_mounted : mounted f' d3 /\ mounted f' d4 /\ same_layout f f'.
Proof.
  pose proof (mo_geometry _ _ Hm) as Hgeo. destruct take_bitmap as (Hin & Hbm & Hne & Hz & Hz' & Hb' & _).
  destruct take_new as (Hr & _ & Hnot).
  assert (Hcount : is_counter gd_free_blocks_count sb_free_blocks_count) by by left.
  pose proof (count_down_layout f g _ _ Hgeo Hg Hcount) as Hl.
  assert (Hm1 : mounted f d1).
  { apply mounted_write; try done. intros Hd. pose proof (ge_disjoint _ Hgeo _ _ _ Hd Hin). done. }
  assert (Hnb : sbf f' sb_blocks_count = sbf f sb_blocks_count) by (apply (sl_sb _ _ Hl); set_solver).
  assert (Hm3 : mounted f' d3).
  { apply flush_mounted; [by apply count_down_geometry|apply (mo_bytes _ _ Hm1)|]. rewrite Hnb. apply (mo_size _ _ Hm1). }
  split_and!; try done. apply (mounted_write f' d3 r); try done.
  - by rewrite Hnb.
  - rewrite (same_layout_region f f') by done. apply Hnot.
  - change (block_size f') with (block_size f). pose proof (ge_bs _ Hgeo). by rewrite zeros_zlen by lia.
  - apply zeros_bytes.
Qed.

Lemma take_blk x : 0 < x < sbf f sb_blocks_count -> ~ in_region f RDescriptors x ->
  blk f' d4 x = if decide (x = r) then zeros (block_size f) else if decide (x = bm) then set_bit (blk f d bm) li else blk f d x.
Proof.
  intros Hx Hd. destruct take_mounted as (Hm3 & _ & Hl). destruct take_new as (Hr & _).
  destruct take_bitmap as (_ & Hbm & _ & _ & Hz' & _). pose proof (mo_geometry _ _ Hm) as Hgeo. pose proof (ge_bs _ Hgeo).
  assert (Hnb : sbf f' sb_blocks_count = sbf f sb_blocks_count) by (apply (sl_sb _ _ Hl); set_solver).
  unfold d4. change (block_size f) with (block_size f') at 1. rewrite blk_write; [|done|lia|lia|].
  2:{ change (block_size f') with (block_size f). by rewrite zeros_zlen by lia. }
  case_decide; [done|]. unfold d3. rewrite flush_blk.
  - change (blk f' d1 x) with (blk f d1 x). unfold d1. rewrite blk_write; [done|done|lia|lia|done].
  - apply Hm3.
  - rewrite Hnb. change (block_size f') with (block_size f). unfold d1.
    pose proof (mo_size _ _ Hm). rewrite splice_zlen; nia.
  - lia.
  - by rewrite (same_layout_region f f').
Qed.

Lemma take_used x : 0 <= x < block_groups_count f * bpg -> block_used f' d4 x = bool_decide (x = r) || block_used f d x.
Proof.
  intros Hx. destruct take_mounted as (_ & _ & Hl). destruct (sl_sb _ _ Hl) as [_ Hs]. destruct (sl_bg _ _ Hl) as [_ Hgd].
  pose proof (mo_geometry _ _ Hm) as Hgeo. pose proof (ge_bpg _ Hgeo) as Hbp. fold bpg in Hbp.
  unfold block_used. rewrite Hs by set_solver. fold bpg.
  assert (Hxg : 0 <= x / bpg < block_groups_count f) by (split; [apply Z.div_pos; lia|apply Z.div_lt_upper_bound; lia]).
  rewrite Hgd by (done || set_solver).
  assert (Hin : in_region f (RBlockBitmap (x / bpg)) (gd f (x / bpg) gd_block_bitmap)) by done.
  destruct take_bitmap as (Hbin & Hbm & _ & Hz & _ & _ & Hli8). destruct take_new as (_ & _ & Hnot).
  rewrite take_blk; [|by apply (ge_region _ Hgeo _ _ Hin)|intros Hd; by pose proof (ge_disjoint _ Hgeo _ _ _ Hd Hin)].
  rewrite decide_False by (intros E; apply (Hnot (RBlockBitmap (x / bpg))); by rewrite <- E).
  assert (Hxm : x = bpg * (x / bpg) + x mod bpg) by (apply Z.div_mod; lia).
  pose proof (Z.mod_pos_bound x bpg ltac:(lia)).
  case_decide as E.
  - rewrite E in Hin. pose proof (ge_disjoint _ Hgeo _ _ _ Hin Hbin) as Heq. injection Heq as Heq.
    rewrite bit_at_set by (try lia; by apply blk_bytes). rewrite Heq. f_equal. apply bool_decide_ext. unfold r. rewrite Heq in Hxm. lia.
  - rewrite bool_decide_eq_false_2; [done|]. intros ->. apply E. destruct take_div as [-> _]. done.
Qed.

Lemma take_block_allocated : block_allocated f d r f' d4.
Proof.
  destruct take_mounted as (_ & Hm4 & Hl). pose proof take_new as Hnew. pose proof (mo_geometry _ _ Hm) as Hgeo.
  destruct (sl_sb _ _ Hl) as [_ Hs]. pose proof (ge_bpg _ Hgeo) as Hbp. fold bpg in Hbp.
  assert (Hnd : forall R x, in_region f R x -> R <> RDescriptors -> ~ in_region f RDescriptors x).
  { intros R x HR Hne Hd. apply Hne. by apply (ge_disjoint _ Hgeo R RDescriptors x). }
  split; try done.
  - fold bpg. by destruct take_div as [-> _].
  - intros x Hx Hp. unfold block_used. fold bpg in Hp |- *. pose proof (Z.mod_pos_bound x bpg ltac:(lia)) as Hmod.
    assert (Hxm : x = bpg * (x / bpg) + x mod bpg) by (apply Z.div_mod; lia).
    assert (x / bpg <= g) by (apply Z.lt_succ_r, Z.div_lt_upper_bound; unfold r in Hx; nia).
    destruct (decide (x / bpg = g)) as [E|]; [rewrite E; apply Hfirst; unfold r in Hx; nia|].
    apply Hbefore; [|done|done]. split; [apply Z.div_pos; lia|lia].
  - destruct Hc. split.
    + rewrite take_used; [|pose proof (ge_groups _ Hgeo); nia]. by rewrite co_super0, orb_true_r.
    + intros R x HR. rewrite (same_layout_region f f') in HR by done.
      pose proof (ge_region _ Hgeo _ _ HR). pose proof (ge_cover _ Hgeo) as Hcov. fold bpg in Hcov.
      rewrite take_used by lia. by rewrite (co_region0 R), orb_true_r.
    + intros x Hx. rewrite !Hs, (sl_groups _ _ Hl) in Hx by set_solver. fold bpg in Hx.
      rewrite take_used by (destruct Hnew; lia). by rewrite co_end0, orb_true_r.
  - exact take_used.
  - destruct Hnew as (Hr & _ & Hnot). rewrite take_blk by (done || apply Hnot). by rewrite decide_True.
  - intros x Hx Hne Hd Hb. rewrite take_blk by done. rewrite decide_False by done. rewrite decide_False; [done|].
    intros ->. apply (Hb g). done.
  - fold bpg. destruct take_div as [-> _].
    destruct (count_down_counts f g gd_free_blocks_count sb_free_blocks_count Hgeo Hg ltac:(by left) Hpos) as (H1 & H2 & _).
    done.
Qed.
End TakeBlock.

(** ** Taking an inode *)

Record inode_allocated (f : ext2_filesystem_t) (d : list Z) (i : Z) (f' : ext2_filesystem_t) (d' : list Z) : Prop := {
  ia_new : 0 < i <= block_groups_count f * sbf f sb_inodes_per_group /\ inode_used f d i = false /\
    (i <= sbf f sb_inodes_per_group -> sbf f sb_first_ino < i);
  ia_mounted : mounted f' d';
  ia_layout : same_layout f f';
  ia_used : forall j, 0 < j <= block_groups_count f * sbf f sb_inodes_per_group ->
    inode_used f' d' j = bool_decide (j = i) || inode_used f d j;
  ia_frame : forall x, 0 < x < sbf f sb_blocks_count -> ~ in_region f RDescriptors x ->
    (forall g, ~ in_region f (RInodeBitmap g) x) -> blk f' d' x = blk f d x;
  ia_counts : gd f' ((i - 1) / sbf f sb_inodes_per_group) gd_free_inodes_count =
                gd f ((i - 1) / sbf f sb_inodes_per_group) gd_free_inodes_count - 1 /\
              sbf f' sb_free_inodes_count = u32 (sbf f sb_free_inodes_count - 1)
}.

Section TakeInode.
Context (f : ext2_filesystem_t) (d : list Z) (g li : Z) (c : list Z).
Context (Hm : mounted f d).
Let ipg := sbf f sb_inodes_per_group.
Context (Hg : 0 <= g < block_groups_count f) (Hli : 0 <= li < ipg).
Let bm := gd f g gd_inode_bitmap.
Context (Hc : zlen c = block_size f) (Hcb : bytes c).
Let d1 := splice (bm * block_size f) c d.
Let f' := count_down f g gd_free_inodes_count sb_free_inodes_count.
Let d3 := flush f' d1.

Lemma takei_bitmap : in_region f (RInodeBitmap g) bm /\ 0 < bm < sbf f sb_blocks_count.
Proof.
  pose proof (mo_geometry _ _ Hm) as Hgeo. assert (Hin : in_region f (RInodeBitmap g) bm) by done.
  split; [done|]. by apply (ge_region _ Hgeo _ _ Hin).
Qed.

Lemma takei_mounted : mounted f' d3 /\ same_layout f f'.
Proof.
  pose proof (mo_geometry _ _ Hm) as Hgeo. destruct takei_bitmap as (Hin & Hbm).
  assert (Hcount : is_counter gd_free_inodes_count sb_free_inodes_count) by by right.
  pose proof (count_down_layout f g _ _ Hgeo Hg Hcount) as Hl.
  assert (Hm1 : mounted f d1).
  { apply mounted_write; try done. intros Hd. pose proof (ge_disjoint _ Hgeo _ _ _ Hd Hin). done. }
  split; [|done]. apply flush_mounted; [by apply count_down_geometry|apply (mo_bytes _ _ Hm1)|].
  destruct (sl_sb _ _ Hl) as [_ ->]; [|set_solver]. apply (mo_size _ _ Hm1).
Qed.

Lemma takei_blk x : 0 < x < sbf f sb_blocks_count -> ~ in_region f RDescriptors x ->
  blk f' d3 x = if decide (x = bm) then c else blk f d x.
Proof.
  intros Hx Hd. destruct takei_mounted as (_ & Hl). destruct takei_bitmap as (Hin & Hbm).
  pose proof (mo_geometry _ _ Hm) as Hgeo.
  assert (Hm1 : mounted f d1).
  { apply mounted_write; try done. intros Hr. pose proof (ge_disjoint _ Hgeo _ _ _ Hr Hin). done. }
  unfold d3. rewrite flush_blk.
  - change (blk f' d1 x) with (blk f d1 x). unfold d1. rewrite blk_write; [done|done|lia|lia|done].
  - apply count_down_geometry; [done|done|by right].
  - destruct (sl_sb _ _ Hl) as [_ ->]; [|set_solver]. apply (mo_size _ _ Hm1).
  - lia.
  - by rewrite (same_layout_region f f').
Qed.

(** Another inode keeps its bit, the inodes of this group have those of [c]. *)
Lemma takei_used j : 0 < j <= block_groups_count f * ipg ->
  inode_used f' d3 j = if decide ((j - 1) / ipg = g) then bit_at c ((j - 1) mod ipg) else inode_used f d j.
Proof.
  intros Hj. destruct takei_mounted as (_ & Hl). destruct (sl_sb _ _ Hl) as [_ Hs]. destruct (sl_bg _ _ Hl) as [_ Hgd].
  pose proof (mo_geometry _ _ Hm) as Hgeo. pose proof (ge_ipg _ Hgeo) as Hip. fold ipg in Hip.
  unfold inode_used. rewrite Hs by set_solver. fold ipg.
  assert (Hxg : 0 <= (j - 1) / ipg < block_groups_count f) by (split; [apply Z.div_pos; lia|apply Z.div_lt_upper_bound; lia]).
  rewrite Hgd by (done || set_solver).
  assert (Hin : in_region f (RInodeBitmap ((j - 1) / ipg)) (gd f ((j - 1) / ipg) gd_inode_bitmap)) by done.
  destruct takei_bitmap as (Hbin & Hbm).
  rewrite takei_blk; [|by apply (ge_region _ Hgeo _ _ Hin)|intros Hd; by pose proof (ge_disjoint _ Hgeo _ _ _ Hd Hin)].
  case_decide as E; case_decide as E2; try done.
  - destruct E2. rewrite E in Hin. pose proof (ge_disjoint _ Hgeo _ _ _ Hin Hbin) as Heq. by injection Heq.
  - destruct E. by rewrite E2.
Qed.

Lemma takei_div : (g * ipg + li + 1 - 1) / ipg = g /\ (g * ipg + li + 1 - 1) mod ipg = li.
Proof.
  replace (g * ipg + li + 1 - 1) with (li + g * ipg) by lia. rewrite Z_div_plus_full, Z_mod_plus_full by lia.
  rewrite Z.div_small, Z.mod_small by done. lia.
Qed.

Lemma take_inode_allocated : c = set_bit (blk f d bm) li -> 0 < gd f g gd_free_inodes_count ->
  bit_at (blk f d bm) li = false -> (g = 0 -> sbf f sb_first_ino <= li) ->
  inode_allocated f d (g * ipg + li + 1) f' d3.
Proof.
  intros Hset Hpos Hfree Hres. destruct takei_mounted as (Hm' & Hl). destruct takei_div as [Hdiv Hmod].
  pose proof (mo_geometry _ _ Hm) as Hgeo. pose proof (ge_ipg _ Hgeo) as Hip. fold ipg in Hip.
  destruct takei_bitmap as (Hbin & Hbm).
  split; try done.
  - fold ipg. split_and!; try nia.
    unfold inode_used. fold ipg. by rewrite Hdiv, Hmod.
  - intros j Hj. fold ipg in Hj. rewrite takei_used by done. pose proof (Z.mod_pos_bound (j - 1) ipg ltac:(lia)).
    assert (Hjm : j - 1 = ipg * ((j - 1) / ipg) + (j - 1) mod ipg) by (apply Z.div_mod; lia).
    case_decide as E.
    + assert (Hli8 : li / 8 < zlen (blk f d bm)) by (rewrite (blk_zlen _ _ _ Hm) by lia; dlia).
      rewrite Hset, bit_at_set by (try lia; by apply blk_bytes). f_equal.
      * apply bool_decide_ext. rewrite E in Hjm. lia.
      * unfold inode_used. fold ipg. by rewrite E.
    + rewrite bool_decide_eq_false_2; [done|]. intros ->. by rewrite Hdiv in E.
  - intros x Hx Hd Hb. rewrite takei_blk by done. rewrite decide_False; [done|]. intros ->. by apply (Hb g).
  - fold ipg. rewrite Hdiv.
    destruct (count_down_counts f g gd_free_inodes_count sb_free_inodes_count Hgeo Hg ltac:(by right) Hpos) as (H1 & H2 & _).
    done.
Qed.
End TakeInode.

Section Searches.
Context {D X : Type} `{BlockDevice D} `{HeapAllocator X}.
Abbreviation tri := (triple (repr (D := D) (X := X))).
Abbreviation cost := (ha_cost (X := X)).
Implicit Types (d c : list Z) (r : Z) (b : gmap Z (list Z)) (f : ext2_filesystem_t).

(** A free inode of group [g]; those of group 0 below first_ino are reserved. *)
Definition free_inode f d g i : Prop :=
  ((g =? 0) = true -> sbf f sb_first_ino <= i) /\ bit_at (blk f d (gd f g gd_inode_bitmap)) i = false.
Definition inode_search f d g0 n (a : bool * Z * Z) : Prop :=
  let '(ok, g, li) := a in
  (forall g', g0 <= g' < (if ok then g else g0 + n) -> 0 < gd f g' gd_free_inodes_count ->
     forall i, 0 <= i < sbf f sb_inodes_per_group -> ~ free_inode f d g' i) /\
  (ok = true -> g0 <= g < g0 + n /\ 0 < gd f g gd_free_inodes_count /\
     first_found (free_inode f d g) 0 (sbf f sb_inodes_per_group) (true, li)).

Lemma inode_search_skip f d g0 n a :
  (0 < gd f g0 gd_free_inodes_count -> forall i, 0 <= i < sbf f sb_inodes_per_group -> ~ free_inode f d g0 i) ->
  inode_search f d (g0 + 1) n a -> inode_search f d g0 (n + 1) a.
Proof.
  destruct a as [[ok g] li]. intros H0' [Hno Hyes]. split.
  - intros g' Hg'. destruct (decide (g' = g0)) as [->|]; [done|]. apply Hno. destruct ok; lia.
  - intros Hok. destruct (Hyes Hok) as (? & ?). split; [lia|done].
Qed.

Lemma find_free_inode_groups_ok d r f p n : forall b g0 li c, mounted f d -> b !! p = Some c -> 0 < p ->
  zlen c = block_size f -> 0 <= g0 -> g0 + Z.of_nat n <= block_groups_count f ->
  tri (View d r b f) (find_free_inode_groups n p g0 li)
    (fun a v' => inode_search f d g0 (Z.of_nat n) a /\ exists c', zlen c' = block_size f /\
       v' = View d r (<[p := c']> b) f /\ (a.1.1 = true -> c' = blk f d (gd f a.1.2 gd_inode_bitmap))).
Proof.
  induction n as [|n IH]; intros b g0 li c Hm Hp Hp0 Hc Hg0 Hn; cbn [find_free_inode_groups].
  { apply triple_ret. split; [split; [simpl; lia|done]|]. exists c. by rewrite insert_id. }
  pose proof (mo_geometry _ _ Hm) as Hgeo.
  assert (Hnext : forall b' li' c', b' !! p = Some c' -> zlen c' = block_size f -> (forall x, <[p := x]> b' = <[p := x]> b) ->
    (0 < gd f g0 gd_free_inodes_count -> forall i, 0 <= i < sbf f sb_inodes_per_group -> ~ free_inode f d g0 i) ->
    tri (View d r b' f) (find_free_inode_groups n p (g0 + 1) li') (fun a v' => inode_search f d g0 (Z.of_nat (S n)) a /\
       exists c', zlen c' = block_size f /\ v' = View d r (<[p := c']> b) f /\
         (a.1.1 = true -> c' = blk f d (gd f a.1.2 gd_inode_bitmap)))).
  { intros b' li' c' Hp' Hc' Hb' Hfull. eapply triple_mono; [apply (IH b' (g0 + 1) li' c'); try done; lia|].
    intros a v' (Hs & c2 & Hc2 & -> & Ha). split.
    - replace (Z.of_nat (S n)) with (Z.of_nat n + 1) by lia. by apply inode_search_skip.
    - exists c2. by rewrite Hb'. }
  apply triple_bind, tri_bg; [apply gd_fits; simpl; try done; lia|].
  fold (gd f g0 gd_free_inodes_count). case_match eqn:Hfree; [apply Z.ltb_lt in Hfree|apply Z.ltb_ge in Hfree].
  2:{ apply (Hnext b li c); try done. lia. }
  apply triple_bind, tri_bg; [apply gd_fits; simpl; try done; lia|]. fold (gd f g0 gd_inode_bitmap).
  assert (Hreg : 0 < gd f g0 gd_inode_bitmap < sbf f sb_blocks_count)
    by (apply (ge_region _ Hgeo (RInodeBitmap g0)); split; [lia|done]).
  apply triple_bind. eapply tri_read_block; [done|done|done|done|done|]. pose proof (ge_bs _ Hgeo).
  rewrite (proj2 (Z.ltb_ge _ _)) by lia. apply triple_bind, triple_bind, tri_sb, triple_bind, tri_sb.
  fold (sbf f sb_inodes_per_group) (sbf f sb_first_ino).
  pose proof (ge_ipg _ Hgeo) as Hipg. pose proof (blk_zlen f d _ Hm (conj (Z.lt_le_incl _ _ (proj1 Hreg)) (proj2 Hreg))) as Hz.
  eapply triple_mono; [apply find_free_inode_loop_ok; [apply lookup_insert_eq|lia|rewrite Hz; lia]|].
  intros [ok i] v' [-> Hf]. rewrite Z2Nat.id, Z.add_0_l in Hf by lia. destruct ok.
  - apply triple_ret. split; [split; [simpl; lia|intros _; split; [lia|done]]|].
    exists (blk f d (gd f g0 gd_inode_bitmap)). done.
  - eapply Hnext; [apply lookup_insert_eq|done|intros; apply insert_insert_eq|].
    intros _ j Hj. destruct Hf as [Hf _]. by apply Hf.
Qed.
End Searches.

(** ** The allocations *)
Section Allocate.
Context {D X : Type} `{BlockDevice D} `{HeapAllocator X}.
Abbreviation tri := (triple (repr (D := D) (X := X))).
Abbreviation cost := (ha_cost (X := X)).
Implicit Types (d c : list Z) (r : Z) (b : gmap Z (list Z)) (f : ext2_filesystem_t).

Lemma tri_claim_block d r b f g li p (Q : Z -> view -> Prop) : let f1 := f <| fs_spinlock := 1 |> in
  mounted f d -> consistent f d -> fs_spinlock f = 0 -> b !! p = None -> 0 < p -> 0 <= g < block_groups_count f ->
  block_search f d 0 (block_groups_count f) (true, g, li) ->
  (forall x f' d', block_allocated f d x f' d' -> Q x (View d' r b f')) ->
  tri (View d r (<[p := blk f d (gd f g gd_block_bitmap)]> b) f1) (claim_block p g li) Q.
Proof.
  intros f1 Hm Hc Hl Hp Hp0 Hgr [Hbefore Hg] Hsome. unfold claim_block.
  destruct (Hg eq_refl) as (_ & Hpos & Hfirst & Hfree). clear Hg.
  destruct (Hfree eq_refl) as [Hli Hbit]. clear Hfree. cbn [fst snd] in *.
  pose proof (mo_geometry _ _ Hm) as Hgeo. pose proof (ge_bs _ Hgeo) as Hbs.
  pose proof (mounted_lock f d 1 Hm) as Hm1. fold f1 in Hm1.
  apply triple_bind, tri_fs, triple_bind, tri_sb.
  change (fget sb_blocks_per_group (superblock f1)) with (sbf f sb_blocks_per_group). change (block_size f1) with (block_size f).
  assert (Hfull : forall i, 0 <= i < li -> bit_at (blk f d (gd f g gd_block_bitmap)) i = true).
  { intros i Hi. apply not_false_iff_true. by apply Hfirst. }
  pose proof (take_bitmap f d g li Hm Hc Hgr Hli Hbit) as (_ & Hbm & _ & Hz & Hz' & Hb' & Hli8).
  pose proof (take_new f d g li Hc Hgr Hli Hbit) as (Hnew & _).
  pose proof (take_block_allocated f d g li Hm Hc Hgr Hli Hpos Hbit Hfull Hbefore) as Hba.
  assert (Hover : sbf f sb_blocks_count < 2147483648) by (pose proof (ge_blocks _ Hgeo); nia).
  apply triple_bind. eapply tri_set_bit; [apply lookup_insert_eq|lia|by rewrite Hz|]. rewrite insert_insert_eq.
  apply triple_bind, tri_bg; [apply gd_fits; [apply Hm1|done|done|done]|].
  fold (gd f1 g gd_block_bitmap). change (gd f1) with (gd f).
  apply triple_bind. eapply tri_write_block; [done|done|apply lookup_insert_eq|done|done|done|].
  eapply tri_count_down; [apply Hm1|done|by left|..].
  { change (block_size f1) with (block_size f). change (sbf f1) with (sbf f). pose proof (mo_size _ _ Hm). rewrite splice_zlen; nia. }
  apply triple_bind. eapply tri_copy_in; [apply lookup_insert_eq|lia|rewrite zeros_zlen; lia|].
  rewrite splice_all by (rewrite zeros_zlen; lia). rewrite insert_insert_eq.
  rewrite (u32_small (g * _)), u32_small by nia.
  destruct (take_mounted f d g li Hm Hc Hgr Hli Hpos Hbit Hfull Hbefore) as (Hm3 & _ & Hlay).
  apply triple_bind. eapply tri_write_block; [apply (mounted_lock _ _ 1 Hm3)| |apply lookup_insert_eq|done|apply zeros_zlen; simpl; lia|apply zeros_bytes|].
  { destruct (sl_sb _ _ Hlay) as [_ Hsb]. pose proof (Hsb sb_blocks_count ltac:(set_solver)) as Hn.
    rewrite <- Hn in Hnew. exact Hnew. }
  apply triple_bind. eapply tri_free_cache; [apply lookup_insert_eq|]. rewrite delete_insert_id by done.
  apply triple_bind, tri_fs_unlock, triple_ret.
  pose proof (Hsome _ _ _ Hba) as HQ. rewrite <- (count_down_lock f g) in HQ by done. exact HQ.
Qed.

(** The rule of [ext2_allocate_block]: no group that counts a free block has one,
    or the first such block is taken. *)
Lemma tri_allocate_block d r b f (Q : Z -> view -> Prop) : mounted f d -> consistent f d -> fs_spinlock f = 0 ->
  cost (block_size f) <= r ->
  ((forall x, 0 <= x < sbf f sb_blocks_count -> 0 < gd f (x / sbf f sb_blocks_per_group) gd_free_blocks_count ->
      block_used f d x = true) -> Q 0 (View d (r - cost (block_size f)) b f)) ->
  (forall x f' d', block_allocated f d x f' d' -> Q x (View d' (r - cost (block_size f)) b f')) ->
  tri (View d r b f) ext2_allocate_block Q.
Proof.
  intros Hm Hc Hl Hr Hnone Hsome. unfold ext2_allocate_block.
  pose proof (mo_geometry _ _ Hm) as Hgeo. pose proof (ge_bs _ Hgeo) as Hbs. pose proof (ge_bpg _ Hgeo) as Hbpg.
  pose proof (ge_groups _ Hgeo) as [Hgs _].
  apply triple_bind, tri_fs_lock; [done|]. set (f1 := f <| fs_spinlock := 1 |>).
  pose proof (mounted_lock f d 1 Hm) as Hm1. fold f1 in Hm1.
  apply triple_bind, tri_fs, triple_bind, tri_new_cache; [simpl; lia|done|]. intros p Hp Hp0.
  apply triple_bind, triple_bind, tri_fs. change (block_size f1) with (block_size f).
  eapply triple_mono; [apply (find_free_block_groups_ok _ _ f1 p _ _ 0 0 (zeros (block_size f)) Hm1);
    [apply lookup_insert_eq|done|apply zeros_zlen; simpl; lia|lia|simpl; lia]|].
  intros [[ok g] li] v' (Hs & c' & Hc' & -> & Hcb). rewrite insert_insert_eq.
  change (block_groups_count f1) with (block_groups_count f) in Hs. rewrite Z2Nat.id in Hs by lia.
  unfold block_search in Hs. change (sbf f1) with (sbf f) in *. change (blk f1) with (blk f) in *. change (gd f1) with (gd f) in *.
  destruct ok; cbn [negb].
  - rewrite (Hcb eq_refl). apply (tri_claim_block d (r - cost (block_size f)) b f g li p); try done.
    destruct Hs as [_ Hs]. destruct (Hs eq_refl). lia.
  - apply triple_bind, tri_fs_unlock, triple_bind. unfold f1. rewrite (lock_unlock f) by done.
    eapply tri_free_cache; [apply lookup_insert_eq|]. rewrite delete_insert_id by done.
    apply triple_ret, Hnone. intros x Hx Hpos. destruct Hs as [Hs _]. pose proof (ge_cover _ Hgeo).
    apply (Hs (x / sbf f sb_blocks_per_group)); [|done|apply Z.mod_pos_bound; lia].
    rewrite Z.add_0_l. split; [apply Z.div_pos; lia|apply Z.div_lt_upper_bound; lia].
Qed.

(** The end of [ext2_allocate_inode], for any bitmap in the buffer. *)
Lemma tri_claim_inode d r b f g li p c (Q : Z -> view -> Prop) : let f1 := f <| fs_spinlock := 1 |> in
  let f' := count_down f g gd_free_inodes_count sb_free_inodes_count in
  mounted f d -> fs_spinlock f = 0 -> b !! p = None -> 0 < p -> 0 <= g < block_groups_count f ->
  0 <= li < sbf f sb_inodes_per_group -> block_groups_count f * sbf f sb_inodes_per_group < 4294967296 ->
  zlen c = block_size f -> bytes c ->
  Q (g * sbf f sb_inodes_per_group + li + 1)
    (View (flush f' (splice (gd f g gd_inode_bitmap * block_size f) (set_bit c li) d)) r b f') ->
  tri (View d r (<[p := c]> b) f1) (claim_inode p g li) Q.
Proof.
  intros f1 f' Hm Hl Hp Hp0 Hgr Hli Hover Hc Hcb HQ. unfold claim_inode.
  pose proof (mo_geometry _ _ Hm) as Hgeo. pose proof (ge_bs _ Hgeo) as Hbs. pose proof (ge_ipg _ Hgeo) as Hipg.
  pose proof (mounted_lock f d 1 Hm) as Hm1. fold f1 in Hm1.
  assert (Hli8 : li / 8 < block_size f) by dlia.
  assert (Hbm : 0 < gd f g gd_inode_bitmap < sbf f sb_blocks_count) by by apply (ge_region _ Hgeo (RInodeBitmap g)).
  apply triple_bind, tri_sb. change (fget sb_inodes_per_group (superblock f1)) with (sbf f sb_inodes_per_group).
  rewrite (u32_small (g * _)), u32_small by nia.
  apply triple_bind. eapply tri_set_bit; [apply lookup_insert_eq|lia|by rewrite Hc|]. rewrite insert_insert_eq.
  apply triple_bind, tri_bg; [apply gd_fits; [apply Hm1|done|done|done]|].
  fold (gd f1 g gd_inode_bitmap). change (gd f1) with (gd f).
  apply triple_bind. eapply tri_write_block; [done|done|apply lookup_insert_eq|done|rewrite set_bit_zlen; simpl; lia|by apply set_bit_bytes|].
  apply triple_bind. eapply tri_free_cache; [apply lookup_insert_eq|]. rewrite delete_insert_id by done.
  eapply tri_count_down; [apply Hm1|done|by right|..].
  { change (block_size f1) with (block_size f). change (sbf f1) with (sbf f). pose proof (mo_size _ _ Hm).
    pose proof (set_bit_zlen c li). rewrite splice_zlen; nia. }
  apply triple_bind, tri_fs_unlock, triple_ret. unfold f' in HQ. rewrite <- (count_down_lock f g) in HQ by done. exact HQ.
Qed.

(** The rule of [ext2_allocate_inode] without a preferred group. *)
Lemma tri_allocate_inode d r b f (Q : Z -> view -> Prop) : mounted f d -> fs_spinlock f = 0 ->
  block_groups_count f * sbf f sb_inodes_per_group < 4294967296 -> cost (block_size f) <= r ->
  ((forall g i, 0 <= g < block_groups_count f -> 0 < gd f g gd_free_inodes_count ->
      0 <= i < sbf f sb_inodes_per_group -> ~ free_inode f d g i) -> Q 0 (View d (r - cost (block_size f)) b f)) ->
  (forall x f' d', inode_allocated f d x f' d' -> Q x (View d' (r - cost (block_size f)) b f')) ->
  tri (View d r b f) (ext2_allocate_inode 0) Q.
Proof.
  intros Hm Hl Hover Hr Hnone Hsome. unfold ext2_allocate_inode.
  pose proof (mo_geometry _ _ Hm) as Hgeo. pose proof (ge_bs _ Hgeo) as Hbs.
  pose proof (ge_groups _ Hgeo) as [Hgs _].
  apply triple_bind, tri_fs_lock; [done|]. set (f1 := f <| fs_spinlock := 1 |>).
  pose proof (mounted_lock f d 1 Hm) as Hm1. fold f1 in Hm1.
  apply triple_bind, tri_fs, triple_bind, tri_new_cache; [simpl; lia|done|]. intros p Hp Hp0.
  apply triple_bind, triple_bind, tri_fs. change (block_size f1) with (block_size f). cbn [negb Z.eqb].
  eapply triple_mono; [apply (find_free_inode_groups_ok _ _ f1 p _ _ 0 0 (zeros (block_size f)) Hm1);
    [apply lookup_insert_eq|done|apply zeros_zlen; simpl; lia|lia|simpl; lia]|].
  intros [[ok g] li] v' (Hs & c' & Hc' & -> & Hcb). rewrite insert_insert_eq.
  change (block_groups_count f1) with (block_groups_count f) in Hs. rewrite Z2Nat.id in Hs by lia.
  unfold inode_search in Hs. change (sbf f1) with (sbf f) in *. change (free_inode f1) with (free_inode f) in *.
  change (gd f1) with (gd f) in *. change (blk f1) with (blk f) in *. destruct ok; cbn [negb].
  - destruct Hs as [_ Hs]. destruct (Hs eq_refl) as (Hgr & Hpos & _ & Hfree). rewrite (Hcb eq_refl) in *.
    destruct (Hfree eq_refl) as [Hli [Hres Hbit]]. cbn [fst snd] in *. rewrite Z.add_0_l in Hgr.
    apply (tri_claim_inode d (r - cost (block_size f)) b f g li p); try done; [by apply blk_bytes|].
    apply Hsome. apply take_inode_allocated; try done.
    + rewrite set_bit_zlen; [done|lia|]. pose proof (ge_ipg _ Hgeo). change (block_size f1) with (block_size f) in Hc'. rewrite Hc'. dlia.
    + by apply set_bit_bytes, blk_bytes.
    + intros ->. by apply Hres.
  - apply triple_bind, tri_fs_unlock, triple_bind. unfold f1. rewrite (lock_unlock f) by done.
    eapply tri_free_cache; [apply lookup_insert_eq|]. rewrite delete_insert_id by done.
    apply triple_ret, Hnone. intros g' i Hg' Hpos Hi. destruct Hs as [Hs _]. by apply Hs.
Qed.

(** With a preferred group other than 0 the bitmap of that group is never read:
    the search runs over the cleared buffer. *)
Lemma tri_allocate_inode_preferred d r b f g (Q : Z -> view -> Prop) : mounted f d -> fs_spinlock f = 0 ->
  block_groups_count f * sbf f sb_inodes_per_group < 4294967296 -> cost (block_size f) <= r ->
  0 < g < block_groups_count f ->
  let f' := count_down f g gd_free_inodes_count sb_free_inodes_count in
  Q (g * sbf f sb_inodes_per_group + 1)
    (View (flush f' (splice (gd f g gd_inode_bitmap * block_size f) (set_bit (zeros (block_size f)) 0) d))
       (r - cost (block_size f)) b f') ->
  tri (View d r b f) (ext2_allocate_inode g) Q.
Proof.
  intros Hm Hl Hover Hr Hg f' HQ. unfold ext2_allocate_inode.
  pose proof (mo_geometry _ _ Hm) as Hgeo. pose proof (ge_bs _ Hgeo) as Hbs. pose proof (ge_ipg _ Hgeo) as Hipg.
  apply triple_bind, tri_fs_lock; [done|].
  apply triple_bind, tri_fs, triple_bind, tri_new_cache; [simpl; lia|done|]. intros p Hp Hp0. simpl block_size.
  apply triple_bind, triple_bind, tri_fs. rewrite (proj2 (Z.eqb_neq g 0)) by lia. cbn [negb].
  apply triple_bind, triple_bind, tri_sb, triple_bind, tri_sb. simpl superblock. fold (sbf f sb_inodes_per_group).
  destruct (Z.to_nat (sbf f sb_inodes_per_group)) as [|n] eqn:En; [lia|]. cbn [find_free_inode_loop andb].
  apply triple_bind. eapply tri_check_bit; [apply lookup_insert_eq|lia|rewrite zeros_zlen by lia; change (0 / 8) with 0; lia|].
  replace (bit_at (zeros (block_size f)) 0) with false.
  2:{ unfold bit_at, fget. cbn [f_off f_size]. change (0 / 8) with 0. by rewrite slice_zeros by lia. }
  cbn [negb]. apply triple_ret, triple_ret. cbn [negb].
  apply (tri_claim_inode d (r - cost (block_size f)) b f g 0 p); try done; try lia; [apply zeros_zlen; lia|apply zeros_bytes|].
  by rewrite Z.add_0_r.
Qed.
End Allocate.

(** ** Inodes on the disk

    The block and the place of inode [i], and its bytes. *)
Definition inode_block (f : ext2_filesystem_t) (i : Z) : Z :=
  gd f ((i - 1) / sbf f sb_inodes_per_group) gd_inode_table +
  (i - 1) mod sbf f sb_inodes_per_group / inodes_per_block_count f.
Definition inode_pos (f : ext2_filesystem_t) (i : Z) : Z :=
  (i - 1) mod sbf f sb_inodes_per_group mod inodes_per_block_count f * sbf f sb_inode_size.
Definition inode_of (f : ext2_filesystem_t) (d : list Z) (i : Z) : list Z :=
  slice (inode_pos f i) INODE_SIZE (blk f d (inode_block f i)).
Definition write_inode (f : ext2_filesystem_t) (d : list Z) (i : Z) (v : list Z) : list Z :=
  splice (inode_block f i * block_size f) (splice (inode_pos f i) v (blk f d (inode_block f i))) d.
Definition valid_inode (f : ext2_filesystem_t) (i : Z) : Prop :=
  0 < i <= block_groups_count f * sbf f sb_inodes_per_group.

Section Inodes.
Implicit Types (f : ext2_filesystem_t) (d v : list Z) (i j x : Z).

Lemma inode_group f i : geometry f -> valid_inode f i ->
  0 <= (i - 1) / sbf f sb_inodes_per_group < block_groups_count f /\
  0 <= (i - 1) mod sbf f sb_inodes_per_group < sbf f sb_inodes_per_group.
Proof.
  intros Hgeo Hi. unfold valid_inode in Hi. pose proof (ge_ipg _ Hgeo).
  split; [split; [apply Z.div_pos; lia|apply Z.div_lt_upper_bound; lia]|apply Z.mod_pos_bound; lia].
Qed.

Lemma inode_in_region f i : geometry f -> valid_inode f i ->
  in_region f (RInodes ((i - 1) / sbf f sb_inodes_per_group)) (inode_block f i).
Proof.
  intros Hgeo Hi. destruct (inode_group f i Hgeo Hi) as [Hg Ho]. split; [done|].
  destruct (ge_isize _ Hgeo) as (_ & Hp & _). unfold inode_block, table_length.
  set (o := (i - 1) mod sbf f sb_inodes_per_group) in *. set (q := inodes_per_block_count f) in *.
  assert (0 <= o / q) by (apply Z.div_pos; lia).
  assert (o / q < (sbf f sb_inodes_per_group + q - 1) / q); [|lia].
  apply Z.lt_le_trans with ((o + 1 * q) / q); [rewrite Z.div_add by lia; lia|apply Z.div_le_mono; lia].
Qed.

Lemma inode_block_range f i : geometry f -> valid_inode f i -> 0 < inode_block f i < sbf f sb_blocks_count.
Proof. intros Hgeo Hi. eapply ge_region; [done|by apply inode_in_region]. Qed.

Lemma inode_pos_range f i : geometry f -> valid_inode f i -> 0 <= inode_pos f i /\ inode_pos f i + INODE_SIZE <= block_size f.
Proof.
  intros Hgeo Hi. destruct (inode_group f i Hgeo Hi) as [_ Ho]. destruct (ge_isize _ Hgeo) as (Hs & Hp & Hbs).
  unfold inode_pos, INODE_SIZE. pose proof (Z.mod_pos_bound ((i - 1) mod sbf f sb_inodes_per_group) (inodes_per_block_count f) Hp). nia.
Qed.

Lemma inode_of_zlen f d i : mounted f d -> valid_inode f i -> zlen (inode_of f d i) = INODE_SIZE.
Proof.
  intros Hm Hi. pose proof (mo_geometry _ _ Hm) as Hgeo. destruct (inode_pos_range f i Hgeo Hi).
  pose proof (inode_block_range f i Hgeo Hi). unfold inode_of. rewrite slice_zlen; [done|done|done|].
  rewrite (blk_zlen f d _ Hm) by lia. done.
Qed.
Lemma inode_of_bytes f d i : mounted f d -> bytes (inode_of f d i).
Proof. intros Hm. by apply slice_bytes, blk_bytes. Qed.

(** Different inodes do not overlap. *)
Lemma inode_apart f i j : geometry f -> valid_inode f i -> valid_inode f j -> i <> j -> inode_block f i = inode_block f j ->
  inode_pos f i + INODE_SIZE <= inode_pos f j \/ inode_pos f j + INODE_SIZE <= inode_pos f i.
Proof.
  intros Hgeo Hi Hj Hij Hb. pose proof (inode_in_region f i Hgeo Hi) as Hri. pose proof (inode_in_region f j Hgeo Hj) as Hrj.
  rewrite Hb in Hri. pose proof (ge_disjoint _ Hgeo _ _ _ Hri Hrj) as Hg. injection Hg as Hg.
  destruct (ge_isize _ Hgeo) as (Hs & Hp & _). unfold inode_block in Hb. rewrite Hg in Hb.
  unfold inode_pos, INODE_SIZE in *. pose proof (ge_ipg _ Hgeo) as Hipg.
  set (n := sbf f sb_inodes_per_group) in *. set (q := inodes_per_block_count f) in *.
  assert (Hi' := Z.div_mod (i - 1) n ltac:(lia)). assert (Hj' := Z.div_mod (j - 1) n ltac:(lia)). rewrite Hg in Hi'.
  assert (Hio := Z.div_mod ((i - 1) mod n) q ltac:(lia)). assert (Hjo := Z.div_mod ((j - 1) mod n) q ltac:(lia)).
  assert (Heq : (i - 1) mod n / q = (j - 1) mod n / q) by lia. rewrite Heq in Hio.
  assert (Hne : (i - 1) mod n mod q <> (j - 1) mod n mod q) by (intros E; rewrite E in Hio; lia).
  assert ((i - 1) mod n mod q < (j - 1) mod n mod q \/ (j - 1) mod n mod q < (i - 1) mod n mod q) as [?|?] by lia; nia.
Qed.

Lemma write_inode_mounted f d i v : mounted f d -> valid_inode f i -> zlen v = INODE_SIZE -> bytes v ->
  mounted f (write_inode f d i v).
Proof.
  intros Hm Hi Hv Hvb. pose proof (mo_geometry _ _ Hm) as Hgeo. destruct (inode_pos_range f i Hgeo Hi).
  pose proof (inode_block_range f i Hgeo Hi). pose proof (blk_zlen f d (inode_block f i) Hm ltac:(lia)).
  apply mounted_write; try done.
  - intros Hd. pose proof (ge_disjoint _ Hgeo _ _ _ Hd (inode_in_region f i Hgeo Hi)). done.
  - rewrite splice_zlen; lia.
  - apply splice_bytes; [by apply blk_bytes|done].
Qed.

Lemma write_inode_blk f d i v x : mounted f d -> valid_inode f i -> zlen v = INODE_SIZE -> 0 <= x ->
  blk f (write_inode f d i v) x =
  if decide (x = inode_block f i) then splice (inode_pos f i) v (blk f d (inode_block f i)) else blk f d x.
Proof.
  intros Hm Hi Hv Hx. pose proof (mo_geometry _ _ Hm) as Hgeo. destruct (inode_pos_range f i Hgeo Hi).
  pose proof (inode_block_range f i Hgeo Hi). pose proof (blk_zlen f d (inode_block f i) Hm ltac:(lia)).
  unfold write_inode. rewrite blk_write; [done|done|lia|done|]. rewrite splice_zlen; lia.
Qed.

(** The inode that is written is read back, the others stay. *)
Lemma inode_of_write f d i v j : mounted f d -> valid_inode f i -> valid_inode f j -> zlen v = INODE_SIZE ->
  inode_of f (write_inode f d i v) j = if decide (j = i) then v else inode_of f d j.
Proof.
  intros Hm Hi Hj Hv. pose proof (mo_geometry _ _ Hm) as Hgeo.
  destruct (inode_pos_range f i Hgeo Hi), (inode_pos_range f j Hgeo Hj).
  pose proof (inode_block_range f i Hgeo Hi). pose proof (inode_block_range f j Hgeo Hj).
  pose proof (blk_zlen f d (inode_block f i) Hm ltac:(lia)) as Hz.
  unfold inode_of. rewrite write_inode_blk by (done || lia).
  destruct (decide (j = i)) as [->|Hne]; [rewrite decide_True by done; apply slice_splice_eq; lia|].
  case_decide as E; [|done]. rewrite E. apply slice_splice_ne; [lia..|].
  pose proof (inode_apart f j i Hgeo Hj Hi Hne E). lia.
Qed.

(** The bitmaps only depend on their blocks. *)
Lemma block_used_ext f d d' x : geometry f -> 0 <= x < block_groups_count f * sbf f sb_blocks_per_group ->
  (forall g y, in_region f (RBlockBitmap g) y -> blk f d' y = blk f d y) -> block_used f d' x = block_used f d x.
Proof.
  intros Hgeo Hx Hb. unfold block_used. pose proof (ge_bpg _ Hgeo).
  rewrite (Hb (x / sbf f sb_blocks_per_group)); [done|]. split; [|done].
  split; [apply Z.div_pos; lia|apply Z.div_lt_upper_bound; lia].
Qed.

Lemma consistent_ext f d d' : geometry f -> (forall g y, in_region f (RBlockBitmap g) y -> blk f d' y = blk f d y) ->
  consistent f d -> consistent f d'.
Proof.
  intros Hgeo Hb []. pose proof (ge_cover _ Hgeo). pose proof (ge_groups _ Hgeo). pose proof (ge_blocks _ Hgeo).
  split.
  - rewrite (block_used_ext f d d'); [done|done|lia|done].
  - intros R x HR. pose proof (ge_region _ Hgeo _ _ HR). rewrite (block_used_ext f d d'); [by eapply co_region0|done|lia|done].
  - intros x Hx. rewrite (block_used_ext f d d'); [by apply co_end0|done|lia|done].
Qed.

Lemma write_inode_consistent f d i v : mounted f d -> valid_inode f i -> zlen v = INODE_SIZE -> consistent f d ->
  consistent f (write_inode f d i v).
Proof.
  intros Hm Hi Hv. pose proof (mo_geometry _ _ Hm) as Hgeo. apply consistent_ext; [done|].
  intros g y Hy. pose proof (ge_region _ Hgeo _ _ Hy). rewrite write_inode_blk by (done || lia).
  rewrite decide_False; [done|]. intros ->. by pose proof (ge_disjoint _ Hgeo _ _ _ Hy (inode_in_region f i Hgeo Hi)).
Qed.
End Inodes.

Section InodeIO.
Context {D X : Type} `{BlockDevice D} `{HeapAllocator X}.
Abbreviation tri := (triple (repr (D := D) (X := X))).
Abbreviation cost := (ha_cost (X := X)).
Implicit Types (d c : list Z) (r : Z) (b : gmap Z (list Z)) (f : ext2_filesystem_t).

Lemma tri_inode_place d r b f i (Q : option (Z * Z * Z) -> view -> Prop) : geometry f -> valid_inode f i -> i < 4294967296 ->
  (forall block offset, gd f ((i - 1) / sbf f sb_inodes_per_group) gd_inode_table + block = inode_block f i ->
     0 <= block -> offset * sbf f sb_inode_size = inode_pos f i ->
     Q (Some ((i - 1) / sbf f sb_inodes_per_group, block, offset)) (View d r b f)) ->
  tri (View d r b f) (inode_place i) Q.
Proof.
  intros Hgeo Hi Hi32 HQ. unfold inode_place, ext2_get_group_index_from_inode, ext2_get_inode_offest_in_group, ext2_get_block_index_from_inode_offset.
  destruct (inode_group f i Hgeo Hi) as [Hg Ho]. pose proof (inode_block_range f i Hgeo Hi) as Hib.
  assert (Htab : 0 < gd f ((i - 1) / sbf f sb_inodes_per_group) gd_inode_table).
  { destruct (inode_in_region f i Hgeo Hi) as [_ Hr]. eapply (ge_region _ Hgeo (RInodes _)). split; [done|].
    split; [apply Z.le_refl|]. unfold inode_block in *. destruct Hr as [Hr1 Hr2].
    eapply Z.le_lt_trans; [exact Hr1|exact Hr2]. }
  destruct Hgeo. unfold valid_inode in Hi.
  destruct ge_isize0 as (Hs & Hp & Hbs).
  rewrite (proj2 (Z.eqb_neq _ _)) by lia. rewrite u32_small by lia.
  apply triple_bind, triple_bind, tri_sb, tri_udiv; [fold (sbf f sb_inodes_per_group); lia|].
  fold (sbf f sb_inodes_per_group). apply triple_bind, tri_fs. rewrite (proj2 (Z.ltb_ge _ _)) by lia.
  apply triple_bind, triple_bind, tri_sb, tri_umod; [fold (sbf f sb_inodes_per_group); lia|].
  fold (sbf f sb_inodes_per_group). apply triple_bind, triple_bind, tri_sb. fold (sbf f sb_inode_size).
  apply triple_bind, tri_fs. set (o := (i - 1) mod sbf f sb_inodes_per_group) in *.
  assert (Hov : o * sbf f sb_inode_size < 4294967296).
  { unfold inode_block in Hib. fold o in Hib. pose proof (Z.div_mod o (inodes_per_block_count f) ltac:(lia)).
    pose proof (Z.mod_pos_bound o (inodes_per_block_count f) Hp). nia. }
  rewrite u32_small by nia.
  apply tri_udiv; [lia|]. apply triple_bind, tri_fs, triple_bind, tri_umod; [lia|]. apply triple_ret, HQ.
  - unfold inode_block. fold o. f_equal. rewrite <- Hbs, (Z.mul_comm (sbf f sb_inode_size)).
    rewrite Z.div_mul_cancel_r by lia. done.
  - apply Z.div_pos; nia.
  - done.
Qed.

Lemma tri_read_inode d r b f i (Q : option (list Z) -> view -> Prop) : mounted f d -> valid_inode f i -> i < 4294967296 ->
  cost (block_size f) <= r ->
  Q (Some (inode_of f d i)) (View d (r - cost (block_size f)) b f) -> tri (View d r b f) (ext2_read_inode i) Q.
Proof.
  intros Hm Hi Hi32 Hr HQ. pose proof (mo_geometry _ _ Hm) as Hgeo. pose proof (ge_bs _ Hgeo) as Hbs.
  pose proof (inode_block_range f i Hgeo Hi) as Hib. destruct (inode_pos_range f i Hgeo Hi) as [Hp0 Hp1].
  destruct (inode_group f i Hgeo Hi) as [Hg _]. pose proof (ge_blocks _ Hgeo).
  unfold ext2_read_inode. apply triple_bind, tri_inode_place; [done..|]. intros block offset Hblock Hb0 Hoff.
  apply triple_bind, tri_fs, triple_bind, tri_sb. fold (sbf f sb_inode_size).
  apply triple_bind, tri_new_cache; [lia|done|]. intros p Hp Hpp.
  apply triple_bind, tri_bg; [by apply gd_fits|]. fold (gd f ((i - 1) / sbf f sb_inodes_per_group) gd_inode_table).
  rewrite Hblock, Hoff, (u32_small (inode_block f i)), (u32_small (inode_pos f i)) by (unfold INODE_SIZE in *; nia).
  apply triple_bind. eapply tri_read_block; [done|done|apply lookup_insert_eq|done|apply zeros_zlen; lia|]. rewrite insert_insert_eq.
  apply triple_bind. eapply tri_copy_out; [apply lookup_insert_eq|done|done|by rewrite (blk_zlen _ _ _ Hm) by lia|].
  apply triple_bind. eapply tri_free_cache; [apply lookup_insert_eq|]. rewrite delete_insert_id by done. by apply triple_ret.
Qed.

Lemma tri_write_inode d r b f v i (Q : Z -> view -> Prop) : mounted f d -> valid_inode f i -> i < 4294967296 ->
  zlen v = INODE_SIZE -> bytes v -> cost (block_size f) <= r ->
  Q 0 (View (write_inode f d i v) (r - cost (block_size f)) b f) -> tri (View d r b f) (ext2_write_inode v i) Q.
Proof.
  intros Hm Hi Hi32 Hv Hvb Hr HQ. pose proof (mo_geometry _ _ Hm) as Hgeo. pose proof (ge_bs _ Hgeo) as Hbs.
  pose proof (inode_block_range f i Hgeo Hi) as Hib. destruct (inode_pos_range f i Hgeo Hi) as [Hp0 Hp1].
  destruct (inode_group f i Hgeo Hi) as [Hg _]. pose proof (ge_blocks _ Hgeo).
  pose proof (blk_zlen f d (inode_block f i) Hm ltac:(lia)) as Hz.
  unfold ext2_write_inode. apply triple_bind, tri_inode_place; [done..|]. intros block offset Hblock Hb0 Hoff.
  apply triple_bind, tri_fs, triple_bind, tri_sb. fold (sbf f sb_inode_size).
  apply triple_bind, tri_new_cache; [lia|done|]. intros p Hp Hpp.
  apply triple_bind, tri_bg; [by apply gd_fits|]. fold (gd f ((i - 1) / sbf f sb_inodes_per_group) gd_inode_table).
  rewrite Hblock, Hoff, (u32_small (inode_block f i)), (u32_small (inode_pos f i)) by (unfold INODE_SIZE in *; nia).
  apply triple_bind. eapply tri_read_block; [done|done|apply lookup_insert_eq|done|apply zeros_zlen; lia|]. rewrite insert_insert_eq.
  apply triple_bind. eapply tri_copy_in; [apply lookup_insert_eq|done|by rewrite Hz, Hv|]. rewrite insert_insert_eq.
  apply triple_bind. eapply tri_write_block; [done|done|apply lookup_insert_eq|done|rewrite splice_zlen; lia|
    apply splice_bytes; [by apply blk_bytes|done]|].
  apply triple_bind. eapply tri_free_cache; [apply lookup_insert_eq|]. rewrite delete_insert_id by done. by apply triple_ret.
Qed.

Lemma tri_read_inode_0 v (Q : option (list Z) -> view -> Prop) : Q None v -> tri v (ext2_read_inode 0) Q.
Proof. intros HQ. by apply triple_bind, triple_ret, triple_ret. Qed.
End InodeIO.

(** ** Theorems *)

(** A number of allocations in a row. *)
Fixpoint allocate_blocks {D X} `{BlockDevice D} `{HeapAllocator X} (n : nat) : M (state D X) (list Z) :=
  match n with
  | O => mret []
  | S n => x ← ext2_allocate_block; l ← allocate_blocks n; mret (x :: l)
  end.

Section Theorems.
Context {D X : Type} `{BlockDevice D} `{HeapAllocator X}.
Abbreviation cost := (ha_cost (X := X)).
Implicit Types (s : state D X).

(** C10: on a consistent file system ext2_allocate_block ends with the first free
    block of the groups that count one: its bit was clear and is now set on the
    disk, the block reads as zeros, the two counters are one less in memory and on
    the disk, no other block but the bitmap and the descriptors has changed, the
    block is none of those the file system itself lies in, and the file system is
    consistent again. It gives 0 and changes nothing exactly when every group that
    counts a free block has none. No buffer is left over. The conditions are those of
    [geometry] and [consistent]: blocks of 4 to 32 KiB (with blocks of 1 KiB the code
    hands out a used block, [allocate_block_takes_used_block]), a table of descriptors
    behind block 0, bitmaps that mark the file system's own blocks; the lock is free
    and the heap has room for one block. *)
Theorem ext2_allocate_block_correct s d r b f : repr s (View d r b f) -> mounted f d -> consistent f d ->
  fs_spinlock f = 0 -> cost (block_size f) <= r ->
  ext2_allocate_block ~{ s }~>! FFatal \/
  exists x s' d' f', ext2_allocate_block ~{ s }~> x; s' /\ repr s' (View d' (r - cost (block_size f)) b f') /\
    ((x = 0 /\ d' = d /\ f' = f /\ forall y, 0 <= y < sbf f sb_blocks_count ->
        0 < gd f (y / sbf f sb_blocks_per_group) gd_free_blocks_count -> block_used f d y = true) \/
     block_allocated f d x f' d').
Proof.
  intros Hs Hm Hc Hl Hr.
  assert (Htri : triple (repr (D := D) (X := X)) (View d r b f) ext2_allocate_block (fun x v' => exists d' f',
    v' = View d' (r - cost (block_size f)) b f' /\
    ((x = 0 /\ d' = d /\ f' = f /\ forall y, 0 <= y < sbf f sb_blocks_count ->
        0 < gd f (y / sbf f sb_blocks_per_group) gd_free_blocks_count -> block_used f d y = true) \/
     block_allocated f d x f' d'))) by (apply tri_allocate_block; eauto 10).
  destruct (triple_run _ _ _ _ s Htri Hs)
    as [?|(x & s' & v' & Hrun & Hs' & d' & f' & -> & Hor)]; [by left|right].
  by exists x, s', d', f'.
Qed.

Lemma allocate_blocks_fresh n : forall d r b f, mounted f d -> consistent f d -> fs_spinlock f = 0 ->
  Z.of_nat n * cost (block_size f) <= r ->
  triple (repr (D := D) (X := X)) (View d r b f) (allocate_blocks n) (fun l v' => exists d' f',
    v' = View d' (r - Z.of_nat n * cost (block_size f)) b f' /\ same_layout f f' /\ mounted f' d' /\ consistent f' d' /\
    NoDup (filter (.≠ 0) l) /\
    (forall x, x ∈ l -> x <> 0 -> 0 < x < sbf f sb_blocks_count /\ block_used f d x = false /\ block_used f' d' x = true) /\
    (forall y, 0 <= y < block_groups_count f * sbf f sb_blocks_per_group -> block_used f d y = true -> block_used f' d' y = true)).
Proof.
  induction n as [|n IH]; intros d r b f Hm Hc Hl Hr; cbn [allocate_blocks].
  { apply triple_ret. exists d, f. rewrite Z.mul_0_l, Z.sub_0_r. split_and!; try done; [constructor|].
    intros x Hx. by apply elem_of_nil in Hx. }
  pose proof (mo_geometry _ _ Hm) as Hgeo. pose proof (ge_bs _ Hgeo) as Hbs. pose proof (ge_cover _ Hgeo) as Hcov.
  assert (Hcost : 0 <= cost (block_size f)) by (apply ha_cost_law; lia).
  assert (Hlater : r - cost (block_size f) - Z.of_nat n * cost (block_size f) = r - Z.of_nat (S n) * cost (block_size f)) by lia.
  apply triple_bind, tri_allocate_block; [done..|nia|intros Hnone|intros x f1 d1 Hba]; apply triple_bind.
  - eapply triple_mono; [apply (IH d (r - cost (block_size f)) b f); try done; nia|].
    intros l v' (d' & f' & -> & Hlay & Hm' & Hc' & Hnd & Hl' & Hmono). apply triple_ret. exists d', f'.
    rewrite Hlater. split_and!; try done. intros x [->|Hx]%elem_of_cons; [done|]. by apply Hl'.
  - destruct Hba as [(Hx & Hfree & _) _ _ Hm1 Hc1 Hlay1 Hused _ _ _]. pose proof (same_layout_numbers _ _ Hlay1) as (Hn1 & Hn2 & _).
    eapply triple_mono; [apply (IH d1 (r - cost (block_size f)) b f1); try done; [by rewrite (sl_lock _ _ Hlay1)|rewrite (sl_bs _ _ Hlay1); nia]|].
    intros l v' (d' & f' & -> & Hlay & Hm' & Hc' & Hnd & Hl' & Hmono).
    rewrite Hn2, (sl_groups _ _ Hlay1) in Hmono. rewrite Hn1 in Hl'.
    assert (Hxl : x ∉ l). { intros Hin. destruct (Hl' x Hin) as (_ & Hu & _); [lia|]. rewrite Hused, bool_decide_eq_true_2 in Hu by (done || lia). done. }
    apply triple_ret. exists d', f'. split_and!; try done.
    + f_equal. rewrite (sl_bs _ _ Hlay1). lia.
    + destruct Hlay1, Hlay. destruct sl_sb0 as [Ha0 Ha], sl_sb1 as [Hb0 Hb], sl_bg0 as [Hg0 Hg], sl_bg1 as [Hh0 Hh].
      split; try congruence; (split; [congruence|]); intros; [rewrite Hb, Ha by done; done|rewrite Hh, Hg by (done || congruence); done].
    + rewrite filter_cons_True by lia. constructor; [|done]. intros [_ Hin]%list_elem_of_filter. done.
    + intros y [->|Hy]%elem_of_cons Hy0.
      * split_and!; try done; [lia..|]. apply Hmono; [lia|]. rewrite Hused by lia. by rewrite bool_decide_eq_true_2.
      * destruct (Hl' y Hy Hy0) as (Hy1 & Hy2 & Hy3). split_and!; try done; [lia..|].
        rewrite Hused in Hy2 by lia. by apply orb_false_iff in Hy2 as [_ ?].
    + intros y Hy Hu. apply Hmono; [done|]. rewrite Hused, Hu by done. apply orb_true_r.
Qed.

(** However many blocks are taken one after the other, the blocks handed out
    are all different, none of them was in use before, all of them are marked
    afterwards, and the file system stays mounted and consistent. *)
Theorem ext2_allocations_distinct n s d r b f : repr s (View d r b f) -> mounted f d -> consistent f d ->
  fs_spinlock f = 0 -> Z.of_nat n * cost (block_size f) <= r ->
  allocate_blocks n ~{ s }~>! FFatal \/
  exists l s' d' f', allocate_blocks n ~{ s }~> l; s' /\ repr s' (View d' (r - Z.of_nat n * cost (block_size f)) b f') /\
    mounted f' d' /\ consistent f' d' /\ NoDup (filter (.≠ 0) l) /\
    forall x, x ∈ l -> x <> 0 -> 0 < x < sbf f sb_blocks_count /\ block_used f d x = false /\ block_used f' d' x = true.
Proof.
  intros Hs Hm Hc Hl Hr.
  destruct (triple_run _ _ _ _ s (allocate_blocks_fresh n d r b f Hm Hc Hl Hr) Hs)
    as [?|(l & s' & v' & Hrun & Hs' & d' & f' & -> & _ & ? & ? & ? & ? & _)]; [by left|right].
  by exists l, s', d', f'.
Qed.

(** Without a preferred group ext2_allocate_inode takes an inode whose bit was
    clear, never a reserved one of the first group, marks it on the disk and
    changes no other block but the bitmap and the descriptors; it gives 0 and
    changes nothing when no group that counts a free inode has one. With a
    preferred group other than 0 it never looks at the bitmap of that group: it
    hands out the first inode of the group in any case, and the bitmap it writes
    says that all the other inodes of the group are free. *)
Theorem ext2_allocate_inode_correct s d r b f g : repr s (View d r b f) -> mounted f d -> fs_spinlock f = 0 ->
  block_groups_count f * sbf f sb_inodes_per_group < 4294967296 -> cost (block_size f) <= r -> 0 <= g < block_groups_count f ->
  ext2_allocate_inode g ~{ s }~>! FFatal \/
  exists x s' d' f', ext2_allocate_inode g ~{ s }~> x; s' /\ repr s' (View d' (r - cost (block_size f)) b f') /\
    if g =? 0
    then (x = 0 /\ d' = d /\ f' = f /\ (forall h i, 0 <= h < block_groups_count f -> 0 < gd f h gd_free_inodes_count ->
            0 <= i < sbf f sb_inodes_per_group -> ~ free_inode f d h i)) \/
         inode_allocated f d x f' d'
    else x = g * sbf f sb_inodes_per_group + 1 /\
         forall j, valid_inode f j -> (j - 1) / sbf f sb_inodes_per_group = g -> inode_used f' d' j = bool_decide (j = x).
Proof.
  intros Hs Hm Hl Hover Hr Hg.
  assert (Htri : triple (repr (D := D) (X := X)) (View d r b f) (ext2_allocate_inode g) (fun x v' => exists d' f',
    v' = View d' (r - cost (block_size f)) b f' /\ if g =? 0
    then (x = 0 /\ d' = d /\ f' = f /\ (forall h i, 0 <= h < block_groups_count f -> 0 < gd f h gd_free_inodes_count ->
            0 <= i < sbf f sb_inodes_per_group -> ~ free_inode f d h i)) \/
         inode_allocated f d x f' d'
    else x = g * sbf f sb_inodes_per_group + 1 /\
         forall j, valid_inode f j -> (j - 1) / sbf f sb_inodes_per_group = g -> inode_used f' d' j = bool_decide (j = x))).
  { destruct (Z.eqb_spec g 0) as [->|Hg0].
    - apply tri_allocate_inode; eauto 10.
    - pose proof (ge_bs _ (mo_geometry _ _ Hm)) as Hbs. pose proof (ge_ipg _ (mo_geometry _ _ Hm)) as Hipg.
      apply tri_allocate_inode_preferred; [done..|lia|]. eexists _, _. split; [done|]. split; [done|].
      intros j Hj Hjg. unfold valid_inode in Hj.
      rewrite (takei_used f d g 0 (set_bit (zeros (block_size f)) 0)); try done.
      2:{ lia. }
      2:{ rewrite set_bit_zlen; [apply zeros_zlen; lia|lia|rewrite zeros_zlen by lia; change (0 / 8) with 0; lia]. }
      2:{ apply set_bit_bytes, zeros_bytes. }
      rewrite decide_True by done. pose proof (Z.mod_pos_bound (j - 1) (sbf f sb_inodes_per_group) ltac:(lia)) as Hmod.
      pose proof (Z.div_mod (j - 1) (sbf f sb_inodes_per_group) ltac:(lia)) as Hdm. rewrite Hjg in Hdm.
      rewrite bit_at_set; [|apply zeros_bytes|lia|rewrite zeros_zlen by lia; change (0 / 8) with 0; lia|lia].
      replace (bit_at (zeros _) _) with false; [rewrite orb_false_r; apply bool_decide_ext; lia|].
      unfold bit_at, fget. cbn [f_off f_size]. rewrite slice_zeros by dlia. simpl. by rewrite Z.testbit_0_l. }
  destruct (triple_run _ _ _ _ s Htri Hs) as [?|(x & s' & v' & Hrun & Hs' & d' & f' & -> & Hx)]; [by left|right].
  by exists x, s', d', f'.
Qed.

(** C38: an inode that is written is read back byte for byte, every other inode
    reads as before, and the file system stays mounted and its bitmaps consistent.
    The inode 0 and those beyond the last group are refused. *)
Theorem ext2_inode_roundtrip s d r b f i j v : repr s (View d r b f) -> mounted f d -> consistent f d ->
  valid_inode f i -> valid_inode f j -> i < 4294967296 -> j < 4294967296 -> zlen v = INODE_SIZE -> bytes v ->
  2 * cost (block_size f) <= r ->
  (ext2_write_inode v i ;; ext2_read_inode j) ~{ s }~>! FFatal \/
  exists s' d', (ext2_write_inode v i ;; ext2_read_inode j) ~{ s }~> Some (if decide (j = i) then v else inode_of f d j); s' /\
    repr s' (View d' (r - 2 * cost (block_size f)) b f) /\ mounted f d' /\ consistent f d'.
Proof.
  intros Hs Hm Hc Hi Hj Hi32 Hj32 Hv Hvb Hr. pose proof (ge_bs _ (mo_geometry _ _ Hm)) as Hbs.
  assert (Hcost : 0 <= cost (block_size f)) by (apply ha_cost_law; lia).
  assert (Htri : triple (repr (D := D) (X := X)) (View d r b f) (ext2_write_inode v i ;; ext2_read_inode j) (fun x v' =>
    x = Some (if decide (j = i) then v else inode_of f d j) /\
    v' = View (write_inode f d i v) (r - 2 * cost (block_size f)) b f)).
  { apply triple_bind, tri_write_inode; try done; [lia|]. apply tri_read_inode; try done; [by apply write_inode_mounted|lia|].
    rewrite inode_of_write by done. split; [done|]. f_equal. lia. }
  destruct (triple_run _ _ _ _ s Htri Hs) as [?|(x & s' & v' & Hrun & Hs' & -> & ->)]; [by left|right].
  eexists s', _. split_and!; [done..|by apply write_inode_mounted|by apply write_inode_consistent].
Qed.
End Theorems.

(** ** A concrete file system

    A device in memory, and 32 blocks of 4 KiB in two groups of 16 blocks and 32
    inodes: the superblock, the descriptors, the bitmaps and the inode table of the
    first group in blocks 0 to 4, those of the second in blocks 17 to 19. *)
#[export] Instance ram_device : BlockDevice (list Z).
Proof.
  refine {| bd_read := fun off n d => Ok ((n, slice off n d), d);
            bd_write := fun off v d => Ok (zlen v, splice off v d);
            bd_bytes := fun d => d; bd_ok := bytes |}.
  - abstract (intros d Hd; exact Hd).
  - abstract (intros d off n Hd _ _ _ _; exists d; done).
  - abstract (intros d off v Hd _ _ _ Hv _; exists (splice off v d); split_and!; try done; by apply splice_bytes).
Defined.

Definition fset_all (l : list (field * Z)) (c : list Z) : list Z := foldr (fun fx c => fset fx.1 fx.2 c) c l.

Definition demo_sb : list Z := Eval vm_compute in
  fset_all [(sb_blocks_count, 32); (sb_free_blocks_count, 22); (sb_free_inodes_count, 52);
            (sb_log_block_size, 2); (sb_blocks_per_group, 16); (sb_inodes_per_group, 32); (sb_magic, EXT2_SUPERBLOCK_MAGIC);
            (sb_first_ino, 11); (sb_inode_size, 128)] (zeros SUPERBLOCK_SIZE).
Definition demo_bg : list Z :=
  fset_all [(gd_block_bitmap, 2); (gd_inode_bitmap, 3); (gd_inode_table, 4); (gd_free_blocks_count, 10);
            (gd_free_inodes_count, 20);
            (at_ 32 gd_block_bitmap, 17); (at_ 32 gd_inode_bitmap, 18); (at_ 32 gd_inode_table, 19);
            (at_ 32 gd_free_blocks_count, 12); (at_ 32 gd_free_inodes_count, 31)] (zeros 4096).
Definition demo_fs : ext2_filesystem_t := MkFs demo_sb demo_bg 4096 32 8 2 1024 1 2 1 1036 1049612 1074791436 0.

(** Block bitmaps: blocks 0 to 5 and 16 to 19; inode bitmaps: inodes 1 to 12 and
    33. *)
Definition demo_disk : list Z :=
  splice (18 * 4096) [1] (splice (17 * 4096) [15; 0] (splice (3 * 4096) [255; 15] (splice (2 * 4096) [63; 0]
    (splice 4096 demo_bg (splice 1024 demo_sb (zeros 131072)))))).

Lemma bytes_spec l : forallb (fun x => (0 <=? x) && (x <? 256)) l = true -> bytes l.
Proof.
  intros Hl. apply Forall_forall. intros x Hx. rewrite forallb_forall in Hl.
  apply list_elem_of_In in Hx. specialize (Hl x Hx). unfold is_u8. lia.
Qed.

Lemma demo_gd : (gd demo_fs 0 gd_block_bitmap = 2 /\ gd demo_fs 0 gd_inode_bitmap = 3 /\ gd demo_fs 0 gd_inode_table = 4) /\
  (gd demo_fs 1 gd_block_bitmap = 17 /\ gd demo_fs 1 gd_inode_bitmap = 18 /\ gd demo_fs 1 gd_inode_table = 19) /\
  table_length demo_fs = 1.
Proof. vm_compute. done. Qed.
Lemma demo_numbers : sbf demo_fs sb_blocks_count = 32 /\ sbf demo_fs sb_blocks_per_group = 16 /\
  sbf demo_fs sb_inodes_per_group = 32 /\ sbf demo_fs sb_inode_size = 128.
Proof. vm_compute. done. Qed.

(** The regions of the demo file system, by block. *)
Definition demo_region (b : Z) : option region :=
  match b with
  | 1 => Some RDescriptors | 2 => Some (RBlockBitmap 0) | 3 => Some (RInodeBitmap 0) | 4 => Some (RInodes 0)
  | 17 => Some (RBlockBitmap 1) | 18 => Some (RInodeBitmap 1) | 19 => Some (RInodes 1) | _ => None
  end.
Lemma demo_region_of R b : in_region demo_fs R b -> demo_region b = Some R.
Proof.
  destruct demo_gd as ((Ha & Hb & Hc) & (Hd & He & Hf) & Ht).
  assert (Hgs : forall g, 0 <= g < block_groups_count demo_fs -> g = 0 \/ g = 1) by (intros g; change (block_groups_count demo_fs) with 2; lia).
  destruct R as [|g|g|g]; unfold in_region.
  - change (bgdt_start_block demo_fs) with 1. change (bgdt_length demo_fs) with 1. intros ?. by assert (b = 1) as -> by lia.
  - intros [[->| ->]%Hgs ->]; rewrite ?Ha, ?Hd; done.
  - intros [[->| ->]%Hgs ->]; rewrite ?Hb, ?He; done.
  - rewrite Ht. intros [[->| ->]%Hgs Hr]; rewrite ?Hc, ?Hf in Hr; [by assert (b = 4) as -> by lia|by assert (b = 19) as -> by lia].
Qed.
Lemma demo_region_block R b : in_region demo_fs R b -> b ∈ [1; 2; 3; 4; 17; 18; 19].
Proof.
  intros HR%demo_region_of. destruct (decide (b ∈ [1; 2; 3; 4; 17; 18; 19])) as [|Hn]; [done|exfalso].
  rewrite !not_elem_of_cons in Hn. unfold demo_region in HR. repeat (case_match; subst; try lia; try done).
Qed.

Lemma demo_geometry : geometry demo_fs.
Proof.
  destruct demo_numbers as (Ha & Hb & Hc & Hd).
  split; rewrite ?Ha, ?Hb, ?Hc, ?Hd; try done.
  - split; [reflexivity|]. apply bytes_spec. vm_compute. reflexivity.
  - split; [vm_compute; reflexivity|]. apply bytes_spec. vm_compute. reflexivity.
  - intros R b HR%demo_region_block. repeat (apply elem_of_cons in HR as [->|HR]; [lia|]). by apply elem_of_nil in HR.
  - intros R1 R2 b H1%demo_region_of H2%demo_region_of. congruence.
Qed.

Lemma demo_mounted : mounted demo_fs demo_disk.
Proof.
  split; [apply demo_geometry|..].
  - apply bytes_spec. vm_compute. reflexivity.
  - vm_compute. congruence.
  - vm_compute. reflexivity.
  - vm_compute. reflexivity.
Qed.

Lemma demo_consistent : consistent demo_fs demo_disk.
Proof.
  split; [vm_compute; reflexivity|..].
  - intros R b HR%demo_region_block.
    assert (Hall : forallb (block_used demo_fs demo_disk) [1; 2; 3; 4; 17; 18; 19] = true) by (vm_compute; reflexivity).
    rewrite forallb_forall in Hall. apply Hall. by apply list_elem_of_In.
  - destruct demo_numbers as (-> & -> & _ & _). change (block_groups_count demo_fs) with 2. lia.
Qed.

#[local] Existing Instance Kheap.kernel_heap_allocator.
Definition demo_state : state (list Z) (Kheap.heap (gset Z)) := MkState demo_disk Kheap.heap0 ∅ demo_fs.
Definition demo_view : view := View demo_disk 1000000 ∅ demo_fs.
Lemma demo_repr : repr demo_state demo_view.
Proof.
  split; simpl; try done.
  - apply demo_mounted.
  - exists ∅. split; [apply Kheap.heap0_ok|]. intros p c Hp. by rewrite lookup_empty in Hp.
Qed.

Definition is_fatal {A} (r : res A) : bool := match r with Err FFatal => true | _ => false end.
Lemma not_fatal {S A} (m : M S A) s : is_fatal (m s) = false -> ~ (m ~{ s }~>! FFatal).
Proof. intros Hf He. by rewrite He in Hf. Qed.
Definition value {S A} (r : res (A * S)) : option A := match r with Ok (a, _) => Some a | Err _ => None end.

Example demo_allocate : value (ext2_allocate_block demo_state) = Some 6.
Proof. vm_compute. reflexivity. Qed.
Example demo_allocate_inode : value (ext2_allocate_inode 0 demo_state) = Some 13 /\ value (ext2_allocate_inode 1 demo_state) = Some 33.
Proof. split; vm_compute; reflexivity. Qed.

(** ** Witnesses *)
Lemma ext2_allocate_block_correct_witness : exists s' d' f', ext2_allocate_block ~{ demo_state }~> 6; s' /\
  block_allocated demo_fs demo_disk 6 f' d'.
Proof.
  destruct (ext2_allocate_block_correct demo_state demo_disk 1000000 ∅ demo_fs demo_repr demo_mounted demo_consistent
    eq_refl ltac:(vm_compute; congruence)) as [Hf|(x & s' & d' & f' & Hrun & Hs' & Hor)].
  - exfalso. revert Hf. apply not_fatal. vm_compute. reflexivity.
  - pose proof demo_allocate as Hx. rewrite Hrun in Hx. injection Hx as ->.
    destruct Hor as [[Hx _]|Hba]; [discriminate Hx|]. exists s', d', f'. split; [exact Hrun|exact Hba].
Defined.

Lemma ext2_allocations_distinct_witness : exists l s', allocate_blocks 3 ~{ demo_state }~> l; s' /\ NoDup (filter (.≠ 0) l) /\ l = [6; 7; 8].
Proof.
  destruct (ext2_allocations_distinct 3 demo_state demo_disk 1000000 ∅ demo_fs demo_repr demo_mounted demo_consistent
    eq_refl ltac:(vm_compute; congruence)) as [Hf|(l & s' & d' & f' & Hrun & Hs' & _ & _ & Hnd & _)].
  - exfalso. revert Hf. apply not_fatal. vm_compute. reflexivity.
  - assert (Hl : value (allocate_blocks 3 demo_state) = Some [6; 7; 8]) by (vm_compute; reflexivity).
    rewrite Hrun in Hl. injection Hl as ->. exists [6; 7; 8], s'. split; [exact Hrun|split; [exact Hnd|reflexivity]].
Defined.

Lemma demo_inodes_small : block_groups_count demo_fs * sbf demo_fs sb_inodes_per_group < 4294967296.
Proof. vm_compute. reflexivity. Qed.
Lemma demo_valid i : 0 < i <= 64 -> valid_inode demo_fs i.
Proof. unfold valid_inode. destruct demo_numbers as (_ & _ & -> & _). done. Qed.

(** The inode 33 is in use and is handed out again; the inode 34 would be lost. *)
Lemma ext2_allocate_inode_correct_witness : inode_used demo_fs demo_disk 33 = true /\
  exists s' d' f', ext2_allocate_inode 1 ~{ demo_state }~> 33; s' /\ inode_used f' d' 33 = true /\ inode_used f' d' 34 = false.
Proof.
  split; [vm_compute; reflexivity|].
  destruct (ext2_allocate_inode_correct demo_state demo_disk 1000000 ∅ demo_fs 1 demo_repr demo_mounted eq_refl demo_inodes_small
    ltac:(vm_compute; congruence) ltac:(split; [discriminate|reflexivity])) as [Hf|(x & s' & d' & f' & Hrun & Hs' & Hx & Hj)].
  - exfalso. revert Hf. apply not_fatal. vm_compute. reflexivity.
  - destruct demo_allocate_inode as [_ Hx1]. rewrite Hrun in Hx1. injection Hx1 as ->.
    exists s', d', f'. split; [exact Hrun|].
    rewrite !Hj by (try (apply demo_valid; lia); vm_compute; reflexivity). split; reflexivity.
Defined.

Lemma ext2_inode_roundtrip_witness : exists s' d', (ext2_write_inode (zeros 128) 12 ;; ext2_read_inode 12) ~{ demo_state }~> Some (zeros 128); s' /\
  mounted demo_fs d'.
Proof.
  destruct (ext2_inode_roundtrip demo_state demo_disk 1000000 ∅ demo_fs 12 12 (zeros 128) demo_repr demo_mounted demo_consistent
    (demo_valid 12 ltac:(lia)) (demo_valid 12 ltac:(lia)) ltac:(lia) ltac:(lia) eq_refl (zeros_bytes 128) ltac:(vm_compute; congruence))
    as [Hf|(s' & d' & Hrun & _ & Hm & _)].
  - exfalso. revert Hf. apply not_fatal. vm_compute. reflexivity.
  - exists s', d'. split; [exact Hrun|exact Hm].
Defined.

(** ** Defects *)

(** The group index is compared with [>] instead of [>=]: the inode after the last
    one is read through the descriptor after the last one, without an error. *)
Example read_inode_beyond_last_group : value (ext2_read_inode 65 demo_state) = Some (Some (zeros 128)).
Proof. vm_compute. reflexivity. Qed.

(** The alignment of [padding1] moves the rest of the superblock, which is 1024
    bytes on the disk, by four bytes. *)
Example superblock_size : SUPERBLOCK_SIZE = 1028 /\
  fieldof ext2_superblock_t "default_mount_options" = Field 260 4.
Proof. split; reflexivity. Qed.

(** With blocks of 1 KiB block 0 is no data block and bit [i] of the first bitmap
    stands for block [i + 1], but [ext2_allocate_block] gives block [i]. In this
    file system the bits say that blocks 1 to 6 are in use: the block 6 is handed
    out and cleared. *)
Definition demo_sb_1k : list Z := Eval vm_compute in
  fset_all [(sb_blocks_count, 16); (sb_free_blocks_count, 9); (sb_first_data_block, 1); (sb_blocks_per_group, 16);
            (sb_inodes_per_group, 8); (sb_magic, EXT2_SUPERBLOCK_MAGIC); (sb_inode_size, 128)] (zeros SUPERBLOCK_SIZE).
Definition demo_bg_1k : list Z :=
  fset_all [(gd_block_bitmap, 3); (gd_inode_bitmap, 4); (gd_inode_table, 5); (gd_free_blocks_count, 9)] (zeros 1024).
Definition demo_disk_1k : list Z :=
  splice (6 * 1024) (replicate 4 7) (splice (3 * 1024) [63] (splice 2048 demo_bg_1k (splice 1024 demo_sb_1k (zeros 16384)))).
Definition demo_state_1k : state (list Z) (Kheap.heap (gset Z)) :=
  MkState demo_disk_1k Kheap.heap0 ∅ (MkFs demo_sb_1k demo_bg_1k 1024 8 2 1 256 2 3 1 268 65804 16908812 0).

Example allocate_block_takes_used_block :
  value ((x ← ext2_allocate_block; d ← gets st_dev; mret (x, slice (6 * 1024) 4 d)) demo_state_1k) = Some (6, [0; 0; 0; 0]) /\
  bit_at (slice (3 * 1024) 1024 demo_disk_1k) (6 - 1) = true /\ slice (6 * 1024) 4 demo_disk_1k = [7; 7; 7; 7].
Proof. split_and!; vm_compute; reflexivity. Qed.
End Ext2.
