(* ===== verification/Ext2File.v ===== *)
(** * The ext2 file system: the data of files (src/kernel/fs/ext2.c)

    The block numbers of a file, direct and through index blocks, growing a file,
    reading and writing its data. An inode is the 128 bytes the callers hold; an
    operation that changes it gives it back. *)

From S2P Require Import Prelude Bytes Hoare Interfaces Kheap Ext2.

Module Ext2File.
Import Ext2.
Open Scope Z_scope.

Section Operations.
Context {D X : Type} `{BlockDevice D} `{HeapAllocator X}.
Abbreviation E := (M (state D X)).
Abbreviation inode_t := (list Z).

(** ** The real number of a block *)

(** [if (!inode->data.blocks.h) { ... }]: an index block of the inode is allocated
    when it is missing. *)
Definition ensure_index (h : field) (inode : inode_t) (inode_index : Z) : E (bool * inode_t) :=
  if fget h inode =? 0 then
    new_block_index ← ext2_allocate_block;
    if new_block_index =? 0 then mret (false, inode)
    else let inode := fset h new_block_index inode in
         r ← ext2_write_inode inode inode_index;
         mret (negb (r =? -1), inode)
  else mret (true, inode).

(** [if (!((uint32_t * )cache)[i]) { ... }] for the index block [parent] in the
    buffer: the entry is allocated when it is missing, and [parent] is written. On
    failure the buffer is given back. *)
Definition ensure_entry (cache i parent : Z) : E bool :=
  x ← ld cache (pointer i);
  if x =? 0 then
    new_block_index ← ext2_allocate_block;
    if new_block_index =? 0 then free_cache cache ;; mret false
    else st cache (pointer i) new_block_index ;; ext2_write_block parent cache ;; mret true
  else mret true.

Definition set_indirect (inode : inode_t) (inode_index block_index real_index : Z) : E (Z * inode_t) :=
  let a := block_index - EXT2_INDIRECT_BLOCKS in
  '(ok, inode) ← ensure_index i_indir_block inode inode_index;
  if negb (ok : bool) then mret (-1, inode)
  else bs ← fs block_size;
       cache ← new_cache bs;
       ext2_read_block (fget i_indir_block inode) cache ;;
       st cache (pointer a) real_index ;;
       ext2_read_block (fget i_indir_block inode) cache ;;
       free_cache cache ;;
       mret (0, inode).

Definition set_doubly (inode : inode_t) (inode_index block_index real_index p1 : Z) : E (Z * inode_t) :=
  let a := block_index - EXT2_INDIRECT_BLOCKS in
  let b := u32 (a - p1) in
  c ← udiv b p1;
  let d := u32 (b - u32 (c * p1)) in
  '(ok, inode) ← ensure_index i_doubly_indir_block inode inode_index;
  if negb (ok : bool) then mret (-1, inode)
  else bs ← fs block_size;
       cache ← new_cache bs;
       ext2_read_block (fget i_doubly_indir_block inode) cache ;;
       ok ← ensure_entry cache c (fget i_doubly_indir_block inode);
       if negb (ok : bool) then mret (-1, inode)
       else x ← ld cache (pointer c);
            ext2_read_block x cache ;;
            st cache (pointer d) real_index ;;
            x ← ld cache (pointer c);
            ext2_read_block x cache ;;
            free_cache cache ;;
            mret (0, inode).

Definition set_trebly (inode : inode_t) (inode_index block_index real_index p1 p2 : Z) : E (Z * inode_t) :=
  let a := block_index - EXT2_INDIRECT_BLOCKS in
  let b := u32 (a - p1) in
  let c := u32 (b - p2) in
  d ← udiv c p2;
  let e := u32 (c - u32 (d * p2)) in
  f ← udiv e p1;
  let g := u32 (e - u32 (f * p1)) in
  '(ok, inode) ← ensure_index i_trebly_indir_block inode inode_index;
  if negb (ok : bool) then mret (-1, inode)
  else bs ← fs block_size;
       cache ← new_cache bs;
       ext2_read_block (fget i_trebly_indir_block inode) cache ;;
       ok ← ensure_entry cache d (fget i_trebly_indir_block inode);
       if negb (ok : bool) then mret (-1, inode)
       else block_index_save ← ld cache (pointer d);
            ext2_read_block block_index_save cache ;;
            ok ← ensure_entry cache f block_index_save;
            if negb (ok : bool) then mret (-1, inode)
            else block_index_save ← ld cache (pointer f);
                 ext2_read_block block_index_save cache ;;
                 st cache (pointer g) real_index ;;
                 ext2_read_block block_index_save cache ;;
                 free_cache cache ;;
                 mret (0, inode).

Definition ext2_set_real_block_index (inode : inode_t) (inode_index block_index real_index : Z) : E (Z * inode_t) :=
  if block_index <? EXT2_INDIRECT_BLOCKS then mret (0, fset (i_dir_blocks block_index) real_index inode)
  else i1 ← fs indirect_blocks_index; i2 ← fs doubly_indirect_blocks_index; i3 ← fs trebly_indirect_blocks_index;
       p1 ← fs pointers_per_block;
       let p2 := u32 (p1 * p1) in
       if block_index <? i1 then set_indirect inode inode_index block_index real_index
       else if block_index <? i2 then set_doubly inode inode_index block_index real_index p1
       else if block_index <? i3 then set_trebly inode inode_index block_index real_index p1 p2
       else mret (-1, inode).

Definition ext2_get_real_block_index (inode : inode_t) (block_index : Z) : E Z :=
  if block_index <? EXT2_INDIRECT_BLOCKS then mret (fget (i_dir_blocks block_index) inode)
  else
    i1 ← fs indirect_blocks_index; i2 ← fs doubly_indirect_blocks_index; i3 ← fs trebly_indirect_blocks_index;
    p1 ← fs pointers_per_block; bs ← fs block_size;
    let p2 := u32 (p1 * p1) in
    let a := block_index - EXT2_INDIRECT_BLOCKS in
    let b := u32 (a - p1) in
    cache ← new_cache bs;
    real_index ←
      (if block_index <? i1 then
         ext2_read_block (fget i_indir_block inode) cache ;;
         ld cache (pointer a)
       else if block_index <? i2 then
         c ← udiv b p1;
         let d := u32 (b - u32 (c * p1)) in
         ext2_read_block (fget i_doubly_indir_block inode) cache ;;
         x ← ld cache (pointer c);
         ext2_read_block x cache ;;
         ld cache (pointer d)
       else if block_index <? i3 then
         let c := u32 (b - p2) in
         d ← udiv c p2;
         let e := u32 (c - u32 (d * p2)) in
         f ← udiv e p1;
         let g := u32 (e - u32 (f * p1)) in
         ext2_read_block (fget i_trebly_indir_block inode) cache ;;
         x ← ld cache (pointer d);
         ext2_read_block x cache ;;
         x ← ld cache (pointer f);
         ext2_read_block x cache ;;
         ld cache (pointer g)
       else mret 0);
    free_cache cache ;;
    mret real_index.

(** ** Blocks of a file *)
Definition ext2_allocate_inode_block (inode : inode_t) (inode_index block_index : Z) : E (Z * inode_t) :=
  real_index ← ext2_allocate_block;
  if s32 real_index =? -1 then mret (-1, inode)
  else
    '(r, inode) ← ext2_set_real_block_index inode inode_index block_index real_index;
    if r =? -1 then mret (-1, inode)
    else
      per ← fs blocks_per_block_count; bs ← fs block_size;
      let blocks_count := u32 (u32 (block_index + 1) * per) in
      n ← udiv blocks_count per;
      let inode := if fget i_blocks_count inode <? blocks_count
                   then fset i_size (u32 (n * bs)) (fset i_blocks_count blocks_count inode) else inode in
      r ← ext2_write_inode inode inode_index;
      mret (if r =? -1 then -1 else 0, inode).

(** [inode->blocks_count / fs->blocks_per_block_count] *)
Definition file_blocks (inode : inode_t) : E Z :=
  per ← fs blocks_per_block_count; udiv (fget i_blocks_count inode) per.

Definition ext2_read_inode_block (inode : inode_t) (block_index p : Z) : E Z :=
  n ← file_blocks inode;
  if n <=? block_index then mret (-1)
  else real_index ← ext2_get_real_block_index inode block_index;
       if real_index =? 0 then mret (-1) else ext2_read_block real_index p.

(** The loop that grows the file, with a bound on its rounds. *)
Fixpoint grow (fuel : nat) (inode : inode_t) (inode_index block_index : Z) : E inode_t :=
  match fuel with
  | O => fail FLoop
  | S fuel =>
      n ← file_blocks inode;
      if n <=? block_index then
        '(_, inode) ← ext2_allocate_inode_block inode inode_index n;
        ext2_write_inode inode inode_index ;;
        grow fuel inode inode_index block_index
      else mret inode
  end.
Definition ext2_write_inode_block (fuel : nat) (inode : inode_t) (inode_index block_index p : Z) : E (Z * inode_t) :=
  inode ← grow fuel inode inode_index block_index;
  real_index ← ext2_get_real_block_index inode block_index;
  if real_index =? 0 then mret (-1, inode)
  else r ← ext2_write_block real_index p; mret (r, inode).

(** ** The data of a file

    [buffer] is the memory of the caller; memcpy to and from it outside its bytes
    is a fault. *)
Definition to_buffer (buffer : list Z) (off : Z) (v : list Z) : E (list Z) :=
  if (0 <=? off) && (off + zlen v <=? zlen buffer) then mret (splice off v buffer) else fail (FBound off).
Definition from_buffer (buffer : list Z) (off n : Z) : E (list Z) :=
  if (0 <=? off) && (off + n <=? zlen buffer) then mret (slice off n buffer) else fail (FBound off).

(** The blocks [block_offset], ..., [block_offset + n - 1] of the loop of
    ext2_read_inode_data; [false] is the jump to the error exit. *)
Fixpoint read_blocks (n : nat) (inode : inode_t) (offset start_block block_offset cache bs : Z) (buffer : list Z) : E (bool * list Z) :=
  match n with
  | O => mret (true, buffer)
  | S n =>
      r ← ext2_read_inode_block inode block_offset cache;
      if r =? -1 then mret (false, buffer)
      else
        let blocks_read := block_offset - start_block in
        buffer ← (if block_offset =? start_block
                  then v ← copy_out cache (offset mod bs) (bs - offset mod bs); to_buffer buffer 0 v
                  else v ← copy_out cache 0 bs; to_buffer buffer (bs * blocks_read - offset mod bs) v);
        read_blocks n inode offset start_block (block_offset + 1) cache bs buffer
  end.
(** A read inside one block, and one over several blocks. *)
Definition read_single (inode : inode_t) (offset start_block size_to_read cache bs : Z) (buffer : list Z) : E (bool * list Z) :=
  r ← ext2_read_inode_block inode start_block cache;
  if r =? -1 then mret (false, buffer)
  else v ← copy_out cache (offset mod bs) size_to_read;
       buffer ← to_buffer buffer 0 v;
       mret (true, buffer).
Definition read_several (inode : inode_t) (offset start_block end_block end_size cache bs : Z) (buffer : list Z) : E (bool * list Z) :=
  '(ok, buffer) ← read_blocks (Z.to_nat (end_block - start_block)) inode offset start_block start_block cache bs buffer;
  if negb (ok : bool) then mret (false, buffer)
  else if negb (end_size =? 0) then
    r ← ext2_read_inode_block inode end_block cache;
    if r =? -1 then mret (false, buffer)
    else v ← copy_out cache 0 end_size;
         buffer ← to_buffer buffer (bs * Z.max 0 (end_block - start_block) - offset mod bs) v;
         mret (true, buffer)
  else mret (true, buffer).

(** The result and the buffer. *)
Definition ext2_read_inode_data (inode : inode_t) (offset nbyte : Z) (buffer : list Z) : E (Z * list Z) :=
  let size := fget i_size inode in
  if size =? 0 then mret (0, buffer)
  else
    bs ← fs block_size;
    let offset := u32 offset in
    let finish := if size <? u32 (offset + nbyte) then size else u32 (offset + nbyte) in
    start_block ← udiv offset bs; end_block ← udiv finish bs;
    let end_size := u32 (finish - end_block * bs) in
    let size_to_read := u32 (finish - offset) in
    cache ← new_cache bs;
    '(ok, buffer) ← (if start_block =? end_block then read_single inode offset start_block size_to_read cache bs buffer
                     else read_several inode offset start_block end_block end_size cache bs buffer);
    free_cache cache ;;
    mret (if (ok : bool) then s32 size_to_read else -1, buffer).

(** One block of ext2_write_inode_data: the block is read, [n] bytes of the buffer
    from [from] on are put at [into], and the block is written. *)
Definition put_block (fuel : nat) (inode : inode_t) (inode_index block_index cache into : Z) (v : list Z) : E (Z * inode_t) :=
  ext2_read_inode_block inode block_index cache ;;
  copy_in cache into v ;;
  ext2_write_inode_block fuel inode inode_index block_index cache.

Fixpoint write_blocks (n fuel : nat) (inode : inode_t) (inode_index offset start_block block_offset cache bs : Z)
    (buffer : list Z) : E (bool * inode_t) :=
  match n with
  | O => mret (true, inode)
  | S n =>
      let blocks_read := block_offset - start_block in
      v ← (if block_offset =? start_block then from_buffer buffer 0 (bs - offset mod bs)
           else from_buffer buffer (bs * blocks_read - offset mod bs) bs);
      '(r, inode) ← put_block fuel inode inode_index block_offset cache
                      (if block_offset =? start_block then offset mod bs else 0) v;
      if r =? 0 then mret (false, inode)
      else write_blocks n fuel inode inode_index offset start_block (block_offset + 1) cache bs buffer
  end.

Definition write_several (fuel : nat) (inode : inode_t) (inode_index offset start_block end_block end_size cache bs : Z)
    (buffer : list Z) : E (bool * inode_t) :=
  '(ok, inode) ← write_blocks (Z.to_nat (end_block - start_block)) fuel inode inode_index offset start_block start_block cache bs buffer;
  if negb (ok : bool) then mret (false, inode)
  else if negb (end_size =? 0) then
    v ← from_buffer buffer (bs * Z.max 0 (end_block - start_block) - offset mod bs) end_size;
    '(r, inode) ← put_block fuel inode inode_index end_block cache 0 v;
    mret (r =? 0, inode)
  else mret (true, inode).

(** The cache is given back at the error exit only. *)
Definition ext2_write_inode_data (fuel : nat) (inode : inode_t) (inode_index offset nbyte : Z) (buffer : list Z) : E (Z * inode_t) :=
  bs ← fs block_size;
  let offset := u32 offset in
  let finish := u32 (offset + nbyte) in
  let inode := if fget i_size inode <? finish then fset i_size finish inode else inode in
  start_block ← udiv offset bs; end_block ← udiv finish bs;
  let end_size := u32 (finish - end_block * bs) in
  let size_to_write := u32 (finish - offset) in
  cache ← new_cache bs;
  '(ok, inode) ←
    (if start_block =? end_block then
       v ← from_buffer buffer 0 size_to_write;
       '(r, inode) ← put_block fuel inode inode_index start_block cache (offset mod bs) v;
       mret (negb (r =? 0), inode)
     else write_several fuel inode inode_index offset start_block end_block end_size cache bs buffer);
  if (ok : bool) then mret (s32 size_to_write, inode) else free_cache cache ;; mret (-1, inode).

(** ** The operations on an open file

    [ino] is the inode number of the file; the file belongs to this file system. *)
Definition ext2_read (ino : Z) (buffer : list Z) (offset nbyte : Z) : E (Z * list Z) :=
  o ← ext2_read_inode ino;
  match o with
  | None => mret (-1, buffer)
  | Some inode => ext2_read_inode_data inode offset nbyte buffer
  end.
Definition ext2_write (fuel : nat) (ino : Z) (buffer : list Z) (offset nbyte : Z) : E Z :=
  o ← ext2_read_inode ino;
  match o with
  | None => mret (-1)
  | Some inode => '(r, _) ← ext2_write_inode_data fuel inode ino offset nbyte buffer; mret r
  end.
End Operations.

(** ** Files on the disk *)
Record index_geometry (f : ext2_filesystem_t) : Prop := {
  ig_pointers : 4 * pointers_per_block f = block_size f;
  ig_sectors : 512 * blocks_per_block_count f = block_size f;
  ig_indirect : indirect_blocks_index f = EXT2_INDIRECT_BLOCKS + pointers_per_block f;
  ig_doubly : doubly_indirect_blocks_index f = EXT2_INDIRECT_BLOCKS + pointers_per_block f * (pointers_per_block f + 1);
  ig_trebly : doubly_indirect_blocks_index f < trebly_indirect_blocks_index f
}.

(** Entry [i] of the index block [n]. *)
Definition entry (f : ext2_filesystem_t) (d : list Z) (n i : Z) : Z := fget (pointer i) (blk f d n).

(** The blocks read on the way to block [k] of a file, and its real number. *)
Definition index_path (f : ext2_filesystem_t) (d inode : list Z) (k : Z) : list Z :=
  let p1 := pointers_per_block f in
  if k <? 12 then []
  else if k <? indirect_blocks_index f then [fget i_indir_block inode]
  else if k <? doubly_indirect_blocks_index f then
    let b := k - 12 - p1 in
    [fget i_doubly_indir_block inode; entry f d (fget i_doubly_indir_block inode) (b / p1)]
  else
    let c := k - 12 - p1 - p1 * p1 in
    let x := fget i_trebly_indir_block inode in
    [x; entry f d x (c / (p1 * p1)); entry f d (entry f d x (c / (p1 * p1))) (c mod (p1 * p1) / p1)].
Definition real_block (f : ext2_filesystem_t) (d inode : list Z) (k : Z) : Z :=
  let p1 := pointers_per_block f in
  if k <? 12 then fget (i_dir_blocks k) inode
  else if k <? indirect_blocks_index f then entry f d (fget i_indir_block inode) (k - 12)
  else if k <? doubly_indirect_blocks_index f then
    entry f d (entry f d (fget i_doubly_indir_block inode) ((k - 12 - p1) / p1)) ((k - 12 - p1) mod p1)
  else
    let c := k - 12 - p1 - p1 * p1 in
    entry f d (entry f d (entry f d (fget i_trebly_indir_block inode) (c / (p1 * p1))) (c mod (p1 * p1) / p1)) (c mod p1).

(** The number of blocks an inode says it has. *)
Definition block_count (f : ext2_filesystem_t) (inode : list Z) : Z := fget i_blocks_count inode / blocks_per_block_count f.
(** How many blocks the index can reach. *)
Definition index_capacity (f : ext2_filesystem_t) : Z :=
  let p1 := pointers_per_block f in Z.min (trebly_indirect_blocks_index f) (12 + p1 + p1 * p1 + p1 * p1 * p1).

(** A file whose blocks are all there, its blocks and its index blocks apart from
    each other and from the regions of the file system. *)
Record file_ok (f : ext2_filesystem_t) (d inode : list Z) : Prop := {
  fo_inode : zlen inode = INODE_SIZE /\ bytes inode;
  fo_count : 0 <= block_count f inode <= index_capacity f;
  fo_size : fget i_size inode <= block_count f inode * block_size f /\ fget i_size inode < 2147483648;
  fo_path : forall k x, 0 <= k < block_count f inode -> x ∈ index_path f d inode k -> 0 < x < sbf f sb_blocks_count;
  fo_real : forall k, 0 <= k < block_count f inode -> 0 < real_block f d inode k < sbf f sb_blocks_count;
  fo_distinct : forall j k, 0 <= j < block_count f inode -> 0 <= k < block_count f inode ->
    real_block f d inode j = real_block f d inode k -> j = k;
  fo_apart : forall j k, 0 <= j < block_count f inode -> 0 <= k < block_count f inode ->
    real_block f d inode j ∉ index_path f d inode k;
  fo_region : forall k R, 0 <= k < block_count f inode -> ~ in_region f R (real_block f d inode k)
}.

(** The bytes of the blocks of a file, one after the other. *)
Fixpoint content (f : ext2_filesystem_t) (d inode : list Z) (n : nat) : list Z :=
  match n with O => [] | S n => content f d inode n ++ blk f d (real_block f d inode (Z.of_nat n)) end.
Definition file_content (f : ext2_filesystem_t) (d inode : list Z) : list Z :=
  content f d inode (Z.to_nat (block_count f inode)).

Section FileFacts.
Context (f : ext2_filesystem_t) (d inode : list Z).
Context (Hm : mounted f d) (Hok : file_ok f d inode).

Lemma content_zlen n : Z.of_nat n <= block_count f inode -> zlen (content f d inode n) = Z.of_nat n * block_size f.
Proof.
  induction n as [|n IH]; intros Hn; [done|]. cbn [content]. rewrite zlen_app, IH by lia.
  pose proof (fo_real _ _ _ Hok (Z.of_nat n) ltac:(lia)). rewrite (blk_zlen f d) by (done || lia). lia.
Qed.

Lemma content_block n k : 0 <= k < Z.of_nat n -> Z.of_nat n <= block_count f inode ->
  slice (k * block_size f) (block_size f) (content f d inode n) = blk f d (real_block f d inode k).
Proof.
  pose proof (ge_bs _ (mo_geometry _ _ Hm)) as Hbs.
  induction n as [|n IH]; intros Hk Hn; [lia|]. cbn [content].
  pose proof (content_zlen n ltac:(lia)) as Hz. pose proof (fo_real _ _ _ Hok (Z.of_nat n) ltac:(lia)) as Hr.
  pose proof (blk_zlen f d _ Hm ltac:(exact (conj (Z.lt_le_incl _ _ (proj1 Hr)) (proj2 Hr)))) as Hzb.
  destruct (decide (k = Z.of_nat n)) as [->|].
  - apply list_eq. intros j. rewrite lookup_slice by lia. unfold zlen in *. case_decide.
    + rewrite lookup_app_r by lia. f_equal. lia.
    + symmetry. apply lookup_ge_None. lia.
  - rewrite <- IH by lia. apply list_eq. intros j. rewrite !lookup_slice by lia. unfold zlen in *. case_decide; [|done].
    rewrite lookup_app_l; [done|]. nia.
Qed.

Lemma file_content_zlen : zlen (file_content f d inode) = block_count f inode * block_size f.
Proof. unfold file_content. destruct (fo_count _ _ _ Hok). rewrite content_zlen, Z2Nat.id by lia. done. Qed.
Lemma file_content_block k : 0 <= k < block_count f inode ->
  slice (k * block_size f) (block_size f) (file_content f d inode) = blk f d (real_block f d inode k).
Proof. intros Hk. apply content_block; lia. Qed.

(** [n] bytes of block [k], from byte [a] of the block on. *)
Lemma content_part k a n : 0 <= k < block_count f inode -> 0 <= a -> 0 <= n -> a + n <= block_size f ->
  slice a n (blk f d (real_block f d inode k)) = slice (k * block_size f + a) n (file_content f d inode).
Proof. intros Hk ? ? ?. rewrite <- file_content_block by done. rewrite slice_slice by nia. done. Qed.
End FileFacts.

(** ** The block numbers *)
Section Index.
Context {D X : Type} `{BlockDevice D} `{HeapAllocator X}.
Abbreviation tri := (triple (repr (D := D) (X := X))).
Abbreviation cost := (ha_cost (X := X)).
Implicit Types (d c inode : list Z) (r : Z) (b : gmap Z (list Z)) (f : ext2_filesystem_t).

(** Room on the heap may be forgotten. *)
Lemma tri_less_room {A} d r r' b f (m : M (state D X) A) Q : 0 <= r' <= r -> tri (View d r' b f) m Q -> tri (View d r b f) m Q.
Proof. intros Hr Hm s Hs. apply Hm. by eapply repr_less_room. Qed.

Lemma pointer_fits f d n i : mounted f d -> index_geometry f -> 0 < n < sbf f sb_blocks_count -> 0 <= i < pointers_per_block f ->
  fits (pointer i) (blk f d n) = true.
Proof. intros Hm [] Hn Hi. apply fits_spec. rewrite (blk_zlen f d n Hm) by lia. simpl. lia. Qed.

(** A buffer that holds an index block. *)
Lemma tri_read_index d r b f p c n (Q : Z -> view -> Prop) : mounted f d -> 0 < n < sbf f sb_blocks_count -> 0 < p ->
  zlen c = block_size f -> Q (block_size f) (View d r (<[p := blk f d n]> b) f) ->
  tri (View d r (<[p := c]> b) f) (ext2_read_block n p) Q.
Proof.
  intros Hm Hn Hp Hc HQ. eapply tri_read_block; [done|done|apply lookup_insert_eq|done|done|]. by rewrite insert_insert_eq.
Qed.
Lemma tri_ld_index d r b f p n i (Q : Z -> view -> Prop) : mounted f d -> index_geometry f -> 0 < n < sbf f sb_blocks_count ->
  0 <= i < pointers_per_block f -> Q (entry f d n i) (View d r (<[p := blk f d n]> b) f) ->
  tri (View d r (<[p := blk f d n]> b) f) (ld p (pointer i)) Q.
Proof. intros Hm Hig Hn Hi HQ. eapply tri_ld; [apply lookup_insert_eq|by apply pointer_fits|exact HQ]. Qed.
Lemma tri_free_new {A} d r b f p c (k : M (state D X) A) Q : b !! p = None -> tri (View d r b f) k Q ->
  tri (View d r (<[p := c]> b) f) (free_cache p ;; k) Q.
Proof. intros Hp Hk. apply triple_bind. eapply tri_free_cache; [apply lookup_insert_eq|]. by rewrite delete_insert_id. Qed.

(** The indices that the code computes with 32 bits. *)
Lemma split_index q m n : 0 < m -> 0 <= q < n * m -> q < 4294967296 ->
  0 <= q / m < n /\ 0 <= q mod m < m /\ u32 (q - u32 (q / m * m)) = q mod m.
Proof.
  intros Hm Hq Hn. pose proof (Z.mod_pos_bound q m Hm). pose proof (Z.div_mod q m ltac:(lia)).
  assert (0 <= q / m < n) by (split; [apply Z.div_pos; lia|apply Z.div_lt_upper_bound; lia]).
  split_and!; try lia. rewrite (u32_small (q / m * m)), u32_small by nia. lia.
Qed.

Lemma tri_to_buffer v buffer off w (Q : list Z -> view -> Prop) : 0 <= off -> off + zlen w <= zlen buffer ->
  Q (splice off w buffer) v -> tri v (to_buffer buffer off w) Q.
Proof. intros ? ? HQ. unfold to_buffer. do 2 (rewrite (proj2 (Z.leb_le _ _)) by lia). by apply triple_ret. Qed.
Lemma tri_from_buffer v buffer off n (Q : list Z -> view -> Prop) : 0 <= off -> off + n <= zlen buffer ->
  Q (slice off n buffer) v -> tri v (from_buffer buffer off n) Q.
Proof. intros ? ? HQ. unfold from_buffer. do 2 (rewrite (proj2 (Z.leb_le _ _)) by lia). by apply triple_ret. Qed.

Section Steps.
Context (d : list Z) (r : Z) (b : gmap Z (list Z)) (f : ext2_filesystem_t) (p : Z) (inode : list Z) (k : Z) (Q : Z -> view -> Prop).
Context (Hm : mounted f d) (Hig : index_geometry f) (Hp : 0 < p).
Context (Hpath : forall x, x ∈ index_path f d inode k -> 0 < x < sbf f sb_blocks_count).
Let p1 := pointers_per_block f.
Context (Hp1 : 1024 <= p1 <= 8192) (c : list Z) (Hc : zlen c = block_size f).
Context (HQ : forall n, Q (real_block f d inode k) (View d r (<[p := blk f d n]> b) f)).

Lemma index_blk_zlen n : 0 < n < sbf f sb_blocks_count -> zlen (blk f d n) = block_size f.
Proof. intros Hn. apply blk_zlen; [done|lia]. Qed.

Lemma tri_doubly : 12 + p1 <= k < 12 + p1 + p1 * p1 ->
  tri (View d r (<[p := c]> b) f)
    (c ← udiv (u32 (k - 12 - p1)) p1;
     ext2_read_block (fget i_doubly_indir_block inode) p ;;
     x ← ld p (pointer c); ext2_read_block x p ;;
     ld p (pointer (u32 (u32 (k - 12 - p1) - u32 (c * p1))))) Q.
Proof.
  intros Hk. rewrite (u32_small (k - 12 - p1)) by nia. 
  assert (HQ' := HQ). revert HQ'. unfold real_block, index_path in *. rewrite (ig_indirect _ Hig), (ig_doubly _ Hig) in *.
  fold p1 in Hpath |- *. unfold EXT2_INDIRECT_BLOCKS in *.
  rewrite (proj2 (Z.ltb_ge k 12)), (proj2 (Z.ltb_ge k (12 + p1))), (proj2 (Z.ltb_lt k (12 + p1 * (p1 + 1)))) in * by nia.
  intros HQ'. destruct (split_index (k - 12 - p1) p1 p1) as (H1 & H2 & Heq); [lia|nia|nia|].
  pose proof (Hpath _ ltac:(by left)) as Hx1. pose proof (Hpath _ ltac:(by right; left)) as Hx2.
  apply triple_bind, tri_udiv; [lia|]. rewrite Heq.
  apply triple_bind, tri_read_index; [done..|]. apply triple_bind, tri_ld_index; [done..|].
  apply triple_bind, tri_read_index; [done|done|done|by apply index_blk_zlen|]. by apply tri_ld_index.
Qed.

Lemma tri_trebly : 12 + p1 + p1 * p1 <= k < 12 + p1 + p1 * p1 + p1 * p1 * p1 -> k < 4294967296 ->
  tri (View d r (<[p := c]> b) f)
    (d ← udiv (u32 (u32 (k - 12 - p1) - p1 * p1)) (p1 * p1);
     f ← udiv (u32 (u32 (u32 (k - 12 - p1) - p1 * p1) - u32 (d * (p1 * p1)))) p1;
     ext2_read_block (fget i_trebly_indir_block inode) p ;;
     x ← ld p (pointer d); ext2_read_block x p ;;
     x ← ld p (pointer f); ext2_read_block x p ;;
     ld p (pointer (u32 (u32 (u32 (u32 (k - 12 - p1) - p1 * p1) - u32 (d * (p1 * p1))) - u32 (f * p1))))) Q.
Proof.
  intros Hk Hk32. rewrite (u32_small (k - 12 - p1)), (u32_small (k - 12 - p1 - p1 * p1)) by nia.
  assert (HQ' := HQ). revert HQ'. unfold real_block, index_path in *. rewrite (ig_indirect _ Hig), (ig_doubly _ Hig) in *.
  fold p1 in Hpath |- *. unfold EXT2_INDIRECT_BLOCKS in *.
  rewrite (proj2 (Z.ltb_ge k 12)), (proj2 (Z.ltb_ge k (12 + p1))), (proj2 (Z.ltb_ge k (12 + p1 * (p1 + 1)))) in * by nia.
  intros HQ'. set (q := k - 12 - p1 - p1 * p1) in *.
  destruct (split_index q (p1 * p1) p1) as (H1 & H2 & Heq); [nia|unfold q; nia|nia|].
  destruct (split_index (q mod (p1 * p1)) p1 p1) as (H3 & H4 & Heq2); [lia|nia|nia|].
  assert (Hmod : q mod (p1 * p1) mod p1 = q mod p1).
  { rewrite Z.rem_mul_r by lia. rewrite (Z.mul_comm p1), Z_mod_plus_full. apply Z.mod_mod. lia. }
  pose proof (Hpath _ ltac:(by left)) as Hx1. pose proof (Hpath _ ltac:(by right; left)) as Hx2. pose proof (Hpath _ ltac:(by right; right; left)) as Hx3.
  apply triple_bind, tri_udiv; [nia|]. rewrite Heq. apply triple_bind, tri_udiv; [lia|]. rewrite Heq2, Hmod. rewrite Hmod in H4.
  apply triple_bind, tri_read_index; [done..|]. apply triple_bind, tri_ld_index; [done..|].
  apply triple_bind, tri_read_index; [done|done|done|by apply index_blk_zlen|]. apply triple_bind, tri_ld_index; [done..|].
  apply triple_bind, tri_read_index; [done|done|done|by apply index_blk_zlen|]. by apply tri_ld_index.
Qed.
End Steps.

(** The rule of [ext2_get_real_block_index]. *)
Lemma tri_get_real d r b f inode k (Q : Z -> view -> Prop) : mounted f d -> index_geometry f ->
  0 <= k < index_capacity f -> k < 4294967296 -> (forall x, x ∈ index_path f d inode k -> 0 < x < sbf f sb_blocks_count) ->
  cost (block_size f) <= r -> Q (real_block f d inode k) (View d (r - cost (block_size f)) b f) ->
  tri (View d r b f) (ext2_get_real_block_index inode k) Q.
Proof.
  intros Hm Hig Hk Hk32 Hpath Hr HQ. pose proof (ge_bs _ (mo_geometry _ _ Hm)) as Hbs.
  assert (Hcost : 0 <= cost (block_size f)) by (apply ha_cost_law; lia). pose proof (ig_pointers _ Hig).
  unfold ext2_get_real_block_index, index_capacity, EXT2_INDIRECT_BLOCKS in *.
  set (p1 := pointers_per_block f) in *. assert (Hp1 : 1024 <= p1 <= 8192) by lia.
  destruct (Z.ltb_spec k 12) as [Hk12|Hk12].
  { apply tri_less_room with (r - cost (block_size f)); [lia|]. apply triple_ret. unfold real_block in HQ.
    by rewrite (proj2 (Z.ltb_lt _ _)) in HQ by done. }
  do 5 apply triple_bind, tri_fs. fold p1. rewrite (u32_small (p1 * p1)) by nia.
  apply triple_bind, tri_new_cache; [lia|done|]. intros p Hp Hp0.
  assert (Hz0 : zlen (zeros (block_size f)) = block_size f) by (apply zeros_zlen; lia).
  apply triple_bind. eapply triple_mono with (Q := fun x v' => x = real_block f d inode k /\
    exists n, v' = View d (r - cost (block_size f)) (<[p := blk f d n]> b) f).
  2:{ intros x v' (-> & n & ->). by apply tri_free_new, triple_ret. }
  rewrite (ig_indirect _ Hig), (ig_doubly _ Hig). unfold EXT2_INDIRECT_BLOCKS. fold p1.
  destruct (Z.ltb_spec k (12 + p1)) as [Hk1|Hk1].
  { unfold real_block, index_path in *. rewrite (ig_indirect _ Hig) in *. unfold EXT2_INDIRECT_BLOCKS in *. fold p1 in Hpath |- *.
    rewrite (proj2 (Z.ltb_ge k 12)), (proj2 (Z.ltb_lt k (12 + p1))) in * by lia.
    pose proof (Hpath _ ltac:(by left)). apply triple_bind, tri_read_index; [done..|]. apply tri_ld_index; [done|done|done|fold p1; lia|].
    split; [done|by eexists]. }
  destruct (Z.ltb_spec k (12 + p1 * (p1 + 1))) as [Hk2|Hk2].
  { apply (tri_doubly d _ b f p inode k); try done; [|fold p1; nia]. intros n. split; [done|by exists n]. }
  pose proof (ig_trebly _ Hig). rewrite (proj2 (Z.ltb_lt k (trebly_indirect_blocks_index f))) by lia.
  apply (tri_trebly d _ b f p inode k); try done; [|fold p1; nia]. intros n. split; [done|by exists n].
Qed.
End Index.

(** ** Reading a file *)
Lemma slice_none off n l : n <= 0 -> slice off n l = [].
Proof. intros Hn. unfold slice. by replace (Z.to_nat n) with 0%nat by lia. Qed.
Lemma splice_none off l : 0 <= off -> splice off [] l = l.
Proof. intros. unfold splice. simpl. rewrite Nat.add_0_r. apply take_drop. Qed.

Section Reading.
Context {D X : Type} `{BlockDevice D} `{HeapAllocator X}.
Abbreviation tri := (triple (repr (D := D) (X := X))).
Abbreviation cost := (ha_cost (X := X)).
Implicit Types (c : list Z) (r : Z) (b : gmap Z (list Z)).
Context (f : ext2_filesystem_t) (d inode : list Z).
Context (Hm : mounted f d) (Hig : index_geometry f) (Hok : file_ok f d inode).
Let bs := block_size f.
Let C := file_content f d inode.

Lemma bs_range : 4096 <= bs <= 32768.
Proof. apply (ge_bs _ (mo_geometry _ _ Hm)). Qed.
Lemma cost_nonneg : 0 <= cost bs.
Proof. apply ha_cost_law. pose proof bs_range. lia. Qed.
Lemma count_range : 0 <= block_count f inode <= index_capacity f /\ block_count f inode < 4294967296.
Proof.
  destruct (fo_count _ _ _ Hok) as [H1 H2]. split; [done|]. pose proof bs_range. unfold block_count.
  pose proof (ig_sectors _ Hig) as Hs. destruct (fo_inode _ _ _ Hok) as [Hz Hb].
  pose proof (fget_range i_blocks_count inode Hb ltac:(by apply fits_spec; rewrite Hz; unfold INODE_SIZE; simpl; lia)) as Hr.
  change (fmax i_blocks_count) with 4294967296 in Hr. unfold bs in *. apply Z.div_lt_upper_bound; lia.
Qed.

Lemma tri_file_blocks r b (Q : Z -> view -> Prop) : Q (block_count f inode) (View d r b f) ->
  tri (View d r b f) (file_blocks inode) Q.
Proof. intros HQ. pose proof (ig_sectors _ Hig). pose proof bs_range. apply triple_bind, tri_fs, tri_udiv; [unfold bs in *; lia|done]. Qed.

Lemma tri_read_inode_block r b p c k (Q : Z -> view -> Prop) : 0 <= k < block_count f inode -> k < 4294967296 ->
  b !! p = None -> 0 < p -> zlen c = bs -> cost bs <= r ->
  Q bs (View d (r - cost bs) (<[p := blk f d (real_block f d inode k)]> b) f) ->
  tri (View d r (<[p := c]> b) f) (ext2_read_inode_block inode k p) Q.
Proof.
  intros Hk Hk32 Hp Hp0 Hc Hr HQ. apply triple_bind, tri_file_blocks. rewrite (proj2 (Z.leb_gt _ _)) by lia.
  destruct count_range as [Hcap _]. pose proof (fo_real _ _ _ Hok k Hk) as Hreal.
  apply triple_bind, tri_get_real; [done|done|lia|done|intros x; by apply (fo_path _ _ _ Hok)|done|].
  rewrite (proj2 (Z.eqb_neq _ _)) by lia. by apply tri_read_index.
Qed.
Lemma tri_read_inode_block_none r b p k (Q : Z -> view -> Prop) : block_count f inode <= k -> Q (-1) (View d r b f) ->
  tri (View d r b f) (ext2_read_inode_block inode k p) Q.
Proof. intros Hk HQ. apply triple_bind, tri_file_blocks. rewrite (proj2 (Z.leb_le _ _)) by lia. by apply triple_ret. Qed.

(** The buffer when the blocks before block [k] have been read from [offset] on. *)
Let filled (offset k : Z) (buffer : list Z) : list Z := splice 0 (slice offset (k * bs - offset) C) buffer.

Lemma filled_start offset buffer : 0 <= offset -> filled offset (offset / bs) buffer = buffer.
Proof.
  intros. pose proof bs_range. unfold filled. rewrite slice_none; [by apply splice_none|].
  pose proof (Z.mul_div_le offset bs ltac:(lia)). lia.
Qed.

(** One more piece of the file at the end of the buffer. *)
Lemma filled_next offset m n buffer : 0 <= offset -> 0 <= m -> 0 <= n -> offset + m + n <= zlen C -> m + n <= zlen buffer ->
  splice m (slice (offset + m) n C) (splice 0 (slice offset m C) buffer) = splice 0 (slice offset (m + n) C) buffer.
Proof.
  intros. rewrite slice_app by lia. rewrite <- splice_app by (rewrite ?slice_zlen by lia; lia).
  rewrite slice_zlen by lia. by rewrite Z.add_0_l.
Qed.

Lemma read_blocks_ok n : forall k r b p c offset buffer (Q : bool * list Z -> view -> Prop),
  0 <= offset -> offset / bs <= k -> k + Z.of_nat n <= block_count f inode -> block_count f inode < 4294967296 ->
  b !! p = None -> 0 < p -> zlen c = bs -> (k + Z.of_nat n) * bs - offset <= zlen buffer -> Z.of_nat n * cost bs <= r ->
  (forall c', zlen c' = bs -> Q (true, filled offset (k + Z.of_nat n) buffer) (View d (r - Z.of_nat n * cost bs) (<[p := c']> b) f)) ->
  tri (View d r (<[p := c]> b) f) (read_blocks n inode offset (offset / bs) k p bs (filled offset k buffer)) Q.
Proof.
  pose proof bs_range as Hbs. pose proof cost_nonneg as Hcost.
  induction n as [|n IH]; intros k r b p c offset buffer Q Ho Hk Hn H32 Hp Hp0 Hc Hbuf Hr HQ; cbn [read_blocks].
  { apply triple_ret. rewrite Z.add_0_r, Z.mul_0_l, Z.sub_0_r in HQ. by apply HQ. }
  assert (0 <= offset / bs) by (apply Z.div_pos; lia). pose proof (Z.mod_pos_bound offset bs ltac:(lia)) as Hmod.
  pose proof (Z.div_mod offset bs ltac:(lia)) as Hdm.
  assert (HzC : zlen C = block_count f inode * bs) by (by apply file_content_zlen).
  assert (Hone : k * bs + bs - offset <= zlen buffer) by nia.
  assert (Hblk : offset / bs * bs <= k * bs /\ k * bs + bs <= block_count f inode * bs) by nia.
  assert (Hzb : zlen (blk f d (real_block f d inode k)) = bs).
  { pose proof (fo_real _ _ _ Hok k ltac:(lia)). apply blk_zlen; [done|lia]. }
  apply triple_bind, tri_read_inode_block; [lia|lia|done|done|done|nia|]. rewrite (proj2 (Z.eqb_neq _ _)) by lia.
  apply triple_bind. eapply triple_mono with (Q := fun x v' => x = filled offset (k + 1) buffer /\
    v' = View d (r - cost bs) (<[p := blk f d (real_block f d inode k)]> b) f).
  - destruct (Z.eqb_spec k (offset / bs)) as [->|E].
    + apply triple_bind. eapply tri_copy_out; [apply lookup_insert_eq|lia|lia|lia|].
      rewrite filled_start by done. apply tri_to_buffer; [lia|rewrite slice_zlen; lia|]. split; [|done].
      unfold filled. rewrite (content_part f d inode Hm Hok) by lia. fold bs C. f_equal. f_equal; lia.
    + apply triple_bind. eapply tri_copy_out; [apply lookup_insert_eq|lia|lia|lia|].
      rewrite (content_part f d inode Hm Hok) by lia. fold bs C. rewrite Z.add_0_r.
      apply tri_to_buffer; [nia|unfold filled; rewrite splice_zlen, slice_zlen; rewrite ?slice_zlen; nia|]. split; [|done].
      unfold filled. replace ((k + 1) * bs - offset) with ((k * bs - offset) + bs) by lia.
      rewrite <- (filled_next offset (k * bs - offset) bs) by nia. f_equal; [nia|f_equal; lia].
  - intros x v' [-> ->]. apply IH; try done; try lia.
    intros c' Hc'. replace (k + 1 + Z.of_nat n) with (k + Z.of_nat (S n)) by lia.
    replace (r - cost bs - Z.of_nat n * cost bs) with (r - Z.of_nat (S n) * cost bs) by lia. by apply HQ.
Qed.

Lemma tri_read_several r b p c offset finish buffer (Q : bool * list Z -> view -> Prop) :
  0 <= offset < finish -> finish <= fget i_size inode -> offset / bs < finish / bs -> finish - offset <= zlen buffer ->
  b !! p = None -> 0 < p -> zlen c = bs -> (finish / bs - offset / bs + 1) * cost bs <= r ->
  (forall c', zlen c' = bs -> Q (true, splice 0 (slice offset (finish - offset) C) buffer)
     (View d (r - (finish / bs - offset / bs + 1) * cost bs) (<[p := c']> b) f)) ->
  tri (View d r (<[p := c]> b) f) (read_several inode offset (offset / bs) (finish / bs) (finish mod bs) p bs buffer) Q.
Proof.
  intros Hoff Hfin Hlt Hbuf Hp Hp0 Hc Hr HQ. pose proof bs_range as Hbs. pose proof cost_nonneg as Hcost.
  destruct (fo_size _ _ _ Hok) as [Hsize _]. fold bs in Hsize.
  assert (HzC : zlen C = block_count f inode * bs) by (by apply file_content_zlen).
  assert (Hcount : block_count f inode < 4294967296) by apply count_range.
  pose proof (Z.div_mod offset bs ltac:(lia)) as Ho. pose proof (Z.mod_pos_bound offset bs ltac:(lia)) as Hom.
  pose proof (Z.div_mod finish bs ltac:(lia)) as Hf. pose proof (Z.mod_pos_bound finish bs ltac:(lia)) as Hfm.
  assert (0 <= offset / bs) by (apply Z.div_pos; lia).
  unfold read_several. rewrite <- (filled_start offset buffer) at 1 by lia.
  apply triple_bind, read_blocks_ok; try done; try lia; try nia.
  rewrite !Z2Nat.id by lia. replace (offset / bs + (finish / bs - offset / bs)) with (finish / bs) by lia.
  intros c1 Hc1. rewrite Z.max_r by lia. cbn [negb].
  destruct (Z.eqb_spec (finish mod bs) 0) as [E2|E2]; cbn [negb].
  - apply tri_less_room with (r - (finish / bs - offset / bs + 1) * cost bs); [nia|]. apply triple_ret. unfold filled.
    replace (finish / bs * bs - offset) with (finish - offset) by lia. by apply HQ.
  - assert (Hk : 0 <= finish / bs < block_count f inode) by nia.
    apply triple_bind, tri_read_inode_block; [done|lia|done|done|done|nia|]. rewrite (proj2 (Z.eqb_neq _ _)) by lia.
    pose proof (fo_real _ _ _ Hok _ Hk) as Hreal. pose proof (index_blk_zlen d f Hm _ Hreal) as Hzb. fold bs in Hzb.
    apply triple_bind. eapply tri_copy_out; [apply lookup_insert_eq|lia|lia|lia|].
    rewrite (content_part f d inode Hm Hok) by (unfold bs in *; lia). fold bs C. rewrite Z.add_0_r.
    replace (bs * (finish / bs - offset / bs) - offset mod bs) with (finish / bs * bs - offset) by lia.
    assert (Hmn : finish / bs * bs + finish mod bs <= zlen C) by nia.
    apply triple_bind, tri_to_buffer; [nia|unfold filled; rewrite splice_zlen; rewrite ?slice_zlen; nia|].
    apply triple_ret. unfold filled.
    pose proof (filled_next offset (finish / bs * bs - offset) (finish mod bs) buffer ltac:(lia) ltac:(nia) ltac:(lia) ltac:(lia) ltac:(lia)) as Hnext.
    replace (offset + (finish / bs * bs - offset)) with (finish / bs * bs) in Hnext by lia.
    replace (finish / bs * bs - offset + finish mod bs) with (finish - offset) in Hnext by lia. rewrite Hnext.
    replace (r - (finish / bs - offset / bs) * cost bs - cost bs) with
      (r - (finish / bs - offset / bs + 1) * cost bs) by lia. by apply HQ.
Qed.

Lemma tri_read_single r b p c offset finish buffer (Q : bool * list Z -> view -> Prop) :
  0 <= offset < finish -> finish <= fget i_size inode -> offset / bs = finish / bs -> finish - offset <= zlen buffer ->
  b !! p = None -> 0 < p -> zlen c = bs -> cost bs <= r ->
  (forall c', zlen c' = bs -> Q (true, splice 0 (slice offset (finish - offset) C) buffer) (View d (r - cost bs) (<[p := c']> b) f)) ->
  tri (View d r (<[p := c]> b) f) (read_single inode offset (offset / bs) (finish - offset) p bs buffer) Q.
Proof.
  intros Hoff Hfin Heq Hbuf Hp Hp0 Hc Hr HQ. pose proof bs_range as Hbs.
  destruct (fo_size _ _ _ Hok) as [Hsize _]. fold bs in Hsize.
  assert (HzC : zlen C = block_count f inode * bs) by (by apply file_content_zlen).
  assert (Hcount : block_count f inode < 4294967296) by apply count_range.
  pose proof (Z.div_mod offset bs ltac:(lia)) as Ho. pose proof (Z.mod_pos_bound offset bs ltac:(lia)) as Hom.
  pose proof (Z.div_mod finish bs ltac:(lia)) as Hf. pose proof (Z.mod_pos_bound finish bs ltac:(lia)) as Hfm.
  assert (0 <= offset / bs) by (apply Z.div_pos; lia). rewrite <- Heq in Hf.
  assert (Hk : 0 <= offset / bs < block_count f inode) by nia.
  apply triple_bind, tri_read_inode_block; [done|lia|done|done|done|done|]. rewrite (proj2 (Z.eqb_neq _ _)) by lia.
  pose proof (fo_real _ _ _ Hok _ Hk) as Hreal. pose proof (index_blk_zlen d f Hm _ Hreal) as Hzb. fold bs in Hzb.
  apply triple_bind. eapply tri_copy_out; [apply lookup_insert_eq|lia|lia|lia|].
  rewrite (content_part f d inode Hm Hok) by (unfold bs in *; lia). fold bs C.
  replace (offset / bs * bs + offset mod bs) with offset by lia.
  apply triple_bind, tri_to_buffer; [lia|rewrite slice_zlen; lia|]. by apply triple_ret, HQ.
Qed.

(** The rule of [ext2_read_inode_data] for an offset inside the file. *)
Lemma tri_read_inode_data r b offset nbyte buffer (Q : Z * list Z -> view -> Prop) :
  let finish := Z.min (offset + nbyte) (fget i_size inode) in
  0 <= offset < fget i_size inode -> 0 < nbyte -> offset + nbyte < 4294967296 -> finish - offset <= zlen buffer ->
  (finish / bs - offset / bs + 2) * cost bs <= r ->
  Q (finish - offset, splice 0 (slice offset (finish - offset) C) buffer)
    (View d (r - (finish / bs - offset / bs + 2) * cost bs) b f) ->
  tri (View d r b f) (ext2_read_inode_data inode offset nbyte buffer) Q.
Proof.
  intros finish Hoff Hn H32 Hbuf Hr HQ. pose proof bs_range as Hbs. pose proof cost_nonneg as Hcost.
  destruct (fo_size _ _ _ Hok) as [_ Hsz31].
  unfold ext2_read_inode_data. rewrite (proj2 (Z.eqb_neq _ _)) by lia.
  apply triple_bind, tri_fs. fold bs. rewrite (u32_small offset), !(u32_small (offset + nbyte)) by lia.
  replace (if fget i_size inode <? offset + nbyte then fget i_size inode else offset + nbyte) with finish
    by (unfold finish; destruct (Z.ltb_spec (fget i_size inode) (offset + nbyte)); lia).
  assert (Hfin : offset < finish <= fget i_size inode) by (unfold finish; lia). clearbody finish.
  apply triple_bind, tri_udiv; [lia|]. apply triple_bind, tri_udiv; [lia|]. rewrite !(u32_small (finish - offset)), (s32_small (finish - offset)) by lia.
  pose proof (Z.div_mod finish bs ltac:(lia)) as Hf. pose proof (Z.mod_pos_bound finish bs ltac:(lia)).
  assert (0 <= offset / bs) by (apply Z.div_pos; lia).
  assert (Hle : offset / bs <= finish / bs) by (apply Z.div_le_mono; lia).
  rewrite !(u32_small (finish - finish / bs * bs)) by lia. replace (finish - finish / bs * bs) with (finish mod bs) by lia.
  apply triple_bind, tri_new_cache; [lia|nia|]. intros p Hp Hp0.
  assert (Hz0 : zlen (zeros bs) = bs) by (apply zeros_zlen; lia).
  apply triple_bind. destruct (Z.eqb_spec (offset / bs) (finish / bs)) as [E|E].
  - apply tri_read_single; [lia|lia|done|done|done|done|done|nia|]. intros c Hc. apply tri_free_new, triple_ret; [done|].
    rewrite <- E in HQ. by replace (r - cost bs - cost bs) with (r - (offset / bs - offset / bs + 2) * cost bs) by lia.
  - apply tri_read_several; [lia|lia|lia|done|done|done|done|nia|]. intros c Hc. apply tri_free_new, triple_ret; [done|].
    by replace (r - cost bs - (finish / bs - offset / bs + 1) * cost bs) with (r - (finish / bs - offset / bs + 2) * cost bs) by lia.
Qed.

(** At the end of the file nothing is read: 0, or -1 when the file fills its last
    block. *)
Lemma tri_read_inode_data_end r b nbyte buffer (Q : Z * list Z -> view -> Prop) :
  0 < fget i_size inode -> 0 <= nbyte -> fget i_size inode + nbyte < 4294967296 ->
  fget i_size inode / bs = block_count f inode \/ fget i_size inode / bs < block_count f inode -> 2 * cost bs <= r ->
  Q (if fget i_size inode / bs =? block_count f inode then -1 else 0, buffer) (View d (r - 2 * cost bs) b f) ->
  tri (View d r b f) (ext2_read_inode_data inode (fget i_size inode) nbyte buffer) Q.
Proof.
  set (size := fget i_size inode). intros Hsz Hn H32 Hor Hr HQ. pose proof bs_range as Hbs. pose proof cost_nonneg as Hcost.
  assert (Hcount : block_count f inode < 4294967296) by apply count_range.
  unfold ext2_read_inode_data. fold size. rewrite (proj2 (Z.eqb_neq _ _)) by lia.
  apply triple_bind, tri_fs. fold bs. rewrite (u32_small size), !(u32_small (size + nbyte)) by lia.
  replace (if size <? size + nbyte then size else size + nbyte) with size by (destruct (Z.ltb_spec size (size + nbyte)); lia).
  apply triple_bind, tri_udiv; [lia|]. apply triple_bind, tri_udiv; [lia|]. rewrite Z.sub_diag, Z.eqb_refl.
  pose proof (Z.div_mod size bs ltac:(lia)) as Hf. pose proof (Z.mod_pos_bound size bs ltac:(lia)).
  assert (0 <= size / bs) by (apply Z.div_pos; lia).
  apply triple_bind, tri_new_cache; [lia|lia|]. intros p Hp Hp0.
  assert (Hz0 : zlen (zeros bs) = bs) by (apply zeros_zlen; lia).
  assert (Hroom : 0 <= r - 2 * cost bs <= r - cost bs) by lia.
  apply triple_bind. unfold read_single. destruct (Z.eqb_spec (size / bs) (block_count f inode)) as [E|E].
  - apply triple_bind, tri_read_inode_block_none; [lia|]. apply triple_ret, tri_free_new; [done|].
    by apply (tri_less_room _ _ _ _ _ _ _ Hroom), triple_ret.
  - apply triple_bind, tri_read_inode_block; [lia|lia|done|done|done|lia|]. rewrite (proj2 (Z.eqb_neq _ _)) by lia.
    pose proof (fo_real _ _ _ Hok (size / bs) ltac:(lia)) as Hreal. pose proof (index_blk_zlen d f Hm _ Hreal) as Hzb. fold bs in Hzb.
    change (u32 0) with 0. apply triple_bind. eapply tri_copy_out; [apply lookup_insert_eq|lia|lia|lia|].
    apply triple_bind, tri_to_buffer; [lia|rewrite slice_none by lia; apply zlen_nonneg|].
    rewrite slice_none, splice_none by lia. apply triple_ret, tri_free_new, triple_ret; [done|]. 
    by replace (r - cost bs - cost bs) with (r - 2 * cost bs) by lia.
Qed.
End Reading.

(** ** Writing a file whose blocks are there *)
Section Ext.
Context (f : ext2_filesystem_t) (d d' inode : list Z).

(** The block numbers only depend on the index blocks. *)
Lemma real_block_ext k : (forall x, x ∈ index_path f d inode k -> blk f d' x = blk f d x) ->
  index_path f d' inode k = index_path f d inode k /\ real_block f d' inode k = real_block f d inode k.
Proof.
  unfold index_path, real_block, entry. repeat case_match; intros Hx; split; try done.
  - by rewrite (Hx _ ltac:(by left)).
  - by rewrite (Hx _ ltac:(by left)).
  - rewrite (Hx (fget i_doubly_indir_block inode) ltac:(by left)). by rewrite (Hx _ ltac:(by right; left)).
  - rewrite (Hx (fget i_trebly_indir_block inode) ltac:(by left)). by rewrite (Hx _ ltac:(by right; left)).
  - rewrite (Hx (fget i_trebly_indir_block inode) ltac:(by left)). rewrite (Hx _ ltac:(by right; left)).
    by rewrite (Hx _ ltac:(by right; right; left)).
Qed.
End Ext.

(** A file none of whose blocks has changed. *)
Lemma file_ok_ext f d d' inode : file_ok f d inode ->
  (forall k x, 0 <= k < block_count f inode -> x ∈ index_path f d inode k -> blk f d' x = blk f d x) ->
  (forall k, 0 <= k < block_count f inode -> blk f d' (real_block f d inode k) = blk f d (real_block f d inode k)) ->
  file_ok f d' inode /\ file_content f d' inode = file_content f d inode.
Proof.
  intros Hok Hp Hr.
  assert (Hno : forall k, 0 <= k < block_count f inode -> index_path f d' inode k = index_path f d inode k /\
    real_block f d' inode k = real_block f d inode k) by (intros k Hk; apply real_block_ext; intros x; by apply Hp).
  split.
  - destruct Hok. split; try done.
    + intros k x Hk. destruct (Hno k Hk) as [-> _]. by apply fo_path0.
    + intros k Hk. destruct (Hno k Hk) as [_ ->]. by apply fo_real0.
    + intros i j Hi Hj. destruct (Hno i Hi) as [_ ->], (Hno j Hj) as [_ ->]. by apply fo_distinct0.
    + intros i j Hi Hj. destruct (Hno i Hi) as [_ ->], (Hno j Hj) as [-> _]. by apply fo_apart0.
    + intros i R Hi. destruct (Hno i Hi) as [_ ->]. by apply fo_region0.
  - unfold file_content. destruct (fo_count _ _ _ Hok) as [Hc _].
    assert (Hn : Z.of_nat (Z.to_nat (block_count f inode)) <= block_count f inode) by lia. revert Hn.
    generalize (Z.to_nat (block_count f inode)). intros n. induction n as [|n IH]; intros Hn; [done|]. cbn [content].
    destruct (Hno (Z.of_nat n) ltac:(lia)) as [_ ->]. by rewrite Hr, IH by lia.
Qed.

(** The size is no part of the index. *)
Lemma size_no_index f d inode x k : zlen inode = INODE_SIZE -> 0 <= k ->
  index_path f d (fset i_size x inode) k = index_path f d inode k /\
  real_block f d (fset i_size x inode) k = real_block f d inode k /\
  block_count f (fset i_size x inode) = block_count f inode.
Proof.
  intros Hz Hk. assert (Hf : fits i_size inode = true) by (apply fits_spec; rewrite Hz; unfold INODE_SIZE; simpl; lia).
  unfold index_path, real_block, block_count.
  rewrite !(fget_fset_ne i_size i_indir_block), !(fget_fset_ne i_size i_doubly_indir_block), !(fget_fset_ne i_size i_trebly_indir_block),
    (fget_fset_ne i_size i_blocks_count) by (done || (unfold apart; simpl; lia)).
  split_and!; try done. destruct (Z.ltb_spec k 12); [|done].
  by rewrite (fget_fset_ne i_size (i_dir_blocks k)) by (done || (unfold apart; simpl; lia)).
Qed.

Lemma size_no_content f d inode x : zlen inode = INODE_SIZE -> file_content f d (fset i_size x inode) = file_content f d inode.
Proof.
  intros Hz. unfold file_content. destruct (size_no_index f d inode x 0 Hz ltac:(lia)) as (_ & _ & ->).
  generalize (Z.to_nat (block_count f inode)). intros n. induction n as [|n IH]; [done|]. cbn [content].
  by destruct (size_no_index f d inode x (Z.of_nat n) Hz ltac:(lia)) as (_ & -> & _); rewrite IH.
Qed.

(** Lists of blocks are equal when their blocks are. *)
Lemma blocks_eq bs n (l1 l2 : list Z) : 0 < bs -> zlen l1 = n * bs -> zlen l2 = n * bs ->
  (forall k, 0 <= k < n -> slice (k * bs) bs l1 = slice (k * bs) bs l2) -> l1 = l2.
Proof.
  intros Hbs H1 H2 Hk. apply list_eq. intros i. unfold zlen in *.
  destruct (decide (Z.of_nat i < n * bs)).
  - assert (Hd := Z.div_mod (Z.of_nat i) bs ltac:(lia)). pose proof (Z.mod_pos_bound (Z.of_nat i) bs Hbs).
    assert (0 <= Z.of_nat i / bs < n) by (split; [apply Z.div_pos; lia|apply Z.div_lt_upper_bound; lia]).
    specialize (Hk (Z.of_nat i / bs) ltac:(lia)). apply (f_equal (fun l => l !! Z.to_nat (Z.of_nat i mod bs))) in Hk.
    rewrite !lookup_slice in Hk by nia. rewrite !decide_True in Hk by lia.
    by replace (Z.to_nat (Z.of_nat i / bs * bs) + Z.to_nat (Z.of_nat i mod bs))%nat with i in Hk by lia.
  - rewrite !lookup_ge_None_2; [done|lia|lia].
Qed.

(** The disk after [v] is written at byte [off] of a file: the content has changed
    there and nowhere else, the blocks of the file are where they were, and no
    other block has changed. *)
Record file_written (f : ext2_filesystem_t) (d inode d' : list Z) (off : Z) (v : list Z) : Prop := {
  fw_mounted : mounted f d';
  fw_ok : file_ok f d' inode;
  fw_content : file_content f d' inode = splice off v (file_content f d inode);
  fw_frame : forall x, 0 < x < sbf f sb_blocks_count -> (forall k, 0 <= k < block_count f inode -> x <> real_block f d inode k) ->
    blk f d' x = blk f d x;
  fw_same : forall k, 0 <= k < block_count f inode -> real_block f d' inode k = real_block f d inode k
}.

Lemma file_written_app f d inode d1 d2 off v w : 0 <= off -> off + zlen v + zlen w <= zlen (file_content f d inode) ->
  file_written f d inode d1 off v -> file_written f d1 inode d2 (off + zlen v) w -> file_written f d inode d2 off (v ++ w).
Proof.
  intros Hoff Hlen [Hm1 Hok1 Hc1 Hf1 Hs1] [Hm2 Hok2 Hc2 Hf2 Hs2]. split; try done.
  - by rewrite Hc2, Hc1, splice_app.
  - intros x Hx Hk. rewrite Hf2 by (done || (intros k Hk'; rewrite Hs1 by done; by apply Hk)). by apply Hf1.
  - intros k Hk. by rewrite Hs2, Hs1.
Qed.

Lemma file_written_none f d inode off n v : mounted f d -> file_ok f d inode -> n <= 0 ->
  file_written f d inode d off (slice 0 n v).
Proof.
  intros Hm Hok Hn. replace (slice 0 n v) with (@nil Z) by (unfold slice; replace (Z.to_nat n) with 0%nat by lia; by rewrite take_0).
  split; try done. unfold splice. simpl. by rewrite Nat.add_0_r, take_drop.
Qed.

Section WriteBlock.
Context (f : ext2_filesystem_t) (d inode : list Z) (k : Z) (w : list Z).
Context (Hm : mounted f d) (Hok : file_ok f d inode) (Hk : 0 <= k < block_count f inode).
Context (Hw : zlen w = block_size f) (Hwb : bytes w).
Let d' := splice (real_block f d inode k * block_size f) w d.

Lemma wb_blk x : 0 <= x -> blk f d' x = if decide (x = real_block f d inode k) then w else blk f d x.
Proof. intros Hx. pose proof (fo_real _ _ _ Hok k Hk). apply blk_write; [done|lia|done|done]. Qed.

Lemma wb_same j : 0 <= j < block_count f inode ->
  index_path f d' inode j = index_path f d inode j /\ real_block f d' inode j = real_block f d inode j.
Proof.
  intros Hj. apply real_block_ext. intros x Hx. pose proof (fo_path _ _ _ Hok j x Hj Hx). rewrite wb_blk by lia.
  rewrite decide_False; [done|]. intros ->. by apply (fo_apart _ _ _ Hok k j Hk Hj).
Qed.

Lemma wb_mounted : mounted f d'.
Proof. apply mounted_write; [done|by apply (fo_real _ _ _ Hok)|by apply (fo_region _ _ _ Hok k)|done|done]. Qed.

Lemma wb_ok : file_ok f d' inode.
Proof.
  destruct (id Hok). split; try done.
  - intros j x Hj. destruct (wb_same j Hj) as [-> _]. by apply fo_path0.
  - intros j Hj. destruct (wb_same j Hj) as [_ ->]. by apply fo_real0.
  - intros i j Hi Hj. destruct (wb_same i Hi) as [_ ->], (wb_same j Hj) as [_ ->]. by apply fo_distinct0.
  - intros i j Hi Hj. destruct (wb_same i Hi) as [_ ->], (wb_same j Hj) as [-> _]. by apply fo_apart0.
  - intros j R Hj. destruct (wb_same j Hj) as [_ ->]. by apply fo_region0.
Qed.

Lemma wb_content : file_content f d' inode = splice (k * block_size f) w (file_content f d inode).
Proof.
  pose proof (ge_bs _ (mo_geometry _ _ Hm)) as Hbs. pose proof (file_content_zlen f d inode Hm Hok) as Hz.
  assert (Hin : k * block_size f + block_size f <= block_count f inode * block_size f) by nia.
  apply (blocks_eq (block_size f) (block_count f inode)); [lia|apply (file_content_zlen f d' inode wb_mounted wb_ok)|rewrite splice_zlen; nia|].
  intros j Hj. rewrite (file_content_block f d' inode wb_mounted wb_ok) by done.
  destruct (wb_same j Hj) as [_ ->]. pose proof (fo_real _ _ _ Hok j Hj). rewrite wb_blk by lia.
  destruct (decide (j = k)) as [->|Hne].
  - rewrite decide_True by done. symmetry. apply slice_splice_eq; nia.
  - rewrite decide_False by (intros E; by apply Hne, (fo_distinct _ _ _ Hok)).
    rewrite slice_splice_ne; [by rewrite (file_content_block f d inode Hm Hok)|nia|nia|nia|].
    rewrite Hw. assert (j + 1 <= k \/ k + 1 <= j) as [?|?] by lia; nia.
Qed.
End WriteBlock.

(** Writing [v] into block [k] from byte [a] on. *)
Lemma write_part f d inode k a v : mounted f d -> file_ok f d inode -> 0 <= k < block_count f inode -> bytes v ->
  0 <= a -> a + zlen v <= block_size f ->
  file_written f d inode (splice (real_block f d inode k * block_size f) (splice a v (blk f d (real_block f d inode k))) d)
    (k * block_size f + a) v.
Proof.
  intros Hm Hok Hk Hv Ha Hlen. pose proof (ge_bs _ (mo_geometry _ _ Hm)) as Hbs. pose proof (fo_real _ _ _ Hok k Hk) as Hr.
  assert (Hz : zlen (blk f d (real_block f d inode k)) = block_size f) by (apply blk_zlen; [done|lia]).
  set (w := splice a v (blk f d (real_block f d inode k))).
  assert (Hw : zlen w = block_size f) by (unfold w; rewrite splice_zlen; lia).
  assert (Hwb : bytes w) by (apply splice_bytes; [by apply blk_bytes|done]).
  pose proof (file_content_zlen f d inode Hm Hok) as Hzc. split.
  - by apply wb_mounted.
  - by apply wb_ok.
  - rewrite wb_content by done. unfold w. rewrite <- (file_content_block f d inode Hm Hok) by done.
    rewrite splice_inside by (rewrite ?slice_zlen; nia). f_equal. apply splice_slice_id; nia.
  - intros x Hx Hne. rewrite (wb_blk f d inode k w) by (done || lia). rewrite decide_False; [done|]. by apply Hne.
  - intros j Hj. by destruct (wb_same f d inode k w Hm Hok Hk Hw j Hj) as [_ ->].
Qed.

Section Writing.
Context {D X : Type} `{BlockDevice D} `{HeapAllocator X}.
Abbreviation tri := (triple (repr (D := D) (X := X))).
Abbreviation cost := (ha_cost (X := X)).
Implicit Types (d c : list Z) (r : Z) (b : gmap Z (list Z)).
Context (f : ext2_filesystem_t) (inode : list Z) (inode_index : Z) (fuel : nat).
Context (Hig : index_geometry f).
Let bs := block_size f.

Lemma tri_put_block d r b p c k a v (Q : Z * list Z -> view -> Prop) : mounted f d -> file_ok f d inode ->
  0 <= k < block_count f inode -> b !! p = None -> 0 < p -> zlen c = bs -> bytes v -> 0 <= a -> a + zlen v <= bs -> 2 * cost bs <= r ->
  (forall d' c', file_written f d inode d' (k * bs + a) v -> zlen c' = bs -> Q (bs, inode) (View d' (r - 2 * cost bs) (<[p := c']> b) f)) ->
  tri (View d r (<[p := c]> b) f) (put_block (S fuel) inode inode_index k p a v) Q.
Proof.
  intros Hm Hok Hk Hp Hp0 Hc Hv Ha Hlen Hr HQ. pose proof (bs_range f d Hm) as Hbs. fold bs in Hbs.
  pose proof (cost_nonneg (X := X) f d Hm) as Hcost. fold bs in Hcost.
  destruct (count_range f d inode Hm Hig Hok) as [Hcap H32]. pose proof (fo_real _ _ _ Hok k Hk) as Hreal.
  assert (Hz : zlen (blk f d (real_block f d inode k)) = bs) by (apply blk_zlen; [done|lia]).
  apply triple_bind. eapply tri_read_inode_block; [exact Hm|done|exact Hok|done|lia|done|done|done|fold bs; lia|].
  apply triple_bind. eapply tri_copy_in; [apply lookup_insert_eq|done|by rewrite Hz|]. rewrite insert_insert_eq.
  apply triple_bind. cbn [grow]. apply triple_bind, (tri_file_blocks f d inode Hm Hig). rewrite (proj2 (Z.leb_gt _ _)) by lia.
  apply triple_ret, triple_bind, tri_get_real; [done|done|lia|lia|intros x; by apply (fo_path _ _ _ Hok)|fold bs; lia|].
  rewrite (proj2 (Z.eqb_neq _ _)) by lia. fold bs.
  apply triple_bind. eapply tri_write_block; [done|done|apply lookup_insert_eq|done|rewrite splice_zlen; lia|
    apply splice_bytes; [by apply blk_bytes|done]|].
  apply triple_ret. replace (r - cost bs - cost bs) with (r - 2 * cost bs) by lia.
  apply HQ; [by apply write_part|rewrite splice_zlen; lia].
Qed.

(** The disk when the blocks before block [k] are written from [offset] on. *)
Lemma write_blocks_ok n d0 : forall k d r b p c offset buffer (Q : bool * list Z -> view -> Prop),
  mounted f d0 -> file_ok f d0 inode -> bytes buffer ->
  0 <= offset -> offset / bs <= k -> k + Z.of_nat n <= block_count f inode ->
  file_written f d0 inode d offset (slice 0 (k * bs - offset) buffer) ->
  b !! p = None -> 0 < p -> zlen c = bs -> (k + Z.of_nat n) * bs - offset <= zlen buffer -> Z.of_nat n * (2 * cost bs) <= r ->
  (forall d' c', file_written f d0 inode d' offset (slice 0 ((k + Z.of_nat n) * bs - offset) buffer) -> zlen c' = bs ->
     Q (true, inode) (View d' (r - Z.of_nat n * (2 * cost bs)) (<[p := c']> b) f)) ->
  tri (View d r (<[p := c]> b) f) (write_blocks n (S fuel) inode inode_index offset (offset / bs) k p bs buffer) Q.
Proof.
  induction n as [|n IH]; intros k d r b p c offset buffer Q Hm0 Hok0 Hbb Ho Hk Hn Hfw Hp Hp0 Hc Hbuf Hr HQ; cbn [write_blocks].
  { apply triple_ret. rewrite Z.add_0_r, Z.mul_0_l, Z.sub_0_r in HQ. by apply HQ. }
  pose proof (bs_range f d0 Hm0) as Hbs. fold bs in Hbs. pose proof (cost_nonneg (X := X) f d0 Hm0) as Hcost. fold bs in Hcost.
  assert (0 <= offset / bs) by (apply Z.div_pos; lia). pose proof (Z.mod_pos_bound offset bs ltac:(lia)) as Hmod.
  pose proof (Z.div_mod offset bs ltac:(lia)) as Hdm.
  assert (Hone : k * bs + bs - offset <= zlen buffer) by nia.
  assert (Hblk : offset / bs * bs <= k * bs /\ k * bs + bs <= block_count f inode * bs) by nia.
  assert (HzC : zlen (file_content f d0 inode) = block_count f inode * bs) by by apply file_content_zlen.
  set (a := if k =? offset / bs then offset mod bs else 0).
  set (m := k * bs + bs - Z.max offset (k * bs)).
  assert (Ha : 0 <= a /\ a + m = bs /\ Z.max offset (k * bs) = k * bs + a /\ 0 < m).
  { unfold a, m. destruct (Z.eqb_spec k (offset / bs)) as [E|E]; [rewrite E in *; lia|]. assert ((offset / bs + 1) * bs <= k * bs) by nia. lia. }
  apply triple_bind. eapply triple_mono with (Q := fun v v' => v = slice (Z.max 0 (k * bs - offset)) m buffer /\ v' = View d r (<[p := c]> b) f).
  { unfold a, m in *. destruct (Z.eqb_spec k (offset / bs)) as [->|E]; (apply tri_from_buffer; [lia|lia|]); (split; [|done]); f_equal; lia. }
  intros v v' [-> ->]. assert (Hzv : zlen (slice (Z.max 0 (k * bs - offset)) m buffer) = m) by (apply slice_zlen; lia).
  fold a. apply triple_bind, tri_put_block; [apply Hfw|apply Hfw|lia|done|done|done|by apply slice_bytes|lia|lia|nia|].
  intros d1 c1 Hw1 Hc1. rewrite (proj2 (Z.eqb_neq bs 0)) by lia.
  apply IH; try done; try lia.
  - replace ((k + 1) * bs - offset) with (Z.max 0 (k * bs - offset) + m) by lia.
    destruct (decide (k * bs <= offset)).
    + rewrite (Z.max_l 0 (k * bs - offset)) in * by lia. rewrite Z.add_0_l.
      rewrite slice_none in Hfw by lia. rewrite <- (app_nil_l (slice 0 m buffer)).
      eapply file_written_app; [done|rewrite HzC, Hzv; change (zlen (A := Z) []) with 0; lia|exact Hfw|]. change (zlen (A := Z) []) with 0.
      replace (offset + 0) with (k * bs + a) by lia. exact Hw1.
    + rewrite (Z.max_r 0 (k * bs - offset)) in * by lia. rewrite slice_app by lia. rewrite Z.add_0_l.
      assert (Hz1 : zlen (slice 0 (k * bs - offset) buffer) = k * bs - offset) by (apply slice_zlen; lia).
      eapply file_written_app; [done|rewrite HzC, Hz1, Hzv; lia|exact Hfw|]. rewrite Hz1.
      replace (offset + (k * bs - offset)) with (k * bs + a) by lia. exact Hw1.
  - intros d2 c2 Hw2 Hc2. replace (k + 1 + Z.of_nat n) with (k + Z.of_nat (S n)) in Hw2 by lia.
    replace (r - 2 * cost bs - Z.of_nat n * (2 * cost bs)) with (r - Z.of_nat (S n) * (2 * cost bs)) by lia. by apply HQ.
Qed.
End Writing.

Section WriteData.
Context {D X : Type} `{BlockDevice D} `{HeapAllocator X}.
Abbreviation tri := (triple (repr (D := D) (X := X))).
Abbreviation cost := (ha_cost (X := X)).
Implicit Types (d c inode : list Z) (r : Z) (b : gmap Z (list Z)).
Context (f : ext2_filesystem_t) (inode_index : Z) (fuel : nat).
Context (Hig : index_geometry f).
Let bs := block_size f.

(** The inode in memory after a write that ends at [finish]. *)
Definition grown inode finish : list Z := if fget i_size inode <? finish then fset i_size finish inode else inode.

Lemma grown_ok d inode finish : file_ok f d inode -> finish <= block_count f inode * bs -> finish < 2147483648 ->
  block_count f (grown inode finish) = block_count f inode /\ file_ok f d (grown inode finish) /\
  file_content f d (grown inode finish) = file_content f d inode /\
  forall k, 0 <= k -> real_block f d (grown inode finish) k = real_block f d inode k.
Proof.
  unfold grown. intros Hok Hfin H31. destruct (Z.ltb_spec (fget i_size inode) finish) as [Hlt|]; [|done].
  destruct (fo_inode _ _ _ Hok) as [Hz Hb].
  assert (Hno : forall k, 0 <= k -> index_path f d (fset i_size finish inode) k = index_path f d inode k /\
    real_block f d (fset i_size finish inode) k = real_block f d inode k) by (intros k Hk; by destruct (size_no_index f d inode finish k Hz Hk) as (? & ? & _)).
  destruct (size_no_index f d inode finish 0 Hz ltac:(lia)) as (_ & _ & Hc).
  assert (Hf : fits i_size inode = true) by (apply fits_spec; rewrite Hz; unfold INODE_SIZE; simpl; lia).
  pose proof (fget_range _ _ Hb Hf) as Hr. split_and!; [done|..].
  - destruct Hok. split; rewrite ?Hc; try done.
    + split; [by rewrite fset_zlen|by apply fset_bytes].
    + rewrite fget_fset_small by (done || (change (fmax i_size) with 4294967296; lia)). done.
    + intros k x Hk. destruct (Hno k ltac:(lia)) as [-> _]. by apply fo_path0.
    + intros k Hk. destruct (Hno k ltac:(lia)) as [_ ->]. by apply fo_real0.
    + intros i j Hi Hj. destruct (Hno i ltac:(lia)) as [_ ->], (Hno j ltac:(lia)) as [_ ->]. by apply fo_distinct0.
    + intros i j Hi Hj. destruct (Hno i ltac:(lia)) as [_ ->], (Hno j ltac:(lia)) as [-> _]. by apply fo_apart0.
    + intros i R Hi. destruct (Hno i ltac:(lia)) as [_ ->]. by apply fo_region0.
  - by apply size_no_content.
  - intros k Hk. by apply Hno.
Qed.

(** What ext2_write_inode_data gives back for a write from [offset] to [finish]:
    -1 when it ends inside a block other than the first, although all the bytes
    are written. *)
Definition write_result (offset finish : Z) : Z :=
  if (offset / bs =? finish / bs) || (finish mod bs =? 0) then finish - offset else -1.

Lemma tri_write_several d r b p c inode offset finish buffer (Q : bool * list Z -> view -> Prop) :
  mounted f d -> file_ok f d inode -> bytes buffer ->
  0 <= offset < finish -> finish <= block_count f inode * bs -> offset / bs < finish / bs -> finish - offset = zlen buffer ->
  b !! p = None -> 0 < p -> zlen c = bs -> (finish / bs - offset / bs + 1) * (2 * cost bs) <= r ->
  (forall d' c', file_written f d inode d' offset buffer -> zlen c' = bs ->
     Q (finish mod bs =? 0, inode) (View d' (r - (finish / bs - offset / bs + 1) * (2 * cost bs)) (<[p := c']> b) f)) ->
  tri (View d r (<[p := c]> b) f)
    (write_several (S fuel) inode inode_index offset (offset / bs) (finish / bs) (finish mod bs) p bs buffer) Q.
Proof.
  intros Hm Hok Hbb Hoff Hfin Hlt Hbuf Hp Hp0 Hc Hr HQ. pose proof (bs_range f d Hm) as Hbs. fold bs in Hbs.
  pose proof (cost_nonneg (X := X) f d Hm) as Hcost. fold bs in Hcost.
  assert (HzC : zlen (file_content f d inode) = block_count f inode * bs) by (by apply file_content_zlen).
  pose proof (Z.div_mod offset bs ltac:(lia)) as Ho. pose proof (Z.mod_pos_bound offset bs ltac:(lia)) as Hom.
  pose proof (Z.div_mod finish bs ltac:(lia)) as Hf. pose proof (Z.mod_pos_bound finish bs ltac:(lia)) as Hfm.
  assert (0 <= offset / bs) by (apply Z.div_pos; lia).
  apply triple_bind, (write_blocks_ok f inode inode_index fuel Hig _ d); fold bs; try done; try lia; try nia.
  { apply file_written_none; [done|done|nia]. }
  fold bs. rewrite !Z2Nat.id by lia. replace (offset / bs + (finish / bs - offset / bs)) with (finish / bs) by lia.
  intros d1 c1 Hw1 Hc1. rewrite Z.max_r by lia. cbn [negb].
  destruct (Z.eqb_spec (finish mod bs) 0) as [E2|E2]; cbn [negb].
  - apply tri_less_room with (r - (finish / bs - offset / bs + 1) * (2 * cost bs)); [nia|]. apply triple_ret, HQ; [|done].
    rewrite slice_all in Hw1 by lia. done.
  - apply triple_bind, tri_from_buffer; [nia|lia|].
    replace (bs * (finish / bs - offset / bs) - offset mod bs) with (finish / bs * bs - offset) by lia.
    assert (Hzv : zlen (slice (finish / bs * bs - offset) (finish mod bs) buffer) = finish mod bs) by (apply slice_zlen; nia).
    apply triple_bind, tri_put_block; fold bs; [done|apply Hw1|apply Hw1|nia|done|done|done|by apply slice_bytes|lia|lia|nia|].
    intros d2 c2 Hw2 Hc2. rewrite (proj2 (Z.eqb_neq bs 0)) by lia. apply triple_ret.
    replace (r - (finish / bs - offset / bs) * (2 * cost bs) - 2 * cost bs) with
      (r - (finish / bs - offset / bs + 1) * (2 * cost bs)) by lia. apply HQ; [|done].
    assert (Hsplit : buffer = slice 0 (finish / bs * bs - offset) buffer ++ slice (finish / bs * bs - offset) (finish mod bs) buffer).
    { rewrite <- (slice_all (zlen buffer) buffer) at 1 by done. replace (zlen buffer) with (finish / bs * bs - offset + finish mod bs) by lia.
      by rewrite slice_app by nia. }
    assert (Hz1 : zlen (slice 0 (finish / bs * bs - offset) buffer) = finish / bs * bs - offset) by (apply slice_zlen; nia).
    rewrite Hsplit. eapply file_written_app; [lia|rewrite HzC, Hz1, Hzv; nia|exact Hw1|]. rewrite Hz1.
    replace (offset + (finish / bs * bs - offset)) with (finish / bs * bs + 0) by lia. exact Hw2.
Qed.

(** The rule of [ext2_write_inode_data] for a write into the blocks of the file. *)
Lemma tri_write_inode_data d r b inode offset buffer (Q : Z * list Z -> view -> Prop) :
  let finish := offset + zlen buffer in let inode' := grown inode finish in
  mounted f d -> file_ok f d inode -> bytes buffer -> 0 <= offset -> 0 < zlen buffer ->
  finish <= block_count f inode * bs -> finish < 2147483648 ->
  (2 * (finish / bs - offset / bs) + 3) * cost bs <= r ->
  (forall d' b', file_written f d inode' d' offset buffer ->
     (if write_result offset finish =? -1 then b' = b else exists p c, b !! p = None /\ b' = <[p := c]> b) ->
     Q (write_result offset finish, inode') (View d' (r - (2 * (finish / bs - offset / bs) + 3) * cost bs) b' f)) ->
  tri (View d r b f) (ext2_write_inode_data (S fuel) inode inode_index offset (zlen buffer) buffer) Q.
Proof.
  intros finish inode' Hm Hok Hbb Hoff Hlen Hfin H31 Hr HQ. pose proof (bs_range f d Hm) as Hbs. fold bs in Hbs.
  pose proof (cost_nonneg (X := X) f d Hm) as Hcost. fold bs in Hcost.
  destruct (grown_ok d inode finish Hok Hfin H31) as (Hc' & Hok' & _).
  unfold ext2_write_inode_data. apply triple_bind, tri_fs. fold bs. rewrite (u32_small offset), !(u32_small (offset + zlen buffer)) by lia.
  fold finish. fold (grown inode finish) inode'. assert (Hlf : zlen buffer = finish - offset) by (unfold finish; lia).
  clearbody finish. fold inode' in Hok', Hc'. rewrite <- Hc' in Hfin. clearbody inode'.
  apply triple_bind, tri_udiv; [lia|]. apply triple_bind, tri_udiv; [lia|]. rewrite !(u32_small (finish - offset)), (s32_small (finish - offset)) by lia.
  pose proof (Z.div_mod offset bs ltac:(lia)) as Ho. pose proof (Z.mod_pos_bound offset bs ltac:(lia)).
  pose proof (Z.div_mod finish bs ltac:(lia)) as Hf. pose proof (Z.mod_pos_bound finish bs ltac:(lia)).
  assert (0 <= offset / bs) by (apply Z.div_pos; lia).
  assert (Hle : offset / bs <= finish / bs) by (apply Z.div_le_mono; lia).
  rewrite !(u32_small (finish - finish / bs * bs)) by lia. replace (finish - finish / bs * bs) with (finish mod bs) by lia.
  apply triple_bind, tri_new_cache; [lia|nia|]. intros p Hp Hp0.
  assert (Hz0 : zlen (zeros bs) = bs) by (apply zeros_zlen; lia).
  unfold write_result in HQ.
  apply triple_bind. destruct (Z.eqb_spec (offset / bs) (finish / bs)) as [E|E]; cbn [orb] in HQ.
  - apply triple_bind, tri_from_buffer; [lia|lia|]. rewrite slice_all by lia.
    apply triple_bind, tri_put_block; fold bs; [done|done|done|rewrite <- E in Hf; nia|done|done|done|done|lia|rewrite <- E in Hf; lia|nia|].
    intros d' c' Hw Hc. rewrite (proj2 (Z.eqb_neq bs 0)) by lia. apply triple_ret. cbn [negb]. apply triple_ret.
    replace (r - cost bs - 2 * cost bs) with (r - (2 * (finish / bs - offset / bs) + 3) * cost bs) by lia. 
    replace (offset / bs * bs + offset mod bs) with offset in Hw by lia. apply HQ; [done|].
    rewrite (proj2 (Z.eqb_neq (finish - offset) (-1))) by lia. by exists p, c'.
  - apply tri_write_several; [done|done|done|lia|done|lia|lia|done|done|done|nia|]. intros d' c' Hw Hc.
    replace (r - cost bs - (finish / bs - offset / bs + 1) * (2 * cost bs)) with (r - (2 * (finish / bs - offset / bs) + 3) * cost bs) by lia.
    destruct (finish mod bs =? 0); cbn [orb] in HQ.
    + apply triple_ret, HQ; [done|]. rewrite (proj2 (Z.eqb_neq (finish - offset) (-1))) by lia. by exists p, c'.
    + apply tri_free_new, triple_ret; [done|]. by apply HQ.
Qed.
End WriteData.

(** ** Theorems *)
Section Theorems.
Context {D X : Type} `{BlockDevice D} `{HeapAllocator X}.
Abbreviation tri := (triple (repr (D := D) (X := X))).
Abbreviation cost := (ha_cost (X := X)).
Implicit Types (s : state D X).

(** The inodes are where they were after a write to the blocks of a file. *)
Lemma file_written_inode f d inode d' offset v j : mounted f d -> file_ok f d inode ->
  file_written f d inode d' offset v -> valid_inode f j -> inode_of f d' j = inode_of f d j.
Proof.
  intros Hm Hok Hw Hj. pose proof (mo_geometry _ _ Hm) as Hgeo. pose proof (inode_block_range f j Hgeo Hj) as Hb.
  unfold inode_of. rewrite (fw_frame _ _ _ _ _ _ Hw); [done|lia|].
  intros k Hk E. apply (fo_region _ _ _ Hok k (RInodes ((j - 1) / sbf f sb_inodes_per_group)) Hk).
  rewrite <- E. by apply inode_in_region.
Qed.

(** The block number that ext2_get_real_block_index computes, through none,
    one, two or three index blocks, is the one the tables on the disk give, for
    every block the index can reach. Nothing is changed and no buffer is left
    over. *)
Theorem ext2_get_real_block_index_correct s d r b f inode k : repr s (View d r b f) -> mounted f d -> index_geometry f ->
  0 <= k < index_capacity f -> k < 4294967296 -> (forall x, x ∈ index_path f d inode k -> 0 < x < sbf f sb_blocks_count) ->
  cost (block_size f) <= r ->
  ext2_get_real_block_index inode k ~{ s }~>! FFatal \/
  exists s', ext2_get_real_block_index inode k ~{ s }~> real_block f d inode k; s' /\
    repr s' (View d (r - cost (block_size f)) b f).
Proof.
  intros Hs Hm Hig Hk Hk32 Hp Hr.
  assert (Htri : tri (View d r b f) (ext2_get_real_block_index inode k) (fun x v' =>
    x = real_block f d inode k /\ v' = View d (r - cost (block_size f)) b f)) by (by apply tri_get_real).
  destruct (triple_run _ _ _ _ s Htri Hs) as [?|(x & s' & v' & Hrun & Hs' & -> & ->)]; [by left|right]. by exists s'.
Qed.

(** Storing the number of a block of the indirect range changes nothing: the entry
    is stored in the buffer, and the buffer is read again instead of written. *)
Lemma tri_set_indirect_lost d r b f inode i k x (Q : Z * list Z -> view -> Prop) : mounted f d -> index_geometry f ->
  12 <= k < indirect_blocks_index f -> 0 < fget i_indir_block inode < sbf f sb_blocks_count -> cost (block_size f) <= r ->
  Q (0, inode) (View d (r - cost (block_size f)) b f) -> tri (View d r b f) (ext2_set_real_block_index inode i k x) Q.
Proof.
  intros Hm Hig Hk Hn Hr HQ. pose proof (ge_bs _ (mo_geometry _ _ Hm)) as Hbs. pose proof (ig_indirect _ Hig) as Hi1.
  unfold ext2_set_real_block_index, EXT2_INDIRECT_BLOCKS in *. rewrite (proj2 (Z.ltb_ge _ _)) by lia.
  apply triple_bind, tri_fs, triple_bind, tri_fs, triple_bind, tri_fs, triple_bind, tri_fs. rewrite (proj2 (Z.ltb_lt _ _)) by lia.
  unfold set_indirect, ensure_index, EXT2_INDIRECT_BLOCKS. rewrite (proj2 (Z.eqb_neq _ _)) by lia.
  apply triple_bind, triple_ret. cbn [negb]. apply triple_bind, tri_fs, triple_bind, tri_new_cache; [lia|lia|]. intros p Hp Hp0.
  apply triple_bind, tri_read_index; [done|done|done|apply zeros_zlen; lia|].
  assert (Hf : fits (pointer (k - 12)) (blk f d (fget i_indir_block inode)) = true) by (apply pointer_fits; [done|done|done|lia]).
  apply triple_bind. eapply tri_st; [apply lookup_insert_eq|exact Hf|]. rewrite insert_insert_eq.
  apply triple_bind, tri_read_index; [done|done|done| |by apply tri_free_new, triple_ret].
  rewrite fset_zlen by exact Hf. apply blk_zlen; [done|lia].
Qed.

(** *** No room on the disk *)
Record disk_full (f : ext2_filesystem_t) (d : list Z) : Prop := {
  df_mounted : mounted f d;
  df_consistent : consistent f d;
  df_lock : fs_spinlock f = 0;
  df_used : forall x, 0 <= x < sbf f sb_blocks_count -> 0 < gd f (x / sbf f sb_blocks_per_group) gd_free_blocks_count ->
    block_used f d x = true
}.
(** The field of the inode with the index block that leads to block [k]. *)
Definition index_root (f : ext2_filesystem_t) (k : Z) : field :=
  if k <? indirect_blocks_index f then i_indir_block
  else if k <? doubly_indirect_blocks_index f then i_doubly_indir_block else i_trebly_indir_block.

Lemma tri_allocate_full d r b f (Q : Z -> view -> Prop) : disk_full f d -> cost (block_size f) <= r ->
  Q 0 (View d (r - cost (block_size f)) b f) -> tri (View d r b f) ext2_allocate_block Q.
Proof.
  intros [Hm Hc Hl Hu] Hr HQ. apply tri_allocate_block; [done..|intros x f' d' Hba].
  destruct Hba as [(Hx & Hfree & _) Hpos _ _ _ _ _ _ _ _]. rewrite Hu in Hfree; [done|lia|done].
Qed.
Lemma write_inode_full f d i v : disk_full f d -> valid_inode f i -> zlen v = INODE_SIZE -> bytes v ->
  disk_full f (write_inode f d i v).
Proof.
  intros [Hm Hc Hl Hu] Hi Hv Hvb. pose proof (mo_geometry _ _ Hm) as Hgeo. pose proof (ge_cover _ Hgeo).
  split; [by apply write_inode_mounted|by apply write_inode_consistent|done|].
  intros x Hx Hpos. rewrite <- (Hu x Hx Hpos). apply block_used_ext; [done|lia|].
  intros g y Hy. pose proof (ge_region _ Hgeo _ _ Hy). rewrite write_inode_blk by (done || lia).
  rewrite decide_False; [done|]. intros ->. by pose proof (ge_disjoint _ Hgeo _ _ _ Hy (inode_in_region f i Hgeo Hi)).
Qed.

Lemma tri_set_real_full d r b f inode i k x (Q : Z * list Z -> view -> Prop) : disk_full f d -> index_geometry f ->
  12 <= k < trebly_indirect_blocks_index f -> fget (index_root f k) inode = 0 -> cost (block_size f) <= r ->
  Q (-1, inode) (View d (r - cost (block_size f)) b f) -> tri (View d r b f) (ext2_set_real_block_index inode i k x) Q.
Proof.
  intros Hfull Hig Hk Hroot Hr HQ. pose proof (bs_range f d (df_mounted _ _ Hfull)) as Hbs. pose proof (ig_pointers _ Hig) as Hp1.
  assert (Hensure : tri (View d r b f) (ensure_index (index_root f k) inode i) (fun y v =>
    y = (false, inode) /\ v = View d (r - cost (block_size f)) b f)).
  { unfold ensure_index. rewrite Hroot, Z.eqb_refl. apply triple_bind, tri_allocate_full; [done..|]. by apply triple_ret. }
  assert (Hgo : forall {B} (rest : bool * list Z -> M (state D X) B) Q', triple (repr (D := D) (X := X)) (View d (r - cost (block_size f)) b f)
    (rest (false, inode)) Q' -> tri (View d r b f) (ensure_index (index_root f k) inode i ≫= rest) Q').
  { intros B rest Q' Hrest. eapply triple_seq; [exact Hensure|done]. }
  unfold ext2_set_real_block_index, EXT2_INDIRECT_BLOCKS. rewrite (proj2 (Z.ltb_ge _ _)) by lia.
  apply triple_bind, tri_fs, triple_bind, tri_fs, triple_bind, tri_fs, triple_bind, tri_fs.
  assert (Hp2 : u32 (pointers_per_block f * pointers_per_block f) <> 0) by (rewrite u32_small; nia).
  unfold index_root in Hgo. destruct (k <? indirect_blocks_index f); [by apply Hgo, triple_ret|].
  destruct (k <? doubly_indirect_blocks_index f).
  - apply triple_bind, tri_udiv; [lia|]. by apply Hgo, triple_ret.
  - rewrite (proj2 (Z.ltb_lt _ _)) by lia. apply triple_bind, tri_udiv; [done|]. apply triple_bind, tri_udiv; [lia|].
    by apply Hgo, triple_ret.
Qed.

(** A round of the loop that grows a file leaves the inode as it was. *)
Lemma tri_allocate_inode_block_full d r b f inode i k (Q : Z * list Z -> view -> Prop) : disk_full f d -> index_geometry f ->
  12 <= k < trebly_indirect_blocks_index f -> fget (index_root f k) inode = 0 -> 2 * cost (block_size f) <= r ->
  Q (-1, inode) (View d (r - 2 * cost (block_size f)) b f) -> tri (View d r b f) (ext2_allocate_inode_block inode i k) Q.
Proof.
  intros Hfull Hig Hk Hroot Hr HQ. pose proof (cost_nonneg (X := X) f d (df_mounted _ _ Hfull)) as Hcost.
  apply triple_bind, tri_allocate_full; [done|lia|]. change (s32 0 =? -1) with false. cbn iota.
  apply triple_bind, tri_set_real_full; [done..|lia|]. change (-1 =? -1) with true. apply triple_ret.
  by replace (r - cost (block_size f) - cost (block_size f)) with (r - 2 * cost (block_size f)) by lia.
Qed.

(** The loop, by rounds. *)
Definition grow_round (inode : list Z) (i n : Z) : M (state D X) (list Z) :=
  '(_, inode) ← ext2_allocate_inode_block inode i n; ext2_write_inode inode i ;; mret inode.
Lemma grow_step fuel inode i k s n : file_blocks inode s = Ok (n, s) -> n <= k ->
  grow (S fuel) inode i k s = (inode ← grow_round inode i n; grow fuel inode i k) s.
Proof.
  intros Hn Hk. cbn [grow]. rewrite (bind_ok _ _ _ _ _ Hn), (proj2 (Z.leb_le _ _)) by done.
  unfold grow_round, mbind, M_bind. destruct (ext2_allocate_inode_block inode i n s) as [[[x inode1] s1]|]; [|done].
  by destruct (ext2_write_inode inode1 i s1) as [[y s2]|].
Qed.
Lemma file_blocks_run s d r b f inode : repr s (View d r b f) -> index_geometry f -> 0 < block_size f ->
  file_blocks inode s = Ok (block_count f inode, s).
Proof.
  intros Hs Hig Hbs. pose proof (ig_sectors _ Hig). unfold file_blocks, fs, gets, mbind, M_bind.
  rewrite (re_fs _ _ Hs). cbn [v_fs]. unfold udiv. rewrite (proj2 (Z.eqb_neq _ _)) by lia. done.
Qed.

(** The loop of ext2_write_inode_block that grows a file does not end when no block
    is free and the next block of the file needs an index block that is not there:
    the allocation fails, its result is not looked at, and the round leaves the
    inode and the disk in the same situation. Every bound on the number of rounds
    is exceeded, as long as the heap has room for them. *)
Theorem ext2_write_inode_block_hangs fuel s d r b f inode i k p : repr s (View d r b f) -> disk_full f d -> index_geometry f ->
  valid_inode f i -> i < 4294967296 -> zlen inode = INODE_SIZE -> bytes inode ->
  12 <= block_count f inode <= k -> block_count f inode < trebly_indirect_blocks_index f ->
  fget (index_root f (block_count f inode)) inode = 0 -> Z.of_nat fuel * (3 * cost (block_size f)) <= r ->
  ext2_write_inode_block fuel inode i k p ~{ s }~>! FFatal \/ ext2_write_inode_block fuel inode i k p ~{ s }~>! FLoop.
Proof.
  intros Hs Hfull Hig Hi Hi32 Hz Hb Hk Hk2 Hroot Hr.
  enough (Hgrow : grow fuel inode i k ~{ s }~>! FFatal \/ grow fuel inode i k ~{ s }~>! FLoop)
    by (unfold ext2_write_inode_block, mbind, M_bind; destruct Hgrow as [-> | ->]; auto).
  revert s d r Hs Hfull Hr. induction fuel as [|fuel IH]; intros s d r Hs Hfull Hr; [by right|].
  pose proof (cost_nonneg (X := X) f d (df_mounted _ _ Hfull)) as Hcost.
  pose proof (bs_range f d (df_mounted _ _ Hfull)) as Hbs.
  assert (Hround : tri (View d r b f) (grow_round inode i (block_count f inode)) (fun y v => y = inode /\ 
    v = View (write_inode f d i inode) (r - 3 * cost (block_size f)) b f)).
  { apply triple_bind, tri_allocate_inode_block_full; [done|done|lia|done|lia|].
    apply triple_bind, tri_write_inode; [by apply Hfull|done|done|done|done|lia|]. apply triple_ret. split; [done|]. f_equal. lia. }
  assert (Hn : file_blocks inode s = Ok (block_count f inode, s)) by (eapply file_blocks_run; [exact Hs|done|lia]).
  rewrite (grow_step _ _ _ _ _ _ Hn) by lia.
  destruct (triple_run _ _ _ _ s Hround Hs) as [Hf|(y & s' & v' & Hrun & Hs' & -> & ->)].
  - left. unfold mbind, M_bind. by rewrite Hf.
  - rewrite (bind_ok _ _ _ _ _ Hrun). eapply IH; [exact Hs'|by apply write_inode_full|lia].
Qed.

(** Ext2_set_real_block_index loses the number it is given when the block is in
    the range of the indirect block and that block exists: it reports success and
    the disk is what it was, so that the block number read afterwards is the old
    one. *)
Theorem ext2_set_real_block_index_lost s d r b f inode i k x : repr s (View d r b f) -> mounted f d -> index_geometry f ->
  12 <= k < indirect_blocks_index f -> 0 < fget i_indir_block inode < sbf f sb_blocks_count -> 2 * cost (block_size f) <= r ->
  let m := '(res, inode') ← ext2_set_real_block_index inode i k x; y ← ext2_get_real_block_index inode' k; mret (res, y) in
  m ~{ s }~>! FFatal \/
  exists s', m ~{ s }~> (0, real_block f d inode k); s' /\ repr s' (View d (r - 2 * cost (block_size f)) b f).
Proof.
  intros Hs Hm Hig Hk Hn Hr m. pose proof (ge_bs _ (mo_geometry _ _ Hm)) as Hbs. pose proof (ig_indirect _ Hig) as Hi1.
  assert (Hcost : 0 <= cost (block_size f)) by (apply ha_cost_law; lia).
  pose proof (ig_pointers _ Hig). pose proof (ig_doubly _ Hig). pose proof (ig_trebly _ Hig).
  unfold EXT2_INDIRECT_BLOCKS in *.
  assert (Htri : tri (View d r b f) m (fun y v' => y = (0, real_block f d inode k) /\ v' = View d (r - 2 * cost (block_size f)) b f)).
  { apply triple_bind, tri_set_indirect_lost; [done|done|lia|done|lia|].
    apply triple_bind, tri_get_real; [done|done|unfold index_capacity; nia|lia| |lia|].
    - unfold index_path. rewrite (proj2 (Z.ltb_ge _ _)), (proj2 (Z.ltb_lt _ _)) by lia. by intros y [->|Hy%elem_of_nil]%elem_of_cons.
    - apply triple_ret. split; [done|]. f_equal. lia. }
  destruct (triple_run _ _ _ _ s Htri Hs) as [?|(y & s' & v' & Hrun & Hs' & -> & ->)]; [by left|right]. by exists s'.
Qed.

(** C11: a read that begins inside the file gives the bytes of the file from the
    offset up to the end of the request or of the file, whichever comes first, and
    their number; they are stored at the start of the buffer and nowhere else. The
    disk is not changed and no buffer is left over. It takes an offset before the end
    of the file (at the end of a file that fills its last block the code answers -1,
    [ext2_read_end]), a request of at least one byte that does not go beyond 2^32, a
    buffer that holds what is read, a mounted file system with blocks of at least
    4 KiB, an inode whose blocks are all there ([file_ok]), and room on the heap. *)
Theorem ext2_read_correct s d r b f i offset nbyte buffer : repr s (View d r b f) -> mounted f d -> index_geometry f ->
  valid_inode f i -> i < 4294967296 -> file_ok f d (inode_of f d i) ->
  let size := fget i_size (inode_of f d i) in let finish := Z.min (offset + nbyte) size in
  let room := (finish / block_size f - offset / block_size f + 3) * cost (block_size f) in
  0 <= offset < size -> 0 < nbyte -> offset + nbyte < 4294967296 -> finish - offset <= zlen buffer -> room <= r ->
  ext2_read i buffer offset nbyte ~{ s }~>! FFatal \/
  exists s', ext2_read i buffer offset nbyte ~{ s }~>
      (finish - offset, splice 0 (slice offset (finish - offset) (file_content f d (inode_of f d i))) buffer); s' /\
    repr s' (View d (r - room) b f).
Proof.
  intros Hs Hm Hig Hi Hi32 Hok size finish room Hoff Hn H32 Hbuf Hr. pose proof (bs_range f d Hm) as Hbs.
  pose proof (cost_nonneg (X := X) f d Hm) as Hcost.
  assert (Hdiv : 0 <= finish / block_size f - offset / block_size f).
  { assert (offset / block_size f <= finish / block_size f) by (apply Z.div_le_mono; lia). lia. }
  assert (Htri : tri (View d r b f) (ext2_read i buffer offset nbyte) (fun y v' =>
    y = (finish - offset, splice 0 (slice offset (finish - offset) (file_content f d (inode_of f d i))) buffer) /\
    v' = View d (r - room) b f)).
  { apply triple_bind, tri_read_inode; [done|done|done|nia|].
    apply tri_read_inode_data; try done; [fold size finish; nia|]. fold size finish. split; [done|]. f_equal. unfold room. lia. }
  destruct (triple_run _ _ _ _ s Htri Hs) as [?|(y & s' & v' & Hrun & Hs' & -> & ->)]; [by left|right]. by exists s'.
Qed.

(** At the end of a file that is not empty nothing is read: the result is 0,
    except when the file fills its last block, where it is -1 and not the end of
    the file that the callers expect. *)
Theorem ext2_read_end s d r b f i nbyte buffer : repr s (View d r b f) -> mounted f d -> index_geometry f ->
  valid_inode f i -> i < 4294967296 -> file_ok f d (inode_of f d i) ->
  let size := fget i_size (inode_of f d i) in
  0 < size -> 0 <= nbyte -> size + nbyte < 4294967296 -> 3 * cost (block_size f) <= r ->
  ext2_read i buffer size nbyte ~{ s }~>! FFatal \/
  exists s', ext2_read i buffer size nbyte ~{ s }~>
      (if size =? block_count f (inode_of f d i) * block_size f then -1 else 0, buffer); s' /\
    repr s' (View d (r - 3 * cost (block_size f)) b f).
Proof.
  intros Hs Hm Hig Hi Hi32 Hok size Hsz Hn H32 Hr. pose proof (bs_range f d Hm) as Hbs.
  pose proof (cost_nonneg (X := X) f d Hm) as Hcost. destruct (fo_size _ _ _ Hok) as [Hsize _]. fold size in Hsize.
  pose proof (Z.div_mod size (block_size f) ltac:(lia)) as Hd. pose proof (Z.mod_pos_bound size (block_size f) ltac:(lia)).
  assert (Hfull : (size / block_size f =? block_count f (inode_of f d i)) = (size =? block_count f (inode_of f d i) * block_size f)).
  { apply eq_true_iff_eq. rewrite !Z.eqb_eq. nia. }
  assert (Htri : tri (View d r b f) (ext2_read i buffer size nbyte) (fun y v' =>
    y = (if size =? block_count f (inode_of f d i) * block_size f then -1 else 0, buffer) /\
    v' = View d (r - 3 * cost (block_size f)) b f)).
  { apply triple_bind, tri_read_inode; [done|done|done|lia|].
    apply tri_read_inode_data_end; try done; fold size; [nia|lia|]. rewrite Hfull. split; [done|]. f_equal. lia. }
  destruct (triple_run _ _ _ _ s Htri Hs) as [?|(y & s' & v' & Hrun & Hs' & -> & ->)]; [by left|right]. by exists s'.
Qed.

(** What ext2_write leaves on the disk and in memory. *)
Record write_done (f : ext2_filesystem_t) (d d' : list Z) (b b' : gmap Z (list Z)) (i offset : Z) (buffer : list Z) : Prop := {
  wd_mounted : mounted f d';
  wd_content : file_content f d' (inode_of f d i) = splice offset buffer (file_content f d (inode_of f d i));
  wd_inodes : forall j, valid_inode f j -> inode_of f d' j = inode_of f d j;
  wd_frame : forall x, 0 < x < sbf f sb_blocks_count ->
    (forall k, 0 <= k < block_count f (inode_of f d i) -> x <> real_block f d (inode_of f d i) k) -> blk f d' x = blk f d x;
  wd_buffers : if write_result f offset (offset + zlen buffer) =? -1 then b' = b else exists p c, b !! p = None /\ b' = <[p := c]> b
}.

Lemma tri_write d r b f i offset buffer fuel (Q : Z -> view -> Prop) : mounted f d -> index_geometry f ->
  valid_inode f i -> i < 4294967296 -> file_ok f d (inode_of f d i) -> bytes buffer ->
  let finish := offset + zlen buffer in
  let room := (2 * (finish / block_size f - offset / block_size f) + 4) * cost (block_size f) in
  0 <= offset -> 0 < zlen buffer -> finish <= block_count f (inode_of f d i) * block_size f -> finish < 2147483648 -> room <= r ->
  (forall d' b', write_done f d d' b b' i offset buffer -> file_ok f d' (grown (inode_of f d i) finish) ->
    Q (write_result f offset finish) (View d' (r - room) b' f)) ->
  tri (View d r b f) (ext2_write (S fuel) i buffer offset (zlen buffer)) Q.
Proof.
  intros Hm Hig Hi Hi32 Hok Hbb finish room Hoff Hlen Hfin H31 Hr HQ. pose proof (bs_range f d Hm) as Hbs.
  pose proof (cost_nonneg (X := X) f d Hm) as Hcost. set (inode := inode_of f d i) in *.
  assert (Hdiv : offset / block_size f <= finish / block_size f) by (apply Z.div_le_mono; lia).
  destruct (grown_ok f d inode finish Hok Hfin H31) as (Hcnt & Hok' & Hcontent & Hreal).
  apply triple_bind, tri_read_inode; [done|done|done|nia|]. fold inode.
  apply triple_bind, tri_write_inode_data; try done; [fold finish; nia|]. fold finish. intros d' b' Hw Hb. apply triple_ret.
  replace (r - cost (block_size f) - _) with (r - room) by (unfold room; lia).
  apply HQ; [|by apply Hw]. split; fold inode finish; [by apply Hw| | | |done].
  - replace (file_content f d' inode) with (file_content f d' (grown inode finish)).
    + rewrite (fw_content _ _ _ _ _ _ Hw). by rewrite Hcontent.
    + unfold grown. destruct (fget i_size inode <? finish); [apply size_no_content, Hok|done].
  - intros j Hj. by eapply file_written_inode.
  - intros x Hx Hk. apply (fw_frame _ _ _ _ _ _ Hw); [done|]. intros k Hk'. rewrite Hcnt in Hk'. rewrite Hreal by lia. by apply Hk.
Qed.

(** C19: a write into the blocks of a file puts the bytes of the buffer at the offset
    and changes no other byte of the file, no inode and no other block. The result
    is the number of bytes, except that it is -1, although everything is written,
    when the write goes over several blocks and ends inside one. The buffer of the
    operation is left over unless it fails, and a size that grows within the
    blocks of the file is not stored on the disk. One round of the loop that grows
    the file is enough. *)
Theorem ext2_write_correct s d r b f i offset buffer fuel : repr s (View d r b f) -> mounted f d -> index_geometry f ->
  valid_inode f i -> i < 4294967296 -> file_ok f d (inode_of f d i) -> bytes buffer ->
  let finish := offset + zlen buffer in
  let room := (2 * (finish / block_size f - offset / block_size f) + 4) * cost (block_size f) in
  0 <= offset -> 0 < zlen buffer -> finish <= block_count f (inode_of f d i) * block_size f -> finish < 2147483648 -> room <= r ->
  ext2_write (S fuel) i buffer offset (zlen buffer) ~{ s }~>! FFatal \/
  exists s' d' b', ext2_write (S fuel) i buffer offset (zlen buffer) ~{ s }~> write_result f offset finish; s' /\
    repr s' (View d' (r - room) b' f) /\ write_done f d d' b b' i offset buffer.
Proof.
  intros Hs Hm Hig Hi Hi32 Hok Hbb finish room Hoff Hlen Hfin H31 Hr.
  assert (Htri : tri (View d r b f) (ext2_write (S fuel) i buffer offset (zlen buffer)) (fun y v' => y = write_result f offset finish /\
    exists d' b', v' = View d' (r - room) b' f /\ write_done f d d' b b' i offset buffer)) by (apply tri_write; eauto 10).
  destruct (triple_run _ _ _ _ s Htri Hs) as [?|(y & s' & v' & Hrun & Hs' & -> & d' & b' & -> & Hd)]; [by left|right].
  by exists s', d', b'.
Qed.

(** C20: what is written inside a file is read back, and a file that shares no block
    with it still reads as before. *)
Theorem ext2_write_read s d r b f i j offset buffer fuel out : repr s (View d r b f) -> mounted f d -> index_geometry f ->
  valid_inode f i -> valid_inode f j -> i < 4294967296 -> j < 4294967296 -> file_ok f d (inode_of f d i) ->
  (j <> i -> file_ok f d (inode_of f d j) /\ forall k l, 0 <= k < block_count f (inode_of f d i) -> 0 <= l < block_count f (inode_of f d j) ->
     real_block f d (inode_of f d i) k <> real_block f d (inode_of f d j) l /\
     real_block f d (inode_of f d i) k ∉ index_path f d (inode_of f d j) l) ->
  bytes buffer -> zlen out = zlen buffer ->
  let finish := offset + zlen buffer in
  let room := (3 * (finish / block_size f - offset / block_size f) + 7) * cost (block_size f) in
  0 <= offset -> 0 < zlen buffer -> finish <= fget i_size (inode_of f d i) -> finish <= fget i_size (inode_of f d j) -> room <= r ->
  let m := ext2_write (S fuel) i buffer offset (zlen buffer) ;; ext2_read j out offset (zlen buffer) in
  m ~{ s }~>! FFatal \/
  exists s', m ~{ s }~> (zlen buffer, if decide (j = i) then buffer else slice offset (zlen buffer) (file_content f d (inode_of f d j))); s'.
Proof.
  intros Hs Hm Hig Hi Hj Hi32 Hj32 Hok Hother Hbb Hout finish room Hoff Hlen Hfi Hfj Hr m. pose proof (bs_range f d Hm) as Hbs.
  pose proof (cost_nonneg (X := X) f d Hm) as Hcost. destruct (fo_size _ _ _ Hok) as [Hsize Hsize31].
  assert (Hdiv : offset / block_size f <= finish / block_size f) by (apply Z.div_le_mono; lia).
  assert (Hzc : zlen (file_content f d (inode_of f d i)) = block_count f (inode_of f d i) * block_size f) by (by apply file_content_zlen).
  set (V := if decide (j = i) then buffer else slice offset (zlen buffer) (file_content f d (inode_of f d j))).
  assert (Htri : tri (View d r b f) m (fun y _ => y = (zlen buffer, V))).
  { apply triple_bind, tri_write; try done; fold finish; [lia|lia|unfold room in Hr; nia|]. intros d' b' Hd Hok'. fold finish in Hok'.
    unfold grown in Hok'. rewrite (proj2 (Z.ltb_ge _ _)) in Hok' by lia. destruct Hd as [Hm' Hcont Hino Hframe _].
    assert (Hok2 : file_ok f d' (inode_of f d j) /\ slice offset (zlen buffer) (file_content f d' (inode_of f d j)) = V).
    { unfold V. case_decide as E.
      - rewrite E, Hcont. split; [done|]. by apply slice_splice_eq; [|unfold finish in *; lia|].
      - destruct (Hother E) as [Hokj Hap]. destruct (file_ok_ext f d d' (inode_of f d j) Hokj) as [? ->]; [..|done].
        + intros k x Hk Hx. apply Hframe; [by apply (fo_path _ _ _ Hokj k)|]. intros l Hl ->. by destruct (Hap l k Hl Hk).
        + intros k Hk. apply Hframe; [by apply (fo_real _ _ _ Hokj k)|]. intros l Hl Heq. by destruct (Hap l k Hl Hk). }
    destruct Hok2 as [Hokj HV].
    apply triple_bind, tri_read_inode; [done|done|done|unfold room, finish in *; nia|].
    rewrite Hino by done.
    apply tri_read_inode_data; try done; fold finish; rewrite ?(Z.min_l finish) by lia;
      [unfold finish in *; lia..|unfold room, finish in *; nia|].
    replace (finish - offset) with (zlen buffer) by (unfold finish; lia). rewrite <- HV. f_equal. apply splice_all.
    destruct (fo_size _ _ _ Hokj) as [Hsj _]. pose proof (file_content_zlen _ _ _ Hm' Hokj).
    rewrite slice_zlen; unfold finish in *; lia. }
  destruct (triple_run _ _ _ _ s Htri Hs) as [?|(y & s' & v' & Hrun & Hs' & ->)]; [by left|right]. by exists s'.
Qed.
End Theorems.

(** ** A concrete file

    The inode 12 of the demo file system: a file of 4196 bytes in the blocks 5 and
    6, which begins with hello; its indirect block is block 7, whose entry for the
    block 20 of the file is 9. *)
Definition demo_inode : list Z := Eval vm_compute in
  fset_all [(i_size, 4196); (i_blocks_count, 16); (i_dir_blocks 0, 5); (i_dir_blocks 1, 6); (i_indir_block, 7)] (zeros INODE_SIZE).
Definition demo_file_disk : list Z :=
  splice (4 * 4096 + 11 * 128) demo_inode (splice (7 * 4096 + 8 * 4) [9; 0; 0; 0] (splice (5 * 4096) [104; 101; 108; 108; 111] (splice (2 * 4096) [255] demo_disk))).
#[local] Existing Instance Kheap.kernel_heap_allocator.
Definition demo_file_state : state (list Z) (Kheap.heap (gset Z)) := MkState demo_file_disk Kheap.heap0 ∅ demo_fs.
Definition demo_file_view : view := View demo_file_disk 1000000 ∅ demo_fs.

Lemma demo_inode_of : inode_of demo_fs demo_file_disk 12 = demo_inode.
Proof. vm_compute. reflexivity. Qed.
Lemma demo_file_mounted : mounted demo_fs demo_file_disk.
Proof.
  split; [apply demo_geometry|..].
  - apply bytes_spec. vm_compute. reflexivity.
  - vm_compute. congruence.
  - vm_compute. reflexivity.
  - vm_compute. reflexivity.
Qed.
Lemma demo_file_repr : repr demo_file_state demo_file_view.
Proof.
  split; simpl; try done.
  - apply demo_file_mounted.
  - exists ∅. split; [apply Kheap.heap0_ok|]. intros p c Hp. by rewrite lookup_empty in Hp.
Qed.
Lemma demo_index : index_geometry demo_fs.
Proof. split; reflexivity. Qed.
Lemma demo_block_count : block_count demo_fs demo_inode = 2.
Proof. reflexivity. Qed.
Lemma demo_real k : 0 <= k < 2 -> real_block demo_fs demo_file_disk demo_inode k = 5 + k /\ index_path demo_fs demo_file_disk demo_inode k = [].
Proof. intros Hk. assert (k = 0 \/ k = 1) as [-> | ->] by lia; split; reflexivity. Qed.

Lemma demo_file_ok : file_ok demo_fs demo_file_disk demo_inode.
Proof.
  split; rewrite ?demo_block_count.
  - split; [reflexivity|]. apply bytes_spec. reflexivity.
  - vm_compute. split; congruence.
  - vm_compute. split; congruence.
  - intros k x Hk. destruct (demo_real k Hk) as [_ ->]. intros Hx. by apply elem_of_nil in Hx.
  - intros k Hk. destruct (demo_real k Hk) as [-> _]. destruct demo_numbers as [-> _]. lia.
  - intros j k Hj Hk. destruct (demo_real j Hj) as [-> _], (demo_real k Hk) as [-> _]. lia.
  - intros j k Hj Hk. destruct (demo_real k Hk) as [_ ->]. apply not_elem_of_nil.
  - intros k R Hk HR. destruct (demo_real k Hk) as [Hr _]. rewrite Hr in HR. apply demo_region_of in HR.
    assert (k = 0 \/ k = 1) as [-> | ->] by lia; discriminate HR.
Qed.

Example demo_read : value (ext2_read 12 (zeros 8) 0 6 demo_file_state) = Some (6, [104; 101; 108; 108; 111; 0; 0; 0]).
Proof. vm_compute. reflexivity. Qed.

Lemma demo_file_ok_disk : file_ok demo_fs demo_file_disk (inode_of demo_fs demo_file_disk 12).
Proof. rewrite demo_inode_of. apply demo_file_ok. Qed.
Lemma demo_path20 x : x ∈ index_path demo_fs demo_file_disk demo_inode 20 -> 0 < x < sbf demo_fs sb_blocks_count.
Proof.
  replace (index_path demo_fs demo_file_disk demo_inode 20) with [7] by reflexivity. destruct demo_numbers as [-> _].
  intros [->|Hx%elem_of_nil]%elem_of_cons; [lia|destruct Hx].
Qed.

(** ** Witnesses *)
Lemma ext2_get_real_block_index_correct_witness : exists s', ext2_get_real_block_index demo_inode 20 ~{ demo_file_state }~> 9; s'.
Proof.
  destruct (ext2_get_real_block_index_correct demo_file_state demo_file_disk 1000000 ∅ demo_fs demo_inode 20 demo_file_repr
    demo_file_mounted demo_index ltac:(vm_compute; split; congruence) eq_refl demo_path20 ltac:(vm_compute; congruence))
    as [Hf|(s' & Hrun & _)].
  - exfalso. revert Hf. apply not_fatal. vm_compute. reflexivity.
  - exists s'. exact Hrun.
Defined.

Lemma ext2_set_real_block_index_lost_witness : exists s',
  ('(res, inode') ← ext2_set_real_block_index demo_inode 12 20 11; y ← ext2_get_real_block_index inode' 20; mret (res, y))
    ~{ demo_file_state }~> (0, 9); s'.
Proof.
  destruct (ext2_set_real_block_index_lost demo_file_state demo_file_disk 1000000 ∅ demo_fs demo_inode 12 20 11 demo_file_repr
    demo_file_mounted demo_index ltac:(vm_compute; split; congruence) ltac:(vm_compute; split; congruence)
    ltac:(vm_compute; congruence)) as [Hf|(s' & Hrun & _)].
  - exfalso. revert Hf. apply not_fatal. vm_compute. reflexivity.
  - exists s'. exact Hrun.
Defined.

Lemma ext2_read_correct_witness : exists s', ext2_read 12 (zeros 8) 0 6 ~{ demo_file_state }~> (6, [104; 101; 108; 108; 111; 0; 0; 0]); s'.
Proof.
  destruct (ext2_read_correct demo_file_state demo_file_disk 1000000 ∅ demo_fs 12 0 6 (zeros 8) demo_file_repr
    demo_file_mounted demo_index (demo_valid 12 ltac:(lia)) ltac:(lia) demo_file_ok_disk
    ltac:(vm_compute; split; congruence) ltac:(lia) ltac:(lia) ltac:(vm_compute; congruence) ltac:(vm_compute; congruence))
    as [Hf|(s' & Hrun & _)].
  - exfalso. revert Hf. apply not_fatal. vm_compute. reflexivity.
  - exists s'. exact Hrun.
Defined.

Lemma ext2_read_end_witness : exists s', ext2_read 12 (zeros 8) 4196 6 ~{ demo_file_state }~> (0, zeros 8); s'.
Proof.
  destruct (ext2_read_end demo_file_state demo_file_disk 1000000 ∅ demo_fs 12 6 (zeros 8) demo_file_repr
    demo_file_mounted demo_index (demo_valid 12 ltac:(lia)) ltac:(lia) demo_file_ok_disk
    ltac:(vm_compute; reflexivity) ltac:(lia) ltac:(vm_compute; reflexivity) ltac:(vm_compute; congruence))
    as [Hf|(s' & Hrun & _)].
  - exfalso. revert Hf. apply not_fatal. vm_compute. reflexivity.
  - exists s'. exact Hrun.
Defined.

(** Six bytes over the boundary of the two blocks: all are written, the result is
    -1. *)
Definition demo_bytes : list Z := [1; 2; 3; 4; 5; 6].
Lemma ext2_write_correct_witness : exists s' d' b', ext2_write 1 12 demo_bytes 4093 6 ~{ demo_file_state }~> -1; s' /\
  write_done demo_fs demo_file_disk d' ∅ b' 12 4093 demo_bytes.
Proof.
  destruct (ext2_write_correct demo_file_state demo_file_disk 1000000 ∅ demo_fs 12 4093 demo_bytes 0 demo_file_repr
    demo_file_mounted demo_index (demo_valid 12 ltac:(lia)) ltac:(lia) demo_file_ok_disk (bytes_spec demo_bytes eq_refl)
    ltac:(lia) ltac:(vm_compute; reflexivity) ltac:(vm_compute; congruence) ltac:(vm_compute; reflexivity) ltac:(vm_compute; congruence))
    as [Hf|(s' & d' & b' & Hrun & _ & Hd)].
  - exfalso. revert Hf. apply not_fatal. vm_compute. reflexivity.
  - exists s', d', b'. split; [exact Hrun|exact Hd].
Defined.

Lemma ext2_write_read_witness : exists s',
  (ext2_write 1 12 demo_bytes 10 6 ;; ext2_read 12 (zeros 6) 10 6) ~{ demo_file_state }~> (6, demo_bytes); s'.
Proof.
  destruct (ext2_write_read demo_file_state demo_file_disk 1000000 ∅ demo_fs 12 12 10 demo_bytes 0 (zeros 6) demo_file_repr
    demo_file_mounted demo_index (demo_valid 12 ltac:(lia)) (demo_valid 12 ltac:(lia)) ltac:(lia) ltac:(lia) demo_file_ok_disk
    ltac:(intros Hne; exfalso; exact (Hne eq_refl)) (bytes_spec demo_bytes eq_refl) eq_refl
    ltac:(lia) ltac:(vm_compute; reflexivity) ltac:(vm_compute; congruence) ltac:(vm_compute; congruence) ltac:(vm_compute; congruence))
    as [Hf|(s' & Hrun)].
  - exfalso. revert Hf. apply not_fatal. vm_compute. reflexivity.
  - exists s'. exact Hrun.
Defined.

(** ** Defects *)

(** Six bytes appended inside the last block are written, but the size on the disk
    stays 4196: the next read does not see them. *)
Example append_loses_size :
  value ((r ← ext2_write 1 12 demo_bytes 4196 6; o ← ext2_read_inode 12; '(n, _) ← ext2_read 12 (zeros 6) 4196 6;
          mret (r, fget i_size <$> o, n)) demo_file_state) = Some (6, Some 4196, 0).
Proof. vm_compute. reflexivity. Qed.


(** A disk of 7 blocks, all in use, and an inode with the 12 direct blocks there.
    To write block 12 an indirect block is needed. *)
Definition full_inode : list Z :=
  fset_all ((i_blocks_count, 96) :: ((fun k => (i_dir_blocks k, 6)) <$> [0; 1; 2; 3; 4; 5; 6; 7; 8; 9; 10; 11])) (zeros INODE_SIZE).
Definition full_sb : list Z := Eval vm_compute in fset sb_free_blocks_count 0 demo_sb.
Definition full_bg : list Z := Eval vm_compute in
  fset_all [(gd_free_blocks_count, 0); (at_ 32 gd_free_blocks_count, 0)] demo_bg.
Definition full_fs : ext2_filesystem_t := MkFs full_sb full_bg 4096 32 8 2 1024 1 2 1 1036 1049612 1074791436 0.
Definition full_disk : list Z :=
  splice (18 * 4096) [1] (splice (17 * 4096) [255; 255] (splice (3 * 4096) [255; 15]
    (splice (2 * 4096) [255; 255] (splice 4096 full_bg (splice 1024 full_sb (zeros 131072)))))).
Definition full_state : state (list Z) (Kheap.heap (gset Z)) := MkState full_disk Kheap.heap0 ∅ full_fs.

Lemma full_numbers : sbf full_fs sb_blocks_count = 32 /\ sbf full_fs sb_blocks_per_group = 16 /\
  sbf full_fs sb_inodes_per_group = 32 /\ sbf full_fs sb_inode_size = 128.
Proof. vm_compute. done. Qed.
Lemma full_gd : (gd full_fs 0 gd_block_bitmap = 2 /\ gd full_fs 0 gd_inode_bitmap = 3 /\ gd full_fs 0 gd_inode_table = 4) /\
  (gd full_fs 1 gd_block_bitmap = 17 /\ gd full_fs 1 gd_inode_bitmap = 18 /\ gd full_fs 1 gd_inode_table = 19) /\
  table_length full_fs = 1.
Proof. vm_compute. done. Qed.
(** The regions are those of the demo file system. *)
Lemma full_region R b : in_region full_fs R b -> in_region demo_fs R b.
Proof.
  destruct demo_gd as ((Ha & Hb & Hc) & (Hd & He & Hf) & Ht). destruct full_gd as ((Ha' & Hb' & Hc') & (Hd' & He' & Hf') & Ht').
  assert (Hgs : forall g, 0 <= g < 2 -> g = 0 \/ g = 1) by (intros g; lia).
  destruct R as [|g|g|g]; unfold in_region; change (block_groups_count full_fs) with 2; change (block_groups_count demo_fs) with 2; [intros Hr; exact Hr| | |];
    rewrite ?Ht, ?Ht'; intros [Hg HR]; (split; [exact Hg|]); destruct (Hgs g Hg) as [-> | ->]; congruence.
Qed.
Lemma full_geometry : geometry full_fs.
Proof.
  destruct full_numbers as (Ha & Hb & Hc & Hd).
  split; rewrite ?Ha, ?Hb, ?Hc, ?Hd; try done.
  - split; [reflexivity|]. apply bytes_spec. vm_compute. reflexivity.
  - split; [vm_compute; reflexivity|]. apply bytes_spec. vm_compute. reflexivity.
  - intros R b HR%full_region%demo_region_block. repeat (apply elem_of_cons in HR as [->|HR]; [lia|]). by apply elem_of_nil in HR.
  - intros R1 R2 b H1%full_region%demo_region_of H2%full_region%demo_region_of. congruence.
Qed.
Lemma full_demo : disk_full full_fs full_disk.
Proof.
  split.
  - split; [apply full_geometry|..].
    + apply bytes_spec. vm_compute. reflexivity.
    + vm_compute. congruence.
    + vm_compute. reflexivity.
    + vm_compute. reflexivity.
  - split; [vm_compute; reflexivity|..].
    + intros R b HR%full_region%demo_region_block.
      assert (Hall : forallb (block_used full_fs full_disk) [1; 2; 3; 4; 17; 18; 19] = true) by (vm_compute; reflexivity).
      rewrite forallb_forall in Hall. apply Hall. by apply list_elem_of_In.
    + destruct full_numbers as (-> & -> & _ & _). change (block_groups_count full_fs) with 2. lia.
  - reflexivity.
  - destruct full_numbers as (-> & -> & _ & _). intros x Hx. intros Hpos. exfalso. revert Hpos.
    assert (Hg : x / 16 = 0 \/ x / 16 = 1) by (pose proof (Z.div_mod x 16 ltac:(lia)); pose proof (Z.mod_pos_bound x 16 ltac:(lia)); lia). destruct Hg as [-> | ->]; vm_compute; discriminate.
Qed.
Lemma full_repr : repr full_state (View full_disk 1000000 ∅ full_fs).
Proof.
  split; simpl; try done.
  - apply full_demo.
  - exists ∅. split; [apply Kheap.heap0_ok|]. intros p c Hp. by rewrite lookup_empty in Hp.
Qed.
Lemma full_valid : valid_inode full_fs 12.
Proof. unfold valid_inode. destruct full_numbers as (_ & _ & -> & _). change (block_groups_count full_fs) with 2. lia. Qed.

Lemma ext2_write_inode_block_hangs_witness : ext2_write_inode_block 20 full_inode 12 12 0 ~{ full_state }~>! FLoop.
Proof.
  destruct (ext2_write_inode_block_hangs 20 full_state full_disk 1000000 ∅ full_fs full_inode 12 12 0 full_repr full_demo
    ltac:(split; reflexivity) full_valid ltac:(lia) eq_refl (bytes_spec full_inode eq_refl)
    ltac:(vm_compute; split; congruence) ltac:(vm_compute; reflexivity) eq_refl ltac:(vm_compute; congruence)) as [Hf|Hf].
  - exfalso. revert Hf. apply not_fatal. vm_compute. reflexivity.
  - exact Hf.
Defined.
End Ext2File.
