(* ===== verification/Ext2Dir.v ===== *)
(** * The ext2 file system: directories (src/kernel/fs/ext2.c)

    The entries of a directory, looking a name up, resolving a path, adding and
    removing entries. A name or a path is the list of its characters without the
    terminator, as CString describes the strings of the kernel. *)

From stdpp Require Import strings.
From S2P Require Import Prelude Bytes Hoare Interfaces CString Kheap Ext2 Ext2File.

Module Ext2Dir.
Import Ext2 Ext2File.
Open Scope string_scope.
Open Scope list_scope.
Open Scope Z_scope.

Definition de_inode : field := Eval vm_compute in fieldof ext2_dirent_t "inode".
Definition de_rec_len : field := Eval vm_compute in fieldof ext2_dirent_t "rec_len".
Definition de_name_len : field := Eval vm_compute in fieldof ext2_dirent_t "name_len".
Definition de_file_type : field := Eval vm_compute in fieldof ext2_dirent_t "file_type".
(** Where the name is in an entry. *)
Definition de_name : Z := 8.

(** The result of a search; [direntry] is the memory of an entry. *)
Record ext2_direntry_search_t := MkSearch {
  direntry : list Z;
  parent_inode : Z;
  block_index : Z;
  block_offset : Z
}.

(** The iterator; [it_direntry] says whether its pointer to the entry is not NULL:
    it is then the address of the entry at [it_block_offset] in the cache. *)
Record ext2_direntry_iterator_t := MkIter {
  it_block_index : Z;
  it_total_offset : Z;
  it_block_offset : Z;
  it_direntry : bool
}.

Definition ext2_get_rec_len (name_len : Z) : Z :=
  let rec_len := u32 (DIRENT_SIZE + name_len - EXT2_NAME_LEN) in
  u32 (rec_len + if rec_len mod 4 =? 0 then 0 else 4 - rec_len mod 4).

Section Operations.
Context {D X : Type} `{BlockDevice D} `{HeapAllocator X}.
Abbreviation E := (M (state D X)).

(** ** The iterator *)

(** A field of the entry of the iterator. *)
Definition de (it : ext2_direntry_iterator_t) (g : field) : field := at_ (it_block_offset it) g.

Definition ext2_direntry_iterator_begin (cache : Z) (inode : list Z) : E ext2_direntry_iterator_t :=
  r ← ext2_read_inode_block inode 0 cache;
  mret (MkIter 0 0 0 (negb (r =? -1))).

Definition ext2_direntry_iterator_next (inode : list Z) (cache : Z) (it : ext2_direntry_iterator_t) : E ext2_direntry_iterator_t :=
  rec_len ← ld cache (de it de_rec_len);
  let offset := u32 (it_block_offset it + rec_len) in
  let total := u32 (it_total_offset it + rec_len) in
  if fget i_size inode <=? total then mret (MkIter (it_block_index it) total offset false)
  else
    bs ← fs block_size;
    if bs <=? offset then
      let index := u32 (it_block_index it + 1) in
      r ← ext2_read_inode_block inode index cache;
      mret (MkIter index total (u32 (offset - bs)) (negb (r =? -1)))
    else mret (MkIter (it_block_index it) total offset true).

(** The loop over the entries, with what its body keeps in [a]; the body says
    whether it leaves the loop. *)
Fixpoint walk {A} (fuel : nat) (inode : list Z) (cache : Z) (cond : A -> bool)
    (body : A -> ext2_direntry_iterator_t -> E (A * ext2_direntry_iterator_t * bool)) (a : A) (it : ext2_direntry_iterator_t) :
    E (A * ext2_direntry_iterator_t) :=
  match fuel with
  | O => fail FLoop
  | S fuel =>
      if it_direntry it && cond a then
        '(a, it, stop) ← body a it;
        if (stop : bool) then mret (a, it)
        else it ← ext2_direntry_iterator_next inode cache it; walk fuel inode cache cond body a it
      else mret (a, it)
  end.
Definition always {A} (a : A) : bool := true.

Definition ext2_directory_is_empty (fuel : nat) (cache : Z) (inode : list Z) : E bool :=
  it ← ext2_direntry_iterator_begin cache inode;
  '(empty, _) ← walk fuel inode cache always
    (fun a it => ino ← ld cache (de it de_inode); mret (if ino =? 0 then (a, it, false) else (false, it, true))) true it;
  mret (empty : bool).

(** ** Names *)

(** strcmp of the string at byte [off] of a buffer with [s], and strncmp with at
    most [n] characters: whether they are equal. *)
Fixpoint strcmp_eq (cache off : Z) (s : list Z) : E bool :=
  c ← ld cache (Field off 1);
  match s with
  | [] => mret (c =? 0)
  | x :: s => if c =? x then strcmp_eq cache (off + 1) s else mret false
  end.
Fixpoint strncmp_eq (n : nat) (cache off : Z) (s : list Z) : E bool :=
  match n with
  | O => mret true
  | S n =>
      c ← ld cache (Field off 1);
      let x := hd 0 s in
      if (0 <? Z.of_nat n) && negb (c =? 0) && negb (x =? 0) && (c =? x) then strncmp_eq n cache (off + 1) (tail s)
      else mret (c =? x)
  end.

(** ** Looking up *)

(** The body of the loop of ext2_find_direntry. *)
Definition find_body (cache : Z) (name : list Z) (a : unit) (it : ext2_direntry_iterator_t) : E (unit * ext2_direntry_iterator_t * bool) :=
  ino ← ld cache (de it de_inode);
  if ino =? 0 then mret (a, it, false)
  else
    dot ← strcmp_eq cache (it_block_offset it + de_name) [46];
    if dot && bool_decide (name = [47]) then mret (a, it, true)
    else
      name_len ← ld cache (de it de_name_len);
      if zlen name =? name_len then
        same ← strncmp_eq (Z.to_nat name_len) cache (it_block_offset it + de_name) name;
        mret (a, it, same)
      else mret (a, it, false).

Definition ext2_find_direntry (fuel : nat) (ino : Z) (name : list Z) (search : ext2_direntry_search_t) : E (Z * ext2_direntry_search_t) :=
  o ← ext2_read_inode ino;
  match o with
  | None => mret (-1, search)
  | Some inode =>
      if Z.land (fget i_mode inode) EXT2_S_IFDIR =? 0 then mret (-1, search)
      else
        bs ← fs block_size;
        cache ← new_cache bs;
        it ← ext2_direntry_iterator_begin cache inode;
        '(_, it) ← walk fuel inode cache always (find_body cache name) tt it;
        if negb (it_direntry it) then
          free_cache cache ;;
          mret (-1, MkSearch (direntry search) ino (block_index search) (block_offset search))
        else
          v ← copy_out cache (it_block_offset it) DIRENT_SIZE;
          free_cache cache ;;
          mret (0, MkSearch (splice (de_name + fget de_name_len v) [0] v) ino (it_block_index it) (it_block_offset it))
  end.

Definition ext2_find_direntry_simple (fuel : nat) (ino : Z) (name : list Z) (d : list Z) : E (Z * list Z) :=
  '(r, search) ← ext2_find_direntry fuel ino name (MkSearch d 0 0 0);
  mret (r, direntry search).

(** The loop of ext2_resolve_path over the tokens. *)
Fixpoint resolve_tokens (fuel : nat) (tokens : list (list Z)) (ino : Z) (search : ext2_direntry_search_t) : E (Z * ext2_direntry_search_t) :=
  match tokens with
  | [] => mret (0, search)
  | token :: tokens =>
      '(r, search) ← ext2_find_direntry fuel ino token search;
      if r =? 0 then resolve_tokens fuel tokens (fget de_inode (direntry search)) search
      else mret (-1, MkSearch (zeros DIRENT_SIZE) (parent_inode search) (block_index search) (block_offset search))
  end.
(** strdup copies a string of [len - 1] characters to a block of [len] bytes and
    stores a terminator behind it, at [new[len]]. kmalloc rounds sizes up to 16: the
    store is harmless unless [len] is a multiple of 16, where it hits the header of
    the next block. *)
Definition strdup (s : list Z) : E Z :=
  let len := zlen s + 1 in
  new ← new_cache len;
  (if len mod 16 =? 0 then fail (FBound len) else mret tt) ;;
  copy_in new 0 (s ++ [0]) ;;
  mret new.
(** The tokens that strtok finds in the copy are the words between the slashes.
    [ino] is the inode of the directory. *)
Definition ext2_resolve_path (fuel : nat) (ino : Z) (path : list Z) (search : ext2_direntry_search_t) : E (Z * ext2_direntry_search_t) :=
  if bool_decide (path = [47]) then ext2_find_direntry fuel ino path search
  else
    tmp_path ← strdup path;
    '(r, search) ← resolve_tokens fuel (CString.words {[47]} path) ino search;
    free_cache tmp_path ;;
    mret (r, search).
Definition ext2_resolve_path_direntry (fuel : nat) (ino : Z) (path d : list Z) : E (Z * list Z) :=
  '(r, search) ← ext2_resolve_path fuel ino path (MkSearch d 0 0 0);
  mret (r, direntry search).

(** ** Adding an entry *)

(** The body of the loop of ext2_allocate_direntry: a free entry that is long enough,
    or the last entry, which is cut to its real length. *)
Definition allocate_body (parent : list Z) (rec_len cache : Z) (a : unit) (it : ext2_direntry_iterator_t) :
    E (unit * ext2_direntry_iterator_t * bool) :=
  ino ← ld cache (de it de_inode);
  len ← ld cache (de it de_rec_len);
  if (ino =? 0) && (rec_len <=? len) then mret (a, it, true)
  else
    name_len ← ld cache (de it de_name_len);
    let real_rec_len := ext2_get_rec_len name_len in
    if negb (len =? real_rec_len) && (u32 (it_total_offset it + len) =? fget i_size parent) then
      st cache (de it de_rec_len) real_rec_len ;;
      mret (a, MkIter (it_block_index it) (u32 (it_total_offset it + real_rec_len)) (u32 (it_block_offset it + real_rec_len)) false, true)
    else mret (a, it, false).

(** The name of an entry is stored. *)
Definition set_name (cache offset : Z) (name : list Z) : E unit := copy_in cache (offset + de_name) name.

Definition replace_direntry (fuel : nat) (parent : list Z) (parent_inode_index inode_index cache : Z) (name : list Z) (file_type : Z)
    (it : ext2_direntry_iterator_t) : E Z :=
  old_len ← ld cache (de it de_name_len);
  set_name cache (it_block_offset it) (zeros old_len) ;;
  st cache (de it de_inode) inode_index ;;
  st cache (de it de_name_len) (zlen name) ;;
  name_len ← ld cache (de it de_name_len);
  set_name cache (it_block_offset it) (slice 0 name_len name) ;;
  st cache (de it de_file_type) file_type ;;
  '(r, _) ← ext2_write_inode_block fuel parent parent_inode_index (it_block_index it) cache;
  free_cache cache ;;
  mret (if r =? -1 then -1 else 0).

Definition append_direntry (fuel : nat) (parent : list Z) (parent_inode_index inode_index cache : Z) (name : list Z) (file_type : Z)
    (it : ext2_direntry_iterator_t) : E Z :=
  bs ← fs block_size;
  st cache (de it de_inode) inode_index ;;
  st cache (de it de_rec_len) (bs - it_block_offset it) ;;
  st cache (de it de_name_len) (zlen name) ;;
  st cache (de it de_file_type) file_type ;;
  set_name cache (it_block_offset it) name ;;
  '(r, _) ← ext2_write_inode_block fuel parent parent_inode_index (it_block_index it) cache;
  free_cache cache ;;
  mret (if r =? -1 then -1 else 0).

(** [else if ((it.block_offset + rec_len) >= fs->block_size)]: a new block for the
    directory, or [None] for the error exit. *)
Definition new_direntry_block (parent : list Z) (parent_inode_index : Z) (it : ext2_direntry_iterator_t) :
    E (option (list Z * ext2_direntry_iterator_t)) :=
  bs ← fs block_size;
  let index := u32 (it_block_index it + 1) in
  '(r, parent) ← ext2_allocate_inode_block parent parent_inode_index index;
  if r =? -1 then mret None
  else
    let parent := fset i_size (u32 (fget i_size parent + bs)) parent in
    r ← ext2_write_inode parent parent_inode_index;
    mret (if r =? -1 then None else Some (parent, MkIter index (it_total_offset it) 0 (it_direntry it))).

Definition ext2_allocate_direntry (fuel : nat) (parent_inode_index inode_index : Z) (name : list Z) (file_type : Z) : E Z :=
  o ← ext2_read_inode inode_index;
  match o with
  | None => mret (-1)
  | Some inode =>
      r ← ext2_write_inode (fset i_links_count (fget i_links_count inode + 1) inode) inode_index;
      if r =? -1 then mret (-1)
      else
        o ← ext2_read_inode parent_inode_index;
        match o with
        | None => mret (-1)
        | Some parent =>
            if Z.land (fget i_mode parent) EXT2_S_IFDIR =? 0 then mret (-1)
            else
              let rec_len := ext2_get_rec_len (zlen name) in
              bs ← fs block_size;
              cache ← new_cache bs;
              it ← ext2_direntry_iterator_begin cache parent;
              '(_, it) ← walk fuel parent cache always (allocate_body parent rec_len cache) tt it;
              if it_direntry it then replace_direntry fuel parent parent_inode_index inode_index cache name file_type it
              else if bs <=? u32 (it_block_offset it + rec_len) then
                o ← new_direntry_block parent parent_inode_index it;
                match o with
                | None => free_cache cache ;; mret (-1)
                | Some (parent, it) => append_direntry fuel parent parent_inode_index inode_index cache name file_type it
                end
              else append_direntry fuel parent parent_inode_index inode_index cache name file_type it
        end
  end.

(** ** Removing an entry

    From the absolute path on; [root] is the inode of the root of the file system. *)
Definition ENOENT : Z := 2.
Definition ENOTEMPTY : Z := 39.

(** The entry at [search] gets the inode 0; [false] is the error exit. *)
Definition clear_direntry (fuel : nat) (cache : Z) (parent : list Z) (search : ext2_direntry_search_t) : E bool :=
  r ← ext2_read_inode_block parent (block_index search) cache;
  if r =? -1 then mret false
  else
    st cache (at_ (block_offset search) de_inode) 0 ;;
    '(r, _) ← ext2_write_inode_block fuel parent (parent_inode search) (block_index search) cache;
    mret (negb (r =? 0)).
(** The number of links of an inode that is read goes down. *)
Definition drop_link (inode : list Z) (inode_index : Z) : E bool :=
  if 0 <? fget i_links_count inode then
    r ← ext2_write_inode (fset i_links_count (fget i_links_count inode - 1) inode) inode_index;
    mret (negb (r =? -1))
  else mret true.

Definition ext2_unlink (fuel : nat) (root : Z) (absolute_path : list Z) : E Z :=
  '(r, search) ← ext2_resolve_path fuel root absolute_path (MkSearch (zeros DIRENT_SIZE) 0 0 0);
  if negb (r =? 0) then mret (- ENOENT)
  else
    o ← ext2_read_inode (parent_inode search);
    match o with
    | None => mret (- ENOENT)
    | Some parent =>
        bs ← fs block_size;
        cache ← new_cache bs;
        ok ← clear_direntry fuel cache parent search;
        ok ← (if negb (ok : bool) then mret false
              else o ← ext2_read_inode (fget de_inode (direntry search));
                   match o with
                   | None => mret false
                   | Some inode => drop_link inode (fget de_inode (direntry search))
                   end);
        free_cache cache ;;
        mret (if (ok : bool) then 0 else -1)
    end.

Definition ext2_rmdir (fuel : nat) (root : Z) (absolute_path : list Z) : E Z :=
  '(r, search) ← ext2_resolve_path fuel root absolute_path (MkSearch (zeros DIRENT_SIZE) 0 0 0);
  if negb (r =? 0) then mret (- ENOENT)
  else
    o ← ext2_read_inode (parent_inode search);
    match o with
    | None => mret (- ENOENT)
    | Some parent =>
        bs ← fs block_size;
        cache ← new_cache bs;
        r ← (o ← ext2_read_inode (fget de_inode (direntry search));
             match o with
             | None => mret (-1)
             | Some inode =>
                 empty ← ext2_directory_is_empty fuel cache inode;
                 if negb (empty : bool) then mret (- ENOTEMPTY)
                 else
                   ok ← drop_link inode (fget de_inode (direntry search));
                   if negb (ok : bool) then mret (-1)
                   else ok ← clear_direntry fuel cache parent search; mret (if (ok : bool) then 0 else -1)
             end);
        free_cache cache ;;
        mret r
    end.
End Operations.

(** ** Directories on the disk

    A slot of a directory is a block of its file and an offset in it. *)
Section Slots.
Context (f : ext2_filesystem_t) (d inode : list Z).
Implicit Types (s : Z * Z).

Definition slot_block s : list Z := blk f d (real_block f d inode s.1).
Definition slot_field s (g : field) : Z := fget (at_ s.2 g) (slot_block s).
Definition slot_name s : list Z := slice (s.2 + de_name) (slot_field s de_name_len) (slot_block s).

(** The slots from [s] on, as the record lengths say; at most [n] of them. *)
Fixpoint scan (n : nat) s : list (Z * Z) :=
  match n with
  | O => []
  | S n =>
      if block_count f inode <=? s.1 then []
      else let o := s.2 + slot_field s de_rec_len in
           s :: scan n (if o =? block_size f then (s.1 + 1, 0) else (s.1, o))
  end.
Definition slots : list (Z * Z) := scan (Z.to_nat (block_count f inode * block_size f)) (0, 0).

(** An entry has room for its name, four bytes at least, and does not leave its
    block. *)
Definition slot_ok s : Prop :=
  de_name + Z.max 4 (slot_field s de_name_len) <= slot_field s de_rec_len /\ s.2 + slot_field s de_rec_len <= block_size f.
(** A directory: a file of full blocks that its entries fill. *)
Record dir_ok : Prop := {
  do_file : file_ok f d inode;
  do_mode : Z.land (fget i_mode inode) EXT2_S_IFDIR <> 0;
  do_blocks : 0 < block_count f inode;
  do_size : fget i_size inode = block_count f inode * block_size f;
  do_slots : Forall slot_ok slots
}.

(** The first slot at which [P] holds, and what [g] has made of [a] until then. *)
Fixpoint search {A} (P : A -> Z * Z -> bool) (g : A -> Z * Z -> A) (a : A) (l : list (Z * Z)) : A * option (Z * Z) :=
  match l with
  | [] => (a, None)
  | s :: l => if P a s then (a, Some s) else search P g (g a s) l
  end.
End Slots.

(** The iterator at a slot, and behind the last one. *)
Definition at_slot (f : ext2_filesystem_t) (s : Z * Z) : ext2_direntry_iterator_t :=
  MkIter s.1 (s.1 * block_size f + s.2) s.2 true.
Definition at_end (f : ext2_filesystem_t) (inode : list Z) : ext2_direntry_iterator_t :=
  MkIter (block_count f inode - 1) (block_count f inode * block_size f) (block_size f) false.

Section Walk.
Context {D X : Type} `{BlockDevice D} `{HeapAllocator X}.
Abbreviation tri := (triple (repr (D := D) (X := X))).
Abbreviation cost := (ha_cost (X := X)).
Implicit Types (r : Z) (b : gmap Z (list Z)) (s : Z * Z).
Context (f : ext2_filesystem_t) (d inode : list Z).
Context (Hm : mounted f d) (Hig : index_geometry f) (Hdir : dir_ok f d inode).
Let bs := block_size f.
Let count := block_count f inode.

Lemma dir_numbers : 4096 <= bs <= 32768 /\ 0 <= cost bs /\ 0 < count /\ count * bs < 2147483648.
Proof.
  pose proof (bs_range f d Hm) as Hbs. pose proof (cost_nonneg (X := X) f d Hm) as Hc. pose proof (do_blocks _ _ _ Hdir) as Hcnt.
  destruct (fo_size _ _ _ (do_file _ _ _ Hdir)) as [_ H31]. rewrite (do_size _ _ _ Hdir) in H31. done.
Qed.

(** The bytes of a slot's block, and a field of its entry. *)
Lemma slot_block_bytes s : 0 <= s.1 < count -> zlen (slot_block f d inode s) = bs /\ bytes (slot_block f d inode s).
Proof.
  intros Hs. pose proof (fo_real _ _ _ (do_file _ _ _ Hdir) s.1 Hs). unfold slot_block.
  split; [apply blk_zlen; [done|lia]|]. by apply blk_bytes.
Qed.
Lemma slot_fits s g : 0 <= s.1 < count -> 0 <= f_off g -> 0 <= s.2 -> s.2 + f_off g + Z.of_nat (f_size g) <= bs ->
  fits (at_ s.2 g) (slot_block f d inode s) = true.
Proof. intros Hs Hg Ho Hle. destruct (slot_block_bytes s Hs) as [Hz _]. apply fits_spec. unfold at_. simpl. lia. Qed.
Lemma slot_field_range s g : 0 <= s.1 < count -> 0 <= f_off g -> 0 <= s.2 -> s.2 + f_off g + Z.of_nat (f_size g) <= bs ->
  0 <= slot_field f d inode s g < fmax g.
Proof.
  intros Hs Hg Ho Hle. destruct (slot_block_bytes s Hs) as [_ Hb]. pose proof (slot_fits s g Hs Hg Ho Hle) as Hf.
  by apply (fget_range (at_ s.2 g)).
Qed.

Lemma slot_field_nonneg s g : 0 <= s.1 < count -> 0 <= slot_field f d inode s g.
Proof.
  intros Hs. destruct (slot_block_bytes s Hs) as [_ Hb]. unfold slot_field, fget.
  by apply le_val_range, slice_bytes.
Qed.
(** The header of an entry is in its block. *)
Lemma slot_header s : 0 <= s.1 < count -> slot_ok f d inode s ->
  s.2 + 12 <= bs /\ 12 <= slot_field f d inode s de_rec_len.
Proof.
  intros Hs [H1 H2]. pose proof (slot_field_nonneg s de_name_len Hs). unfold de_name in *. fold bs in H2. lia.
Qed.
Definition next_slot s : Z * Z :=
  let o := s.2 + slot_field f d inode s de_rec_len in if o =? bs then (s.1 + 1, 0) else (s.1, o).
Definition room_at (r0 : Z) s : Z := r0 + (count - 1 - s.1) * cost bs.

Lemma tri_slot_ld s r p b g (Q : Z -> view -> Prop) : 0 <= s.1 < count -> 0 <= s.2 -> slot_ok f d inode s ->
  0 <= f_off g -> f_off g + Z.of_nat (f_size g) <= 8 ->
  Q (slot_field f d inode s g) (View d r (<[p := slot_block f d inode s]> b) f) ->
  tri (View d r (<[p := slot_block f d inode s]> b) f) (ld p (at_ s.2 g)) Q.
Proof.
  intros Hs Ho Hok Hg Hg8 HQ. destruct (slot_header s Hs Hok). eapply tri_ld; [apply lookup_insert_eq| |exact HQ].
  apply slot_fits; lia.
Qed.

Lemma tri_next s r0 p b (Q : ext2_direntry_iterator_t -> view -> Prop) : 0 <= s.1 < count -> 0 <= s.2 -> slot_ok f d inode s ->
  b !! p = None -> 0 < p -> 0 <= r0 ->
  (count <= (next_slot s).1 -> Q (at_end f inode) (View d r0 (<[p := slot_block f d inode s]> b) f)) ->
  ((next_slot s).1 < count ->
     Q (at_slot f (next_slot s)) (View d (room_at r0 (next_slot s)) (<[p := slot_block f d inode (next_slot s)]> b) f)) ->
  tri (View d (room_at r0 s) (<[p := slot_block f d inode s]> b) f) (ext2_direntry_iterator_next inode p (at_slot f s)) Q.
Proof.
  intros Hs Ho Hok Hp Hp0 Hr0 Hend Hnext. destruct dir_numbers as (Hbs & Hcost & Hcnt & H31).
  destruct (slot_header s Hs Hok) as [Hh Hrec]. destruct Hok as [Hn Hle] eqn:E; clear E. fold bs in Hle.
  unfold ext2_direntry_iterator_next, de, at_slot. cbn [it_block_offset it_total_offset it_block_index it_direntry]. fold bs.
  apply triple_bind, tri_slot_ld; [done|done|done|done|done|].
  assert (Htot : 0 <= s.1 * bs + s.2 + slot_field f d inode s de_rec_len <= count * bs) by nia.
  rewrite (u32_small (s.2 + _)), (u32_small (s.1 * bs + _ + _)) by lia.
  rewrite (do_size _ _ _ Hdir). fold count bs. unfold next_slot in *. cbv zeta in *.
  destruct (Z.eqb_spec (s.2 + slot_field f d inode s de_rec_len) bs) as [E|E]; cbn [fst snd] in *.
  - destruct (Z.leb_spec (count * bs) (s.1 * bs + s.2 + slot_field f d inode s de_rec_len)) as [Hl|Hl].
    + assert (Hlast : s.1 = count - 1) by nia. apply tri_less_room with r0; [unfold room_at; nia|]. apply triple_ret.
      replace (MkIter _ _ _ _) with (at_end f inode); [apply Hend; lia|].
      unfold at_end. fold count bs. f_equal; lia.
    + assert (Hs1 : s.1 + 1 < count) by nia. assert (Hroom : 1 * cost bs <= (count - 1 - s.1) * cost bs) by (apply Z.mul_le_mono_nonneg_r; lia).
      assert (Hc32 : count < 4294967296) by nia.
      apply triple_bind, tri_fs. fold bs. rewrite (proj2 (Z.leb_le _ _)) by lia. rewrite (u32_small (s.1 + 1)) by lia.
      apply triple_bind. destruct (slot_block_bytes s Hs) as [Hz _].
      apply (tri_read_inode_block f d inode Hm Hig (do_file _ _ _ Hdir)); [fold count; lia|lia|done|done|done|fold bs; unfold room_at; lia|].
      fold bs. rewrite (proj2 (Z.eqb_neq _ _)) by lia. apply triple_ret. cbn [negb].
      replace (MkIter _ _ _ _) with (at_slot f (s.1 + 1, 0)).
      2:{ unfold at_slot. fold bs. cbn [fst snd]. rewrite u32_small by lia. f_equal; lia. }
      replace (room_at r0 s - cost bs) with (room_at r0 (s.1 + 1, 0)) by (unfold room_at; cbn [fst]; lia).
      apply Hnext. lia.
  - rewrite (proj2 (Z.leb_gt _ _)) by nia. apply triple_bind, tri_fs. fold bs. rewrite (proj2 (Z.leb_gt _ _)) by lia. apply triple_ret.
    replace (MkIter _ _ _ _) with (at_slot f (s.1, s.2 + slot_field f d inode s de_rec_len)).
    2:{ unfold at_slot. fold bs. cbn [fst snd]. f_equal; lia. }
    apply Hnext. lia.
Qed.

(** The loop over the entries: the body leaves slots where [P] fails alone, and goes
    on; what it does at the first other slot is given by its own rule. *)
Lemma tri_walk {A} (P : A -> Z * Z -> bool) (g : A -> Z * Z -> A) body p b r0 (Q : A * ext2_direntry_iterator_t -> view -> Prop) :
  b !! p = None -> 0 < p -> 0 <= r0 ->
  (forall a s r, 0 <= s.1 < count -> 0 <= s.2 -> slot_ok f d inode s -> P a s = false ->
     tri (View d r (<[p := slot_block f d inode s]> b) f) (body a (at_slot f s))
       (fun y v => y = (g a s, at_slot f s, false) /\ v = View d r (<[p := slot_block f d inode s]> b) f)) ->
  forall n s a fuel, (length (scan f d inode n s) < fuel)%nat -> 0 <= s.1 < count -> 0 <= s.2 < bs ->
  count * bs - (s.1 * bs + s.2) <= Z.of_nat n -> Forall (slot_ok f d inode) (scan f d inode n s) ->
  match search P g a (scan f d inode n s) with
  | (a', Some s') => tri (View d r0 (<[p := slot_block f d inode s']> b) f) (body a' (at_slot f s')) (fun y v => y.2 = true /\ Q y.1 v)
  | (a', None) => Q (a', at_end f inode) (View d r0 (<[p := slot_block f d inode (count - 1, 0)]> b) f)
  end ->
  tri (View d (room_at r0 s) (<[p := slot_block f d inode s]> b) f) (walk fuel inode p always body a (at_slot f s)) Q.
Proof.
  intros Hp Hp0 Hr0 Hbody. destruct dir_numbers as (Hbs & Hcost & Hcnt & H31).
  induction n as [|n IH]; intros s a fuel Hfuel Hs Ho Hn Hall HQ; [nia|].
  assert (Hscan : scan f d inode (S n) s = s :: scan f d inode n (next_slot s)).
  { cbn [scan]. fold count bs. by rewrite (proj2 (Z.leb_gt _ _)) by lia. }
  rewrite Hscan in Hfuel, Hall, HQ. apply Forall_cons in Hall as [Hok Hall]. cbn [search] in HQ. cbn [length] in Hfuel.
  destruct fuel as [|fuel]; [lia|]. cbn [walk]. change (it_direntry (at_slot f s) && always a) with true. cbn iota.
  destruct (P a s) eqn:EP.
  { apply tri_less_room with r0; [unfold room_at; nia|]. apply triple_bind. eapply triple_mono; [exact HQ|].
    intros [[a' it'] stop] v' [Hstop Hv]. cbn [snd fst] in Hstop, Hv. subst stop. by apply triple_ret. }
  eapply triple_seq; [exact (Hbody a s _ Hs (proj1 Ho) Hok EP)|]. cbn iota. apply triple_bind, tri_next; [done|lia|done|done|done|done| |].
  - intros Hend. destruct (slot_header s Hs Hok) as [_ Hrec]. destruct Hok as [_ Hle]. fold bs in Hle.
    assert (Hlast : s.1 = count - 1) by (unfold next_slot in Hend; destruct (_ =? bs); cbn [fst] in Hend; lia).
    assert (Hnil : scan f d inode n (next_slot s) = []).
    { destruct n as [|n']; [done|]. cbn [scan]. fold count. by rewrite (proj2 (Z.leb_le _ _)) by lia. }
    rewrite Hnil in HQ. cbn [search] in HQ.
    replace (slot_block f d inode s) with (slot_block f d inode (count - 1, 0)) by (unfold slot_block; cbn [fst]; by rewrite Hlast).
    destruct fuel as [|fuel]; [lia|]. by apply triple_ret.
  - intros Hmore. destruct (slot_header s Hs Hok) as [_ Hrec]. destruct Hok as [_ Hle]. fold bs in Hle.
    assert (Hpos : (next_slot s).1 * bs + (next_slot s).2 = s.1 * bs + s.2 + slot_field f d inode s de_rec_len /\
      s.1 <= (next_slot s).1 /\ 0 <= (next_slot s).2 < bs).
    { unfold next_slot. cbv zeta. destruct (Z.eqb_spec (s.2 + slot_field f d inode s de_rec_len) bs); cbn [fst snd]; lia. }
    apply IH; [lia|lia|lia|lia|done|done].
Qed.
End Walk.

(** ** Looking a name up *)
Section Find.
Context {D X : Type} `{BlockDevice D} `{HeapAllocator X}.
Abbreviation tri := (triple (repr (D := D) (X := X))).
Abbreviation cost := (ha_cost (X := X)).
Implicit Types (d : list Z) (r : Z) (b : gmap Z (list Z)) (s : Z * Z) (f : ext2_filesystem_t) (name : list Z).

(** A string: no character is the terminator. *)
Definition is_name name : Prop := Forall (fun x => 0 < x < 256) name.
(** An entry in use whose name is [name], or the entry [.] for the name [/]. *)
Definition named f d inode name s : bool :=
  negb (slot_field f d inode s de_inode =? 0) &&
  ((bool_decide (slice (s.2 + de_name) 2 (slot_block f d inode s) = [46; 0]) && bool_decide (name = [47])) ||
   bool_decide (slot_name f d inode s = name)).
Definition lookup_slot f d inode name : option (Z * Z) :=
  (search (fun _ : unit => named f d inode name) (fun a _ => a) tt (slots f d inode)).2.
(** What the search copies for a slot. *)
Definition slot_entry f d inode s : list Z :=
  splice (de_name + slot_field f d inode s de_name_len) [0] (slice s.2 DIRENT_SIZE (slot_block f d inode s)).

Lemma zlen_cons (x : Z) l : zlen (x :: l) = 1 + zlen l.
Proof. unfold zlen. cbn [length]. lia. Qed.
Lemma tri_ld_byte d r b f p c off (Q : Z -> view -> Prop) : 0 <= off < zlen c ->
  Q (default 0 (c !! Z.to_nat off)) (View d r (<[p := c]> b) f) -> tri (View d r (<[p := c]> b) f) (ld p (Field off 1)) Q.
Proof.
  intros Hoff HQ. eapply tri_ld; [apply lookup_insert_eq|apply fits_spec; simpl; lia|].
  replace (fget (Field off 1) c) with (default 0 (c !! Z.to_nat off)); [done|].
  unfold fget. cbn [f_off f_size]. unfold slice. change (Z.to_nat (Z.of_nat 1)) with 1%nat.
  destruct (c !! Z.to_nat off) as [x|] eqn:E.
  - rewrite (drop_S _ _ _ E). simpl. lia.
  - apply lookup_ge_None in E. unfold zlen in Hoff. lia.
Qed.

Lemma slice_cons off n c : 0 <= off < zlen c -> 0 < n ->
  slice off n c = default 0 (c !! Z.to_nat off) :: slice (off + 1) (n - 1) c.
Proof.
  intros Hoff Hn. unfold slice. destruct (c !! Z.to_nat off) as [x|] eqn:E.
  - rewrite (drop_S _ _ _ E). replace (Z.to_nat n) with (S (Z.to_nat (n - 1))) by lia. cbn [take default].
    by replace (Z.to_nat (off + 1)) with (S (Z.to_nat off)) by lia.
  - apply lookup_ge_None in E. unfold zlen in Hoff. lia.
Qed.

Lemma tri_strcmp_eq d r b f p c (str : list Z) : forall off (Q : bool -> view -> Prop), 0 <= off -> off + zlen str + 1 <= zlen c ->
  Q (bool_decide (slice off (zlen str + 1) c = str ++ [0])) (View d r (<[p := c]> b) f) ->
  tri (View d r (<[p := c]> b) f) (strcmp_eq p off str) Q.
Proof.
  induction str as [|x str IH]; intros off Q Ho Hle HQ; cbn [strcmp_eq].
  - apply triple_bind, tri_ld_byte; [change (zlen []) with 0 in Hle; lia|]. apply triple_ret.
    change (zlen [] + 1) with 1 in HQ. rewrite slice_cons in HQ by (try change (zlen []) with 0 in Hle; lia).
    change (slice (off + 1) (1 - 1) c) with (@nil Z) in HQ. cbn [app] in HQ.
    replace (_ =? 0) with (bool_decide ([default 0 (c !! Z.to_nat off)] = [0])); [done|].
    apply eq_true_iff_eq. rewrite bool_decide_eq_true, Z.eqb_eq. split; [by injection 1|by intros ->].
  - rewrite zlen_cons in Hle, HQ. pose proof (zlen_nonneg str).
    apply triple_bind, tri_ld_byte; [lia|]. rewrite slice_cons in HQ by lia.
    destruct (Z.eqb_spec (default 0 (c !! Z.to_nat off)) x) as [E|E].
    + apply IH; [lia|lia|]. replace (1 + zlen str + 1 - 1) with (zlen str + 1) in HQ by lia.
      rewrite E in HQ. cbn [app] in HQ.
      rewrite (bool_decide_ext _ (slice (off + 1) (zlen str + 1) c = str ++ [0])) in HQ by (split; [by injection 1|by intros ->]). done.
    + apply triple_ret. by rewrite bool_decide_eq_false_2 in HQ by (intros [=]; done).
Qed.

Lemma tri_strncmp_eq d r b f p c name : is_name name -> forall off (Q : bool -> view -> Prop), 0 <= off -> off + zlen name <= zlen c ->
  Q (bool_decide (slice off (zlen name) c = name)) (View d r (<[p := c]> b) f) ->
  tri (View d r (<[p := c]> b) f) (strncmp_eq (length name) p off name) Q.
Proof.
  induction 1 as [|x name Hx Hname IH]; intros off Q Ho Hle HQ; cbn [strncmp_eq length].
  { apply triple_ret. exact HQ. }
  rewrite zlen_cons in Hle, HQ. pose proof (zlen_nonneg name).
  apply triple_bind, tri_ld_byte; [lia|]. rewrite slice_cons in HQ by lia. cbn [hd tail].
  replace (1 + zlen name - 1) with (zlen name) in HQ by lia. rewrite (proj2 (Z.eqb_neq x 0)) by lia.
  destruct (Z.eqb_spec (default 0 (c !! Z.to_nat off)) x) as [E|E].
  - rewrite E in HQ |- *. rewrite (proj2 (Z.eqb_neq x 0)) by lia. cbn [negb]. rewrite !andb_true_r.
    rewrite (bool_decide_ext _ (slice (off + 1) (zlen name) c = name)) in HQ by (split; [by injection 1|by intros ->]).
    destruct (Z.ltb_spec 0 (Z.of_nat (length name))) as [Hl|Hl]; cbn [andb].
    + apply IH; [lia|lia|done].
    + apply triple_ret. destruct name; [|simpl in Hl; lia]. exact HQ.
  - rewrite !andb_false_r. apply triple_ret. by rewrite bool_decide_eq_false_2 in HQ by (intros [=]; done).
Qed.

Lemma slot_name_zlen f d inode s : mounted f d -> dir_ok f d inode -> 0 <= s.1 < block_count f inode -> 0 <= s.2 ->
  slot_ok f d inode s -> zlen (slot_name f d inode s) = slot_field f d inode s de_name_len.
Proof.
  intros Hm Hdir Hs Ho Hok. destruct (slot_header f d inode Hm Hdir s Hs Hok) as [Hh Hr]. destruct Hok as [H1 H2].
  destruct (slot_block_bytes f d inode Hm Hdir s Hs) as [Hz _]. pose proof (slot_field_nonneg f d inode Hm Hdir s de_name_len Hs).
  unfold slot_name, de_name in *. apply slice_zlen; lia.
Qed.

Lemma tri_find_body d r b f inode p name s (Q : unit * ext2_direntry_iterator_t * bool -> view -> Prop) :
  mounted f d -> dir_ok f d inode -> is_name name -> 0 <= s.1 < block_count f inode -> 0 <= s.2 -> slot_ok f d inode s ->
  Q (tt, at_slot f s, named f d inode name s) (View d r (<[p := slot_block f d inode s]> b) f) ->
  tri (View d r (<[p := slot_block f d inode s]> b) f) (find_body p name tt (at_slot f s)) Q.
Proof.
  intros Hm Hdir Hname Hs Ho Hok HQ. destruct (slot_header f d inode Hm Hdir s Hs Hok) as [Hh Hr].
  destruct (slot_block_bytes f d inode Hm Hdir s Hs) as [Hz _]. pose proof (slot_name_zlen f d inode s Hm Hdir Hs Ho Hok) as Hnz.
  unfold find_body, de, at_slot, named in *. cbn [it_block_offset].
  apply triple_bind, (tri_slot_ld f d inode Hm Hdir); [done..|].
  destruct (Z.eqb_spec (slot_field f d inode s de_inode) 0) as [E|E]; cbn [negb andb] in HQ; [by apply triple_ret|].
  destruct Hok as [H1 H2]. pose proof (slot_field_nonneg f d inode Hm Hdir s de_name_len Hs) as Hl0. unfold de_name in *.
  apply triple_bind, tri_strcmp_eq; [lia|change (zlen [46]) with 1; lia|]. change (zlen [46] + 1) with 2. change ([46] ++ [0]) with [46; 0].
  destruct (bool_decide (slice (s.2 + 8) 2 (slot_block f d inode s) = [46; 0]) && bool_decide (name = [47])); cbn [orb] in HQ;
    [by apply triple_ret|].
  apply triple_bind, (tri_slot_ld f d inode Hm Hdir); [done|done|by split|done|done|].
  destruct (Z.eqb_spec (zlen name) (slot_field f d inode s de_name_len)) as [En|En].
  - rewrite <- En. replace (Z.to_nat (zlen name)) with (length name) by (unfold zlen; lia).
    apply triple_bind, tri_strncmp_eq; [done|lia|lia|]. apply triple_ret. unfold slot_name, de_name in HQ. by rewrite <- En in HQ.
  - apply triple_ret. rewrite bool_decide_eq_false_2 in HQ; [done|]. intros E'. by rewrite E' in Hnz.
Qed.

(** The iterator at the first entry, and the whole loop. *)
Lemma tri_walk_all {A B} d r0 b f inode p c (P : A -> Z * Z -> bool) (g : A -> Z * Z -> A) body fuel a
    (k : A * ext2_direntry_iterator_t -> M (state D X) B) (Q : B -> view -> Prop) :
  mounted f d -> index_geometry f -> dir_ok f d inode -> b !! p = None -> 0 < p -> 0 <= r0 -> zlen c = block_size f ->
  (forall a s r, 0 <= s.1 < block_count f inode -> 0 <= s.2 -> slot_ok f d inode s -> P a s = false ->
     tri (View d r (<[p := slot_block f d inode s]> b) f) (body a (at_slot f s))
       (fun y v => y = (g a s, at_slot f s, false) /\ v = View d r (<[p := slot_block f d inode s]> b) f)) ->
  (length (slots f d inode) < fuel)%nat ->
  match search P g a (slots f d inode) with
  | (a', Some s') => tri (View d r0 (<[p := slot_block f d inode s']> b) f) (body a' (at_slot f s')) (fun y v => y.2 = true /\ tri v (k y.1) Q)
  | (a', None) => tri (View d r0 (<[p := slot_block f d inode (block_count f inode - 1, 0)]> b) f) (k (a', at_end f inode)) Q
  end ->
  tri (View d (r0 + block_count f inode * cost (block_size f)) (<[p := c]> b) f)
    (it ← ext2_direntry_iterator_begin p inode; y ← walk fuel inode p always body a it; k y) Q.
Proof.
  intros Hm Hig Hdir Hp Hp0 Hr0 Hc Hbody Hfuel HQ. destruct (dir_numbers (X := X) f d inode Hm Hdir) as (Hbs & Hcost & Hcnt & H31).
  pose proof (do_slots _ _ _ Hdir) as Hall. unfold slots in *.
  apply triple_bind, triple_bind, (tri_read_inode_block f d inode Hm Hig (do_file _ _ _ Hdir)); [lia|lia|done|done|done|nia|].
  rewrite (proj2 (Z.eqb_neq _ _)) by lia. apply triple_ret. cbn [negb].
  change (MkIter 0 0 0 true) with (at_slot f (0, 0)).
  replace (r0 + _ * _ - _) with (room_at (X := X) f inode r0 (0, 0)) by (unfold room_at; cbn [fst]; lia).
  change (blk f d (real_block f d inode 0)) with (slot_block f d inode (0, 0)).
  apply triple_bind. eapply (tri_walk f d inode Hm Hig Hdir P g); [done|done|done|exact Hbody|done|cbn; lia|cbn; lia|cbn [fst snd]; lia|done|exact HQ].
Qed.
End Find.

Section Lookup.
Context {D X : Type} `{BlockDevice D} `{HeapAllocator X}.
Abbreviation tri := (triple (repr (D := D) (X := X))).
Abbreviation cost := (ha_cost (X := X)).
Implicit Types (d : list Z) (r : Z) (b : gmap Z (list Z)) (s : Z * Z) (f : ext2_filesystem_t) (name : list Z).

Lemma scan_range f d inode : mounted f d -> dir_ok f d inode -> forall n s, 0 <= s.1 -> 0 <= s.2 < block_size f ->
  Forall (slot_ok f d inode) (scan f d inode n s) ->
  Forall (fun t => slot_ok f d inode t /\ 0 <= t.1 < block_count f inode /\ 0 <= t.2) (scan f d inode n s).
Proof.
  intros Hm Hdir n. induction n as [|n IH]; intros s Hs Ho Hall; [constructor|]. cbn [scan] in *.
  destruct (Z.leb_spec (block_count f inode) s.1); [constructor|]. apply Forall_cons in Hall as [Hok Hall].
  destruct (slot_header f d inode Hm Hdir s ltac:(lia) Hok) as [_ Hr].
  constructor; [split_and!; try lia; done|]. destruct Hok as [_ Hle].
  destruct (Z.eqb_spec (s.2 + slot_field f d inode s de_rec_len) (block_size f)); apply IH; cbn [fst snd] in *; try lia; done.
Qed.
Lemma slots_range f d inode s : mounted f d -> dir_ok f d inode -> s ∈ slots f d inode ->
  slot_ok f d inode s /\ 0 <= s.1 < block_count f inode /\ 0 <= s.2.
Proof.
  intros Hm Hdir Hs. pose proof (bs_range f d Hm).
  pose proof (scan_range f d inode Hm Hdir _ (0, 0) ltac:(cbn; lia) ltac:(cbn; lia) (do_slots _ _ _ Hdir)) as Hall.
  rewrite Forall_forall in Hall. by apply Hall.
Qed.

Lemma search_some {A} (P : A -> Z * Z -> bool) g l : forall a a' s, search P g a l = (a', Some s) -> s ∈ l /\ P a' s = true.
Proof.
  induction l as [|t l IH]; intros a a' s; cbn [search]; [done|]. destruct (P a t) eqn:E.
  - intros [= <- <-]. split; [by left|done].
  - intros Hs. destruct (IH _ _ _ Hs). split; [by right|done].
Qed.

Lemma lookup_slot_search f d inode name :
  search (fun _ : unit => named f d inode name) (fun a _ => a) tt (slots f d inode) = (tt, lookup_slot f d inode name).
Proof. unfold lookup_slot. by destruct (search _ _ _ _) as [[] o]. Qed.

(** What a search gives back in the directory [ino]. *)
Definition found f d (ino : Z) (o : option (Z * Z)) (sr : ext2_direntry_search_t) : Z * ext2_direntry_search_t :=
  match o with
  | Some s => (0, MkSearch (slot_entry f d (inode_of f d ino) s) ino s.1 s.2)
  | None => (-1, MkSearch (direntry sr) ino (block_index sr) (block_offset sr))
  end.
(** The entry can be copied: the copy takes as many bytes as the longest entry. *)
Definition copyable f (o : option (Z * Z)) : Prop := match o with Some s => s.2 + DIRENT_SIZE <= block_size f | None => True end.

Lemma tri_find_direntry d r b f fuel ino name sr (Q : Z * ext2_direntry_search_t -> view -> Prop) :
  let inode := inode_of f d ino in
  let room := (block_count f inode + 2) * cost (block_size f) in
  mounted f d -> index_geometry f -> valid_inode f ino -> ino < 4294967296 -> dir_ok f d inode -> is_name name ->
  (length (slots f d inode) < fuel)%nat -> copyable f (lookup_slot f d inode name) -> room <= r ->
  Q (found f d ino (lookup_slot f d inode name) sr) (View d (r - room) b f) ->
  tri (View d r b f) (ext2_find_direntry fuel ino name sr) Q.
Proof.
  intros inode room Hm Hig Hi Hi32 Hdir Hname Hfuel Hcopy Hr HQ. fold inode in Hdir, Hfuel, Hcopy.
  destruct (dir_numbers (X := X) f d inode Hm Hdir) as (Hbs & Hcost & Hcnt & H31).
  apply triple_bind, tri_read_inode; [done|done|done|unfold room in Hr; nia|]. fold inode.
  rewrite (proj2 (Z.eqb_neq _ _)) by apply Hdir.
  apply triple_bind, tri_fs, triple_bind, tri_new_cache; [lia|unfold room in Hr; nia|]. intros p Hp Hp0.
  assert (Hz0 : zlen (zeros (block_size f)) = block_size f) by (apply zeros_zlen; lia).
  replace (r - cost (block_size f) - cost (block_size f)) with (r - room + block_count f inode * cost (block_size f)) by (unfold room; lia).
  eapply (tri_walk_all d (r - room) b f inode p _ (fun _ => named f d inode name) (fun a _ => a)); try done; [lia|..].
  { intros [] s r1 Hs Ho Hok HP. eapply tri_find_body; [done..|]. by rewrite HP. }
  rewrite lookup_slot_search. fold inode in HQ. unfold found in HQ. fold inode in HQ.
  destruct (lookup_slot f d inode name) as [s|] eqn:E.
  - destruct (search_some (fun _ : unit => named f d inode name) (fun a _ => a) _ tt tt s ltac:(rewrite lookup_slot_search, E; done)) as [Hin HP].
    destruct (slots_range f d inode s Hm Hdir Hin) as (Hok & Hs & Ho). cbn in Hcopy.
    eapply tri_find_body; [done..|]. split; [exact HP|]. cbn [fst negb it_direntry at_slot it_block_offset].
    destruct (slot_block_bytes f d inode Hm Hdir s Hs) as [Hz _].
    apply triple_bind. eapply tri_copy_out; [apply lookup_insert_eq|done|unfold DIRENT_SIZE; lia|lia|].
    apply tri_free_new; [done|]. apply triple_ret.
    replace (fget de_name_len (slice _ _ _)) with (slot_field f d inode s de_name_len); [exact HQ|].
    symmetry. apply fget_slice; [done|done|reflexivity || (unfold DIRENT_SIZE; simpl; lia)].
  - cbn [negb it_direntry at_end]. apply tri_free_new; [done|]. by apply triple_ret.
Qed.

(** C12: ext2_find_direntry gives the first entry of the directory that is in use and has
    the name, or the entry for . when the name is /, with the number of the
    directory, its block and its offset, and -1 exactly when there is none. Nothing
    on the disk changes and no buffer is left over. The file system has
    blocks of at least 4 KiB, the directories that are searched are well-formed
    ([dir_ok]) and shorter than the fuel, the names have no byte 0, the heap has room
    for the buffers, and an entry that is found has to end, with the 264 bytes the code
    copies, inside its block ([copyable]; [find_reads_behind_cache] shows the other case). *)
Theorem ext2_find_direntry_correct st d r b f fuel ino name sr : repr st (View d r b f) -> mounted f d -> index_geometry f ->
  valid_inode f ino -> ino < 4294967296 -> is_name name ->
  let inode := inode_of f d ino in
  let room := (block_count f inode + 2) * cost (block_size f) in
  dir_ok f d inode -> (length (slots f d inode) < fuel)%nat -> copyable f (lookup_slot f d inode name) -> room <= r ->
  ext2_find_direntry fuel ino name sr ~{ st }~>! FFatal \/
  exists st', ext2_find_direntry fuel ino name sr ~{ st }~> found f d ino (lookup_slot f d inode name) sr; st' /\
    repr st' (View d (r - room) b f).
Proof.
  intros Hs Hm Hig Hi Hi32 Hname inode room Hdir Hfuel Hcopy Hr.
  assert (Htri : tri (View d r b f) (ext2_find_direntry fuel ino name sr) (fun y v' =>
    y = found f d ino (lookup_slot f d inode name) sr /\ v' = View d (r - room) b f)) by (by apply tri_find_direntry).
  destruct (triple_run _ _ _ _ st Htri Hs) as [?|(y & st' & v' & Hrun & Hs' & -> & ->)]; [by left|right]. by exists st'.
Qed.
End Lookup.

(** ** Resolving a path *)
Section Resolve.
Context {D X : Type} `{BlockDevice D} `{HeapAllocator X}.
Abbreviation tri := (triple (repr (D := D) (X := X))).
Abbreviation cost := (ha_cost (X := X)).
Implicit Types (d : list Z) (r : Z) (b : gmap Z (list Z)) (s : Z * Z) (f : ext2_filesystem_t) (name : list Z).

(** Where the names lead from the directory [ino]; when one is not found the entry
    is cleared. *)
Fixpoint lookup_path f d (tokens : list (list Z)) (ino : Z) (sr : ext2_direntry_search_t) : Z * ext2_direntry_search_t :=
  match tokens with
  | [] => (0, sr)
  | t :: tokens =>
      match lookup_slot f d (inode_of f d ino) t with
      | Some s => lookup_path f d tokens (slot_field f d (inode_of f d ino) s de_inode)
                    (MkSearch (slot_entry f d (inode_of f d ino) s) ino s.1 s.2)
      | None => (-1, MkSearch (zeros DIRENT_SIZE) ino (block_index sr) (block_offset sr))
      end
  end.
(** The directories on the way are well-formed, and what their search takes. *)
Fixpoint path_ok f d (fuel : nat) (tokens : list (list Z)) (ino : Z) : Prop :=
  match tokens with
  | [] => True
  | t :: tokens =>
      let inode := inode_of f d ino in
      valid_inode f ino /\ ino < 4294967296 /\ dir_ok f d inode /\ (length (slots f d inode) < fuel)%nat /\
      copyable f (lookup_slot f d inode t) /\
      match lookup_slot f d inode t with Some s => path_ok f d fuel tokens (slot_field f d inode s de_inode) | None => True end
  end.
Fixpoint path_room f d (tokens : list (list Z)) (ino : Z) : Z :=
  match tokens with
  | [] => 0
  | t :: tokens =>
      let inode := inode_of f d ino in
      (block_count f inode + 2) * cost (block_size f) +
      match lookup_slot f d inode t with Some s => path_room f d tokens (slot_field f d inode s de_inode) | None => 0 end
  end.

(** The fields of the header of an entry are not touched by closing its name. *)
Lemma slot_entry_field f d inode s g : mounted f d -> dir_ok f d inode -> 0 <= s.1 < block_count f inode -> 0 <= s.2 ->
  slot_ok f d inode s -> s.2 + DIRENT_SIZE <= block_size f -> 0 <= f_off g -> f_off g + Z.of_nat (f_size g) <= 8 ->
  fget g (slot_entry f d inode s) = slot_field f d inode s g.
Proof.
  intros Hm Hdir Hs Ho Hok Hc Hg Hg8. destruct (slot_block_bytes f d inode Hm Hdir s Hs) as [Hz _].
  pose proof (slot_field_range f d inode Hm Hdir s de_name_len Hs ltac:(done) Ho) as Hr.
  destruct (slot_header f d inode Hm Hdir s Hs Hok) as [Hh _]. change (f_off de_name_len + Z.of_nat (f_size de_name_len)) with 7 in Hr.
  specialize (Hr ltac:(simpl; lia)). change (fmax de_name_len) with 256 in Hr.
  assert (Hze : zlen (slice s.2 DIRENT_SIZE (slot_block f d inode s)) = DIRENT_SIZE) by (apply slice_zlen; unfold DIRENT_SIZE in *; lia).
  unfold slot_entry, fget, de_name in *. rewrite slice_splice_ne;
    [|lia|change (zlen [0]) with 1; unfold DIRENT_SIZE in *; lia|lia|lia].
  rewrite slice_slice by (unfold DIRENT_SIZE; lia). done.
Qed.

Lemma path_room_nonneg f d tokens : forall ino fuel, mounted f d -> path_ok f d fuel tokens ino -> 0 <= path_room f d tokens ino.
Proof.
  induction tokens as [|t tokens IH]; intros ino fuel Hm Hok; cbn [path_room path_ok] in *; [done|].
  destruct Hok as (_ & _ & Hdir & _ & _ & Hrest). destruct (dir_numbers (X := X) f d _ Hm Hdir) as (_ & Hcost & Hcnt & _).
  destruct (lookup_slot f d (inode_of f d ino) t); [specialize (IH _ _ Hm Hrest)|]; nia.
Qed.

Lemma tri_resolve_tokens d b f fuel tokens : mounted f d -> index_geometry f -> Forall is_name tokens ->
  forall ino sr r (Q : Z * ext2_direntry_search_t -> view -> Prop),
  path_ok f d fuel tokens ino -> path_room f d tokens ino <= r ->
  Q (lookup_path f d tokens ino sr) (View d (r - path_room f d tokens ino) b f) ->
  tri (View d r b f) (resolve_tokens fuel tokens ino sr) Q.
Proof.
  intros Hm Hig Hnames. induction Hnames as [|t tokens Ht _ IH]; intros ino sr r Q Hok Hr HQ; cbn [resolve_tokens path_ok path_room lookup_path] in *.
  { apply triple_ret. by rewrite Z.sub_0_r in HQ. }
  destruct Hok as (Hi & Hi32 & Hdir & Hfuel & Hcopy & Hrest).
  assert (Hmono : 0 <= match lookup_slot f d (inode_of f d ino) t with
    Some s => path_room f d tokens (slot_field f d (inode_of f d ino) s de_inode) | None => 0 end).
  { destruct (lookup_slot f d (inode_of f d ino) t); [by eapply path_room_nonneg|done]. }
  apply triple_bind, tri_find_direntry; [done..|lia|].
  unfold found. destruct (lookup_slot f d (inode_of f d ino) t) as [s|] eqn:E; cbn [direntry parent_inode block_index block_offset].
  - change (0 =? 0) with true. cbn iota.
    destruct (search_some (fun _ : unit => named f d (inode_of f d ino) t) (fun a _ => a) _ tt tt s ltac:(rewrite lookup_slot_search, E; done)) as [Hin _].
    destruct (slots_range f d _ s Hm Hdir Hin) as (Hso & Hs & Ho).
    rewrite slot_entry_field by (done || (simpl; lia)).
    apply IH; [done|lia|]. by rewrite <- Z.sub_add_distr.
  - change (-1 =? 0) with false. cbn iota. apply triple_ret. by rewrite Z.add_0_r in HQ.
Qed.

Lemma words_names path : is_name path -> Forall is_name (CString.words {[47]} path).
Proof.
  unfold CString.words. intros Hp. assert (Hn : is_name []) by constructor. revert Hn. generalize (@nil Z) as w.
  induction Hp as [|c path Hc _ IH]; intros w Hw; cbn [CString.words_from].
  - case_decide; [constructor|by constructor].
  - repeat case_decide; try (by apply IH; constructor).
    + constructor; [done|]. apply IH. constructor.
    + apply IH. apply Forall_app. split; [done|]. by constructor.
Qed.

Lemma tri_resolve_path d r b f fuel root path sr (Q : Z * ext2_direntry_search_t -> view -> Prop) : mounted f d -> index_geometry f ->
  is_name path -> path <> [47] -> (zlen path + 1) mod 16 <> 0 -> zlen path < 65535 ->
  let tokens := CString.words {[47]} path in
  let room := path_room f d tokens root + cost (zlen path + 1) in
  path_ok f d fuel tokens root -> room <= r -> Q (lookup_path f d tokens root sr) (View d (r - room) b f) ->
  tri (View d r b f) (ext2_resolve_path fuel root path sr) Q.
Proof.
  intros Hm Hig Hname Hne H16 Hlen tokens room Hok Hr HQ. pose proof (zlen_nonneg path) as Hz0.
  pose proof (path_room_nonneg f d tokens root fuel Hm Hok) as Hpr.
  assert (Hc : 0 <= cost (zlen path + 1)) by (apply ha_cost_law; lia).
  assert (Hcopy : zlen (path ++ [0]) = zlen path + 1) by (by rewrite zlen_app).
  unfold ext2_resolve_path. rewrite bool_decide_eq_false_2 by done. unfold strdup.
  apply triple_bind, triple_bind, tri_new_cache; [lia|lia|]. intros p Hp Hp0. rewrite (proj2 (Z.eqb_neq _ _)) by done.
  apply triple_bind, triple_ret. apply triple_bind. eapply tri_copy_in; [apply lookup_insert_eq|lia|rewrite zeros_zlen; lia|].
  apply triple_ret. rewrite insert_insert_eq. apply triple_bind, tri_resolve_tokens; [done|done|by apply words_names|done|unfold room in Hr; fold tokens; lia|].
  fold tokens. destruct (lookup_path f d tokens root sr) as [x sr']. apply tri_free_new; [done|]. apply triple_ret.
  replace (r - cost (zlen path + 1) - path_room f d tokens root) with (r - room) by (unfold room; lia). exact HQ.
Qed.

(** C13: resolving a path follows its names, the words between the slashes, from
    directory to directory, each by the entry that ext2_find_direntry finds, and
    gives the last entry with its place; -1 when a name is not there. The path /
    is left out. Nothing on the disk changes and no buffer is left over. The copy of
    the path is closed one byte too far ([strdup_overflow]), so the path and its
    terminator must not fill a multiple of 16 bytes, and the path is shorter than
    65535. The file system has
    blocks of at least 4 KiB, the directories that are searched are well-formed
    ([dir_ok]) and shorter than the fuel, the names have no byte 0, the heap has room
    for the buffers, and an entry that is found has to end, with the 264 bytes the code
    copies, inside its block ([copyable]; [find_reads_behind_cache] shows the other case). *)
Theorem ext2_resolve_path_correct st d r b f fuel root path sr : repr st (View d r b f) -> mounted f d -> index_geometry f ->
  is_name path -> path <> [47] -> (zlen path + 1) mod 16 <> 0 -> zlen path < 65535 ->
  let tokens := CString.words {[47]} path in
  let room := path_room f d tokens root + cost (zlen path + 1) in
  path_ok f d fuel tokens root -> room <= r ->
  ext2_resolve_path fuel root path sr ~{ st }~>! FFatal \/
  exists st', ext2_resolve_path fuel root path sr ~{ st }~> lookup_path f d tokens root sr; st' /\
    repr st' (View d (r - room) b f).
Proof.
  intros Hs Hm Hig Hname Hne H16 Hlen tokens room Hok Hr.
  assert (Htri : tri (View d r b f) (ext2_resolve_path fuel root path sr) (fun y v' =>
    y = lookup_path f d tokens root sr /\ v' = View d (r - room) b f)) by (by apply tri_resolve_path).
  destruct (triple_run _ _ _ _ st Htri Hs) as [?|(y & st' & v' & Hrun & Hs' & -> & ->)]; [by left|right]. by exists st'.
Qed.
End Resolve.

(** ** Changing a block of a directory *)
Section Change.
Implicit Types (s u : Z * Z) (name : list Z).
Context (f : ext2_filesystem_t) (d inode : list Z).
Context (Hm : mounted f d) (Hdir : dir_ok f d inode).
Let bs := block_size f.
Let count := block_count f inode.

(** The slots follow one another and do not overlap. *)
Lemma scan_after n : forall s u, 0 <= s.1 -> 0 <= s.2 < bs -> Forall (slot_ok f d inode) (scan f d inode n s) ->
  u ∈ scan f d inode n s -> s.1 < u.1 \/ (s.1 = u.1 /\ s.2 <= u.2).
Proof.
  induction n as [|n IH]; intros s u Hs Ho Hall Hu; cbn [scan] in *; [by apply elem_of_nil in Hu|].
  destruct (Z.leb_spec (block_count f inode) s.1); [by apply elem_of_nil in Hu|].
  apply elem_of_cons in Hu as [->|Hu]; [lia|]. apply Forall_cons in Hall as [Hok Hall].
  destruct (slot_header f d inode Hm Hdir s ltac:(lia) Hok) as [_ Hr]. destruct Hok as [_ Hle]. fold bs in Hle.
  destruct (Z.eqb_spec (s.2 + slot_field f d inode s de_rec_len) (block_size f)) as [E|E]; fold bs in E;
    apply IH in Hu; cbn [fst snd] in *; try lia; try done.
Qed.
Lemma scan_disjoint n : forall s u v, 0 <= s.1 -> 0 <= s.2 < bs -> Forall (slot_ok f d inode) (scan f d inode n s) ->
  u ∈ scan f d inode n s -> v ∈ scan f d inode n s -> u.1 = v.1 ->
  u = v \/ u.2 + slot_field f d inode u de_rec_len <= v.2 \/ v.2 + slot_field f d inode v de_rec_len <= u.2.
Proof.
  assert (Hwlog : forall n s v, 0 <= s.1 -> 0 <= s.2 < bs -> Forall (slot_ok f d inode) (scan f d inode (S n) s) -> s.1 < count ->
    v ∈ scan f d inode n (let o := s.2 + slot_field f d inode s de_rec_len in if o =? bs then (s.1 + 1, 0) else (s.1, o)) ->
    s.1 = v.1 -> s.2 + slot_field f d inode s de_rec_len <= v.2).
  { clear n. intros n s v Hs Ho Hall Hc Hv Heq. cbn [scan] in Hall. fold count bs in Hall. rewrite (proj2 (Z.leb_gt _ _)) in Hall by lia.
    apply Forall_cons in Hall as [Hok Hall]. destruct (slot_header f d inode Hm Hdir s ltac:(fold count; lia) Hok) as [_ Hr].
    destruct Hok as [_ Hle]. fold bs in Hle. cbv zeta in *.
    destruct (Z.eqb_spec (s.2 + slot_field f d inode s de_rec_len) bs) as [E|E];
      apply scan_after in Hv; cbn [fst snd] in *; try lia; try done. }
  induction n as [|n IH]; intros s u v Hs Ho Hall Hu Hv Heq; [by apply elem_of_nil in Hu|].
  pose proof Hall as Hall'. cbn [scan] in Hu, Hv, Hall'. fold count bs in Hu, Hv, Hall'.
  destruct (Z.leb_spec count s.1); [by apply elem_of_nil in Hu|]. apply Forall_cons in Hall' as [Hok Hall'].
  destruct (slot_header f d inode Hm Hdir s ltac:(fold count; lia) Hok) as [_ Hr]. destruct Hok as [_ Hle]. fold bs in Hle.
  apply elem_of_cons in Hu as [->|Hu]; apply elem_of_cons in Hv as [->|Hv].
  - by left.
  - right; left. by eapply Hwlog.
  - right; right. eapply Hwlog; try done. 
  - eapply IH; [..|exact Hall'|done|done|done]; destruct (Z.eqb_spec (s.2 + slot_field f d inode s de_rec_len) bs); cbn [fst snd]; lia.
Qed.
Lemma slots_disjoint u v : u ∈ slots f d inode -> v ∈ slots f d inode -> u.1 = v.1 ->
  u = v \/ u.2 + slot_field f d inode u de_rec_len <= v.2 \/ v.2 + slot_field f d inode v de_rec_len <= u.2.
Proof.
  pose proof (bs_range f d Hm). apply (scan_disjoint _ (0, 0)); [cbn; lia|cbn; fold bs; lia|apply Hdir].
Qed.

(** The record lengths decide the slots. *)
Lemma scan_same d' n : forall s, (forall u, u ∈ scan f d inode n s -> slot_field f d' inode u de_rec_len = slot_field f d inode u de_rec_len) ->
  scan f d' inode n s = scan f d inode n s.
Proof.
  induction n as [|n IH]; intros s Hu; [done|]. cbn [scan] in *. destruct (block_count f inode <=? s.1); [done|]. cbv zeta in *.
  rewrite (Hu s) by (by left). f_equal. apply IH. intros u Hin. apply Hu. by right.
Qed.

(** An entry depends on the bytes of its record. *)
Lemma slot_ext d' u : 0 <= u.1 < count -> 0 <= u.2 -> slot_ok f d inode u ->
  slice u.2 (slot_field f d inode u de_rec_len) (slot_block f d' inode u) =
    slice u.2 (slot_field f d inode u de_rec_len) (slot_block f d inode u) ->
  (forall g, 0 <= f_off g -> f_off g + Z.of_nat (f_size g) <= 8 -> slot_field f d' inode u g = slot_field f d inode u g) /\
  slot_name f d' inode u = slot_name f d inode u /\ slot_ok f d' inode u /\
  (forall name, named f d' inode name u = named f d inode name u).
Proof.
  intros Hu Ho Hok Heq. destruct (slot_header f d inode Hm Hdir u Hu Hok) as [Hh Hr]. pose proof Hok as [H1 H2].
  pose proof (slot_field_nonneg f d inode Hm Hdir u de_name_len Hu) as Hl. unfold de_name in *.
  assert (Hpart : forall a n, 0 <= a -> a + n <= slot_field f d inode u de_rec_len ->
    slice (u.2 + a) n (slot_block f d' inode u) = slice (u.2 + a) n (slot_block f d inode u)).
  { intros a n Ha Hn. destruct (Z.le_gt_cases 0 n); [|unfold slice; by replace (Z.to_nat n) with 0%nat by lia].
    rewrite <- !(slice_slice a n u.2 (slot_field f d inode u de_rec_len)) by lia. by rewrite Heq. }
  assert (Hfield : forall g, 0 <= f_off g -> f_off g + Z.of_nat (f_size g) <= 8 -> slot_field f d' inode u g = slot_field f d inode u g).
  { intros g Hg Hg8. unfold slot_field, fget, at_. cbn [f_off f_size]. rewrite Hpart by lia. done. }
  assert (Hname : slot_name f d' inode u = slot_name f d inode u).
  { unfold slot_name, de_name. rewrite Hfield by (simpl; lia). apply Hpart; lia. }
  split; [done|]. split; [done|]. split.
  - split; unfold de_name; rewrite !Hfield by (simpl; lia); done.
  - intros name. unfold named, de_name. rewrite Hfield, Hname, Hpart by (simpl; lia). done.
Qed.

(** *** Block [k] of the directory is replaced by [w] *)
Context (k : Z) (w : list Z) (Hk : 0 <= k < count) (Hw : zlen w = bs) (Hwb : bytes w).
Definition with_block : list Z := splice (real_block f d inode k * bs) w d.

Lemma with_block_slot u : 0 <= u.1 < count -> slot_block f with_block inode u = if decide (u.1 = k) then w else slot_block f d inode u.
Proof.
  intros Hu. pose proof (do_file _ _ _ Hdir) as Hok. unfold slot_block, with_block, bs.
  destruct (wb_same f d inode k w Hm Hok Hk Hw u.1 Hu) as [_ ->]. pose proof (fo_real _ _ _ Hok u.1 Hu).
  rewrite (wb_blk f d inode k w) by (done || lia). unfold slot_block.
  destruct (decide (u.1 = k)) as [->|Hne]; [by rewrite decide_True|].
  rewrite decide_False; [done|]. intros E. by apply Hne, (fo_distinct _ _ _ Hok).
Qed.
Lemma with_block_mounted : mounted f with_block /\ file_ok f with_block inode.
Proof. split; [apply wb_mounted|apply wb_ok]; try done; apply Hdir. Qed.

(** A record whose bytes have not changed. *)
Lemma with_block_same u : u ∈ slots f d inode ->
  (u.1 = k -> slice u.2 (slot_field f d inode u de_rec_len) w = slice u.2 (slot_field f d inode u de_rec_len) (blk f d (real_block f d inode k))) ->
  slice u.2 (slot_field f d inode u de_rec_len) (slot_block f with_block inode u) =
    slice u.2 (slot_field f d inode u de_rec_len) (slot_block f d inode u).
Proof.
  intros Hin Hsame. destruct (slots_range f d inode u Hm Hdir Hin) as (_ & Hu & _). rewrite with_block_slot by done.
  case_decide as E; [|done]. rewrite Hsame by done. unfold slot_block. by rewrite E.
Qed.
End Change.

(** ** Removing an entry *)
Section Remove.
Implicit Types (s u : Z * Z) (name : list Z).
Context (f : ext2_filesystem_t) (d inode : list Z).
Context (Hm : mounted f d) (Hdir : dir_ok f d inode).
Let bs := block_size f.

Lemma search_ext {A} (P P' : A -> Z * Z -> bool) g l : forall a, (forall a u, u ∈ l -> P a u = P' a u) -> search P g a l = search P' g a l.
Proof.
  induction l as [|u l IH]; intros a HP; [done|]. cbn [search]. rewrite (HP a u) by (by left).
  destruct (P' a u); [done|]. apply IH. intros ? ? ?. apply HP. by right.
Qed.

(** A disk on which the blocks of the directory are the same. *)
Lemma dir_same d' : file_ok f d' inode -> (forall u, 0 <= u.1 < block_count f inode -> slot_block f d' inode u = slot_block f d inode u) ->
  dir_ok f d' inode /\ slots f d' inode = slots f d inode /\
  (forall u g, u ∈ slots f d inode -> slot_field f d' inode u g = slot_field f d inode u g) /\
  (forall name, lookup_slot f d' inode name = lookup_slot f d inode name).
Proof.
  intros Hok Hb.
  assert (Hf : forall u g, u ∈ slots f d inode -> slot_field f d' inode u g = slot_field f d inode u g).
  { intros u g Hu. destruct (slots_range f d inode u Hm Hdir Hu) as (_ & Hr & _). unfold slot_field. by rewrite Hb. }
  assert (Hs : slots f d' inode = slots f d inode) by (apply scan_same; intros u Hu; by apply Hf).
  split_and!; [|done|done|].
  - destruct Hdir as [_ Hmode Hcnt Hsize Hall]. split; try done. rewrite Hs. rewrite Forall_forall in Hall |- *.
    intros u Hu. destruct (Hall u Hu) as [H1 H2]. split; rewrite !Hf by done; done.
  - intros name. unfold lookup_slot. rewrite Hs. f_equal. apply search_ext. intros [] u Hu.
    destruct (slots_range f d inode u Hm Hdir Hu) as (_ & Hr & _). unfold named, slot_name, slot_field. by rewrite Hb.
Qed.

(** The index blocks of the directory lie in no region of the file system. *)
Definition index_safe : Prop := forall k x R, 0 <= k < block_count f inode -> x ∈ index_path f d inode k -> ~ in_region f R x.

Lemma write_inode_dir i v : index_safe -> valid_inode f i -> zlen v = INODE_SIZE ->
  dir_ok f (write_inode f d i v) inode /\ slots f (write_inode f d i v) inode = slots f d inode /\
  (forall u g, u ∈ slots f d inode -> slot_field f (write_inode f d i v) inode u g = slot_field f d inode u g) /\
  (forall name, lookup_slot f (write_inode f d i v) inode name = lookup_slot f d inode name).
Proof.
  intros Hsafe Hi Hv. pose proof (mo_geometry _ _ Hm) as Hgeo. pose proof (do_file _ _ _ Hdir) as Hok.
  pose proof (inode_in_region f i Hgeo Hi) as Hreg.
  assert (Hblk : forall x, 0 <= x -> x <> inode_block f i -> blk f (write_inode f d i v) x = blk f d x).
  { intros x Hx Hne. rewrite write_inode_blk by done. by rewrite decide_False. }
  assert (Hreal : forall k, 0 <= k < block_count f inode -> blk f (write_inode f d i v) (real_block f d inode k) = blk f d (real_block f d inode k)).
  { intros k Hk. pose proof (fo_real _ _ _ Hok k Hk). apply Hblk; [lia|]. intros E.
    apply (fo_region _ _ _ Hok k (RInodes ((i - 1) / sbf f sb_inodes_per_group)) Hk). by rewrite E. }
  assert (Hpath : forall k x, 0 <= k < block_count f inode -> x ∈ index_path f d inode k -> blk f (write_inode f d i v) x = blk f d x).
  { intros k x Hk Hx. pose proof (fo_path _ _ _ Hok k x Hk Hx). apply Hblk; [lia|]. intros ->. by apply (Hsafe k _ _ Hk Hx) in Hreg. }
  destruct (file_ok_ext f d (write_inode f d i v) inode Hok Hpath Hreal) as [Hok' _].
  apply dir_same; [done|]. intros u Hu. unfold slot_block.
  destruct (real_block_ext f d (write_inode f d i v) inode u.1 (fun x => Hpath u.1 x Hu)) as [_ ->]. by apply Hreal.
Qed.

(** The entry [s] gets the inode 0. *)
Section Clear.
Context (s : Z * Z) (Hs : s ∈ slots f d inode).
Definition cleared : list Z := with_block f d inode s.1 (fset (at_ s.2 de_inode) 0 (slot_block f d inode s)).

Lemma cleared_dir_ok : mounted f cleared /\ dir_ok f cleared inode /\ slots f cleared inode = slots f d inode /\
  forall name, lookup_slot f cleared inode name =
    (search (fun _ : unit => fun u => named f d inode name u && bool_decide (u <> s)) (fun a _ => a) tt (slots f d inode)).2.
Proof.
  destruct (slots_range f d inode s Hm Hdir Hs) as (Hok & Hr & Ho). destruct (slot_block_bytes f d inode Hm Hdir s Hr) as [Hz Hb].
  destruct (slot_header f d inode Hm Hdir s Hr Hok) as [Hh _].
  assert (Hfit : fits (at_ s.2 de_inode) (slot_block f d inode s) = true) by (apply slot_fits; try done; simpl; lia).
  set (w := fset (at_ s.2 de_inode) 0 (slot_block f d inode s)).
  assert (Hw : zlen w = block_size f) by (unfold w; by rewrite fset_zlen).
  assert (Hwb : bytes w) by (by apply fset_bytes). unfold cleared. fold w.
  destruct (with_block_mounted f d inode Hm Hdir s.1 w Hr Hw Hwb) as [Hm' Hok'].
  set (d' := with_block f d inode s.1 w) in *.
  assert (Hblk : forall u, u ∈ slots f d inode -> slot_block f d' inode u = if decide (u.1 = s.1) then w else slot_block f d inode u).
  { intros u Hu. destruct (slots_range f d inode u Hm Hdir Hu) as (_ & Hur & _). by apply with_block_slot. }
  assert (Hother : forall u, u ∈ slots f d inode -> u <> s ->
    (forall g, 0 <= f_off g -> f_off g + Z.of_nat (f_size g) <= 8 -> slot_field f d' inode u g = slot_field f d inode u g) /\
    slot_ok f d' inode u /\ (forall name, named f d' inode name u = named f d inode name u)).
  { intros u Hu Hne. destruct (slots_range f d inode u Hm Hdir Hu) as (Huo & Hur & Huo').
    destruct (slot_ext f d inode Hm Hdir d' u Hur Huo' Huo) as (H1 & _ & H2 & H3); [|done].
    rewrite Hblk by done. case_decide as E; [|done]. unfold w, slot_block. rewrite E.
    destruct (slots_disjoint f d inode Hm Hdir u s Hu Hs E) as [?|Hd]; [done|].
    apply slice_fset_ne; [exact Hfit|done|]. simpl. pose proof (slot_header f d inode Hm Hdir s Hr Hok). lia. }
  assert (Hself : forall g, 0 <= f_off g -> apart (at_ s.2 de_inode) (at_ s.2 g) -> slot_field f d' inode s g = slot_field f d inode s g).
  { intros g Hg0 Hg. unfold slot_field. rewrite Hblk by done. rewrite decide_True by done. unfold w.
    apply fget_fset_ne; [done|simpl; lia|done]. }
  assert (Hself0 : slot_field f d' inode s de_inode = 0).
  { unfold slot_field. rewrite Hblk by done. rewrite decide_True by done. unfold w. by apply fget_fset_small. }
  assert (Hslots : slots f d' inode = slots f d inode).
  { apply scan_same. intros u Hu. destruct (decide (u = s)) as [->|Hne]; [apply Hself; [done|unfold apart; simpl; lia]|].
    by apply Hother; [..|simpl; lia]. }
  split; [done|]. split; [|split; [done|]].
  - destruct Hdir as [_ Hmode Hcnt Hsize Hall]. split; try done. rewrite Hslots. apply Forall_forall. intros u Hu.
    destruct (decide (u = s)) as [->|Hne]; [|by apply Hother].
    destruct Hok as [H1 H2]. split; rewrite !Hself by (done || (unfold apart; simpl; lia)); done.
  - intros name. unfold lookup_slot. rewrite Hslots. f_equal. apply search_ext. intros [] u Hu.
    destruct (decide (u = s)) as [->|Hne].
    + rewrite bool_decide_eq_false_2, andb_false_r by auto. unfold named. by rewrite Hself0.
    + rewrite bool_decide_eq_true_2, andb_true_r by done. by apply Hother.
Qed.
End Clear.
End Remove.

Section Unlink.
Context {D X : Type} `{BlockDevice D} `{HeapAllocator X}.
Abbreviation tri := (triple (repr (D := D) (X := X))).
Abbreviation cost := (ha_cost (X := X)).
Implicit Types (d : list Z) (r : Z) (b : gmap Z (list Z)) (s : Z * Z) (f : ext2_filesystem_t) (name : list Z).

(** Block [k] of a file is written from the buffer. *)
Lemma tri_write_file_block d r b f fuel inode i k p w (Q : Z * list Z -> view -> Prop) : mounted f d -> index_geometry f ->
  file_ok f d inode -> 0 <= k < block_count f inode -> 0 < p -> zlen w = block_size f -> bytes w -> cost (block_size f) <= r ->
  b !! p = None ->
  Q (block_size f, inode) (View (with_block f d inode k w) (r - cost (block_size f)) (<[p := w]> b) f) ->
  tri (View d r (<[p := w]> b) f) (ext2_write_inode_block (S fuel) inode i k p) Q.
Proof.
  intros Hm Hig Hok Hk Hp0 Hw Hwb Hr Hp HQ. destruct (count_range f d inode Hm Hig Hok) as [Hcap H32].
  pose proof (bs_range f d Hm) as Hbs. pose proof (fo_real _ _ _ Hok k Hk) as Hreal.
  apply triple_bind. cbn [grow]. apply triple_bind, (tri_file_blocks f d inode Hm Hig). rewrite (proj2 (Z.leb_gt _ _)) by lia.
  apply triple_ret, triple_bind, tri_get_real; [done|done|lia|lia|intros x; by apply (fo_path _ _ _ Hok)|lia|].
  rewrite (proj2 (Z.eqb_neq _ _)) by lia.
  apply triple_bind. eapply tri_write_block; [done|done|apply lookup_insert_eq|done|done|done|].
  apply triple_ret. exact HQ.
Qed.

Lemma tri_clear_direntry d r b f fuel inode s p c dir e (Q : bool -> view -> Prop) : mounted f d -> index_geometry f ->
  dir_ok f d inode -> s ∈ slots f d inode -> b !! p = None -> 0 < p -> zlen c = block_size f -> 2 * cost (block_size f) <= r ->
  (forall c', zlen c' = block_size f -> Q true (View (cleared f d inode s) (r - 2 * cost (block_size f)) (<[p := c']> b) f)) ->
  tri (View d r (<[p := c]> b) f) (clear_direntry (S fuel) p inode (MkSearch e dir s.1 s.2)) Q.
Proof.
  intros Hm Hig Hdir Hs Hp Hp0 Hc Hr HQ. destruct (slots_range f d inode s Hm Hdir Hs) as (Hok & Hsr & Ho).
  destruct (dir_numbers (X := X) f d inode Hm Hdir) as (Hbs & Hcost & Hcnt & H31).
  destruct (slot_block_bytes f d inode Hm Hdir s Hsr) as [Hz Hb]. destruct (slot_header f d inode Hm Hdir s Hsr Hok) as [Hh _].
  assert (Hfit : fits (at_ s.2 de_inode) (slot_block f d inode s) = true) by (apply slot_fits; try done; simpl; lia).
  assert (Hs1 : s.1 < 4294967296) by nia.
  unfold clear_direntry. cbn [block_index block_offset parent_inode].
  apply triple_bind, (tri_read_inode_block f d inode Hm Hig (do_file _ _ _ Hdir)); [done|done|done|done|done|lia|].
  rewrite (proj2 (Z.eqb_neq _ _)) by lia. change (blk f d (real_block f d inode s.1)) with (slot_block f d inode s).
  apply triple_bind. eapply tri_st; [apply lookup_insert_eq|exact Hfit|]. rewrite insert_insert_eq.
  apply triple_bind, tri_write_file_block; [done|done|apply Hdir|done|done|by rewrite fset_zlen|by apply fset_bytes|lia|done|].
  rewrite (proj2 (Z.eqb_neq (block_size f) 0)) by lia. apply triple_ret.
  replace (r - cost (block_size f) - cost (block_size f)) with (r - 2 * cost (block_size f)) by lia.
  apply HQ. by rewrite fset_zlen.
Qed.

Lemma lookup_path_some f d fuel tokens : mounted f d -> forall root sr sr', path_ok f d fuel tokens root -> tokens <> [] ->
  lookup_path f d tokens root sr = (0, sr') ->
  exists dir s, sr' = MkSearch (slot_entry f d (inode_of f d dir) s) dir s.1 s.2 /\ s ∈ slots f d (inode_of f d dir) /\
    valid_inode f dir /\ dir < 4294967296 /\ dir_ok f d (inode_of f d dir) /\ s.2 + DIRENT_SIZE <= block_size f /\
    lookup_slot f d (inode_of f d dir) (List.last tokens []) = Some s.
Proof.
  intros Hm. induction tokens as [|t tokens IH]; intros root sr sr' Hok Hne Hl; [done|]. cbn [lookup_path path_ok] in *.
  destruct Hok as (Hi & Hi32 & Hdir & Hfuel & Hcopy & Hrest).
  destruct (lookup_slot f d (inode_of f d root) t) as [s|] eqn:E; [|done].
  destruct tokens as [|t' tokens].
  - cbn [lookup_path] in Hl. injection Hl as <-. exists root, s.
    destruct (search_some (fun _ : unit => named f d (inode_of f d root) t) (fun a _ => a) _ tt tt s ltac:(rewrite lookup_slot_search, E; done)) as [Hin _].
    done.
  - change (List.last (t :: t' :: tokens) []) with (List.last (t' :: tokens) []). eapply IH; [exact Hrest|done|exact Hl].
Qed.

(** What a removal leaves behind: in the directory [dir] the slot [s] is free, all the
    others are as they were, and the inode it stood for has one link less. *)
Record unlinked f d d' (dir ino : Z) s : Prop := {
  ul_mounted : mounted f d';
  ul_dir : dir_ok f d' (inode_of f d' dir);
  ul_slots : slots f d' (inode_of f d' dir) = slots f d (inode_of f d dir);
  ul_lookup : forall name, lookup_slot f d' (inode_of f d' dir) name =
    (search (fun _ : unit => fun u => named f d (inode_of f d dir) name u && bool_decide (u <> s)) (fun a _ => a) tt
      (slots f d (inode_of f d dir))).2;
  ul_inodes : forall j, valid_inode f j -> inode_of f d' j =
    if decide (j = ino) then fset i_links_count (fget i_links_count (inode_of f d ino) - 1) (inode_of f d ino) else inode_of f d j
}.

(** A block of the directory changes: the inodes are the same, and the index is where
    it was. *)
Lemma with_block_inode f d inode k w j : mounted f d -> dir_ok f d inode -> 0 <= k < block_count f inode -> zlen w = block_size f ->
  valid_inode f j -> inode_of f (with_block f d inode k w) j = inode_of f d j.
Proof.
  intros Hm Hdir Hk Hw Hj. pose proof (mo_geometry _ _ Hm) as Hgeo. pose proof (inode_block_range f j Hgeo Hj).
  pose proof (fo_region _ _ _ (do_file _ _ _ Hdir) k (RInodes ((j - 1) / sbf f sb_inodes_per_group)) Hk) as Hreg.
  unfold inode_of, with_block. rewrite (wb_blk f d inode k w Hm (do_file _ _ _ Hdir) Hk Hw) by lia.
  rewrite decide_False; [done|]. intros E. apply Hreg. rewrite <- E. by apply inode_in_region.
Qed.
Lemma with_block_safe f d inode k w : mounted f d -> dir_ok f d inode -> 0 <= k < block_count f inode -> zlen w = block_size f ->
  index_safe f d inode -> index_safe f (with_block f d inode k w) inode.
Proof.
  intros Hm Hdir Hk Hw Hsafe j x R Hj. unfold with_block.
  destruct (wb_same f d inode k w Hm (do_file _ _ _ Hdir) Hk Hw j Hj) as [-> _]. by apply Hsafe.
Qed.

Lemma cleared_zlen f d inode s : mounted f d -> dir_ok f d inode -> s ∈ slots f d inode ->
  0 <= s.1 < block_count f inode /\ zlen (fset (at_ s.2 de_inode) 0 (slot_block f d inode s)) = block_size f.
Proof.
  intros Hm Hdir Hs. destruct (slots_range f d inode s Hm Hdir Hs) as (Hok & Hsr & Ho).
  destruct (slot_block_bytes f d inode Hm Hdir s Hsr) as [Hz _]. destruct (slot_header f d inode Hm Hdir s Hsr Hok) as [Hh _].
  split; [done|]. rewrite fset_zlen; [done|]. apply slot_fits; try done. simpl. lia.
Qed.
Lemma cleared_inode f d inode s j : mounted f d -> dir_ok f d inode -> s ∈ slots f d inode -> valid_inode f j ->
  inode_of f (cleared f d inode s) j = inode_of f d j.
Proof. intros Hm Hdir Hs. destruct (cleared_zlen f d inode s Hm Hdir Hs). by apply with_block_inode. Qed.
Lemma cleared_safe f d inode s : mounted f d -> dir_ok f d inode -> s ∈ slots f d inode -> index_safe f d inode ->
  index_safe f (cleared f d inode s) inode.
Proof. intros Hm Hdir Hs. destruct (cleared_zlen f d inode s Hm Hdir Hs). by apply with_block_safe. Qed.

(** The whole of the removal on the disk: the slot is cleared and the link taken. *)
Lemma unlinked_ok f d dir ino s : mounted f d -> valid_inode f dir -> valid_inode f ino -> dir <> ino ->
  let inode := inode_of f d dir in let links := fget i_links_count (inode_of f d ino) in
  dir_ok f d inode -> index_safe f d inode -> s ∈ slots f d inode -> 
  unlinked f d (write_inode f (cleared f d inode s) ino (fset i_links_count (links - 1) (inode_of f d ino))) dir ino s.
Proof.
  intros Hm Hdv Hiv Hne inode links Hdir Hsafe Hs.
  destruct (cleared_dir_ok f d inode Hm Hdir s Hs) as (Hm1 & Hdir1 & Hsl1 & Hlk1).
  pose proof (cleared_safe f d inode s Hm Hdir Hs Hsafe) as Hsafe1.
  pose proof (inode_of_zlen f d ino Hm Hiv) as Hz. pose proof (inode_of_bytes f d ino Hm) as Hb.
  assert (Hfit : fits i_links_count (inode_of f d ino) = true) by (apply fits_spec; rewrite Hz; unfold INODE_SIZE; simpl; lia).
  set (v := fset i_links_count (links - 1) (inode_of f d ino)).
  assert (Hv : zlen v = INODE_SIZE) by (unfold v; by rewrite fset_zlen).
  assert (Hvb : bytes v) by (by apply fset_bytes).
  destruct (write_inode_dir f _ inode Hm1 Hdir1 ino v Hsafe1 Hiv Hv) as (Hdir2 & Hsl2 & _ & Hlk2).
  assert (Hino : forall j, valid_inode f j -> inode_of f (write_inode f (cleared f d inode s) ino v) j = if decide (j = ino) then v else inode_of f d j).
  { intros j Hj. rewrite inode_of_write by done. case_decide; [done|]. by apply cleared_inode. }
  assert (Hself : inode_of f (write_inode f (cleared f d inode s) ino v) dir = inode) by (rewrite Hino by done; by rewrite decide_False).
  split; rewrite ?Hself.
  - by apply write_inode_mounted.
  - done.
  - by rewrite Hsl2.
  - intros name. by rewrite Hlk2, Hlk1.
  - exact Hino.
Qed.

(** C15: unlinking a path takes exactly its entry out of the directory that holds it: the
    slot is free afterwards, every other name is found where it was, and the inode
    has one link less; the directory is well-formed again. No buffer is left over,
    and neither the inode nor its blocks are given back when the last link goes. The
    path leads to an entry and is not /, its length and terminator do not fill a
    multiple of 16 bytes ([strdup_overflow]); the entry is of another inode than the
    directory's own, that inode has a link, and the index blocks of the directory do
    not lie in the file system's own blocks. The file system has
    blocks of at least 4 KiB, the directories that are searched are well-formed
    ([dir_ok]) and shorter than the fuel, the names have no byte 0, the heap has room
    for the buffers, and an entry that is found has to end, with the 264 bytes the code
    copies, inside its block ([copyable]; [find_reads_behind_cache] shows the other case). *)
Theorem ext2_unlink_correct st d r b f fuel root path sr : repr st (View d r b f) -> mounted f d -> index_geometry f ->
  is_name path -> path <> [47] -> (zlen path + 1) mod 16 <> 0 -> zlen path < 65535 ->
  let tokens := CString.words {[47]} path in
  let room := path_room f d tokens root + cost (zlen path + 1) + 6 * cost (block_size f) in
  path_ok f d (S fuel) tokens root -> tokens <> [] ->
  lookup_path f d tokens root (MkSearch (zeros DIRENT_SIZE) 0 0 0) = (0, sr) ->
  let dir := parent_inode sr in let s := (block_index sr, block_offset sr) in
  let ino := slot_field f d (inode_of f d dir) s de_inode in
  index_safe f d (inode_of f d dir) -> valid_inode f ino -> ino < 4294967296 -> dir <> ino ->
  0 < fget i_links_count (inode_of f d ino) -> room <= r ->
  ext2_unlink (S fuel) root path ~{ st }~>! FFatal \/
  exists st' d', ext2_unlink (S fuel) root path ~{ st }~> 0; st' /\ repr st' (View d' (r - room) b f) /\ unlinked f d d' dir ino s.
Proof.
  intros Hrepr Hm Hig Hname Hne H16 Hlen tokens room Hok Hnil Hl dir s ino Hsafe Hiv Hi32 Hdi Hlinks Hr.
  destruct (lookup_path_some f d (S fuel) tokens Hm root _ _ Hok Hnil Hl) as (dir0 & s0 & Hsr & Hin & Hdv & Hd32 & Hdir & Hcp & _).
  assert (Hdir0 : dir = dir0) by (unfold dir; by rewrite Hsr). assert (Hs0 : s = s0) by (unfold s; rewrite Hsr; by destruct s0).
  rewrite <- Hdir0 in Hdv, Hd32, Hdir, Hin, Hsr. rewrite <- Hs0 in Hin, Hcp, Hsr.
  clearbody dir s. clear dir0 s0 Hdir0 Hs0. set (inode := inode_of f d dir) in *.
  destruct (dir_numbers (X := X) f d inode Hm Hdir) as (Hbs & Hcost & Hcnt & H31).
  destruct (slots_range f d inode s Hm Hdir Hin) as (Hso & Hsb & Hs2).
  pose proof (zlen_nonneg path) as Hz0. pose proof (path_room_nonneg (X := X) f d tokens root _ Hm Hok) as Hpr.
  assert (Hc1 : 0 <= cost (zlen path + 1)) by (apply ha_cost_law; lia).
  pose proof (unlinked_ok f d dir ino s Hm Hdv Hiv Hdi Hdir Hsafe Hin) as Hul. cbv zeta in Hul. fold inode in Hul.
  set (v := fset i_links_count (fget i_links_count (inode_of f d ino) - 1) (inode_of f d ino)) in *.
  pose proof (inode_of_zlen f d ino Hm Hiv) as Hzi. pose proof (inode_of_bytes f d ino Hm) as Hbi.
  assert (Hfit : fits i_links_count (inode_of f d ino) = true) by (apply fits_spec; rewrite Hzi; unfold INODE_SIZE; simpl; lia).
  assert (Htri : tri (View d r b f) (ext2_unlink (S fuel) root path) (fun y v' =>
    y = 0 /\ v' = View (write_inode f (cleared f d inode s) ino v) (r - room) b f)).
  { apply triple_bind, tri_resolve_path; [done..|fold tokens; lia|]. fold tokens. rewrite Hl. cbn [negb]. change (0 =? 0) with true. cbn [negb].
    rewrite Hsr. cbn [parent_inode direntry]. fold inode.
    apply triple_bind, tri_read_inode; [done|done|done|lia|]. fold inode.
    apply triple_bind, tri_fs, triple_bind, tri_new_cache; [lia|lia|]. intros p Hp Hp0.
    apply triple_bind, tri_clear_direntry; [done|done|done|done|done|done|apply zeros_zlen; lia|lia|]. intros c Hc. cbn [negb].
    rewrite slot_entry_field by (done || (simpl; lia)). fold ino.
    destruct (cleared_dir_ok f d inode Hm Hdir s Hin) as (Hm1 & _).
    apply triple_bind, triple_bind, tri_read_inode; [done|done|done|lia|]. rewrite cleared_inode by done.
    unfold drop_link. rewrite (proj2 (Z.ltb_lt _ _)) by done.
    apply triple_bind, tri_write_inode; [done|done|done|by rewrite fset_zlen|by apply fset_bytes|lia|]. fold v.
    change (0 =? -1) with false. apply triple_ret, tri_free_new; [done|]. apply triple_ret. split; [done|]. f_equal. unfold room. lia. }
  destruct (triple_run _ _ _ _ st Htri Hrepr) as [?|(y & st' & v' & Hrun & Hs' & -> & ->)]; [by left|right].
  by exists st', (write_inode f (cleared f d inode s) ino v).
Qed.
End Unlink.

(** ** Removing a directory *)
Section Rmdir.
Context {D X : Type} `{BlockDevice D} `{HeapAllocator X}.
Abbreviation tri := (triple (repr (D := D) (X := X))).
Abbreviation cost := (ha_cost (X := X)).
Implicit Types (d : list Z) (r : Z) (b : gmap Z (list Z)) (s : Z * Z) (f : ext2_filesystem_t).

Definition in_use f d inode (_ : bool) s : bool := negb (slot_field f d inode s de_inode =? 0).

Lemma tri_directory_is_empty d r0 b f fuel inode p c (Q : bool -> view -> Prop) : mounted f d -> index_geometry f -> dir_ok f d inode ->
  b !! p = None -> 0 < p -> 0 <= r0 -> zlen c = block_size f -> (length (slots f d inode) < fuel)%nat ->
  (forall c', zlen c' = block_size f ->
     Q (forallb (fun s => slot_field f d inode s de_inode =? 0) (slots f d inode)) (View d r0 (<[p := c']> b) f)) ->
  tri (View d (r0 + block_count f inode * cost (block_size f)) (<[p := c]> b) f) (ext2_directory_is_empty fuel p inode) Q.
Proof.
  intros Hm Hig Hdir Hp Hp0 Hr0 Hc Hfuel HQ. destruct (dir_numbers (X := X) f d inode Hm Hdir) as (Hbs & Hcost & Hcnt & H31).
  pose proof (do_file _ _ _ Hdir) as Hok.
  assert (Hbody : forall (a : bool) s r (Q : bool * ext2_direntry_iterator_t * bool -> view -> Prop), 0 <= s.1 < block_count f inode -> 0 <= s.2 -> slot_ok f d inode s ->
    Q (if slot_field f d inode s de_inode =? 0 then (a, at_slot f s, false) else (false, at_slot f s, true)) (View d r (<[p := slot_block f d inode s]> b) f) ->
    tri (View d r (<[p := slot_block f d inode s]> b) f)
      (ino ← ld p (de (at_slot f s) de_inode); mret (if ino =? 0 then (a, at_slot f s, false) else (false, at_slot f s, true))) Q).
  { intros a s r Q' Hs Ho Hso HQ'. apply triple_bind, (tri_slot_ld f d inode Hm Hdir); [done|done|done|done|done|]. by apply triple_ret. }
  unfold ext2_directory_is_empty. eapply (tri_walk_all d r0 b f inode p _ (in_use f d inode) (fun a _ => a)); try done.
  { intros a s r Hs Ho Hso HP. apply Hbody; [done..|]. unfold in_use in HP. apply negb_false_iff in HP. by rewrite HP. }
  assert (Hsearch : forall l a, search (in_use f d inode) (fun a _ => a) a l = (a, list_find (fun s => slot_field f d inode s de_inode <> 0) l ≫= fun x => Some x.2)).
  { induction l as [|s l IH]; intros a; [done|]. cbn [search list_find]. unfold in_use at 1.
    destruct (Z.eqb_spec (slot_field f d inode s de_inode) 0) as [E|E]; cbn [negb].
    - rewrite decide_False by (by intros ?). rewrite IH. by destruct (list_find _ l) as [[]|].
    - by rewrite decide_True by done. }
  rewrite Hsearch. destruct (list_find _ (slots f d inode)) as [[i s]|] eqn:E; cbn [mbind option_bind snd].
  - apply list_find_Some in E as (Hi & Hne & _). apply list_elem_of_lookup_2 in Hi.
    destruct (slots_range f d inode s Hm Hdir Hi) as (Hso & Hs & Ho). destruct (slot_block_bytes f d inode Hm Hdir s Hs) as [Hz _].
    apply Hbody; [done..|]. rewrite (proj2 (Z.eqb_neq _ _)) by done. split; [done|]. cbn [fst]. apply triple_ret.
    replace false with (forallb (fun s => slot_field f d inode s de_inode =? 0) (slots f d inode)); [by apply HQ|].
    apply not_true_is_false. rewrite forallb_forall. intros Hall. specialize (Hall s ltac:(by apply list_elem_of_In)). lia.
  - apply list_find_None in E. cbn [fst]. apply triple_ret.
    replace true with (forallb (fun s => slot_field f d inode s de_inode =? 0) (slots f d inode)).
    + apply HQ. apply slot_block_bytes; [done|done|cbn; lia].
    + apply forallb_forall. intros s Hs. apply list_elem_of_In in Hs. rewrite Forall_forall in E. specialize (E s Hs).
      apply Z.eqb_eq. destruct (decide (slot_field f d inode s de_inode = 0)); [done|]. by exfalso; apply E.
Qed.

(** C39: ext2_rmdir answers -ENOTEMPTY for a directory that holds an entry in use other
    than . and .., and changes nothing on the disk; no buffer is left over. The path
    leads to the directory and is not /, its length and terminator do not fill a
    multiple of 16 bytes ([strdup_overflow]). The file system has
    blocks of at least 4 KiB, the directories that are searched are well-formed
    ([dir_ok]) and shorter than the fuel, the names have no byte 0, the heap has room
    for the buffers, and an entry that is found has to end, with the 264 bytes the code
    copies, inside its block ([copyable]; [find_reads_behind_cache] shows the other case). *)
Theorem ext2_rmdir_refuses st d r b f fuel root path sr e : repr st (View d r b f) -> mounted f d -> index_geometry f ->
  is_name path -> path <> [47] -> (zlen path + 1) mod 16 <> 0 -> zlen path < 65535 ->
  let tokens := CString.words {[47]} path in
  path_ok f d fuel tokens root -> tokens <> [] ->
  lookup_path f d tokens root (MkSearch (zeros DIRENT_SIZE) 0 0 0) = (0, sr) ->
  let parent := inode_of f d (parent_inode sr) in
  let ino := slot_field f d parent (block_index sr, block_offset sr) de_inode in let inode := inode_of f d ino in
  let room := path_room f d tokens root + cost (zlen path + 1) + (block_count f inode + 3) * cost (block_size f) in
  valid_inode f ino -> ino < 4294967296 -> dir_ok f d inode -> (length (slots f d inode) < fuel)%nat ->
  e ∈ slots f d inode -> slot_field f d inode e de_inode <> 0 -> slot_name f d inode e ∉ [[46]; [46; 46]] -> room <= r ->
  ext2_rmdir fuel root path ~{ st }~>! FFatal \/
  exists st', ext2_rmdir fuel root path ~{ st }~> - ENOTEMPTY; st' /\ repr st' (View d (r - room) b f).
Proof.
  intros Hrepr Hm Hig Hname Hne H16 Hlen tokens Hok Hnil Hl parent ino inode room Hiv Hi32 Hdir Hfuel He Hused _ Hr.
  destruct (lookup_path_some f d fuel tokens Hm root _ _ Hok Hnil Hl) as (dir & s & Hsr & Hin & Hdv & Hd32 & Hpd & Hcp & _).
  assert (Hp1 : parent = inode_of f d dir) by (unfold parent; by rewrite Hsr).
  assert (Hi1 : ino = slot_field f d (inode_of f d dir) s de_inode) by (unfold ino; rewrite Hp1, Hsr; by destruct s).
  clearbody ino. clear parent Hp1.
  destruct (slots_range f d _ s Hm Hpd Hin) as (Hso & Hsb & Hs2).
  destruct (dir_numbers (X := X) f d inode Hm Hdir) as (Hbs & Hcost & Hcnt & H31).
  pose proof (zlen_nonneg path) as Hz0. pose proof (path_room_nonneg (X := X) f d tokens root _ Hm Hok) as Hpr.
  assert (Hc1 : 0 <= cost (zlen path + 1)) by (apply ha_cost_law; lia).
  assert (Hbc : 0 <= block_count f inode * cost (block_size f)) by (apply Z.mul_nonneg_nonneg; lia).
  assert (Htri : tri (View d r b f) (ext2_rmdir fuel root path) (fun y v' => y = - ENOTEMPTY /\ v' = View d (r - room) b f)).
  { apply triple_bind, tri_resolve_path; [done..|fold tokens; lia|]. fold tokens. rewrite Hl, Hsr. change (negb (0 =? 0)) with false. cbn iota.
    cbn [parent_inode direntry]. apply triple_bind, tri_read_inode; [done|done|done|lia|].
    apply triple_bind, tri_fs, triple_bind, tri_new_cache; [lia|lia|]. intros p Hp Hp0.
    rewrite slot_entry_field by (done || (simpl; lia)). rewrite <- Hi1.
    apply triple_bind, triple_bind, tri_read_inode; [done|done|done|lia|]. fold inode. apply triple_bind.
    replace (r - _ - _ - _ - _) with (r - room + block_count f inode * cost (block_size f)) by (unfold room; lia).
    apply tri_directory_is_empty; [done|done|done|done|done|lia|apply zeros_zlen; lia|done|]. intros c Hc.
    replace (forallb _ (slots f d inode)) with false.
    - apply triple_ret, tri_free_new; [done|]. by apply triple_ret.
    - symmetry. apply not_true_is_false. rewrite forallb_forall. intros Hall. specialize (Hall e ltac:(by apply list_elem_of_In)). lia. }
  destruct (triple_run _ _ _ _ st Htri Hrepr) as [?|(y & st' & v' & Hrun & Hs' & -> & ->)]; [by left|right]. by exists st'.
Qed.
End Rmdir.

(** ** Adding an entry *)
Lemma rec_len_range n : 0 <= n <= 255 -> 9 + n <= ext2_get_rec_len n <= 12 + n /\ 12 <= ext2_get_rec_len n.
Proof.
  intros Hn. unfold ext2_get_rec_len. change (DIRENT_SIZE + n - EXT2_NAME_LEN) with (264 + n - 255). rewrite (u32_small (264 + n - 255)) by lia.
  pose proof (Z.mod_pos_bound (264 + n - 255) 4 ltac:(lia)) as Hr. pose proof (Z.div_mod (264 + n - 255) 4 ltac:(lia)).
  destruct (Z.eqb_spec ((264 + n - 255) mod 4) 0); rewrite u32_small by lia; lia.
Qed.

Section Add.
Implicit Types (s u : Z * Z) (name : list Z).
Context (f : ext2_filesystem_t) (d inode : list Z).
Context (Hm : mounted f d) (Hdir : dir_ok f d inode).
Let bs := block_size f.

(** The slots after a slot has been added at the end, and lookups in them. *)
Lemma search_app p l u : (search (fun _ : unit => p) (fun a (_ : Z * Z) => a) tt (l ++ [u])).2 =
  match (search (fun _ : unit => p) (fun a (_ : Z * Z) => a) tt l).2 with
  | Some v => Some v | None => if p u then Some u else None
  end.
Proof. induction l as [|v l IH]; cbn [search app]; [by destruct (p u)|]. by destruct (p v). Qed.
Lemma search_misses (p : Z * Z -> bool) l : (search (fun _ : unit => p) (fun a (_ : Z * Z) => a) tt l).2 = None <-> forall u, u ∈ l -> p u = false.
Proof.
  induction l as [|v l IH]; cbn [search]; [split; [intros _ u Hu; by apply elem_of_nil in Hu|done]|].
  destruct (p v) eqn:E; split.
  - done.
  - intros Hall. specialize (Hall v ltac:(by left)). congruence.
  - intros Hn u [->|Hu]%elem_of_cons; [done|]. by apply IH.
  - intros Hall. apply IH. intros u Hu. apply Hall. by right.
Qed.
Lemma search_one (p : Z * Z -> bool) l s : s ∈ l -> p s = true -> (forall u, u ∈ l -> u <> s -> p u = false) ->
  (search (fun _ : unit => p) (fun a (_ : Z * Z) => a) tt l).2 = Some s.
Proof.
  intros Hs Hp Hall. induction l as [|v l IH]; [by apply elem_of_nil in Hs|]. cbn [search].
  destruct (decide (v = s)) as [->|Hne]; [by rewrite Hp|]. rewrite (Hall v) by (by left || done).
  apply IH; [|intros u Hu; apply Hall; by right]. by apply elem_of_cons in Hs as [?|?].
Qed.

(** [name] stands for [ino] in the directory, and the other names for what they stood
    for. *)
Record entry_added d' name (ino file_type : Z) s' : Prop := {
  ea_mounted : mounted f d';
  ea_dir : dir_ok f d' inode;
  ea_lookup : lookup_slot f d' inode name = Some s';
  ea_inode : slot_field f d' inode s' de_inode = ino;
  ea_type : slot_field f d' inode s' de_file_type = file_type;
  ea_other : forall n, n <> name -> n <> [47] -> lookup_slot f d' inode n = lookup_slot f d inode n
}.

Context (name : list Z) (ino file_type : Z).
Context (Hname : bytes name) (Hlen : 0 < zlen name <= 255) (Hino : 0 < ino < 4294967296) (Htype : 0 <= file_type < 256).
Context (Hnew : lookup_slot f d inode name = None).

Lemma fget_splice_ne g off v l : 0 <= off -> off + zlen v <= zlen l -> 0 <= f_off g ->
  f_off g + Z.of_nat (f_size g) <= off \/ off + zlen v <= f_off g -> fget g (splice off v l) = fget g l.
Proof. intros. unfold fget. by rewrite slice_splice_ne. Qed.

(** *** In a free slot *)
Section Reuse.
Context (s : Z * Z) (Hs : s ∈ slots f d inode).
Context (Hfree : slot_field f d inode s de_inode = 0) (Hroom : de_name + zlen name <= slot_field f d inode s de_rec_len).
Let c0 := slot_block f d inode s.
Let old := slot_field f d inode s de_name_len.
Definition reused : list Z :=
  fset (at_ s.2 de_file_type) file_type (splice (s.2 + de_name) name
    (fset (at_ s.2 de_name_len) (zlen name) (fset (at_ s.2 de_inode) ino (splice (s.2 + de_name) (zeros old) c0)))).


Lemma reused_facts : zlen reused = bs /\ bytes reused /\
  (forall a n, 0 <= a -> a + n <= s.2 \/ s.2 + slot_field f d inode s de_rec_len <= a -> slice a n reused = slice a n c0) /\
  fget (at_ s.2 de_rec_len) reused = slot_field f d inode s de_rec_len /\ fget (at_ s.2 de_inode) reused = ino /\
  fget (at_ s.2 de_name_len) reused = zlen name /\ fget (at_ s.2 de_file_type) reused = file_type /\
  slice (s.2 + de_name) (zlen name) reused = name.
Proof.
  destruct (slots_range f d inode s Hm Hdir Hs) as (Hok & Hr & Ho). destruct (slot_block_bytes f d inode Hm Hdir s Hr) as [Hz Hb].
  destruct (slot_header f d inode Hm Hdir s Hr Hok) as [Hh Hrec]. destruct Hok as [H1 H2].
  pose proof (slot_field_nonneg f d inode Hm Hdir s de_name_len Hr) as Hl. fold old c0 in H1, Hz, Hb, Hl. fold bs in H2, Hh, Hz. unfold de_name in *.
  assert (Hzo : zlen (zeros old) = old) by (apply zeros_zlen; lia).
  assert (Hfit : forall c g, zlen c = bs -> 0 <= f_off g -> f_off g + Z.of_nat (f_size g) <= 8 -> fits (at_ s.2 g) c = true).
  { intros c g Hc Hg Hg8. apply fits_spec. simpl. lia. }
  unfold reused, de_name. set (c1 := splice (s.2 + 8) (zeros old) c0).
  assert (Hc1 : zlen c1 = bs) by (unfold c1; rewrite splice_zlen; lia).
  set (c2 := fset (at_ s.2 de_inode) ino c1). assert (Hc2 : zlen c2 = bs) by (unfold c2; rewrite fset_zlen; [done|by apply Hfit]).
  set (c3 := fset (at_ s.2 de_name_len) (zlen name) c2). assert (Hc3 : zlen c3 = bs) by (unfold c3; rewrite fset_zlen; [done|by apply Hfit]).
  set (c4 := splice (s.2 + 8) name c3). assert (Hc4 : zlen c4 = bs) by (unfold c4; rewrite splice_zlen; lia).
  split_and!.
  - rewrite fset_zlen; [done|by apply Hfit].
  - apply fset_bytes, splice_bytes; [|done]. apply fset_bytes, fset_bytes, splice_bytes; [done|apply zeros_bytes].
  - intros a n Ha Hdisj.
    rewrite (slice_fset_ne (at_ s.2 de_file_type)) by (try (by apply Hfit); simpl; lia). unfold c4. rewrite slice_splice_ne by lia.
    unfold c3. rewrite (slice_fset_ne (at_ s.2 de_name_len)) by (try (by apply Hfit); simpl; lia).
    unfold c2. rewrite (slice_fset_ne (at_ s.2 de_inode)) by (try (by apply Hfit); simpl; lia). unfold c1. rewrite slice_splice_ne by lia. done.
  - rewrite fget_fset_ne by (try (by apply Hfit); unfold apart; simpl; lia). unfold c4. rewrite fget_splice_ne by (simpl; lia).
    unfold c3. rewrite fget_fset_ne by (try (by apply Hfit); unfold apart; simpl; lia).
    unfold c2. rewrite fget_fset_ne by (try (by apply Hfit); unfold apart; simpl; lia). unfold c1. by rewrite fget_splice_ne by (simpl; lia).
  - rewrite fget_fset_ne by (try (by apply Hfit); unfold apart; simpl; lia). unfold c4. rewrite fget_splice_ne by (simpl; lia).
    unfold c3. rewrite fget_fset_ne by (try (by apply Hfit); unfold apart; simpl; lia).
    unfold c2. apply fget_fset_small; [by apply Hfit|]. change (fmax (at_ s.2 de_inode)) with 4294967296. lia.
  - rewrite fget_fset_ne by (try (by apply Hfit); unfold apart; simpl; lia). unfold c4. rewrite fget_splice_ne by (simpl; lia).
    unfold c3. apply fget_fset_small; [by apply Hfit|]. change (fmax (at_ s.2 de_name_len)) with 256. lia.
  - apply fget_fset_small; [by apply Hfit|]. change (fmax (at_ s.2 de_file_type)) with 256. lia.
  - rewrite (slice_fset_ne (at_ s.2 de_file_type)) by (try (by apply Hfit); simpl; lia). unfold c4. apply slice_splice_eq; lia.
Qed.

Lemma reused_ok : entry_added (with_block f d inode s.1 reused) name ino file_type s.
Proof.
  destruct reused_facts as (Hz & Hb & Hout & Hrec & Hfi & Hfn & Hft & Hfname).
  destruct (slots_range f d inode s Hm Hdir Hs) as (Hok & Hr & Ho).
  destruct (with_block_mounted f d inode Hm Hdir s.1 reused Hr Hz Hb) as [Hm' Hok'].
  set (d' := with_block f d inode s.1 reused) in *.
  assert (Hself : slot_block f d' inode s = reused).
  { unfold d'. rewrite (with_block_slot f d inode Hm Hdir s.1 reused Hr Hz s Hr). by rewrite decide_True. }
  assert (Hother : forall u, u ∈ slots f d inode -> u <> s ->
    (forall g, 0 <= f_off g -> f_off g + Z.of_nat (f_size g) <= 8 -> slot_field f d' inode u g = slot_field f d inode u g) /\
    slot_ok f d' inode u /\ (forall n, named f d' inode n u = named f d inode n u)).
  { intros u Hu Hne. destruct (slots_range f d inode u Hm Hdir Hu) as (Huo & Hur & Huo').
    destruct (slot_ext f d inode Hm Hdir d' u Hur Huo' Huo) as (H1 & _ & H2 & H3); [|done].
    apply with_block_same; [done..|]. intros E. destruct (slots_disjoint f d inode Hm Hdir u s Hu Hs E) as [?|Hdj]; [done|].
    rewrite Hout by (done || lia). unfold c0, slot_block. done. }
  assert (Hslots : slots f d' inode = slots f d inode).
  { apply scan_same. intros u Hu. destruct (decide (u = s)) as [->|Hne]; [unfold slot_field; by rewrite Hself, Hrec|].
    by apply Hother; [..|simpl; lia]. }
  assert (Hnamed : forall n, n <> [47] -> named f d' inode n s = bool_decide (n = name)).
  { intros n Hn. unfold named, slot_name, slot_field. rewrite Hself, Hfi, Hfn, Hfname. rewrite (proj2 (Z.eqb_neq ino 0)) by lia.
    rewrite (bool_decide_eq_false_2 (n = [47])), andb_false_r by done. cbn [negb andb orb]. apply bool_decide_ext. split; by intros ->. }
  assert (Hold : forall n, named f d inode n s = false) by (intros n; unfold named; by rewrite Hfree).
  assert (Hnone : forall u, u ∈ slots f d inode -> named f d inode name u = false) by (by apply search_misses).
  split; try done.
  - destruct Hdir as [_ Hmode Hcnt Hsize Hall]. split; try done. rewrite Hslots. apply Forall_forall. intros u Hu.
    destruct (decide (u = s)) as [->|Hne]; [|by apply Hother].
    split; unfold slot_field; rewrite Hself, Hrec, ?Hfn; [|apply Hok]. 
    destruct Hok as [H1 _]. unfold de_name in *. lia.
  - unfold lookup_slot. rewrite Hslots. apply search_one; [done| |].
    + unfold named, slot_name, slot_field. rewrite Hself, Hfi, Hfn, Hfname. rewrite (proj2 (Z.eqb_neq ino 0)) by lia.
      rewrite (bool_decide_eq_true_2 (name = name)) by done. by rewrite orb_true_r.
    + intros u Hu Hne. destruct (Hother u Hu Hne) as (_ & _ & ->). by apply Hnone.
  - unfold slot_field. by rewrite Hself.
  - unfold slot_field. by rewrite Hself.
  - intros n Hn Hn47. unfold lookup_slot. rewrite Hslots. f_equal. apply search_ext. intros [] u Hu.
    destruct (decide (u = s)) as [->|Hne]; [|by apply Hother].
    by rewrite Hnamed, Hold, bool_decide_eq_false_2.
Qed.
End Reuse.

(** *** Behind the last entry, which is cut to its length *)
Section Append.
Context (s : Z * Z) (Hs : s ∈ slots f d inode).
Let c0 := slot_block f d inode s.
Let real := ext2_get_rec_len (slot_field f d inode s de_name_len).
Let o := s.2 + real.
Context (Hlast : s.1 = block_count f inode - 1) (Hend : s.2 + slot_field f d inode s de_rec_len = bs).
Context (Hroom : o + ext2_get_rec_len (zlen name) < bs).
Definition appended : list Z :=
  splice (o + de_name) name (fset (at_ o de_file_type) file_type (fset (at_ o de_name_len) (zlen name)
    (fset (at_ o de_rec_len) (bs - o) (fset (at_ o de_inode) ino (fset (at_ s.2 de_rec_len) real c0))))).

Lemma append_numbers : 0 <= s.2 /\ 12 <= real <= 267 /\ slot_field f d inode s de_name_len + 9 <= real /\
  o + 9 + zlen name <= bs /\ o + 12 < bs /\ 0 <= slot_field f d inode s de_name_len /\ 4096 <= bs <= 32768.
Proof.
  destruct (slots_range f d inode s Hm Hdir Hs) as (Hok & Hr & Ho). destruct (slot_header f d inode Hm Hdir s Hr Hok) as [Hh _].
  assert (Hle : s.2 + f_off de_name_len + Z.of_nat (f_size de_name_len) <= block_size f) by (simpl; lia).
  pose proof (slot_field_range f d inode Hm Hdir s de_name_len Hr ltac:(done) Ho Hle) as Hl.
  change (fmax de_name_len) with 256 in Hl. destruct (rec_len_range (slot_field f d inode s de_name_len) ltac:(lia)) as [H1 H2].
  destruct (rec_len_range (zlen name) ltac:(lia)) as [H3 H4]. pose proof (bs_range f d Hm) as Hbs. fold real in H1, H2. fold bs in Hbs. lia.
Qed.

Lemma appended_facts : zlen appended = bs /\ bytes appended /\
  (forall a n, 0 <= a -> a + n <= o -> a + n <= s.2 + 4 \/ s.2 + 6 <= a -> slice a n appended = slice a n c0) /\
  fget (at_ s.2 de_rec_len) appended = real /\ fget (at_ o de_rec_len) appended = bs - o /\ fget (at_ o de_inode) appended = ino /\
  fget (at_ o de_name_len) appended = zlen name /\ fget (at_ o de_file_type) appended = file_type /\
  slice (o + de_name) (zlen name) appended = name.
Proof.
  destruct append_numbers as (Ho & Hreal & Hln & Hn & Ho12 & Hl0 & Hbs). destruct (slots_range f d inode s Hm Hdir Hs) as (Hok & Hr & _).
  destruct (slot_block_bytes f d inode Hm Hdir s Hr) as [Hz Hb]. fold c0 bs in Hz, Hb.
  assert (Hoe : o = s.2 + real) by done. clearbody o real. unfold appended, de_name.
  assert (Hfit : forall c q g, zlen c = bs -> 0 <= q -> q + 12 <= bs -> 0 <= f_off g -> f_off g + Z.of_nat (f_size g) <= 8 -> fits (at_ q g) c = true).
  { intros c q g Hc Hq Hq12 Hg Hg8. apply fits_spec. simpl. lia. }
  set (c1 := fset (at_ s.2 de_rec_len) real c0). assert (Hc1 : zlen c1 = bs) by (unfold c1; rewrite fset_zlen; [done|apply Hfit; done || lia]).
  set (c2 := fset (at_ o de_inode) ino c1). assert (Hc2 : zlen c2 = bs) by (unfold c2; rewrite fset_zlen; [done|apply Hfit; done || lia]).
  set (c3 := fset (at_ o de_rec_len) (bs - o) c2). assert (Hc3 : zlen c3 = bs) by (unfold c3; rewrite fset_zlen; [done|apply Hfit; done || lia]).
  set (c4 := fset (at_ o de_name_len) (zlen name) c3). assert (Hc4 : zlen c4 = bs) by (unfold c4; rewrite fset_zlen; [done|apply Hfit; done || lia]).
  set (c5 := fset (at_ o de_file_type) file_type c4). assert (Hc5 : zlen c5 = bs) by (unfold c5; rewrite fset_zlen; [done|apply Hfit; done || lia]).
  assert (F1 : fits (at_ s.2 de_rec_len) c0 = true) by (apply Hfit; done || lia).
  assert (F2 : fits (at_ o de_inode) c1 = true) by (apply Hfit; done || lia).
  assert (F3 : fits (at_ o de_rec_len) c2 = true) by (apply Hfit; done || lia).
  assert (F4 : fits (at_ o de_name_len) c3 = true) by (apply Hfit; done || lia).
  assert (F5 : fits (at_ o de_file_type) c4 = true) by (apply Hfit; done || lia). clear Hfit.
  split_and!.
  - rewrite splice_zlen; lia.
  - apply splice_bytes; [|done]. by do 5 apply fset_bytes.
  - intros a n Ha Han Hdisj. rewrite slice_splice_ne by lia. unfold c5. rewrite slice_fset_ne by (done || (simpl; lia)).
    unfold c4. rewrite slice_fset_ne by (done || (simpl; lia)). unfold c3. rewrite slice_fset_ne by (done || (simpl; lia)).
    unfold c2. rewrite slice_fset_ne by (done || (simpl; lia)). unfold c1. by rewrite slice_fset_ne by (done || (simpl; lia)).
  - rewrite fget_splice_ne by (simpl; lia). unfold c5. rewrite fget_fset_ne by (done || (unfold apart; simpl; lia)).
    unfold c4. rewrite fget_fset_ne by (done || (unfold apart; simpl; lia)). unfold c3. rewrite fget_fset_ne by (done || (unfold apart; simpl; lia)).
    unfold c2. rewrite fget_fset_ne by (done || (unfold apart; simpl; lia)). unfold c1. apply fget_fset_small; [done|].
    change (fmax (at_ s.2 de_rec_len)) with 65536. lia.
  - rewrite fget_splice_ne by (simpl; lia). unfold c5. rewrite fget_fset_ne by (done || (unfold apart; simpl; lia)).
    unfold c4. rewrite fget_fset_ne by (done || (unfold apart; simpl; lia)). unfold c3. apply fget_fset_small; [done|].
    change (fmax (at_ o de_rec_len)) with 65536. lia.
  - rewrite fget_splice_ne by (simpl; lia). unfold c5. rewrite fget_fset_ne by (done || (unfold apart; simpl; lia)).
    unfold c4. rewrite fget_fset_ne by (done || (unfold apart; simpl; lia)). unfold c3. rewrite fget_fset_ne by (done || (unfold apart; simpl; lia)).
    unfold c2. apply fget_fset_small; [done|]. change (fmax (at_ o de_inode)) with 4294967296. lia.
  - rewrite fget_splice_ne by (simpl; lia). unfold c5. rewrite fget_fset_ne by (done || (unfold apart; simpl; lia)).
    unfold c4. apply fget_fset_small; [done|]. change (fmax (at_ o de_name_len)) with 256. lia.
  - rewrite fget_splice_ne by (simpl; lia). unfold c5. apply fget_fset_small; [done|]. change (fmax (at_ o de_file_type)) with 256. lia.
  - apply slice_splice_eq; lia.
Qed.

(** The new slot follows the old ones. *)
Lemma scan_append d' n : forall u, s ∈ scan f d inode n u -> block_count f inode * bs - (u.1 * bs + u.2) <= Z.of_nat n ->
  0 <= u.1 -> 0 <= u.2 < bs -> Forall (slot_ok f d inode) (scan f d inode n u) ->
  (forall v, v ∈ scan f d inode n u -> v <> s -> slot_field f d' inode v de_rec_len = slot_field f d inode v de_rec_len) ->
  slot_field f d' inode s de_rec_len = real -> slot_field f d' inode (s.1, o) de_rec_len = bs - o ->
  scan f d' inode n u = scan f d inode n u ++ [(s.1, o)].
Proof.
  destruct append_numbers as (Ho & Hreal & _ & _ & Ho12 & _ & Hbs).
  induction n as [|n IH]; intros u Hin Hn Hu1 Hu2 Hall Hrec Hrs Hro; [by apply elem_of_nil in Hin|].
  cbn [scan] in *. destruct (Z.leb_spec (block_count f inode) u.1) as [|Hcnt]; [by apply elem_of_nil in Hin|]. cbv zeta in Hin, Hall, Hrec |- *. fold bs in Hin, Hall, Hrec |- *.
  apply Forall_cons in Hall as [Huok Hall]. cbn [app]. f_equal.
  destruct (slot_header f d inode Hm Hdir u ltac:(lia) Huok) as [_ Hr12]. destruct Huok as [_ Hule]. fold bs in Hule.
  destruct (decide (u = s)) as [->|Hne].
  - rewrite Hrs, Hend, Z.eqb_refl. fold o. rewrite (proj2 (Z.eqb_neq o bs)) by lia.
    assert (Hnil : forall m, scan f d inode m (s.1 + 1, 0) = []) by (intros [|m]; [done|]; cbn [scan fst]; by rewrite (proj2 (Z.leb_le _ _)) by lia).
    rewrite Hnil. cbn [app]. destruct n as [|n]; [nia|]. cbn [scan fst snd]. rewrite (proj2 (Z.leb_gt _ _)) by lia. cbv zeta.
    rewrite Hro. replace (o + (bs - o)) with bs by lia. rewrite Z.eqb_refl.
    f_equal. destruct n as [|n]; [done|]. cbn [scan fst]. by rewrite (proj2 (Z.leb_le _ _)) by lia.
  - rewrite (Hrec u) by (by left || done). apply elem_of_cons in Hin as [?|Hin]; [by subst|].
    destruct (Z.eqb_spec (u.2 + slot_field f d inode u de_rec_len) bs) as [E|E]; apply IH; cbn [fst snd] in *; try done; try nia;
      intros v Hv; apply Hrec; by right.
Qed.

(** The old slots on the new disk. *)
Lemma appended_slot v : v.1 = s.1 -> slot_block f (with_block f d inode s.1 appended) inode v = appended.
Proof.
  intros Hv. destruct appended_facts as (Hz & _). destruct (slots_range f d inode s Hm Hdir Hs) as (_ & Hr & _).
  rewrite (with_block_slot f d inode Hm Hdir s.1 appended Hr Hz v) by (by rewrite Hv). by rewrite decide_True.
Qed.
Lemma appended_old u : u ∈ slots f d inode -> u <> s -> let d' := with_block f d inode s.1 appended in
  (forall g, 0 <= f_off g -> f_off g + Z.of_nat (f_size g) <= 8 -> slot_field f d' inode u g = slot_field f d inode u g) /\
  slot_ok f d' inode u /\ (forall n, named f d' inode n u = named f d inode n u).
Proof.
  intros Hu Hne d'. destruct appended_facts as (Hz & _ & Hout & _). destruct append_numbers as (Ho & Hreal & _ & _ & Ho12 & _).
  destruct (slots_range f d inode s Hm Hdir Hs) as (_ & Hr & _). destruct (slots_range f d inode u Hm Hdir Hu) as (Huo & Hur & Huo').
  destruct (slot_ext f d inode Hm Hdir d' u Hur Huo' Huo) as (H1 & _ & H2 & H3); [|done].
  apply with_block_same; [done..|]. intros E. pose proof (slot_header f d inode Hm Hdir u Hur Huo) as [_ Hu12]. destruct Huo as [_ Hule].
  fold bs in Hule. destruct (slots_disjoint f d inode Hm Hdir u s Hu Hs E) as [?|Hdj]; [done|].
  rewrite Hout by (done || lia). done.
Qed.
Lemma appended_last : let d' := with_block f d inode s.1 appended in
  slot_field f d' inode s de_rec_len = real /\ slot_ok f d' inode s /\ (forall n, named f d' inode n s = named f d inode n s).
Proof.
  intros d'. destruct appended_facts as (_ & _ & Hout & Hrs & _). destruct append_numbers as (Ho & Hreal & Hln & Hn & Ho12 & Hl0 & Hbs).
  assert (Hrec : slot_field f d' inode s de_rec_len = real) by (unfold slot_field, d'; by rewrite appended_slot).
  assert (Hsf : forall g, 0 <= f_off g -> f_off g + Z.of_nat (f_size g) <= 4 \/ 6 <= f_off g -> f_off g + Z.of_nat (f_size g) <= 8 ->
    slot_field f d' inode s g = slot_field f d inode s g).
  { intros g Hg Hg46 Hg8. unfold slot_field, fget, at_, d'. cbn [f_off f_size]. rewrite appended_slot by done. unfold o in *.
    rewrite Hout by lia. done. }
  split_and!; [done| |].
  - split; rewrite Hrec; [rewrite Hsf by (simpl; lia); unfold de_name; lia|fold o bs; lia].
  - intros n. unfold named, slot_name, de_name. rewrite !Hsf by (simpl; lia). unfold d'. rewrite appended_slot by done. unfold o in *.
    rewrite !Hout by lia. done.
Qed.

Lemma appended_ok : entry_added (with_block f d inode s.1 appended) name ino file_type (s.1, o).
Proof.
  destruct appended_facts as (Hz & Hb & _ & _ & Hro & Hfi & Hfn & Hft & Hfname).
  destruct append_numbers as (Ho & Hreal & _ & Hn & Ho12 & _ & Hbs).
  destruct (slots_range f d inode s Hm Hdir Hs) as (Hok & Hr & _).
  destruct (with_block_mounted f d inode Hm Hdir s.1 appended Hr Hz Hb) as [Hm' Hok']. destruct appended_last as (Hrs & Hsok & Hsn).
  pose proof appended_old as Hother. pose proof (appended_slot (s.1, o) eq_refl) as Hnb. cbv zeta in Hother.
  set (d' := with_block f d inode s.1 appended) in *.
  assert (Hslots : slots f d' inode = slots f d inode ++ [(s.1, o)]).
  { apply scan_append; [done|cbn [fst snd]; nia|cbn; lia|cbn; lia|apply Hdir| |done|unfold slot_field; by rewrite Hnb].
    intros v Hv Hne. by apply Hother; [..|simpl; lia]. }
  assert (Hnew0 : forall n, n <> [47] -> named f d' inode n (s.1, o) = bool_decide (n = name)).
  { intros n Hn47. unfold named, slot_name, slot_field. rewrite Hnb. cbn [snd]. rewrite Hfi, Hfn, Hfname.
    rewrite (proj2 (Z.eqb_neq ino 0)) by lia. rewrite (bool_decide_eq_false_2 (n = [47])), andb_false_r by done. cbn [negb andb orb].
    apply bool_decide_ext. split; by intros ->. }
  assert (Hall : forall u, u ∈ slots f d inode -> slot_ok f d' inode u /\ forall n, named f d' inode n u = named f d inode n u).
  { intros u Hu. destruct (decide (u = s)) as [->|Hne]; [done|]. by destruct (Hother u Hu Hne) as (_ & ? & ?). }
  assert (Hlook : forall n, lookup_slot f d' inode n = match lookup_slot f d inode n with
    Some v => Some v | None => if named f d' inode n (s.1, o) then Some (s.1, o) else None end).
  { intros n. unfold lookup_slot. rewrite Hslots, search_app.
    rewrite (search_ext (fun _ : unit => named f d' inode n) (fun _ => named f d inode n)); [done|]. intros [] u Hu. by apply Hall. }
  split; try done.
  - destruct Hdir as [_ Hmode Hcnt Hsize _]. split; try done. rewrite Hslots. apply Forall_app. split.
    + apply Forall_forall. intros u Hu. by apply Hall.
    + constructor; [|constructor]. split; unfold slot_field; rewrite Hnb; cbn [snd]; rewrite Hro, ?Hfn; unfold de_name; fold bs; lia.
  - rewrite Hlook, Hnew. unfold named, slot_name, slot_field. rewrite Hnb. cbn [snd]. rewrite Hfi, Hfn, Hfname.
    rewrite (proj2 (Z.eqb_neq ino 0)) by lia. rewrite (bool_decide_eq_true_2 (name = name)) by done. by rewrite orb_true_r.
  - unfold slot_field. by rewrite Hnb.
  - unfold slot_field. by rewrite Hnb.
  - intros n Hn47 Hne. rewrite Hlook, Hnew0 by done. rewrite bool_decide_eq_false_2 by done. by destruct (lookup_slot f d inode n).
Qed.
End Append.
End Add.

(** *** The operation *)
Section AddOperation.
Context {D X : Type} `{BlockDevice D} `{HeapAllocator X}.
Abbreviation tri := (triple (repr (D := D) (X := X))).
Abbreviation cost := (ha_cost (X := X)).
Implicit Types (d : list Z) (r : Z) (b : gmap Z (list Z)) (s : Z * Z) (f : ext2_filesystem_t) (name : list Z).

(** A free slot that is long enough for [len] bytes, and a last slot that is longer than
    its entry. *)
Definition free_at f d inode (len : Z) s : bool :=
  (slot_field f d inode s de_inode =? 0) && (len <=? slot_field f d inode s de_rec_len).
Definition real_len f d inode s : Z := ext2_get_rec_len (slot_field f d inode s de_name_len).
Definition cut_at f d inode s : bool :=
  negb (slot_field f d inode s de_rec_len =? real_len f d inode s) &&
  (s.1 * block_size f + s.2 + slot_field f d inode s de_rec_len =? block_count f inode * block_size f).
Definition place_at f d inode len (_ : unit) s : bool := free_at f d inode len s || cut_at f d inode s.
(** The slot that the search for a place of [len] bytes stops at. *)
Definition place f d inode len : option (Z * Z) := (search (place_at f d inode len) (fun a _ => a) tt (slots f d inode)).2.
(** The disk with the entry at the place [s], where it fits, and its slot. *)
Definition entry_disk f d inode name ino file_type s : list Z :=
  with_block f d inode s.1 (if free_at f d inode (ext2_get_rec_len (zlen name)) s
                            then reused f d inode name ino file_type s else appended f d inode name ino file_type s).
Definition entry_slot f d inode name s : Z * Z :=
  if free_at f d inode (ext2_get_rec_len (zlen name)) s then s else (s.1, s.2 + real_len f d inode s).
(** There is room behind the last entry, when no slot is free. *)
Definition place_fits f d inode name s : Prop :=
  free_at f d inode (ext2_get_rec_len (zlen name)) s = true \/
  s.2 + real_len f d inode s + ext2_get_rec_len (zlen name) < block_size f.

Lemma place_search f d inode len : search (place_at f d inode len) (fun a _ => a) tt (slots f d inode) = (tt, place f d inode len).
Proof. unfold place. by destruct (search _ _ _ _) as [[] o]. Qed.
Lemma place_some f d inode len s : place f d inode len = Some s -> s ∈ slots f d inode /\ place_at f d inode len tt s = true.
Proof. intros Hs. apply (search_some (place_at f d inode len) (fun a _ => a) _ tt tt). by rewrite place_search, Hs. Qed.

Lemma cut_at_last f d inode s : mounted f d -> dir_ok f d inode -> s ∈ slots f d inode -> cut_at f d inode s = true ->
  s.1 = block_count f inode - 1 /\ s.2 + slot_field f d inode s de_rec_len = block_size f.
Proof.
  intros Hm Hdir Hs [_ Hcut%Z.eqb_eq]%andb_true_iff. destruct (slots_range f d inode s Hm Hdir Hs) as (Hok & Hr & Ho).
  destruct (slot_header f d inode Hm Hdir s Hr Hok) as [_ Hrec]. destruct Hok as [_ Hle]. pose proof (bs_range f d Hm).
  assert (block_count f inode - 1 <= s.1) by nia. assert (s.1 = block_count f inode - 1) by lia. split; [done|nia].
Qed.

(** The entry stands on the disk that the operation leaves. *)
Lemma entry_disk_ok f d inode name ino file_type s : mounted f d -> dir_ok f d inode -> is_name name -> 0 < zlen name <= 255 ->
  name <> [47] -> 0 < ino < 4294967296 -> 0 <= file_type < 256 -> lookup_slot f d inode name = None ->
  place f d inode (ext2_get_rec_len (zlen name)) = Some s -> place_fits f d inode name s ->
  entry_added f d inode (entry_disk f d inode name ino file_type s) name ino file_type (entry_slot f d inode name s).
Proof.
  intros Hm Hdir Hname Hlen Hn47 Hino Htype Hnew Hs Hfits. destruct (place_some _ _ _ _ _ Hs) as [Hin HP]. unfold place_at in HP.
  assert (Hb : bytes name) by (eapply Forall_impl; [exact Hname|unfold is_u8; simpl; lia]).
  unfold entry_disk, entry_slot, place_fits in *. destruct (free_at f d inode _ s) eqn:E.
  - apply andb_true_iff in E as [E1%Z.eqb_eq E2%Z.leb_le]. pose proof (rec_len_range (zlen name) ltac:(lia)).
    apply reused_ok; try done. unfold de_name. lia.
  - cbn [orb] in HP. destruct Hfits as [?|Hfits]; [done|]. destruct (cut_at_last f d inode s Hm Hdir Hin HP) as [Hl He].
    by apply appended_ok.
Qed.

Lemma tri_allocate_body d r b f inode p len s (Q : unit * ext2_direntry_iterator_t * bool -> view -> Prop) :
  mounted f d -> dir_ok f d inode -> 0 <= s.1 < block_count f inode -> 0 <= s.2 -> slot_ok f d inode s ->
  (free_at f d inode len s = true -> Q (tt, at_slot f s, true) (View d r (<[p := slot_block f d inode s]> b) f)) ->
  (free_at f d inode len s = false -> cut_at f d inode s = true ->
     Q (tt, MkIter s.1 (s.1 * block_size f + s.2 + real_len f d inode s) (s.2 + real_len f d inode s) false, true)
       (View d r (<[p := fset (at_ s.2 de_rec_len) (real_len f d inode s) (slot_block f d inode s)]> b) f)) ->
  (place_at f d inode len tt s = false -> Q (tt, at_slot f s, false) (View d r (<[p := slot_block f d inode s]> b) f)) ->
  tri (View d r (<[p := slot_block f d inode s]> b) f) (allocate_body inode len p tt (at_slot f s)) Q.
Proof.
  intros Hm Hdir Hs Ho Hok Hfree Hcut Hnone. destruct (dir_numbers (X := X) f d inode Hm Hdir) as (Hbs & Hcost & Hcnt & H31).
  destruct (slot_header f d inode Hm Hdir s Hs Hok) as [Hh Hrec].
  pose proof (slot_field_range f d inode Hm Hdir s de_name_len Hs ltac:(done) Ho ltac:(simpl; lia)) as Hl.
  change (fmax de_name_len) with 256 in Hl. destruct (rec_len_range (slot_field f d inode s de_name_len) ltac:(lia)) as [_ Hreal].
  pose proof (rec_len_range (slot_field f d inode s de_name_len) ltac:(lia)) as [Hreal2 _]. pose proof Hok as [_ Hle].
  assert (Hmul : (s.1 + 1) * block_size f <= block_count f inode * block_size f) by (apply Z.mul_le_mono_nonneg_r; lia).
  unfold allocate_body, de, at_slot, place_at, free_at in *. cbn [it_block_offset it_block_index it_total_offset].
  do 2 (apply triple_bind, (tri_slot_ld f d inode Hm Hdir); [done..|]).
  destruct ((slot_field f d inode s de_inode =? 0) && (len <=? slot_field f d inode s de_rec_len)); cbn [orb] in *; [by apply triple_ret, Hfree|].
  apply triple_bind, (tri_slot_ld f d inode Hm Hdir); [done..|]. fold (real_len f d inode s) in Hreal, Hreal2 |- *. cbv zeta.
  rewrite (u32_small (_ + slot_field f d inode s de_rec_len)) by lia. rewrite (do_size _ _ _ Hdir).
  fold (cut_at f d inode s). destruct (cut_at f d inode s).
  - apply triple_bind. eapply tri_st; [apply lookup_insert_eq|apply slot_fits; try done; simpl; lia|]. rewrite insert_insert_eq.
    apply triple_ret. rewrite !u32_small by lia. by apply Hcut.
  - by apply triple_ret, Hnone.
Qed.

(** The block of the directory is stored and the cache given back. *)
Lemma tri_store_block d r b f fuel inode i k p w (Q : Z -> view -> Prop) : mounted f d -> index_geometry f -> file_ok f d inode ->
  0 <= k < block_count f inode -> b !! p = None -> 0 < p -> zlen w = block_size f -> bytes w -> cost (block_size f) <= r ->
  Q 0 (View (with_block f d inode k w) (r - cost (block_size f)) b f) ->
  tri (View d r (<[p := w]> b) f)
    ('(x, _) ← ext2_write_inode_block (S fuel) inode i k p; free_cache p ;; mret (if x =? -1 then -1 else 0)) Q.
Proof.
  intros Hm Hig Hok Hk Hp Hp0 Hw Hwb Hr HQ. pose proof (bs_range f d Hm).
  apply triple_bind, tri_write_file_block; [done..|]. rewrite (proj2 (Z.eqb_neq _ _)) by lia. apply tri_free_new; [done|]. by apply triple_ret.
Qed.

Lemma tri_replace_direntry d r b f fuel inode dir ino name file_type s p (Q : Z -> view -> Prop) : mounted f d -> index_geometry f ->
  dir_ok f d inode -> s ∈ slots f d inode -> bytes name -> 0 < zlen name <= 255 -> 0 < ino < 4294967296 -> 0 <= file_type < 256 ->
  slot_field f d inode s de_inode = 0 -> de_name + zlen name <= slot_field f d inode s de_rec_len ->
  b !! p = None -> 0 < p -> cost (block_size f) <= r ->
  Q 0 (View (with_block f d inode s.1 (reused f d inode name ino file_type s)) (r - cost (block_size f)) b f) ->
  tri (View d r (<[p := slot_block f d inode s]> b) f)
    (replace_direntry (S fuel) inode dir ino p name file_type (at_slot f s)) Q.
Proof.
  intros Hm Hig Hdir Hs Hname Hlen Hino Htype Hfree Hroom Hp Hp0 Hr HQ. destruct (slots_range f d inode s Hm Hdir Hs) as (Hok & Hsr & Ho).
  destruct (reused_facts f d inode Hm Hdir name ino file_type Hname Hlen Hino Htype s Hs Hroom) as (Hz' & Hb' & _).
  destruct (slot_block_bytes f d inode Hm Hdir s Hsr) as [Hz Hb]. destruct (slot_header f d inode Hm Hdir s Hsr Hok) as [Hh Hrec].
  pose proof (slot_field_nonneg f d inode Hm Hdir s de_name_len Hsr) as Hl. pose proof Hok as [H1 H2]. unfold reused, de_name in *.
  set (c0 := slot_block f d inode s) in *. set (old := slot_field f d inode s de_name_len) in *.
  assert (Hzo : zlen (zeros old) = old) by (apply zeros_zlen; lia).
  assert (Hfit : forall c g, zlen c = block_size f -> 0 <= f_off g -> f_off g + Z.of_nat (f_size g) <= 8 -> fits (at_ s.2 g) c = true).
  { intros c g Hc Hg Hg8. apply fits_spec. simpl. lia. }
  set (c1 := splice (s.2 + 8) (zeros old) c0) in *. assert (Hc1 : zlen c1 = block_size f) by (unfold c1; rewrite splice_zlen; lia).
  set (c2 := fset (at_ s.2 de_inode) ino c1) in *. assert (Hc2 : zlen c2 = block_size f) by (unfold c2; rewrite fset_zlen; [done|by apply Hfit]).
  set (c3 := fset (at_ s.2 de_name_len) (zlen name) c2) in *. assert (Hc3 : zlen c3 = block_size f) by (unfold c3; rewrite fset_zlen; [done|by apply Hfit]).
  assert (Hnl : fget (at_ s.2 de_name_len) c3 = zlen name).
  { apply fget_fset_small; [by apply Hfit|]. change (fmax (at_ s.2 de_name_len)) with 256. lia. }
  unfold replace_direntry, set_name, de, at_slot, de_name. cbn [it_block_offset it_block_index].
  apply triple_bind, (tri_slot_ld f d inode Hm Hdir); [done..|]. fold c0 old.
  apply triple_bind. eapply tri_copy_in; [apply lookup_insert_eq|lia|lia|]. rewrite insert_insert_eq. fold c1.
  apply triple_bind. eapply tri_st; [apply lookup_insert_eq|by apply Hfit|]. rewrite insert_insert_eq. fold c2.
  apply triple_bind. eapply tri_st; [apply lookup_insert_eq|by apply Hfit|]. rewrite insert_insert_eq. fold c3.
  apply triple_bind. eapply tri_ld; [apply lookup_insert_eq|by apply Hfit|]. rewrite Hnl, slice_all by done.
  apply triple_bind. eapply tri_copy_in; [apply lookup_insert_eq|lia|lia|]. rewrite insert_insert_eq.
  apply triple_bind. eapply tri_st; [apply lookup_insert_eq|apply Hfit; [rewrite splice_zlen; lia|done..]|]. rewrite insert_insert_eq.
  apply tri_store_block; try done; apply Hdir.
Qed.

Lemma tri_append_direntry d r b f fuel inode dir ino name file_type s p it (Q : Z -> view -> Prop) : mounted f d -> index_geometry f ->
  dir_ok f d inode -> s ∈ slots f d inode -> bytes name -> 0 < zlen name <= 255 -> 0 < ino < 4294967296 -> 0 <= file_type < 256 ->
  s.2 + slot_field f d inode s de_rec_len = block_size f ->
  s.2 + real_len f d inode s + ext2_get_rec_len (zlen name) < block_size f ->
  it_block_index it = s.1 -> it_block_offset it = s.2 + real_len f d inode s ->
  b !! p = None -> 0 < p -> cost (block_size f) <= r ->
  Q 0 (View (with_block f d inode s.1 (appended f d inode name ino file_type s)) (r - cost (block_size f)) b f) ->
  tri (View d r (<[p := fset (at_ s.2 de_rec_len) (real_len f d inode s) (slot_block f d inode s)]> b) f)
    (append_direntry (S fuel) inode dir ino p name file_type it) Q.
Proof.
  intros Hm Hig Hdir Hs Hname Hlen Hino Htype Hend Hroom Hi Ho Hp Hp0 Hr HQ. destruct (slots_range f d inode s Hm Hdir Hs) as (Hok & Hsr & Hs2).
  destruct (appended_facts f d inode Hm Hdir name ino file_type Hname Hlen Hino Htype s Hs Hroom) as (Hz' & Hb' & _).
  destruct (append_numbers f d inode Hm Hdir name Hlen s Hs Hroom) as (_ & Hreal & _ & Hn & Ho12 & _ & Hbs).
  destruct (slot_block_bytes f d inode Hm Hdir s Hsr) as [Hz Hb]. destruct (slot_header f d inode Hm Hdir s Hsr Hok) as [Hh _].
  unfold appended, de_name in *. fold (real_len f d inode s) in *. set (o := s.2 + real_len f d inode s) in *.
  assert (Hfit : forall c q g, zlen c = block_size f -> 0 <= q -> q + 12 <= block_size f -> 0 <= f_off g -> f_off g + Z.of_nat (f_size g) <= 8 -> fits (at_ q g) c = true).
  { intros c q g Hc Hq Hq12 Hg Hg8. apply fits_spec. simpl. lia. }
  unfold append_direntry, set_name, de, de_name. rewrite Hi, Ho.
  set (c1 := fset (at_ s.2 de_rec_len) (real_len f d inode s) (slot_block f d inode s)) in *.
  assert (Hc1 : zlen c1 = block_size f) by (unfold c1; rewrite fset_zlen; [done|apply Hfit; done || lia]).
  set (c2 := fset (at_ o de_inode) ino c1) in *. assert (Hc2 : zlen c2 = block_size f) by (unfold c2; rewrite fset_zlen; [done|apply Hfit; done || lia]).
  set (c3 := fset (at_ o de_rec_len) (block_size f - o) c2) in *. assert (Hc3 : zlen c3 = block_size f) by (unfold c3; rewrite fset_zlen; [done|apply Hfit; done || lia]).
  set (c4 := fset (at_ o de_name_len) (zlen name) c3) in *. assert (Hc4 : zlen c4 = block_size f) by (unfold c4; rewrite fset_zlen; [done|apply Hfit; done || lia]).
  set (c5 := fset (at_ o de_file_type) file_type c4) in *. assert (Hc5 : zlen c5 = block_size f) by (unfold c5; rewrite fset_zlen; [done|apply Hfit; done || lia]).
  apply triple_bind, tri_fs.
  apply triple_bind. eapply tri_st; [apply lookup_insert_eq|apply Hfit; done || lia|]. rewrite insert_insert_eq. fold c2.
  apply triple_bind. eapply tri_st; [apply lookup_insert_eq|apply Hfit; done || lia|]. rewrite insert_insert_eq. fold c3.
  apply triple_bind. eapply tri_st; [apply lookup_insert_eq|apply Hfit; done || lia|]. rewrite insert_insert_eq. fold c4.
  apply triple_bind. eapply tri_st; [apply lookup_insert_eq|apply Hfit; done || lia|]. rewrite insert_insert_eq. fold c5.
  apply triple_bind. eapply tri_copy_in; [apply lookup_insert_eq|lia|lia|]. rewrite insert_insert_eq.
  apply tri_store_block; try done; apply Hdir.
Qed.

(** The part of the operation behind the loop, at the place that was found. *)
Lemma tri_allocate_rest d r b f fuel inode dir ino name file_type p c (Q : Z -> view -> Prop) s :
  let room := (block_count f inode + 1) * cost (block_size f) in
  mounted f d -> index_geometry f -> dir_ok f d inode -> is_name name -> 0 < zlen name <= 255 -> 0 < ino < 4294967296 -> 0 <= file_type < 256 ->
  place f d inode (ext2_get_rec_len (zlen name)) = Some s -> place_fits f d inode name s ->
  b !! p = None -> 0 < p -> zlen c = block_size f -> (length (slots f d inode) < S fuel)%nat -> room <= r ->
  Q 0 (View (entry_disk f d inode name ino file_type s) (r - room) b f) ->
  tri (View d r (<[p := c]> b) f)
    (it ← ext2_direntry_iterator_begin p inode;
     '(_, it) ← walk (S fuel) inode p always (allocate_body inode (ext2_get_rec_len (zlen name)) p) tt it;
     if it_direntry it then replace_direntry (S fuel) inode dir ino p name file_type it
     else if block_size f <=? u32 (it_block_offset it + ext2_get_rec_len (zlen name)) then
       o ← new_direntry_block inode dir it;
       match o with
       | None => free_cache p ;; mret (-1)
       | Some (parent, it) => append_direntry (S fuel) parent dir ino p name file_type it
       end
     else append_direntry (S fuel) inode dir ino p name file_type it) Q.
Proof.
  intros room Hm Hig Hdir Hname Hlen Hino Htype Hplace Hfits Hp Hp0 Hc Hfuel Hr HQ.
  destruct (dir_numbers (X := X) f d inode Hm Hdir) as (Hbs & Hcost & Hcnt & H31).
  destruct (place_some _ _ _ _ _ Hplace) as [Hin HP]. destruct (slots_range f d inode s Hm Hdir Hin) as (Hok & Hs & Ho).
  assert (Hb : bytes name) by (eapply Forall_impl; [exact Hname|unfold is_u8; simpl; lia]).
  pose proof (rec_len_range (zlen name) ltac:(lia)) as [Hrl _].
  replace r with (r - room + cost (block_size f) + block_count f inode * cost (block_size f)) by (unfold room; lia).
  eapply (tri_walk_all d _ b f inode p c (place_at f d inode (ext2_get_rec_len (zlen name))) (fun a _ => a)); try done; [lia|..].
  { intros [] u r1 Hu Hu2 Huok HPu. pose proof HPu as Hff. apply orb_false_iff in Hff as [Hf1 Hf2].
    apply tri_allocate_body; [done..|intros; congruence|intros; congruence|by intros _]. }
  rewrite place_search, Hplace. unfold entry_disk, place_fits, place_at in *.
  apply tri_allocate_body; try done.
  - intros Efree. pose proof Efree as [E1%Z.eqb_eq E2%Z.leb_le]%andb_true_iff. split; [done|]. cbn [fst it_direntry at_slot].
    rewrite Efree in HQ. apply tri_replace_direntry; try done; [unfold de_name; lia|lia|].
    replace (r - room + _ - _) with (r - room) by lia. exact HQ.
  - intros Efree Ecut. rewrite Efree in HQ, Hfits. destruct Hfits as [?|Hfits]; [done|].
    destruct (cut_at_last f d inode s Hm Hdir Hin Ecut) as [Hl He].
    pose proof (append_numbers f d inode Hm Hdir name Hlen s Hin Hfits) as (_ & Hreal & _). fold (real_len f d inode s) in Hreal.
    split; [done|]. cbn [fst it_direntry it_block_offset]. rewrite u32_small by lia. rewrite (proj2 (Z.leb_gt _ _)) by lia.
    apply (tri_append_direntry _ _ _ _ _ _ _ _ _ _ s); try done; [lia|].
    replace (r - room + _ - _) with (r - room) by lia. exact HQ.
  - intros HP'. unfold place_at in HP'. congruence.
Qed.

(** What adding an entry leaves behind: the name stands for the inode in the directory,
    the other names stand for what they stood for, and the inode has one link more. *)
Record linked f d d' (dir ino : Z) name (file_type : Z) s : Prop := {
  li_mounted : mounted f d';
  li_dir : dir_ok f d' (inode_of f d' dir);
  li_lookup : lookup_slot f d' (inode_of f d' dir) name = Some s;
  li_inode : slot_field f d' (inode_of f d' dir) s de_inode = ino;
  li_type : slot_field f d' (inode_of f d' dir) s de_file_type = file_type;
  li_other : forall n, n <> name -> n <> [47] -> lookup_slot f d' (inode_of f d' dir) n = lookup_slot f d (inode_of f d dir) n;
  li_inodes : forall j, valid_inode f j -> inode_of f d' j =
    if decide (j = ino) then fset i_links_count (fget i_links_count (inode_of f d ino) + 1) (inode_of f d ino) else inode_of f d j
}.

(** The disk when the link is counted. *)
Definition counted f d ino : list Z :=
  write_inode f d ino (fset i_links_count (fget i_links_count (inode_of f d ino) + 1) (inode_of f d ino)).

Lemma counted_inode_ok f d ino : mounted f d -> valid_inode f ino ->
  let v := fset i_links_count (fget i_links_count (inode_of f d ino) + 1) (inode_of f d ino) in zlen v = INODE_SIZE /\ bytes v.
Proof.
  intros Hm Hi v. pose proof (inode_of_zlen f d ino Hm Hi) as Hz. pose proof (inode_of_bytes f d ino Hm).
  split; [|by apply fset_bytes]. unfold v. rewrite fset_zlen; [done|]. apply fits_spec. rewrite Hz. unfold INODE_SIZE. simpl. lia.
Qed.
Lemma counted_ok f d dir ino : mounted f d -> valid_inode f dir -> valid_inode f ino -> dir <> ino ->
  let inode := inode_of f d dir in dir_ok f d inode -> index_safe f d inode ->
  mounted f (counted f d ino) /\ inode_of f (counted f d ino) dir = inode /\ dir_ok f (counted f d ino) inode /\
  slots f (counted f d ino) inode = slots f d inode /\
  (forall n, lookup_slot f (counted f d ino) inode n = lookup_slot f d inode n) /\
  (forall u g, u ∈ slots f d inode -> slot_field f (counted f d ino) inode u g = slot_field f d inode u g).
Proof.
  intros Hm Hdv Hiv Hne inode Hdir Hsafe. destruct (counted_inode_ok f d ino Hm Hiv) as [Hv Hvb]. unfold counted.
  destruct (write_inode_dir f d inode Hm Hdir ino _ Hsafe Hiv Hv) as (Hdir' & Hsl & Hfd & Hlk).
  split_and!; [by apply write_inode_mounted| |done..]. rewrite inode_of_write by done. by rewrite decide_False.
Qed.
(** The place for an entry is the same. *)
Lemma counted_place f d dir ino name s : mounted f d -> valid_inode f dir -> valid_inode f ino -> dir <> ino ->
  let inode := inode_of f d dir in let d1 := counted f d ino in dir_ok f d inode -> index_safe f d inode ->
  place f d inode (ext2_get_rec_len (zlen name)) = Some s -> place_fits f d inode name s ->
  place f d1 inode (ext2_get_rec_len (zlen name)) = Some s /\ place_fits f d1 inode name s /\ entry_slot f d1 inode name s = entry_slot f d inode name s.
Proof.
  intros Hm Hdv Hiv Hne inode d1 Hdir Hsafe Hplace Hfits. destruct (place_some _ _ _ _ _ Hplace) as [Hin _].
  destruct (counted_ok f d dir ino Hm Hdv Hiv Hne Hdir Hsafe) as (_ & _ & _ & Hsl & _ & Hfd). fold inode d1 in Hsl, Hfd.
  assert (Hfree : forall u, u ∈ slots f d inode -> free_at f d1 inode (ext2_get_rec_len (zlen name)) u = free_at f d inode (ext2_get_rec_len (zlen name)) u)
    by (intros u Hu; unfold free_at; by rewrite !Hfd).
  assert (Hreal : forall u, u ∈ slots f d inode -> real_len f d1 inode u = real_len f d inode u) by (intros u Hu; unfold real_len; by rewrite Hfd).
  unfold place_fits, entry_slot. rewrite Hfree, Hreal by done. split_and!; [|done|done]. rewrite <- Hplace. unfold place. rewrite Hsl. f_equal.
  apply search_ext. intros [] u Hu. unfold place_at, cut_at. by rewrite Hfree, Hreal, Hfd.
Qed.

Lemma entry_disk_block f d inode name ino file_type s : mounted f d -> dir_ok f d inode -> bytes name -> 0 < zlen name <= 255 ->
  0 < ino < 4294967296 -> 0 <= file_type < 256 -> place f d inode (ext2_get_rec_len (zlen name)) = Some s -> place_fits f d inode name s ->
  exists w, entry_disk f d inode name ino file_type s = with_block f d inode s.1 w /\ zlen w = block_size f /\ 0 <= s.1 < block_count f inode.
Proof.
  intros Hm Hdir Hb Hlen Hino Htype Hplace Hfits. destruct (place_some _ _ _ _ _ Hplace) as [Hin HP].
  destruct (slots_range f d inode s Hm Hdir Hin) as (_ & Hs & _). unfold entry_disk, place_fits in *. eexists. split; [done|]. split; [|done].
  pose proof (rec_len_range (zlen name) ltac:(lia)) as [Hrl _].
  destruct (free_at f d inode _ s) eqn:E.
  - apply andb_true_iff in E as [E1%Z.eqb_eq E2%Z.leb_le]. apply reused_facts; try done. unfold de_name. lia.
  - destruct Hfits as [?|Hfits]; [done|]. by apply appended_facts.
Qed.

Lemma linked_ok f d dir ino name file_type s : mounted f d -> valid_inode f dir -> valid_inode f ino -> dir <> ino ->
  let inode := inode_of f d dir in let d1 := counted f d ino in
  dir_ok f d inode -> index_safe f d inode -> is_name name -> 0 < zlen name <= 255 -> name <> [47] -> 0 < ino < 4294967296 ->
  0 <= file_type < 256 -> lookup_slot f d inode name = None ->
  place f d inode (ext2_get_rec_len (zlen name)) = Some s -> place_fits f d inode name s ->
  linked f d (entry_disk f d1 inode name ino file_type s) dir ino name file_type (entry_slot f d inode name s).
Proof.
  intros Hm Hdv Hiv Hne inode d1 Hdir Hsafe Hname Hlen Hn47 Hino Htype Hnew Hplace0 Hfits0.
  destruct (counted_place f d dir ino name s) as (Hplace & Hfits & Heq); try done. fold inode d1 in Hplace, Hfits, Heq. rewrite <- Heq.
  destruct (counted_ok f d dir ino Hm Hdv Hiv Hne Hdir Hsafe) as (Hm1 & Hself1 & Hdir1 & _ & Hlk1 & _). fold inode d1 in Hm1, Hself1, Hdir1, Hlk1.
  assert (Hb : bytes name) by (eapply Forall_impl; [exact Hname|unfold is_u8; simpl; lia]).
  destruct (counted_inode_ok f d ino Hm Hiv) as [Hv _].
  destruct (entry_disk_ok f d1 inode name ino file_type s) as [H1 H2 H3 H4 H5 H6]; try done; [by rewrite Hlk1|].
  destruct (entry_disk_block f d1 inode name ino file_type s) as (w & Hw & Hwz & Hs); try done. rewrite Hw in *.
  assert (Hino' : forall j, valid_inode f j -> inode_of f (with_block f d1 inode s.1 w) j = inode_of f d1 j).
  { intros j Hj. by apply with_block_inode. }
  assert (Hself : inode_of f (with_block f d1 inode s.1 w) dir = inode) by (by rewrite Hino').
  split; rewrite ?Hself; try done.
  - intros n Hn Hn'. rewrite H6 by done. apply Hlk1.
  - intros j Hj. rewrite Hino' by done. unfold d1, counted. by apply inode_of_write.
Qed.

(** C14: ext2_allocate_direntry makes a name stand for an inode in a directory: the new
    entry is in the first free slot that is long enough, or behind the last entry,
    which is cut to its length; looking the name up gives it with the inode and the
    type, every other name is found where it was, the directory is well-formed again
    and the inode has one link more. No buffer is left over. *)
Theorem ext2_allocate_direntry_correct st d r b f fuel dir ino name file_type s : repr st (View d r b f) -> mounted f d -> index_geometry f ->
  valid_inode f dir -> dir < 4294967296 -> valid_inode f ino -> 0 < ino < 4294967296 -> dir <> ino ->
  let inode := inode_of f d dir in
  let room := (block_count f inode + 5) * cost (block_size f) in
  dir_ok f d inode -> index_safe f d inode -> (length (slots f d inode) < S fuel)%nat ->
  is_name name -> 0 < zlen name <= 255 -> name <> [47] -> 0 <= file_type < 256 -> lookup_slot f d inode name = None ->
  place f d inode (ext2_get_rec_len (zlen name)) = Some s -> place_fits f d inode name s -> room <= r ->
  ext2_allocate_direntry (S fuel) dir ino name file_type ~{ st }~>! FFatal \/
  exists st' d', ext2_allocate_direntry (S fuel) dir ino name file_type ~{ st }~> 0; st' /\ repr st' (View d' (r - room) b f) /\
    linked f d d' dir ino name file_type (entry_slot f d inode name s).
Proof.
  intros Hrepr Hm Hig Hdv Hd32 Hiv Hino Hne inode room Hdir Hsafe Hfuel Hname Hlen Hn47 Htype Hnew Hplace Hfits Hr.
  pose proof (linked_ok f d dir ino name file_type s Hm Hdv Hiv Hne Hdir Hsafe Hname Hlen Hn47 Hino Htype Hnew Hplace Hfits) as Hli.
  destruct (counted_place f d dir ino name s) as (Hplace1 & Hfits1 & _); try done.
  destruct (counted_ok f d dir ino Hm Hdv Hiv Hne Hdir Hsafe) as (Hm1 & Hself1 & Hdir1 & Hsl1 & _).
  destruct (counted_inode_ok f d ino Hm Hiv) as [Hv Hvb]. fold inode in Hli, Hplace1, Hfits1, Hself1, Hdir1, Hsl1.
  destruct (dir_numbers (X := X) f d inode Hm Hdir) as (Hbs & Hcost & Hcnt & H31).
  assert (Hbc : 0 <= block_count f inode * cost (block_size f)) by (apply Z.mul_nonneg_nonneg; lia).
  assert (Htri : tri (View d r b f) (ext2_allocate_direntry (S fuel) dir ino name file_type) (fun y v' =>
    y = 0 /\ v' = View (entry_disk f (counted f d ino) inode name ino file_type s) (r - room) b f)).
  { apply triple_bind, tri_read_inode; [done|done|lia|lia|].
    apply triple_bind, tri_write_inode; [done|done|lia|done|done|lia|]. fold (counted f d ino). change (0 =? -1) with false. cbn iota.
    apply triple_bind, tri_read_inode; [done|done|lia|lia|]. rewrite Hself1. rewrite (proj2 (Z.eqb_neq _ _)) by apply Hdir.
    apply triple_bind, tri_fs, triple_bind, tri_new_cache; [lia|lia|]. intros p Hp Hp0.
    apply (tri_allocate_rest _ _ _ _ _ _ _ _ _ _ _ _ _ s); try done; [apply zeros_zlen; lia|by rewrite Hsl1|lia|].
    split; [done|]. f_equal. unfold room. lia. }
  destruct (triple_run _ _ _ _ st Htri Hrepr) as [?|(y & st' & v' & Hrun & Hs' & -> & ->)]; [by left|right].
  by exists st', (entry_disk f (counted f d ino) inode name ino file_type s).
Qed.

(** Ext2_allocate_direntry on an inode that is no directory fails with -1, but the
    inode that should get a name has one link more than before: the link is counted
    before the parent is looked at. *)
Theorem ext2_allocate_direntry_no_directory st d r b f fuel dir ino name file_type : repr st (View d r b f) -> mounted f d ->
  valid_inode f dir -> dir < 4294967296 -> valid_inode f ino -> ino < 4294967296 -> dir <> ino ->
  Z.land (fget i_mode (inode_of f d dir)) EXT2_S_IFDIR = 0 -> 3 * cost (block_size f) <= r ->
  ext2_allocate_direntry fuel dir ino name file_type ~{ st }~>! FFatal \/
  exists st', ext2_allocate_direntry fuel dir ino name file_type ~{ st }~> -1; st' /\
    repr st' (View (counted f d ino) (r - 3 * cost (block_size f)) b f).
Proof.
  intros Hrepr Hm Hdv Hd32 Hiv Hi32 Hne Hmode Hr. pose proof (cost_nonneg (X := X) f d Hm) as Hc.
  destruct (counted_inode_ok f d ino Hm Hiv) as [Hv Hvb].
  assert (Htri : tri (View d r b f) (ext2_allocate_direntry fuel dir ino name file_type) (fun y v' =>
    y = -1 /\ v' = View (counted f d ino) (r - 3 * cost (block_size f)) b f)).
  { apply triple_bind, tri_read_inode; [done|done|done|lia|].
    apply triple_bind, tri_write_inode; [done|done|done|done|done|lia|]. fold (counted f d ino). change (0 =? -1) with false. cbn iota.
    apply triple_bind, tri_read_inode; [by apply write_inode_mounted|done|done|lia|].
    replace (inode_of f (counted f d ino) dir) with (inode_of f d dir).
    - rewrite Hmode. change (0 =? 0) with true. cbn iota. apply triple_ret. split; [done|]. f_equal. lia.
    - unfold counted. rewrite inode_of_write by done. by rewrite decide_False. }
  destruct (triple_run _ _ _ _ st Htri Hrepr) as [?|(y & st' & v' & Hrun & Hs' & -> & ->)]; [by left|right]. by exists st'.
Qed.
End AddOperation.

(** ** A concrete directory tree

    The root is inode 2 in block 5: the entries ., .., bin for the directory 13, a
    free slot of 20 bytes, and x for the file 12. The directory 13 in block 6 has the
    entries ., .. and ls for the file 14. *)
Definition dir_inode (block links : Z) : list Z :=
  fset_all [(i_mode, 16877); (i_links_count, links); (i_size, 4096); (i_blocks_count, 8); (i_dir_blocks 0, block)] (zeros INODE_SIZE).
Definition file_inode (links : Z) : list Z := fset_all [(i_mode, 33188); (i_links_count, links)] (zeros INODE_SIZE).
Definition entry_bytes (ino rec_len file_type : Z) (name : list Z) : list Z :=
  le_bytes 4 ino ++ le_bytes 2 rec_len ++ [zlen name; file_type] ++ name.
Definition root_block : list Z :=
  splice 56 (entry_bytes 12 4040 1 [120]) (splice 36 (entry_bytes 0 20 0 []) (splice 24 (entry_bytes 13 12 2 [98; 105; 110])
    (splice 12 (entry_bytes 2 12 2 [46; 46]) (splice 0 (entry_bytes 2 12 2 [46]) (zeros 4096))))).
Definition bin_block : list Z :=
  splice 24 (entry_bytes 14 4072 1 [108; 115]) (splice 12 (entry_bytes 2 12 2 [46; 46]) (splice 0 (entry_bytes 13 12 2 [46]) (zeros 4096))).
Definition tree_root : list Z := Eval vm_compute in dir_inode 5 3.
Definition tree_bin : list Z := Eval vm_compute in dir_inode 6 2.
Definition tree_disk : list Z :=
  splice (4 * 4096 + 13 * 128) (file_inode 1) (splice (4 * 4096 + 12 * 128) tree_bin (splice (4 * 4096 + 11 * 128) (file_inode 1)
    (splice (4 * 4096 + 1 * 128) tree_root (splice (6 * 4096) bin_block (splice (5 * 4096) root_block (splice (2 * 4096) [255] demo_disk)))))).
#[local] Existing Instance Kheap.kernel_heap_allocator.
Definition tree_state : state (list Z) (Kheap.heap (gset Z)) := MkState tree_disk Kheap.heap0 ∅ demo_fs.
Definition tree_view : view := View tree_disk 1000000 ∅ demo_fs.

Lemma tree_root_of : inode_of demo_fs tree_disk 2 = tree_root.
Proof. vm_compute. reflexivity. Qed.
Lemma tree_bin_of : inode_of demo_fs tree_disk 13 = tree_bin.
Proof. vm_compute. reflexivity. Qed.
Lemma tree_mounted : mounted demo_fs tree_disk.
Proof.
  split; [apply demo_geometry|..].
  - apply bytes_spec. vm_compute. reflexivity.
  - vm_compute. congruence.
  - vm_compute. reflexivity.
  - vm_compute. reflexivity.
Qed.
Lemma tree_repr : repr tree_state tree_view.
Proof.
  split; simpl; try done.
  - apply tree_mounted.
  - exists ∅. split; [apply Kheap.heap0_ok|]. intros p c Hp. by rewrite lookup_empty in Hp.
Qed.

(** A file of one block. *)
Lemma one_block_ok d inode n : zlen inode = INODE_SIZE -> bytes inode -> block_count demo_fs inode = 1 -> fget i_size inode = 4096 ->
  fget (i_dir_blocks 0) inode = n -> n = 5 \/ n = 6 -> file_ok demo_fs d inode.
Proof.
  intros Hz Hb Hc Hsize Hn H56. split; rewrite ?Hc, ?Hsize.
  - done.
  - vm_compute. split; congruence.
  - vm_compute. split; congruence.
  - intros k x Hk. replace k with 0 by lia. intros Hx%elem_of_nil. destruct Hx.
  - intros k Hk. replace k with 0 by lia. change (real_block demo_fs d inode 0) with (fget (i_dir_blocks 0) inode).
    destruct demo_numbers as [-> _]. lia.
  - intros j k Hj Hk _. lia.
  - intros j k Hj Hk. replace k with 0 by lia. apply not_elem_of_nil.
  - intros k R Hk HR. replace k with 0 in HR by lia. change (real_block demo_fs d inode 0) with (fget (i_dir_blocks 0) inode) in HR.
    rewrite Hn in HR. apply demo_region_of in HR. destruct H56 as [-> | ->]; discriminate HR.
Qed.
Definition slot_okb f d inode s : bool :=
  (de_name + Z.max 4 (slot_field f d inode s de_name_len) <=? slot_field f d inode s de_rec_len) &&
  (s.2 + slot_field f d inode s de_rec_len <=? block_size f).
Lemma slots_okb f d inode : forallb (slot_okb f d inode) (slots f d inode) = true -> Forall (slot_ok f d inode) (slots f d inode).
Proof.
  intros Hall. apply Forall_forall. intros s Hs. rewrite forallb_forall in Hall. apply list_elem_of_In in Hs.
  specialize (Hall s Hs). unfold slot_okb in Hall. unfold slot_ok. lia.
Qed.

Lemma tree_root_dir : dir_ok demo_fs tree_disk tree_root.
Proof.
  split; [apply (one_block_ok _ _ 5); try reflexivity; [apply bytes_spec; reflexivity|by left]|vm_compute; congruence|reflexivity|reflexivity|].
  apply slots_okb. vm_compute. reflexivity.
Qed.
Lemma tree_bin_dir : dir_ok demo_fs tree_disk tree_bin.
Proof.
  split; [apply (one_block_ok _ _ 6); try reflexivity; [apply bytes_spec; reflexivity|by right]|vm_compute; congruence|reflexivity|reflexivity|].
  apply slots_okb. vm_compute. reflexivity.
Qed.
Lemma one_block_safe d inode : block_count demo_fs inode = 1 -> index_safe demo_fs d inode.
Proof. intros Hc k x R Hk. rewrite Hc in Hk. replace k with 0 by lia. intros Hx%elem_of_nil. destruct Hx. Qed.

Lemma tree_slots : slots demo_fs tree_disk tree_root = [(0, 0); (0, 12); (0, 24); (0, 36); (0, 56)] /\
  slots demo_fs tree_disk tree_bin = [(0, 0); (0, 12); (0, 24)].
Proof. vm_compute. split; reflexivity. Qed.

Definition bin_name : list Z := [98; 105; 110].
Lemma tree_lookup : lookup_slot demo_fs tree_disk tree_root bin_name = Some (0, 24) /\ lookup_slot demo_fs tree_disk tree_bin [108; 115] = Some (0, 24) /\
  lookup_slot demo_fs tree_disk tree_root [108; 115] = None.
Proof. vm_compute. done. Qed.
Lemma tree_slot_inode : slot_field demo_fs tree_disk tree_root (0, 24) de_inode = 13 /\ slot_field demo_fs tree_disk tree_bin (0, 24) de_inode = 14.
Proof. vm_compute. done. Qed.
(** The paths /bin/ls and /bin. *)
Definition ls_path : list Z := [47; 98; 105; 110; 47; 108; 115].
Definition bin_path : list Z := [47; 98; 105; 110].
Lemma ls_path_ok : path_ok demo_fs tree_disk 20 (CString.words {[47]} ls_path) 2.
Proof.
  replace (CString.words {[47]} ls_path) with [bin_name; [108; 115]] by (vm_compute; reflexivity).
  destruct tree_lookup as (Hb & Hl & _), tree_slot_inode as [Hi _], tree_slots as [Hs1 Hs2]. cbn [path_ok]. rewrite tree_root_of, Hb, Hi.
  rewrite tree_bin_of, Hl, Hs1, Hs2. split_and!; try exact tree_root_dir; try exact tree_bin_dir; try (apply demo_valid; lia); try exact I;
    vm_compute; congruence || lia.
Qed.
Lemma bin_path_ok : path_ok demo_fs tree_disk 20 (CString.words {[47]} bin_path) 2.
Proof.
  replace (CString.words {[47]} bin_path) with [bin_name] by (vm_compute; reflexivity).
  destruct tree_lookup as (Hb & _), tree_slots as [Hs1 _]. cbn [path_ok]. rewrite tree_root_of, Hb, Hs1.
  split_and!; try exact tree_root_dir; try (apply demo_valid; lia); try exact I; vm_compute; congruence || lia.
Qed.
Lemma is_name_spec l : forallb (fun x => (0 <? x) && (x <? 256)) l = true -> is_name l.
Proof.
  intros Hl. apply Forall_forall. intros x Hx. rewrite forallb_forall in Hl. apply list_elem_of_In in Hx. specialize (Hl x Hx). lia.
Qed.
Definition search0 : ext2_direntry_search_t := MkSearch (zeros DIRENT_SIZE) 0 0 0.
Definition ls_found : ext2_direntry_search_t := MkSearch (slot_entry demo_fs tree_disk tree_bin (0, 24)) 13 0 24.
Definition bin_found : ext2_direntry_search_t := MkSearch (slot_entry demo_fs tree_disk tree_root (0, 24)) 2 0 24.
Lemma ls_lookup : lookup_path demo_fs tree_disk (CString.words {[47]} ls_path) 2 search0 = (0, ls_found).
Proof.
  replace (CString.words {[47]} ls_path) with [bin_name; [108; 115]] by (vm_compute; reflexivity).
  destruct tree_lookup as (Hb & Hl & _), tree_slot_inode as [Hi _]. cbn [lookup_path]. by rewrite tree_root_of, Hb, Hi, tree_bin_of, Hl.
Qed.
Lemma bin_lookup : lookup_path demo_fs tree_disk (CString.words {[47]} bin_path) 2 search0 = (0, bin_found).
Proof.
  replace (CString.words {[47]} bin_path) with [bin_name] by (vm_compute; reflexivity).
  destruct tree_lookup as (Hb & _). cbn [lookup_path]. by rewrite tree_root_of, Hb.
Qed.

(** ** Witnesses *)
Lemma ext2_find_direntry_correct_witness : exists s', ext2_find_direntry 20 2 bin_name search0 ~{ tree_state }~> (0, bin_found); s'.
Proof.
  destruct (ext2_find_direntry_correct tree_state tree_disk 1000000 ∅ demo_fs 20 2 bin_name search0 tree_repr tree_mounted demo_index
    (demo_valid 2 ltac:(lia)) ltac:(lia) (is_name_spec bin_name eq_refl)
    ltac:(rewrite tree_root_of; exact tree_root_dir) ltac:(rewrite tree_root_of, (proj1 tree_slots); simpl; lia)
    ltac:(rewrite tree_root_of, (proj1 tree_lookup); vm_compute; congruence) ltac:(vm_compute; congruence)) as [Hf|(s' & Hrun & _)].
  - exfalso. revert Hf. apply not_fatal. vm_compute. reflexivity.
  - exists s'. rewrite tree_root_of, (proj1 tree_lookup) in Hrun. unfold found in Hrun. rewrite tree_root_of in Hrun. exact Hrun.
Defined.

Lemma ext2_resolve_path_correct_witness : exists s', ext2_resolve_path 20 2 ls_path search0 ~{ tree_state }~> (0, ls_found); s'.
Proof.
  destruct (ext2_resolve_path_correct tree_state tree_disk 1000000 ∅ demo_fs 20 2 ls_path search0 tree_repr tree_mounted demo_index
    (is_name_spec ls_path eq_refl) ltac:(discriminate) ltac:(vm_compute; congruence) ltac:(vm_compute; congruence) ls_path_ok
    ltac:(vm_compute; congruence)) as [Hf|(s' & Hrun & _)].
  - exfalso. revert Hf. apply not_fatal. vm_compute. reflexivity.
  - exists s'. rewrite ls_lookup in Hrun. exact Hrun.
Defined.

(** /bin/ls is removed: its slot is free, and the file has no link any more. *)
Lemma ext2_unlink_correct_witness : exists s' d', ext2_unlink 20 2 ls_path ~{ tree_state }~> 0; s' /\ unlinked demo_fs tree_disk d' 13 14 (0, 24).
Proof.
  assert (Hino : slot_field demo_fs tree_disk (inode_of demo_fs tree_disk 13) (0, 24) de_inode = 14) by (rewrite tree_bin_of; apply tree_slot_inode).
  destruct (ext2_unlink_correct tree_state tree_disk 1000000 ∅ demo_fs 19 2 ls_path ls_found tree_repr tree_mounted demo_index
    (is_name_spec ls_path eq_refl) ltac:(discriminate) ltac:(vm_compute; congruence) ltac:(vm_compute; congruence) ls_path_ok
    ltac:(vm_compute; congruence) ls_lookup) as [Hf|(s' & d' & Hrun & _ & Hul)]; cbn [parent_inode block_index block_offset ls_found]; rewrite ?Hino.
  - rewrite tree_bin_of. apply one_block_safe. reflexivity.
  - apply demo_valid. lia.
  - reflexivity.
  - discriminate.
  - vm_compute. reflexivity.
  - vm_compute. congruence.
  - exfalso. revert Hf. apply not_fatal. vm_compute. reflexivity.
  - exists s', d'. split; [exact Hrun|]. cbn [parent_inode block_index block_offset ls_found] in Hul. rewrite Hino in Hul. exact Hul.
Defined.

Lemma ext2_rmdir_refuses_witness : exists s', ext2_rmdir 20 2 bin_path ~{ tree_state }~> -39; s'.
Proof.
  assert (Hino : slot_field demo_fs tree_disk (inode_of demo_fs tree_disk 2) (0, 24) de_inode = 13) by (rewrite tree_root_of; apply tree_slot_inode).
  destruct (ext2_rmdir_refuses tree_state tree_disk 1000000 ∅ demo_fs 20 2 bin_path bin_found (0, 24) tree_repr tree_mounted demo_index
    (is_name_spec bin_path eq_refl) ltac:(discriminate) ltac:(vm_compute; congruence) ltac:(vm_compute; congruence) bin_path_ok
    ltac:(vm_compute; congruence) bin_lookup) as [Hf|(s' & Hrun & _)]; cbn [parent_inode block_index block_offset bin_found]; rewrite ?Hino.
  - apply demo_valid. lia.
  - reflexivity.
  - rewrite tree_bin_of. exact tree_bin_dir.
  - rewrite tree_bin_of, (proj2 tree_slots). simpl. lia.
  - rewrite tree_bin_of, (proj2 tree_slots). right. right. left.
  - rewrite tree_bin_of. vm_compute. congruence.
  - rewrite tree_bin_of. apply (proj1 (bool_decide_spec _)). vm_compute. exact I.
  - vm_compute. congruence.
  - exfalso. revert Hf. apply not_fatal. vm_compute. reflexivity.
  - exists s'. exact Hrun.
Defined.

(** lib for the inode 12 in the root: the entry is in the free slot; cat in /bin: it
    is behind ls. *)
Definition lib_name : list Z := [108; 105; 98].
Definition cat_name : list Z := [99; 97; 116].
Lemma tree_place : place demo_fs tree_disk tree_root (ext2_get_rec_len 3) = Some (0, 36) /\ place demo_fs tree_disk tree_bin (ext2_get_rec_len 3) = Some (0, 24) /\
  free_at demo_fs tree_disk tree_root (ext2_get_rec_len 3) (0, 36) = true /\ free_at demo_fs tree_disk tree_bin (ext2_get_rec_len 3) (0, 24) = false /\
  real_len demo_fs tree_disk tree_bin (0, 24) = 12.
Proof. vm_compute. done. Qed.
Lemma tree_new : lookup_slot demo_fs tree_disk tree_root lib_name = None /\ lookup_slot demo_fs tree_disk tree_bin cat_name = None.
Proof. vm_compute. done. Qed.

Lemma ext2_allocate_direntry_correct_witness :
  (exists s' d', ext2_allocate_direntry 20 2 12 lib_name 1 ~{ tree_state }~> 0; s' /\ linked demo_fs tree_disk d' 2 12 lib_name 1 (0, 36)) /\
  (exists s' d', ext2_allocate_direntry 20 13 12 cat_name 1 ~{ tree_state }~> 0; s' /\ linked demo_fs tree_disk d' 13 12 cat_name 1 (0, 36)).
Proof.
  destruct tree_place as (Hp1 & Hp2 & Hf1 & Hf2 & Hr), tree_new as [Hn1 Hn2], tree_slots as [Hs1 Hs2]. split.
  - destruct (ext2_allocate_direntry_correct tree_state tree_disk 1000000 ∅ demo_fs 19 2 12 lib_name 1 (0, 36) tree_repr tree_mounted demo_index
      (demo_valid 2 ltac:(lia)) ltac:(lia) (demo_valid 12 ltac:(lia)) ltac:(lia) ltac:(lia)) as [Hf|(s' & d' & Hrun & _ & Hli)];
      rewrite ?tree_root_of.
    1-11: first [exact tree_root_dir | by apply one_block_safe | rewrite Hs1; simpl; lia | by apply is_name_spec | exact Hn1 | exact Hp1
                | by left | by vm_compute; split | by vm_compute].
    + exfalso. revert Hf. apply not_fatal. vm_compute. reflexivity.
    + exists s', d'. split; [exact Hrun|]. unfold entry_slot in Hli. rewrite tree_root_of in Hli. change (zlen lib_name) with 3 in Hli.
      rewrite Hf1 in Hli. exact Hli.
  - destruct (ext2_allocate_direntry_correct tree_state tree_disk 1000000 ∅ demo_fs 19 13 12 cat_name 1 (0, 24) tree_repr tree_mounted demo_index
      (demo_valid 13 ltac:(lia)) ltac:(lia) (demo_valid 12 ltac:(lia)) ltac:(lia) ltac:(lia)) as [Hf|(s' & d' & Hrun & _ & Hli)];
      rewrite ?tree_bin_of.
    1-11: first [exact tree_bin_dir | by apply one_block_safe | rewrite Hs2; simpl; lia | by apply is_name_spec | exact Hn2 | exact Hp2
                | right; rewrite Hr; vm_compute; reflexivity | by vm_compute; split | by vm_compute].
    + exfalso. revert Hf. apply not_fatal. vm_compute. reflexivity.
    + exists s', d'. split; [exact Hrun|]. unfold entry_slot in Hli. rewrite tree_bin_of in Hli. change (zlen cat_name) with 3 in Hli.
      rewrite Hf2, Hr in Hli. exact Hli.
Defined.

(** The file 12 is no directory: the file 14 has two links afterwards. *)
Lemma ext2_allocate_direntry_no_directory_witness : exists s', ext2_allocate_direntry 20 12 14 cat_name 1 ~{ tree_state }~> -1; s' /\
  repr s' (View (counted demo_fs tree_disk 14) (1000000 - 3 * ha_cost (X := Kheap.heap (gset Z)) 4096) ∅ demo_fs).
Proof.
  destruct (ext2_allocate_direntry_no_directory tree_state tree_disk 1000000 ∅ demo_fs 20 12 14 cat_name 1 tree_repr tree_mounted
    (demo_valid 12 ltac:(lia)) ltac:(lia) (demo_valid 14 ltac:(lia)) ltac:(lia) ltac:(lia) ltac:(vm_compute; reflexivity) ltac:(vm_compute; congruence))
    as [Hf|(s' & Hrun & Hrepr)].
  - exfalso. revert Hf. apply not_fatal. vm_compute. reflexivity.
  - exists s'. split; [exact Hrun|exact Hrepr].
Defined.

(** ** Defects *)

(** A path of 15 characters: the terminator of its copy lands behind the block. *)
Example strdup_overflow : ext2_resolve_path 20 2 (47 :: replicate 14 97) search0 tree_state = Err (FBound 16).
Proof. vm_compute. reflexivity. Qed.

Definition with_root_block (c : list Z) : state (list Z) (Kheap.heap (gset Z)) := MkState (splice (5 * 4096) c tree_disk) Kheap.heap0 ∅ demo_fs.

(** An entry in the last 264 bytes of its block is found, but copying it reads behind
    the cache. *)
Example find_reads_behind_cache :
  ext2_find_direntry 20 2 bin_name search0 (with_root_block
    (splice 4000 (entry_bytes 13 96 2 bin_name) (splice 0 (entry_bytes 2 4000 2 [46]) (zeros 4096)))) = Err (FBound 4000).
Proof. vm_compute. reflexivity. Qed.

(** A record length of 0 in a directory keeps the loop at its entry. *)
Example record_length_zero : ext2_find_direntry 100 2 bin_name search0 (with_root_block (entry_bytes 2 0 2 [46])) = Err FLoop.
Proof. vm_compute. reflexivity. Qed.

(** The block of the root is full: the new entry gets a second block, but the size
    grows by two blocks. *)
Example size_grows_twice :
  value ((r ← ext2_allocate_direntry 20 2 12 lib_name 1; o ← ext2_read_inode 2; mret (r, fget i_size <$> o))
    (with_root_block (splice 4084 (entry_bytes 13 12 2 bin_name) (splice 0 (entry_bytes 2 4084 2 [46]) (zeros 4096))))) = Some (0, Some 12288).
Proof. vm_compute. reflexivity. Qed.
End Ext2Dir.
