(* ===== verification/Procfs.v ===== *)
(** * The proc file system (src/kernel/fs/procfs.c)

    The files of procfs live in memory, on one list in the order of their creation;
    what is open is on a list of each file. A path or a name is the list of its
    characters without the terminator. A procfs file, its directory entry and its
    list heads are known by the address of the file, a vfs file by its own. *)

From S2P Require Import Prelude Bytes Hoare Interfaces CString Kheap.

Module Procfs.
Open Scope Z_scope.

(** ** Constants *)
Definition PROCFS_NAME_MAX : Z := 255.
Definition PROCFS_MAX_FILES : Z := 1024.
Definition PROCFS_MAGIC_NUMBER : Z := 191.
Definition DT_DIR : Z := 4.
Definition DT_REG : Z := 8.
Definition O_WRONLY : Z := 1.
Definition O_RDWR : Z := 2.
Definition O_CREAT : Z := 64.
Definition O_EXCL : Z := 128.
Definition O_TRUNC : Z := 512.
Definition O_APPEND : Z := 1024.
Definition O_DIRECTORY : Z := 65536.
Definition EPERM : Z := 1.
Definition ENOENT : Z := 2.
Definition EACCES : Z := 13.
Definition EBUSY : Z := 16.
Definition EEXIST : Z := 17.
Definition ENOTDIR : Z := 20.
Definition EISDIR : Z := 21.
Definition EINVAL : Z := 22.
Definition ENFILE : Z := 23.
Definition ENOSYS : Z := 38.
Definition ENOTEMPTY : Z := 39.
Definition NAME_MAX : Z := 255.
Definition PATH_MAX : Z := 4096.
(** S_IRUSR | S_IRGRP | S_IROTH. *)
Definition READ_BY_ALL : Z := 292.
(** sizeof, with the padding after the names. *)
Definition PROCFS_FILE_SIZE : Z := 324.
Definition VFS_FILE_SIZE : Z := 336.
Definition DIRENT_SIZE : Z := 268.

Definition bitmask_check (v m : Z) : bool := negb (Z.land v m =? 0).

(** ** Files

    [dir_sys_operations] and [dir_fs_operations] are those of the directory entry,
    the addresses of tables of functions; [files] is the list of the vfs files that
    are open on the file. *)
Record procfs_file_t := MkFile {
  magic : Z;
  inode : Z;
  flags : Z;
  mask : Z;
  name : list Z;
  uid : Z;
  gid : Z;
  atime : Z;
  mtime : Z;
  ctime : Z;
  dir_sys_operations : Z;
  dir_fs_operations : Z;
  dir_data : Z;
  files : list Z
}.
#[export] Instance eta_file : Eta procfs_file_t := {| eta := fun f =>
  MkFile (magic f) (inode f) (flags f) (mask f) (name f) (uid f) (gid f) (atime f) (mtime f) (ctime f)
    (dir_sys_operations f) (dir_fs_operations f) (dir_data f) (files f) |}.

(** A vfs file; [device] is the directory entry of its procfs file. *)
Record vfs_file_t := MkVfs {
  vname : list Z;
  device : Z;
  vmask : Z;
  vuid : Z;
  vgid : Z;
  vflags : Z;
  ino : Z;
  vlength : Z;
  count : Z
}.

Record stat_t := MkStat { st_uid : Z; st_gid : Z; st_dev : Z; st_ino : Z; st_mode : Z; st_size : Z; st_atime : Z; st_mtime : Z; st_ctime : Z }.
Record dirent_t := MkDirent { d_ino : Z; d_off : Z; d_reclen : Z; d_type : Z; d_name : list Z }.

(** The heap, the list of the files, their number, the files and the open files by
    address, and errno. *)
Record state (X : Type) := MkState {
  st_heap : X;
  st_files : list Z;
  nfiles : Z;
  st_objs : gmap Z procfs_file_t;
  st_vfs : gmap Z vfs_file_t;
  errno : Z
}.
#[global] Arguments MkState {X} _ _ _ _ _ _.
#[global] Arguments st_heap {X} _.
#[global] Arguments st_files {X} _.
#[global] Arguments nfiles {X} _.
#[global] Arguments st_objs {X} _.
#[global] Arguments st_vfs {X} _.
#[global] Arguments errno {X} _.
#[export] Instance eta_state X : Eta (state X) := {| eta := fun s =>
  MkState (st_heap s) (st_files s) (nfiles s) (st_objs s) (st_vfs s) (errno s) |}.

(** ** Paths

    dirname and basename on lists of characters; [last_slash] is the position of the
    last slash. *)
Definition slash : Z := 47.
Fixpoint first_slash (path : list Z) : option nat :=
  match path with [] => None | c :: path => if c =? slash then Some O else S <$> first_slash path end.
Fixpoint last_slash (path : list Z) : option nat :=
  match path with
  | [] => None
  | c :: path => match last_slash path with Some i => Some (S i) | None => if c =? slash then Some O else None end
  end.
Definition dirname (path : list Z) : list Z :=
  match last_slash path with
  | None => [46]
  | Some O => [slash]
  | Some i => if decide (S i = length path) then match first_slash (take i path) with Some j => take j path | None => [46] end
              else take i path
  end.
Definition basename (path : list Z) : list Z :=
  match last_slash path with Some i => drop (S i) path | None => path end.

(** [strcmp(path, ".") == 0] or [".."], and [strcmp(parent, ".") != 0] and ["/"]. *)
Definition is_dots (path : list Z) : bool := bool_decide (path = [46]) || bool_decide (path = [46; 46]).
Definition has_parent (parent : list Z) : bool := negb (bool_decide (parent = [46])) && negb (bool_decide (parent = [slash])).

Section Operations.
Context {X : Type} `{HeapAllocator X} `{!Clock X}.
Abbreviation E := (M (state X)).

Definition on_heap {A} (m : M X A) : E A := zoom st_heap (fun h s => s <| st_heap := h |>) m.
Definition file_at (a : Z) : E procfs_file_t := getsome (FPtr a) (fun s => st_objs s !! a).
Definition upd_file (a : Z) (g : procfs_file_t -> procfs_file_t) : E unit :=
  f ← file_at a; modify (fun s => s <| st_objs := <[a := g f]> (st_objs s) |>).
Definition vfs_at (v : Z) : E vfs_file_t := getsome (FPtr v) (fun s => st_vfs s !! v).
Definition set_errno (e : Z) : E unit := modify (fun s => s <| errno := e |>).
Definition sys_time : E Z := on_heap ck_time.

(** ** Finding files *)
Definition procfs_check_file (f : procfs_file_t) : bool := magic f =? PROCFS_MAGIC_NUMBER.
Definition procfs_get_file (entry : Z) : E (option procfs_file_t) :=
  if entry =? NULL then mret None
  else f ← file_at entry; mret (if procfs_check_file f then Some f else None).

(** The loop over the list of files. *)
Fixpoint find_entry (p : procfs_file_t -> bool) (l : list Z) : E Z :=
  match l with
  | [] => mret NULL
  | it :: l => o ← procfs_get_file it;
               match o with
               | Some f => if p f then mret it else find_entry p l
               | None => find_entry p l
               end
  end.
Definition procfs_find_entry_path (path : list Z) : E Z :=
  l ← gets st_files; find_entry (fun f => bool_decide (name f = path)) l.
Definition procfs_find_entry_inode (i : Z) : E Z :=
  l ← gets st_files; find_entry (fun f => inode f =? i) l.
Definition procfs_find_inode (path : list Z) : E Z :=
  a ← procfs_find_entry_path path;
  if negb (a =? NULL) then f ← file_at a; mret (inode f) else mret (-1).

Fixpoint free_inode_loop (n : nat) (i : Z) : E Z :=
  match n with
  | O => mret (-1)
  | S n => a ← procfs_find_entry_inode i; if a =? NULL then mret i else free_inode_loop n (i + 1)
  end.
Definition procfs_get_free_inode : E Z := free_inode_loop (Z.to_nat (PROCFS_MAX_FILES - 1)) 1.

Fixpoint check_empty_loop (path : list Z) (l : list Z) : E Z :=
  match l with
  | [] => mret 0
  | it :: l =>
      o ← procfs_get_file it;
      match o with
      | Some f => if bool_decide (path = name f) then check_empty_loop path l
                  else if bool_decide (path = dirname (name f)) then mret 1 else check_empty_loop path l
      | None => check_empty_loop path l
      end
  end.
Definition procfs_check_if_empty (path : list Z) : E Z := l ← gets st_files; check_empty_loop path l.

(** ** Creating and destroying files

    kmalloc and memset: the structure is all zeros and the lists are empty. *)
Definition procfs_create_file (path : list Z) (fl : Z) : E Z :=
  a ← on_heap (ha_alloc PROCFS_FILE_SIZE);
  if a =? NULL then mret NULL
  else
    modify (fun s => s <| st_objs := <[a := MkFile 0 0 0 0 [] 0 0 0 0 0 0 0 0 []]> (st_objs s) |>) ;;
    upd_file a (fun f => f <| magic := PROCFS_MAGIC_NUMBER |>) ;;
    i ← procfs_get_free_inode;
    upd_file a (fun f => f <| inode := i |>) ;;
    upd_file a (fun f => f <| flags := fl |>) ;;
    (if zlen path <? PROCFS_NAME_MAX then upd_file a (fun f => f <| name := path |>) else fail (FBound (zlen path))) ;;
    modify (fun s => s <| st_files := st_files s ++ [a] |>) ;;
    t ← sys_time;
    upd_file a (fun f => f <| atime := t |>) ;;
    upd_file a (fun f => f <| mtime := t |>) ;;
    upd_file a (fun f => f <| ctime := t |>) ;;
    modify (fun s => s <| nfiles := u32 (nfiles s + 1) |>) ;;
    mret a.

Definition procfs_destroy_file (a : Z) : E Z :=
  if a =? NULL then mret 1
  else
    file_at a ;;
    modify (fun s => s <| st_files := filter (.≠ a) (st_files s) |>) ;;
    on_heap (ha_free a) ;;
    modify (fun s => s <| st_objs := delete a (st_objs s) |>) ;;
    modify (fun s => s <| nfiles := u32 (nfiles s - 1) |>) ;;
    mret 0.

(** strcpy does not overflow: both arrays have 255 bytes. *)
Definition procfs_create_file_struct (a : Z) : E Z :=
  if a =? NULL then mret NULL
  else
    v ← on_heap (ha_alloc VFS_FILE_SIZE);
    if v =? NULL then mret NULL
    else
      f ← file_at a;
      modify (fun s => s <| st_vfs := <[v := MkVfs (name f) a READ_BY_ALL 0 0 (flags f) (u32 (inode f)) 0 0]> (st_vfs s) |>) ;;
      mret v.

(** ** The operations of the virtual file system *)
Definition procfs_mkdir (path : list Z) : E Z :=
  if is_dots path then mret (- EPERM)
  else
    a ← procfs_find_entry_path path;
    if negb (a =? NULL) then mret (- EEXIST)
    else
      let parent := dirname path in
      e ← (if has_parent parent then
             q ← procfs_find_entry_path parent;
             if q =? NULL then mret (- ENOENT)
             else f ← file_at q; mret (if Z.land (flags f) DT_DIR =? 0 then - ENOTDIR else 0)
           else mret 0);
      if negb (e =? 0) then mret e
      else a ← procfs_create_file path DT_DIR; mret (if a =? NULL then - ENFILE else 0).

Definition procfs_rmdir (path : list Z) : E Z :=
  if is_dots path then mret (- EPERM)
  else
    a ← procfs_find_entry_path path;
    if a =? NULL then mret (- ENOENT)
    else
      f ← file_at a;
      if Z.land (flags f) DT_DIR =? 0 then mret (- ENOTDIR)
      else if negb (bool_decide (files f = [])) then mret (- EBUSY)
      else
        c ← procfs_check_if_empty (name f);
        if negb (c =? 0) then mret (- ENOTEMPTY)
        else procfs_destroy_file a ;; mret 0.

(** [errno = e; return NULL]. *)
Definition no_file (e : Z) : E Z := set_errno e ;; mret NULL.
(** The vfs file is put on the list of its procfs file. *)
Definition add_open (a v : Z) : E unit := upd_file a (fun f => f <| files := files f ++ [v] |>).
(** A vfs file for a file that is there; its access is noted. *)
Definition open_existing (a : Z) : E Z :=
  v ← procfs_create_file_struct a;
  if v =? NULL then no_file ENFILE
  else t ← sys_time; upd_file a (fun f => f <| atime := t |>) ;; add_open a v ;; mret v.

Definition procfs_open (path : list Z) (fl mode : Z) : E Z :=
  let parent_path := dirname path in
  e ← (if has_parent parent_path then
         q ← procfs_find_entry_path parent_path;
         if q =? NULL then mret ENOENT
         else f ← file_at q; mret (if bitmask_check (flags f) DT_DIR then 0 else ENOTDIR)
       else mret 0);
  if negb (e =? 0) then no_file e
  else
    a ← procfs_find_entry_path path;
    if negb (a =? NULL) then
      if bitmask_check fl (Z.lor O_CREAT O_EXCL) then no_file EEXIST
      else
        f ← file_at a;
        if bitmask_check fl O_DIRECTORY then
          if negb (bitmask_check (flags f) DT_DIR) then no_file ENOTDIR
          else if bitmask_check fl O_RDWR || bitmask_check fl O_WRONLY then no_file EISDIR
          else open_existing a
        else if bitmask_check (flags f) DT_DIR then no_file EISDIR
        else open_existing a
    else if bitmask_check fl O_CREAT then
      a ← procfs_create_file path DT_REG;
      if a =? NULL then no_file ENFILE
      else
        v ← procfs_create_file_struct a;
        if v =? NULL then no_file ENFILE
        else add_open a v ;; mret v
    else no_file ENOENT.

(** The file is taken from the list it is on. *)
Definition procfs_close (v : Z) : E Z :=
  vfs_at v ;;
  modify (fun s => s <| st_objs := (fun f => f <| files := filter (.≠ v) (files f) |>) <$> st_objs s |>) ;;
  on_heap (ha_free v) ;;
  modify (fun s => s <| st_vfs := delete v (st_vfs s) |>) ;;
  mret 0.

Definition procfs_unlink (path : list Z) : E Z :=
  if is_dots path then mret (- EPERM)
  else
    a ← procfs_find_entry_path path;
    if negb (a =? NULL) then mret (- EEXIST)
    else
      f ← file_at a;
      if Z.land (flags f) DT_REG =? 0 then
        mret (if negb (Z.land (flags f) DT_DIR =? 0) then - EISDIR else - EACCES)
      else if negb (bool_decide (files f = [])) then mret (- EACCES)
      else procfs_destroy_file a ;; mret 0.

Definition __procfs_stat (f : procfs_file_t) : stat_t :=
  MkStat (uid f) (gid f) 0 (u32 (inode f)) (flags f) 0 (atime f) (mtime f) (ctime f).

(** The functions of the entries: [None] is a null pointer. *)
Record operations := MkOperations {
  read_f : option (Z -> Z -> Z -> E (Z * list Z));
  write_f : option (Z -> list Z -> Z -> E Z);
  lseek_f : option (Z -> Z -> Z -> E Z);
  fstat_f : option (Z -> E (Z * stat_t));
  ioctl_f : option (Z -> Z -> Z -> E Z)
}.
Variable fs_table : Z -> operations.
Variable sys_stat : Z -> option (list Z -> E (Z * stat_t)).

(** The function [g] of the entry of the file; [dflt] when there is none. *)
Definition dispatch {F A} (v : Z) (g : operations -> option F) (call : F -> E A) (none : E A) (dflt : procfs_file_t -> E A) : E A :=
  if v =? NULL then none
  else
    file ← vfs_at v;
    a ← procfs_find_entry_inode (s32 (ino file));
    if a =? NULL then none
    else
      f ← file_at a;
      if dir_fs_operations f =? NULL then dflt f
      else match g (fs_table (dir_fs_operations f)) with Some op => call op | None => dflt f end.

Definition procfs_read (v offset nbyte : Z) : E (Z * list Z) :=
  dispatch v read_f (fun op => op v offset nbyte) (mret (- ENOSYS, [])) (fun _ => mret (- ENOSYS, [])).
Definition procfs_write (v : Z) (buf : list Z) (offset : Z) : E Z :=
  dispatch v write_f (fun op => op v buf offset) (mret (- ENOSYS)) (fun _ => mret (- ENOSYS)).
Definition procfs_lseek (v offset whence : Z) : E Z :=
  dispatch v lseek_f (fun op => op v offset whence) (mret (- ENOSYS)) (fun _ => mret (- EINVAL)).
Definition procfs_ioctl (v request data : Z) : E Z :=
  dispatch v ioctl_f (fun op => op v request data) (mret (-1)) (fun _ => mret (-1)).
Definition procfs_fstat (v : Z) (stat : stat_t) : E (Z * stat_t) :=
  dispatch v fstat_f (fun op => op v) (mret (- ENOSYS, stat)) (fun f => mret (0, __procfs_stat f)).
Definition procfs_stat (path : list Z) (stat : stat_t) : E (Z * stat_t) :=
  a ← procfs_find_entry_path path;
  if a =? NULL then mret (-1, stat)
  else
    f ← file_at a;
    if dir_sys_operations f =? NULL then mret (0, __procfs_stat f)
    else match sys_stat (dir_sys_operations f) with Some op => op path | None => mret (0, __procfs_stat f) end.

(** The loop of procfs_getdents: [current] entries of the directory have been seen,
    [written] bytes are in the buffer of [count] bytes, [out] are the entries in it.
    An entry that does not fit behind [written] is stored outside the buffer. *)
Fixpoint getdents_loop (l : list Z) (dir : list Z) (len current doff written count : Z) (out : list dirent_t) : E (Z * list dirent_t) :=
  match l with
  | [] => mret (written, out)
  | it :: l =>
      o ← procfs_get_file it;
      match o with
      | None => getdents_loop l dir len current doff written count out
      | Some f =>
          if bool_decide (dir = name f) then getdents_loop l dir len current doff written count out
          else if negb (bool_decide (dir = dirname (name f))) then getdents_loop l dir len current doff written count out
          else if current <? doff then getdents_loop l dir len (current + 1) doff written count out
          else
            let len := if nth (Z.to_nat len) (name f) 0 =? slash then len + 1 else len in
            (if written + DIRENT_SIZE <=? count then mret tt else fail (FBound written)) ;;
            let out := out ++ [MkDirent (u32 (inode f)) DIRENT_SIZE DIRENT_SIZE (u16 (flags f)) (drop (Z.to_nat len) (name f))] in
            let written := written + DIRENT_SIZE in
            if count <=? written then mret (written, out)
            else getdents_loop l dir len (current + 1) doff written count out
      end
  end.
Definition procfs_getdents (v doff count : Z) : E (Z * list dirent_t) :=
  if v =? NULL then mret (-1, [])
  else
    file ← vfs_at v;
    a ← procfs_find_entry_inode (s32 (ino file));
    if a =? NULL then mret (- ENOENT, [])
    else
      f ← file_at a;
      if Z.land (flags f) DT_DIR =? 0 then mret (- ENOTDIR, [])
      else l ← gets st_files; getdents_loop l (name f) (zlen (name f)) 0 doff 0 count [].

Definition procfs_mount_callback (path : list Z) : E Z :=
  a ← procfs_create_file path DT_DIR;
  v ← procfs_create_file_struct a;
  add_open a v ;;
  mret v.

(** ** The interface for the kernel

    The path of an entry: [/proc/], the name of the parent if there is one, the
    name, in an array of PATH_MAX bytes. The name of an entry is the last component of
    the name of its file. *)
Definition proc_path : list Z := [47; 112; 114; 111; 99; 47].
Definition entry_path (nm : list Z) (parent : Z) : E (list Z) :=
  path ← (if parent =? NULL then mret (proc_path ++ nm)
          else f ← file_at parent; mret (proc_path ++ basename (name f) ++ [slash] ++ nm));
  if zlen path <? PATH_MAX then mret path else fail (FBound (zlen path)).

Definition proc_dir_entry_get (nm : list Z) (parent : Z) : E Z :=
  path ← entry_path nm parent; procfs_find_entry_path path.
(** proc_mkdir and proc_create_entry differ in the type. *)
Definition proc_create (fl : Z) (nm : list Z) (parent : Z) : E Z :=
  path ← entry_path nm parent;
  a ← procfs_find_entry_path path;
  if negb (a =? NULL) then no_file EEXIST
  else
    a ← procfs_create_file path fl;
    if a =? NULL then no_file ENFILE else mret a.
Definition proc_mkdir (nm : list Z) (parent : Z) : E Z := proc_create DT_DIR nm parent.
Definition proc_create_entry (nm : list Z) (parent : Z) : E Z := proc_create DT_REG nm parent.

Definition proc_rmdir (nm : list Z) (parent : Z) : E Z :=
  path ← entry_path nm parent;
  a ← procfs_find_entry_path path;
  if a =? NULL then mret (- ENOENT)
  else
    f ← file_at a;
    if Z.land (flags f) DT_DIR =? 0 then mret (- ENOTDIR)
    else
      c ← procfs_check_if_empty (name f);
      if negb (c =? 0) then mret (- ENOTEMPTY)
      else if negb (bool_decide (files f = [])) then mret (- EBUSY)
      else r ← procfs_destroy_file a; mret (if negb (r =? 0) then - ENOENT else 0).

Definition proc_destroy_entry (nm : list Z) (parent : Z) : E Z :=
  path ← entry_path nm parent;
  a ← procfs_find_entry_path path;
  if a =? NULL then mret (- ENOENT)
  else
    f ← file_at a;
    if Z.land (flags f) DT_REG =? 0 then mret (- ENOENT)
    else if negb (bool_decide (files f = [])) then mret (- EBUSY)
    else r ← procfs_destroy_file a; mret (if negb (r =? 0) then - ENOENT else 0).

Definition procfs_init : E Z :=
  modify (fun s => s <| st_files := [] |>) ;; modify (fun s => s <| nfiles := 0 |>) ;; mret 0.
End Operations.

(** ** What the proofs see of a state

    The files with their addresses in the order of the list, the open files, the room
    on the heap and errno. *)
Record view := View { v_files : list (Z * procfs_file_t); v_vfs : gmap Z vfs_file_t; v_room : Z; v_errno : Z }.

(** The first file that is in order and satisfies [p], and the address a search gives. *)
Definition find_file (p : procfs_file_t -> bool) (l : list (Z * procfs_file_t)) : option (Z * procfs_file_t) :=
  snd <$> list_find (fun x => (procfs_check_file x.2 && p x.2) = true) l.
Definition addr (o : option (Z * procfs_file_t)) : Z := match o with Some x => x.1 | None => NULL end.
Definition by_name (path : list Z) (l : list (Z * procfs_file_t)) := find_file (fun f => bool_decide (name f = path)) l.
Definition by_inode (i : Z) (l : list (Z * procfs_file_t)) := find_file (fun f => inode f =? i) l.

(** The first inode number that is not in use. *)
Fixpoint free_from (n : nat) (i : Z) (l : list (Z * procfs_file_t)) : Z :=
  match n with O => -1 | S n => match by_inode i l with None => i | Some _ => free_from n (i + 1) l end end.
Definition free_inode (l : list (Z * procfs_file_t)) : Z := free_from (Z.to_nat (PROCFS_MAX_FILES - 1)) 1 l.
(** Whether a directory has no entries. *)
Definition child_of (path : list Z) (f : procfs_file_t) : bool :=
  procfs_check_file f && negb (bool_decide (path = name f)) && bool_decide (path = dirname (name f)).
Definition childless (path : list Z) (l : list (Z * procfs_file_t)) : bool := forallb (fun x => negb (child_of path x.2)) l.

Section Repr.
Context {X : Type} `{HeapAllocator X}.
Implicit Types (v : view) (s : state X).

Record repr s v : Prop := {
  r_files : st_files s = (v_files v).*1;
  r_objs : st_objs s = list_to_map (v_files v);
  r_nodup : NoDup (v_files v).*1;
  r_count : nfiles s = u32 (Z.of_nat (length (v_files v)));
  r_vfs : st_vfs s = v_vfs v;
  r_errno : errno s = v_errno v;
  r_room : ha_room (st_heap s) (v_room v);
  r_heap : exists al, ha_ok (st_heap s) al /\ (forall a, a ∈ (v_files v).*1 -> al !! a = Some PROCFS_FILE_SIZE) /\
    (forall a, is_Some (v_vfs v !! a) -> al !! a = Some VFS_FILE_SIZE)
}.

Lemma r_obj s v a f : repr s v -> (a, f) ∈ v_files v -> st_objs s !! a = Some f.
Proof. intros Hs Hin. rewrite (r_objs _ _ Hs). apply elem_of_list_to_map_1; [apply Hs|done]. Qed.
Lemma r_positive s v a : repr s v -> a ∈ (v_files v).*1 -> 0 < a.
Proof. intros Hs Ha. destruct (r_heap _ _ Hs) as (al & Hal & Hf & _). by eapply ha_positive, Hf. Qed.
Lemma r_vfs_positive s v a : repr s v -> is_Some (v_vfs v !! a) -> 0 < a.
Proof. intros Hs Ha. destruct (r_heap _ _ Hs) as (al & Hal & _ & Hv). by eapply ha_positive, Hv. Qed.

(** *** Searching *)
Lemma file_at_run s a f : st_objs s !! a = Some f -> file_at a ~{ s }~> f; s.
Proof. intros Ha. by apply getsome_ok. Qed.
Lemma get_file_run s a f : st_objs s !! a = Some f -> a <> NULL -> procfs_get_file a ~{ s }~> (if procfs_check_file f then Some f else None); s.
Proof. intros Ha Hn. unfold procfs_get_file. rewrite (proj2 (Z.eqb_neq a NULL)) by done. by rewrite (bind_ok _ _ _ _ _ (file_at_run s a f Ha)). Qed.
Lemma find_entry_run s p l : (forall x, x ∈ l -> st_objs s !! x.1 = Some x.2 /\ x.1 <> NULL) ->
  find_entry p l.*1 ~{ s }~> addr (find_file p l); s.
Proof.
  unfold find_file. induction l as [|[a f] l IH]; intros Hl; [done|]. cbn [fmap list_fmap find_entry list_find fst snd].
  destruct (Hl (a, f) ltac:(by left)) as [Ha Hn]. cbn [fst snd] in Ha, Hn.
  rewrite (bind_ok _ _ _ _ _ (get_file_run s a f Ha Hn)). assert (IH' := IH ltac:(intros x Hx; apply Hl; by right)).
  destruct (procfs_check_file f); cbn [andb]; [destruct (p f)|].
  - by rewrite decide_True.
  - rewrite decide_False by done. rewrite IH'. by destruct (list_find _ l) as [[]|].
  - rewrite decide_False by done. rewrite IH'. by destruct (list_find _ l) as [[]|].
Qed.
Lemma repr_members s v x : repr s v -> x ∈ v_files v -> st_objs s !! x.1 = Some x.2 /\ x.1 <> NULL.
Proof.
  intros Hs Hx. destruct x as [a f]. split; [by eapply r_obj|]. unfold NULL. assert (0 < a); [|simpl; lia].
  eapply r_positive; [done|]. by apply (list_elem_of_fmap_2 fst _ (a, f)).
Qed.
Lemma find_path_run s path l : st_files s = l.*1 -> (forall x, x ∈ l -> st_objs s !! x.1 = Some x.2 /\ x.1 <> NULL) ->
  procfs_find_entry_path path ~{ s }~> addr (by_name path l); s.
Proof. intros Hf Hl. unfold procfs_find_entry_path. rewrite (bind_ok _ _ s (st_files s) s) by done. rewrite Hf. by apply find_entry_run. Qed.
Lemma find_inode_run s i l : st_files s = l.*1 -> (forall x, x ∈ l -> st_objs s !! x.1 = Some x.2 /\ x.1 <> NULL) ->
  procfs_find_entry_inode i ~{ s }~> addr (by_inode i l); s.
Proof. intros Hf Hl. unfold procfs_find_entry_inode. rewrite (bind_ok _ _ s (st_files s) s) by done. rewrite Hf. by apply find_entry_run. Qed.
Lemma free_inode_run s l : st_files s = l.*1 -> (forall x, x ∈ l -> st_objs s !! x.1 = Some x.2 /\ x.1 <> NULL) ->
  procfs_get_free_inode ~{ s }~> free_inode l; s.
Proof.
  intros Hf Hl. unfold procfs_get_free_inode, free_inode. generalize (Z.to_nat (PROCFS_MAX_FILES - 1)) as n.
  intros n. generalize 1 as i. induction n as [|n IH]; intros i; [done|]. cbn [free_inode_loop free_from].
  rewrite (bind_ok _ _ _ _ _ (find_inode_run s i l Hf Hl)). unfold by_inode, find_file.
  destruct (list_find _ l) as [[k x]|] eqn:E; cbn [fmap option_fmap option_map addr snd].
  - apply list_find_Some in E as (Hk & _ & _). apply list_elem_of_lookup_2 in Hk. destruct (Hl x Hk) as [_ Hn].
    rewrite (proj2 (Z.eqb_neq _ _)) by done. apply IH.
  - done.
Qed.
Lemma check_empty_run s path l : st_files s = l.*1 -> (forall x, x ∈ l -> st_objs s !! x.1 = Some x.2 /\ x.1 <> NULL) ->
  procfs_check_if_empty path ~{ s }~> (if childless path l then 0 else 1); s.
Proof.
  intros Hf Hl. unfold procfs_check_if_empty. rewrite (bind_ok _ _ s (st_files s) s) by done. rewrite Hf. clear Hf.
  induction l as [|[a f] l IH]; [done|]. cbn [fmap list_fmap check_empty_loop childless forallb fst snd].
  destruct (Hl (a, f) ltac:(by left)) as [Ha Hn]. cbn [fst snd] in Ha, Hn. assert (IH' := IH ltac:(intros x Hx; apply Hl; by right)).
  rewrite (bind_ok _ _ _ _ _ (get_file_run s a f Ha Hn)).
  unfold child_of. destruct (procfs_check_file f); cbn [andb negb]; [|done].
  destruct (bool_decide (path = name f)); cbn [andb negb]; [done|]. by destruct (bool_decide (path = dirname (name f))).
Qed.
End Repr.

(** ** Rules *)
Definition new_file (fl : Z) (path : list Z) (i t : Z) : procfs_file_t :=
  MkFile PROCFS_MAGIC_NUMBER i fl 0 path 0 0 t t t 0 0 0 [].
Definition new_vfs (a : Z) (f : procfs_file_t) : vfs_file_t := MkVfs (name f) a READ_BY_ALL 0 0 (flags f) (u32 (inode f)) 0 0.
(** One file of the list is changed. *)
Definition set_file (a : Z) (g : procfs_file_t -> procfs_file_t) (l : list (Z * procfs_file_t)) : list (Z * procfs_file_t) :=
  (fun x => if decide (x.1 = a) then (x.1, g x.2) else x) <$> l.

Lemma set_file_fst a g l : (set_file a g l).*1 = l.*1.
Proof. unfold set_file. rewrite <- list_fmap_compose. apply list_fmap_ext. intros i x _. simpl. by case_decide. Qed.
Lemma set_file_elem a g l b f : (b, f) ∈ set_file a g l <-> exists f', (b, f') ∈ l /\ f = if decide (b = a) then g f' else f'.
Proof.
  unfold set_file. rewrite list_elem_of_fmap. split.
  - intros ([b' f'] & Heq & Hin). cbn [fst snd] in Heq. case_decide; injection Heq as -> ->; exists f'; split; try done; by case_decide.
  - intros (f' & Hin & ->). exists (b, f'). split; [|done]. cbn [fst snd]. by case_decide.
Qed.
Lemma set_file_map a g l f : NoDup l.*1 -> (a, f) ∈ l ->
  list_to_map (set_file a g l) = <[a := g f]> (list_to_map l : gmap Z procfs_file_t).
Proof.
  intros Hnd Hin. apply map_eq. intros b. destruct (decide (b = a)) as [->|Hne].
  - rewrite lookup_insert_eq. apply elem_of_list_to_map_1; [by rewrite set_file_fst|]. apply set_file_elem. exists f. by rewrite decide_True.
  - rewrite lookup_insert_ne by done. destruct ((list_to_map l : gmap Z _) !! b) as [f'|] eqn:E.
    + apply elem_of_list_to_map_2 in E. apply elem_of_list_to_map_1; [by rewrite set_file_fst|].
      apply set_file_elem. exists f'. by rewrite decide_False.
    + apply not_elem_of_list_to_map_2 in E. apply not_elem_of_list_to_map_1. by rewrite set_file_fst.
Qed.

#[export] Instance eta_view : Eta view := {| eta := fun v => View (v_files v) (v_vfs v) (v_room v) (v_errno v) |}.

(** Projections of record updates. *)
Ltac fields := cbn [setter magic inode flags mask name uid gid atime mtime ctime dir_sys_operations dir_fs_operations dir_data files
  st_heap st_files nfiles st_objs st_vfs errno v_files v_vfs v_room v_errno].

Section Rules.
Context {X : Type} `{HeapAllocator X} `{!Clock X}.
Abbreviation tri := (triple (repr (X := X))).
Abbreviation cost := (ha_cost (X := X)).
Implicit Types (v : view) (s : state X).

Lemma upd_file_run s a f g : st_objs s !! a = Some f -> upd_file a g ~{ s }~> tt; s <| st_objs := <[a := g f]> (st_objs s) |>.
Proof. intros Ha. unfold upd_file. by rewrite (bind_ok _ _ _ _ _ (file_at_run s a f Ha)). Qed.

Lemma tri_run {A} v (m : M (state X) A) (a : A) (Q : A -> view -> Prop) :
  (forall s, repr s v -> m ~{ s }~> a; s) -> Q a v -> tri v m Q.
Proof. intros Hm HQ s Hs. apply wp_of_run. right. exists a, s. split; [by apply Hm|]. by exists v. Qed.
Lemma tri_find_path v path (Q : Z -> view -> Prop) : Q (addr (by_name path (v_files v))) v -> tri v (procfs_find_entry_path path) Q.
Proof. apply tri_run. intros s Hs. apply find_path_run; [by apply Hs|]. intros x. by apply repr_members. Qed.
Lemma tri_find_inode v i (Q : Z -> view -> Prop) : Q (addr (by_inode i (v_files v))) v -> tri v (procfs_find_entry_inode i) Q.
Proof. apply tri_run. intros s Hs. apply find_inode_run; [by apply Hs|]. intros x. by apply repr_members. Qed.
Lemma tri_check_empty v path (Q : Z -> view -> Prop) : Q (if childless path (v_files v) then 0 else 1) v -> tri v (procfs_check_if_empty path) Q.
Proof. apply tri_run. intros s Hs. apply check_empty_run; [by apply Hs|]. intros x. by apply repr_members. Qed.
Lemma tri_file_at v a f (Q : procfs_file_t -> view -> Prop) : (a, f) ∈ v_files v -> Q f v -> tri v (file_at a) Q.
Proof. intros Hin. apply tri_run. intros s Hs. apply file_at_run. by eapply r_obj. Qed.
Lemma tri_vfs_at v a file (Q : vfs_file_t -> view -> Prop) : v_vfs v !! a = Some file -> Q file v -> tri v (vfs_at a) Q.
Proof. intros Ha. apply tri_run. intros s Hs. apply getsome_ok. by rewrite (r_vfs _ _ Hs). Qed.

(** What a search finds is a file; nothing has the address null. *)
Lemma find_file_elem p l x : find_file p l = Some x -> x ∈ l /\ procfs_check_file x.2 = true /\ p x.2 = true.
Proof.
  unfold find_file. destruct (list_find _ l) as [[i y]|] eqn:E; [|done]. intros [= <-].
  apply list_find_Some in E as (Hi & Hp & _). apply andb_true_iff in Hp. split; [by eapply list_elem_of_lookup_2|done].
Qed.
Lemma find_file_none p l : find_file p l = None -> forall x, x ∈ l -> procfs_check_file x.2 = true -> p x.2 = false.
Proof.
  unfold find_file. destruct (list_find _ l) as [[i y]|] eqn:E; [done|]. intros _ x Hx Hc.
  apply list_find_None in E. rewrite Forall_forall in E. specialize (E x Hx). rewrite Hc in E. cbn [andb] in E.
  by destruct (p x.2); [exfalso; apply E|].
Qed.
(** A search that comes back with an address, or with null. *)
Lemma tri_case v o {A} (k1 k2 : M (state X) A) (Q : A -> view -> Prop) : (forall x, o = Some x -> x ∈ v_files v) ->
  (o = None -> tri v k1 Q) -> (forall a f, o = Some (a, f) -> (a, f) ∈ v_files v -> tri v k2 Q) -> tri v (if addr o =? NULL then k1 else k2) Q.
Proof.
  intros Hin Hnone Hsome. destruct o as [[a f]|]; cbn [addr fst]; [|by apply Hnone].
  intros s Hs. pose proof (r_positive s v a Hs ltac:(apply (list_elem_of_fmap_2 fst _ (a, f)); by apply Hin)).
  rewrite (proj2 (Z.eqb_neq a NULL)) by (unfold NULL; lia). by eapply Hsome; [..|exact Hs]; [|apply Hin].
Qed.
Lemma tri_case_not v o {A} (k1 k2 : M (state X) A) (Q : A -> view -> Prop) : (forall x, o = Some x -> x ∈ v_files v) ->
  (o = None -> tri v k2 Q) -> (forall a f, o = Some (a, f) -> (a, f) ∈ v_files v -> tri v k1 Q) -> tri v (if negb (addr o =? NULL) then k1 else k2) Q.
Proof. intros Hin Hnone Hsome. assert (Ht := tri_case v o k2 k1 Q Hin Hnone Hsome). by destruct (addr o =? NULL). Qed.

Lemma tri_time v (Q : Z -> view -> Prop) : (forall t, Q t v) -> tri v (sys_time) Q.
Proof.
  intros HQ s Hs. destruct (r_heap _ _ Hs) as (al & Hal & Hf & Hv). apply wp_zoom, wp_of_run. right.
  destruct (ck_law _ _ Hal) as (t & x' & Hrun & Hal' & Hroom). exists t, x'. split; [done|]. exists v. split; [|apply HQ].
  destruct Hs. split; try done; [by apply Hroom|]. by exists al.
Qed.
Lemma tri_upd v a f g (Q : unit -> view -> Prop) : (a, f) ∈ v_files v ->
  Q tt (v <| v_files := set_file a g (v_files v) |>) -> tri v (upd_file a g) Q.
Proof.
  intros Hin HQ s Hs. apply wp_of_run. right. pose proof (r_obj s v a f Hs Hin) as Ha.
  eexists _, _. split; [by apply upd_file_run|]. eexists. split; [|exact HQ].
  destruct Hs as [R1 R2 R3 R4 R5 R6 R7 R8]. split; simpl; rewrite ?set_file_fst; try done.
  - by rewrite (set_file_map a g _ f), R2.
  - unfold set_file. by rewrite length_fmap.
Qed.
Lemma tri_set_errno v e (Q : unit -> view -> Prop) : Q tt (v <| v_errno := e |>) -> tri v (set_errno e) Q.
Proof. intros HQ. eapply triple_modify; [|exact HQ]. by intros s []. Qed.
Lemma tri_no_file v e (Q : Z -> view -> Prop) : Q NULL (v <| v_errno := e |>) -> tri v (no_file e) Q.
Proof. intros HQ. by apply triple_bind, tri_set_errno, triple_ret. Qed.

(** *** Creating and destroying *)
Lemma alloc_fresh s v size m : repr s v -> 0 < size < 65536 -> 0 <= m -> v_room v = cost size + m ->
  on_heap (ha_alloc size) ~{ s }~>! FFatal \/
  exists a x', on_heap (ha_alloc size) ~{ s }~> a; s <| st_heap := x' |> /\ 0 < a /\ a ∉ (v_files v).*1 /\ v_vfs v !! a = None /\
    ha_room x' m /\ exists al, ha_ok x' al /\ al !! a = Some size /\ (forall b, b ∈ (v_files v).*1 -> al !! b = Some PROCFS_FILE_SIZE) /\
      (forall b, is_Some (v_vfs v !! b) -> al !! b = Some VFS_FILE_SIZE).
Proof.
  intros Hs Hsize Hm Hroom. destruct (r_heap _ _ Hs) as (al & Hal & Hf & Hv). pose proof (r_room _ _ Hs) as Hr. rewrite Hroom in Hr.
  unfold on_heap, zoom. destruct (ha_alloc_law (st_heap s) al size m Hal Hsize Hm Hr) as [Herr|(a & x' & Hrun & Hok & Hnew & Hroom')].
  - left. by rewrite Herr.
  - right. exists a, x'. rewrite Hrun. split; [done|]. split; [by eapply ha_positive, lookup_insert_eq|].
    assert (Hd : forall b t, al !! b = Some t -> b <> a) by (intros b t Hb ->; congruence).
    split; [intros Hin; specialize (Hf a Hin); congruence|].
    split; [destruct (v_vfs v !! a) eqn:E; [|done]; specialize (Hv a ltac:(by eexists)); congruence|].
    split; [done|]. exists (<[a := size]> al). split; [done|]. split; [apply lookup_insert_eq|].
    split; intros b Hb; rewrite lookup_insert_ne; auto; apply not_eq_sym; eapply Hd; eauto.
Qed.

Lemma time_run s t x' : ck_time (st_heap s) = Ok (t, x') -> sys_time ~{ s }~> t; s <| st_heap := x' |>.
Proof. intros Ht. unfold sys_time, on_heap, zoom. by rewrite Ht. Qed.
Lemma upd_new_run h l n m vf e a f g :
  upd_file a g ~{ MkState (X := X) h l n (<[a := f]> m) vf e }~> tt; MkState h l n (<[a := g f]> m) vf e.
Proof. rewrite (upd_file_run _ a f g) by apply lookup_insert_eq. unfold setter. simpl. by rewrite insert_insert_eq. Qed.
Lemma list_to_map_snoc (l : list (Z * procfs_file_t)) a f : a ∉ l.*1 -> (list_to_map (l ++ [(a, f)]) : gmap Z procfs_file_t) = <[a := f]> (list_to_map l).
Proof.
  intros Ha. rewrite list_to_map_app. cbn [list_to_map foldr fst snd]. rewrite <- insert_union_r; [by rewrite map_union_empty|].
  by apply not_elem_of_list_to_map_1.
Qed.

Lemma tri_create_file v path fl (Q : Z -> view -> Prop) : zlen path < PROCFS_NAME_MAX -> cost PROCFS_FILE_SIZE <= v_room v ->
  (forall a t, 0 < a -> a ∉ (v_files v).*1 -> v_vfs v !! a = None ->
     Q a (View (v_files v ++ [(a, new_file fl path (free_inode (v_files v)) t)]) (v_vfs v) (v_room v - cost PROCFS_FILE_SIZE) (v_errno v))) ->
  tri v (procfs_create_file path fl) Q.
Proof.
  intros Hlen Hroom HQ s Hs. unfold procfs_create_file.
  destruct (alloc_fresh s v PROCFS_FILE_SIZE (v_room v - cost PROCFS_FILE_SIZE) Hs ltac:(done) ltac:(lia) ltac:(lia))
    as [Herr|(a & x' & Hrun & Ha & Hnew & Hnv & Hroom' & al & Hal & Hala & Hf & Hv)].
  { apply wp_of_run. left. by apply bind_err. }
  destruct s as [h l n m vf e]. cbn [st_heap st_files nfiles st_objs st_vfs errno] in *.
  assert (Hmem : forall g x, x ∈ v_files v -> (<[a := g]> m) !! x.1 = Some x.2 /\ x.1 <> NULL).
  { intros g x Hx. rewrite lookup_insert_ne; [by apply (repr_members _ _ x Hs)|]. intros ->. by apply Hnew, list_elem_of_fmap_2. }
  destruct (ck_law x' al Hal) as (t & x2 & Htime & Hal2 & Hroom2).
  apply wp_of_run. right. rewrite (bind_ok _ _ _ _ _ Hrun). cbv beta. rewrite (proj2 (Z.eqb_neq a NULL)) by (unfold NULL; lia).
  exists a, (MkState x2 (l ++ [a]) (u32 (n + 1)) (<[a := new_file fl path (free_inode (v_files v)) t]> m) vf e). split.
  - erewrite (bind_ok (modify _)) by reflexivity. fields.
    rewrite (bind_ok _ _ _ _ _ (upd_new_run _ _ _ _ _ _ a _ _)). fields.
    erewrite (bind_ok procfs_get_free_inode); [|apply (free_inode_run _ (v_files v)); [apply (r_files _ _ Hs)|exact (Hmem _)]].
    do 2 (rewrite (bind_ok _ _ _ _ _ (upd_new_run _ _ _ _ _ _ a _ _)); fields).
    rewrite (proj2 (Z.ltb_lt _ _)) by done.
    rewrite (bind_ok _ _ _ _ _ (upd_new_run _ _ _ _ _ _ a _ _)). fields.
    erewrite (bind_ok (modify _)) by reflexivity. fields.
    erewrite (bind_ok sys_time); [|apply (time_run _ t x2); exact Htime]. fields.
    do 3 (rewrite (bind_ok _ _ _ _ _ (upd_new_run _ _ _ _ _ _ a _ _)); fields).
    reflexivity.
  - eexists. split; [|by apply (HQ a t)]. destruct Hs as [R1 R2 R3 R4 R5 R6 R7 R8]. cbn in R1, R2, R4, R5, R6. split; fields; try done.
    + rewrite fmap_app. by rewrite R1.
    + by rewrite list_to_map_snoc, R2.
    + rewrite fmap_app. apply NoDup_app. split; [done|]. split; [|apply NoDup_singleton]. intros b Hb Hb'%list_elem_of_singleton. by subst.
    + rewrite R4, length_app. cbn [length]. unfold u32. rewrite Zplus_mod_idemp_l. f_equal. lia.
    + by apply Hroom2.
    + exists al. split; [done|]. split; [|done]. intros b. rewrite fmap_app, elem_of_app. intros [Hb|Hb%list_elem_of_singleton]; [by apply Hf|by subst].
Qed.

Lemma tri_create_file_struct v a f (Q : Z -> view -> Prop) : (a, f) ∈ v_files v -> cost VFS_FILE_SIZE <= v_room v ->
  (forall w, 0 < w -> w ∉ (v_files v).*1 -> v_vfs v !! w = None ->
     Q w (View (v_files v) (<[w := new_vfs a f]> (v_vfs v)) (v_room v - cost VFS_FILE_SIZE) (v_errno v))) ->
  tri v (procfs_create_file_struct a) Q.
Proof.
  intros Hin Hroom HQ s Hs. unfold procfs_create_file_struct.
  pose proof (r_positive s v a Hs ltac:(by apply (list_elem_of_fmap_2 fst _ (a, f)))) as Ha. rewrite (proj2 (Z.eqb_neq a NULL)) by (unfold NULL; lia).
  destruct (alloc_fresh s v VFS_FILE_SIZE (v_room v - cost VFS_FILE_SIZE) Hs ltac:(done) ltac:(lia) ltac:(lia))
    as [Herr|(w & x' & Hrun & Hw & Hnew & Hnv & Hroom' & al & Hal & Hala & Hf & Hv)].
  { apply wp_of_run. left. by apply bind_err. }
  apply wp_of_run. right. rewrite (bind_ok _ _ _ _ _ Hrun). rewrite (proj2 (Z.eqb_neq w NULL)) by (unfold NULL; lia).
  eexists _, _. split.
  - erewrite (bind_ok (file_at _)); [|apply file_at_run; exact (r_obj s v a f Hs Hin)].
    erewrite (bind_ok (modify _)) by reflexivity. reflexivity.
  - eexists. split; [|by apply (HQ w)]. destruct Hs as [R1 R2 R3 R4 R5 R6 R7 R8]. split; fields; try done; [by rewrite R5|].
    exists al. split; [done|]. split; [done|]. intros b [c Hb]. apply lookup_insert_Some in Hb as [[<- _]|[_ Hb]]; [done|]. apply Hv. by exists c.
Qed.

Lemma delete_list_to_map (l : list (Z * procfs_file_t)) a : NoDup l.*1 ->
  delete a (list_to_map l : gmap Z procfs_file_t) = list_to_map (filter (fun x => x.1 ≠ a) l) /\ (filter (fun x => x.1 ≠ a) l).*1 = filter (.≠ a) l.*1.
Proof.
  induction l as [|[b f] l IH]; intros Hnd; [split; [apply delete_empty|done]|]. cbn [fmap list_fmap fst] in Hnd. apply NoDup_cons in Hnd as [Hb Hnd].
  destruct (IH Hnd) as [IH1 IH2]. rewrite !filter_cons. cbn [fst fmap list_fmap list_to_map foldr snd]. destruct (decide (b = a)) as [->|Hne].
  - rewrite !decide_False by (intros E; by apply E). rewrite delete_insert_eq, IH1, IH2. rewrite filter_cons, decide_False by (intros E; by apply E). done.
  - rewrite !decide_True by done. rewrite delete_insert_ne by done. rewrite IH1. cbn [fmap list_fmap list_to_map foldr fst snd].
    split; [done|]. rewrite filter_cons, decide_True by done. by rewrite IH2.
Qed.
Lemma filter_id {A} (P : A -> Prop) `{forall x, Decision (P x)} l : Forall P l -> filter P l = l.
Proof. induction 1 as [|x l Hx _ IH]; [done|]. by rewrite filter_cons, decide_True, IH. Qed.
Lemma filter_one_length (l : list Z) a : NoDup l -> a ∈ l -> Z.of_nat (length (filter (.≠ a) l)) = Z.of_nat (length l) - 1.
Proof.
  induction l as [|b l IH]; intros Hnd Ha; [by apply elem_of_nil in Ha|]. apply NoDup_cons in Hnd as [Hb Hnd]. rewrite filter_cons.
  destruct (decide (b = a)) as [->|Hne].
  - rewrite decide_False by (intros E; by apply E). cbn [length]. rewrite filter_id; [lia|]. apply Forall_forall. intros c Hc ->. done.
  - rewrite decide_True by done. apply elem_of_cons in Ha as [->|Ha]; [done|]. cbn [length]. specialize (IH Hnd Ha). lia.
Qed.

Lemma tri_destroy_file v a f (Q : Z -> view -> Prop) : (a, f) ∈ v_files v ->
  Q 0 (v <| v_files := filter (fun x => x.1 ≠ a) (v_files v) |>) -> tri v (procfs_destroy_file a) Q.
Proof.
  intros Hin HQ s Hs. unfold procfs_destroy_file. assert (Ha1 : a ∈ (v_files v).*1) by (by apply (list_elem_of_fmap_2 fst _ (a, f))).
  pose proof (r_positive s v a Hs Ha1) as Ha. rewrite (proj2 (Z.eqb_neq a NULL)) by (unfold NULL; lia).
  destruct (r_heap _ _ Hs) as (al & Hal & Hf & Hv). destruct (ha_free_law _ _ _ _ Hal (Hf a Ha1)) as (x' & Hfree & Hal' & Hroom').
  destruct (delete_list_to_map (v_files v) a (r_nodup _ _ Hs)) as [Hd1 Hd2].
  apply wp_of_run. right. eexists _, _. split.
  - rewrite (bind_ok _ _ _ _ _ (file_at_run s a f (r_obj s v a f Hs Hin))). erewrite (bind_ok (modify _)) by reflexivity.
    erewrite (bind_ok (on_heap _)) by (unfold on_heap, zoom; fields; rewrite Hfree; reflexivity).
    do 2 erewrite (bind_ok (modify _)) by reflexivity. reflexivity.
  - eexists. split; [|exact HQ]. destruct Hs as [R1 R2 R3 R4 R5 R6 R7 R8]. split; fields; try done.
    + by rewrite R1.
    + by rewrite R2.
    + rewrite Hd2. by apply NoDup_filter.
    + rewrite R4. assert (Hlen := filter_one_length _ a R3 Ha1). rewrite <- Hd2, !length_fmap in Hlen. rewrite Hlen. unfold u32.
      rewrite Zminus_mod_idemp_l. done.
    + by apply Hroom'.
    + exists (delete a al). split; [done|]. rewrite Hd2. split.
      * intros b [Hb1 Hb2]%list_elem_of_filter. rewrite lookup_delete_ne by done. by apply Hf.
      * intros b Hb. rewrite lookup_delete_ne; [by apply Hv|]. intros ->. specialize (Hf b Ha1). specialize (Hv b Hb). rewrite Hf in Hv. done.
Qed.

(** *** The operations *)
Definition close_in (w : Z) (l : list (Z * procfs_file_t)) : list (Z * procfs_file_t) :=
  (fun x => (x.1, x.2 <| files := filter (.≠ w) (files x.2) |>)) <$> l.

Lemma tri_close v w file (Q : Z -> view -> Prop) : v_vfs v !! w = Some file ->
  Q 0 (View (close_in w (v_files v)) (delete w (v_vfs v)) (v_room v) (v_errno v)) -> tri v (procfs_close w) Q.
Proof.
  intros Hw HQ s Hs. destruct (r_heap _ _ Hs) as (al & Hal & Hf & Hv).
  destruct (ha_free_law _ _ _ _ Hal (Hv w ltac:(by eexists))) as (x' & Hfree & Hal' & Hroom').
  assert (Hfst : (close_in w (v_files v)).*1 = (v_files v).*1).
  { unfold close_in. rewrite <- list_fmap_compose. by apply list_fmap_ext. }
  apply wp_of_run. right. eexists _, _. split.
  - unfold procfs_close. erewrite (bind_ok (vfs_at _)); [|apply getsome_ok; rewrite (r_vfs _ _ Hs); exact Hw].
    erewrite (bind_ok (modify _)) by reflexivity.
    erewrite (bind_ok (on_heap _)) by (unfold on_heap, zoom; fields; rewrite Hfree; reflexivity).
    erewrite (bind_ok (modify _)) by reflexivity. reflexivity.
  - eexists. split; [|exact HQ]. destruct Hs as [R1 R2 R3 R4 R5 R6 R7 R8]. split; fields; rewrite ?Hfst; try done.
    + by rewrite R2, <- (list_to_map_fmap (M := gmap Z)).
    + unfold close_in. by rewrite length_fmap.
    + by rewrite R5.
    + by apply Hroom'.
    + exists (delete w al). split; [done|]. split; intros b Hb.
      * rewrite lookup_delete_ne; [by apply Hf|]. intros ->. specialize (Hf b Hb). specialize (Hv b ltac:(by eexists)). rewrite Hf in Hv. done.
      * destruct Hb as [c Hb]. apply lookup_delete_Some in Hb as [Hne Hb]. rewrite lookup_delete_ne by done. apply Hv. by eexists.
Qed.

(** The errors of mkdir and rmdir, in the order in which they are looked for. *)
Definition parent_error (path : list Z) (l : list (Z * procfs_file_t)) : Z :=
  if has_parent (dirname path) then
    match by_name (dirname path) l with
    | None => ENOENT
    | Some x => if Z.land (flags x.2) DT_DIR =? 0 then ENOTDIR else 0
    end
  else 0.
Definition mkdir_error (path : list Z) (l : list (Z * procfs_file_t)) : Z :=
  if is_dots path then EPERM else match by_name path l with Some _ => EEXIST | None => parent_error path l end.
Definition rmdir_error (path : list Z) (l : list (Z * procfs_file_t)) : Z :=
  if is_dots path then EPERM
  else match by_name path l with
       | None => ENOENT
       | Some x => if Z.land (flags x.2) DT_DIR =? 0 then ENOTDIR
                   else if bool_decide (files x.2 = []) then (if childless (name x.2) l then 0 else ENOTEMPTY) else EBUSY
       end.
Definition open_error (path : list Z) (fl : Z) (l : list (Z * procfs_file_t)) : Z :=
  if negb (parent_error path l =? 0) then parent_error path l
  else match by_name path l with
       | None => if bitmask_check fl O_CREAT then 0 else ENOENT
       | Some x =>
           if bitmask_check fl (Z.lor O_CREAT O_EXCL) then EEXIST
           else if bitmask_check fl O_DIRECTORY then
             if negb (bitmask_check (flags x.2) DT_DIR) then ENOTDIR
             else if bitmask_check fl O_RDWR || bitmask_check fl O_WRONLY then EISDIR else 0
           else if bitmask_check (flags x.2) DT_DIR then EISDIR else 0
       end.
Definition removed (a : Z) (l : list (Z * procfs_file_t)) := filter (fun x => x.1 ≠ a) l.

Lemma by_name_elem path l x : by_name path l = Some x -> x ∈ l /\ name x.2 = path.
Proof. intros (Hx & _ & Hn%bool_decide_eq_true)%find_file_elem. done. Qed.

Lemma tri_parent v path (g k : Z -> Z) (Q : Z -> view -> Prop) : g 0 = 0 ->
  (forall fl, k fl = if Z.land fl DT_DIR =? 0 then g ENOTDIR else 0) -> Q (g (parent_error path (v_files v))) v ->
  tri v (if has_parent (dirname path) then
           q ← procfs_find_entry_path (dirname path);
           if q =? NULL then mret (g ENOENT)
           else f ← file_at q; mret (k (flags f))
         else mret 0) Q.
Proof.
  intros Hg Hk HQ. unfold parent_error in HQ. destruct (has_parent (dirname path)); [|rewrite Hg in HQ; by apply triple_ret].
  apply triple_bind, tri_find_path, tri_case; [intros x Hx; by eapply by_name_elem|..].
  - intros E. rewrite E in HQ. by apply triple_ret.
  - intros a f E Hin. rewrite E in HQ. cbn [fst snd] in HQ. apply triple_bind. rewrite E. cbn [addr fst]. apply (tri_file_at v a f); [done|].
    apply triple_ret. rewrite Hk. destruct (Z.land (flags f) DT_DIR =? 0); [done|]. by rewrite Hg in HQ.
Qed.

Lemma tri_mkdir v path (Q : Z -> view -> Prop) : zlen path < PROCFS_NAME_MAX -> cost PROCFS_FILE_SIZE <= v_room v ->
  (mkdir_error path (v_files v) <> 0 -> Q (- mkdir_error path (v_files v)) v) ->
  (mkdir_error path (v_files v) = 0 -> forall a t, 0 < a -> a ∉ (v_files v).*1 -> v_vfs v !! a = None ->
     Q 0 (View (v_files v ++ [(a, new_file DT_DIR path (free_inode (v_files v)) t)]) (v_vfs v) (v_room v - cost PROCFS_FILE_SIZE) (v_errno v))) ->
  tri v (procfs_mkdir path) Q.
Proof.
  intros Hlen Hroom Herr Hok. unfold procfs_mkdir, mkdir_error in *. destruct (is_dots path); [by apply triple_ret, Herr|].
  apply triple_bind, tri_find_path, tri_case_not; [intros x Hx; by eapply by_name_elem|..]; [|intros a f E Hin; rewrite E in Herr; by apply triple_ret, Herr].
  intros E. rewrite E in Herr, Hok. apply triple_bind, (tri_parent v path Z.opp (fun fl => if Z.land fl DT_DIR =? 0 then - ENOTDIR else 0)); [done|done|].
  destruct (Z.eqb_spec (- parent_error path (v_files v)) 0) as [E0|E0]; cbn [negb].
  - apply triple_bind, tri_create_file; [done|done|]. intros a t Ha Hnew Hnv. rewrite (proj2 (Z.eqb_neq a NULL)) by (unfold NULL; lia).
    apply triple_ret, Hok; try done. lia.
  - apply triple_ret, Herr. lia.
Qed.

Lemma tri_rmdir v path (Q : Z -> view -> Prop) :
  (rmdir_error path (v_files v) <> 0 -> Q (- rmdir_error path (v_files v)) v) ->
  (rmdir_error path (v_files v) = 0 -> forall a f, by_name path (v_files v) = Some (a, f) -> Q 0 (v <| v_files := removed a (v_files v) |>)) ->
  tri v (procfs_rmdir path) Q.
Proof.
  intros Herr Hok. unfold procfs_rmdir, rmdir_error in *. destruct (is_dots path); [by apply triple_ret, Herr|].
  apply triple_bind, tri_find_path, tri_case; [intros x Hx; by eapply by_name_elem|intros E; rewrite E in Herr; by apply triple_ret, Herr|].
  intros a f E Hin. rewrite E in Herr, Hok |- *. cbn [addr fst snd] in *. apply triple_bind, (tri_file_at v a f); [done|].
  destruct (Z.land (flags f) DT_DIR =? 0); [by apply triple_ret, Herr|].
  destruct (bool_decide (files f = [])); cbn [negb]; [|by apply triple_ret, Herr].
  apply triple_bind, tri_check_empty. destruct (childless (name f) (v_files v)); [|by apply triple_ret, Herr].
  change (negb (0 =? 0)) with false. cbn iota. apply triple_bind, (tri_destroy_file v a f); [done|]. by apply triple_ret, (Hok eq_refl a f).
Qed.

Lemma tri_open_existing v a f (Q : Z -> view -> Prop) : (a, f) ∈ v_files v -> cost VFS_FILE_SIZE <= v_room v ->
  (forall w t, 0 < w -> w ∉ (v_files v).*1 -> v_vfs v !! w = None ->
     Q w (View (set_file a (fun f => f <| atime := t |> <| files := files f ++ [w] |>) (v_files v)) (<[w := new_vfs a f]> (v_vfs v))
       (v_room v - cost VFS_FILE_SIZE) (v_errno v))) ->
  tri v (open_existing a) Q.
Proof.
  intros Hin Hroom HQ. apply triple_bind, (tri_create_file_struct v a f); [done|done|]. intros w Hw Hnew Hnv.
  rewrite (proj2 (Z.eqb_neq w NULL)) by (unfold NULL; lia). apply triple_bind, tri_time. intros t.
  apply triple_bind, (tri_upd _ a f); [done|]. unfold add_open. apply triple_bind, (tri_upd _ a (f <| atime := t |>)).
  { apply set_file_elem. exists f. by rewrite decide_True. }
  apply triple_ret. fields. unfold set_file at 1 2. rewrite <- list_fmap_compose.
  replace (_ <$> v_files v) with (set_file a (fun f => f <| atime := t |> <| files := files f ++ [w] |>) (v_files v)); [by apply HQ|].
  unfold set_file. apply list_fmap_ext. intros i [b g] _. simpl. destruct (decide (b = a)); simpl; [by rewrite decide_True|by rewrite decide_False].
Qed.

Lemma tri_open v path fl mode (Q : Z -> view -> Prop) : zlen path < PROCFS_NAME_MAX ->
  cost PROCFS_FILE_SIZE + cost VFS_FILE_SIZE <= v_room v ->
  (open_error path fl (v_files v) <> 0 -> Q NULL (v <| v_errno := open_error path fl (v_files v) |>)) ->
  (open_error path fl (v_files v) = 0 -> forall a f w t, by_name path (v_files v) = Some (a, f) ->
     0 < w -> w ∉ (v_files v).*1 -> v_vfs v !! w = None ->
     Q w (View (set_file a (fun f => f <| atime := t |> <| files := files f ++ [w] |>) (v_files v)) (<[w := new_vfs a f]> (v_vfs v))
       (v_room v - cost VFS_FILE_SIZE) (v_errno v))) ->
  (open_error path fl (v_files v) = 0 -> by_name path (v_files v) = None -> forall a w t,
     let f := new_file DT_REG path (free_inode (v_files v)) t in
     0 < a -> a ∉ (v_files v).*1 -> v_vfs v !! a = None -> 0 < w -> w ∉ (v_files v).*1 -> w <> a -> v_vfs v !! w = None ->
     Q w (View (v_files v ++ [(a, f <| files := [w] |>)]) (<[w := new_vfs a f]> (v_vfs v))
       (v_room v - cost PROCFS_FILE_SIZE - cost VFS_FILE_SIZE) (v_errno v))) ->
  tri v (procfs_open path fl mode) Q.
Proof.
  intros Hlen Hroom Herr Hold Hnew. pose proof (ha_cost_law (X := X) PROCFS_FILE_SIZE ltac:(done)) as Hc1. pose proof (ha_cost_law (X := X) VFS_FILE_SIZE ltac:(done)) as Hc2.
  unfold procfs_open, open_error in *.
  apply triple_bind, (tri_parent v path (fun e => e) (fun fl => if bitmask_check fl DT_DIR then 0 else ENOTDIR));
    [done|intros x; unfold bitmask_check; by destruct (Z.land x DT_DIR =? 0)|].
  destruct (Z.eqb_spec (parent_error path (v_files v)) 0) as [E0|E0]; cbn [negb] in *; [|by apply tri_no_file, Herr].
  apply triple_bind, tri_find_path, tri_case_not; [intros x Hx; by eapply by_name_elem|..].
  - intros E. rewrite E in Herr, Hnew. destruct (bitmask_check fl O_CREAT); [|by apply tri_no_file, Herr].
    apply triple_bind, tri_create_file; [done|lia|]. intros a t Ha Hna Hnv. rewrite (proj2 (Z.eqb_neq a NULL)) by (unfold NULL; lia).
    set (f := new_file DT_REG path (free_inode (v_files v)) t).
    apply triple_bind, (tri_create_file_struct _ a f); [cbn [v_files]; set_solver|cbn [v_room]; lia|]. fields. intros w Hw Hnw Hnwv.
    rewrite fmap_app, not_elem_of_app in Hnw. destruct Hnw as [Hnw [Hwa _]%not_elem_of_cons]. cbn [fst] in Hwa. rewrite (proj2 (Z.eqb_neq w NULL)) by (unfold NULL; lia).
    unfold add_open. apply triple_bind, (tri_upd _ a f); [cbn [v_files]; set_solver|]. apply triple_ret. fields.
    replace (set_file a _ _) with (v_files v ++ [(a, f <| files := [w] |>)]); [by apply Hnew|].
    unfold set_file. rewrite fmap_app. f_equal; [|cbn [fmap list_fmap fst snd]; by rewrite decide_True].
    rewrite <- (list_fmap_id (v_files v)) at 1. apply list_fmap_ext. intros i [b g] Hb. cbn [fst id]. rewrite decide_False; [done|].
    intros ->. by apply Hna, (list_elem_of_fmap_2 fst _ (a, g)), list_elem_of_lookup_2 with i.
  - intros a f E Hin. rewrite E in Herr, Hold |- *. cbn [addr fst snd] in *.
    destruct (bitmask_check fl (Z.lor O_CREAT O_EXCL)); [by apply tri_no_file, Herr|]. apply triple_bind, (tri_file_at v a f); [done|].
    destruct (bitmask_check fl O_DIRECTORY).
    + destruct (bitmask_check (flags f) DT_DIR); cbn [negb] in *; [|by apply tri_no_file, Herr].
      destruct (bitmask_check fl O_RDWR || bitmask_check fl O_WRONLY); [by apply tri_no_file, Herr|].
      apply (tri_open_existing v a f); [done|lia|]. intros w t Hw Hnw Hnv. by apply (Hold eq_refl a f).
    + destruct (bitmask_check (flags f) DT_DIR); [by apply tri_no_file, Herr|].
      apply (tri_open_existing v a f); [done|lia|]. intros w t Hw Hnw Hnv. by apply (Hold eq_refl a f).
Qed.
End Rules.

(** ** The tree

    The files form a tree: names and inodes are distinct, every file is in a directory
    that is there, unless it is at the top, and what is open is known to its file. *)
Record tree_ok (v : view) : Prop := {
  to_magic : forall x, x ∈ v_files v -> procfs_check_file x.2 = true;
  to_names : NoDup ((fun x => name x.2) <$> v_files v);
  to_inodes : NoDup ((fun x => inode x.2) <$> v_files v);
  to_range : forall x, x ∈ v_files v -> 1 <= inode x.2 < PROCFS_MAX_FILES;
  to_kind : forall x, x ∈ v_files v -> flags x.2 = DT_DIR \/ flags x.2 = DT_REG;
  to_length : forall x, x ∈ v_files v -> zlen (name x.2) < PROCFS_NAME_MAX;
  to_parent : forall x, x ∈ v_files v -> has_parent (dirname (name x.2)) = true ->
    exists q, q ∈ v_files v /\ name q.2 = dirname (name x.2) /\ flags q.2 = DT_DIR;
  to_open : forall x w, x ∈ v_files v -> w ∈ files x.2 -> exists file, v_vfs v !! w = Some file /\ device file = x.1 /\ ino file = inode x.2;
  to_opened : forall w file, v_vfs v !! w = Some file -> exists f, (device file, f) ∈ v_files v /\ w ∈ files f
}.

Lemma by_name_none path l : (forall x, x ∈ l -> procfs_check_file x.2 = true) -> by_name path l = None ->
  forall x, x ∈ l -> name x.2 <> path.
Proof. intros Hc Hn x Hx E. specialize (find_file_none _ _ Hn x Hx (Hc x Hx)). simpl. by rewrite E, bool_decide_eq_true_2. Qed.
Lemma by_name_some path l x : (forall x, x ∈ l -> procfs_check_file x.2 = true) -> NoDup ((fun x => name x.2) <$> l) ->
  x ∈ l -> name x.2 = path -> by_name path l = Some x.
Proof.
  intros Hc Hnd Hx Hn. destruct (by_name path l) as [y|] eqn:E; [|by destruct (by_name_none path l Hc E x Hx)].
  destruct (by_name_elem _ _ _ E) as [Hy Hyn]. f_equal. apply list_elem_of_lookup in Hx as [i Hi], Hy as [j Hj].
  assert (i = j).
  { apply (NoDup_lookup _ i j path Hnd); rewrite list_lookup_fmap; [rewrite Hi|rewrite Hj]; cbn; congruence. }
  subst. congruence.
Qed.

(** *** Free inodes *)
Lemma free_from_spec n : forall i l, (free_from n i l = -1 /\ forall j, i <= j < i + Z.of_nat n -> exists x, by_inode j l = Some x) \/
  (i <= free_from n i l < i + Z.of_nat n /\ by_inode (free_from n i l) l = None).
Proof.
  induction n as [|n IH]; intros i l; cbn [free_from]; [left; split; [done|lia]|]. destruct (by_inode i l) as [x|] eqn:E.
  - destruct (IH (i + 1) l) as [[-> Hall]|[Hr Hn]]; [left|right; split; [lia|done]]. split; [done|]. intros j Hj.
    destruct (decide (j = i)) as [->|]; [by exists x|]. apply Hall. lia.
  - right. split; [lia|done].
Qed.
Lemma free_inode_ok v : tree_ok v -> Z.of_nat (length (v_files v)) < PROCFS_MAX_FILES - 1 ->
  1 <= free_inode (v_files v) < PROCFS_MAX_FILES /\ forall x, x ∈ v_files v -> inode x.2 <> free_inode (v_files v).
Proof.
  intros Hok Hlen. unfold free_inode. destruct (free_from_spec (Z.to_nat (PROCFS_MAX_FILES - 1)) 1 (v_files v)) as [[_ Hall]|[Hr Hn]].
  - exfalso. assert (Hsub : seqZ 1 1023 ⊆+ (fun x => inode x.2) <$> v_files v).
    { apply NoDup_submseteq; [apply NoDup_seqZ|]. intros j Hj%elem_of_seqZ. destruct (Hall j) as [x Hx]; [change (Z.of_nat _) with 1023; lia|].
      apply find_file_elem in Hx as (Hx & _ & Hi%Z.eqb_eq). rewrite <- Hi. by apply (list_elem_of_fmap_2 (fun x => inode x.2)). }
    apply submseteq_length in Hsub. rewrite length_seqZ, length_fmap in Hsub. unfold PROCFS_MAX_FILES in Hlen. lia.
  - split; [unfold PROCFS_MAX_FILES in *; lia|]. set (i := free_from _ _ _) in *. clearbody i. intros x Hx E.
    pose proof (find_file_none _ _ Hn x Hx (to_magic _ Hok x Hx)) as Hf. simpl in Hf. by rewrite E, Z.eqb_refl in Hf.
Qed.

(** *** Every change keeps the tree *)
Lemma parent_error_dir v path : tree_ok v -> parent_error path (v_files v) = 0 -> has_parent (dirname path) = true ->
  exists q, q ∈ v_files v /\ name q.2 = dirname path /\ flags q.2 = DT_DIR.
Proof.
  intros Hok He Hp. unfold parent_error in He. rewrite Hp in He. destruct (by_name (dirname path) (v_files v)) as [x|] eqn:E; [|done].
  destruct (by_name_elem _ _ _ E) as [Hx Hn]. exists x. split; [done|]. split; [done|].
  destruct (to_kind _ Hok x Hx) as [?|Hr]; [done|]. by rewrite Hr in He.
Qed.

Lemma tree_create v a fl path t r e : tree_ok v -> Z.of_nat (length (v_files v)) < PROCFS_MAX_FILES - 1 -> zlen path < PROCFS_NAME_MAX ->
  a ∉ (v_files v).*1 -> by_name path (v_files v) = None -> (fl = DT_DIR \/ fl = DT_REG) ->
  (has_parent (dirname path) = true -> exists q, q ∈ v_files v /\ name q.2 = dirname path /\ flags q.2 = DT_DIR) ->
  tree_ok (View (v_files v ++ [(a, new_file fl path (free_inode (v_files v)) t)]) (v_vfs v) r e).
Proof.
  intros Hok Hlen Hpath Ha Hnone Hfl Hpar. destruct (free_inode_ok v Hok Hlen) as [Hr Hfresh].
  pose proof (by_name_none path _ (to_magic _ Hok) Hnone) as Hnew. destruct Hok as [T1 T2 T3 T4 T5 T6 T7 T8 T9].
  assert (Hin : forall x, x ∈ v_files v ++ [(a, new_file fl path (free_inode (v_files v)) t)] ->
    x ∈ v_files v \/ x = (a, new_file fl path (free_inode (v_files v)) t)) by (intros x; rewrite elem_of_app, list_elem_of_singleton; done).
  split; cbn [v_files v_vfs].
  - intros x [Hx| ->]%Hin; [by apply T1|done].
  - rewrite fmap_app. apply NoDup_app. split; [done|]. split; [|apply NoDup_singleton].
    intros n (x & -> & Hx)%list_elem_of_fmap Hn%list_elem_of_singleton. by apply (Hnew x Hx).
  - rewrite fmap_app. apply NoDup_app. split; [done|]. split; [|apply NoDup_singleton].
    intros n (x & -> & Hx)%list_elem_of_fmap Hn%list_elem_of_singleton. by apply (Hfresh x Hx).
  - intros x [Hx| ->]%Hin; [by apply T4|done].
  - intros x [Hx| ->]%Hin; [by apply T5|done].
  - intros x [Hx| ->]%Hin; [by apply T6|done].
  - intros x [Hx| ->]%Hin Hp; [destruct (T7 x Hx Hp) as (q & Hq & ?)|destruct (Hpar Hp) as (q & Hq & ?)];
      exists q; split; try done; apply elem_of_app; by left.
  - intros x w [Hx| ->]%Hin Hw; [by apply T8|]. by apply elem_of_nil in Hw.
  - intros w file Hw. destruct (T9 w file Hw) as (f & Hf & Hwf). exists f. split; [|done]. apply elem_of_app. by left.
Qed.

Lemma tree_remove v a f : tree_ok v -> NoDup (v_files v).*1 -> (a, f) ∈ v_files v -> files f = [] ->
  (flags f = DT_DIR -> childless (name f) (v_files v) = true) -> tree_ok (v <| v_files := removed a (v_files v) |>).
Proof.
  intros [T1 T2 T3 T4 T5 T6 T7 T8 T9] Hnd Ha Hfiles Hchild.
  assert (Hin : forall x, x ∈ removed a (v_files v) -> x ∈ v_files v /\ x.1 <> a) by (by intros x [??]%list_elem_of_filter).
  assert (Hsame : forall x, x ∈ v_files v -> x.1 = a -> x = (a, f)).
  { intros [b g] Hx E. cbn [fst] in E. subst b. f_equal.
    by assert (Some g = Some f) as [= ->] by (rewrite <- (elem_of_list_to_map_1 _ _ _ Hnd Hx : (list_to_map (v_files v) : gmap Z _) !! a = _); by apply elem_of_list_to_map_1). }
  split; fields; try (by intros x [Hx Hne]%Hin; auto).
  - eapply sublist_NoDup; [exact T2|]. apply fmap_sublist, sublist_filter.
  - eapply sublist_NoDup; [exact T3|]. apply fmap_sublist, sublist_filter.
  - intros x [Hx Hne]%Hin Hp. destruct (T7 x Hx Hp) as (q & Hq & Hqn & Hqd). exists q. split; [|done]. apply list_elem_of_filter. split; [|done].
    intros E. specialize (Hsame q Hq E). subst q. cbn [snd] in Hqn, Hqd. specialize (Hchild Hqd). unfold childless in Hchild.
    rewrite forallb_forall in Hchild. specialize (Hchild x ltac:(by apply list_elem_of_In)). unfold child_of in Hchild.
    rewrite (T1 x Hx), (bool_decide_eq_true_2 (name f = dirname (name x.2))) in Hchild by done. cbn [andb] in Hchild. rewrite andb_true_r, negb_involutive in Hchild.
    apply bool_decide_eq_true in Hchild. apply Hne. apply list_elem_of_lookup in Hx as [i Hi], Hq as [j Hj].
    assert (i = j) as ->; [|congruence].
    apply (NoDup_lookup _ i j (name f) T2); rewrite list_lookup_fmap; [rewrite Hi|rewrite Hj]; cbn; congruence.
  - intros x w [Hx Hne]%Hin Hw. by apply T8.
  - intros w file Hw. destruct (T9 w file Hw) as (g & Hg & Hwg). exists g. split; [|done]. apply list_elem_of_filter. split; [|done]. cbn [fst].
    intros E. specialize (Hsame _ Hg E). injection Hsame as _ ->. rewrite Hfiles in Hwg. by apply elem_of_nil in Hwg.
Qed.

(** Files of which only times and what is open on them has changed. *)
Lemma tree_same v (g : Z -> procfs_file_t -> procfs_file_t) vfs r e : tree_ok v ->
  (forall a f, magic (g a f) = magic f /\ inode (g a f) = inode f /\ flags (g a f) = flags f /\ name (g a f) = name f) ->
  let l := (fun x => (x.1, g x.1 x.2)) <$> v_files v in
  (forall x w, x ∈ l -> w ∈ files x.2 -> exists file, vfs !! w = Some file /\ device file = x.1 /\ ino file = inode x.2) ->
  (forall w file, vfs !! w = Some file -> exists f, (device file, f) ∈ l /\ w ∈ files f) -> tree_ok (View l vfs r e).
Proof.
  intros [T1 T2 T3 T4 T5 T6 T7 _ _] Hg l Ho1 Ho2.
  assert (Hin : forall x, x ∈ l -> exists y, y ∈ v_files v /\ x = (y.1, g y.1 y.2)).
  { intros x (y & -> & Hy)%list_elem_of_fmap. by exists y. }
  split; cbn [v_files v_vfs]; try done.
  - intros x (y & Hy & ->)%Hin. unfold procfs_check_file. cbn [snd]. destruct (Hg y.1 y.2) as (-> & _). by apply T1.
  - unfold l. rewrite <- list_fmap_compose. erewrite list_fmap_ext; [exact T2|]. intros i x _. simpl. by destruct (Hg x.1 x.2) as (_ & _ & _ & ->).
  - unfold l. rewrite <- list_fmap_compose. erewrite list_fmap_ext; [exact T3|]. intros i x _. simpl. by destruct (Hg x.1 x.2) as (_ & -> & _).
  - intros x (y & Hy & ->)%Hin. cbn [snd]. destruct (Hg y.1 y.2) as (_ & -> & _). by apply T4.
  - intros x (y & Hy & ->)%Hin. cbn [snd]. destruct (Hg y.1 y.2) as (_ & _ & -> & _). by apply T5.
  - intros x (y & Hy & ->)%Hin. cbn [snd]. destruct (Hg y.1 y.2) as (_ & _ & _ & ->). by apply T6.
  - intros x (y & Hy & ->)%Hin. cbn [snd]. destruct (Hg y.1 y.2) as (_ & _ & _ & ->). intros Hp. destruct (T7 y Hy Hp) as (q & Hq & Hqn & Hqd).
    exists (q.1, g q.1 q.2). split; [by apply (list_elem_of_fmap_2 (fun x => (x.1, g x.1 x.2)))|]. cbn [snd]. destruct (Hg q.1 q.2) as (_ & _ & -> & ->). done.
Qed.

(** A file that is opened as [w] at the time [t]. *)
Definition opened (a w t b : Z) (h : procfs_file_t) : procfs_file_t :=
  if decide (b = a) then h <| atime := t |> <| files := files h ++ [w] |> else h.
Lemma tree_open v a f w t r e : tree_ok v -> NoDup (v_files v).*1 -> (a, f) ∈ v_files v -> v_vfs v !! w = None ->
  tree_ok (View (set_file a (fun f => f <| atime := t |> <| files := files f ++ [w] |>) (v_files v)) (<[w := new_vfs a f]> (v_vfs v)) r e).
Proof.
  intros Hok Hnd Ha Hw.
  replace (set_file a _ _) with ((fun x => (x.1, opened a w t x.1 x.2)) <$> v_files v).
  2:{ unfold set_file. apply list_fmap_ext. intros i [b h] _. unfold opened. cbn [fst snd]. by case_decide. }
  apply (tree_same v (opened a w t)); [done|..]; unfold opened.
  - intros b h. by case_decide.
  - intros x w' (y & -> & Hy)%list_elem_of_fmap. cbn [fst snd]. intros Hw'.
    assert (Hold : w' ∈ files y.2 -> exists file, <[w := new_vfs a f]> (v_vfs v) !! w' = Some file /\ device file = y.1 /\ ino file = inode y.2).
    { intros Hin. destruct (to_open _ Hok y w' Hy Hin) as (file & Hf & ?). exists file. split; [|done]. rewrite lookup_insert_ne; [done|]. intros ->. congruence. }
    destruct (decide (y.1 = a)) as [E|Hne]; [|by apply Hold]. cbn in Hw'. apply elem_of_app in Hw' as [Hw'|Hw'%list_elem_of_singleton]; [by apply Hold|].
    subst w'. exists (new_vfs a f). split; [apply lookup_insert_eq|]. split; [done|]. cbn. assert (y = (a, f)) as ->.
    { destruct y as [b h]. cbn in E. subst b. f_equal. assert (Some h = Some f) as [= ->]; [|done].
      rewrite <- (elem_of_list_to_map_1 _ _ _ Hnd Hy : (list_to_map (v_files v) : gmap Z _) !! a = _). by apply elem_of_list_to_map_1. }
    cbn. pose proof (to_range _ Hok _ Ha) as Hr. cbn in Hr. unfold PROCFS_MAX_FILES in Hr. apply u32_small. lia.
  - intros w' file [[<- <-]|[Hne Hf]]%lookup_insert_Some.
    + exists (f <| atime := t |> <| files := files f ++ [w] |>). split; [|cbn; apply elem_of_app; right; by left].
      apply list_elem_of_fmap. exists (a, f). split; [|done]. cbn [fst snd device new_vfs]. by rewrite decide_True.
    + destruct (to_opened _ Hok w' file Hf) as (h & Hh & Hwh). eexists. split; [apply list_elem_of_fmap; exists (device file, h); split; [done|exact Hh]|].
      cbn [fst snd]. case_decide; [|done]. cbn. apply elem_of_app. by left.
Qed.

Lemma tree_close v w file : tree_ok v -> v_vfs v !! w = Some file -> tree_ok (View (close_in w (v_files v)) (delete w (v_vfs v)) (v_room v) (v_errno v)).
Proof.
  intros Hok Hw. unfold close_in. apply (tree_same v (fun _ h => h <| files := filter (.≠ w) (files h) |>)); [done|done|..].
  - intros x w' (y & -> & Hy)%list_elem_of_fmap. cbn [fst snd]. intros [Hne Hin]%list_elem_of_filter.
    destruct (to_open _ Hok y w' Hy Hin) as (h & Hh & ?). exists h. split; [|done]. by rewrite lookup_delete_ne.
  - intros w' h [Hne Hh]%lookup_delete_Some. destruct (to_opened _ Hok w' h Hh) as (g & Hg & Hwg).
    eexists. split; [apply list_elem_of_fmap; exists (device h, g); split; [done|exact Hg]|]. cbn. by apply list_elem_of_filter.
Qed.

(** ** What the operations do *)
Section Operations2.
Context {X : Type} `{HeapAllocator X} `{!Clock X}.
Abbreviation tri := (triple (repr (X := X))).
Abbreviation cost := (ha_cost (X := X)).
Implicit Types (v : view) (st : state X).

(** The view after a file has been opened, and whether it is an old file. *)
Inductive opened_as v (path : list Z) (w : Z) : view -> Prop :=
| opened_old a f t : by_name path (v_files v) = Some (a, f) ->
    opened_as v path w (View (set_file a (fun f => f <| atime := t |> <| files := files f ++ [w] |>) (v_files v))
      (<[w := new_vfs a f]> (v_vfs v)) (v_room v - cost VFS_FILE_SIZE) (v_errno v))
| opened_new a t : by_name path (v_files v) = None -> a ∉ (v_files v).*1 ->
    let f := new_file DT_REG path (free_inode (v_files v)) t in
    opened_as v path w (View (v_files v ++ [(a, f <| files := [w] |>)])
      (<[w := new_vfs a f]> (v_vfs v)) (v_room v - cost PROCFS_FILE_SIZE - cost VFS_FILE_SIZE) (v_errno v)).

(** What procfs_open does with any flags: it looks for its errors in order, stores
    errno and gives NULL, or gives a new vfs file. *)
Lemma open_run st v path fl mode : repr st v -> zlen path < PROCFS_NAME_MAX ->
  cost PROCFS_FILE_SIZE + cost VFS_FILE_SIZE <= v_room v -> let e := open_error path fl (v_files v) in
  procfs_open path fl mode ~{ st }~>! FFatal \/
  exists w st' v', procfs_open path fl mode ~{ st }~> w; st' /\ repr st' v' /\
    if e =? 0 then 0 < w /\ v_vfs v !! w = None /\ opened_as v path w v' else w = NULL /\ v' = v <| v_errno := e |>.
Proof.
  intros Hs Hlen Hroom e.
  assert (Htri : tri v (procfs_open path fl mode) (fun w v' => if e =? 0 then 0 < w /\ v_vfs v !! w = None /\ opened_as v path w v'
    else w = NULL /\ v' = v <| v_errno := e |>)).
  { apply tri_open; [done|done|..].
    - intros He. fold e in He. by rewrite (proj2 (Z.eqb_neq e 0)).
    - intros He a f w t Hf Hw Hnw Hnv. fold e in He. rewrite He. split; [done|]. split; [done|]. by apply opened_old.
    - intros He Hn a w t f Ha Hna Hnva Hw Hnw Hwa Hnv. fold e in He. rewrite He. split; [done|]. split; [done|]. by apply opened_new. }
  destruct (triple_run _ _ _ _ st Htri Hs) as [?|(w & st' & v' & Hrun & Hs' & HQ)]; [by left|right]. by exists w, st', v'.
Qed.

(** The flags that are used as fcntl.h describes them: O_DIRECTORY, O_TRUNC and
    O_APPEND are not set, and a file that is there is not opened with O_CREAT and
    without O_EXCL. *)
Definition documented (path : list Z) (fl : Z) (l : list (Z * procfs_file_t)) : Prop :=
  Forall (fun o => bitmask_check fl o = false) [O_DIRECTORY; O_TRUNC; O_APPEND] /\
  (is_Some (by_name path l) -> bitmask_check fl O_CREAT = true -> bitmask_check fl O_EXCL = true).

(** C17: for a path of less than 255 characters, with fewer than 1023 files, room on
    the heap and flags that are [documented], procfs_open looks for its errors in
    order: the parent must be a directory that is there, a file that is there may not
    be opened with O_EXCL and not be a directory, and a file that is not there only be
    opened with O_CREAT. On an error it stores errno and nothing else changes (the
    result is then NULL, and not the -1 of the doc comment; nothing is claimed of it).
    Otherwise it gives a new vfs file, which is put at the end of the list of the
    file; a file that is not there is created as a regular file with the first free
    inode. *)
Theorem procfs_open_correct st v path fl mode : repr st v -> zlen path < PROCFS_NAME_MAX ->
  Z.of_nat (length (v_files v)) < PROCFS_MAX_FILES - 1 -> documented path fl (v_files v) ->
  cost PROCFS_FILE_SIZE + cost VFS_FILE_SIZE <= v_room v -> let e := open_error path fl (v_files v) in
  procfs_open path fl mode ~{ st }~>! FFatal \/
  exists w st' v', procfs_open path fl mode ~{ st }~> w; st' /\ repr st' v' /\
    if e =? 0 then 0 < w /\ v_vfs v !! w = None /\ opened_as v path w v' else v' = v <| v_errno := e |>.
Proof.
  intros Hs Hlen _ _ Hroom e. destruct (open_run st v path fl mode Hs Hlen Hroom) as [?|(w & st' & v' & Hrun & Hs' & HQ)]; [by left|right].
  exists w, st', v'. fold e in HQ. split; [done|]. split; [done|]. destruct (e =? 0); [done|apply HQ].
Qed.

(** What opening leaves is a tree again. *)
Lemma opened_as_tree v path w v' : tree_ok v -> NoDup (v_files v).*1 -> Z.of_nat (length (v_files v)) < PROCFS_MAX_FILES - 1 ->
  zlen path < PROCFS_NAME_MAX -> parent_error path (v_files v) = 0 -> v_vfs v !! w = None -> opened_as v path w v' ->
  tree_ok v' /\ (length (v_files v') <= S (length (v_files v)))%nat /\ v_room v - cost PROCFS_FILE_SIZE - cost VFS_FILE_SIZE <= v_room v' /\
  is_Some (v_vfs v' !! w) /\ forall w', is_Some (v_vfs v !! w') -> is_Some (v_vfs v' !! w').
Proof.
  intros Hok Hnd Hlen Hpath Hpar Hw. pose proof (ha_cost_law (X := X) PROCFS_FILE_SIZE ltac:(done)) as Hc1.
  intros [a f t Hf|a t Hnone Ha f]; cbn [v_files v_vfs v_room].
  - destruct (by_name_elem _ _ _ Hf) as [Hin _]. split; [by apply tree_open|]. unfold set_file. rewrite length_fmap. split; [lia|]. split; [lia|].
    split; [by rewrite lookup_insert_eq|]. intros w' ?. by apply lookup_insert_is_Some'; right.
  - assert (Hnew : tree_ok (View (v_files v ++ [(a, f)]) (v_vfs v) 0 0)).
    { apply tree_create; try done; [by right|]. intros Hp. by apply parent_error_dir. }
    assert (Hnd' : NoDup (v_files v ++ [(a, f)]).*1).
    { rewrite fmap_app. apply NoDup_app. split; [done|]. split; [|apply NoDup_singleton]. intros b Hb Hb'%list_elem_of_singleton. by subst. }
    pose proof (tree_open _ a f w t (v_room v - cost PROCFS_FILE_SIZE - cost VFS_FILE_SIZE) (v_errno v) Hnew Hnd'
      ltac:(cbn [v_files]; apply elem_of_app; right; by left) Hw) as Hopen. cbn [v_files v_vfs] in Hopen.
    replace (set_file a _ _) with (v_files v ++ [(a, f <| files := [w] |>)]) in Hopen.
    2:{ unfold set_file. rewrite fmap_app. f_equal; [|cbn [fmap list_fmap fst snd]; by rewrite decide_True].
        rewrite <- (list_fmap_id (v_files v)) at 1. apply list_fmap_ext. intros i [b g] Hb. cbn [fst id]. rewrite decide_False; [done|].
        intros ->. by apply Ha, (list_elem_of_fmap_2 fst _ (a, g)), list_elem_of_lookup_2 with i. }
    split; [exact Hopen|]. rewrite length_app. cbn [length]. split; [lia|]. split; [lia|].
    split; [by rewrite lookup_insert_eq|]. intros w' ?. by apply lookup_insert_is_Some'; right.
Qed.

(** *** Sessions *)
Lemma tri_nodup {A} v (m : M (state X) A) Q : (NoDup (v_files v).*1 -> tri v m Q) -> tri v m Q.
Proof. intros Ht s Hs. apply Ht; [by apply Hs|done]. Qed.

Lemma tri_entry_path v nm (Q : list Z -> view -> Prop) : zlen nm < PROCFS_NAME_MAX -> Q (proc_path ++ nm) v -> tri v (entry_path nm NULL) Q.
Proof.
  intros Hnm HQ. unfold entry_path. apply triple_bind, triple_ret. rewrite (proj2 (Z.ltb_lt _ _)); [by apply triple_ret|].
  unfold zlen, PROCFS_NAME_MAX, PATH_MAX in *. rewrite length_app. cbn [length proc_path]. lia.
Qed.

(** The entries directly in /proc go when they are not in use. *)
Lemma tri_proc_destroy v nm (Q : Z -> view -> Prop) : zlen nm < PROCFS_NAME_MAX -> (forall r, Q r v) ->
  (forall a f, (a, f) ∈ v_files v -> Z.land (flags f) DT_REG <> 0 -> files f = [] -> Q 0 (v <| v_files := removed a (v_files v) |>)) ->
  tri v (proc_destroy_entry nm NULL) Q.
Proof.
  intros Hnm Herr Hok. unfold proc_destroy_entry. apply triple_bind, tri_entry_path; [done|].
  apply triple_bind, tri_find_path, tri_case; [intros x Hx; by eapply by_name_elem|intros _; by apply triple_ret|].
  intros a f E Hin. rewrite E. cbn [addr fst]. apply triple_bind, (tri_file_at v a f); [done|].
  destruct (Z.eqb_spec (Z.land (flags f) DT_REG) 0) as [|Hreg]; [by apply triple_ret|].
  destruct (bool_decide (files f = [])) eqn:Ef; cbn [negb]; [|by apply triple_ret].
  apply bool_decide_eq_true in Ef. apply triple_bind, (tri_destroy_file v a f); [done|]. apply triple_ret. by apply (Hok a f).
Qed.
Lemma tri_proc_rmdir v nm (Q : Z -> view -> Prop) : zlen nm < PROCFS_NAME_MAX -> (forall r, Q r v) ->
  (forall a f, (a, f) ∈ v_files v -> files f = [] -> childless (name f) (v_files v) = true -> Q 0 (v <| v_files := removed a (v_files v) |>)) ->
  tri v (proc_rmdir nm NULL) Q.
Proof.
  intros Hnm Herr Hok. unfold proc_rmdir. apply triple_bind, tri_entry_path; [done|].
  apply triple_bind, tri_find_path, tri_case; [intros x Hx; by eapply by_name_elem|intros _; by apply triple_ret|].
  intros a f E Hin. rewrite E. cbn [addr fst]. apply triple_bind, (tri_file_at v a f); [done|].
  destruct (Z.land (flags f) DT_DIR =? 0); [by apply triple_ret|].
  apply triple_bind, tri_check_empty. destruct (childless (name f) (v_files v)) eqn:Ec; [|by apply triple_ret].
  change (negb (0 =? 0)) with false. cbn iota. destruct (bool_decide (files f = [])) eqn:Ef; cbn [negb]; [|by apply triple_ret].
  apply bool_decide_eq_true in Ef. apply triple_bind, (tri_destroy_file v a f); [done|]. apply triple_ret. by apply (Hok a f).
Qed.

(** Processes make and remove directories, open files, close the [i]-th of the files
    they have open, and the kernel removes entries of /proc, in any order. *)
Inductive event : Type :=
| EMkdir (path : list Z) | ERmdir (path : list Z) | EOpen (path : list Z) (fl : Z) | EClose (i : nat)
| EDestroy (nm : list Z) | ERemove (nm : list Z).
Definition event_ok (e : event) : Prop :=
  match e with EMkdir path | EOpen path _ => zlen path < PROCFS_NAME_MAX | EDestroy nm | ERemove nm => zlen nm < PROCFS_NAME_MAX | _ => True end.
Fixpoint session (es : list event) (hs : list Z) : M (state X) (list Z) :=
  match es with
  | [] => mret hs
  | EMkdir path :: es => procfs_mkdir path ;; session es hs
  | ERmdir path :: es => procfs_rmdir path ;; session es hs
  | EOpen path fl :: es => w ← procfs_open path fl 0; session es (if w =? NULL then hs else w :: hs)
  | EClose i :: es => match hs !! i with Some w => procfs_close w ;; session es (delete i hs) | None => session es hs end
  | EDestroy nm :: es => proc_destroy_entry nm NULL ;; session es hs
  | ERemove nm :: es => proc_rmdir nm NULL ;; session es hs
  end.

(** What holds between the events: [n] more files fit. *)
Record session_ok (n : nat) (hs : list Z) v : Prop := {
  so_tree : tree_ok v;
  so_length : Z.of_nat (length (v_files v)) + Z.of_nat n <= PROCFS_MAX_FILES - 1;
  so_room : Z.of_nat n * (cost PROCFS_FILE_SIZE + cost VFS_FILE_SIZE) <= v_room v;
  so_handles : NoDup hs /\ forall w, w ∈ hs -> is_Some (v_vfs v !! w)
}.

Lemma session_ok_less n hs v v' : session_ok (S n) hs v -> tree_ok v' -> (length (v_files v') <= S (length (v_files v)))%nat ->
  v_room v - cost PROCFS_FILE_SIZE - cost VFS_FILE_SIZE <= v_room v' -> (forall w, is_Some (v_vfs v !! w) -> is_Some (v_vfs v' !! w)) ->
  session_ok n hs v'.
Proof. intros [_ Hl Hr [Hnd Hh]] Ht Hl' Hr' Hv. split; [done|lia|lia|]. split; [done|]. auto. Qed.
Lemma opened_session n hs v path w v' : session_ok (S n) hs v -> NoDup (v_files v).*1 -> zlen path < PROCFS_NAME_MAX ->
  parent_error path (v_files v) = 0 -> v_vfs v !! w = None -> opened_as v path w v' -> session_ok n (w :: hs) v'.
Proof.
  intros Hso Hna Hpath Hpar Hw Hop. pose proof Hso as [Ht Hl _ [Hnd Hh]].
  destruct (opened_as_tree v path w v' Ht Hna ltac:(lia) Hpath Hpar Hw Hop) as (Ht' & Hl' & Hr' & Hw' & Hv').
  destruct (session_ok_less n hs v v' Hso Ht' Hl' Hr' Hv') as [T1 T2 T3 [T4 T5]]. split; try done. split.
  - constructor; [|done]. intros Hin. destruct (Hh w Hin) as [? E]. congruence.
  - intros u [->|Hu]%elem_of_cons; auto.
Qed.
Lemma closed_session n hs v i w file : session_ok (S n) hs v -> hs !! i = Some w -> v_vfs v !! w = Some file ->
  session_ok n (delete i hs) (View (close_in w (v_files v)) (delete w (v_vfs v)) (v_room v) (v_errno v)).
Proof.
  intros [Ht Hl Hr [Hnd Hh]] Hi Hw. pose proof (ha_cost_law (X := X) PROCFS_FILE_SIZE ltac:(done)) as Hc1.
  pose proof (ha_cost_law (X := X) VFS_FILE_SIZE ltac:(done)) as Hc2. destruct (NoDup_delete _ _ _ Hnd Hi) as [Hnd' Hel].
  split; cbn [v_files v_vfs v_room]; [by eapply tree_close|unfold close_in; rewrite length_fmap; lia|nia|]. split; [done|].
  intros u [Hu Hne]%Hel. rewrite lookup_delete_ne by done. auto.
Qed.
Lemma open_error_parent path fl l : open_error path fl l = 0 -> parent_error path l = 0.
Proof. unfold open_error. destruct (Z.eqb_spec (parent_error path l) 0); [done|]. cbn [negb]. done. Qed.
Lemma removed_length a l : (length (removed a l) <= length l)%nat.
Proof. unfold removed. apply length_filter. Qed.

Lemma tri_event e es hs v (Q : list Z -> view -> Prop) : session_ok (S (length es)) hs v -> event_ok e ->
  (forall hs' v', session_ok (length es) hs' v' -> tri v' (session es hs') Q) -> tri v (session (e :: es) hs) Q.
Proof.
  intros Hso He Hk. pose proof Hso as [Ht Hl Hr [Hnd Hh]]. apply tri_nodup. intros Hna.
  pose proof (ha_cost_law (X := X) PROCFS_FILE_SIZE ltac:(done)) as Hc1. pose proof (ha_cost_law (X := X) VFS_FILE_SIZE ltac:(done)) as Hc2.
  assert (Hroom : cost PROCFS_FILE_SIZE + cost VFS_FILE_SIZE <= v_room v) by nia.
  assert (Hlen : Z.of_nat (length (v_files v)) < PROCFS_MAX_FILES - 1) by lia.
  assert (Hsame : session_ok (length es) hs v) by (eapply session_ok_less; [exact Hso|done|lia|lia|done]).
  assert (Hrem : forall a f, (a, f) ∈ v_files v -> files f = [] -> (flags f = DT_DIR -> childless (name f) (v_files v) = true) ->
    session_ok (length es) hs (v <| v_files := removed a (v_files v) |>)).
  { intros a f Ha Hf Hd. eapply session_ok_less; [exact Hso|by eapply tree_remove|fields; pose proof (removed_length a (v_files v)); lia|fields; lia|done]. }
  destruct e as [path|path|path fl|i|nm|nm]; cbn [session event_ok] in *.
  - apply triple_bind, tri_mkdir; [done|lia|intros _; by apply Hk|]. intros E a t Ha Hn Hv. apply Hk.
    eapply session_ok_less; [exact Hso| |cbn [v_files]; rewrite length_app; cbn [length]; lia|cbn [v_room]; lia|done].
    unfold mkdir_error in E. destruct (is_dots path); [done|]. destruct (by_name path (v_files v)) eqn:En; [done|].
    apply tree_create; try done; [by left|]. intros Hp. by apply parent_error_dir.
  - apply triple_bind, tri_rmdir; [intros _; by apply Hk|]. intros E a f Hf. apply Hk. destruct (by_name_elem _ _ _ Hf) as [Hin _].
    unfold rmdir_error in E. rewrite Hf in E. destruct (is_dots path); [done|]. cbn [snd] in E. destruct (Z.land _ _ =? 0); [done|].
    case_bool_decide as Ef; [|done]. destruct (childless (name f) (v_files v)) eqn:Ec; [|done]. by apply (Hrem a f).
  - apply triple_bind. apply tri_open; [done|done|intros _; apply Hk; destruct Hsame as [[] ? ? ?]; by split|..].
    + intros E a f w t Hf Hw Hnw Hnv. rewrite (proj2 (Z.eqb_neq w NULL)) by (unfold NULL; lia). apply Hk.
      eapply opened_session; [exact Hso|done|exact He|by eapply open_error_parent|exact Hnv|by apply opened_old].
    + intros E Hn a w t f Ha Hnf Hnva Hw Hnw Hwa Hnv. rewrite (proj2 (Z.eqb_neq w NULL)) by (unfold NULL; lia). apply Hk.
      eapply opened_session; [exact Hso|done|exact He|by eapply open_error_parent|exact Hnv|by apply opened_new].
  - destruct (hs !! i) as [w|] eqn:Ei; [|by apply Hk]. destruct (Hh w ltac:(by eapply list_elem_of_lookup_2)) as [file Hw].
    apply triple_bind. eapply tri_close; [exact Hw|]. apply Hk. by eapply closed_session.
  - apply triple_bind, tri_proc_destroy; [done|intros _; by apply Hk|]. intros a f Ha Hreg Hf. apply Hk, (Hrem a f); [done|done|].
    intros Hd. by rewrite Hd in Hreg.
  - apply triple_bind, tri_proc_rmdir; [done|intros _; by apply Hk|]. intros a f Ha Hf Hc. by apply Hk, (Hrem a f).
Qed.

(** C16: under any sequence of procfs_mkdir, procfs_rmdir, procfs_open, procfs_close,
    and of proc_destroy_entry and proc_rmdir in the root of procfs, the files stay a
    tree: names and inodes are distinct, every file lies in a directory that is
    there, and each open file is on the list of its file; the calls come to an end
    without a fault, and the files that the processes have open are all different.
    The paths that are made or opened and the names of entries have less than 255
    characters ([event_ok]); there are at most 1023 files with one for each event,
    and room on the heap for them ([session_ok]); a file that is closed is open.
    Not among the events are procfs_unlink, which goes through a null pointer
    ([procfs_unlink_fails]), and proc_create_entry and proc_mkdir, which do not look
    for the directory of the new entry ([entry_without_parent]). *)
Theorem procfs_stays_a_tree st v es : repr st v -> session_ok (length es) [] v -> Forall event_ok es ->
  session es [] ~{ st }~>! FFatal \/
  exists hs st' v', session es [] ~{ st }~> hs; st' /\ repr st' v' /\ tree_ok v' /\ NoDup hs /\ forall w, w ∈ hs -> is_Some (v_vfs v' !! w).
Proof.
  intros Hs Hso Hes.
  assert (Htri : forall es hs v, Forall event_ok es -> session_ok (length es) hs v -> tri v (session es hs)
    (fun hs' v' => tree_ok v' /\ NoDup hs' /\ forall w, w ∈ hs' -> is_Some (v_vfs v' !! w))).
  { clear. induction es as [|e es IH]; intros hs v Hes Hso; [destruct Hso as [? _ _ ?]; by apply triple_ret|].
    apply Forall_cons in Hes as [He Hes]. apply tri_event; [done|done|]. intros hs' v' Hso'. by apply IH. }
  destruct (triple_run _ _ _ _ st (Htri es [] v Hes Hso) Hs) as [?|(hs & st' & v' & Hrun & Hs' & HQ)]; [by left|right]. by exists hs, st', v'.
Qed.

(** *** A directory comes and goes *)
Lemma removed_last v a f : a ∉ (v_files v).*1 -> removed a (v_files v ++ [(a, f)]) = v_files v.
Proof.
  intros Ha. unfold removed. rewrite filter_app, filter_cons, decide_False by (cbn; intros E; by apply E). rewrite app_nil_r.
  apply filter_id, Forall_forall. intros x Hx E. apply Ha. rewrite <- E. by apply (list_elem_of_fmap_2 fst).
Qed.

(** A directory that has been made can be removed again, and then all files are as
    they were before. *)
Theorem procfs_mkdir_rmdir st v path : repr st v -> tree_ok v -> Z.of_nat (length (v_files v)) < PROCFS_MAX_FILES - 1 ->
  zlen path < PROCFS_NAME_MAX -> path <> [slash] -> mkdir_error path (v_files v) = 0 -> cost PROCFS_FILE_SIZE <= v_room v ->
  (a ← procfs_mkdir path; b ← procfs_rmdir path; mret (a, b)) ~{ st }~>! FFatal \/
  exists st' r, (a ← procfs_mkdir path; b ← procfs_rmdir path; mret (a, b)) ~{ st }~> (0, 0); st' /\
    repr st' (View (v_files v) (v_vfs v) r (v_errno v)).
Proof.
  intros Hs Hok Hcount Hlen Hslash He Hroom.
  assert (Htri : tri v (a ← procfs_mkdir path; b ← procfs_rmdir path; mret (a, b))
    (fun y v' => y = (0, 0) /\ v' = View (v_files v) (v_vfs v) (v_room v - cost PROCFS_FILE_SIZE) (v_errno v))).
  { apply triple_bind, tri_mkdir; [done|done|done|]. intros _ a t Ha Hna Hnv.
    set (f := new_file DT_DIR path (free_inode (v_files v)) t). set (v1 := View _ _ _ _).
    unfold mkdir_error in He. destruct (is_dots path) eqn:Ed; [done|]. destruct (by_name path (v_files v)) as [y|] eqn:En; [done|].
    pose proof (by_name_none path _ (to_magic _ Hok) En) as Hnone.
    assert (Hok1 : tree_ok v1) by (apply tree_create; try done; [by left|]; intros Hp; by apply parent_error_dir).
    assert (Hfind : by_name path (v_files v1) = Some (a, f)).
    { apply by_name_some; [apply Hok1|apply Hok1| |done]. apply elem_of_app. right. by left. }
    assert (Hpar : has_parent path = true).
    { unfold has_parent. rewrite (bool_decide_eq_false_2 (path = [slash])) by done. rewrite bool_decide_eq_false_2; [done|].
      intros ->. discriminate Ed. }
    assert (Hchild : childless path (v_files v1) = true).
    { unfold childless. apply forallb_forall. intros x Hx%list_elem_of_In. apply negb_true_iff. unfold child_of.
      apply elem_of_app in Hx as [Hx|Hx%list_elem_of_singleton]; [|subst x; cbn [snd f name new_file]; by rewrite bool_decide_eq_true_2, andb_false_r by done].
      rewrite (bool_decide_eq_false_2 (path = dirname (name x.2))); [by rewrite andb_false_r|]. intros E.
      destruct (to_parent _ Hok x Hx) as (q & Hq & Hqn & _); [by rewrite <- E|]. apply (Hnone q Hq). by rewrite Hqn. }
    apply triple_bind, tri_rmdir.
    - unfold rmdir_error. rewrite Ed, Hfind. cbn [snd f flags files name new_file]. rewrite Hchild. done.
    - intros _ b g Hb. rewrite Hfind in Hb. injection Hb as <- <-. apply triple_ret. split; [done|]. unfold v1. fields. by rewrite removed_last. }
  destruct (triple_run _ _ _ _ st Htri Hs) as [?|(y & st' & v' & Hrun & Hs' & -> & ->)]; [by left|right]. by eexists st', _.
Qed.

(** *** Unlinking *)

(** Procfs_unlink removes nothing: it refuses the files that are there with -EEXIST,
    and for one that is not there it goes through a null pointer. *)
Theorem procfs_unlink_fails st v path : repr st v -> is_dots path = false ->
  (is_Some (by_name path (v_files v)) -> procfs_unlink path ~{ st }~> - EEXIST; st) /\
  (by_name path (v_files v) = None -> procfs_unlink path ~{ st }~>! FPtr NULL).
Proof.
  intros Hs Hd. unfold procfs_unlink. rewrite Hd.
  assert (Hfind := find_path_run st path (v_files v) (r_files _ _ Hs) (fun x => repr_members st v x Hs)).
  rewrite (bind_ok _ _ _ _ _ Hfind). split.
  - intros [[a f] E]. rewrite E. cbn [addr fst]. destruct (by_name_elem _ _ _ E) as [Hin _].
    destruct (repr_members st v _ Hs Hin) as [_ Hn]. cbn [fst] in Hn. by rewrite (proj2 (Z.eqb_neq _ _)).
  - intros ->. cbn [addr]. change (negb (NULL =? NULL)) with false. cbn iota. apply bind_err.
    unfold file_at, getsome. destruct (st_objs st !! NULL) as [f|] eqn:E; [|done]. exfalso.
    rewrite (r_objs _ _ Hs) in E. apply elem_of_list_to_map_2 in E. apply (list_elem_of_fmap_2 fst) in E.
    pose proof (r_positive st v _ Hs E). cbn [fst] in *. unfold NULL in *. lia.
Qed.

(** *** Reading a directory

    A plain name has no slash at its end and no two before its last component. *)
Definition plain (n : list Z) : Prop := exists d b, n = d ++ slash :: b /\ slash ∉ b /\ b <> [] /\ last d <> Some slash.
Lemma last_slash_none b : slash ∉ b -> last_slash b = None.
Proof.
  induction b as [|c b IH]; intros Hb; [done|]. apply not_elem_of_cons in Hb as [Hc Hb]. cbn [last_slash]. rewrite IH by done.
  by rewrite (proj2 (Z.eqb_neq _ _)).
Qed.
Lemma last_slash_app d b : slash ∉ b -> last_slash (d ++ slash :: b) = Some (length d).
Proof.
  intros Hb. induction d as [|c d IH]; cbn [app last_slash length].
  - by rewrite last_slash_none, Z.eqb_refl.
  - by rewrite IH.
Qed.
Lemma dirname_plain d b : slash ∉ b -> b <> [] -> dirname (d ++ slash :: b) = (if decide (d = []) then [slash] else d) /\ basename (d ++ slash :: b) = b.
Proof.
  intros Hb Hne. unfold dirname, basename. rewrite last_slash_app by done. split.
  - destruct d as [|c d]; [done|]. rewrite (decide_False (P := c :: d = [])) by done. cbn [length].
    rewrite decide_False by (rewrite length_app; destruct b; [done|]; cbn; lia). change (S (length d)) with (length (c :: d)). by rewrite take_app_length.
  - replace (S (length d)) with (length (d ++ [slash])) by (rewrite length_app; cbn; lia).
    change (slash :: b) with ([slash] ++ b). rewrite app_assoc. by rewrite drop_app_length.
Qed.
(** The list functions are those of the C library. *)
Lemma dirname_is_libgen fuel m s dot p path : 0 < s -> 0 < p -> CString.cstr m p path -> plain path -> (length path < fuel)%nat ->
  CString.room m s (CString.len path + 1) -> s <= p \/ p + CString.len path + 1 <= s ->
  exists m', CString.dirname fuel s dot p ~{ m }~> s; m' /\ CString.cstr m' s (dirname path).
Proof.
  intros Hs Hp Hc (d & b & -> & Hb & Hne & _) Hf Hr Hap. destruct (dirname_plain d b Hb Hne) as [-> _].
  destruct (CString.paths_correct fuel m s dot p d b _ Hs Hp Hc Hb Hf Hr Hap) as [H1 _].
  destruct (H1 eq_refl) as [_ H2]. destruct (H2 Hne) as (m' & Hrun & Hc' & _). by exists m'.
Qed.

(** The entries of a directory, as they are given out. *)
Definition children (dir : list Z) (l : list (Z * procfs_file_t)) : list (Z * procfs_file_t) := filter (fun x => child_of dir x.2 = true) l.
Definition dirent_of (x : Z * procfs_file_t) : dirent_t :=
  MkDirent (u32 (inode x.2)) DIRENT_SIZE DIRENT_SIZE (u16 (flags x.2)) (basename (name x.2)).

(** The character behind the name of the directory. *)
Lemma child_name dir f len : plain (name f) -> child_of dir f = true ->
  len = zlen dir \/ (dir <> [slash] /\ len = zlen dir + 1) ->
  let len' := if nth (Z.to_nat len) (name f) 0 =? slash then len + 1 else len in
  drop (Z.to_nat len') (name f) = basename (name f) /\ (len' = zlen dir \/ (dir <> [slash] /\ len' = zlen dir + 1)).
Proof.
  intros (d & b & Hn & Hb & Hne & Hl) Hc. destruct (dirname_plain d b Hb Hne) as [Hd Hbase]. rewrite Hn, Hbase.
  unfold child_of in Hc. rewrite Hn, Hd in Hc. apply andb_true_iff in Hc as [_ Hdir%bool_decide_eq_true].
  assert (Hb0 : nth 0 b 0 <> slash) by (destruct b; [done|]; cbn; intros ->; apply Hb; by left).
  assert (Hz : Z.to_nat (zlen dir) = length dir) by (unfold zlen; lia). assert (Hz1 : Z.to_nat (zlen dir + 1) = S (length dir)) by (unfold zlen; lia).
  assert (Hdrop : forall e, drop (S (length e)) (e ++ slash :: b) = b).
  { intros e. replace (S (length e)) with (length (e ++ [slash])) by (rewrite length_app; cbn; lia).
    change (slash :: b) with ([slash] ++ b). rewrite app_assoc. by rewrite drop_app_length. }
  destruct (decide (d = [])) as [->|Hd0].
  - subst dir. intros [-> |[? _]]; [|done]. cbn zeta. rewrite Hz. cbn [length app nth]. rewrite (proj2 (Z.eqb_neq _ _)) by done.
    rewrite Hz. split; [done|by left].
  - subst dir. intros [-> |[Hs ->]]; cbn zeta.
    + rewrite Hz, nth_middle, Z.eqb_refl, Hz1, Hdrop. split; [done|]. right. split; [|done]. intros ->. by apply Hl.
    + rewrite Hz1. assert (Hnth : nth (S (length d)) (d ++ slash :: b) 0 = nth 0 b 0).
      { rewrite app_nth2 by lia. replace (S (length d) - length d)%nat with 1%nat by lia. done. }
      rewrite Hnth, (proj2 (Z.eqb_neq _ _)) by done. rewrite Hz1, Hdrop. split; [done|by right].
Qed.

Lemma getdents_run s dir doff count : 0 <= doff -> forall l n current len written out,
  (forall x, x ∈ l -> (st_objs s !! x.1 = Some x.2 /\ x.1 <> NULL) /\ procfs_check_file x.2 = true /\ plain (name x.2)) ->
  (0 < n)%nat -> count = written + DIRENT_SIZE * Z.of_nat n -> 0 <= current ->
  len = zlen dir \/ (dir <> [slash] /\ len = zlen dir + 1) ->
  let es := dirent_of <$> take n (drop (Z.to_nat (doff - current)) (children dir l)) in
  getdents_loop (X := X) l.*1 dir len current doff written count out ~{ s }~> (written + DIRENT_SIZE * Z.of_nat (length es), out ++ es); s.
Proof.
  intros Hdoff l. induction l as [|[a f] l IH]; intros n current len written out Hl Hn Hcount Hcur Hlen; cbn zeta.
  { cbn [fmap list_fmap getdents_loop children filter list_filter]. rewrite drop_nil, take_nil. cbn [fmap list_fmap length].
    rewrite app_nil_r, Z.mul_0_r, Z.add_0_r. done. }
  destruct (Hl (a, f) ltac:(by left)) as ([Ha Hnull] & Hc & Hp). cbn [fst snd] in Ha, Hnull, Hc, Hp.
  assert (IH' := fun n current len written out => IH n current len written out (fun x Hx => Hl x (list_elem_of_further _ _ _ Hx))). clear IH.
  cbn [fmap list_fmap getdents_loop fst]. rewrite (bind_ok _ _ _ _ _ (get_file_run s a f Ha Hnull)), Hc. unfold children. rewrite filter_cons. cbn [snd].
  destruct (child_of dir f) eqn:Ech.
  2:{ rewrite decide_False by done. unfold child_of in Ech. rewrite Hc in Ech. cbn [andb] in Ech.
      destruct (bool_decide (dir = name f)); [by apply IH'|]. cbn [negb andb] in Ech. rewrite Ech. cbn [negb]. by apply IH'. }
  rewrite decide_True by done. pose proof Ech as Ech'. unfold child_of in Ech. rewrite Hc in Ech. cbn [andb] in Ech.
  apply andb_true_iff in Ech as [E1%negb_true_iff E2]. rewrite E1, E2. cbn [negb]. fold (children dir l).
  destruct (Z.ltb_spec current doff) as [Hlt|Hge].
  - replace (Z.to_nat (doff - current)) with (S (Z.to_nat (doff - (current + 1)))) by lia. cbn [drop]. apply IH'; [done|done|lia|done].
  - replace (Z.to_nat (doff - current)) with 0%nat by lia. rewrite drop_0. destruct (child_name dir f len Hp Ech' Hlen) as [Hname Hlen']. cbn zeta in Hname, Hlen'.
    set (len' := if _ =? slash then len + 1 else len) in *. unfold DIRENT_SIZE in *. rewrite (proj2 (Z.leb_le (written + 268) count)) by lia. rewrite bind_ret_l.
    rewrite Hname. fold (dirent_of (a, f)). destruct n as [|n]; [lia|]. cbn [take fmap list_fmap length].
    destruct (Z.leb_spec count (written + 268)) as [Hend|Hmore].
    + assert (n = 0%nat) as -> by lia. cbn [take fmap list_fmap length]. unfold mret, M_ret. do 3 f_equal. 
    + rewrite (IH' n (current + 1) len' (written + 268) _ ltac:(lia) ltac:(lia) ltac:(lia) Hlen').
      replace (Z.to_nat (doff - (current + 1))) with 0%nat by lia. rewrite drop_0, <- app_assoc. do 3 f_equal. lia.
Qed.

(** What procfs_getdents gives from the entry with the number [doff] on. *)
Lemma getdents_from st v w file a f doff n : repr st v -> tree_ok v -> (forall x, x ∈ v_files v -> plain (name x.2)) ->
  v_vfs v !! w = Some file -> 0 < w -> by_inode (s32 (ino file)) (v_files v) = Some (a, f) -> flags f = DT_DIR ->
  0 <= doff -> (0 < n)%nat -> let es := dirent_of <$> take n (drop (Z.to_nat doff) (children (name f) (v_files v))) in
  procfs_getdents w doff (DIRENT_SIZE * Z.of_nat n) ~{ st }~> (DIRENT_SIZE * Z.of_nat (length es), es); st.
Proof.
  intros Hs Hok Hplain Hw Hw0 Hfind Hdir Hdoff Hn es. unfold procfs_getdents. rewrite (proj2 (Z.eqb_neq w NULL)) by (unfold NULL; lia).
  assert (Hv : vfs_at w ~{ st }~> file; st) by (apply getsome_ok; by rewrite (r_vfs _ _ Hs)). rewrite (bind_ok _ _ _ _ _ Hv).
  rewrite (bind_ok _ _ _ _ _ (find_inode_run st _ _ (r_files _ _ Hs) (fun x => repr_members st v x Hs))), Hfind. cbn [addr fst].
  destruct (find_file_elem _ _ _ Hfind) as [Hin _]. destruct (repr_members st v _ Hs Hin) as [Ha Hnull]. cbn [fst snd] in Ha, Hnull.
  rewrite (proj2 (Z.eqb_neq _ _)) by done. rewrite (bind_ok _ _ _ _ _ (file_at_run st a f Ha)), Hdir. change (Z.land DT_DIR DT_DIR =? 0) with false. cbn iota.
  rewrite (bind_ok _ _ st (st_files st) st) by done. rewrite (r_files _ _ Hs).
  rewrite (getdents_run st (name f) doff (DIRENT_SIZE * Z.of_nat n) Hdoff (v_files v) n 0 (zlen (name f)) 0 []);
    [by rewrite Z.sub_0_r| |done|lia|done|by left].
  intros x Hx. split; [by apply (repr_members st v)|]. split; [by apply Hok|by apply Hplain].
Qed.

(** C26: a first call of procfs_getdents, with [doff] 0, fills the buffer with the
    entries of the directory, in the order of their creation, each with its inode,
    its type and its last component, as many as fit, and gives their size. The
    buffer holds a whole number of entries, at least one (otherwise the last one is
    stored over its end, [getdents_overflow]); the files are a tree and their names
    [plain], without a slash at the end or two in front of the last component.
    (Behind the first call [doff] counts the entries that were given, see
    [getdents_from]; the doc comment calls it an offset in the buffer.) *)
Theorem procfs_getdents_correct st v w file a f n : repr st v -> tree_ok v -> (forall x, x ∈ v_files v -> plain (name x.2)) ->
  v_vfs v !! w = Some file -> 0 < w -> by_inode (s32 (ino file)) (v_files v) = Some (a, f) -> flags f = DT_DIR ->
  (0 < n)%nat -> let es := dirent_of <$> take n (children (name f) (v_files v)) in
  procfs_getdents w 0 (DIRENT_SIZE * Z.of_nat n) ~{ st }~> (DIRENT_SIZE * Z.of_nat (length es), es); st.
Proof. intros Hs Hok Hplain Hw Hw0 Hfind Hdir Hn es. exact (getdents_from st v w file a f 0 n Hs Hok Hplain Hw Hw0 Hfind Hdir ltac:(done) Hn). Qed.
End Operations2.

(** ** A concrete file system

    On the kernel heap, with a clock that stands still: the directories /proc and
    /proc/d, the file /proc/x, and /proc is open. *)
#[local] Existing Instances Kheap.unlimited_mapper Kheap.kernel_heap_allocator.
Abbreviation kernel_heap := (Kheap.heap (gset Z)).
#[local] Instance still_clock : Clock kernel_heap.
Proof. refine {| ck_time := mret 1000 |}. intros x al Hok. by exists 1000, x. Defined.

Fixpoint demo_heaps (sizes : list Z) : kernel_heap :=
  match sizes with
  | [] => Kheap.heap0
  | size :: sizes => match Kheap.kmalloc size (demo_heaps sizes) with Ok (_, h) => h | Err _ => Kheap.heap0 end
  end.
Lemma demo_heaps_step sizes size al p : ha_ok (demo_heaps sizes) al -> 0 < size < 65536 ->
  (Kheap.kernel_heap_top (demo_heaps sizes) + (size + 27) <=? Kheap.vm_end (demo_heaps sizes)) = true ->
  Kheap.result_of (Kheap.kmalloc size (demo_heaps sizes)) = Some p ->
  ha_ok (demo_heaps (size :: sizes)) (<[p := size]> al).
Proof.
  intros Hok Hsize Hroom%Z.leb_le Hrun.
  destruct (ha_alloc_law (demo_heaps sizes) al size 0 Hok) as [Herr|(q & h1 & Hr & Hok1 & _)];
    [lia|lia|change (Kheap.kernel_heap_top (demo_heaps sizes) + (size + 27 + 0) <= Kheap.vm_end (demo_heaps sizes)); lia|..].
  - change (ha_alloc size) with (Kheap.kmalloc (H := Kheap.unlimited_mapper) size) in Herr. by rewrite Herr in Hrun.
  - change (ha_alloc size) with (Kheap.kmalloc (H := Kheap.unlimited_mapper) size) in Hr.
    cbn [demo_heaps]. rewrite Hr in Hrun |- *. by injection Hrun as <-.
Qed.

Definition proc_name : list Z := [47; 112; 114; 111; 99].
Definition d_path : list Z := proc_name ++ [47; 100].
Definition x_path : list Z := proc_name ++ [47; 120].
Definition P0 : Z := 3489660952.
Definition P1 : Z := 3489661300.
Definition P2 : Z := 3489661648.
Definition W0 : Z := 3489661996.
Definition demo_proc : procfs_file_t := (new_file DT_DIR proc_name 1 1000) <| files := [W0] |>.
Definition demo_files : list (Z * procfs_file_t) :=
  [(P0, demo_proc); (P1, new_file DT_DIR d_path 2 1000); (P2, new_file DT_REG x_path 3 1000)].
Definition demo_vfs : vfs_file_t := new_vfs P0 demo_proc.
Definition demo_view : view := View demo_files {[W0 := demo_vfs]} 1000000 0.
Definition demo_state : state kernel_heap :=
  MkState (demo_heaps [336; 324; 324; 324]) [P0; P1; P2] 3 (list_to_map demo_files) {[W0 := demo_vfs]} 0.
Definition empty_state : state kernel_heap := MkState Kheap.heap0 [] 0 ∅ ∅ 0.
Definition empty_view : view := View [] ∅ 1000000 0.

Lemma proc_demo_repr : repr demo_state demo_view.
Proof.
  split; try reflexivity.
  - repeat constructor; set_solver.
  - vm_compute. congruence.
  - exists (<[W0 := 336]> (<[P2 := 324]> (<[P1 := 324]> (<[P0 := 324]> ∅)))). split; [|split].
    + do 4 (apply demo_heaps_step; [|lia|vm_compute; reflexivity..]). exact Kheap.heap0_ok.
    + intros a Ha. cbn in Ha. repeat (apply elem_of_cons in Ha as [-> |Ha]; [reflexivity|]). by apply elem_of_nil in Ha.
    + intros a [f Hf]. cbn [v_vfs demo_view] in Hf. apply lookup_singleton_Some in Hf as [<- _]. reflexivity.
Qed.
Lemma empty_repr : repr empty_state empty_view.
Proof.
  split; try reflexivity; try constructor.
  - vm_compute. congruence.
  - exists ∅. split; [exact Kheap.heap0_ok|]. split; [intros a Ha%elem_of_nil; done|]. by intros a [f Hf].
Qed.
Lemma empty_tree : tree_ok empty_view.
Proof. split; cbn; try (intros x Hx%elem_of_nil; done); try constructor; [by intros x w Hx%elem_of_nil|by intros w f Hw]. Qed.
Lemma demo_elem x : x ∈ demo_files -> x = (P0, demo_proc) \/ x = (P1, new_file DT_DIR d_path 2 1000) \/ x = (P2, new_file DT_REG x_path 3 1000).
Proof. unfold demo_files. rewrite !elem_of_cons, elem_of_nil. tauto. Qed.
Lemma demo_tree : tree_ok demo_view.
Proof.
  split; cbn [v_files v_vfs demo_view].
  - intros x Hx. by destruct (demo_elem x Hx) as [-> |[-> | ->]].
  - apply NoDup_ListNoDup. repeat constructor; cbn; intros Hin; repeat destruct Hin as [Hin|Hin]; try discriminate Hin; done.
  - apply NoDup_ListNoDup. repeat constructor; cbn; intros Hin; repeat destruct Hin as [Hin|Hin]; try discriminate Hin; done.
  - intros x Hx. destruct (demo_elem x Hx) as [-> |[-> | ->]]; cbn; unfold PROCFS_MAX_FILES; lia.
  - intros x Hx. destruct (demo_elem x Hx) as [-> |[-> | ->]]; cbn; tauto.
  - intros x Hx. by destruct (demo_elem x Hx) as [-> |[-> | ->]].
  - intros x Hx. destruct (demo_elem x Hx) as [-> |[-> | ->]]; intros Hp; [done|exists (P0, demo_proc); split; [by left|done]..].
  - intros x w Hx Hw. destruct (demo_elem x Hx) as [-> |[-> | ->]]; cbn in Hw; [|by apply elem_of_nil in Hw..].
    apply list_elem_of_singleton in Hw as ->. exists demo_vfs. done.
  - intros w f Hw. apply lookup_singleton_Some in Hw as [<- <-]. exists demo_proc. split; [by left|]. by left.
Qed.
Lemma ends_well {A S} (m : M S A) s : match m s with Ok _ => true | Err _ => false end = true -> m s = Err FFatal -> False.
Proof. intros Hm E. by rewrite E in Hm. Qed.

(** ** Witnesses *)

(** Reading /proc from its first entry gives d and x. *)
Lemma procfs_getdents_correct_witness :
  procfs_getdents W0 0 (DIRENT_SIZE * 3) ~{ demo_state }~> (536, [MkDirent 2 268 268 4 [100]; MkDirent 3 268 268 8 [120]]); demo_state.
Proof.
  refine (procfs_getdents_correct demo_state demo_view W0 demo_vfs P0 demo_proc 3 proc_demo_repr demo_tree _ _ _ _ _ _); try reflexivity; [|lia].
  intros x Hx. destruct (demo_elem x Hx) as [-> |[-> | ->]]; [exists [], [112; 114; 111; 99]|exists proc_name, [100]|exists proc_name, [120]];
    repeat split; try done; rewrite !not_elem_of_cons; cbn; repeat split; try done; apply not_elem_of_nil.
Defined.

(** /proc/y is created; /proc/x is there and a file, so O_DIRECTORY gives ENOTDIR. *)
Lemma procfs_open_correct_witness :
  (exists st' v' w, procfs_open (proc_name ++ [47; 121]) O_CREAT 0 ~{ demo_state }~> w; st' /\ 0 < w /\ repr st' v' /\
     opened_as (X := kernel_heap) demo_view (proc_name ++ [47; 121]) w v') /\
  (exists st' w, procfs_open x_path (Z.lor O_CREAT O_EXCL) 0 ~{ demo_state }~> w; st' /\ repr st' (demo_view <| v_errno := EEXIST |>)).
Proof.
  split.
  - destruct (procfs_open_correct demo_state demo_view (proc_name ++ [47; 121]) O_CREAT 0 proc_demo_repr ltac:(vm_compute; reflexivity)
        ltac:(vm_compute; reflexivity) ltac:(split; [repeat constructor|vm_compute; intros [? E]; discriminate E]) ltac:(vm_compute; congruence))
      as [Hf|(w & st' & v' & Hrun & Hs' & HQ)].
    + exfalso. revert Hf. apply ends_well. vm_compute. reflexivity.
    + change (open_error _ _ _ =? 0) with true in HQ. destruct HQ as (Hw & _ & Hop). exists st', v', w. split; [exact Hrun|]. split; [exact Hw|]. split; [exact Hs'|exact Hop].
  - destruct (procfs_open_correct demo_state demo_view x_path (Z.lor O_CREAT O_EXCL) 0 proc_demo_repr ltac:(vm_compute; reflexivity)
        ltac:(vm_compute; reflexivity) ltac:(split; [repeat constructor|reflexivity]) ltac:(vm_compute; congruence))
      as [Hf|(w & st' & v' & Hrun & Hs' & HQ)].
    + exfalso. revert Hf. apply ends_well. vm_compute. reflexivity.
    + change (open_error _ _ _ =? 0) with false in HQ. cbv iota in HQ. exists st', w. split; [exact Hrun|]. rewrite HQ in Hs'. exact Hs'.
Defined.

(** From an empty file system: make /proc and /proc/d, create /proc/x, try to remove
    /proc, open it, close both, remove x and d. *)
Definition demo_events : list event :=
  [EMkdir proc_name; EMkdir d_path; EOpen x_path O_CREAT; ERmdir proc_name; EOpen proc_name O_DIRECTORY; EClose 0; EClose 0; EDestroy [120]; ERemove [100]].
Lemma procfs_stays_a_tree_witness : exists st' v', session demo_events [] ~{ empty_state }~> []; st' /\ repr st' v' /\ tree_ok v'.
Proof.
  destruct (procfs_stays_a_tree empty_state empty_view demo_events empty_repr) as [Hf|(hs & st' & v' & Hrun & Hs' & Ht & _)].
  - split; [exact empty_tree|vm_compute; congruence..|]. split; [constructor|]. by intros w Hw%elem_of_nil.
  - unfold demo_events. repeat constructor; vm_compute; reflexivity.
  - exfalso. revert Hf. apply ends_well. vm_compute. reflexivity.
  - assert (hs = []) as ->; [|exists st', v'; split; [exact Hrun|split; [exact Hs'|exact Ht]]]. assert (Hv : Kheap.result_of (session demo_events [] empty_state) = Some []) by (vm_compute; reflexivity).
    rewrite Hrun in Hv. cbn in Hv. congruence.
Defined.

(** A directory in /proc is made and removed. *)
Lemma procfs_mkdir_rmdir_witness : exists st' r, (a ← procfs_mkdir (proc_name ++ [47; 101]); b ← procfs_rmdir (proc_name ++ [47; 101]); mret (a, b)) ~{ demo_state }~> (0, 0); st' /\
  repr st' (View demo_files {[W0 := demo_vfs]} r 0).
Proof.
  destruct (procfs_mkdir_rmdir demo_state demo_view (proc_name ++ [47; 101]) proc_demo_repr demo_tree) as [Hf|(st' & r & Hrun & Hs')];
    [vm_compute; reflexivity|vm_compute; reflexivity|done|vm_compute; reflexivity|vm_compute; congruence|..].
  - exfalso. revert Hf. apply ends_well. vm_compute. reflexivity.
  - exists st', r. split; [exact Hrun|exact Hs'].
Defined.

Lemma procfs_unlink_fails_witness :
  procfs_unlink x_path ~{ demo_state }~> - EEXIST; demo_state /\ procfs_unlink (proc_name ++ [47; 121]) ~{ demo_state }~>! FPtr NULL.
Proof.
  split.
  - apply (procfs_unlink_fails demo_state demo_view x_path proc_demo_repr eq_refl). vm_compute. by eexists.
  - by apply (procfs_unlink_fails demo_state demo_view (proc_name ++ [47; 121]) proc_demo_repr eq_refl).
Defined.

(** ** Defects *)

(** O_CREAT on a file that is there is refused although O_EXCL is not given. *)
Example create_existing : Kheap.result_of ((w ← procfs_open x_path O_CREAT 0; e ← gets errno; mret (w, e)) demo_state) = Some (NULL, EEXIST).
Proof. vm_compute. reflexivity. Qed.

(** With 1023 files no inode number is left; the next file gets -1. *)
Example inode_minus_one : free_inode ((fun i => (i, new_file DT_REG [] i 0)) <$> seqZ 1 1023) = -1.
Proof. vm_compute. reflexivity. Qed.

(** The entry e of the directory d of /proc/d becomes /proc/d/e, since a name does not
    hold the path of its directory. *)
Example nested_entry :
  Kheap.result_of ((q ← proc_mkdir [100] P1; a ← proc_create_entry [101] q; f ← file_at q; g ← file_at a; mret (name f, name g)) demo_state) =
  Some (d_path ++ [47; 100], d_path ++ [47; 101]).
Proof. vm_compute. reflexivity. Qed.

(** An entry can be made in a directory that is not there. *)
Example entry_without_parent :
  Kheap.result_of ((a ← proc_create_entry [122; 47; 101] NULL; q ← procfs_find_entry_path (proc_name ++ [47; 122]); mret (bool_decide (a = NULL), q)) demo_state) =
  Some (false, NULL).
Proof. vm_compute. reflexivity. Qed.

(** A buffer that is no whole number of entries: the last one is stored over its end. *)
Example getdents_overflow :
  procfs_getdents W0 0 0 demo_state = Err (FBound 0) /\ procfs_getdents W0 0 300 demo_state = Err (FBound 268).
Proof. by vm_compute. Qed.

(** A name of 255 characters does not fit into its array. *)
Example name_overflow : procfs_mkdir (47 :: replicate 254 97) demo_state = Err (FBound 255).
Proof. vm_compute. reflexivity. Qed.
End Procfs.
