(* ===== verification/HeapList.v ===== *)
(** * Lists on the kernel heap (src/kernel/lib/list.c)

    Doubly linked lists whose nodes are blocks of the kernel heap; the header of a
    list, with its first and last node and its size, is a block as well. *)

From S2P Require Import Prelude Hoare Interfaces Kheap.

Module HeapList.
Open Scope Z_scope.

(** ** Data *)
Record listnode_t := MkNode { value : Z; prev : Z; next : Z }.
Record list_t := MkList { head : Z; tail : Z; size : Z }.
#[export] Instance eta_node : Eta listnode_t := {| eta := fun n => MkNode (value n) (prev n) (next n) |}.
#[export] Instance eta_list : Eta list_t := {| eta := fun l => MkList (head l) (tail l) (size l) |}.
(** sizeof of both. *)
Definition NODE_SIZE : Z := 12.
Definition LIST_SIZE : Z := 12.

(** The heap, and the nodes and headers by address. *)
Record state (X : Type) := MkState { st_heap : X; st_nodes : gmap Z listnode_t; st_lists : gmap Z list_t }.
#[global] Arguments MkState {X} _ _ _.
#[global] Arguments st_heap {X} _.
#[global] Arguments st_nodes {X} _.
#[global] Arguments st_lists {X} _.
#[export] Instance eta_state X : Eta (state X) := {| eta := fun s => MkState (st_heap s) (st_nodes s) (st_lists s) |}.

(** ** Operations *)
Section Operations.
Context {X : Type} `{HeapAllocator X}.
Abbreviation E := (M (state X)).

Definition on_heap {A} (m : M X A) : E A := zoom st_heap (fun h s => s <| st_heap := h |>) m.
Definition node_at (a : Z) : E listnode_t := getsome (FPtr a) (fun s => st_nodes s !! a).
Definition list_at (l : Z) : E list_t := getsome (FPtr l) (fun s => st_lists s !! l).
Definition upd_node (a : Z) (g : listnode_t -> listnode_t) : E unit :=
  n ← node_at a; modify (fun s => s <| st_nodes := <[a := g n]> (st_nodes s) |>).
Definition upd_list (l : Z) (g : list_t -> list_t) : E unit :=
  x ← list_at l; modify (fun s => s <| st_lists := <[l := g x]> (st_lists s) |>).

(** The result of kmalloc is not checked: memset goes through a null pointer. *)
Definition __node_alloc : E Z :=
  a ← on_heap (ha_alloc NODE_SIZE);
  if a =? NULL then fail (FPtr NULL)
  else modify (fun s => s <| st_nodes := <[a := MkNode 0 NULL NULL]> (st_nodes s) |>) ;; mret a.
Definition __node_dealloc (a : Z) : E unit :=
  on_heap (ha_free a) ;; modify (fun s => s <| st_nodes := delete a (st_nodes s) |>).
Definition __list_dealloc (l : Z) : E unit :=
  on_heap (ha_free l) ;; modify (fun s => s <| st_lists := delete l (st_lists s) |>).
Definition list_create : E Z :=
  l ← on_heap (ha_alloc LIST_SIZE);
  if l =? NULL then fail (FPtr NULL)
  else modify (fun s => s <| st_lists := <[l := MkList NULL NULL 0]> (st_lists s) |>) ;; mret l.

Definition list_size (l : Z) : E Z := x ← list_at l; mret (size x).
Definition list_empty (l : Z) : E Z := x ← list_at l; mret (if size x =? 0 then 1 else 0).

Definition list_insert_front (l v : Z) : E Z :=
  a ← __node_alloc;
  x ← list_at l;
  upd_node (head x) (fun n => n <| prev := a |>) ;;
  upd_node a (fun n => n <| next := head x |>) ;;
  upd_node a (fun n => n <| value := v |>) ;;
  (if head x =? NULL then upd_list l (fun x => x <| tail := a |>) else mret tt) ;;
  upd_list l (fun x => x <| head := a |>) ;;
  upd_list l (fun x => x <| size := u32 (size x + 1) |>) ;;
  mret a.

Definition list_insert_back (l v : Z) : E Z :=
  a ← __node_alloc;
  x ← list_at l;
  upd_node a (fun n => n <| prev := tail x |>) ;;
  (if negb (tail x =? NULL) then upd_node (tail x) (fun n => n <| next := a |>) else mret tt) ;;
  upd_node a (fun n => n <| value := v |>) ;;
  (if head x =? NULL then upd_list l (fun x => x <| head := a |>) else mret tt) ;;
  upd_list l (fun x => x <| tail := a |>) ;;
  upd_list l (fun x => x <| size := u32 (size x + 1) |>) ;;
  mret a.
Definition list_push_back (l v : Z) : E unit := list_insert_back l v ;; mret tt.
Definition list_push_front (l v : Z) : E unit := list_insert_front l v ;; mret tt.

Definition list_remove_front (l : Z) : E Z :=
  x ← list_at l;
  if head x =? NULL then mret NULL
  else
    n ← node_at (head x);
    upd_list l (fun x => x <| head := next n |>) ;;
    (if negb (next n =? NULL) then upd_node (next n) (fun n => n <| prev := NULL |>) else mret tt) ;;
    __node_dealloc (head x) ;;
    upd_list l (fun x => x <| size := u32 (size x - 1) |>) ;;
    mret (value n).
Definition list_remove_back (l : Z) : E Z :=
  x ← list_at l;
  if head x =? NULL then mret NULL
  else
    n ← node_at (tail x);
    upd_list l (fun x => x <| tail := prev n |>) ;;
    (if negb (prev n =? NULL) then upd_node (prev n) (fun n => n <| next := NULL |>) else mret tt) ;;
    __node_dealloc (tail x) ;;
    upd_list l (fun x => x <| size := u32 (size x - 1) |>) ;;
    mret (value n).
Definition list_remove_node (l a : Z) : E Z :=
  x ← list_at l;
  if head x =? a then list_remove_front l
  else if tail x =? a then list_remove_back l
  else
    n ← node_at a;
    upd_node (next n) (fun m => m <| prev := prev n |>) ;;
    upd_node (prev n) (fun m => m <| next := next n |>) ;;
    upd_list l (fun x => x <| size := u32 (size x - 1) |>) ;;
    __node_dealloc a ;;
    mret (value n).

(** [listnode_foreach] from the node [a], the [i]-th of the list: the first node that
    satisfies the test, with its number. More rounds than there are nodes are a cycle. *)
Fixpoint foreach (fuel : nat) (test : listnode_t -> Z -> bool) (a i : Z) : E (option (Z * Z)) :=
  if a =? NULL then mret None
  else match fuel with
  | O => fail FLoop
  | S fuel => n ← node_at a; if test n i then mret (Some (a, i)) else foreach fuel test (next n) (i + 1)
  end.
Definition listnode_foreach (l : Z) (test : listnode_t -> Z -> bool) : E (option (Z * Z)) :=
  x ← list_at l; k ← gets (fun s => Datatypes.S (map_size (st_nodes s))); foreach k test (head x) 0.
Definition list_find (l v : Z) : E Z :=
  o ← listnode_foreach l (fun n _ => value n =? v); mret (match o with Some (a, _) => a | None => NULL end).
Definition list_get_index_of_value (l v : Z) : E Z :=
  o ← listnode_foreach l (fun n _ => value n =? v); mret (match o with Some (_, i) => s32 i | None => -1 end).
Definition list_get_node_by_index (l index : Z) : E Z :=
  k ← list_size l;
  if k <=? index then mret NULL
  else o ← listnode_foreach l (fun _ i => index =? u32 i); mret (match o with Some (a, _) => a | None => NULL end).
Definition list_remove_by_index (l index : Z) : E Z :=
  a ← list_get_node_by_index l index;
  if negb (a =? NULL) then list_remove_node l a else mret NULL.

(** The node is taken from the list and not freed. *)
Definition list_pop_back (l : Z) : E Z :=
  x ← list_at l;
  if head x =? NULL then mret NULL
  else
    n ← node_at (tail x);
    upd_list l (fun x => x <| tail := prev n |>) ;;
    (if negb (prev n =? NULL) then upd_node (prev n) (fun n => n <| next := NULL |>) else mret tt) ;;
    upd_list l (fun x => x <| size := u32 (size x - 1) |>) ;;
    mret (tail x).
Definition list_pop_front (l : Z) : E Z :=
  x ← list_at l;
  if head x =? NULL then mret NULL
  else
    n ← node_at (head x);
    upd_list l (fun x => x <| head := next n |>) ;;
    upd_list l (fun x => x <| size := u32 (size x - 1) |>) ;;
    mret (head x).
Definition list_peek_front (l : Z) : E Z :=
  x ← list_at l; if head x =? NULL then mret NULL else n ← node_at (head x); mret (value n).
Definition list_peek_back (l : Z) : E Z :=
  x ← list_at l; if tail x =? NULL then mret NULL else n ← node_at (tail x); mret (value n).

Fixpoint destroy_nodes (fuel : nat) (a : Z) : E unit :=
  if a =? NULL then mret tt
  else match fuel with
  | O => fail FLoop
  | S fuel => n ← node_at a; __node_dealloc a ;; destroy_nodes fuel (next n)
  end.
Definition list_destroy (l : Z) : E unit :=
  x ← list_at l;
  k ← gets (fun s => Datatypes.S (map_size (st_nodes s)));
  destroy_nodes k (head x) ;;
  __list_dealloc l.
Definition list_merge (target source : Z) : E unit :=
  t ← list_at target;
  x ← list_at source;
  (if negb (tail t =? NULL) then upd_node (tail t) (fun n => n <| next := head x |>)
   else upd_list target (fun t => t <| head := head x |>)) ;;
  (if negb (tail x =? NULL) then upd_list target (fun t => t <| tail := tail x |>) else mret tt) ;;
  upd_list target (fun t => t <| size := u32 (size t + size x) |>) ;;
  __list_dealloc source.
End Operations.

(** ** Lists of nodes

    A list is seen as the list of its nodes, each with its address and its value.
    [dseg]: the nodes are linked both ways, from [pv] before the first one to [nx]
    behind the last one. *)
Definition first_of (nx : Z) (xs : list (Z * Z)) : Z := match xs with [] => nx | x :: _ => x.1 end.
Fixpoint last_of (pv : Z) (xs : list (Z * Z)) : Z := match xs with [] => pv | x :: xs => last_of x.1 xs end.
Fixpoint dseg (N : gmap Z listnode_t) (pv : Z) (xs : list (Z * Z)) (nx : Z) : Prop :=
  match xs with
  | [] => True
  | x :: xs => N !! x.1 = Some (MkNode x.2 pv (first_of nx xs)) /\ dseg N x.1 xs nx
  end.
Definition header (xs : list (Z * Z)) : list_t := MkList (first_of NULL xs) (last_of NULL xs) (u32 (Z.of_nat (length xs))).

Lemma last_of_snoc pv xs x : last_of pv (xs ++ [x]) = x.1.
Proof. revert pv. induction xs as [|y xs IH]; intros pv; [done|]. apply IH. Qed.
Lemma last_of_app pv xs ys : last_of pv (xs ++ ys) = last_of (last_of pv xs) ys.
Proof. revert pv. induction xs as [|y xs IH]; intros pv; [done|]. apply IH. Qed.
Lemma last_of_cases pv xs : last_of pv xs = pv \/ last_of pv xs ∈ xs.*1.
Proof.
  revert pv. induction xs as [|y xs IH]; intros pv; [by left|]. right. cbn [last_of fmap list_fmap].
  destruct (IH y.1) as [-> |Hin]; [by left|by right].
Qed.
Lemma first_of_cases nx xs : first_of nx xs = nx \/ first_of nx xs ∈ xs.*1.
Proof. destruct xs as [|y xs]; [by left|]. right. by left. Qed.
Lemma first_of_app nx xs ys : first_of nx (xs ++ ys) = first_of (first_of nx ys) xs.
Proof. by destruct xs. Qed.
Lemma dseg_app N pv xs ys nx : dseg N pv (xs ++ ys) nx <-> dseg N pv xs (first_of nx ys) /\ dseg N (last_of pv xs) ys nx.
Proof.
  revert pv. induction xs as [|x xs IH]; intros pv; cbn [app dseg last_of]; [tauto|].
  rewrite IH, first_of_app. tauto.
Qed.
Lemma dseg_frame N N' pv xs nx : (forall a, a ∈ xs.*1 -> N' !! a = N !! a) -> dseg N pv xs nx -> dseg N' pv xs nx.
Proof.
  revert pv. induction xs as [|x xs IH]; intros pv HN; [done|]. intros [Hx Hxs]. split; [rewrite HN by (by left); exact Hx|].
  apply IH; [|done]. intros a Ha. apply HN. by right.
Qed.
Lemma dseg_stored N pv xs nx a : dseg N pv xs nx -> a ∈ xs.*1 -> is_Some (N !! a).
Proof.
  revert pv. induction xs as [|x xs IH]; intros pv; [by intros _ ?%elem_of_nil|]. intros [Hx Hxs] [->|Ha]%elem_of_cons; [by eexists|by eapply IH].
Qed.
Lemma dseg_nth N pv xs nx i x : dseg N pv xs nx -> xs !! i = Some x ->
  N !! x.1 = Some (MkNode x.2 (last_of pv (take i xs)) (first_of nx (drop (Datatypes.S i) xs))).
Proof.
  intros Hd Hi. rewrite <- (take_drop_middle _ _ _ Hi) in Hd. apply dseg_app in Hd as [_ [Hx _]]. exact Hx.
Qed.
Lemma first_of_elem xs : xs <> [] -> first_of NULL xs ∈ xs.*1.
Proof. destruct xs as [|x xs]; [done|]. intros _. by left. Qed.

(** What the proofs see of a state: the lists by the address of the header, the
    blocks of the heap and the room on it. *)
Record view := View { v_lists : gmap Z (list (Z * Z)); v_blocks : gmap Z Z; v_room : Z }.

Section Repr.
Context {X : Type} `{HeapAllocator X}.
Implicit Types (v : view) (s : state X).

Record repr s v : Prop := {
  r_header : forall l xs, v_lists v !! l = Some xs -> st_lists s !! l = Some (header xs) /\ v_blocks v !! l = Some LIST_SIZE;
  r_nodes : forall l xs, v_lists v !! l = Some xs -> dseg (st_nodes s) NULL xs NULL /\ NoDup xs.*1;
  r_own : forall l xs a, v_lists v !! l = Some xs -> a ∈ xs.*1 -> v_blocks v !! a = Some NODE_SIZE /\ v_lists v !! a = None;
  r_disjoint : forall l xs k ys a, v_lists v !! l = Some xs -> v_lists v !! k = Some ys -> a ∈ xs.*1 -> a ∈ ys.*1 -> l = k;
  r_heap : ha_ok (st_heap s) (v_blocks v);
  r_room : ha_room (st_heap s) (v_room v)
}.

(** One list is replaced: its nodes are old ones of it or new blocks, and all other
    blocks and nodes are as before. *)
Lemma repr_set h N L v l xs ys h' N' blocks' room' : repr (MkState h N L) v -> v_lists v !! l = Some xs ->
  ha_ok h' blocks' -> ha_room h' room' -> dseg N' NULL ys NULL -> NoDup ys.*1 ->
  (forall a, a ∈ ys.*1 -> blocks' !! a = Some NODE_SIZE /\ (a ∈ xs.*1 \/ v_blocks v !! a = None)) ->
  (forall b, b ∉ xs.*1 -> is_Some (v_blocks v !! b) -> blocks' !! b = v_blocks v !! b /\ N' !! b = N !! b) ->
  repr (MkState h' N' (<[l := header ys]> L)) (View (<[l := ys]> (v_lists v)) blocks' room').
Proof.
  intros [R1 R2 R3 R4 R5 R6] Hl Hok Hroom Hd Hnd Hys Hframe. cbn [st_lists st_nodes st_heap] in *.
  assert (Hold : forall k zs a, v_lists v !! k = Some zs -> k <> l -> a ∈ zs.*1 -> a ∉ xs.*1 /\ v_blocks v !! a = Some NODE_SIZE /\ v_lists v !! a = None).
  { intros k zs a Hk Hne Ha. split; [intros Hin; by apply Hne, (R4 k zs l xs a)|by eapply R3]. }
  assert (Hlx : forall k zs, v_lists v !! k = Some zs -> k ∉ xs.*1) by (intros k zs Hk Hin; destruct (R3 l xs k Hl Hin); congruence).
  assert (Hys' : forall a, a ∈ ys.*1 -> a <> l /\ v_lists v !! a = None).
  { intros a Ha. destruct (Hys a Ha) as [_ [Hin|Hnone]]; [destruct (R3 l xs a Hl Hin); split; congruence|].
    split; [intros -> ; destruct (R1 l xs Hl); congruence|]. destruct (v_lists v !! a) as [zs|] eqn:E; [|done]. destruct (R1 a zs E); congruence. }
  split; cbn [st_lists st_nodes st_heap v_lists v_blocks v_room]; try done.
  - intros k zs. rewrite !lookup_insert. case_decide as Hk.
    + intros [= <-]. split; [done|]. subst k. destruct (R1 l xs Hl) as [_ Hb]. rewrite <- Hb. apply Hframe; [by eapply Hlx|by eexists].
    + intros Hz. destruct (R1 k zs Hz) as [Hh Hb]. split; [done|]. rewrite <- Hb. apply Hframe; [by eapply Hlx|by eexists].
  - intros k zs. rewrite lookup_insert. case_decide as Hk; [by intros [= <-]|]. intros Hz. destruct (R2 k zs Hz). split; [|done].
    eapply dseg_frame; [|done]. intros a Ha. destruct (Hold k zs a Hz ltac:(done) Ha) as (Hn & Hb & _). apply Hframe; [done|by eexists].
  - intros k zs a. rewrite lookup_insert. case_decide as Hk.
    + intros [= <-] Ha. destruct (Hys' a Ha). split; [by apply Hys|]. by rewrite lookup_insert_ne.
    + intros Hz Ha. destruct (Hold k zs a Hz ltac:(done) Ha) as (Hn & Hb & Hno). split.
      * rewrite <- Hb. apply Hframe; [done|by eexists].
      * rewrite lookup_insert_ne; [done|]. intros <-. congruence.
  - assert (Hcross : forall k zs a, v_lists v !! k = Some zs -> k <> l -> a ∈ zs.*1 -> a ∈ ys.*1 -> False).
    { intros k zs a Hz Hne Ha Hy. destruct (Hold k zs a Hz Hne Ha) as (Hn & Hb & _). destruct (Hys a Hy) as [_ [?|?]]; [done|congruence]. }
    intros k zs k' zs' a. rewrite !lookup_insert. repeat case_decide; subst; try done.
    + intros [= <-] Hz Ha Ha'. exfalso. by eapply (Hcross k' zs' a).
    + intros Hz [= <-] Ha Ha'. exfalso. by eapply (Hcross k zs a).
    + intros Hz Hz'. by eapply R4.
Qed.
End Repr.

Ltac fields := cbn [setter value prev next head tail size st_heap st_nodes st_lists v_lists v_blocks v_room].

Section Rules.
Context {X : Type} `{HeapAllocator X}.
Abbreviation tri := (triple (repr (X := X))).
Abbreviation cost := (ha_cost (X := X)).
Implicit Types (v : view) (s : state X).

Lemma node_at_run h N L a n : N !! a = Some n -> node_at (X := X) a ~{ MkState h N L }~> n; MkState h N L.
Proof. intros Ha. by apply getsome_ok. Qed.
Lemma list_at_run h N L l x : L !! l = Some x -> list_at (X := X) l ~{ MkState h N L }~> x; MkState h N L.
Proof. intros Ha. by apply getsome_ok. Qed.
Lemma upd_node_run h N L a n g : N !! a = Some n -> upd_node (X := X) a g ~{ MkState h N L }~> tt; MkState h (<[a := g n]> N) L.
Proof. intros Ha. unfold upd_node. by rewrite (bind_ok _ _ _ _ _ (node_at_run h N L a n Ha)). Qed.
Lemma upd_list_run h N L l x g : L !! l = Some x -> upd_list (X := X) l g ~{ MkState h N L }~> tt; MkState h N (<[l := g x]> L).
Proof. intros Ha. unfold upd_list. by rewrite (bind_ok _ _ _ _ _ (list_at_run h N L l x Ha)). Qed.
Lemma node_alloc_run h N L al m : ha_ok h al -> 0 <= m -> ha_room h (cost NODE_SIZE + m) ->
  __node_alloc ~{ MkState h N L }~>! FFatal \/
  exists a h', __node_alloc ~{ MkState h N L }~> a; MkState h' (<[a := MkNode 0 NULL NULL]> N) L /\ 0 < a /\ al !! a = None /\
    ha_ok h' (<[a := NODE_SIZE]> al) /\ ha_room h' m.
Proof.
  intros Hok Hm Hroom. unfold __node_alloc, on_heap.
  destruct (ha_alloc_law h al NODE_SIZE m Hok ltac:(done) Hm Hroom) as [Herr|(a & h' & Hrun & Hok' & Hnew & Hroom')].
  - left. apply bind_err. unfold zoom. fields. by rewrite Herr.
  - right. exists a, h'. assert (Ha : 0 < a) by (eapply ha_positive; [exact Hok'|apply lookup_insert_eq]).
    erewrite bind_ok by (unfold zoom; fields; rewrite Hrun; reflexivity). rewrite (proj2 (Z.eqb_neq a NULL)) by (unfold NULL; lia). done.
Qed.
Lemma node_dealloc_run h N L al a z : ha_ok h al -> al !! a = Some z ->
  exists h', __node_dealloc a ~{ MkState h N L }~> tt; MkState h' (delete a N) L /\ ha_ok h' (delete a al) /\ forall m, ha_room h m -> ha_room h' m.
Proof.
  intros Hok Ha. destruct (ha_free_law h al a z Hok Ha) as (h' & Hrun & Hok' & Hroom). exists h'. split; [|done].
  unfold __node_dealloc, on_heap. erewrite bind_ok by (unfold zoom; fields; rewrite Hrun; reflexivity). done.
Qed.

Lemma tri_create v (Q : Z -> view -> Prop) : cost LIST_SIZE <= v_room v ->
  (forall l, 0 < l -> v_blocks v !! l = None -> Q l (View (<[l := []]> (v_lists v)) (<[l := LIST_SIZE]> (v_blocks v)) (v_room v - cost LIST_SIZE))) ->
  tri v list_create Q.
Proof.
  intros Hroom HQ [h N L] Hs. apply wp_of_run. unfold list_create, on_heap. destruct Hs as [R1 R2 R3 R4 R5 R6]. cbn [st_lists st_nodes st_heap] in *.
  destruct (ha_alloc_law h _ LIST_SIZE (v_room v - cost LIST_SIZE) R5 ltac:(done) ltac:(lia)) as [Herr|(l & h' & Hrun & Hok & Hnew & Hroom')].
  { by replace (cost LIST_SIZE + (v_room v - cost LIST_SIZE)) with (v_room v) by lia. }
  { left. apply bind_err. unfold zoom. fields. by rewrite Herr. }
  right. assert (Hl : 0 < l) by (eapply ha_positive; [exact Hok|apply lookup_insert_eq]).
  erewrite bind_ok by (unfold zoom; fields; rewrite Hrun; reflexivity). rewrite (proj2 (Z.eqb_neq l NULL)) by (unfold NULL; lia).
  exists l, (MkState h' N (<[l := header []]> L)). split; [done|]. eexists. split; [|by apply HQ].
  assert (Hne : forall b z, v_blocks v !! b = Some z -> b <> l) by (intros b z Hb -> ; congruence).
  split; fields; try done.
  - intros k xs. rewrite !lookup_insert. case_decide; [by intros [= <-]|apply R1].
  - intros k xs. rewrite lookup_insert. case_decide; [intros [= <-]; split; [done|constructor]|apply R2].
  - intros k xs a. rewrite lookup_insert. case_decide; [by intros [= <-] ?%elem_of_nil|]. intros Hk Ha. destruct (R3 k xs a Hk Ha) as [Hb Hno].
    assert (a <> l) by (by eapply Hne). by rewrite !lookup_insert_ne.
  - intros k xs k' ys a. rewrite !lookup_insert. repeat case_decide; subst; try done; [by intros [= <-] ? ?%elem_of_nil|by intros ? [= <-] ? ?%elem_of_nil|apply R4].
Qed.

(** A node more, and a node less. *)
Lemma repr_add h N L v l xs ys a w h' N' room' : repr (MkState h N L) v -> v_lists v !! l = Some xs -> v_blocks v !! a = None ->
  ha_ok h' (<[a := NODE_SIZE]> (v_blocks v)) -> ha_room h' room' -> ys ≡ₚ (a, w) :: xs -> dseg N' NULL ys NULL ->
  (forall b, b ∉ xs.*1 -> b <> a -> N' !! b = N !! b) ->
  repr (MkState h' N' (<[l := header ys]> L)) (View (<[l := ys]> (v_lists v)) (<[a := NODE_SIZE]> (v_blocks v)) room').
Proof.
  intros Hs Hl Hnew Hok Hroom Hp Hd Hframe. assert (Hp' : ys.*1 ≡ₚ a :: xs.*1) by (by rewrite Hp).
  assert (Hax : a ∉ xs.*1) by (intros Hin; destruct (r_own _ _ Hs l xs a Hl Hin); congruence).
  destruct (r_nodes _ _ Hs l xs Hl) as [_ Hnd]. eapply (repr_set h N L v l xs); try done.
  - rewrite Hp'. by constructor.
  - intros b. rewrite Hp', elem_of_cons. intros [-> |Hb]; [rewrite lookup_insert_eq; by split; [|right]|].
    assert (b <> a) by congruence. rewrite lookup_insert_ne by done. split; [by apply (r_own _ _ Hs l xs)|by left].
  - intros b Hb [z Hz]. assert (b <> a) by congruence. rewrite lookup_insert_ne by done. split; [done|by apply Hframe].
Qed.
Lemma repr_drop h N L v l xs ys a w h' N' : repr (MkState h N L) v -> v_lists v !! l = Some xs -> xs ≡ₚ (a, w) :: ys ->
  ha_ok h' (delete a (v_blocks v)) -> ha_room h' (v_room v) -> dseg N' NULL ys NULL ->
  (forall b, b ∉ xs.*1 -> N' !! b = N !! b) ->
  repr (MkState h' N' (<[l := header ys]> L)) (View (<[l := ys]> (v_lists v)) (delete a (v_blocks v)) (v_room v)).
Proof.
  intros Hs Hl Hp Hok Hroom Hd Hframe. assert (Hp' : xs.*1 ≡ₚ a :: ys.*1) by (by rewrite Hp).
  destruct (r_nodes _ _ Hs l xs Hl) as [_ Hnd]. rewrite Hp' in Hnd. apply NoDup_cons in Hnd as [Hay Hnd].
  eapply (repr_set h N L v l xs); try done.
  - intros b Hb. assert (b <> a) by congruence. rewrite lookup_delete_ne by done.
    assert (b ∈ xs.*1) by (rewrite Hp'; by right). split; [by apply (r_own _ _ Hs l xs)|by left].
  - intros b Hb _. assert (b <> a) by (intros ->; apply Hb; rewrite Hp'; by left). rewrite lookup_delete_ne by done. split; [done|by apply Hframe].
Qed.
Lemma member_nonnull s v l xs a : repr s v -> v_lists v !! l = Some xs -> a ∈ xs.*1 -> (a =? NULL) = false.
Proof.
  intros Hs Hl Ha. destruct (r_own _ _ Hs l xs a Hl Ha) as [Hb _]. pose proof (ha_positive _ _ _ _ (r_heap _ _ Hs) Hb).
  apply Z.eqb_neq. unfold NULL. lia.
Qed.
Lemma first_nonnull s v l xs : repr s v -> v_lists v !! l = Some xs -> xs <> [] -> (first_of NULL xs =? NULL) = false.
Proof. intros Hs Hl Hne. eapply member_nonnull; [done|done|by apply first_of_elem]. Qed.
Lemma length_one_more (xs ys : list (Z * Z)) x : ys ≡ₚ x :: xs -> u32 (u32 (Z.of_nat (length xs)) + 1) = u32 (Z.of_nat (length ys)).
Proof. intros ->. cbn [length]. unfold u32. rewrite Zplus_mod_idemp_l. f_equal. lia. Qed.
Lemma length_one_less (xs ys : list (Z * Z)) x : xs ≡ₚ x :: ys -> u32 (u32 (Z.of_nat (length xs)) - 1) = u32 (Z.of_nat (length ys)).
Proof. intros ->. cbn [length]. unfold u32. rewrite Zminus_mod_idemp_l. f_equal. lia. Qed.

(** Inserting at the end. *)
Lemma insert_back_run h N L v l xs w m : repr (MkState h N L) v -> v_lists v !! l = Some xs -> 0 <= m -> v_room v = cost NODE_SIZE + m ->
  list_insert_back l w ~{ MkState h N L }~>! FFatal \/
  exists a h' N', list_insert_back l w ~{ MkState h N L }~> a; MkState h' N' (<[l := header (xs ++ [(a, w)])]> L) /\ 0 < a /\ v_blocks v !! a = None /\
    ha_ok h' (<[a := NODE_SIZE]> (v_blocks v)) /\ ha_room h' m /\ dseg N' NULL (xs ++ [(a, w)]) NULL /\ forall b, b ∉ xs.*1 -> b <> a -> N' !! b = N !! b.
Proof.
  intros Hs Hl Hm Hroom. unfold list_insert_back. pose proof (r_room _ _ Hs) as Hr. rewrite Hroom in Hr.
  destruct (node_alloc_run h N L _ m (r_heap _ _ Hs) Hm Hr) as [Herr|(a & h' & Hrun & Ha & Hnew & Hok & Hroom')]; [left; by apply bind_err|].
  right. rewrite (bind_ok _ _ _ _ _ Hrun). destruct (r_header _ _ Hs l xs Hl) as [Hh _]. destruct (r_nodes _ _ Hs l xs Hl) as [Hd Hnd].
  cbn [st_lists st_nodes st_heap] in *. rewrite (bind_ok _ _ _ _ _ (list_at_run _ _ _ l _ Hh)).
  assert (Hax : a ∉ xs.*1) by (intros Hin; destruct (r_own _ _ Hs l xs a Hl Hin); congruence).
  assert (Hlen := length_one_more xs (xs ++ [(a, w)]) (a, w) ltac:(by rewrite Permutation_app_comm)).
  erewrite (bind_ok (upd_node _ _)) by (apply upd_node_run, lookup_insert_eq). exists a, h'.
  destruct xs as [|[b wb] xs0 _] using rev_ind; unfold header in *; fields.
  - cbn [last_of first_of app]. change (negb (NULL =? NULL)) with false. change (NULL =? NULL) with true. cbn iota. rewrite bind_ret_l.
    erewrite (bind_ok (upd_node _ _)) by (apply upd_node_run, lookup_insert_eq). fields.
    erewrite (bind_ok (upd_list _ _)) by (apply upd_list_run; exact Hh).
    do 2 erewrite (bind_ok (upd_list _ _)) by (apply upd_list_run, lookup_insert_eq). fields. rewrite !insert_insert_eq, Hlen.
    eexists. split; [reflexivity|]. split_and!; try done; [by split; [apply lookup_insert_eq|]|]. intros c _ Hc. by rewrite !lookup_insert_ne.
  - rewrite (first_nonnull _ _ _ _ Hs Hl) by (by destruct xs0). rewrite !last_of_snoc in *. cbn [fst] in *.
    assert (Hin : b ∈ (xs0 ++ [(b, wb)]).*1) by (rewrite fmap_app; apply elem_of_app; right; by left).
    assert (Hab : a <> b) by congruence. rewrite (member_nonnull _ _ _ _ _ Hs Hl Hin). cbn [negb].
    pose proof Hd as Hd'. apply dseg_app in Hd' as [Hd0 [Hb _]]. cbn [fst snd first_of] in Hb, Hd0.
    erewrite (bind_ok (upd_node _ _)) by (apply upd_node_run; rewrite !lookup_insert_ne by done; exact Hb). fields.
    erewrite (bind_ok (upd_node _ _)) by (apply upd_node_run; rewrite lookup_insert_ne by done; apply lookup_insert_eq). fields.
    rewrite bind_ret_l. erewrite (bind_ok (upd_list _ _)) by (apply upd_list_run; exact Hh).
    erewrite (bind_ok (upd_list _ _)) by (apply upd_list_run, lookup_insert_eq). fields. rewrite !insert_insert_eq, Hlen.
    rewrite !first_of_app. cbn [first_of fst]. eexists. split; [reflexivity|]. split_and!; try done.
    + rewrite <- app_assoc. apply dseg_app. rewrite fmap_app in Hax, Hnd. split.
      * eapply dseg_frame; [|exact Hd0]. intros c Hc. apply NoDup_app in Hnd as (_ & Hcb & _).
        rewrite !lookup_insert_ne; [done|..]; try (intros <-); [apply Hax, elem_of_app; by left|..]; [by apply (Hcb b Hc); left|apply Hax, elem_of_app; by left].
      * cbn [app dseg first_of fst snd]. rewrite lookup_insert_ne by done. rewrite !lookup_insert_eq. done.
    + intros c Hc Hca. rewrite !lookup_insert_ne; try done. intros <-. by apply Hc.
Qed.
Lemma tri_insert_back v l xs w (Q : Z -> view -> Prop) : v_lists v !! l = Some xs -> cost NODE_SIZE <= v_room v ->
  (forall a, 0 < a -> v_blocks v !! a = None ->
     Q a (View (<[l := xs ++ [(a, w)]]> (v_lists v)) (<[a := NODE_SIZE]> (v_blocks v)) (v_room v - cost NODE_SIZE))) ->
  tri v (list_insert_back l w) Q.
Proof.
  intros Hl Hroom HQ [h N L] Hs. apply wp_of_run.
  destruct (insert_back_run h N L v l xs w (v_room v - cost NODE_SIZE) Hs Hl) as [Herr|(a & h' & N' & Hrun & Ha & Hnew & Hok & Hr & Hd & Hf)]; [lia|lia|by left|].
  right. eexists _, _. split; [exact Hrun|]. eexists. split; [|by apply HQ].
  eapply (repr_add h N L v l xs _ a w); try done. by rewrite Permutation_app_comm.
Qed.

(** Inserting at the front, which needs a node that is there. *)
Lemma insert_front_run h N L v l x xs w m : repr (MkState h N L) v -> v_lists v !! l = Some (x :: xs) -> 0 <= m -> v_room v = cost NODE_SIZE + m ->
  list_insert_front l w ~{ MkState h N L }~>! FFatal \/
  exists a h' N', list_insert_front l w ~{ MkState h N L }~> a; MkState h' N' (<[l := header ((a, w) :: x :: xs)]> L) /\ 0 < a /\ v_blocks v !! a = None /\
    ha_ok h' (<[a := NODE_SIZE]> (v_blocks v)) /\ ha_room h' m /\ dseg N' NULL ((a, w) :: x :: xs) NULL /\ forall b, b ∉ (x :: xs).*1 -> b <> a -> N' !! b = N !! b.
Proof.
  intros Hs Hl Hm Hroom. unfold list_insert_front. pose proof (r_room _ _ Hs) as Hr. rewrite Hroom in Hr.
  destruct (node_alloc_run h N L _ m (r_heap _ _ Hs) Hm Hr) as [Herr|(a & h' & Hrun & Ha & Hnew & Hok & Hroom')]; [left; by apply bind_err|].
  right. rewrite (bind_ok _ _ _ _ _ Hrun). destruct (r_header _ _ Hs l _ Hl) as [Hh _]. destruct (r_nodes _ _ Hs l _ Hl) as [[Hx Hd] Hnd].
  cbn [st_lists st_nodes st_heap] in *. rewrite (bind_ok _ _ _ _ _ (list_at_run _ _ _ l _ Hh)).
  assert (Hax : a ∉ (x :: xs).*1) by (intros Hin; destruct (r_own _ _ Hs l _ a Hl Hin); congruence).
  assert (Hlen := length_one_more (x :: xs) ((a, w) :: x :: xs) (a, w) ltac:(done)).
  assert (Hxn : (x.1 =? NULL) = false) by (apply (member_nonnull _ _ _ _ _ Hs Hl); by left).
  cbn [fmap list_fmap] in Hax, Hnd. apply not_elem_of_cons in Hax as [Hax Hax']. apply NoDup_cons in Hnd as [Hxx _].
  exists a, h'. unfold header in *. cbn [first_of] in *. fields.
  erewrite (bind_ok (upd_node _ _)) by (apply upd_node_run; rewrite lookup_insert_ne by done; exact Hx). fields.
  do 2 (erewrite (bind_ok (upd_node _ _)) by (apply upd_node_run; rewrite ?lookup_insert_ne by done; apply lookup_insert_eq); fields).
  rewrite Hxn, bind_ret_l. erewrite (bind_ok (upd_list _ _)) by (apply upd_list_run; exact Hh).
  erewrite (bind_ok (upd_list _ _)) by (apply upd_list_run, lookup_insert_eq). fields. rewrite !insert_insert_eq, Hlen.
  eexists. split; [reflexivity|]. split_and!; try done.
  - cbn [dseg first_of fst snd]. rewrite lookup_insert_eq. split; [done|]. rewrite !lookup_insert_ne by done. rewrite lookup_insert_eq.
    split; [done|]. eapply dseg_frame; [|exact Hd]. intros c Hc. rewrite !lookup_insert_ne; [done|..]; by intros <-.
  - intros c Hc Hca. cbn [fmap list_fmap] in Hc. apply not_elem_of_cons in Hc as [Hc _]. by rewrite !lookup_insert_ne.
Qed.
Lemma tri_insert_front v l x xs w (Q : Z -> view -> Prop) : v_lists v !! l = Some (x :: xs) -> cost NODE_SIZE <= v_room v ->
  (forall a, 0 < a -> v_blocks v !! a = None ->
     Q a (View (<[l := (a, w) :: x :: xs]> (v_lists v)) (<[a := NODE_SIZE]> (v_blocks v)) (v_room v - cost NODE_SIZE))) ->
  tri v (list_insert_front l w) Q.
Proof.
  intros Hl Hroom HQ [h N L] Hs. apply wp_of_run.
  destruct (insert_front_run h N L v l x xs w (v_room v - cost NODE_SIZE) Hs Hl) as [Herr|(a & h' & N' & Hrun & Ha & Hnew & Hok & Hr & Hd & Hf)]; [lia|lia|by left|].
  right. eexists _, _. split; [exact Hrun|]. eexists. split; [|by apply HQ]. by eapply (repr_add h N L v l (x :: xs) _ a w).
Qed.
End Rules.

(** *** Removing, from a list of at least two nodes *)
Section Removing.
Context {X : Type} `{HeapAllocator X}.
Abbreviation tri := (triple (repr (X := X))).
Implicit Types (v : view).

(** What a removal leaves behind. *)
Definition removed_run (h : X) N L v l (x : Z * Z) (ys : list (Z * Z)) (m : M (state X) Z) : Prop :=
  exists h' N', m ~{ MkState h N L }~> x.2; MkState h' N' (<[l := header ys]> L) /\ ha_ok h' (delete x.1 (v_blocks v)) /\
    ha_room h' (v_room v) /\ dseg N' NULL ys NULL /\ forall b, v_lists v !! l = None \/ (exists xs, v_lists v !! l = Some xs /\ b ∉ xs.*1) -> N' !! b = N !! b.
Lemma removed_tri v l xs x ys (m : M (state X) Z) (Q : Z -> view -> Prop) : v_lists v !! l = Some xs -> xs ≡ₚ x :: ys ->
  (forall h N L, repr (MkState h N L) v -> removed_run h N L v l x ys m) ->
  Q x.2 (View (<[l := ys]> (v_lists v)) (delete x.1 (v_blocks v)) (v_room v)) -> tri v m Q.
Proof.
  intros Hl Hp Hm HQ [h N L] Hs. apply wp_of_run. right. destruct (Hm h N L Hs) as (h' & N' & Hrun & Hok & Hr & Hd & Hf).
  eexists _, _. split; [exact Hrun|]. eexists. split; [|exact HQ]. destruct x as [a w]. eapply (repr_drop h N L v l xs ys a w); try done.
  intros b Hb. apply Hf. right. by exists xs.
Qed.

Lemma remove_front_run h N L v l x y xs : repr (MkState h N L) v -> v_lists v !! l = Some (x :: y :: xs) ->
  removed_run h N L v l x (y :: xs) (list_remove_front l).
Proof.
  intros Hs Hl. destruct (r_header _ _ Hs l _ Hl) as [Hh _]. destruct (r_nodes _ _ Hs l _ Hl) as [[Hx [Hy Hd]] Hnd].
  cbn [st_lists st_nodes st_heap fmap list_fmap] in *. apply NoDup_cons in Hnd as [Hxx Hnd]. apply NoDup_cons in Hnd as [Hyy _].
  apply not_elem_of_cons in Hxx as [Hxy Hxx].
  assert (Hxb : v_blocks v !! x.1 = Some NODE_SIZE) by (apply (r_own _ _ Hs l _ x.1 Hl); by left).
  unfold removed_run, list_remove_front. rewrite (bind_ok _ _ _ _ _ (list_at_run _ _ _ l _ Hh)).
  cbn [header head]. rewrite (first_nonnull _ _ _ _ Hs Hl) by done. cbn [first_of]. rewrite (bind_ok _ _ _ _ _ (node_at_run _ _ _ _ _ Hx)). cbn [first_of].
  erewrite (bind_ok (upd_list _ _)) by (apply upd_list_run; exact Hh). fields.
  rewrite (member_nonnull _ _ _ _ y.1 Hs Hl) by (right; by left). cbn [negb].
  erewrite (bind_ok (upd_node _ _)) by (apply upd_node_run; exact Hy). fields.
  match goal with |- context [MkState h ?N1 ?L1] => destruct (node_dealloc_run h N1 L1 _ x.1 _ (r_heap _ _ Hs) Hxb) as (h' & Hrun & Hok & Hroom) end.
  rewrite (bind_ok _ _ _ _ _ Hrun). erewrite (bind_ok (upd_list _ _)) by (apply upd_list_run, lookup_insert_eq). rewrite insert_insert_eq. fields.
  change (size (header ?l)) with (u32 (Z.of_nat (length l))). rewrite (length_one_less (x :: y :: xs) (y :: xs) x) by done.
  eexists h', _. split; [reflexivity|]. split; [done|]. split; [apply Hroom, Hs|]. split.
  - cbn [dseg]. rewrite lookup_delete_ne, lookup_insert_eq by done. split; [done|]. eapply dseg_frame; [|exact Hd].
    intros c Hc. rewrite lookup_delete_ne, lookup_insert_ne; [done|..]; intros <-; done.
  - intros b [?|(zs & Hz & Hb)]; [congruence|]. rewrite Hl in Hz. injection Hz as <-. cbn [fmap list_fmap] in Hb.
    apply not_elem_of_cons in Hb as [? Hb]. apply not_elem_of_cons in Hb as [? _]. by rewrite lookup_delete_ne, lookup_insert_ne.
Qed.

Lemma remove_back_run h N L v l xs y x : repr (MkState h N L) v -> v_lists v !! l = Some (xs ++ [y; x]) ->
  removed_run h N L v l x (xs ++ [y]) (list_remove_back l).
Proof.
  intros Hs Hl. destruct (r_header _ _ Hs l _ Hl) as [Hh _]. destruct (r_nodes _ _ Hs l _ Hl) as [Hd Hnd].
  cbn [st_lists st_nodes st_heap] in *. apply dseg_app in Hd as [Hd [Hy [Hx _]]]. cbn [first_of] in Hd, Hy, Hx.
  rewrite fmap_app in Hnd. apply NoDup_app in Hnd as (Hnd & Hcross & Hyx). cbn [fmap list_fmap] in *.
  assert (Hne : x.1 <> y.1) by (intros E; apply NoDup_cons in Hyx as [Hyx _]; apply Hyx; rewrite E; by left).
  assert (Hin : forall b, b = x.1 \/ b = y.1 -> b ∈ (xs ++ [y; x]).*1).
  { intros b Hb. rewrite fmap_app. apply elem_of_app. right. cbn. destruct Hb as [-> | ->]; [right|]; by left. }
  destruct (r_own _ _ Hs l _ x.1 Hl (Hin x.1 ltac:(by left))) as [Hxb _].
  assert (Hlast : last_of NULL (xs ++ [y; x]) = x.1) by (change [y; x] with ([y] ++ [x]); by rewrite app_assoc, last_of_snoc).
  unfold removed_run, list_remove_back. rewrite (bind_ok _ _ _ _ _ (list_at_run _ _ _ l _ Hh)).
  cbn [header head]. rewrite (first_nonnull _ _ _ _ Hs Hl) by (by destruct xs). cbn [header tail]. rewrite Hlast.
  rewrite (bind_ok _ _ _ _ _ (node_at_run _ _ _ _ _ Hx)).
  erewrite (bind_ok (upd_list _ _)) by (apply upd_list_run; exact Hh). fields.
  rewrite (member_nonnull _ _ _ _ y.1 Hs Hl) by (apply Hin; by right). cbn [negb].
  erewrite (bind_ok (upd_node _ _)) by (apply upd_node_run; exact Hy). fields.
  match goal with |- context [MkState h ?N1 ?L1] => destruct (node_dealloc_run h N1 L1 _ x.1 _ (r_heap _ _ Hs) Hxb) as (h' & Hrun & Hok & Hroom) end.
  rewrite (bind_ok _ _ _ _ _ Hrun). erewrite (bind_ok (upd_list _ _)) by (apply upd_list_run, lookup_insert_eq). rewrite insert_insert_eq. fields.
  change (size (header ?l)) with (u32 (Z.of_nat (length l))).
  rewrite (length_one_less (xs ++ [y; x]) (xs ++ [y]) x) by (replace (xs ++ [y; x]) with ((xs ++ [y]) ++ [x]) by (by rewrite <- app_assoc); by rewrite Permutation_app_comm).
  exists h', (delete x.1 (<[y.1 := MkNode y.2 (last_of NULL xs) NULL]> N)). split; [|split; [done|split; [apply Hroom, Hs|split]]].
  - unfold header. rewrite last_of_snoc, first_of_app, (first_of_app NULL xs [y]). done.
  - apply dseg_app. cbn [dseg first_of]. rewrite lookup_delete_ne, lookup_insert_eq by done. split; [|done]. eapply dseg_frame; [|exact Hd].
    intros c Hc. rewrite lookup_delete_ne, lookup_insert_ne; [done|..]; intros <-; apply (Hcross _ Hc); [by left|right; by left].
  - intros b [?|(zs & Hz & Hb)]; [congruence|]. rewrite Hl in Hz. injection Hz as <-.
    rewrite lookup_delete_ne, lookup_insert_ne; [done|..]; intros <-; apply Hb, Hin; [by right|by left].
Qed.
(** A node between two others. *)
Lemma mid_facts xs y x z zs : NoDup (xs ++ y :: x :: z :: zs).*1 ->
  x.1 <> y.1 /\ x.1 <> z.1 /\ y.1 <> z.1 /\ first_of NULL (xs ++ y :: x :: z :: zs) <> x.1 /\ last_of NULL (xs ++ y :: x :: z :: zs) <> x.1 /\
  (forall c, c ∈ xs.*1 -> c <> x.1 /\ c <> y.1 /\ c <> z.1) /\ (forall c, c ∈ zs.*1 -> c <> x.1 /\ c <> y.1 /\ c <> z.1).
Proof.
  intros Hnd. rewrite fmap_app in Hnd. cbn [fmap list_fmap] in Hnd. apply NoDup_app in Hnd as (_ & Hcross & Hnd).
  apply NoDup_cons in Hnd as [Hy Hnd]. apply NoDup_cons in Hnd as [Hx Hnd]. apply NoDup_cons in Hnd as [Hz _].
  rewrite !not_elem_of_cons in Hy. rewrite not_elem_of_cons in Hx. destruct Hy as (Hyx & Hyz & Hy), Hx as [Hxz Hx].
  assert (Hxs : forall c, c ∈ xs.*1 -> c <> x.1 /\ c <> y.1 /\ c <> z.1).
  { intros c Hc. specialize (Hcross c Hc). rewrite !not_elem_of_cons in Hcross. tauto. }
  assert (Hzs : forall c, c ∈ zs.*1 -> c <> x.1 /\ c <> y.1 /\ c <> z.1) by (intros c Hc; split_and!; congruence).
  split_and!; try done; try congruence.
  - rewrite first_of_app. cbn [first_of]. destruct (first_of_cases y.1 xs) as [-> |Hin]; [congruence|by apply Hxs].
  - rewrite last_of_app. cbn [last_of]. destruct (last_of_cases z.1 zs) as [-> |Hin]; [congruence|by apply Hzs].
Qed.
Lemma remove_mid_run h N L v l xs y x z zs : repr (MkState h N L) v -> v_lists v !! l = Some (xs ++ y :: x :: z :: zs) ->
  removed_run h N L v l x (xs ++ y :: z :: zs) (list_remove_node l x.1).
Proof.
  intros Hs Hl. destruct (r_header _ _ Hs l _ Hl) as [Hh _]. destruct (r_nodes _ _ Hs l _ Hl) as [Hd Hnd].
  destruct (mid_facts _ _ _ _ _ Hnd) as (Hxy & Hxz & Hyz & Hfirst & Hlast & Hxs & Hzs).
  cbn [st_lists st_nodes st_heap] in *. apply dseg_app in Hd as [Hd [Hy [Hx [Hz Hd']]]]. cbn [first_of] in Hd, Hy, Hx, Hz.
  assert (Hin : forall b, b = x.1 \/ b = y.1 \/ b = z.1 -> b ∈ (xs ++ y :: x :: z :: zs).*1).
  { intros b Hb. rewrite fmap_app. apply elem_of_app. right. cbn [fmap list_fmap]. rewrite !elem_of_cons. tauto. }
  destruct (r_own _ _ Hs l _ x.1 Hl (Hin x.1 ltac:(by left))) as [Hxb _].
  unfold removed_run, list_remove_node. rewrite (bind_ok _ _ _ _ _ (list_at_run _ _ _ l _ Hh)). cbn [header head tail].
  rewrite (proj2 (Z.eqb_neq _ _) Hfirst), (proj2 (Z.eqb_neq _ _) Hlast).
  rewrite (bind_ok _ _ _ _ _ (node_at_run _ _ _ _ _ Hx)). fields.
  erewrite (bind_ok (upd_node _ _)) by (apply upd_node_run; exact Hz). fields.
  erewrite (bind_ok (upd_node _ _)) by (apply upd_node_run; rewrite lookup_insert_ne by done; exact Hy). fields.
  erewrite (bind_ok (upd_list _ _)) by (apply upd_list_run; exact Hh). fields.
  match goal with |- context [MkState h ?N1 ?L1] => destruct (node_dealloc_run h N1 L1 _ x.1 _ (r_heap _ _ Hs) Hxb) as (h' & Hrun & Hok & Hroom) end.
  rewrite (bind_ok _ _ _ _ _ Hrun). change (size (header ?l)) with (u32 (Z.of_nat (length l))).
  rewrite (length_one_less _ (xs ++ y :: z :: zs) x) by solve_Permutation.
  eexists h', _. split; [|split; [done|split; [apply Hroom, Hs|split]]].
  - unfold header. rewrite !first_of_app, !last_of_app. reflexivity.
  - apply dseg_app. cbn [dseg first_of]. rewrite !lookup_delete_ne, lookup_insert_eq, lookup_insert_ne, lookup_insert_eq by done.
    split_and!; try done; (eapply dseg_frame; [|eassumption]); intros c Hc.
    + destruct (Hxs c Hc) as (? & ? & ?). rewrite lookup_delete_ne, !lookup_insert_ne; congruence.
    + destruct (Hzs c Hc) as (? & ? & ?). rewrite lookup_delete_ne, !lookup_insert_ne; congruence.
  - intros b [?|(us & Hu & Hb)]; [congruence|]. rewrite Hl in Hu. injection Hu as <-.
    rewrite lookup_delete_ne, !lookup_insert_ne; [done|..]; intros <-; apply Hb, Hin; tauto.
Qed.

(** Any node of a list of at least two. *)
Lemma remove_node_run h N L v l xs x ys : repr (MkState h N L) v -> v_lists v !! l = Some (xs ++ x :: ys) -> xs ++ ys <> [] ->
  removed_run h N L v l x (xs ++ ys) (list_remove_node l x.1).
Proof.
  intros Hs Hl Hne. destruct (r_header _ _ Hs l _ Hl) as [Hh _]. cbn [st_lists] in Hh.
  destruct (r_nodes _ _ Hs l _ Hl) as [_ Hnd]. rewrite fmap_app in Hnd. apply NoDup_app in Hnd as (_ & Hcross & _).
  destruct xs as [|y0 xs0].
  - destruct ys as [|y ys]; [done|]. cbn [app] in *. unfold removed_run, list_remove_node.
    rewrite (bind_ok _ _ _ _ _ (list_at_run _ _ _ l _ Hh)). cbn [header head first_of]. rewrite Z.eqb_refl. by apply remove_front_run.
  - assert (Hxf : (first_of NULL ((y0 :: xs0) ++ x :: ys) =? x.1) = false).
    { apply Z.eqb_neq. cbn. intros E. apply (Hcross y0.1); [by left|]. rewrite E. by left. }
    destruct ys as [|z ys].
    + rewrite app_nil_r in *. destruct (exists_last (l := y0 :: xs0) ltac:(done)) as (xs1 & y & Hxs). rewrite Hxs in *.
      rewrite <- app_assoc in Hl, Hh, Hxf. cbn [app] in Hl, Hh, Hxf. unfold removed_run, list_remove_node.
      rewrite (bind_ok _ _ _ _ _ (list_at_run _ _ _ l _ Hh)). cbn [header head tail]. rewrite Hxf.
      replace (xs1 ++ [y; x]) with ((xs1 ++ [y]) ++ [x]) by (by rewrite <- app_assoc). rewrite last_of_snoc, Z.eqb_refl. by apply remove_back_run.
    + destruct (exists_last (l := y0 :: xs0) ltac:(done)) as (xs1 & y & Hxs). rewrite Hxs in *. rewrite <- app_assoc in *. by apply remove_mid_run.
Qed.
End Removing.

(** *** Searching, and giving a list back *)
Section Walking.
Context {X : Type} `{HeapAllocator X}.
Abbreviation tri := (triple (repr (X := X))).
Implicit Types (v : view).

(** The first node whose value and number satisfy [p]. *)
Fixpoint search (p : Z -> Z -> bool) (xs : list (Z * Z)) (i : Z) : option (Z * Z) :=
  match xs with [] => None | x :: xs => if p x.2 i then Some (x.1, i) else search p xs (i + 1) end.

Lemma foreach_run h N L p xs : forall pv fuel i, dseg N pv xs NULL -> (forall a, a ∈ xs.*1 -> a <> NULL) -> (length xs < fuel)%nat ->
  foreach (X := X) fuel (fun n i => p (value n) i) (first_of NULL xs) i ~{ MkState h N L }~> search p xs i; MkState h N L.
Proof.
  induction xs as [|x xs IH]; intros pv fuel i Hd Hnn Hf; [by destruct fuel|]. destruct fuel as [|fuel]; [simpl in Hf; lia|].
  destruct Hd as [Hx Hd]. cbn [foreach first_of search]. rewrite (proj2 (Z.eqb_neq x.1 NULL)) by (apply Hnn; by left).
  rewrite (bind_ok _ _ _ _ _ (node_at_run _ _ _ _ _ Hx)). cbn [value next]. destruct (p x.2 i); [done|].
  apply (IH x.1); [done|intros a Ha; apply Hnn; by right|simpl in Hf; lia].
Qed.
Lemma fuel_enough h N L v l xs : repr (MkState (X := X) h N L) v -> v_lists v !! l = Some xs -> (length xs < Datatypes.S (map_size N))%nat.
Proof.
  intros Hs Hl. destruct (r_nodes _ _ Hs l xs Hl) as [Hd Hnd]. cbn [st_nodes] in Hd. apply le_n_S.
  rewrite <- (length_fmap fst xs). apply stored_length; [done|]. intros a Ha. by eapply dseg_stored.
Qed.
Lemma listnode_foreach_run h N L v l xs p : repr (MkState h N L) v -> v_lists v !! l = Some xs ->
  listnode_foreach (X := X) l (fun n i => p (value n) i) ~{ MkState h N L }~> search p xs 0; MkState h N L.
Proof.
  intros Hs Hl. destruct (r_header _ _ Hs l xs Hl) as [Hh _]. destruct (r_nodes _ _ Hs l xs Hl) as [Hd _]. unfold listnode_foreach.
  rewrite (bind_ok _ _ _ _ _ (list_at_run _ _ _ l _ Hh)). erewrite (bind_ok (gets _)) by reflexivity. cbn [header head st_nodes] in *.
  apply (foreach_run h N L p xs NULL); [done| |by eapply fuel_enough].
  intros a Ha. apply Z.eqb_neq. by eapply member_nonnull.
Qed.
Lemma tri_foreach v l xs p (Q : option (Z * Z) -> view -> Prop) : v_lists v !! l = Some xs -> Q (search p xs 0) v ->
  tri v (listnode_foreach l (fun n i => p (value n) i)) Q.
Proof. intros Hl HQ [h N L] Hs. apply wp_of_run. right. eexists _, _. split; [by eapply listnode_foreach_run|]. by exists v. Qed.
Lemma tri_list_at v l xs (Q : list_t -> view -> Prop) : v_lists v !! l = Some xs -> Q (header xs) v -> tri v (list_at l) Q.
Proof. intros Hl. apply triple_getsome. intros s Hs. by apply (r_header _ _ Hs). Qed.
Lemma tri_node_at v l xs i x (Q : listnode_t -> view -> Prop) : v_lists v !! l = Some xs -> xs !! i = Some x ->
  Q (MkNode x.2 (last_of NULL (take i xs)) (first_of NULL (drop (Datatypes.S i) xs))) v -> tri v (node_at x.1) Q.
Proof. intros Hl Hi. apply triple_getsome. intros s Hs. eapply dseg_nth; [by eapply r_nodes|done]. Qed.

(** All blocks of a list are freed. *)
Definition free_all {V} (l : list Z) (m : gmap Z V) : gmap Z V := foldl (fun m a => delete a m) m l.
Lemma free_all_lookup {V} l (m : gmap Z V) b : free_all l m !! b = if decide (b ∈ l) then None else m !! b.
Proof.
  revert m. induction l as [|a l IH]; intros m; cbn [free_all foldl]; [by rewrite decide_False by apply not_elem_of_nil|].
  fold (free_all l (delete a m)). rewrite IH, lookup_delete. repeat case_decide; try done; set_solver.
Qed.
Lemma destroy_nodes_run L xs : forall pv fuel h N al, dseg N pv xs NULL -> NoDup xs.*1 -> ha_ok h al ->
  (forall a, a ∈ xs.*1 -> al !! a = Some NODE_SIZE) -> (length xs < fuel)%nat ->
  exists h', destroy_nodes fuel (first_of NULL xs) ~{ MkState h N L }~> tt; MkState h' (free_all xs.*1 N) L /\
    ha_ok h' (free_all xs.*1 al) /\ forall m, ha_room h m -> ha_room h' m.
Proof.
  induction xs as [|x xs IH]; intros pv fuel h N al Hd Hnd Hok Hal Hf; [exists h; by destruct fuel|]. destruct fuel as [|fuel]; [simpl in Hf; lia|].
  destruct Hd as [Hx Hd]. cbn [fmap list_fmap] in *. apply NoDup_cons in Hnd as [Hxx Hnd]. assert (Hxb := Hal x.1 ltac:(by left)).
  pose proof (ha_positive _ _ _ _ Hok Hxb). cbn [destroy_nodes first_of]. rewrite (proj2 (Z.eqb_neq x.1 NULL)) by (unfold NULL; lia).
  rewrite (bind_ok _ _ _ _ _ (node_at_run _ _ _ _ _ Hx)). cbn [next].
  destruct (node_dealloc_run h N L al x.1 _ Hok Hxb) as (h1 & Hrun & Hok1 & Hr1). rewrite (bind_ok _ _ _ _ _ Hrun).
  assert (Hne : forall a, a ∈ xs.*1 -> x.1 <> a) by (intros a Ha <-; done).
  destruct (IH x.1 fuel h1 (delete x.1 N) (delete x.1 al)) as (h' & Hrun' & Hok' & Hr'); [|done|done| |simpl in Hf; lia|].
  - eapply dseg_frame; [|exact Hd]. intros a Ha. by rewrite lookup_delete_ne by auto.
  - intros a Ha. rewrite lookup_delete_ne by auto. apply Hal. by right.
  - exists h'. split; [exact Hrun'|]. split; [done|auto].
Qed.
Lemma tri_destroy v l xs (Q : unit -> view -> Prop) : v_lists v !! l = Some xs ->
  Q tt (View (delete l (v_lists v)) (free_all (xs.*1 ++ [l]) (v_blocks v)) (v_room v)) -> tri v (list_destroy l) Q.
Proof.
  intros Hl HQ [h N L] Hs. apply wp_of_run. right. pose proof (fuel_enough _ _ _ _ _ _ Hs Hl) as Hfuel. pose proof Hs as [R1 R2 R3 R4 R5 R6].
  cbn [st_lists st_nodes st_heap] in *. destruct (R1 l xs Hl) as [Hh Hlb]. destruct (R2 l xs Hl) as [Hd Hnd]. unfold list_destroy.
  rewrite (bind_ok _ _ _ _ _ (list_at_run _ _ _ l _ Hh)). erewrite (bind_ok (gets _)) by reflexivity. cbn [header head st_nodes].
  destruct (destroy_nodes_run L xs NULL (Datatypes.S (map_size N)) h N _ Hd Hnd R5) as (h1 & Hrun & Hok & Hr); [intros a Ha; by apply (R3 l xs)|done|].
  rewrite (bind_ok _ _ _ _ _ Hrun). assert (Hlx : l ∉ xs.*1) by (intros Hin; destruct (R3 l xs l Hl Hin); congruence).
  destruct (ha_free_law h1 _ l LIST_SIZE Hok) as (h2 & Hfree & Hok2 & Hr2); [by rewrite free_all_lookup, decide_False|].
  eexists tt, (MkState h2 (free_all xs.*1 N) (delete l L)). split; [unfold __list_dealloc, on_heap; by erewrite bind_ok by (unfold zoom; fields; rewrite Hfree; reflexivity)|].
  eexists. split; [|exact HQ].
  assert (Hother : forall k ys a, delete l (v_lists v) !! k = Some ys -> a = k \/ a ∈ ys.*1 ->
    k <> l /\ v_lists v !! k = Some ys /\ a ∉ xs.*1 /\ a <> l /\ free_all (xs.*1 ++ [l]) (v_blocks v) !! a = v_blocks v !! a).
  { intros k ys a. rewrite lookup_delete_Some. intros [Hkl Hk] Ha. assert (Hax : a ∉ xs.*1 /\ a <> l).
    { destruct Ha as [-> |Ha]; [split; [intros Hin; destruct (R3 l xs k Hl Hin); congruence|done]|].
      split; [intros Hin; by apply Hkl, (R4 l xs k ys a)|]. intros ->. destruct (R3 k ys l Hk Ha). congruence. }
    destruct Hax as [Hax Hal]. split; [done|]. split; [done|]. split; [done|]. split; [done|]. rewrite free_all_lookup, decide_False; [done|].
    rewrite elem_of_app, list_elem_of_singleton. tauto. }
  split; fields.
  - intros k ys Hk. destruct (Hother k ys k Hk ltac:(by left)) as (Hkl & Hk' & _ & _ & ->). rewrite lookup_delete_ne by done. by apply R1.
  - intros k ys Hk. destruct (Hother k ys k Hk ltac:(by left)) as (_ & Hk' & _). destruct (R2 k ys Hk'). split; [|done].
    eapply dseg_frame; [|done]. intros a Ha. destruct (Hother k ys a Hk ltac:(by right)) as (_ & _ & Hax & _). by rewrite free_all_lookup, decide_False.
  - intros k ys a Hk Ha. destruct (Hother k ys a Hk ltac:(by right)) as (_ & Hk' & _ & Hal & ->). rewrite lookup_delete_ne by done. by apply (R3 k ys).
  - intros k ys k' ys' a. rewrite !lookup_delete_Some. intros [_ Hk] [_ Hk']. by eapply R4.
  - unfold free_all. rewrite foldl_app. exact Hok2.
  - auto.
Qed.
End Walking.

(** *** Other users of the heap

    A block of somebody else comes or goes. *)
Section Others.
Context {X : Type} `{HeapAllocator X}.
Lemma repr_other_alloc h N L v a z h' m : repr (X := X) (MkState h N L) v -> v_blocks v !! a = None ->
  ha_ok h' (<[a := z]> (v_blocks v)) -> ha_room h' m -> repr (MkState h' N L) (View (v_lists v) (<[a := z]> (v_blocks v)) m).
Proof.
  intros [R1 R2 R3 R4 R5 R6] Ha Hok Hm. cbn [st_lists st_nodes st_heap] in *.
  assert (Hne : forall b y, v_blocks v !! b = Some y -> (<[a := z]> (v_blocks v)) !! b = Some y).
  { intros b y Hb. rewrite lookup_insert_ne; [done|]. intros ->. congruence. }
  split; fields; try done.
  - intros l xs Hl. destruct (R1 l xs Hl). auto.
  - intros l xs b Hl Hb. destruct (R3 l xs b Hl Hb). auto.
Qed.
Lemma repr_other_free h N L v a h' m : repr (X := X) (MkState h N L) v -> v_lists v !! a = None ->
  (forall l xs, v_lists v !! l = Some xs -> a ∉ xs.*1) ->
  ha_ok h' (delete a (v_blocks v)) -> ha_room h' m -> repr (MkState h' N L) (View (v_lists v) (delete a (v_blocks v)) m).
Proof.
  intros [R1 R2 R3 R4 R5 R6] Hl Hx Hok Hm. cbn [st_lists st_nodes st_heap] in *. split; fields; try done.
  - intros l xs E. destruct (R1 l xs E). split; [done|]. rewrite lookup_delete_ne; [done|]. intros ->. congruence.
  - intros l xs b E Hb. destruct (R3 l xs b E Hb). split; [|done]. rewrite lookup_delete_ne; [done|]. intros ->. by apply (Hx l xs).
Qed.
End Others.

(** ** Sessions

    What the operations do to the values of a list. [None]: the cases the code does
    not handle, a first node inserted at the front and the only node removed. *)
Inductive op : Type :=
| OPushBack (w : Z) | OPushFront (w : Z) | ORemoveFront | ORemoveBack | ORemoveIndex (i : nat)
| OIndexOf (w : Z) | OPeekFront | OPeekBack | OSize | OEmpty.
Definition index_of (w : Z) (ws : list Z) : Z := match list.list_find (fun u => w = u) ws with Some (j, _) => Z.of_nat j | None => -1 end.
Definition abs_op (o : op) (ws : list Z) : option (Z * list Z) :=
  match o with
  | OPushBack w => Some (0, ws ++ [w])
  | OPushFront w => match ws with [] => None | _ => Some (0, w :: ws) end
  | ORemoveFront => match ws with [] => Some (NULL, []) | [_] => None | w :: ws => Some (w, ws) end
  | ORemoveBack => match ws with [] => Some (NULL, []) | [_] => None | w :: ws => Some (List.last ws w, w :: removelast ws) end
  | ORemoveIndex i => match ws !! i with
                      | None => Some (NULL, ws)
                      | Some w => match ws with [_] => None | _ => Some (w, delete i ws) end
                      end
  | OIndexOf w => Some (index_of w ws, ws)
  | OPeekFront => Some (hd NULL ws, ws)
  | OPeekBack => Some (List.last ws NULL, ws)
  | OSize => Some (Z.of_nat (length ws), ws)
  | OEmpty => Some (match ws with [] => 1 | _ => 0 end, ws)
  end.
Fixpoint abs_run (os : list op) (ws : list Z) : option (list Z * list Z) :=
  match os with
  | [] => Some ([], ws)
  | o :: os => '(r, ws) ← abs_op o ws; '(rs, ws) ← abs_run os ws; Some (r :: rs, ws)
  end.

Section Sessions.
Context {X : Type} `{HeapAllocator X}.
Abbreviation tri := (triple (repr (X := X))).
Abbreviation cost := (ha_cost (X := X)).
Implicit Types (v : view).

Definition do_op (l : Z) (o : op) : M (state X) Z :=
  match o with
  | OPushBack w => list_push_back l w ;; mret 0
  | OPushFront w => list_push_front l w ;; mret 0
  | ORemoveFront => list_remove_front l
  | ORemoveBack => list_remove_back l
  | ORemoveIndex i => list_remove_by_index l (Z.of_nat i)
  | OIndexOf w => list_get_index_of_value l w
  | OPeekFront => list_peek_front l
  | OPeekBack => list_peek_back l
  | OSize => list_size l
  | OEmpty => list_empty l
  end.
Fixpoint session (l : Z) (os : list op) : M (state X) (list Z) :=
  match os with [] => mret [] | o :: os => r ← do_op l o; rs ← session l os; mret (r :: rs) end.

Lemma search_value w xs : forall i, search (fun u _ => u =? w) xs i = (fun y => (y.2.1, i + Z.of_nat y.1)) <$> list.list_find (fun x => w = x.2) xs.
Proof.
  induction xs as [|x xs IH]; intros i; [done|]. cbn [search list.list_find]. destruct (Z.eqb_spec x.2 w) as [E|E].
  - rewrite decide_True by done. cbn. by rewrite Z.add_0_r.
  - rewrite decide_False by done. rewrite IH. destruct (list.list_find _ xs) as [[j y]|]; [|done]. cbn. do 2 f_equal. lia.
Qed.
Lemma search_index n xs : forall i, 0 <= i -> i + Z.of_nat (length xs) < 4294967296 ->
  search (fun _ j => i + Z.of_nat n =? u32 j) xs i = (fun x => (x.1, i + Z.of_nat n)) <$> xs !! n.
Proof.
  revert n. induction xs as [|x xs IH]; intros n i Hi Hlen; [by rewrite lookup_nil|]. cbn [search length] in *. rewrite u32_small by lia.
  destruct n as [|n]; [rewrite Z.add_0_r, Z.eqb_refl; done|]. rewrite (proj2 (Z.eqb_neq _ _)) by lia. cbn [lookup list_lookup].
  replace (i + Z.of_nat (Datatypes.S n)) with (i + 1 + Z.of_nat n) by lia. rewrite IH by lia. done.
Qed.
Lemma index_of_fmap w (xs : list (Z * Z)) : index_of w xs.*2 = match list.list_find (fun x => w = x.2) xs with Some (j, _) => Z.of_nat j | None => -1 end.
Proof. unfold index_of. rewrite list_find_fmap. unfold compose. by destruct (list.list_find _ xs) as [[]|]. Qed.

(** After an operation on the list [l]. *)
Definition after_op v l (xs' : list (Z * Z)) (v' : view) : Prop :=
  v_lists v' = <[l := xs']> (v_lists v) /\ v_room v - cost NODE_SIZE <= v_room v'.
Lemma tri_remove_node v l xs x ys (Q : Z -> view -> Prop) : v_lists v !! l = Some (xs ++ x :: ys) -> xs ++ ys <> [] ->
  Q x.2 (View (<[l := xs ++ ys]> (v_lists v)) (delete x.1 (v_blocks v)) (v_room v)) -> tri v (list_remove_node l x.1) Q.
Proof. intros Hl Hne. eapply removed_tri; [exact Hl|by rewrite Permutation_middle|]. intros h N L Hs. by apply remove_node_run. Qed.

Lemma tri_remove_index v l xs i r ws' (Q : Z -> view -> Prop) : v_lists v !! l = Some xs -> Z.of_nat (length xs) < 4294967296 -> Z.of_nat i < 4294967296 ->
  abs_op (ORemoveIndex i) xs.*2 = Some (r, ws') ->
  (forall xs' b, xs'.*2 = ws' -> Q r (View (<[l := xs']> (v_lists v)) b (v_room v))) -> tri v (list_remove_by_index l (Z.of_nat i)) Q.
Proof.
  intros Hl Hlen Hi Habs HQ. unfold list_remove_by_index, list_get_node_by_index, list_size. cbn [abs_op] in Habs. rewrite list_lookup_fmap in Habs.
  assert (Hsame : View (<[l := xs]> (v_lists v)) (v_blocks v) (v_room v) = v) by (rewrite insert_id by done; by destruct v).
  apply triple_bind, triple_bind, triple_bind, (tri_list_at v l xs); [done|]. apply triple_ret. cbn [header size]. rewrite u32_small by lia.
  destruct (xs !! i) as [x|] eqn:Ex; cbn [fmap option_fmap option_map] in Habs.
  - pose proof (lookup_lt_Some _ _ _ Ex). rewrite (proj2 (Z.leb_gt _ _)) by lia. apply triple_bind, (tri_foreach v l xs (fun _ j => Z.of_nat i =? u32 j)); [done|].
    pose proof (search_index i xs 0 ltac:(lia) ltac:(lia)) as Hsearch. rewrite Z.add_0_l in Hsearch. rewrite Hsearch, Ex. cbn [fmap option_fmap option_map].
    apply triple_ret. pose proof (take_drop_middle _ _ _ Ex) as Hsplit.
    intros s Hs. rewrite (member_nonnull s v l xs x.1 Hs Hl) by (apply list_elem_of_fmap_2; by eapply list_elem_of_lookup_2). cbn [negb]. revert s Hs.
    fold (triple (repr (X := X)) v (list_remove_node l x.1) Q). rewrite <- Hsplit in Hl.
    assert (Hd : take i xs ++ drop (Datatypes.S i) xs = delete i xs) by (by rewrite delete_take_drop).
    apply (tri_remove_node v l (take i xs) x (drop (Datatypes.S i) xs)); [done| |].
    + rewrite Hd. intros E%(f_equal length). rewrite length_delete in E by (by eexists). destruct xs as [|x1 [|]]; [done|by simpl in Habs|by simpl in E].
    + assert (Some (x.2, delete i xs.*2) = Some (r, ws')) as [= <- <-] by (destruct xs as [|x1 [|]]; done).
      apply HQ. rewrite Hd. apply list_fmap_delete.
  - apply lookup_ge_None in Ex. rewrite (proj2 (Z.leb_le _ _)) by lia. apply triple_ret. change (negb (NULL =? NULL)) with false. cbn iota.
    apply triple_ret. injection Habs as <- <-. rewrite <- Hsame. by apply HQ.
Qed.

Lemma abs_remove_back xs x y r ws' : abs_op ORemoveBack (xs ++ [y; x] : list (Z * Z)).*2 = Some (r, ws') -> r = x.2 /\ ws' = (xs ++ [y]).*2.
Proof.
  intros Habs. rewrite fmap_app in *. cbn [fmap list_fmap] in *. destruct xs as [|x1 xs]; [by injection Habs as <- <-|].
  cbn [fmap list_fmap app abs_op] in Habs. change [y.2; x.2] with ([y.2] ++ [x.2]) in Habs. rewrite app_assoc in Habs.
  destruct ((xs.*2 ++ [y.2]) ++ [x.2]) eqn:E; [by destruct xs|]. rewrite <- E in Habs. rewrite last_last, removelast_last in Habs.
  by injection Habs as <- <-.
Qed.

Section Operation.
Context v l xs r ws' (Q : Z -> view -> Prop) (Hl : v_lists v !! l = Some xs)
  (Hsame : forall r', r = r' -> ws' = xs.*2 -> Q r' v)
  (Hnew : forall xs' b m, xs'.*2 = ws' -> v_room v - cost NODE_SIZE <= m -> Q r (View (<[l := xs']> (v_lists v)) b m)).

Lemma tri_op_push_front w : abs_op (OPushFront w) xs.*2 = Some (r, ws') -> cost NODE_SIZE <= v_room v -> tri v (do_op l (OPushFront w)) Q.
Proof.
  intros Habs Hroom. destruct xs as [|x ys]; [done|]. injection Habs as <- <-. cbn [do_op]. unfold list_push_front. apply triple_bind, triple_bind.
  apply (tri_insert_front v l x ys); [done|done|]. intros a Ha Hb. apply triple_ret, triple_ret, Hnew; [done|lia].
Qed.
Lemma tri_op_remove_front : abs_op ORemoveFront xs.*2 = Some (r, ws') -> tri v (list_remove_front l) Q.
Proof.
  intros Habs. pose proof (ha_cost_law (X := X) NODE_SIZE ltac:(done)). destruct xs as [|x [|y ys]]; [|done|]; injection Habs as <- <-.
  - unfold list_remove_front. apply triple_bind, (tri_list_at v l []); [done|]. by apply triple_ret, Hsame.
  - eapply removed_tri; [exact Hl|done|intros h N L Hs; by apply remove_front_run|]. apply Hnew; [done|lia].
Qed.
Lemma tri_op_remove_back : abs_op ORemoveBack xs.*2 = Some (r, ws') -> tri v (list_remove_back l) Q.
Proof.
  intros Habs. pose proof (ha_cost_law (X := X) NODE_SIZE ltac:(done)). destruct xs as [|x ys _] using rev_ind.
  { injection Habs as <- <-. unfold list_remove_back. apply triple_bind, (tri_list_at v l []); [done|]. by apply triple_ret, Hsame. }
  destruct ys as [|y ys _] using rev_ind; [done|]. rewrite <- app_assoc in *. cbn [app] in *. apply abs_remove_back in Habs as [-> ->].
  eapply removed_tri; [exact Hl| |intros h N L Hs; by apply remove_back_run|].
  - change [y; x] with ([y] ++ [x]). rewrite app_assoc. by rewrite Permutation_app_comm.
  - apply Hnew; [done|lia].
Qed.
Lemma tri_op_index_of w : Z.of_nat (length xs) < 2147483648 -> abs_op (OIndexOf w) xs.*2 = Some (r, ws') -> tri v (list_get_index_of_value l w) Q.
Proof.
  intros Hlen Habs. injection Habs as <- <-. unfold list_get_index_of_value. apply triple_bind, (tri_foreach v l xs (fun u _ => u =? w)); [done|].
  apply triple_ret. rewrite search_value. apply Hsame; [|done]. rewrite index_of_fmap. destruct (list.list_find _ xs) as [[j y]|] eqn:E; [|done].
  apply list_find_Some in E as (Hj & _). apply lookup_lt_Some in Hj. cbn. rewrite s32_small by lia. lia.
Qed.
Lemma tri_op_peek_front : abs_op OPeekFront xs.*2 = Some (r, ws') -> tri v (list_peek_front l) Q.
Proof.
  intros Habs. injection Habs as <- <-. unfold list_peek_front. apply triple_bind, (tri_list_at v l xs); [done|].
  destruct xs as [|x ys]; [by apply triple_ret, Hsame|].
  intros s Hs. cbn [header head]. rewrite (first_nonnull _ _ _ _ Hs Hl) by done. revert s Hs.
  fold (tri v (n ← node_at x.1; mret (value n)) Q). apply triple_bind, (tri_node_at v l (x :: ys) 0 x); [done|done|]. by apply triple_ret, Hsame.
Qed.
Lemma tri_op_peek_back : abs_op OPeekBack xs.*2 = Some (r, ws') -> tri v (list_peek_back l) Q.
Proof.
  intros Habs. injection Habs as <- <-. unfold list_peek_back. apply triple_bind, (tri_list_at v l xs); [done|].
  destruct xs as [|x ys _] using rev_ind; [by apply triple_ret, Hsame|]. intros s Hs. cbn [header tail]. rewrite last_of_snoc.
  rewrite (member_nonnull _ _ _ _ x.1 Hs Hl) by (rewrite fmap_app; apply elem_of_app; right; by left). revert s Hs.
  fold (tri v (n ← node_at x.1; mret (value n)) Q).
  apply triple_bind, (tri_node_at v l (ys ++ [x]) (length ys) x); [done|by rewrite list_lookup_middle|]. apply triple_ret, Hsame; [|done].
  rewrite fmap_app. cbn [fmap list_fmap value]. by rewrite last_last.
Qed.
End Operation.

Lemma tri_op v l xs o r ws' (Q : Z -> view -> Prop) : v_lists v !! l = Some xs -> Z.of_nat (length xs) < 2147483648 ->
  cost NODE_SIZE <= v_room v -> (forall i, o = ORemoveIndex i -> Z.of_nat i < 4294967296) -> abs_op o xs.*2 = Some (r, ws') ->
  (forall v' xs', xs'.*2 = ws' -> after_op v l xs' v' -> Q r v') -> tri v (do_op l o) Q.
Proof.
  intros Hl Hlen Hroom Hi Habs HQ. pose proof (ha_cost_law (X := X) NODE_SIZE ltac:(done)) as Hcost.
  assert (Hsame : forall r', r = r' -> ws' = xs.*2 -> Q r' v).
  { intros r' <- ->. apply (HQ v xs); [done|]. split; [by rewrite insert_id|lia]. }
  assert (Hnew : forall xs' b m, xs'.*2 = ws' -> v_room v - cost NODE_SIZE <= m -> Q r (View (<[l := xs']> (v_lists v)) b m)).
  { intros xs' b m Hw Hm. by apply (HQ _ xs'). }
  destruct o as [w|w| | |i|w| | | |]; cbn [do_op].
  - injection Habs as <- <-. unfold list_push_back. apply triple_bind, triple_bind. apply (tri_insert_back v l xs); [done|done|].
    intros a Ha Hb. apply triple_ret, triple_ret, Hnew; [by rewrite fmap_app|lia].
  - by eapply tri_op_push_front.
  - by eapply tri_op_remove_front.
  - by eapply tri_op_remove_back.
  - eapply (tri_remove_index v l xs i r ws'); try done; [lia|by apply Hi|]. intros xs' b Hw. apply Hnew; [done|lia].
  - by eapply tri_op_index_of.
  - by eapply tri_op_peek_front.
  - by eapply tri_op_peek_back.
  - injection Habs as <- <-. unfold list_size. apply triple_bind, (tri_list_at v l xs); [done|]. apply triple_ret, Hsame; [|done].
    cbn [header size]. rewrite length_fmap, u32_small by lia. done.
  - injection Habs as <- <-. unfold list_empty. apply triple_bind, (tri_list_at v l xs); [done|]. apply triple_ret, Hsame; [|done].
    cbn [header size]. rewrite u32_small by lia. by destruct xs.
Qed.

Lemma abs_op_length o ws r ws' : abs_op o ws = Some (r, ws') -> (length ws' <= Datatypes.S (length ws))%nat.
Proof.
  destruct o as [w|w| | |i|w| | | |]; cbn [abs_op]; intros Habs; try (injection Habs as <- <-; lia).
  - injection Habs as <- <-. rewrite length_app. cbn. lia.
  - destruct ws; [done|]. injection Habs as <- <-. cbn. lia.
  - destruct ws as [|? [|]]; [|done|]; injection Habs as <- <-; cbn; lia.
  - destruct ws as [|w [|w' ws]]; [by injection Habs as <- <-; cbn; lia|done|]. injection Habs as <- <-.
    cbn [length]. pose proof (app_removelast_last 0 (l := w' :: ws) ltac:(done)) as E%(f_equal length). rewrite length_app in E. cbn [length removelast] in E |- *. lia.
  - destruct (ws !! i) eqn:E; [|injection Habs as <- <-; lia]. assert (length (delete i ws) <= length ws)%nat by (rewrite length_delete by (by eexists); lia).
    destruct ws as [|? [|]]; [done|done|]. injection Habs as <- <-. lia.
Qed.

(** A session with any of the operations. *)
Lemma list_session_run st v l xs os rs ws : repr st v -> v_lists v !! l = Some xs -> abs_run os xs.*2 = Some (rs, ws) ->
  Z.of_nat (length xs + length os) < 2147483648 -> Z.of_nat (length os) * cost NODE_SIZE <= v_room v ->
  Forall (fun o => forall i, o = ORemoveIndex i -> Z.of_nat i < 4294967296) os ->
  session l os ~{ st }~>! FFatal \/
  exists st' v' xs', session l os ~{ st }~> rs; st' /\ repr st' v' /\ v_lists v' = <[l := xs']> (v_lists v) /\ xs'.*2 = ws.
Proof.
  intros Hs Hl Habs Hlen Hroom Hos.
  assert (Htri : tri v (session l os) (fun rs' v' => rs' = rs /\ exists xs', v_lists v' = <[l := xs']> (v_lists v) /\ xs'.*2 = ws)).
  { clear Hs. revert v xs rs Hl Habs Hlen Hroom Hos. induction os as [|o os IH]; intros v xs rs Hl Habs Hlen Hroom Hos.
    { injection Habs as <- <-. apply triple_ret. split; [done|]. exists xs. by rewrite insert_id. }
    cbn [abs_run mbind option_bind] in Habs. destruct (abs_op o xs.*2) as [[r ws1]|] eqn:Eo; [|done]. cbn in Habs.
    destruct (abs_run os ws1) as [[rs1 ws2]|] eqn:Es; cbn in Habs; [|done]. injection Habs as <- <-. apply Forall_cons in Hos as [Ho Hos].
    pose proof (ha_cost_law (X := X) NODE_SIZE ltac:(done)) as Hcost. cbn [length] in Hlen, Hroom.
    cbn [session]. apply triple_bind. eapply (tri_op v l xs o r ws1); [done|lia|nia|done|done|]. intros v1 xs1 Hxs1 [Hv1 Hr1].
    assert (Hl1 : v_lists v1 !! l = Some xs1) by (rewrite Hv1; apply lookup_insert_eq).
    pose proof (abs_op_length _ _ _ _ Eo) as Hlen1. rewrite <- Hxs1, !length_fmap in Hlen1.
    rewrite Nat2Z.inj_succ, Z.mul_succ_l in Hroom.
    apply triple_bind. eapply triple_mono; [apply (IH v1 xs1 rs1 Hl1); [by rewrite Hxs1|lia|lia|done]|].
    intros rs' v' [-> (xs' & Hv' & Hw)]. apply triple_ret. split; [done|]. exists xs'. split; [|done]. rewrite Hv', Hv1. apply insert_insert_eq. }
  destruct (triple_run _ _ _ _ st Htri Hs) as [?|(rs' & st' & v' & Hrun & Hs' & -> & xs' & Hv' & Hw)]; [by left|right]. by exists st', v', xs'.
Qed.

(** C27: a list on the heap does what the list of its values does: for each sequence of
    list_push_back, list_push_front, list_remove_front, list_remove_back,
    list_remove_by_index, list_get_index_of_value, list_peek_front, list_size and
    list_empty the results are those of the operations on the values, and the list
    stands for the values in the end, however its nodes were linked on the way; all
    other lists are as before. Left out, because the code goes wrong there, are a
    push at the front of an empty list ([first_at_front]) and the removal of the only
    node ([stale_tail], [stale_head]); and list_peek_back, whose doc comment promises
    the value of the first node. The heap has room for one node for each operation,
    and the sizes and indices stay in the range of their types. *)
Theorem heap_list_refines st v l xs os rs ws : repr st v -> v_lists v !! l = Some xs -> OPeekBack ∉ os -> abs_run os xs.*2 = Some (rs, ws) ->
  Z.of_nat (length xs + length os) < 2147483648 -> Z.of_nat (length os) * cost NODE_SIZE <= v_room v ->
  Forall (fun o => forall i, o = ORemoveIndex i -> Z.of_nat i < 4294967296) os ->
  session l os ~{ st }~>! FFatal \/
  exists st' v' xs', session l os ~{ st }~> rs; st' /\ repr st' v' /\ v_lists v' = <[l := xs']> (v_lists v) /\ xs'.*2 = ws.
Proof. intros Hs Hl _. by apply list_session_run. Qed.

(** What a list takes from the heap it gives back: creating a list, appending values
    and destroying it leaves all other lists and the blocks of the heap as they were. *)
Theorem heap_list_given_back st v ws : repr st v -> cost LIST_SIZE + Z.of_nat (length ws) * cost NODE_SIZE <= v_room v ->
  let prog := l ← list_create; session l (OPushBack <$> ws) ;; list_destroy l in
  prog ~{ st }~>! FFatal \/ exists st' r, prog ~{ st }~> tt; st' /\ repr st' (View (v_lists v) (v_blocks v) r).
Proof.
  intros Hs Hroom prog. pose proof (ha_cost_law (X := X) NODE_SIZE ltac:(done)) as Hcost.
  assert (Hpush : forall l ws v1 xs (Q : list Z -> view -> Prop), v_lists v1 = <[l := xs]> (v_lists v) -> v_blocks v !! l = None ->
    free_all (xs.*1 ++ [l]) (v_blocks v1) = v_blocks v -> Z.of_nat (length ws) * cost NODE_SIZE <= v_room v1 ->
    (forall rs v2 ys, v_lists v2 = <[l := ys]> (v_lists v) -> free_all (ys.*1 ++ [l]) (v_blocks v2) = v_blocks v -> Q rs v2) ->
    tri v1 (session l (OPushBack <$> ws)) Q).
  { clear -Hcost. intros l ws. induction ws as [|w ws IH]; intros v1 xs Q Hv1 Hl Hfree Hroom HQ; [apply triple_ret; by eapply HQ|].
    cbn [fmap list_fmap session do_op length] in *. rewrite Nat2Z.inj_succ, Z.mul_succ_l in Hroom. unfold list_push_back.
    do 3 apply triple_bind. apply (tri_insert_back v1 l xs); [by rewrite Hv1, lookup_insert_eq|lia|]. intros a Ha Hnew. do 2 apply triple_ret.
    apply triple_bind. eapply (IH _ (xs ++ [(a, w)])); [cbn [v_lists]; by rewrite Hv1, insert_insert_eq|done| |cbn [v_room]; lia|].
    - cbn [v_blocks]. apply map_eq. intros b. rewrite free_all_lookup, fmap_app. rewrite <- Hfree, free_all_lookup. cbn [fmap list_fmap fst].
      destruct (decide (b = a)) as [-> |Hne]; [rewrite decide_True by set_solver; by case_decide|].
      rewrite lookup_insert_ne by done. repeat case_decide; try done; set_solver.
    - intros rs v2 ys Hy Hf. apply triple_ret. by eapply HQ. }
  assert (Htri : tri v prog (fun _ v' => exists r, v' = View (v_lists v) (v_blocks v) r)).
  { apply triple_bind, tri_create; [lia|]. intros l Hl Hnew. apply triple_bind. eapply (Hpush l ws _ []); try done; [|cbn [v_room]; lia|].
    - cbn. by rewrite delete_insert_id.
    - intros rs v2 ys Hv2 Hfree. eapply (tri_destroy v2 l ys); [by rewrite Hv2, lookup_insert_eq|]. exists (v_room v2).
      rewrite Hfree, Hv2, delete_insert_eq, delete_id; [done|]. destruct (v_lists v !! l) eqn:E; [|done].
      destruct (r_header _ _ Hs l _ E). congruence. }
  destruct (triple_run _ _ _ _ st Htri Hs) as [?|(u & st' & v' & Hrun & Hs' & r & ->)]; [by left|right]. destruct u. by exists st', r.
Qed.
End Sessions.

(** ** A concrete heap *)
#[local] Existing Instances Kheap.unlimited_mapper Kheap.kernel_heap_allocator.
Abbreviation kernel_heap := (Kheap.heap (gset Z)).
Definition empty_state : state kernel_heap := MkState Kheap.heap0 ∅ ∅.
Definition empty_view : view := View ∅ ∅ 1000000.
Lemma empty_heap_repr : repr empty_state empty_view.
Proof. split; try done. exact Kheap.heap0_ok. Qed.
Definition L0 : Z := 3489660952.
Definition list_state : state kernel_heap := MkState (match Kheap.kmalloc 12 Kheap.heap0 with Ok (_, h) => h | Err _ => Kheap.heap0 end) ∅ {[L0 := header []]}.
Definition list_view : view := View {[L0 := []]} {[L0 := 12]} 1000000.
Lemma list_state_repr : repr list_state list_view.
Proof.
  assert (Hok : exists h', Kheap.kmalloc 12 ~{ Kheap.heap0 }~> L0; h' /\ ha_ok h' (<[L0 := 12]> (∅ : gmap Z Z))).
  { assert (Hok0 : ha_ok (Kheap.heap0 : kernel_heap) ∅) by exact Kheap.heap0_ok.
    destruct (ha_alloc_law Kheap.heap0 ∅ 12 0 Hok0 ltac:(lia) ltac:(lia) ltac:(vm_compute; congruence)) as [Hf|(p & h' & Hr & Hok & _)].
    - exfalso. vm_compute in Hf. congruence.
    - exists h'. assert (Hv : Kheap.result_of (ha_alloc 12 Kheap.heap0) = Some L0) by (vm_compute; reflexivity). rewrite Hr in Hv. injection Hv as ->. by split. }
  destruct Hok as (h' & Hr & Hok). unfold list_state. rewrite Hr. split; cbn [st_heap st_nodes st_lists v_lists v_blocks v_room list_view].
  - intros l xs [<- <-]%lookup_singleton_Some. by rewrite !lookup_singleton_eq.
  - intros l xs [<- <-]%lookup_singleton_Some. split; [done|constructor].
  - intros l xs a [<- <-]%lookup_singleton_Some []%elem_of_nil.
  - intros l xs k ys a [<- <-]%lookup_singleton_Some _ []%elem_of_nil.
  - exact Hok.
  - assert (Hroom : match Kheap.kmalloc 12 Kheap.heap0 with Ok (_, h) => Kheap.kernel_heap_top h + 1000000 <=? Kheap.vm_end h | Err _ => false end = true) by (vm_compute; reflexivity).
    rewrite Hr in Hroom. by apply Z.leb_le.
Qed.

Definition demo_ops : list op :=
  [OPushBack 10; OPushBack 20; OPushFront 5; OIndexOf 20; ORemoveIndex 1; OPeekFront; ORemoveBack; OSize; ORemoveIndex 4; OEmpty].
Lemma heap_list_refines_witness : exists st' v' xs', session L0 demo_ops ~{ list_state }~> [0; 0; 0; 2; 10; 5; 20; 1; 0; 0]; st' /\ repr st' v' /\
  v_lists v' = {[L0 := xs']} /\ xs'.*2 = [5].
Proof.
  destruct (heap_list_refines list_state list_view L0 [] demo_ops [0; 0; 0; 2; 10; 5; 20; 1; 0; 0] [5] list_state_repr) as [Hf|(st' & v' & xs' & Hrun & Hs' & Hv' & Hw)];
    [reflexivity|unfold demo_ops; rewrite !not_elem_of_cons; repeat split; try discriminate; apply not_elem_of_nil|reflexivity|cbn; lia|vm_compute; congruence|unfold demo_ops; repeat constructor; intros i [= <-]; lia|..].
  - exfalso. assert (Hv : Kheap.result_of (session L0 demo_ops list_state) = Some [0; 0; 0; 2; 10; 5; 20; 1; 0; 0]) by (vm_compute; reflexivity).
    rewrite Hf in Hv. discriminate Hv.
  - exists st', v', xs'. split; [exact Hrun|]. split; [exact Hs'|]. split; [|exact Hw]. rewrite Hv'. apply insert_singleton_eq.
Defined.
Lemma heap_list_given_back_witness : exists st' r,
  (l ← list_create; session l (OPushBack <$> [1; 2; 3]) ;; list_destroy l) ~{ empty_state }~> tt; st' /\ repr st' (View ∅ ∅ r).
Proof.
  destruct (heap_list_given_back empty_state empty_view [1; 2; 3] empty_heap_repr) as [Hf|(st' & r & Hrun & Hs')]; [vm_compute; congruence|..].
  - exfalso. assert (Hv : Kheap.result_of ((l ← list_create; session l (OPushBack <$> [1; 2; 3]) ;; list_destroy l) empty_state) = Some tt) by (vm_compute; reflexivity).
    rewrite Hf in Hv. discriminate Hv.
  - exists st', r. split; [exact Hrun|exact Hs'].
Defined.

(** ** Defects *)

(** The first node cannot be inserted at the front: the head is null. *)
Example first_at_front : list_push_front L0 7 list_state = Err (FPtr NULL).
Proof. vm_compute. reflexivity. Qed.
(** The removal of the only node leaves the tail, or the head, on the freed block. The
    next node gets the same block and becomes its own successor. *)
Example stale_tail : (list_push_back L0 7 ;; list_remove_front L0 ;; list_push_back L0 8 ;; list_find L0 9) list_state = Err FLoop.
Proof. vm_compute. reflexivity. Qed.
Example stale_head : (list_push_back L0 7 ;; list_remove_back L0 ;; list_peek_front L0) list_state = Err (FPtr 3489660980).
Proof. vm_compute. reflexivity. Qed.
(** Popping the only node leaves it as the head of an empty list. *)
Example pop_keeps_head : Kheap.result_of ((list_push_back L0 7 ;; list_pop_back L0 ;; e ← list_empty L0; w ← list_peek_front L0; mret (e, w)) list_state) = Some (1, 7).
Proof. vm_compute. reflexivity. Qed.
(** Merging does not link the second list back to the first. *)
Example merge_not_linked_back :
  Kheap.result_of ((l ← list_create; list_push_back L0 7 ;; list_push_back l 8 ;; list_merge L0 l ;; r ← list_remove_back L0; k ← list_size L0; w ← list_peek_back L0; mret (r, k, w)) list_state) =
  Some (8, 1, NULL).
Proof. vm_compute. reflexivity. Qed.
End HeapList.
