(* ===== verification/Hashmap.v ===== *)
(** * Hash maps on the kernel heap (src/kernel/lib/hashmap.c)

    A table of chains of entries, on top of the heap of the lists (HeapList.v), with
    keys that are pointers into a memory of bytes. *)

From stdpp Require Import strings.
From S2P Require Import Prelude Bytes Hoare Interfaces CString Kheap HeapList.

Module Hashmap.
Open Scope Z_scope.
Abbreviation mem := (gmap Z Z).

(** ** Data *)
Record hashmap_entry_t := MkEntry { key : Z; value : Z; next : Z }.
#[export] Instance eta_entry : Eta hashmap_entry_t := {| eta := fun e => MkEntry (key e) (value e) (next e) |}.
(** The functions of a map read the memory of the keys; [entries] is the address of
    the table. *)
Record hashmap_t := MkMap {
  hash_func : Z -> M mem Z;
  hash_comp : Z -> Z -> M mem Z;
  hash_key_dup : Z -> M mem Z;
  hash_key_free : Z -> M mem unit;
  msize : Z;
  entries : Z
}.
#[export] Instance eta_map : Eta hashmap_t := {| eta := fun m => MkMap (hash_func m) (hash_comp m) (hash_key_dup m) (hash_key_free m) (msize m) (entries m) |}.
Definition ENTRY_SIZE : Z := 12.
Definition MAP_SIZE : Z := 24.

Record state (X : Type) := MkState {
  st_hl : HeapList.state X;
  st_entries : gmap Z hashmap_entry_t;
  st_tables : gmap Z (list Z);
  st_maps : gmap Z hashmap_t;
  st_mem : mem
}.
#[global] Arguments MkState {X} _ _ _ _ _.
#[global] Arguments st_hl {X} _.
#[global] Arguments st_entries {X} _.
#[global] Arguments st_tables {X} _.
#[global] Arguments st_maps {X} _.
#[global] Arguments st_mem {X} _.
#[export] Instance eta_state X : Eta (state X) := {| eta := fun s => MkState (st_hl s) (st_entries s) (st_tables s) (st_maps s) (st_mem s) |}.

(** ** Functions for keys *)
Definition hashmap_int_hash (k : Z) : M mem Z := mret k.
Definition hashmap_int_comp (a b : Z) : M mem Z := mret (bool_int (s32 a =? s32 b)).
Section Strings.
Variable fuel : nat.
(** The shifts and the sum wrap; a char is signed. *)
Fixpoint str_hash_loop (n : nat) (p hash : Z) : M mem Z :=
  match n with
  | O => fail FLoop
  | S n => c ← CString.ldb p;
           if c =? 0 then mret hash
           else str_hash_loop n (p + 1) (u32 (s8 c + u32 (Z.shiftl hash 6) + u32 (Z.shiftl hash 16) - hash))
  end.
Definition hashmap_str_hash (p : Z) : M mem Z := str_hash_loop fuel p 0.
Definition hashmap_str_comp (a b : Z) : M mem Z := c ← CString.strcmp fuel a b; mret (bool_int (c =? 0)).
End Strings.
Definition hashmap_do_not_duplicate (v : Z) : M mem Z := mret v.
Definition hashmap_do_not_free (v : Z) : M mem unit := mret tt.

(** ** Operations *)
Section Operations.
Context {X : Type} `{HeapAllocator X}.
Abbreviation E := (M (state X)).

Definition on_lists {A} (m : M (HeapList.state X) A) : E A := zoom st_hl (fun l s => s <| st_hl := l |>) m.
Definition on_heap {A} (m : M X A) : E A := on_lists (HeapList.on_heap m).
Definition on_mem {A} (m : M mem A) : E A := zoom st_mem (fun x s => s <| st_mem := x |>) m.
Definition entry_at (a : Z) : E hashmap_entry_t := getsome (FPtr a) (fun s => st_entries s !! a).
Definition upd_entry (a : Z) (g : hashmap_entry_t -> hashmap_entry_t) : E unit :=
  e ← entry_at a; modify (fun s => s <| st_entries := <[a := g e]> (st_entries s) |>).
Definition map_at (m : Z) : E hashmap_t := getsome (FPtr m) (fun s => st_maps s !! m).
Definition upd_map (m : Z) (g : hashmap_t -> hashmap_t) : E unit :=
  x ← map_at m; modify (fun s => s <| st_maps := <[m := g x]> (st_maps s) |>).
Definition table_at (t : Z) : E (list Z) := getsome (FPtr t) (fun s => st_tables s !! t).
(** [map->entries[i]]. *)
Definition slot_at (t i : Z) : E Z := l ← table_at t; of_option (FBound i) (zlookup l i).
Definition set_slot (t i v : Z) : E unit :=
  l ← table_at t;
  match zlookup l i with Some _ => modify (fun s => s <| st_tables := <[t := zinsert l i v]> (st_tables s) |>) | None => fail (FBound i) end.

(** The results of kmalloc are not checked: memset goes through a null pointer. *)
Definition __alloc_hashmap : E Z :=
  a ← on_heap (ha_alloc MAP_SIZE);
  if a =? NULL then fail (FPtr NULL)
  else modify (fun s => s <| st_maps := <[a := MkMap (fun _ => fail (FPtr NULL)) (fun _ _ => fail (FPtr NULL)) (fun _ => fail (FPtr NULL)) (fun _ => fail (FPtr NULL)) 0 NULL]> (st_maps s) |>) ;;
       mret a.
Definition __alloc_entry : E Z :=
  a ← on_heap (ha_alloc ENTRY_SIZE);
  if a =? NULL then fail (FPtr NULL)
  else modify (fun s => s <| st_entries := <[a := MkEntry NULL NULL NULL]> (st_entries s) |>) ;; mret a.
Definition __dealloc_entry (a : Z) : E unit :=
  on_heap (ha_free a) ;; modify (fun s => s <| st_entries := delete a (st_entries s) |>).
Definition __alloc_entries (n : Z) : E Z :=
  a ← on_heap (ha_alloc (u32 (4 * n)));
  if a =? NULL then fail (FPtr NULL)
  else modify (fun s => s <| st_tables := <[a := replicate (Z.to_nat (u32 (4 * n) / 4)) NULL]> (st_tables s) |>) ;; mret a.
Definition __dealloc_entries (a : Z) : E unit :=
  on_heap (ha_free a) ;; modify (fun s => s <| st_tables := delete a (st_tables s) |>).

Definition hashmap_create (n : Z) (hash : Z -> M mem Z) (comp : Z -> Z -> M mem Z) (dup : Z -> M mem Z) (free : Z -> M mem unit) : E Z :=
  m ← __alloc_hashmap;
  upd_map m (fun x => x <| msize := n |>) ;;
  t ← __alloc_entries n;
  upd_map m (fun x => x <| entries := t |>) ;;
  upd_map m (fun x => x <| hash_func := hash |>) ;;
  upd_map m (fun x => x <| hash_comp := comp |>) ;;
  upd_map m (fun x => x <| hash_key_dup := dup |>) ;;
  upd_map m (fun x => x <| hash_key_free := free |>) ;;
  mret m.

(** [map->hash_func(key) % map->size]. *)
Definition bucket_of (x : hashmap_t) (k : Z) : E Z :=
  h ← on_mem (hash_func x k); if msize x =? 0 then fail FDiv0 else mret (h mod msize x).

(** More rounds than there are entries are a cycle. *)
Definition rounds : E nat := gets (fun s => Datatypes.S (map_size (st_entries s))).

(** A new entry behind [p], or at the head of a bucket. *)
Definition new_entry (x : hashmap_t) (k v : Z) (link : Z -> E unit) : E Z :=
  e ← __alloc_entry;
  d ← on_mem (hash_key_dup x k);
  upd_entry e (fun y => y <| key := d |>) ;;
  upd_entry e (fun y => y <| value := v |>) ;;
  upd_entry e (fun y => y <| next := NULL |>) ;;
  link e ;;
  mret NULL.
Fixpoint set_loop (n : nat) (x : hashmap_t) (k v a : Z) : E Z :=
  match n with
  | O => fail FLoop
  | S n =>
      y ← entry_at a;
      c ← on_mem (hash_comp x (key y) k);
      if negb (c =? 0) then upd_entry a (fun y => y <| value := v |>) ;; mret (value y)
      else if next y =? NULL then new_entry x k v (fun e => upd_entry a (fun y => y <| next := e |>))
      else set_loop n x k v (next y)
  end.
Definition hashmap_set (m k v : Z) : E Z :=
  x ← map_at m;
  h ← bucket_of x k;
  a ← slot_at (entries x) h;
  if a =? NULL then new_entry x k v (fun e => set_slot (entries x) h e)
  else n ← rounds; set_loop n x k v a.

(** The value of the first entry of the chain with the key. *)
Fixpoint get_loop (n : nat) (x : hashmap_t) (k a : Z) : E (option Z) :=
  if a =? NULL then mret None
  else match n with
  | O => fail FLoop
  | S n => y ← entry_at a;
           c ← on_mem (hash_comp x (key y) k);
           if negb (c =? 0) then mret (Some (value y)) else get_loop n x k (next y)
  end.
Definition find_value (m k : Z) : E (option Z) :=
  x ← map_at m; h ← bucket_of x k; a ← slot_at (entries x) h; n ← rounds; get_loop n x k a.
Definition hashmap_get (m k : Z) : E Z := o ← find_value m k; mret (match o with Some v => v | None => NULL end).
Definition hashmap_has (m k : Z) : E Z := o ← find_value m k; mret (match o with Some _ => 1 | None => 0 end).

(** The entry [a] with the value [y] is taken out of its chain by [unlink]. *)
Definition drop_entry (x : hashmap_t) (a : Z) (y : hashmap_entry_t) (unlink : E unit) : E Z :=
  unlink ;; on_mem (hash_key_free x (key y)) ;; __dealloc_entry a ;; mret (value y).
(** do { ... } while (x): the entry [a] is read before it is compared with null. *)
Fixpoint remove_loop (n : nat) (x : hashmap_t) (k p a : Z) : E Z :=
  match n with
  | O => fail FLoop
  | S n =>
      y ← entry_at a;
      c ← on_mem (hash_comp x (key y) k);
      if negb (c =? 0) then drop_entry x a y (upd_entry p (fun z => z <| next := next y |>))
      else if next y =? NULL then mret NULL
      else remove_loop n x k a (next y)
  end.
Definition hashmap_remove (m k : Z) : E Z :=
  x ← map_at m;
  h ← bucket_of x k;
  a ← slot_at (entries x) h;
  if a =? NULL then mret NULL
  else
    y ← entry_at a;
    c ← on_mem (hash_comp x (key y) k);
    if negb (c =? 0) then drop_entry x a y (set_slot (entries x) h (next y))
    else n ← rounds; remove_loop n x k a (next y).

Fixpoint is_empty_loop (n : nat) (x : hashmap_t) (i : Z) : E Z :=
  match n with O => mret 1 | S n => a ← slot_at (entries x) i; if negb (a =? NULL) then mret 0 else is_empty_loop n x (i + 1) end.
Definition hashmap_is_empty (m : Z) : E Z := x ← map_at m; is_empty_loop (Z.to_nat (msize x)) x 0.

(** [for (x = map->entries[i]; x; x = x->next) body]; the body may free the entry. *)
Fixpoint chain_loop (n : nat) (body : Z -> hashmap_entry_t -> E unit) (a : Z) : E unit :=
  if a =? NULL then mret tt
  else match n with O => fail FLoop | S n => y ← entry_at a; body a y ;; chain_loop n body (next y) end.
Definition all_entries (m : Z) (body : Z -> hashmap_entry_t -> E unit) : E unit :=
  x ← map_at m; n ← rounds;
  for_range (Z.to_nat (msize x)) 0 (fun i => a ← slot_at (entries x) i; chain_loop n body a).
Definition hashmap_keys (m : Z) : E Z :=
  l ← on_lists HeapList.list_create;
  all_entries m (fun _ y => on_lists (HeapList.list_insert_back l (key y)) ;; mret tt) ;;
  mret l.
Definition hashmap_values (m : Z) : E Z :=
  l ← on_lists HeapList.list_create;
  all_entries m (fun _ y => on_lists (HeapList.list_insert_back l (value y)) ;; mret tt) ;;
  mret l.
(** The structure of the map itself is not freed. *)
Definition hashmap_free (m : Z) : E unit :=
  x ← map_at m;
  all_entries m (fun a y => on_mem (hash_key_free x (key y)) ;; __dealloc_entry a) ;;
  __dealloc_entries (entries x).
End Operations.

(** ** Keys

    What a kind of keys promises to the map: [hk_is m p k], the pointer [p] stands for
    the key [k]; hashing gives a word that depends on the key only, and comparing
    tells equal keys. *)
Class HashKeys (K : Type) `{Countable K} := {
  hk_hash_func : Z -> M mem Z;
  hk_comp : Z -> Z -> M mem Z;
  hk_is : mem -> Z -> K -> Prop;
  hk_hash : K -> Z;
  hk_hash_range : forall k, 0 <= hk_hash k;
  hk_hash_law : forall m p k, hk_is m p k -> hk_hash_func p ~{ m }~> hk_hash k; m;
  hk_comp_law : forall m p k q k', hk_is m p k -> hk_is m q k' -> hk_comp p q ~{ m }~> bool_int (bool_decide (k = k')); m
}.

(** Pointers that are numbers. *)
#[export] Instance int_keys : HashKeys Z.
Proof.
  refine {| hk_hash_func := hashmap_int_hash; hk_comp := hashmap_int_comp; hk_is := fun _ p k => p = k /\ is_u32 k; hk_hash := fun k => Z.abs k |}.
  - abstract lia.
  - abstract (intros m p k [-> Hk]; unfold hashmap_int_hash, is_u32 in *; by rewrite Z.abs_eq by lia).
  - abstract (intros m p k q k' [-> Hk] [-> Hk']; unfold hashmap_int_comp; destruct (Z.eqb_spec (s32 k) (s32 k')) as [E|E];
      [rewrite bool_decide_true; [done|wraplia]|rewrite bool_decide_false; [done|congruence]]).
Defined.

(** Strings of fewer than [n] characters, with the sdbm hash. *)
Fixpoint sdbm (hash : Z) (s : list Z) : Z :=
  match s with [] => hash | c :: s => sdbm (u32 (s8 c + u32 (Z.shiftl hash 6) + u32 (Z.shiftl hash 16) - hash)) s end.
Lemma str_hash_loop_run s : forall n m p h, CString.cstr m p s -> (length s < n)%nat -> str_hash_loop n p h ~{ m }~> sdbm h s; m.
Proof.
  induction s as [|c s IH]; intros [|n] m p h [Hp Hc] Hn; try (cbn in Hn; lia); cbn [app] in Hp; apply CString.holds_cons in Hp as [H1 H2];
    cbn [str_hash_loop]; rewrite (bind_ok _ _ _ _ _ (CString.ldb_run _ _ _ H1)).
  - done.
  - apply Forall_cons in Hc as [Hc Hs]. rewrite (proj2 (Z.eqb_neq c 0)) by lia. apply IH; [done|cbn in Hn; lia].
Qed.
Lemma sdbm_range s : forall h, 0 <= h -> 0 <= sdbm h s.
Proof. induction s as [|c s IH]; intros h Hh; [done|]. apply IH, u32_range. Qed.
Lemma str_comp_run n m p a q b : CString.cstr m p a -> CString.cstr m q b -> (length a < n)%nat ->
  hashmap_str_comp n p q ~{ m }~> bool_int (bool_decide (a = b)); m.
Proof.
  intros Ha Hb Hn. unfold hashmap_str_comp, CString.strcmp. rewrite bind_assoc.
  rewrite (bind_ok _ _ _ _ _ (CString.strcmp_loop_run a n m p q b Ha Hb Hn)), bind_ret_l. set (d := CString.diff_by s8 _ _).
  assert (Hd : d = 0 <-> a = b).
  { rewrite <- (CString.diff_strings a b) by (apply Ha || apply Hb). apply CString.diff_by_zero. intros x y Hx Hy.
    pose proof (CString.cstr_bytes _ _ _ Ha) as Ba. pose proof (CString.cstr_bytes _ _ _ Hb) as Bb. unfold CString.bytes in *.
    rewrite Forall_forall in Ba, Bb. apply CString.s8_inj; auto. }
  unfold mret, M_ret. do 2 f_equal. destruct (Z.ltb_spec d 0), (Z.ltb_spec 0 d); try lia; case_bool_decide; try done; exfalso.
  - assert (d = 0) by tauto. lia.
  - assert (d = 0) by tauto. lia.
  - assert (d = 0) by lia. tauto.
Qed.
Definition str_keys (n : nat) : HashKeys (list Z).
Proof.
  refine {| hk_hash_func := hashmap_str_hash n; hk_comp := hashmap_str_comp n; hk_is := fun m p s => CString.cstr m p s /\ (length s < n)%nat; hk_hash := sdbm 0 |}.
  - abstract (intros s; by apply sdbm_range).
  - abstract (intros m p s [Hp Hn]; by apply str_hash_loop_run).
  - abstract (intros m p a q b [Ha Hn] [Hb _]; by apply str_comp_run).
Defined.

(** ** What the proofs see of a map

    The buckets, each the list of its entries with address, pointer to the key, key
    and value; and the lists and the heap. *)
Record ent (K : Type) := Ent { e_addr : Z; e_ptr : Z; e_key : K; e_val : Z }.
#[global] Arguments Ent {K} _ _ _ _.
#[global] Arguments e_addr {K} _.
#[global] Arguments e_ptr {K} _.
#[global] Arguments e_key {K} _.
#[global] Arguments e_val {K} _.
Definition first_entry {K} (b : list (ent K)) : Z := match b with [] => NULL | x :: _ => e_addr x end.
Fixpoint chain {K} (N : gmap Z hashmap_entry_t) (b : list (ent K)) : Prop :=
  match b with [] => True | x :: b => N !! e_addr x = Some (MkEntry (e_ptr x) (e_val x) (first_entry b)) /\ chain N b end.
Lemma chain_frame {K} N N' (b : list (ent K)) : (forall a, a ∈ e_addr <$> b -> N' !! a = N !! a) -> chain N b -> chain N' b.
Proof.
  induction b as [|x b IH]; intros HN; [done|]. intros [Hx Hb]. split; [rewrite HN by (by left); exact Hx|].
  apply IH; [|done]. intros a Ha. apply HN. by right.
Qed.
Lemma chain_app {K} N (b1 : list (ent K)) x b2 : chain N (b1 ++ x :: b2) -> N !! e_addr x = Some (MkEntry (e_ptr x) (e_val x) (first_entry b2)) /\ chain N b2.
Proof. induction b1 as [|y b1 IH]; [done|]. intros [_ Hb]. by apply IH. Qed.
Lemma chain_stored {K} N (b : list (ent K)) a : chain N b -> a ∈ e_addr <$> b -> is_Some (N !! a).
Proof. induction b as [|x b IH]; [by intros _ ?%elem_of_nil|]. intros [Hx Hb] [-> |Ha]%elem_of_cons; [by eexists|by apply IH]. Qed.

(** The value of a key in a bucket, and in the map: the key is in its bucket. *)
Definition in_bucket {K} `{EqDecision K} (k : K) (b : list (ent K)) : option Z := e_val <$> List.find (fun x => bool_decide (e_key x = k)) b.
Section Content.
Context {K : Type} `{HashKeys K}.
Definition place (n : Z) (k : K) : nat := Z.to_nat (hk_hash k mod n).
Definition content (bs : list (list (ent K))) : gmap K Z := list_to_map ((fun x => (e_key x, e_val x)) <$> concat bs).
Record placed (bs : list (list (ent K))) : Prop := {
  p_size : 0 < zlen bs < 1073741824;
  p_place : forall i b x, bs !! i = Some b -> x ∈ b -> place (zlen bs) (e_key x) = i;
  p_keys : forall i b, bs !! i = Some b -> NoDup (e_key <$> b)
}.
Lemma concat_keys n (bs : list (list (ent K))) : forall j, (forall i b x, bs !! i = Some b -> x ∈ b -> place n (e_key x) = (j + i)%nat) ->
  (forall i b, bs !! i = Some b -> NoDup (e_key <$> b)) -> NoDup (e_key <$> concat bs).
Proof.
  induction bs as [|b bs IH]; intros j Hp Hk; [constructor|]. cbn [concat]. rewrite fmap_app. apply NoDup_app. split; [by apply (Hk 0%nat)|]. split.
  - intros k [x [-> Hx]]%list_elem_of_fmap [y [Hy Hin]]%list_elem_of_fmap. apply list_elem_of_In, in_concat in Hin as (b' & Hb' & Hy').
    apply list_elem_of_In in Hb', Hy'. apply list_elem_of_lookup in Hb' as [i Hi].
    pose proof (Hp 0%nat b x eq_refl Hx). pose proof (Hp (Datatypes.S i) b' y Hi Hy'). rewrite Hy in *. lia.
  - apply (IH (Datatypes.S j)); [|intros i; apply (Hk (Datatypes.S i))]. intros i b' x Hi Hx. rewrite (Hp (Datatypes.S i) b' x Hi Hx). lia.
Qed.
Lemma in_bucket_spec k (b : list (ent K)) v : NoDup (e_key <$> b) -> in_bucket k b = Some v <-> exists x, x ∈ b /\ e_key x = k /\ e_val x = v.
Proof.
  unfold in_bucket. induction b as [|y b IH]; intros Hnd; cbn [List.find fmap list_fmap] in *.
  { split; [done|]. intros (x & []%elem_of_nil & _). }
  apply NoDup_cons in Hnd as [Hy Hnd]. case_bool_decide as E.
  - split; [intros [= <-]; exists y; split; [by left|done]|]. intros (x & [-> |Hx]%elem_of_cons & Hk & Hv); [by rewrite <- Hv|].
    exfalso. apply Hy. rewrite E, <- Hk. by apply list_elem_of_fmap_2.
  - rewrite IH by done. split; intros (x & Hx & Hk & Hv).
    + exists x. split; [by right|done].
    + exists x. apply elem_of_cons in Hx as [-> |Hx]; [done|]. done.
Qed.
Lemma content_lookup bs k : placed bs -> content bs !! k = default None (in_bucket k <$> bs !! place (zlen bs) k).
Proof.
  intros [Hn Hp Hk]. apply option_eq. intros v. unfold content. rewrite <- elem_of_list_to_map.
  2:{ rewrite <- list_fmap_compose. unfold compose. cbn. apply (concat_keys (zlen bs) bs 0); [|done]. intros i b x Hi Hx. by rewrite (Hp i b x Hi Hx). }
  assert (Hlt : (place (zlen bs) k < length bs)%nat).
  { unfold place, zlen in *. pose proof (Z.mod_pos_bound (hk_hash k) (Z.of_nat (length bs)) ltac:(lia)). lia. }
  destruct (lookup_lt_is_Some_2 _ _ Hlt) as [b Hb]. rewrite Hb. cbn [fmap option_fmap option_map default]. rewrite (in_bucket_spec k b v) by (by eapply Hk).
  rewrite list_elem_of_fmap. split.
  - intros (x & [= -> ->] & Hin). apply list_elem_of_In, in_concat in Hin as (b' & Hb' & Hx). apply list_elem_of_In in Hb', Hx.
    apply list_elem_of_lookup in Hb' as [i Hi]. pose proof (Hp i b' x Hi Hx) as E. rewrite E, Hi in Hb. injection Hb as ->. by exists x.
  - intros (x & Hx & <- & <-). exists x. split; [done|]. apply list_elem_of_In, in_concat. exists b. rewrite <- !list_elem_of_In. split; [|done].
    by eapply list_elem_of_lookup_2.
Qed.
End Content.

Record view (K : Type) := View { v_mem : mem; v_map : Z; v_table : Z; v_buckets : list (list (ent K)); v_hl : HeapList.view }.
#[global] Arguments View {K} _ _ _ _ _.
#[global] Arguments v_mem {K} _.
#[global] Arguments v_map {K} _.
#[global] Arguments v_table {K} _.
#[global] Arguments v_buckets {K} _.
#[global] Arguments v_hl {K} _.
Abbreviation blocks v := (HeapList.v_blocks (v_hl v)).
Abbreviation lists v := (HeapList.v_lists (v_hl v)).
(** The blocks of the map: its table and its entries. *)
Definition has_entry {K} (bs : list (list (ent K))) (a : Z) : Prop := exists i b, bs !! i = Some b /\ a ∈ e_addr <$> b.
Definition kernel_map {K} `{HashKeys K} (t n : Z) : hashmap_t :=
  MkMap hk_hash_func hk_comp hashmap_do_not_duplicate hashmap_do_not_free n t.

Ltac fields := cbn [setter key value next st_hl st_entries st_tables st_maps st_mem v_mem v_map v_table v_buckets v_hl
  HeapList.st_heap HeapList.st_nodes HeapList.st_lists HeapList.v_lists HeapList.v_blocks HeapList.v_room
  hash_func hash_comp hash_key_dup hash_key_free msize entries kernel_map e_addr e_ptr e_key e_val].

Section Repr.
Context {X : Type} `{HeapAllocator X} {K : Type} `{HashKeys K}.
Implicit Types (v : view K) (s : state X) (bs : list (list (ent K))) (b : list (ent K)).

Record repr s v : Prop := {
  r_map : st_maps s !! v_map v = Some (kernel_map (v_table v) (zlen (v_buckets v)));
  r_table : st_tables s !! v_table v = Some (first_entry <$> v_buckets v);
  r_chains : forall i b, v_buckets v !! i = Some b -> chain (st_entries s) b /\ NoDup (e_addr <$> b);
  r_cross : forall i b j c a, v_buckets v !! i = Some b -> v_buckets v !! j = Some c -> a ∈ e_addr <$> b -> a ∈ e_addr <$> c -> i = j;
  r_placed : placed (v_buckets v);
  r_keys : forall i b x, v_buckets v !! i = Some b -> x ∈ b -> hk_is (v_mem v) (e_ptr x) (e_key x);
  r_mem : st_mem s = v_mem v;
  r_null : st_entries s !! NULL = None;
  r_lists : HeapList.repr (st_hl s) (v_hl v);
  r_blocks : blocks v !! v_table v = Some (4 * zlen (v_buckets v)) /\ ~ has_entry (v_buckets v) (v_table v) /\
    forall a, has_entry (v_buckets v) a -> blocks v !! a = Some ENTRY_SIZE;
  r_apart : forall a, a = v_table v \/ has_entry (v_buckets v) a -> lists v !! a = None /\ forall l xs, lists v !! l = Some xs -> a ∉ xs.*1
}.

Lemma has_entry_insert bs i b b' a : bs !! i = Some b -> has_entry (<[i := b']> bs) a ->
  (a ∈ e_addr <$> b') \/ exists j c, j <> i /\ bs !! j = Some c /\ a ∈ e_addr <$> c.
Proof.
  intros Hi (j & c & Hj & Ha). apply list_lookup_insert_Some in Hj as [(-> & -> & _)|[Hne Hj]]; [by left|right]. by exists j, c.
Qed.

(** One bucket is replaced: its entries are old ones of it or new blocks, and all
    other blocks and entries are as before. *)
Lemma repr_bucket s v i b b' hl' N' T' hv' : repr s v -> v_buckets v !! i = Some b ->
  HeapList.repr hl' hv' -> HeapList.v_lists hv' = lists v ->
  T' !! v_table v = Some (first_entry <$> <[i := b']> (v_buckets v)) ->
  N' !! NULL = None -> chain N' b' -> NoDup (e_addr <$> b') -> NoDup (e_key <$> b') ->
  (forall x, x ∈ b' -> hk_is (v_mem v) (e_ptr x) (e_key x) /\ place (zlen (v_buckets v)) (e_key x) = i) ->
  (forall a, a ∈ e_addr <$> b' -> HeapList.v_blocks hv' !! a = Some ENTRY_SIZE /\ (a ∈ e_addr <$> b \/ blocks v !! a = None)) ->
  (forall c, c ∉ e_addr <$> b -> is_Some (blocks v !! c) -> HeapList.v_blocks hv' !! c = blocks v !! c /\ N' !! c = st_entries s !! c) ->
  repr (MkState hl' N' T' (st_maps s) (st_mem s)) (View (v_mem v) (v_map v) (v_table v) (<[i := b']> (v_buckets v)) hv').
Proof.
  intros [R1 R2 R3 R4 R5 R6 R7 Rn R8 [R9 [R10 R11]] R12] Hi Hhl Hli Ht Hnull Hch Hna Hnk Hb' Hown Hframe.
  assert (Hz : zlen (<[i := b']> (v_buckets v)) = zlen (v_buckets v)) by (unfold zlen; by rewrite length_insert).
  assert (Hother : forall j c a, j <> i -> v_buckets v !! j = Some c -> a ∈ e_addr <$> c -> a ∉ e_addr <$> b /\ blocks v !! a = Some ENTRY_SIZE).
  { intros j c a Hne Hj Ha. split; [intros Hin; by apply Hne, (R4 j c i b a)|]. apply R11. by exists j, c. }
  assert (Htb : v_table v ∉ e_addr <$> b) by (intros Hin; apply R10; by exists i, b).
  assert (Hcross : forall j c a, j <> i -> v_buckets v !! j = Some c -> a ∈ e_addr <$> c -> a ∉ e_addr <$> b').
  { intros j c a Hne Hj Ha Hin. destruct (Hother j c a Hne Hj Ha) as [Hn Hs]. destruct (Hown a Hin) as [_ [?|?]]; [done|congruence]. }
  assert (Htb' : v_table v ∉ e_addr <$> b') by (intros Hin; destruct (Hown _ Hin) as [_ [?|?]]; [done|congruence]).
  split; fields; rewrite ?Hz; try done.
  - intros j c. rewrite list_lookup_insert_Some. intros [(-> & -> & _)|[Hne Hj]]; [done|]. destruct (R3 j c Hj). split; [|done].
    eapply chain_frame; [|done]. intros a Ha. destruct (Hother j c a ltac:(done) Hj Ha). apply Hframe; [done|by eexists].
  - intros j c j' c' a. rewrite !list_lookup_insert_Some. intros [(-> & -> & _)|[Hne Hj]] [(-> & -> & _)|[Hne' Hj']] Ha Ha'; try done.
    + exfalso. by apply (Hcross j' c' a).
    + exfalso. by apply (Hcross j c a).
    + by eapply R4.
  - destruct R5 as [P1 P2 P3]. split; rewrite ?Hz; [done|..].
    + intros j c x. rewrite list_lookup_insert_Some. intros [(-> & -> & _)|[Hne Hj]] Hx; [by apply Hb'|by eapply P2].
    + intros j c. rewrite list_lookup_insert_Some. intros [(-> & -> & _)|[Hne Hj]]; [done|by eapply P3].
  - intros j c x. rewrite list_lookup_insert_Some. intros [(-> & -> & _)|[Hne Hj]] Hx; [by apply Hb'|by eapply R6].
  - split; [rewrite <- R9; apply Hframe; [done|by eexists]|]. split.
    + intros He. destruct (has_entry_insert _ _ _ _ _ Hi He) as [?|(j & c & Hne & Hj & Ha)]; [done|]. apply R10. by exists j, c.
    + intros a He. destruct (has_entry_insert _ _ _ _ _ Hi He) as [?|(j & c & Hne & Hj & Ha)]; [by apply Hown|].
      destruct (Hother j c a Hne Hj Ha) as [Hn Hs]. rewrite <- Hs. apply Hframe; [done|by eexists].
  - rewrite Hli. intros a [-> |He]; [apply R12; by left|]. destruct (has_entry_insert _ _ _ _ _ Hi He) as [Ha|(j & c & Hne & Hj & Ha)].
    + destruct (Hown a Ha) as [_ [Hin|Hnone]]; [apply R12; right; by exists i, b|]. destruct R8 as [Q1 _ Q3 _ _ _]. split.
      * destruct (lists v !! a) as [xs|] eqn:E; [|done]. destruct (Q1 a xs E). congruence.
      * intros l xs E Hin. destruct (Q3 l xs a E Hin). congruence.
    + apply R12. right. by exists j, c.
Qed.

(** *** Reading a bucket *)
Lemma on_mem_run {A} s (m : M mem A) a : m ~{ st_mem s }~> a; st_mem s -> on_mem (X := X) m ~{ s }~> a; s.
Proof. intros Hm. unfold on_mem, zoom. rewrite Hm. by destruct s. Qed.
Lemma entry_at_run s a e : st_entries s !! a = Some e -> entry_at a ~{ s }~> e; s.
Proof. intros Ha. by apply getsome_ok. Qed.
Lemma upd_entry_run s a e g : st_entries s !! a = Some e -> upd_entry a g ~{ s }~> tt; s <| st_entries := <[a := g e]> (st_entries s) |>.
Proof. intros Ha. unfold upd_entry. by rewrite (bind_ok _ _ _ _ _ (entry_at_run s a e Ha)). Qed.
Lemma bucket_of_run s v p k : repr s v -> hk_is (v_mem v) p k ->
  bucket_of (kernel_map (v_table v) (zlen (v_buckets v))) p ~{ s }~> Z.of_nat (place (zlen (v_buckets v)) k); s.
Proof.
  intros Hs Hk. unfold bucket_of. fields. pose proof (p_size _ (r_placed _ _ Hs)) as Hn.
  assert (Hrun : on_mem (hk_hash_func p) ~{ s }~> hk_hash k; s) by (apply on_mem_run; rewrite (r_mem _ _ Hs); by apply hk_hash_law).
  rewrite (bind_ok _ _ _ _ _ Hrun), (proj2 (Z.eqb_neq (zlen (v_buckets v)) 0)) by lia. unfold place.
  by rewrite Z2Nat.id by (apply Z.mod_pos_bound; lia).
Qed.
Lemma slot_at_run s v i b : repr s v -> v_buckets v !! i = Some b -> slot_at (v_table v) (Z.of_nat i) ~{ s }~> first_entry b; s.
Proof.
  intros Hs Hi. unfold slot_at. erewrite (bind_ok (table_at _)) by (apply getsome_ok, Hs). unfold zlookup.
  rewrite (proj2 (Z.leb_le _ _)) by lia. rewrite Nat2Z.id, list_lookup_fmap, Hi. done.
Qed.
Lemma set_slot_run s v i b a N : repr s v -> v_buckets v !! i = Some b ->
  set_slot (v_table v) (Z.of_nat i) a ~{ s <| st_entries := N |> }~> tt;
    MkState (st_hl s) N (<[v_table v := <[i := a]> (first_entry <$> v_buckets v)]> (st_tables s)) (st_maps s) (st_mem s).
Proof.
  intros Hs Hi. unfold set_slot. erewrite (bind_ok (table_at _)) by (apply getsome_ok; fields; apply Hs). unfold zlookup, zinsert.
  rewrite (proj2 (Z.leb_le _ _)) by lia. rewrite Nat2Z.id, list_lookup_fmap, Hi. done.
Qed.
Lemma place_bucket s v k : repr s v -> exists b, v_buckets v !! place (zlen (v_buckets v)) k = Some b.
Proof.
  intros Hs. pose proof (p_size _ (r_placed _ _ Hs)) as Hn. apply lookup_lt_is_Some_2. unfold place, zlen in *.
  pose proof (Z.mod_pos_bound (hk_hash k) (Z.of_nat (length (v_buckets v))) ltac:(lia)). lia.
Qed.
Lemma comp_run s v i b x p k : repr s v -> v_buckets v !! i = Some b -> x ∈ b -> hk_is (v_mem v) p k ->
  on_mem (hk_comp (e_ptr x) p) ~{ s }~> bool_int (bool_decide (e_key x = k)); s.
Proof. intros Hs Hi Hx Hk. apply on_mem_run. rewrite (r_mem _ _ Hs). apply hk_comp_law; [by eapply r_keys|done]. Qed.
Lemma entry_nonnull s v i b x : repr s v -> v_buckets v !! i = Some b -> x ∈ b -> (e_addr x =? NULL) = false.
Proof.
  intros Hs Hi Hx. destruct (r_blocks _ _ Hs) as (_ & _ & Hb). assert (He : blocks v !! e_addr x = Some ENTRY_SIZE).
  { apply Hb. exists i, b. split; [done|]. by apply list_elem_of_fmap_2. }
  pose proof (ha_positive _ _ _ _ (HeapList.r_heap _ _ (r_lists _ _ Hs)) He). apply Z.eqb_neq. unfold NULL. lia.
Qed.
Lemma null_not_here s v i b : repr s v -> v_buckets v !! i = Some b -> NULL ∉ e_addr <$> b.
Proof.
  intros Hs Hi [x [E Hx]]%list_elem_of_fmap. pose proof (entry_nonnull s v i b x Hs Hi Hx) as Hn. by rewrite <- E in Hn.
Qed.
Lemma first_nonnull_entry s v i b : repr s v -> v_buckets v !! i = Some b -> b <> [] -> (first_entry b =? NULL) = false.
Proof. intros Hs Hi Hb. destruct b as [|x b]; [done|]. eapply entry_nonnull; [done|done|by left]. Qed.
Lemma rounds_enough s v i b : repr s v -> v_buckets v !! i = Some b -> (length b < Datatypes.S (map_size (st_entries s)))%nat.
Proof.
  intros Hs Hi. destruct (r_chains _ _ Hs i b Hi) as [Hc Hnd]. apply le_n_S. rewrite <- (length_fmap e_addr b).
  apply stored_length; [done|]. intros a Ha. by eapply chain_stored.
Qed.

Section Bucket.
Context s v i b p k (Hs : repr s v) (Hi : v_buckets v !! i = Some b) (Hk : hk_is (v_mem v) p k).
Abbreviation the_map := (kernel_map (v_table v) (zlen (v_buckets v))).

Lemma get_loop_run b2 : forall n, (forall x, x ∈ b2 -> x ∈ b) -> chain (st_entries s) b2 -> (length b2 < n)%nat ->
  get_loop n the_map p (first_entry b2) ~{ s }~> in_bucket k b2; s.
Proof.
  induction b2 as [|x b2 IH]; intros n Hsub Hc Hn; [by destruct n|]. destruct n as [|n]; [cbn in Hn; lia|]. destruct Hc as [Hx Hc].
  cbn [get_loop first_entry]. rewrite (entry_nonnull s v i b x) by auto using list_elem_of_here. rewrite (bind_ok _ _ _ _ _ (entry_at_run _ _ _ Hx)). fields.
  assert (Hxb : x ∈ b) by (apply Hsub; by left). rewrite (bind_ok _ _ _ _ _ (comp_run s v i b x p k Hs Hi Hxb Hk)).
  unfold in_bucket. cbn [List.find]. case_bool_decide; cbn [bool_int negb Z.eqb]; [done|].
  apply IH; [intros y Hy; apply Hsub; by right|done|cbn in Hn; lia].
Qed.

(** The loop of hashmap_set finds the key, or comes to the last entry. *)
Lemma set_loop_found w x b2 : forall b1 n, (forall y, y ∈ b1 ++ x :: b2 -> y ∈ b) -> chain (st_entries s) (b1 ++ x :: b2) -> (length (b1 ++ x :: b2) < n)%nat ->
  k ∉ e_key <$> b1 -> e_key x = k ->
  set_loop n the_map p w (first_entry (b1 ++ x :: b2)) ~{ s }~> e_val x; s <| st_entries := <[e_addr x := MkEntry (e_ptr x) w (first_entry b2)]> (st_entries s) |>.
Proof.
  induction b1 as [|y b1 IH]; intros [|n] Hsub Hc Hn Hk1 Hx; try (cbn in Hn; lia); cbn [app first_entry set_loop] in *; destruct Hc as [Hy Hc];
    rewrite (bind_ok _ _ _ _ _ (entry_at_run _ _ _ Hy)); fields.
  - rewrite (bind_ok _ _ _ _ _ (comp_run s v i b x p k Hs Hi (Hsub x ltac:(by left)) Hk)), bool_decide_true by done. cbn [bool_int negb Z.eqb].
    by rewrite (bind_ok _ _ _ _ _ (upd_entry_run s _ _ _ Hy)).
  - cbn [fmap list_fmap] in Hk1. apply not_elem_of_cons in Hk1 as [Hky Hk1].
    rewrite (bind_ok _ _ _ _ _ (comp_run s v i b y p k Hs Hi (Hsub y ltac:(by left)) Hk)), bool_decide_false by congruence. cbn [bool_int negb Z.eqb].
    assert (Hnn : (first_entry (b1 ++ x :: b2) =? NULL) = false).
    { destruct b1 as [|z b1]; cbn [app first_entry]; apply (entry_nonnull s v i b); try done; apply Hsub; right; by left. }
    rewrite Hnn. apply IH; [intros z Hz; apply Hsub; by right|done|cbn in Hn; lia|done|done].
Qed.
Lemma set_loop_missing w x : forall b1 n, (forall y, y ∈ b1 ++ [x] -> y ∈ b) -> chain (st_entries s) (b1 ++ [x]) -> (length (b1 ++ [x]) < n)%nat ->
  k ∉ e_key <$> (b1 ++ [x]) ->
  set_loop n the_map p w (first_entry (b1 ++ [x])) s = new_entry the_map p w (fun e => upd_entry (e_addr x) (fun y => y <| next := e |>)) s.
Proof.
  induction b1 as [|y b1 IH]; intros [|n] Hsub Hc Hn Hk1; try (cbn in Hn; lia); cbn [app first_entry set_loop fmap list_fmap] in *; destruct Hc as [Hy Hc];
    rewrite (bind_ok _ _ _ _ _ (entry_at_run _ _ _ Hy)); fields; apply not_elem_of_cons in Hk1 as [Hky Hk1].
  - rewrite (bind_ok _ _ _ _ _ (comp_run s v i b x p k Hs Hi (Hsub x ltac:(by left)) Hk)), bool_decide_false by congruence. done.
  - rewrite (bind_ok _ _ _ _ _ (comp_run s v i b y p k Hs Hi (Hsub y ltac:(by left)) Hk)), bool_decide_false by congruence. cbn [bool_int negb Z.eqb].
    assert (Hnn : (first_entry (b1 ++ [x]) =? NULL) = false).
    { destruct b1 as [|z b1]; cbn [app first_entry]; apply (entry_nonnull s v i b); try done; apply Hsub; right; by left. }
    rewrite Hnn. apply IH; [intros z Hz; apply Hsub; by right|done|cbn in Hn; lia|done].
Qed.
End Bucket.

Lemma find_value_run s v p k : repr s v -> hk_is (v_mem v) p k -> find_value (v_map v) p ~{ s }~> content (v_buckets v) !! k; s.
Proof.
  intros Hs Hk. unfold find_value. erewrite (bind_ok (map_at _)) by (apply getsome_ok, Hs).
  rewrite (bind_ok _ _ _ _ _ (bucket_of_run s v p k Hs Hk)). destruct (place_bucket s v k Hs) as [b Hb]. fields.
  rewrite (bind_ok _ _ _ _ _ (slot_at_run s v _ b Hs Hb)). erewrite (bind_ok rounds) by reflexivity.
  rewrite content_lookup by apply Hs. rewrite Hb. cbn [fmap option_fmap option_map default].
  eapply (get_loop_run s v _ b p k Hs Hb Hk b); [done|by eapply r_chains|by eapply rounds_enough].
Qed.
End Repr.

(** *** Chains that change *)
Definition first_from {K} (nx : Z) (b : list (ent K)) : Z := match b with [] => nx | x :: _ => e_addr x end.
Fixpoint cseg {K} (N : gmap Z hashmap_entry_t) (b : list (ent K)) (nx : Z) : Prop :=
  match b with [] => True | x :: b => N !! e_addr x = Some (MkEntry (e_ptr x) (e_val x) (first_from nx b)) /\ cseg N b nx end.
Fixpoint last_addr {K} (p : Z) (b : list (ent K)) : Z := match b with [] => p | x :: b => last_addr (e_addr x) b end.
Lemma chain_cseg {K} N (b : list (ent K)) : chain N b <-> cseg N b NULL.
Proof. induction b as [|x b IH]; [done|]. cbn [chain cseg]. by rewrite IH. Qed.
Lemma cseg_app {K} N (b1 b2 : list (ent K)) nx : cseg N (b1 ++ b2) nx <-> cseg N b1 (first_from nx b2) /\ cseg N b2 nx.
Proof.
  induction b1 as [|x b1 IH]; cbn [app cseg]; [tauto|]. rewrite IH.
  replace (first_from nx (b1 ++ b2)) with (first_from (first_from nx b2) b1) by (by destruct b1). tauto.
Qed.
Lemma cseg_frame {K} N N' (b : list (ent K)) nx : (forall a, a ∈ e_addr <$> b -> N' !! a = N !! a) -> cseg N b nx -> cseg N' b nx.
Proof.
  induction b as [|x b IH]; intros HN; [done|]. intros [Hx Hb]. split; [rewrite HN by (by left); exact Hx|].
  apply IH; [|done]. intros a Ha. apply HN. by right.
Qed.
(** An entry in the middle of a chain whose addresses are distinct. *)
Lemma addr_middle {K} (b1 : list (ent K)) x b2 : NoDup (e_addr <$> b1 ++ x :: b2) ->
  (forall a, a ∈ e_addr <$> b1 -> a <> e_addr x) /\ (forall a, a ∈ e_addr <$> b2 -> a <> e_addr x) /\ NoDup (e_addr <$> b1 ++ b2).
Proof.
  rewrite !fmap_app. cbn [fmap list_fmap]. intros Hnd. apply NoDup_app in Hnd as (H1 & Hc & H2). apply NoDup_cons in H2 as [Hx H2]. split_and!.
  - intros a Ha ->. apply (Hc _ Ha). by left.
  - by intros a Ha ->.
  - apply NoDup_app. split_and!; [done| |done]. intros a Ha Hb. apply (Hc _ Ha). by right.
Qed.
Lemma chain_value {K} N (b1 : list (ent K)) x b2 w : NoDup (e_addr <$> b1 ++ x :: b2) -> chain N (b1 ++ x :: b2) ->
  chain (<[e_addr x := MkEntry (e_ptr x) w (first_entry b2)]> N) (b1 ++ Ent (e_addr x) (e_ptr x) (e_key x) w :: b2).
Proof.
  intros Hnd. destruct (addr_middle _ _ _ Hnd) as (H1 & H2 & _). rewrite !chain_cseg, !cseg_app. cbn [cseg first_from e_addr e_ptr e_val]. intros (Hc1 & Hx & Hc2).
  split_and!; [|by rewrite lookup_insert_eq|]; (eapply cseg_frame; [|eassumption]); intros a Ha; rewrite lookup_insert_ne; try done; intros <-; [by eapply H1|by eapply H2].
Qed.
Lemma chain_append {K} N (b1 : list (ent K)) x y : NoDup (e_addr <$> b1 ++ [x]) -> e_addr y ∉ e_addr <$> (b1 ++ [x]) -> chain N (b1 ++ [x]) ->
  chain (<[e_addr x := MkEntry (e_ptr x) (e_val x) (e_addr y)]> (<[e_addr y := MkEntry (e_ptr y) (e_val y) NULL]> N)) ((b1 ++ [x]) ++ [y]).
Proof.
  intros Hnd Hy. destruct (addr_middle _ _ _ Hnd) as (H1 & _ & _). rewrite fmap_app, elem_of_app in Hy. cbn [fmap list_fmap] in Hy.
  rewrite !chain_cseg, <- app_assoc, !cseg_app. cbn [app cseg first_from]. intros (Hc1 & Hx & _).
  assert (Hyx : e_addr y <> e_addr x) by (intros E; apply Hy; right; rewrite E; by left).
  split_and!; [|by rewrite lookup_insert_eq|done|by rewrite lookup_insert_ne, lookup_insert_eq by done|done].
  eapply cseg_frame; [|exact Hc1]. intros a Ha. rewrite !lookup_insert_ne; [done|..]; intros <-; [apply Hy; by left|by eapply H1].
Qed.
Lemma chain_unlink {K} N (b1 : list (ent K)) y x b2 : NoDup (e_addr <$> b1 ++ y :: x :: b2) -> chain N (b1 ++ y :: x :: b2) ->
  chain (delete (e_addr x) (<[e_addr y := MkEntry (e_ptr y) (e_val y) (first_entry b2)]> N)) (b1 ++ y :: b2).
Proof.
  intros Hnd. destruct (addr_middle _ _ _ Hnd) as (H1 & H2 & _). change (b1 ++ y :: x :: b2) with (b1 ++ [y] ++ x :: b2) in Hnd. rewrite app_assoc in Hnd.
  destruct (addr_middle _ _ _ Hnd) as (H3 & H4 & _). rewrite !chain_cseg, !cseg_app. cbn [cseg first_from]. intros (Hc1 & Hy & Hx & Hc2).
  assert (Hxy : e_addr x <> e_addr y) by (apply H2; by left).
  split_and!; [|by rewrite lookup_delete_ne, lookup_insert_eq by done|]; (eapply cseg_frame; [|eassumption]); intros a Ha;
    rewrite lookup_delete_ne, lookup_insert_ne; try done; intros <-.
  - by eapply H1.
  - apply (H3 (e_addr x)); [|done]. rewrite fmap_app. apply elem_of_app. by left.
  - apply (H2 (e_addr y)); [by right|done].
  - by eapply H4.
Qed.
Lemma chain_behead {K} N x (b2 : list (ent K)) : NoDup (e_addr <$> x :: b2) -> chain N (x :: b2) -> chain (delete (e_addr x) N) b2.
Proof.
  intros Hnd [_ Hc]. destruct (addr_middle [] x b2 Hnd) as (_ & H2 & _). eapply chain_frame; [|exact Hc].
  intros a Ha. rewrite lookup_delete_ne; [done|]. intros <-. by eapply H2.
Qed.

(** *** Buckets as maps *)
Section Buckets.
Context {K : Type} `{HashKeys K}.
Lemma in_bucket_app k (b1 b2 : list (ent K)) : in_bucket k (b1 ++ b2) = match in_bucket k b1 with Some w => Some w | None => in_bucket k b2 end.
Proof. unfold in_bucket. induction b1 as [|x b1 IH]; [done|]. cbn [app List.find]. by case_bool_decide. Qed.
Lemma in_bucket_none k (b : list (ent K)) : in_bucket k b = None <-> k ∉ e_key <$> b.
Proof.
  unfold in_bucket. induction b as [|x b IH]; cbn [List.find fmap list_fmap]; [split; [intros _; apply not_elem_of_nil|done]|].
  rewrite not_elem_of_cons. case_bool_decide; cbn [fmap option_fmap option_map]; [split; [done|intros [? _]; congruence]|]. rewrite IH. naive_solver congruence.
Qed.
Lemma in_bucket_split k (b : list (ent K)) w : in_bucket k b = Some w -> exists b1 x b2, b = b1 ++ x :: b2 /\ e_key x = k /\ e_val x = w /\ k ∉ e_key <$> b1.
Proof.
  induction b as [|x b IH]; [done|]. unfold in_bucket. cbn [List.find]. case_bool_decide as E.
  - intros [= <-]. exists [], x, b. split_and!; try done. apply not_elem_of_nil.
  - intros Hb. destruct (IH Hb) as (b1 & y & b2 & -> & Hk & Hw & Hn). exists (x :: b1), y, b2. split_and!; try done.
    cbn [fmap list_fmap]. apply not_elem_of_cons. by split; [congruence|].
Qed.
(** The map after one bucket has changed at one key. *)
Lemma content_change bs i b b' k o : placed bs -> placed (<[i := b']> bs) -> bs !! i = Some b -> i = place (zlen bs) k ->
  in_bucket k b' = o -> (forall k', k' <> k -> in_bucket k' b' = in_bucket k' b) ->
  content (<[i := b']> bs) = match o with Some w => <[k := w]> (content bs) | None => delete k (content bs) end.
Proof.
  intros Hp Hp' Hi Hplace Ho Hother. apply map_eq. intros k'. rewrite content_lookup by done.
  assert (Hz : zlen (<[i := b']> bs) = zlen bs) by (unfold zlen; by rewrite length_insert). rewrite Hz.
  assert (Hlt := lookup_lt_Some _ _ _ Hi). destruct (decide (k' = k)) as [-> |Hne].
  - rewrite <- Hplace, list_lookup_insert_eq by done. cbn [fmap option_fmap option_map default]. rewrite Ho.
    destruct o; [by rewrite lookup_insert_eq|by rewrite lookup_delete_eq].
  - assert (Hrhs : match o with Some w => <[k := w]> (content bs) | None => delete k (content bs) end !! k' = content bs !! k').
    { destruct o; [by rewrite lookup_insert_ne|by rewrite lookup_delete_ne]. }
    rewrite Hrhs, content_lookup by done. destruct (decide (place (zlen bs) k' = i)) as [E|E].
    + rewrite E, list_lookup_insert_eq, Hi by done. cbn [fmap option_fmap option_map default]. by apply Hother.
    + by rewrite list_lookup_insert_ne.
Qed.
End Buckets.

(** ** What the operations do *)
Section Rules.
Context {X : Type} `{HeapAllocator X} {K : Type} `{HashKeys K}.
Implicit Types (v : view K) (s : state X).
Abbreviation tri := (triple (repr (X := X) (K := K))).
Abbreviation cost := (ha_cost (X := X)).
Abbreviation the_map v := (kernel_map (v_table v) (zlen (v_buckets v))).

(** After an operation on the map [c] is what it holds. *)
Record after v (c : gmap K Z) v' : Prop := {
  a_content : content (v_buckets v') = c;
  a_size : zlen (v_buckets v') = zlen (v_buckets v);
  a_where : v_mem v' = v_mem v /\ v_map v' = v_map v /\ v_table v' = v_table v;
  a_lists : lists v' = lists v;
  a_room : HeapList.v_room (v_hl v) - cost ENTRY_SIZE <= HeapList.v_room (v_hl v')
}.
Lemma after_same v : after v (content (v_buckets v)) v.
Proof. pose proof (ha_cost_law (X := X) ENTRY_SIZE ltac:(done)). split; try done. lia. Qed.

Lemma new_entry_run s v p w link m : repr s v -> 0 <= m -> HeapList.v_room (v_hl v) = cost ENTRY_SIZE + m ->
  new_entry (the_map v) p w link s = Err FFatal \/
  exists a hl', new_entry (the_map v) p w link s = (link a ;; mret NULL) (MkState hl' (<[a := MkEntry p w NULL]> (st_entries s)) (st_tables s) (st_maps s) (st_mem s)) /\
    0 < a /\ blocks v !! a = None /\ HeapList.repr hl' (HeapList.View (lists v) (<[a := ENTRY_SIZE]> (blocks v)) m).
Proof.
  intros Hs Hm Hroom. pose proof (r_lists _ _ Hs) as Hl. destruct s as [[h nd ls] N T Mp mm]. fields. cbn [st_hl st_entries st_tables st_maps st_mem] in *.
  pose proof (HeapList.r_room _ _ Hl) as Hr. rewrite Hroom in Hr.
  unfold new_entry, __alloc_entry, on_heap, on_lists, HeapList.on_heap.
  destruct (ha_alloc_law h _ ENTRY_SIZE m (HeapList.r_heap _ _ Hl) ltac:(done) Hm Hr) as [Herr|(a & h' & Hrun & Hok & Hnew & Hroom')].
  - left. apply bind_err, bind_err. unfold zoom. fields. by rewrite Herr.
  - right. assert (Ha : 0 < a) by (eapply ha_positive; [exact Hok|apply lookup_insert_eq]).
    exists a, (HeapList.MkState h' nd ls). split; [|split; [done|split; [done|by apply (HeapList.repr_other_alloc h)]]].
    rewrite bind_assoc. erewrite bind_ok by (unfold zoom; fields; rewrite Hrun; reflexivity). rewrite (proj2 (Z.eqb_neq a NULL)) by (unfold NULL; lia).
    rewrite bind_assoc. erewrite (bind_ok (modify _)) by reflexivity. rewrite bind_ret_l. fields.
    erewrite (bind_ok (on_mem _)) by reflexivity.
    do 3 (erewrite (bind_ok (upd_entry _ _)) by (apply upd_entry_run; fields; apply lookup_insert_eq); fields; rewrite ?insert_insert_eq).
    reflexivity.
Qed.

(** An entry that is taken out. *)
Lemma drop_entry_run s v a y unlink N1 T1 : repr s v -> has_entry (v_buckets v) a ->
  unlink ~{ s }~> tt; MkState (st_hl s) N1 T1 (st_maps s) (st_mem s) ->
  exists hl', drop_entry (the_map v) a y unlink ~{ s }~> value y; MkState hl' (delete a N1) T1 (st_maps s) (st_mem s) /\
    HeapList.repr hl' (HeapList.View (lists v) (delete a (blocks v)) (HeapList.v_room (v_hl v))).
Proof.
  intros Hs Ha Hrun. pose proof (r_lists _ _ Hs) as Hl. destruct (r_blocks _ _ Hs) as (_ & _ & Hb). specialize (Hb a Ha).
  destruct (r_apart _ _ Hs a ltac:(by right)) as [Hap1 Hap2].
  destruct s as [[h nd ls] N T Mp mm]. fields. cbn [st_hl st_entries st_tables st_maps st_mem] in *.
  destruct (ha_free_law h _ a _ (HeapList.r_heap _ _ Hl) Hb) as (h' & Hfree & Hok & Hroom).
  exists (HeapList.MkState h' nd ls). split; [|apply (HeapList.repr_other_free h); try done; by apply Hroom, (HeapList.r_room _ _ Hl)].
  unfold drop_entry. rewrite (bind_ok _ _ _ _ _ Hrun). erewrite (bind_ok (on_mem _)) by reflexivity.
  erewrite (bind_ok (__dealloc_entry _)); [reflexivity|]. unfold __dealloc_entry, on_heap, on_lists, HeapList.on_heap.
  erewrite bind_ok by (unfold zoom; fields; rewrite Hfree; reflexivity). reflexivity.
Qed.

(** The two ways of setting a key. *)
Lemma set_old_repr s v k b b1 x b2 w : repr s v -> v_buckets v !! place (zlen (v_buckets v)) k = Some b -> b = b1 ++ x :: b2 -> e_key x = k -> k ∉ e_key <$> b1 ->
  let v' := View (v_mem v) (v_map v) (v_table v) (<[place (zlen (v_buckets v)) k := b1 ++ Ent (e_addr x) (e_ptr x) (e_key x) w :: b2]> (v_buckets v)) (v_hl v) in
  repr (s <| st_entries := <[e_addr x := MkEntry (e_ptr x) w (first_entry b2)]> (st_entries s) |>) v' /\ after v (<[k := w]> (content (v_buckets v))) v'.
Proof.
  intros Hs Hi -> Hx Hk1. set (y := Ent (e_addr x) (e_ptr x) (e_key x) w). set (i := place _ k) in *. cbn zeta.
  pose proof Hs as [R1 R2 R3 R4 R5 R6 R7 Rn R8 [R9 [R10 R11]] R12]. destruct (R3 i _ Hi) as [Hc Hnd].
  assert (Haddr : e_addr <$> b1 ++ y :: b2 = e_addr <$> b1 ++ x :: b2) by (rewrite !fmap_app; done).
  assert (Hkeys : e_key <$> b1 ++ y :: b2 = e_key <$> b1 ++ x :: b2) by (rewrite !fmap_app; done).
  assert (Hold : forall z, z ∈ b1 ++ y :: b2 -> exists z', z' ∈ b1 ++ x :: b2 /\ e_ptr z = e_ptr z' /\ e_key z = e_key z').
  { intros z. rewrite elem_of_app, elem_of_cons. intros [Hz|[-> |Hz]]; [exists z|exists x|exists z]; rewrite elem_of_app, elem_of_cons; tauto. }
  assert (Hrepr : repr (s <| st_entries := <[e_addr x := MkEntry (e_ptr x) w (first_entry b2)]> (st_entries s) |>)
    (View (v_mem v) (v_map v) (v_table v) (<[i := b1 ++ y :: b2]> (v_buckets v)) (v_hl v))).
  { apply (repr_bucket s v i (b1 ++ x :: b2)); fields; try done; rewrite ?Haddr, ?Hkeys; try done.
    - rewrite R2. f_equal. apply list_eq_same_length with (length (v_buckets v)); [by rewrite length_fmap, length_insert|by rewrite length_fmap|].
      intros j a a' _. rewrite !list_lookup_fmap. destruct (decide (j = i)) as [-> |Hne]; [|rewrite list_lookup_insert_ne by done; congruence].
      rewrite list_lookup_insert_eq by (by eapply lookup_lt_Some). rewrite Hi. cbn. intros [= <-] [= <-]. by destruct b1.
    - rewrite lookup_insert_ne; [done|]. intros E. apply (null_not_here s v i _ Hs Hi). rewrite fmap_app. apply elem_of_app. right. rewrite <- E. by left.
    - by apply chain_value.
    - by apply (p_keys _ R5 i).
    - intros z Hz. destruct (Hold z Hz) as (z' & Hz' & -> & ->). split; [by apply (R6 i (b1 ++ x :: b2))|by apply (p_place _ R5 i (b1 ++ x :: b2))].
    - intros a Ha. split; [apply R11; by exists i, (b1 ++ x :: b2)|by left].
    - intros c Hcn _. split; [done|]. rewrite lookup_insert_ne; [done|]. intros <-. apply Hcn. rewrite fmap_app. apply elem_of_app. right. by left. }
  split; [exact Hrepr|]. pose proof (ha_cost_law (X := X) ENTRY_SIZE ltac:(done)). split; fields; try done; [|unfold zlen; by rewrite length_insert|lia].
  apply (content_change (v_buckets v) i (b1 ++ x :: b2) _ k (Some w)); [done|apply (r_placed _ _ Hrepr)|done|done|..].
  - rewrite in_bucket_app, (proj2 (in_bucket_none k b1)) by done. unfold in_bucket. cbn. by rewrite bool_decide_true.
  - intros k' Hk'. rewrite !in_bucket_app. destruct (in_bucket k' b1); [done|]. unfold in_bucket. cbn. by rewrite bool_decide_false by congruence.
Qed.
Lemma set_new_repr s v k p b w a hl' m N' T' : repr s v -> hk_is (v_mem v) p k -> v_buckets v !! place (zlen (v_buckets v)) k = Some b -> k ∉ e_key <$> b ->
  blocks v !! a = None -> HeapList.repr hl' (HeapList.View (lists v) (<[a := ENTRY_SIZE]> (blocks v)) m) -> HeapList.v_room (v_hl v) = cost ENTRY_SIZE + m ->
  T' !! v_table v = Some (first_entry <$> <[place (zlen (v_buckets v)) k := b ++ [Ent a p k w]]> (v_buckets v)) ->
  chain N' (b ++ [Ent a p k w]) -> (forall c, c ∉ e_addr <$> b -> c <> a -> N' !! c = st_entries s !! c) ->
  let v' := View (v_mem v) (v_map v) (v_table v) (<[place (zlen (v_buckets v)) k := b ++ [Ent a p k w]]> (v_buckets v)) (HeapList.View (lists v) (<[a := ENTRY_SIZE]> (blocks v)) m) in
  repr (MkState hl' N' T' (st_maps s) (st_mem s)) v' /\ after v (<[k := w]> (content (v_buckets v))) v'.
Proof.
  intros Hs Hk Hi Hn Hnew Hhl Hroom Ht Hc Hframe. set (y := Ent a p k w) in *. set (i := place _ k) in *. cbn zeta.
  pose proof Hs as [R1 R2 R3 R4 R5 R6 R7 Rn R8 [R9 [R10 R11]] R12]. destruct (R3 i b Hi) as [_ Hnd].
  assert (Hab : a ∉ e_addr <$> b) by (intros Hin; assert (Hb := R11 a ltac:(by exists i, b)); congruence).
  assert (Hrepr : repr (MkState hl' N' T' (st_maps s) (st_mem s)) (View (v_mem v) (v_map v) (v_table v) (<[i := b ++ [y]]> (v_buckets v)) (HeapList.View (lists v) (<[a := ENTRY_SIZE]> (blocks v)) m))).
  { apply (repr_bucket s v i b); fields; try done; rewrite ?fmap_app.
    - rewrite Hframe; [done|by apply (null_not_here s v i b)|]. intros E.
      pose proof (ha_positive _ _ _ _ (HeapList.r_heap _ _ Hhl) (lookup_insert_eq (blocks v) a ENTRY_SIZE)). unfold NULL in E. lia.
    - apply NoDup_app. split_and!; [done| |apply NoDup_singleton]. by intros c Hc' ->%list_elem_of_singleton.
    - apply NoDup_app. split_and!; [by apply (p_keys _ R5 i)| |apply NoDup_singleton]. by intros c Hc' ->%list_elem_of_singleton.
    - intros z. rewrite elem_of_app, list_elem_of_singleton. intros [Hz| ->]; [split; [by apply (R6 i b)|by apply (p_place _ R5 i b)]|done].
    - intros c. cbn [fmap list_fmap e_addr y]. rewrite elem_of_app, list_elem_of_singleton. intros [Hz| ->]; [|rewrite lookup_insert_eq; split; [done|by right]].
      rewrite lookup_insert_ne by congruence. split; [apply R11; by exists i, b|by left].
    - intros c Hcb [z Hz]. assert (a <> c) by congruence. rewrite lookup_insert_ne by done. split; [done|by apply Hframe]. }
  split; [exact Hrepr|]. split; fields; try done; [|unfold zlen; by rewrite length_insert|lia].
  apply (content_change (v_buckets v) i b _ k (Some w)); [done|apply (r_placed _ _ Hrepr)|done|done|..].
  - rewrite in_bucket_app, (proj2 (in_bucket_none k b)) by done. unfold in_bucket. cbn. by rewrite bool_decide_true.
  - intros k' Hk'. rewrite in_bucket_app. destruct (in_bucket k' b); [done|]. unfold in_bucket. cbn. by rewrite bool_decide_false by congruence.
Qed.

(** The program gives [r] and the map holds [c] afterwards. *)
Definition runs s (m : M (state X) Z) v (c : gmap K Z) (r : Z) : Prop :=
  m ~{ s }~>! FFatal \/ exists s' v', m ~{ s }~> r; s' /\ repr s' v' /\ after v c v'.
Section New.
Context s v p k (w : Z) (Hs : repr s v) (Hk : hk_is (v_mem v) p k) (Hroom : cost ENTRY_SIZE <= HeapList.v_room (v_hl v)).
Abbreviation i := (place (zlen (v_buckets v)) k).

Lemma set_first : v_buckets v !! i = Some [] ->
  runs s (new_entry (the_map v) p w (fun e => set_slot (v_table v) (Z.of_nat i) e)) v (<[k := w]> (content (v_buckets v))) NULL.
Proof.
  intros Hb. assert (Hm : 0 <= HeapList.v_room (v_hl v) - cost ENTRY_SIZE) by lia.
  destruct (new_entry_run s v p w (fun e => set_slot (v_table v) (Z.of_nat i) e) _ Hs Hm ltac:(lia)) as [Herr|(a & hl' & Hrun & Ha & Hna & Hhl)]; [by left|right].
  set (T' := <[v_table v := <[i := a]> (first_entry <$> v_buckets v)]> (st_tables s)).
  assert (Hst : set_slot (v_table v) (Z.of_nat i) a ~{ MkState hl' (<[a := MkEntry p w NULL]> (st_entries s)) (st_tables s) (st_maps s) (st_mem s) }~> tt;
    MkState hl' (<[a := MkEntry p w NULL]> (st_entries s)) T' (st_maps s) (st_mem s)).
  { unfold set_slot. erewrite (bind_ok (table_at _)) by (apply getsome_ok; fields; apply Hs). unfold zlookup, zinsert.
    rewrite (proj2 (Z.leb_le _ _)) by lia. by rewrite Nat2Z.id, list_lookup_fmap, Hb. }
  rewrite Hrun, (bind_ok _ _ _ _ _ Hst). eexists _, _. split; [reflexivity|].
  eapply (set_new_repr s v k p [] w a hl' _ _ _ Hs Hk Hb); try done; [apply not_elem_of_nil|lia|..].
  - unfold T'. by rewrite lookup_insert_eq, list_fmap_insert.
  - cbn. by rewrite lookup_insert_eq.
  - intros c _ Hne. by rewrite lookup_insert_ne.
Qed.
Lemma set_append b0 z : v_buckets v !! i = Some (b0 ++ [z]) -> k ∉ e_key <$> (b0 ++ [z]) ->
  runs s (new_entry (the_map v) p w (fun e => upd_entry (e_addr z) (fun y => y <| next := e |>))) v (<[k := w]> (content (v_buckets v))) NULL.
Proof.
  intros Hb Hn. assert (Hm : 0 <= HeapList.v_room (v_hl v) - cost ENTRY_SIZE) by lia. destruct (r_chains _ _ Hs i _ Hb) as [Hc Hnd].
  destruct (new_entry_run s v p w (fun e => upd_entry (e_addr z) (fun y => y <| next := e |>)) _ Hs Hm ltac:(lia)) as [Herr|(a & hl' & Hrun & Ha & Hna & Hhl)]; [by left|right].
  destruct (r_blocks _ _ Hs) as (_ & _ & Hown). assert (Hab : a ∉ e_addr <$> (b0 ++ [z])).
  { intros Hin. assert (Hx := Hown a ltac:(by exists i, (b0 ++ [z]))). congruence. }
  assert (Haz : a <> e_addr z) by (intros ->; apply Hab; rewrite fmap_app; apply elem_of_app; right; by left).
  destruct (chain_app _ _ _ _ Hc) as [Hz _].
  assert (Hup := upd_entry_run (MkState hl' (<[a := MkEntry p w NULL]> (st_entries s)) (st_tables s) (st_maps s) (st_mem s)) (e_addr z) _ (fun y => y <| next := a |>)
    ltac:(fields; rewrite lookup_insert_ne by done; exact Hz)).
  rewrite Hrun, (bind_ok _ _ _ _ _ Hup). fields. eexists _, _. split; [reflexivity|].
  eapply (set_new_repr s v k p (b0 ++ [z]) w a hl' _ _ _ Hs Hk Hb); try done; [lia|..].
  - rewrite (r_table _ _ Hs). f_equal. rewrite list_fmap_insert. replace (first_entry ((b0 ++ [z]) ++ [Ent a p k w])) with (first_entry (b0 ++ [z])) by (by destruct b0).
    rewrite list_insert_id; [done|]. by rewrite list_lookup_fmap, Hb.
  - apply (chain_append _ _ _ (Ent a p k w)); done.
  - intros c Hc' Hne. rewrite !lookup_insert_ne; [done|done|]. intros <-. apply Hc'. rewrite fmap_app. apply elem_of_app. right. by left.
Qed.
End New.

Lemma hashmap_set_run s v p k w : repr s v -> hk_is (v_mem v) p k -> cost ENTRY_SIZE <= HeapList.v_room (v_hl v) ->
  runs s (hashmap_set (v_map v) p w) v (<[k := w]> (content (v_buckets v))) (default NULL (content (v_buckets v) !! k)).
Proof.
  intros Hs Hk Hroom. destruct (place_bucket s v k Hs) as [b Hb]. unfold runs, hashmap_set.
  erewrite (bind_ok (map_at _)) by (apply getsome_ok, Hs). rewrite (bind_ok _ _ _ _ _ (bucket_of_run s v p k Hs Hk)). fields.
  rewrite (bind_ok _ _ _ _ _ (slot_at_run s v _ b Hs Hb)). rewrite content_lookup, Hb by apply Hs. cbn [fmap option_fmap option_map default].
  destruct (r_chains _ _ Hs _ b Hb) as [Hc Hnd]. destruct (in_bucket k b) as [u|] eqn:E.
  - destruct (in_bucket_split _ _ _ E) as (b1 & x & b2 & -> & Hx & Hu & Hk1). right.
    rewrite (first_nonnull_entry s v _ _ Hs Hb) by (by destruct b1). erewrite (bind_ok rounds) by reflexivity.
    eexists _, _. split; [rewrite <- Hu; eapply (set_loop_found s v _ _ p k Hs Hb Hk w x b2 b1); try done; by eapply rounds_enough|].
    by apply (set_old_repr s v k _ b1 x b2 w Hs Hb).
  - apply in_bucket_none in E. destruct b as [|z b0 _] using rev_ind; [by apply set_first|].
    rewrite (first_nonnull_entry s v _ _ Hs Hb) by (by destruct b0). erewrite (bind_ok rounds) by reflexivity.
    rewrite (set_loop_missing s v _ _ p k Hs Hb Hk w z b0 _ (fun y Hy => Hy) Hc (rounds_enough _ _ _ _ Hs Hb) E). by apply (set_append s v p k w Hs Hk Hroom b0 z).
Qed.

(** *** Removing *)
Section Removing.
Context s v i b p k (Hs : repr s v) (Hi : v_buckets v !! i = Some b) (Hk : hk_is (v_mem v) p k).

(** The loop of hashmap_remove finds the key behind the entry [q], or does not. *)
Lemma remove_loop_found x b2 : forall c n q, (forall y, y ∈ c ++ x :: b2 -> y ∈ b) -> chain (st_entries s) (c ++ x :: b2) -> (length (c ++ x :: b2) < n)%nat ->
  k ∉ e_key <$> c -> e_key x = k ->
  remove_loop n (the_map v) p q (first_entry (c ++ x :: b2)) s =
  drop_entry (the_map v) (e_addr x) (MkEntry (e_ptr x) (e_val x) (first_entry b2)) (upd_entry (last_addr q c) (fun z => z <| next := first_entry b2 |>)) s.
Proof.
  induction c as [|y c IH]; intros [|n] q Hsub Hc Hn Hk1 Hx; try (cbn in Hn; lia); cbn [app first_entry remove_loop] in *; destruct Hc as [Hy Hc];
    rewrite (bind_ok _ _ _ _ _ (entry_at_run _ _ _ Hy)); fields.
  - by rewrite (bind_ok _ _ _ _ _ (comp_run s v i b x p k Hs Hi (Hsub x ltac:(by left)) Hk)), bool_decide_true by done.
  - cbn [fmap list_fmap] in Hk1. apply not_elem_of_cons in Hk1 as [Hky Hk1].
    rewrite (bind_ok _ _ _ _ _ (comp_run s v i b y p k Hs Hi (Hsub y ltac:(by left)) Hk)), bool_decide_false by congruence. cbn [bool_int negb Z.eqb].
    assert (Hnn : (first_entry (c ++ x :: b2) =? NULL) = false).
    { destruct c as [|z c]; cbn [app first_entry]; apply (entry_nonnull s v i b); try done; apply Hsub; right; by left. }
    rewrite Hnn. cbn [last_addr]. apply IH; [intros z Hz; apply Hsub; by right|done|cbn in Hn; lia|done|done].
Qed.
Lemma remove_loop_missing : forall c n q, c <> [] -> (forall y, y ∈ c -> y ∈ b) -> chain (st_entries s) c -> (length c < n)%nat -> k ∉ e_key <$> c ->
  remove_loop n (the_map v) p q (first_entry c) ~{ s }~> NULL; s.
Proof.
  induction c as [|y c IH]; intros [|n] q Hne Hsub Hc Hn Hk1; try (cbn in Hn; lia); [done|]. cbn [first_entry remove_loop fmap list_fmap] in *. destruct Hc as [Hy Hc].
  apply not_elem_of_cons in Hk1 as [Hky Hk1]. rewrite (bind_ok _ _ _ _ _ (entry_at_run _ _ _ Hy)). fields.
  rewrite (bind_ok _ _ _ _ _ (comp_run s v i b y p k Hs Hi (Hsub y ltac:(by left)) Hk)), bool_decide_false by congruence. cbn [bool_int negb Z.eqb].
  destruct c as [|z c]; [done|]. cbn [first_entry]. rewrite (entry_nonnull s v i b z) by (try done; apply Hsub; right; by left).
  apply IH; [done|intros u Hu; apply Hsub; by right|done|cbn in Hn |- *; lia|done].
Qed.
End Removing.

Lemma last_entry_snoc (q : Z) (b : list (ent K)) z : last_addr q (b ++ [z]) = e_addr z.
Proof. revert q. induction b as [|y b IH]; intros q; [done|]. apply IH. Qed.
Lemma remove_repr s v k b1 x b2 hl' N' T' : repr s v -> v_buckets v !! place (zlen (v_buckets v)) k = Some (b1 ++ x :: b2) -> e_key x = k ->
  HeapList.repr hl' (HeapList.View (lists v) (delete (e_addr x) (blocks v)) (HeapList.v_room (v_hl v))) ->
  T' !! v_table v = Some (first_entry <$> <[place (zlen (v_buckets v)) k := b1 ++ b2]> (v_buckets v)) ->
  chain N' (b1 ++ b2) -> (forall c, c ∉ e_addr <$> (b1 ++ x :: b2) -> N' !! c = st_entries s !! c) ->
  let v' := View (v_mem v) (v_map v) (v_table v) (<[place (zlen (v_buckets v)) k := b1 ++ b2]> (v_buckets v)) (HeapList.View (lists v) (delete (e_addr x) (blocks v)) (HeapList.v_room (v_hl v))) in
  repr (MkState hl' N' T' (st_maps s) (st_mem s)) v' /\ after v (delete k (content (v_buckets v))) v'.
Proof.
  intros Hs Hi Hx Hhl Ht Hc Hframe. set (i := place _ k) in *. cbn zeta. pose proof Hs as [R1 R2 R3 R4 R5 R6 R7 Rn R8 [R9 [R10 R11]] R12].
  destruct (R3 i _ Hi) as [_ Hnd]. destruct (addr_middle _ _ _ Hnd) as (H1' & H2' & Hnd').
  pose proof (p_keys _ R5 i _ Hi) as Hkeys. assert (Hp : e_key <$> b1 ++ x :: b2 ≡ₚ e_key x :: (e_key <$> b1 ++ b2)) by (by rewrite <- Permutation_middle).
  rewrite Hp, Hx in Hkeys. apply NoDup_cons in Hkeys as [Hk Hkeys].
  assert (Hin : forall c, c ∈ e_addr <$> (b1 ++ b2) -> c <> e_addr x /\ c ∈ e_addr <$> (b1 ++ x :: b2)).
  { intros c. rewrite !fmap_app, !elem_of_app. cbn [fmap list_fmap]. rewrite elem_of_cons. intros [Hc'|Hc']; split; auto. }
  assert (Hrepr : repr (MkState hl' N' T' (st_maps s) (st_mem s)) (View (v_mem v) (v_map v) (v_table v) (<[i := b1 ++ b2]> (v_buckets v))
    (HeapList.View (lists v) (delete (e_addr x) (blocks v)) (HeapList.v_room (v_hl v))))).
  { apply (repr_bucket s v i (b1 ++ x :: b2)); fields; try done.
    - rewrite Hframe; [done|by apply (null_not_here s v i _ Hs Hi)].
    - intros z Hz. assert (Hz' : z ∈ b1 ++ x :: b2) by (apply elem_of_app in Hz; apply elem_of_app; rewrite elem_of_cons; tauto).
      split; [by apply (R6 i (b1 ++ x :: b2))|by apply (p_place _ R5 i (b1 ++ x :: b2))].
    - intros c Hc'. destruct (Hin c Hc') as [Hne Hold]. rewrite lookup_delete_ne by done. split; [apply R11; by exists i, (b1 ++ x :: b2)|by left].
    - intros c Hcn _. assert (e_addr x <> c) by (intros <-; apply Hcn; rewrite fmap_app; apply elem_of_app; right; by left).
      rewrite lookup_delete_ne by done. split; [done|by apply Hframe]. }
  split; [exact Hrepr|]. pose proof (ha_cost_law (X := X) ENTRY_SIZE ltac:(done)). split; fields; try done; [|unfold zlen; by rewrite length_insert|lia].
  apply (content_change (v_buckets v) i (b1 ++ x :: b2) _ k None); [done|apply (r_placed _ _ Hrepr)|done|done|by apply in_bucket_none|].
  intros k' Hk'. rewrite !in_bucket_app. destruct (in_bucket k' b1); [done|]. unfold in_bucket. cbn. by rewrite bool_decide_false by congruence.
Qed.

Lemma remove_head s v p k x b2 y : repr s v -> v_buckets v !! place (zlen (v_buckets v)) k = Some (x :: b2) -> e_key x = k -> y = MkEntry (e_ptr x) (e_val x) (first_entry b2) ->
  hk_is (v_mem v) p k ->
  runs s (drop_entry (the_map v) (e_addr x) y (set_slot (v_table v) (Z.of_nat (place (zlen (v_buckets v)) k)) (first_entry b2))) v (delete k (content (v_buckets v))) (e_val x).
Proof.
  intros Hs Hi Hx -> Hk. right. set (i := place _ k) in *. destruct (r_chains _ _ Hs i _ Hi) as [Hc Hnd].
  assert (Hst := set_slot_run s v i _ (first_entry b2) (st_entries s) Hs Hi). replace (s <| st_entries := st_entries s |>) with s in Hst by (by destruct s).
  destruct (drop_entry_run s v (e_addr x) (MkEntry (e_ptr x) (e_val x) (first_entry b2)) _ _ _ Hs ltac:(exists i, (x :: b2); split; [done|by left]) Hst) as (hl' & Hrun & Hhl).
  eexists _, _. split; [exact Hrun|]. apply (remove_repr s v k [] x b2 hl'); try done.
  - fold i. by rewrite lookup_insert_eq, list_fmap_insert.
  - by apply chain_behead.
  - intros c Hc'. rewrite lookup_delete_ne; [done|]. intros <-. apply Hc'. by left.
Qed.
Lemma remove_behind s v k b0 z x b2 : repr s v -> v_buckets v !! place (zlen (v_buckets v)) k = Some (b0 ++ z :: x :: b2) -> e_key x = k ->
  runs s (drop_entry (the_map v) (e_addr x) (MkEntry (e_ptr x) (e_val x) (first_entry b2)) (upd_entry (e_addr z) (fun y => y <| next := first_entry b2 |>)))
    v (delete k (content (v_buckets v))) (e_val x).
Proof.
  intros Hs Hi Hx. right. set (i := place _ k) in *. destruct (r_chains _ _ Hs i _ Hi) as [Hc Hnd]. destruct (chain_app _ _ _ _ Hc) as [Hz _].
  assert (Hup := upd_entry_run s (e_addr z) _ (fun y => y <| next := first_entry b2 |>) Hz).
  assert (Hin : forall c, c = e_addr z \/ c = e_addr x -> c ∈ e_addr <$> (b0 ++ z :: x :: b2)).
  { intros c Hc'. rewrite fmap_app. apply elem_of_app. right. cbn [fmap list_fmap]. rewrite !elem_of_cons. tauto. }
  destruct (drop_entry_run s v (e_addr x) (MkEntry (e_ptr x) (e_val x) (first_entry b2)) _ _ _ Hs ltac:(exists i, (b0 ++ z :: x :: b2); split; [done|by apply Hin; right]) Hup) as (hl' & Hrun & Hhl).
  eexists _, _. split; [exact Hrun|]. assert (Happ : b0 ++ z :: x :: b2 = (b0 ++ [z]) ++ x :: b2) by (by rewrite <- app_assoc).
  apply (remove_repr s v k (b0 ++ [z]) x b2 hl'); try done; fields.
  - fold i. by rewrite <- Happ.
  - rewrite (r_table _ _ Hs). f_equal. fold i. rewrite list_fmap_insert. replace (first_entry ((b0 ++ [z]) ++ b2)) with (first_entry (b0 ++ z :: x :: b2)) by (by destruct b0).
    rewrite list_insert_id; [done|]. by rewrite list_lookup_fmap, Hi.
  - rewrite <- app_assoc. by apply chain_unlink.
  - rewrite <- Happ. intros c Hc'. rewrite lookup_delete_ne, lookup_insert_ne; [done|..]; intros <-; apply Hc', Hin; [by left|by right].
Qed.

(** The number of entries in the bucket of a key. *)
Definition neighbours (bs : list (list (ent K))) (k : K) : nat := match bs !! place (zlen bs) k with Some b => length b | None => 0%nat end.
Lemma hashmap_remove_run s v p k : repr s v -> hk_is (v_mem v) p k ->
  match content (v_buckets v) !! k with
  | Some u => runs s (hashmap_remove (v_map v) p) v (delete k (content (v_buckets v))) u
  | None => if decide (neighbours (v_buckets v) k = 1%nat) then hashmap_remove (v_map v) p ~{ s }~>! FPtr NULL
            else hashmap_remove (v_map v) p ~{ s }~> NULL; s
  end.
Proof.
  intros Hs Hk. destruct (place_bucket s v k Hs) as [b Hb]. unfold runs, hashmap_remove, neighbours.
  erewrite (bind_ok (map_at _)) by (apply getsome_ok, Hs). rewrite (bind_ok _ _ _ _ _ (bucket_of_run s v p k Hs Hk)). fields.
  rewrite (bind_ok _ _ _ _ _ (slot_at_run s v _ b Hs Hb)). rewrite content_lookup, Hb by apply Hs. cbn [fmap option_fmap option_map default].
  set (i := place _ k) in *. destruct (r_chains _ _ Hs _ b Hb) as [Hc Hnd]. destruct b as [|y c]; [done|]. cbn [first_entry].
  rewrite (entry_nonnull s v _ _ y Hs Hb) by (by left). pose proof Hc as [Hy Hc']. rewrite (bind_ok _ _ _ _ _ (entry_at_run _ _ _ Hy)). fields.
  rewrite (bind_ok _ _ _ _ _ (comp_run s v _ _ y p k Hs Hb ltac:(by left) Hk)). unfold in_bucket at 1. cbn [List.find].
  pose proof (rounds_enough s v _ _ Hs Hb) as Hf. cbn [length] in Hf. case_bool_decide as E; cbn [bool_int negb Z.eqb].
  - cbn [fmap option_fmap option_map]. by apply (remove_head s v p k y c).
  - fold (in_bucket k c). erewrite (bind_ok rounds) by reflexivity. assert (Hsub : forall z, z ∈ c -> z ∈ y :: c) by (intros z Hz; by right).
    destruct (in_bucket k c) as [u|] eqn:Ec.
    + destruct (in_bucket_split _ _ _ Ec) as (c1 & x & c2 & -> & Hx & Hu & Hk1). rewrite <- Hu.
      rewrite (remove_loop_found s v _ _ p k Hs Hb Hk x c2 c1 _ (e_addr y) Hsub Hc') by (try done; lia).
      destruct c1 as [|z c1 _] using rev_ind; [by apply (remove_behind s v k [] y x c2)|]. rewrite last_entry_snoc, <- app_assoc in *. by apply (remove_behind s v k (y :: c1) z x c2).
    + destruct c as [|z c]; [rewrite decide_True by done; cbn [remove_loop first_entry]|rewrite decide_False by (cbn; lia)].
      * apply bind_err. unfold entry_at, getsome. by rewrite (r_null _ _ Hs).
      * apply (remove_loop_missing s v _ _ p k Hs Hb Hk (z :: c)); try done; [lia|by apply in_bucket_none].
Qed.

(** *** Sessions

    What the operations do to the map from keys to values: [None] is the access
    through a null pointer when a key is removed that is not there and exactly one
    other key lies in its bucket. An operation gets a pointer to its key. *)
Inductive op : Type :=
| MSet (k : K) (p w : Z) | MGet (k : K) (p : Z) | MHas (k : K) (p : Z) | MRemove (k : K) (p : Z) | MEmpty.
Definition collisions (n : Z) (m : gmap K Z) (k : K) : nat := length (filter (fun x => place n x.1 = place n k) (map_to_list m)).
Definition abs_op (n : Z) (o : op) (m : gmap K Z) : option (Z * gmap K Z) :=
  match o with
  | MSet k _ w => Some (default NULL (m !! k), <[k := w]> m)
  | MGet k _ => Some (default NULL (m !! k), m)
  | MHas k _ => Some (match m !! k with Some _ => 1 | None => 0 end, m)
  | MRemove k _ => match m !! k with
                   | Some u => Some (u, delete k m)
                   | None => if decide (collisions n m k = 1%nat) then None else Some (NULL, m)
                   end
  | MEmpty => Some (if decide (m = ∅) then 1 else 0, m)
  end.
Fixpoint abs_run (n : Z) (os : list op) (m : gmap K Z) : option (list Z * gmap K Z) :=
  match os with
  | [] => Some ([], m)
  | o :: os => match abs_op n o m with
               | None => None
               | Some (r, m) => match abs_run n os m with None => None | Some (rs, m) => Some (r :: rs, m) end
               end
  end.
Definition op_key (mm : mem) (o : op) : Prop :=
  match o with MSet k p _ | MGet k p | MHas k p | MRemove k p => hk_is mm p k | MEmpty => True end.
Definition do_op (h : Z) (o : op) : M (state X) Z :=
  match o with
  | MSet _ p w => hashmap_set h p w
  | MGet _ p => hashmap_get h p
  | MHas _ p => hashmap_has h p
  | MRemove _ p => hashmap_remove h p
  | MEmpty => hashmap_is_empty h
  end.
Fixpoint session (h : Z) (os : list op) : M (state X) (list Z) :=
  match os with [] => mret [] | o :: os => r ← do_op h o; rs ← session h os; mret (r :: rs) end.

(** The entries of a bucket are the keys of the map that hash to it. *)
Lemma filter_bucket n i (bs : list (list (ent K))) : forall j, (forall i b x, bs !! i = Some b -> x ∈ b -> place n (e_key x) = (j + i)%nat) ->
  filter (fun x => place n (e_key x) = i) (concat bs) = if decide (j <= i)%nat then default [] (bs !! (i - j)%nat) else [].
Proof.
  induction bs as [|b bs IH]; intros j Hp; [by case_decide|]. cbn [concat]. rewrite filter_app, (IH (Datatypes.S j)).
  2:{ intros i' b' x Hi Hx. rewrite (Hp (Datatypes.S i') b' x Hi Hx). lia. }
  assert (Hb : forall x, x ∈ b -> place n (e_key x) = j) by (intros x Hx; rewrite (Hp 0%nat b x eq_refl Hx); lia).
  destruct (decide (j = i)) as [-> |Hne].
  - rewrite (decide_False (P := (Datatypes.S i <= i)%nat)) by lia. rewrite decide_True by lia. replace (i - i)%nat with 0%nat by lia. cbn [lookup list_lookup default].
    rewrite app_nil_r. assert (Hall : Forall (fun x => place n (e_key x) = i) b) by (by apply Forall_forall).
    clear -Hall. induction Hall as [|x b Hx _ IH]; [done|]. by rewrite filter_cons, decide_True, IH.
  - assert (Hnone : filter (fun x => place n (e_key x) = i) b = []).
    { assert (Hall : Forall (fun x => place n (e_key x) <> i) b) by (apply Forall_forall; intros x Hx E; apply Hne; rewrite <- E; symmetry; by apply Hb).
      clear -Hall. induction Hall as [|x b Hx _ IH]; [done|]. by rewrite filter_cons, decide_False. }
    rewrite Hnone. cbn [app]. repeat case_decide; try lia; [|done]. by replace (i - j)%nat with (Datatypes.S (i - Datatypes.S j)) by lia.
Qed.
Lemma filter_pairs_length n i (l : list (ent K)) :
  length (filter (fun y => place n y.1 = i) ((fun x => (e_key x, e_val x)) <$> l)) = length (filter (fun x => place n (e_key x) = i) l).
Proof. induction l as [|x l IH]; [done|]. rewrite fmap_cons, !filter_cons. cbn [fst]. case_decide; cbn [length]; by rewrite IH. Qed.
Lemma neighbours_collisions (bs : list (list (ent K))) k : placed bs -> neighbours bs k = collisions (zlen bs) (content bs) k.
Proof.
  intros [Hn Hp Hk]. unfold collisions, content. assert (Hnd : NoDup ((fun x => (e_key x, e_val x)) <$> concat bs).*1).
  { rewrite <- list_fmap_compose. unfold compose. cbn. apply (concat_keys (zlen bs) bs 0); [|done]. intros i b x Hi Hx. by rewrite (Hp i b x Hi Hx). }
  rewrite (map_to_list_to_map _ Hnd). rewrite filter_pairs_length.
  assert (Hf := filter_bucket (zlen bs) (place (zlen bs) k) bs 0 ltac:(intros i b x Hi Hx; by rewrite (Hp i b x Hi Hx))).
  rewrite Hf, decide_True by lia. rewrite Nat.sub_0_r. unfold neighbours. by destruct (bs !! place (zlen bs) k).
Qed.

Lemma is_empty_run s v : repr s v -> hashmap_is_empty (v_map v) ~{ s }~> (if decide (content (v_buckets v) = ∅) then 1 else 0); s.
Proof.
  intros Hs. unfold hashmap_is_empty. erewrite (bind_ok (map_at _)) by (apply getsome_ok, Hs). fields. unfold zlen. rewrite Nat2Z.id.
  assert (Hloop : forall n i, (n + i = length (v_buckets v))%nat ->
    is_empty_loop n (the_map v) (Z.of_nat i) ~{ s }~> (if decide (concat (drop i (v_buckets v)) = []) then 1 else 0); s).
  { induction n as [|n IH]; intros i Hni; [by rewrite drop_ge by lia|]. cbn [is_empty_loop].
    destruct (lookup_lt_is_Some_2 (v_buckets v) i ltac:(lia)) as [b Hb]. fields. rewrite (bind_ok _ _ _ _ _ (slot_at_run s v i b Hs Hb)).
    rewrite (drop_S _ _ _ Hb). cbn [concat]. destruct b as [|x b].
    - cbn [first_entry app]. change (negb (NULL =? NULL)) with false. cbn iota. replace (Z.of_nat i + 1) with (Z.of_nat (Datatypes.S i)) by lia. apply IH. lia.
    - cbn [first_entry]. by rewrite (entry_nonnull s v i _ x Hs Hb) by (by left). }
  assert (Hl := Hloop (length (v_buckets v)) 0%nat ltac:(lia)). rewrite drop_0 in Hl. refine (eq_trans Hl _). do 2 f_equal.
  assert (Hiff : concat (v_buckets v) = [] <-> content (v_buckets v) = ∅).
  { unfold content. split; [by intros ->|]. destruct (concat _) as [|e l]; [done|]. intros E%(f_equal (lookup (e_key e))). rewrite fmap_cons, list_to_map_cons, lookup_insert_eq in E. done. }
  repeat case_decide; tauto.
Qed.

Lemma do_op_run s v o : repr s v -> op_key (v_mem v) o -> cost ENTRY_SIZE <= HeapList.v_room (v_hl v) ->
  match abs_op (zlen (v_buckets v)) o (content (v_buckets v)) with
  | Some (r, m) => runs s (do_op (v_map v) o) v m r
  | None => do_op (v_map v) o ~{ s }~>! FPtr NULL
  end.
Proof.
  intros Hs Hk Hroom. destruct o as [k p w|k p|k p|k p|]; cbn [abs_op do_op op_key] in *.
  - by apply hashmap_set_run.
  - right. exists s, v. split; [|split; [done|apply after_same]]. unfold hashmap_get. rewrite (bind_ok _ _ _ _ _ (find_value_run s v p k Hs Hk)). by destruct (_ !! k).
  - right. exists s, v. split; [|split; [done|apply after_same]]. unfold hashmap_has. rewrite (bind_ok _ _ _ _ _ (find_value_run s v p k Hs Hk)). by destruct (_ !! k).
  - assert (Hrem := hashmap_remove_run s v p k Hs Hk). destruct (content (v_buckets v) !! k) as [u|]; [done|].
    rewrite <- neighbours_collisions by apply Hs. case_decide; [done|]. right. exists s, v. split; [done|]. split; [done|apply after_same].
  - right. exists s, v. split; [by apply is_empty_run|]. split; [done|apply after_same].
Qed.

(** Every session: what the map would do, or the access through null. *)
Lemma map_session_run st v os : repr st v -> Forall (op_key (v_mem v)) os -> Z.of_nat (length os) * cost ENTRY_SIZE <= HeapList.v_room (v_hl v) ->
  match abs_run (zlen (v_buckets v)) os (content (v_buckets v)) with
  | Some (rs, m) => session (v_map v) os ~{ st }~>! FFatal \/
      exists st' v', session (v_map v) os ~{ st }~> rs; st' /\ repr st' v' /\ content (v_buckets v') = m /\ lists v' = lists v
  | None => session (v_map v) os ~{ st }~>! FFatal \/ session (v_map v) os ~{ st }~>! FPtr NULL
  end.
Proof.
  pose proof (ha_cost_law (X := X) ENTRY_SIZE ltac:(done)) as Hcost. revert st v. induction os as [|o os IH]; intros st v Hs Hks Hroom.
  { right. by exists st, v. }
  apply Forall_cons in Hks as [Hk Hks]. cbn [length] in Hroom. rewrite Nat2Z.inj_succ, Z.mul_succ_l in Hroom.
  assert (Hop := do_op_run st v o Hs Hk ltac:(lia)). cbn [abs_run session]. destruct (abs_op _ o _) as [[r m]|]; [|right; by apply bind_err].
  destruct Hop as [Hf|(s1 & v1 & Hrun & Hs1 & [A1 A2 (A3 & A4 & A5) A6 A7])].
  { destruct (abs_run _ os m) as [[rs m']|]; left; by apply bind_err. }
  assert (IH' := IH s1 v1 Hs1). rewrite A1, A2, A3, A4, A6 in IH'. specialize (IH' Hks ltac:(lia)). rewrite (bind_ok _ _ _ _ _ Hrun).
  destruct (abs_run _ os m) as [[rs m']|].
  - destruct IH' as [Hf|(st' & v' & Hrun' & Hs' & Hc & Hl)]; [left; by apply bind_err|right]. exists st', v'. by rewrite (bind_ok _ _ _ _ _ Hrun').
  - destruct IH' as [Hf|Hf]; [left|right]; by apply bind_err.
Qed.

(** The sessions that set only keys that are not there: for a key that is there
    hashmap.h says that [hashmap_set] fails and gives the entry, the code replaces the
    value and gives the old one ([set_replaces]). *)
Fixpoint new_keys (os : list op) (m : gmap K Z) : bool :=
  match os with
  | [] => true
  | MSet k _ w :: os => bool_decide (m !! k = None) && new_keys os (<[k := w]> m)
  | MRemove k _ :: os => new_keys os (delete k m)
  | _ :: os => new_keys os m
  end.

(** C18: the hash map does what a finite map from keys to values does, for integer and
    string keys and any hash of them: in a session each call gives the result of the
    map, the value or null, and the map is held afterwards. The keys are where the
    operations point to, the heap has room for one entry for each operation, a key is
    only set when it is not there ([new_keys]), and none is removed that is not there
    while exactly one other key lies in its bucket, which ends with an access through
    null ([map_session_run], [remove_through_null]). *)
Theorem hashmap_refines st v os rs m : repr st v -> Forall (op_key (v_mem v)) os ->
  Z.of_nat (length os) * cost ENTRY_SIZE <= HeapList.v_room (v_hl v) ->
  abs_run (zlen (v_buckets v)) os (content (v_buckets v)) = Some (rs, m) -> new_keys os (content (v_buckets v)) = true ->
  session (v_map v) os ~{ st }~>! FFatal \/
  exists st' v', session (v_map v) os ~{ st }~> rs; st' /\ repr st' v' /\ content (v_buckets v') = m /\ lists v' = lists v.
Proof. intros Hs Hk Hroom Hrun _. pose proof (map_session_run st v os Hs Hk Hroom) as Hall. by rewrite Hrun in Hall. Qed.

(** *** Creating a map *)
Lemma on_heap_run {A} h nd ls N T Mp mm (m : M X A) a h' : m ~{ h }~> a; h' ->
  on_heap m ~{ MkState (HeapList.MkState h nd ls) N T Mp mm }~> a; MkState (HeapList.MkState h' nd ls) N T Mp mm.
Proof. intros Hm. unfold on_heap, on_lists, HeapList.on_heap, zoom. fields. by rewrite Hm. Qed.
Lemma upd_map_run hl N T Mp mm a x g : Mp !! a = Some x ->
  upd_map (X := X) a g ~{ MkState hl N T Mp mm }~> tt; MkState hl N T (<[a := g x]> Mp) mm.
Proof. intros Ha. unfold upd_map, map_at. by erewrite bind_ok by (by apply getsome_ok). Qed.
Lemma alloc_foreign h nd ls hv size m : HeapList.repr (HeapList.MkState (X := X) h nd ls) hv -> 0 < size < 65536 -> 0 <= m -> HeapList.v_room hv = cost size + m ->
  ha_alloc size ~{ h }~>! FFatal \/
  exists a h', ha_alloc size ~{ h }~> a; h' /\ 0 < a /\ HeapList.v_blocks hv !! a = None /\
    HeapList.repr (HeapList.MkState h' nd ls) (HeapList.View (HeapList.v_lists hv) (<[a := size]> (HeapList.v_blocks hv)) m).
Proof.
  intros Hl Hsize Hm Hroom. pose proof (HeapList.r_room _ _ Hl) as Hr. rewrite Hroom in Hr.
  destruct (ha_alloc_law h _ size m (HeapList.r_heap _ _ Hl) Hsize Hm Hr) as [Herr|(a & h' & Hrun & Hok & Hnew & Hroom')]; [by left|right].
  exists a, h'. split; [done|]. split; [eapply ha_positive; [exact Hok|apply lookup_insert_eq]|]. split; [done|by apply (HeapList.repr_other_alloc h)].
Qed.
Lemma empty_placed (n : Z) : 0 < n < 1073741824 -> placed (replicate (Z.to_nat n) ([] : list (ent K))).
Proof.
  intros Hn. split; [unfold zlen; rewrite length_replicate; lia|..].
  - intros i b x [-> _]%lookup_replicate Hx. by apply elem_of_nil in Hx.
  - intros i b [-> _]%lookup_replicate. constructor.
Qed.
Lemma empty_content n : content (replicate n ([] : list (ent K))) = ∅.
Proof. induction n as [|n IH]; [done|]. exact IH. Qed.

(** hashmap_create makes an empty map of [n] buckets in two new blocks of the heap; maps
    and lists that are there are as before. *)
Lemma hashmap_create_run hl hv N T Mp mm n : HeapList.repr hl hv -> N !! NULL = None -> 0 < 4 * n < 65536 ->
  cost MAP_SIZE + cost (4 * n) <= HeapList.v_room hv ->
  let create := hashmap_create n hk_hash_func hk_comp hashmap_do_not_duplicate hashmap_do_not_free in
  create ~{ MkState hl N T Mp mm }~>! FFatal \/
  exists m t st' (v' : view K), create ~{ MkState hl N T Mp mm }~> m; st' /\ repr st' v' /\ content (v_buckets v') = ∅ /\
    v_map v' = m /\ v_mem v' = mm /\ zlen (v_buckets v') = n /\ lists v' = HeapList.v_lists hv /\
    HeapList.v_blocks hv !! m = None /\ HeapList.v_blocks hv !! t = None /\ HeapList.v_room hv - cost MAP_SIZE - cost (4 * n) <= HeapList.v_room (v_hl v') /\
    st_entries st' = N /\ (forall a, a <> m -> st_maps st' !! a = Mp !! a) /\ (forall a, a <> t -> st_tables st' !! a = T !! a).
Proof.
  intros Hl Hnull Hn Hroom. cbn zeta. destruct hl as [h nd ls]. pose proof (ha_cost_law (X := X) (4 * n) ltac:(lia)) as Hc. unfold hashmap_create, __alloc_hashmap, __alloc_entries.
  assert (Hm1 : 0 <= HeapList.v_room hv - cost MAP_SIZE) by lia. assert (Hm2 : 0 <= HeapList.v_room hv - cost MAP_SIZE - cost (4 * n)) by lia.
  destruct (alloc_foreign h nd ls hv MAP_SIZE _ Hl ltac:(done) Hm1 ltac:(lia)) as [Herr|(m & h1 & Hrun1 & Hm & Hmn & Hl1)].
  { left. apply bind_err, bind_err. unfold on_heap, on_lists, HeapList.on_heap, zoom. fields. by rewrite Herr. }
  rewrite bind_assoc, (bind_ok _ _ _ _ _ (on_heap_run _ _ _ _ _ _ _ _ _ _ Hrun1)), (proj2 (Z.eqb_neq m NULL)) by (unfold NULL; lia).
  rewrite bind_assoc. erewrite (bind_ok (modify _)) by reflexivity. rewrite bind_ret_l. fields.
  erewrite (bind_ok (upd_map _ _)) by (apply upd_map_run, lookup_insert_eq). fields. rewrite (u32_small (4 * n)) by lia.
  destruct (alloc_foreign h1 nd ls _ (4 * n) _ Hl1 Hn Hm2) as [Herr|(t & h2 & Hrun2 & Ht & Htn & Hl2)]; [fields; lia|..].
  { left. apply bind_err, bind_err. unfold on_heap, on_lists, HeapList.on_heap, zoom. fields. by rewrite Herr. }
  right. rewrite bind_assoc, (bind_ok _ _ _ _ _ (on_heap_run _ _ _ _ _ _ _ _ _ _ Hrun2)), (proj2 (Z.eqb_neq t NULL)) by (unfold NULL; lia).
  rewrite bind_assoc. erewrite (bind_ok (modify _)) by reflexivity. rewrite bind_ret_l. fields.
  do 5 (erewrite (bind_ok (upd_map _ _)) by (apply upd_map_run, lookup_insert_eq); fields; rewrite ?insert_insert_eq).
  fields. cbn [HeapList.v_blocks HeapList.v_lists] in *. rewrite lookup_insert_None in Htn. destruct Htn as [Htn Htm]. replace (4 * n / 4) with n by dlia.
  pose proof (empty_placed n ltac:(lia)) as Hp. assert (Hz : zlen (replicate (Z.to_nat n) ([] : list (ent K))) = n) by (unfold zlen; rewrite length_replicate; lia).
  assert (Hno : forall a, ~ has_entry (replicate (Z.to_nat n) ([] : list (ent K))) a) by (intros a (i & b & [-> _]%lookup_replicate & []%elem_of_nil)).
  eexists m, t, _, (View mm m t (replicate (Z.to_nat n) []) (HeapList.View (HeapList.v_lists hv) (<[t := 4 * n]> (<[m := MAP_SIZE]> (HeapList.v_blocks hv))) (HeapList.v_room hv - cost MAP_SIZE - cost (4 * n)))).
  split; [reflexivity|]. split; [|split_and!; fields; try done; [apply empty_content|intros a Ha; by rewrite lookup_insert_ne|intros a Ha; by rewrite lookup_insert_ne]].
  split; fields; rewrite ?Hz; try done.
  - by rewrite lookup_insert_eq.
  - rewrite lookup_insert_eq. f_equal. clear. induction (Z.to_nat n) as [|k IH]; [done|]. cbn. by rewrite <- IH.
  - intros i b [-> _]%lookup_replicate. split; [done|constructor].
  - intros i b j c a [-> _]%lookup_replicate _ []%elem_of_nil.
  - intros i b x [-> _]%lookup_replicate []%elem_of_nil.
  - rewrite lookup_insert_eq. split; [done|]. split; [apply Hno|]. intros a Ha. by apply Hno in Ha.
  - intros a [-> |Ha]; [|by apply Hno in Ha]. destruct Hl as [Q1 _ Q3 _ _ _]. split.
    + destruct (HeapList.v_lists hv !! t) as [xs|] eqn:E; [|done]. destruct (Q1 t xs E). congruence.
    + intros l xs E Hin. destruct (Q3 l xs t E Hin). congruence.
Qed.
End Rules.

(** ** A concrete map

    As vfs_init makes it: ten buckets, keyed by the names of file systems. *)
#[local] Existing Instances Kheap.unlimited_mapper Kheap.kernel_heap_allocator.
Abbreviation kernel_heap := (Kheap.heap (gset Z)).
#[local] Instance name_keys : HashKeys (list Z) := str_keys 32.
Definition demo_mem : mem := CString.put_text 100 "ext2"%string (CString.put_text 110 "procfs"%string (CString.put_text 120 "fat"%string (CString.put_text 130 "zero"%string ∅))).
Definition demo_start : state kernel_heap := MkState HeapList.empty_state ∅ ∅ ∅ demo_mem.
Definition demo_create : M (state kernel_heap) Z := hashmap_create 10 hk_hash_func hk_comp hashmap_do_not_duplicate hashmap_do_not_free.
Definition H0 : Z := 3489660952.
Definition map_state : state kernel_heap := match demo_create demo_start with Ok (_, s) => s | Err _ => demo_start end.
Lemma map_ends : Kheap.result_of (demo_create demo_start) = Some H0.
Proof. vm_compute. reflexivity. Qed.
Lemma demo_keys p s : CString.check_cstr demo_mem p s = true -> (length s < 32)%nat -> hk_is demo_mem p s.
Proof. intros Hp Hs. split; [by apply CString.check_cstr_ok|done]. Qed.

(** The file systems are registered, looked up and unregistered by name. *)
Lemma map_view : exists v : view (list Z), repr map_state v /\ content (v_buckets v) = ∅ /\ v_map v = H0 /\ v_mem v = demo_mem /\ zlen (v_buckets v) = 10 /\
  900000 <= HeapList.v_room (v_hl v).
Proof.
  destruct (hashmap_create_run HeapList.empty_state HeapList.empty_view ∅ ∅ ∅ demo_mem 10 HeapList.empty_heap_repr) as
    [Hf|(m & t & st & v & Hrun & Hs & Hc & Hm & Hmm & Hz & Hl & _ & _ & Hr & _)]; [reflexivity|lia|vm_compute; congruence|..].
  - exfalso. pose proof map_ends as He. unfold demo_create, demo_start in He. rewrite Hf in He. discriminate He.
  - assert (Hd : demo_create demo_start = Ok (m, st)) by exact Hrun. pose proof map_ends as He. rewrite Hd in He. injection He as Hmh.
    exists v. unfold map_state. rewrite Hd. split; [exact Hs|]. split; [exact Hc|]. split; [congruence|]. split; [exact Hmm|].
    split; [exact Hz|]. etransitivity; [|exact Hr]. vm_compute. congruence.
Qed.
Definition ext2_name := CString.text "ext2".
Definition procfs_name := CString.text "procfs".
Definition fat_name := CString.text "fat".
Definition demo_ops : list (op (K := list Z)) :=
  [MEmpty; MSet ext2_name 100 1000; MSet procfs_name 110 2000; MGet procfs_name 110; MHas fat_name 120; MRemove ext2_name 100;
   MSet ext2_name 100 3000; MRemove procfs_name 110; MGet procfs_name 110; MGet ext2_name 100].
Lemma hashmap_refines_witness :
  exists st' v', session H0 demo_ops ~{ map_state }~> [1; 0; 0; 2000; 0; 1000; 0; 2000; 0; 3000]; st' /\ repr st' v' /\ content (v_buckets v') = {[ext2_name := 3000]}.
Proof.
  destruct map_view as (v & Hs & Hc & Hm & Hmm & Hz & Hr).
  assert (Hkeys : op_key demo_mem (MGet ext2_name 100) /\ op_key demo_mem (MGet procfs_name 110) /\ op_key demo_mem (MGet fat_name 120))
    by (split; [|split]; apply demo_keys; [vm_compute; reflexivity|vm_compute; lia..]).
  destruct Hkeys as (K1 & K2 & K3).
  assert (Href := hashmap_refines map_state v demo_ops [1; 0; 0; 2000; 0; 1000; 0; 2000; 0; 3000] {[ext2_name := 3000]} Hs). rewrite Hmm, Hc, Hm, Hz in Href.
  destruct Href as [Hf|(st' & v' & Hrun' & Hs' & Hc' & _)].
  - unfold demo_ops. repeat first [apply Forall_nil_2|apply Forall_cons_2]; first [exact K1|exact K2|exact K3|exact I].
  - etransitivity; [|exact Hr]. vm_compute. congruence.
  - vm_compute. reflexivity.
  - vm_compute. reflexivity.
  - exfalso. assert (He : Kheap.result_of (session H0 demo_ops map_state) = Some [1; 0; 0; 2000; 0; 1000; 0; 2000; 0; 3000]) by (vm_compute; reflexivity).
    rewrite Hf in He. discriminate He.
  - exists st', v'. split; [exact Hrun'|]. split; [exact Hs'|exact Hc'].
Defined.
(** The two cases that are left out. *)
Example set_replaces : Kheap.result_of (session H0 [MSet ext2_name 100 1000; MSet ext2_name 100 3000; MGet ext2_name 100] map_state) = Some [0; 1000; 3000].
Proof. vm_compute. reflexivity. Qed.
Example remove_through_null : session H0 [MSet ext2_name 100 1000; MRemove procfs_name 110] map_state = Err (FPtr NULL).
Proof. vm_compute. reflexivity. Qed.

(** ** More runs *)

(** The keys and the values come as lists on the heap; freeing a map leaves its own
    structure of 24 bytes, which nothing frees. *)
Definition two_names : M (state kernel_heap) unit := hashmap_set H0 100 1000 ;; hashmap_set H0 120 2000 ;; mret tt.
Example keys_and_values :
  Kheap.result_of ((two_names ;; k ← hashmap_keys H0; v ← hashmap_values H0;
    a ← on_lists (HeapList.session k [HeapList.OSize; HeapList.ORemoveIndex 1; HeapList.OPeekFront]);
    b ← on_lists (HeapList.session v [HeapList.OSize; HeapList.ORemoveIndex 1; HeapList.OPeekFront]); mret (a, b)) map_state) =
  Some ([2; 120; 100], [2; 2000; 1000]).
Proof. vm_compute. reflexivity. Qed.
Example map_left_behind :
  Kheap.result_of ((two_names ;; hashmap_free H0 ;; gets (fun s => (bool_decide (st_entries s = ∅), bool_decide (st_tables s = ∅), bool_decide (is_Some (st_maps s !! H0))))) map_state) =
  Some (true, true, true).
Proof. vm_compute. reflexivity. Qed.
End Hashmap.
