(* ===== verification/RingBuffer.v ===== *)
(** * Ring buffers (src/include/kernel/ring_buffer.h)

    The fixed-size ring buffer that DECLARE_FIXED_SIZE_RING_BUFFER declares, for a
    type int; the keyboard driver has one of 256 scan codes with the initial value
    -1. It holds one item less than it has places. *)

From S2P Require Import Prelude.

Module RingBuffer.
Open Scope Z_scope.

Record fs_rb_t := MkRb { rsize : Z; read : Z; write : Z; buffer : list Z }.
#[export] Instance eta_rb : Eta fs_rb_t := {| eta := fun r => MkRb (rsize r) (read r) (write r) (buffer r) |}.

(** ** Operations *)
Section Operations.
Variables (len init : Z).
Abbreviation E := (M fs_rb_t).

(** Each byte of the buffer is set to the lowest byte of the initial value. *)
Definition fs_rb_init : E unit :=
  modify (fun r => r <| rsize := len |>) ;;
  modify (fun r => r <| read := 0 |> <| write := 0 |>) ;;
  modify (fun r => r <| buffer := replicate (Z.to_nat len) (s32 (Z.land init 255 * 16843009)) |>).
Definition fs_rb_step (index : Z) : E Z := n ← gets rsize; mret (if index =? u32 (n - 1) then 0 else u32 (index + 1)).
Definition slot (i : Z) : E Z := b ← gets buffer; of_option (FBound i) (zlookup b i).
Definition set_slot (i x : Z) : E unit :=
  b ← gets buffer;
  match zlookup b i with Some _ => modify (fun r => r <| buffer := zinsert b i x |>) | None => fail (FBound i) end.
Definition fs_rb_push_front (item : Z) : E unit :=
  w ← gets write; r ← gets read;
  s ← fs_rb_step w;
  (if s =? r then s ← fs_rb_step r; modify (fun b => b <| read := s |>) else mret tt) ;;
  set_slot w item ;;
  s ← fs_rb_step w;
  modify (fun b => b <| write := s |>).
Definition fs_rb_empty : E Z := w ← gets write; r ← gets read; mret (bool_int (w =? r)).
Definition fs_rb_pop_back : E Z :=
  e ← fs_rb_empty;
  if negb (negb (e =? 0)) then
    r ← gets read; item ← slot r; s ← fs_rb_step r; modify (fun b => b <| read := s |>) ;; mret item
  else mret init.
Definition before (w : Z) : E Z := n ← gets rsize; mret (if 0 <? w then w - 1 else u32 (n - 1)).
Definition fs_rb_pop_front : E Z :=
  e ← fs_rb_empty;
  if negb (e =? 0) then mret init
  else w ← gets write; p ← before w; modify (fun b => b <| write := p |>) ;; slot p.
Definition fs_rb_get (index : Z) : E Z := n ← gets rsize; if index <? n then slot index else mret init.
Definition fs_rb_back : E Z := e ← fs_rb_empty; if negb (e =? 0) then mret init else r ← gets read; slot r.
Definition fs_rb_front : E Z := e ← fs_rb_empty; if negb (e =? 0) then mret init else w ← gets write; p ← before w; slot p.

(** ** The queue in a buffer *)
Record rb_ok (r : fs_rb_t) : Prop := {
  ok_size : 0 < rsize r < 4294967296;
  ok_buffer : Z.of_nat (length (buffer r)) = rsize r;
  ok_read : 0 <= read r < rsize r;
  ok_write : 0 <= write r < rsize r
}.
Definition count (r : fs_rb_t) : Z := (write r - read r) mod rsize r.
Definition place (r : fs_rb_t) (k : Z) : Z := (read r + k) mod rsize r.
Definition item (r : fs_rb_t) (k : Z) : Z := default 0 (zlookup (buffer r) (place r k)).
(** From the oldest item to the newest. *)
Definition queue (r : fs_rb_t) : list Z := item r <$> seqZ 0 (count r).

Lemma next_mod n i : 0 < n < 4294967296 -> 0 <= i < n -> (if i =? u32 (n - 1) then 0 else u32 (i + 1)) = (i + 1) mod n.
Proof.
  intros Hn Hi. rewrite u32_small by lia. destruct (Z.eqb_spec i (n - 1)) as [->|].
  - replace (n - 1 + 1) with n by lia. by rewrite Z_mod_same_full.
  - rewrite u32_small, Z.mod_small by lia. done.
Qed.
Lemma before_mod n w : 0 < n < 4294967296 -> 0 <= w < n -> (if 0 <? w then w - 1 else u32 (n - 1)) = (w - 1) mod n.
Proof.
  intros Hn Hw. destruct (Z.ltb_spec 0 w); [by rewrite Z.mod_small by lia|]. replace w with 0 by lia. rewrite u32_small by lia.
  apply (Z.mod_unique _ _ (-1)); lia.
Qed.
Lemma step_run r i : rb_ok r -> 0 <= i < rsize r -> fs_rb_step i ~{ r }~> (i + 1) mod rsize r; r.
Proof. intros [Hn _ _ _] Hi. unfold fs_rb_step. erewrite (bind_ok (gets _)) by reflexivity. by rewrite next_mod. Qed.
Lemma slot_run r k : rb_ok r -> slot (place r k) ~{ r }~> item r k; r.
Proof.
  intros [Hn Hb Hr Hw]. unfold slot, item. erewrite (bind_ok (gets _)) by reflexivity.
  destruct (zlookup_some (buffer r) (place r k)) as [x Hx]; [|by rewrite Hx]. unfold place. pose proof (Z.mod_pos_bound (read r + k) (rsize r)). lia.
Qed.
Lemma rb_count_range r : rb_ok r -> 0 <= count r < rsize r.
Proof. intros [Hn _ _ _]. unfold count. apply Z.mod_pos_bound. lia. Qed.
Lemma write_place r : rb_ok r -> place r (count r) = write r.
Proof. intros [Hn _ _ Hw]. unfold place, count. rewrite Zplus_mod_idemp_r. replace (read r + (write r - read r)) with (write r) by lia. by apply Z.mod_small. Qed.
Lemma rb_empty_run r : rb_ok r -> fs_rb_empty ~{ r }~> bool_int (count r =? 0); r.
Proof.
  intros [Hn _ Hr Hw]. unfold fs_rb_empty. do 2 erewrite (bind_ok (gets _)) by reflexivity. unfold mret, M_ret. do 3 f_equal.
  unfold count. destruct (Z.eqb_spec (write r) (read r)) as [->|Hne]; [by rewrite Z.sub_diag|]. symmetry. apply Z.eqb_neq. intros E.
  apply Hne. apply Z.mod_divide in E as [q Hq]; [|lia]. assert (q = 0) by nia. lia.
Qed.
Lemma queue_length r : rb_ok r -> Z.of_nat (length (queue r)) = count r.
Proof. intros Hok. pose proof (rb_count_range r Hok). unfold queue. rewrite length_fmap, length_seqZ. lia. Qed.

Lemma queue_empty r : rb_ok r -> count r = 0 -> queue r = [].
Proof. intros Hok Hz. pose proof (queue_length r Hok). apply nil_length_inv. lia. Qed.

(** *** The operations *)
Lemma set_write r x : rb_ok r -> set_slot (write r) x ~{ r }~> tt; r <| buffer := zinsert (buffer r) (write r) x |>.
Proof.
  intros [Hn Hb Hr Hw]. unfold set_slot. erewrite (bind_ok (gets _)) by reflexivity.
  destruct (zlookup_some (buffer r) (write r)) as [y Hy]; [lia|]. by rewrite Hy.
Qed.
Lemma place_inj r j k : rb_ok r -> 0 <= j < rsize r -> 0 <= k < rsize r -> place r j = place r k -> j = k.
Proof.
  intros [Hn _ _ _] Hj Hk E. unfold place in E. assert (Hd : ((read r + j) - (read r + k)) mod rsize r = 0).
  { rewrite Zminus_mod, E, Z.sub_diag. by apply Z.mod_0_l; lia. }
  apply Z.mod_divide in Hd as [q Hq]; [|lia]. assert (q = 0) by nia. lia.
Qed.
(** The item that is stored at the place behind the newest one. *)
Lemma item_stored r r' x k : rb_ok r -> rsize r' = rsize r -> read r' = read r -> buffer r' = zinsert (buffer r) (write r) x -> 0 <= k < rsize r ->
  item r' k = if decide (k = count r) then x else item r k.
Proof.
  intros Hok Hn Hr Hb Hk. pose proof (rb_count_range r Hok) as Hc. unfold item. assert (Hp : place r' k = place r k) by (unfold place; by rewrite Hn, Hr).
  rewrite Hp, Hb, <- (write_place r Hok). case_decide as E.
  - subst k. rewrite zlookup_zinsert_eq; [done|]. rewrite (write_place r Hok). destruct Hok. lia.
  - rewrite zlookup_zinsert_ne; [done|]. intros Hpl. apply E. apply (place_inj r); auto; lia.
Qed.
Lemma next_count r : rb_ok r -> count r < rsize r - 1 -> ((write r + 1) mod rsize r - read r) mod rsize r = count r + 1.
Proof.
  intros Hok Hc. pose proof (rb_count_range r Hok). rewrite Zminus_mod_idemp_l. replace (write r + 1 - read r) with ((write r - read r) + 1) by lia.
  rewrite <- Zplus_mod_idemp_l. fold (count r). apply Z.mod_small. lia.
Qed.
(** Storing at the place to write and moving on. *)
Definition store (x : Z) : E unit := w ← gets write; set_slot w x ;; s ← fs_rb_step w; modify (fun b => b <| write := s |>).
Lemma rb_store_run r x : rb_ok r -> count r < rsize r - 1 ->
  exists r', store x ~{ r }~> tt; r' /\ rb_ok r' /\ rsize r' = rsize r /\ queue r' = queue r ++ [x].
Proof.
  intros Hok Hc. pose proof (rb_count_range r Hok) as Hcr. pose proof Hok as [Hn Hb Hr Hw]. pose proof (Z.mod_pos_bound (write r + 1) (rsize r) ltac:(lia)) as Hm.
  unfold store. erewrite (bind_ok (gets _)) by reflexivity.
  rewrite (bind_ok _ _ _ _ _ (set_write r x Hok)). set (r1 := r <| buffer := zinsert (buffer r) (write r) x |>).
  assert (Hok1 : rb_ok r1) by (split; try done; unfold r1; simpl; by rewrite zinsert_length). rewrite (bind_ok _ _ _ _ _ (step_run r1 (write r) Hok1 Hw)).
  exists (r1 <| write := (write r + 1) mod rsize r |>). split; [done|]. split; [by split; try done; apply Hok1|]. split; [done|].
  unfold queue. change (count (r1 <| write := _ |>)) with (((write r + 1) mod rsize r - read r) mod rsize r). rewrite next_count by done.
  rewrite seqZ_app, (seqZ_cons (0 + count r) 1), (seqZ_nil _ (Z.pred 1)), Z.add_0_l by lia. rewrite fmap_app. cbn [fmap list_fmap]. f_equal.
  - apply list_fmap_ext. intros i k Hk. apply lookup_seqZ in Hk as [-> Hi]. rewrite (item_stored r _ x) by (done || lia). by rewrite decide_False by lia.
  - f_equal. rewrite (item_stored r _ x) by (done || lia). by rewrite decide_True by lia.
Qed.
(** A full buffer gives up the oldest item. *)
Lemma drop_oldest r : rb_ok r -> 0 < count r -> let r' := r <| read := (read r + 1) mod rsize r |> in
  rb_ok r' /\ count r' = count r - 1 /\ queue r = item r 0 :: queue r'.
Proof.
  intros Hok Hc r'. pose proof (rb_count_range r Hok) as Hcr. pose proof Hok as [Hn Hb Hr Hw].
  assert (Hcount : count r' = count r - 1).
  { unfold r', count. simpl. rewrite Zminus_mod_idemp_r. replace (write r - (read r + 1)) with ((write r - read r) - 1) by lia.
    rewrite <- Zminus_mod_idemp_l. fold (count r). apply Z.mod_small. lia. }
  split; [split; try done; unfold r'; simpl; apply Z.mod_pos_bound; lia|]. split; [done|]. unfold queue. rewrite Hcount.
  rewrite (seqZ_cons 0) by lia. cbn [fmap list_fmap]. f_equal. rewrite <- Z.sub_1_r, <- (fmap_add_seqZ 1 0). rewrite <- list_fmap_compose.
  apply list_fmap_ext. intros i k _. unfold compose, item, r', place. simpl. rewrite Zplus_mod_idemp_l. by replace (read r + 1 + k) with (read r + (1 + k)) by lia.
Qed.

(** What each operation does to the queue. *)
Definition room_for (n : Z) (q : list Z) : list Z := drop (length q - Z.to_nat (n - 1)) q.
Lemma push_run r x : rb_ok r -> exists r', fs_rb_push_front x ~{ r }~> tt; r' /\ rb_ok r' /\ rsize r' = rsize r /\ queue r' = room_for (rsize r) (queue r ++ [x]).
Proof.
  intros Hok. pose proof (rb_count_range r Hok) as Hcr. pose proof Hok as [Hn Hb Hr Hw]. pose proof (queue_length r Hok) as Hlen.
  assert (Hlen' : Z.of_nat (length (queue r ++ [x])) = count r + 1) by (rewrite length_app; cbn [length]; lia).
  unfold fs_rb_push_front. do 2 erewrite (bind_ok (gets _)) by reflexivity. rewrite (bind_ok _ _ _ _ _ (step_run r (write r) Hok Hw)). unfold room_for.
  destruct (decide (count r < rsize r - 1)) as [Hc|Hc].
  - pose proof (next_count r Hok Hc) as Hnext. rewrite (proj2 (Z.eqb_neq _ _)) by (intros E; rewrite E, Z.sub_diag, Z.mod_0_l in Hnext; lia). rewrite bind_ret_l.
    destruct (rb_store_run r x Hok Hc) as (r' & Hrun & Hok' & Hn' & Hq). exists r'. unfold store in Hrun. erewrite (bind_ok (gets _)) in Hrun by reflexivity.
    rewrite Hrun. split; [done|]. split; [done|]. split; [done|]. rewrite Hq. replace (_ - _)%nat with 0%nat by lia. done.
  - assert (Hfull : (write r + 1) mod rsize r = read r).
    { rewrite <- (write_place r Hok). unfold place. rewrite Zplus_mod_idemp_l. replace (read r + count r + 1) with (read r + 1 * rsize r) by lia.
      rewrite Z_mod_plus_full. by apply Z.mod_small. }
    rewrite Hfull, Z.eqb_refl, bind_assoc, (bind_ok _ _ _ _ _ (step_run r (read r) Hok Hr)). erewrite (bind_ok (modify _)) by reflexivity.
    set (r0 := r <| read := (read r + 1) mod rsize r |>). replace (_ - _)%nat with 1%nat by lia.
    destruct (decide (count r = 0)) as [Hz|Hz].
    + assert (Hone : rsize r = 1) by lia. assert (Hw0 : write r = 0) by lia. assert (Hr0 : read r = 0) by lia.
      assert (Hok0 : rb_ok r0) by (split; try done; unfold r0; simpl; rewrite Hone, Z.mod_1_r; lia).
      change (write r) with (write r0). rewrite (bind_ok _ _ _ _ _ (set_write r0 x Hok0)).
      assert (Hok1 : rb_ok (r0 <| buffer := zinsert (buffer r0) (write r0) x |>)) by (destruct Hok0; split; try done; simpl; by rewrite zinsert_length).
      rewrite (bind_ok _ _ _ _ _ (step_run _ (write r0) Hok1 Hw)).
      set (r1 := r0 <| buffer := _ |>) in *. exists (r1 <| write := (write r0 + 1) mod rsize r1 |>).
      assert (Hok2 : rb_ok (r1 <| write := (write r0 + 1) mod rsize r1 |>)).
      { destruct Hok1 as [O1 O2 O3 O4]. split; try done. change (0 <= (write r0 + 1) mod rsize r < rsize r). apply Z.mod_pos_bound. lia. }
      split; [reflexivity|]. split; [done|]. split; [done|]. rewrite (queue_empty r Hok Hz), (queue_empty _ Hok2); [done|].
      pose proof (rb_count_range _ Hok2) as Hc2. change (rsize (r1 <| write := _ |>)) with (rsize r) in Hc2. lia.
    + destruct (drop_oldest r Hok ltac:(lia)) as (Hok0 & Hc0 & Hq0). fold r0 in Hok0, Hc0, Hq0.
      destruct (rb_store_run r0 x Hok0) as (r' & Hrun & Hok' & Hn' & Hq); [rewrite Hc0; simpl; lia|]. exists r'. unfold store in Hrun. erewrite (bind_ok (gets _)) in Hrun by reflexivity.
      change (write r0) with (write r) in Hrun. rewrite Hrun. split; [done|]. split; [done|]. split; [done|]. rewrite Hq, Hq0. done.
Qed.
Lemma pop_back_run r : rb_ok r -> exists r', fs_rb_pop_back ~{ r }~> hd init (queue r); r' /\ rb_ok r' /\ rsize r' = rsize r /\ queue r' = tl (queue r).
Proof.
  intros Hok. pose proof (rb_count_range r Hok) as Hcr. pose proof (queue_length r Hok) as Hlen. unfold fs_rb_pop_back. rewrite (bind_ok _ _ _ _ _ (rb_empty_run r Hok)).
  destruct (Z.eqb_spec (count r) 0) as [Hz|Hz]; cbn [bool_int negb Z.eqb].
  - assert (Hq : queue r = []) by (apply nil_length_inv; lia). rewrite Hq. by exists r.
  - destruct (drop_oldest r Hok ltac:(lia)) as (Hok0 & _ & Hq0). rewrite Hq0. erewrite (bind_ok (gets _)) by reflexivity.
    pose proof (slot_run r 0 Hok) as Hslot. unfold place in Hslot. rewrite Z.add_0_r, Z.mod_small in Hslot by apply Hok. rewrite (bind_ok _ _ _ _ _ Hslot).
    rewrite (bind_ok _ _ _ _ _ (step_run r (read r) Hok ltac:(apply Hok))). erewrite (bind_ok (modify _)) by reflexivity. eexists. split; [reflexivity|]. by split.
Qed.
(** The newest item. *)
Lemma newest r : rb_ok r -> 0 < count r -> place r (count r - 1) = (write r - 1) mod rsize r /\ List.last (queue r) init = item r (count r - 1) /\
  queue (r <| write := (write r - 1) mod rsize r |>) = removelast (queue r).
Proof.
  intros Hok Hc. pose proof (rb_count_range r Hok) as Hcr. split_and!.
  - rewrite <- (write_place r Hok). unfold place. rewrite Zminus_mod_idemp_l. f_equal. lia.
  - unfold queue. replace (count r) with (count r - 1 + 1) at 1 by lia. rewrite seqZ_app, fmap_app, (seqZ_cons (0 + _) 1), (seqZ_nil _ (Z.pred 1)), Z.add_0_l by lia.
    by apply List.last_last.
  - assert (Hcount : count (r <| write := (write r - 1) mod rsize r |>) = count r - 1).
    { unfold count. simpl. rewrite Zminus_mod_idemp_l. replace (write r - 1 - read r) with ((write r - read r) - 1) by lia.
      rewrite <- Zminus_mod_idemp_l. fold (count r). apply Z.mod_small. lia. }
    unfold queue. rewrite Hcount. replace (count r) with (count r - 1 + 1) at 2 by lia.
    rewrite seqZ_app, fmap_app, (seqZ_cons (0 + _) 1), (seqZ_nil _ (Z.pred 1)) by lia. symmetry. exact (List.removelast_last _ _).
Qed.
Lemma before_run r : rb_ok r -> before (write r) ~{ r }~> (write r - 1) mod rsize r; r.
Proof. intros [Hn _ _ Hw]. unfold before. erewrite (bind_ok (gets _)) by reflexivity. by rewrite before_mod. Qed.
Lemma pop_front_run r : rb_ok r -> exists r', fs_rb_pop_front ~{ r }~> List.last (queue r) init; r' /\ rb_ok r' /\ rsize r' = rsize r /\ queue r' = removelast (queue r).
Proof.
  intros Hok. pose proof (rb_count_range r Hok) as Hcr. unfold fs_rb_pop_front. rewrite (bind_ok _ _ _ _ _ (rb_empty_run r Hok)).
  destruct (Z.eqb_spec (count r) 0) as [Hz|Hz]; cbn [bool_int negb Z.eqb].
  - exists r. by rewrite (queue_empty r Hok Hz).
  - destruct (newest r Hok ltac:(lia)) as (Hp & Hl & Hq). erewrite (bind_ok (gets _)) by reflexivity. rewrite (bind_ok _ _ _ _ _ (before_run r Hok)).
    erewrite (bind_ok (modify _)) by reflexivity. set (r' := r <| write := _ |>) in *.
    assert (Hok' : rb_ok r') by (destruct Hok; split; try done; unfold r'; simpl; apply Z.mod_pos_bound; lia).
    exists r'. rewrite Hl, <- Hp. split; [|done]. change (place r (count r - 1)) with (place r' (count r - 1)). by rewrite (slot_run r' _ Hok').
Qed.
Lemma back_run r : rb_ok r -> fs_rb_back ~{ r }~> hd init (queue r); r.
Proof.
  intros Hok. pose proof (rb_count_range r Hok) as Hcr. unfold fs_rb_back. rewrite (bind_ok _ _ _ _ _ (rb_empty_run r Hok)).
  destruct (Z.eqb_spec (count r) 0) as [Hz|Hz]; cbn [bool_int negb Z.eqb]; [by rewrite (queue_empty r Hok Hz)|].
  destruct (drop_oldest r Hok ltac:(lia)) as (_ & _ & ->). erewrite (bind_ok (gets _)) by reflexivity.
  pose proof (slot_run r 0 Hok) as Hslot. unfold place in Hslot. by rewrite Z.add_0_r, Z.mod_small in Hslot by apply Hok.
Qed.
Lemma front_run r : rb_ok r -> fs_rb_front ~{ r }~> List.last (queue r) init; r.
Proof.
  intros Hok. pose proof (rb_count_range r Hok) as Hcr. unfold fs_rb_front. rewrite (bind_ok _ _ _ _ _ (rb_empty_run r Hok)).
  destruct (Z.eqb_spec (count r) 0) as [Hz|Hz]; cbn [bool_int negb Z.eqb]; [by rewrite (queue_empty r Hok Hz)|].
  destruct (newest r Hok ltac:(lia)) as (Hp & -> & _). erewrite (bind_ok (gets _)) by reflexivity. rewrite (bind_ok _ _ _ _ _ (before_run r Hok)). rewrite <- Hp. by apply slot_run.
Qed.
Lemma rb_init_run r : 0 < len < 4294967296 -> exists r', fs_rb_init ~{ r }~> tt; r' /\ rb_ok r' /\ rsize r' = len /\ queue r' = [].
Proof.
  intros Hlen. eexists. split; [reflexivity|]. assert (Hok : rb_ok (MkRb len 0 0 (replicate (Z.to_nat len) (s32 (Z.land init 255 * 16843009))))).
  { split; simpl; try lia. rewrite length_replicate. lia. }
  split; [done|]. split; [done|]. apply queue_empty; [done|]. unfold count. simpl. apply Z.mod_0_l. lia.
Qed.

(** ** Sessions *)
Inductive op : Type := RPush (x : Z) | RPopBack | RPopFront | RBack | RFront | REmpty.
Definition do_op (o : op) : E Z :=
  match o with
  | RPush x => fs_rb_push_front x ;; mret 0
  | RPopBack => fs_rb_pop_back
  | RPopFront => fs_rb_pop_front
  | RBack => fs_rb_back
  | RFront => fs_rb_front
  | REmpty => fs_rb_empty
  end.
Fixpoint session (os : list op) : E (list Z) :=
  match os with [] => mret [] | o :: os => r ← do_op o; rs ← session os; mret (r :: rs) end.
Definition abs_op (o : op) (q : list Z) : Z * list Z :=
  match o with
  | RPush x => (0, room_for len (q ++ [x]))
  | RPopBack => (hd init q, tl q)
  | RPopFront => (List.last q init, removelast q)
  | RBack => (hd init q, q)
  | RFront => (List.last q init, q)
  | REmpty => (match q with [] => 1 | _ => 0 end, q)
  end.
Fixpoint abs_run (os : list op) (q : list Z) : list Z * list Z :=
  match os with [] => ([], q) | o :: os => let r := abs_op o q in let rs := abs_run os r.2 in (r.1 :: rs.1, rs.2) end.

Lemma rb_op_run r o : rb_ok r -> rsize r = len -> exists r', do_op o ~{ r }~> (abs_op o (queue r)).1; r' /\ rb_ok r' /\ rsize r' = len /\ queue r' = (abs_op o (queue r)).2.
Proof.
  intros Hok Hlen. destruct o as [x| | | | |]; cbn [do_op abs_op fst snd].
  - destruct (push_run r x Hok) as (r' & Hrun & Hok' & Hn & Hq). exists r'. rewrite (bind_ok _ _ _ _ _ Hrun), <- Hlen. done.
  - destruct (pop_back_run r Hok) as (r' & Hrun & Hok' & Hn & Hq). exists r'. by rewrite <- Hlen.
  - destruct (pop_front_run r Hok) as (r' & Hrun & Hok' & Hn & Hq). exists r'. by rewrite <- Hlen.
  - exists r. by rewrite (back_run r Hok).
  - exists r. by rewrite (front_run r Hok).
  - exists r. rewrite (rb_empty_run r Hok). split; [|done]. do 2 f_equal. pose proof (queue_length r Hok) as Hl. destruct (queue r); cbn [length] in Hl.
    + by rewrite (proj2 (Z.eqb_eq (count r) 0)) by lia.
    + by rewrite (proj2 (Z.eqb_neq (count r) 0)) by lia.
Qed.

(** C28: a ring buffer of [len] places is a queue of at most [len - 1] items: after its
    initialisation every sequence of operations gives the results of the queue, where
    a push onto a full queue loses the oldest item, and reading an empty one gives the
    initial value; no operation leaves the buffer. *)
Theorem ring_buffer_refines r os : 0 < len < 536870912 ->
  exists r', (fs_rb_init ;; session os) ~{ r }~> (abs_run os []).1; r' /\ rb_ok r' /\ queue r' = (abs_run os []).2.
Proof.
  intros Hlen. destruct (rb_init_run r ltac:(lia)) as (r0 & Hrun0 & Hok0 & Hn0 & Hq0). rewrite (bind_ok _ _ _ _ _ Hrun0). rewrite <- Hq0. clear Hrun0 Hq0 r.
  revert r0 Hok0 Hn0. induction os as [|o os IH]; intros r Hok Hn; [by exists r|]. cbn [session abs_run fst snd].
  destruct (rb_op_run r o Hok Hn) as (r1 & Hrun & Hok1 & Hn1 & Hq1). rewrite (bind_ok _ _ _ _ _ Hrun).
  destruct (IH r1 Hok1 Hn1) as (r' & Hrun' & Hok' & Hq'). exists r'. rewrite (bind_ok _ _ _ _ _ Hrun'), <- Hq1. done.
Qed.
End Operations.

(** A buffer of four places: the third push still fits, the fourth loses the first item. *)
Lemma ring_buffer_refines_witness : exists r',
  (fs_rb_init 4 (-1) ;; session (-1) [RPopBack; RPush 1; RPush 2; RPush 3; RPush 4; RFront; RPopBack; RPopFront; REmpty]) ~{ MkRb 0 0 0 [] }~> [-1; 0; 0; 0; 0; 4; 2; 4; 0]; r' /\
  rb_ok r' /\ queue r' = [3].
Proof.
  destruct (ring_buffer_refines 4 (-1) (MkRb 0 0 0 []) [RPopBack; RPush 1; RPush 2; RPush 3; RPush 4; RFront; RPopBack; RPopFront; REmpty] ltac:(lia)) as (r' & H).
  exists r'. exact H.
Defined.
End RingBuffer.
